(* ===== verification/_CoqProject ===== *)
-Q . S2P
Prelude.v
GoLib.v
Bytes.v
Text.v
Sdp.v
SdpSafe.v
SdpProps.v
Rtp.v
RtpProps.v
Rtcp.v
RtcpFeedback.v
RtcpCongestion.v
RtcpXr.v
RtcpPacket.v
RtcpCodec.v
RtcpProps.v
RtcpSafe.v
RtcpTcc.v
Twcc.v
TwccProps.v
Replay.v
ReplayProps.v
Srtp.v
SrtpProps.v
SrtpSafe.v
Float64.v
Nack.v
NackProps.v
Resend.v
Report.v
ReportProps.v
Interceptors.v
InterceptorsProps.v
InterceptorsSend.v
Ice.v
IceProps.v
MediaEngine.v
MediaEngineProps.v
Signaling.v
SignalingProps.v
Json.v
Constants.v
KeyframeFilter.v
World.v
Track.v
TrackProps.v
Rmq.v
Peer.v
Notify.v
Session.v
Room.v
RoomMgr.v
Callbacks.v
Config.v
Mqtt.v
Server.v
Demo.v
Startup.v
JsonProps.v
Invariant.v
PeerSafe.v
Links.v
SessionSafe.v
RoomSafe.v
RoomMgrSafe.v
RmqSafe.v
Safety.v
Outputs.v
Dispatch.v
Leave.v
Settled.v
Ready.v
ReadyRmq.v
PeerProps.v
Faults.v
Offer.v
Negotiate.v
Candidates.v
Push.v
MediaFaults.v
