(* ===== verification/Prelude.v ===== *)
(** * A verification of the media server [ms]

    [ms] is a Go program that forwards the audio, video and application data of
    WebRTC clients: users log in to rooms, publish streams, and subscribe to
    the streams of others.  Signalling messages are JSON objects that come over
    MQTT (clients) and RabbitMQ (a load balancer, the other pods of the cluster
    and, through a second broker, the other clusters).  A publisher of another
    cluster is represented by a "fake" session, to which this pod subscribes.

    ** Parts of the program, and where they are

    - [GoLib], [Json]: what the program uses of Go's standard library: strings,
      strconv, fixed-width integers, encoding/json in both directions, the %v
      verb; jsonparse.go (CreateJSONParser, GetValue, GetIntValue) is at the
      end of [Json].
    - [Constants]: definition.go.
    - [KeyframeFilter]: keyframerequestfilter.go, the filter that spaces the
      keyframe requests a publisher gets, with its timer goroutine; also as a
      small transition system of its own.
    - [World]: the state of the process: the configuration and the objects of
      every component (peer, session, room, roommgr, RabbitMQ, QueueExchange)
      in maps from pointers (numbers) to records with the fields of the Go
      structs, the mutexes, the goroutines that were started and did not run
      yet, the clock and the list of outputs.  Shared objects are shared: two
      sessions or maps that hold the same pointer see the same record.
    - [Rmq]: rmq.go.  [Peer] and [Callbacks]: peer.go, its methods and the
      closures it installs.  [Notify]: the notify... methods of roommgr.go,
      room.go and session.go.  [Session], [Room], [RoomMgr]: session.go,
      room.go, roommgr.go.  [Config]: config.go.  [Mqtt]: mqttclient.go.
    - [Bytes], [Rtp]: byte slices and big-endian words; pion/rtp packet.go, the
      reading and writing of RTP packets, headers and header extensions.
    - [Rtcp], [RtcpFeedback], [RtcpCongestion], [RtcpXr], [RtcpPacket]: the
      files of pion/rtcp: headers, reports, source descriptions and goodbyes;
      PLI, FIR, SLI, resynchronization requests and NACKs; RFC 8888 and
      transport-wide feedback and bitrate estimates; extended reports and the
      buffer they are laid out in; the dispatcher, datagrams and compound
      packets.
    - [Nack]: pion/interceptor pkg/nack: the receive log and the generator,
      which asks publishers for lost packets, the send buffer with its counted
      packets and the responder, which answers the NACKs of subscribers.
    - [Float64]: what the reports use of binary64 arithmetic and durations.
      [Report]: pion/interceptor pkg/report and its NTP times: the streams of
      the receiver and sender reports.  [Twcc]: pkg/twcc twcc.go: recording the
      arrivals of the transport-wide congestion control and making its feedback.
      [Interceptors]: the interface Interceptor, its chain and attributes, and
      the five interceptors that pion/webrtc's RegisterDefaultInterceptors
      gives every connection of the server.  The readers and writers of streams
      are closures over shared objects, as in the source; the goroutines are
      operations (a tick, the answer to a NACK).
    - [Text], [Sdp]: lemmas on strings and decimal numbers; pion/sdp: session
      descriptions, their lexer, the state machine of Unmarshal, and Marshal.
    - [Replay]: pion/transport replaydetector: the windows that recognize numbers
      seen before.  [Srtp]: pion/srtp: key derivation, the two ciphers, the
      contexts with their rollover counts, and what the sessions do with a
      datagram that comes in.
    - [Signaling]: pion/webrtc signalingstate.go, sdptype.go and, of
      peerconnection.go, the descriptions of a connection and their transitions.
      [Ice]: what is used of net and hash/crc32; pion/ice: candidates,
      their text and priorities, and pion/webrtc icecandidate.go, through which
      AddICECandidate and OnICECandidate convert them.  [MediaEngine]: pion/webrtc
      mediaengine.go: the codecs and header extensions of a connection and their
      negotiation, with the search for a codec (rtpcodec.go, internal/fmtp) and
      the codecs of a media description (sdp.go; pion/sdp util.go, extmap.go,
      jsep.go).  [Peer] uses the three for the calls on a peer's connection.
    - [Track]: pion/webrtc track_local_static.go with the choice of the codec
      and its collected errors (internal/util): the tracks media packets are
      written to.
    - [Server]: mediaserver.go, the goroutines ([run_task]) and the events from
      outside ([run_event]), the step relation and the reachable states.
    - [Demo]: a concrete environment and the sample runs of the witnesses.

    A Go function is a function of the same name (with a prefix where two types
    have a method of that name) in the monad [M] below: it takes the state and
    returns a value and a new state, or stops: with a panic, a fatal error of
    the runtime, or blocked for good in a mutex or a channel.  The conditions,
    early returns and the order of the calls are those of the source.

    The packages [Rtp] to [Track] compute without the state of the process;
    they are in the small monad [res] of [Bytes]: a value, an error of the
    package, a panic, or a loop that does not end.  A slice is an array and a
    length, so that reading past the length but within the capacity does what
    it does in Go.

    The rest is a parameter: the order in which Go visits
    a map and the rounding of decimal literals to float64 ([GoRuntime]), the
    rest of the WebRTC library: ICE agent, transceivers, transports ([WebRTC]), the amqp library
    ([Amqp]), net/url ([NetUrl]), the file system, the environment and the ini library ([sysenv]), and AES,
    AES-GCM and HMAC-SHA1 ([SrtpCrypto]; [SrtpCryptoOk] says what is relied on
    of them: lengths, and that GCM opens what it sealed), the conversions of
    floats to integers that Go leaves to the implementation ([FloatConversion])
    and the random numbers of [Interceptors].  Their
    calls may fail in every way the source handles; a connection answers as a
    function of its states and of the calls made on it before
    ([pc_log]).

    ** The theorems

    - [Invariant], [PeerSafe], [Links], [SessionSafe], [RoomSafe],
      [RoomMgrSafe], [RmqSafe] and [Safety]: the memory of a reachable server
      is well formed and no mutex is held between transitions; a goroutine or
      an event, run by itself, never closes a closed channel, never misuses or
      waits for a mutex and never waits for watchers for ever (with one exception
      in StopPush, which is a fault of the source); a closed peer is never used
      again.
    - [Leave], [Settled], [Ready] and [ReadyRmq]: handlers are always installed,
      no connection is left in the middle of an exchange, the retries of
      cross-cluster subscriptions are bounded, the flags of the brokers tell the
      truth when the amqp library works, and with that the goroutines that release
      peers, sessions and rooms always run to their end.
    - [Outputs]: who gets what: the fan-out of media packets and application
      data, and the notices about streams.
    - [Dispatch]: what the room manager answers before and after registration,
      the first login, own broadcasts.
    - [Push]: what a Push message leaves; and what two handlers that overlap can
      do, as sequences of their parts.
    - [PeerProps]: candidates that come early, the ssrcs of an offer.
    - [JsonProps]: JSON values, nested in any way, and the messages
      made of them are read back as they were written.
    - [IceProps]: candidates are read back as they were written, what the library
      makes of a text, the priorities of candidates and pairs.  [Candidates]: what
      the server does with candidates, in every reachable state, and how those of
      other clusters arrive.
    - [Startup]: main with and without a configuration.
    - [KeyframeFilter]: the spacing of keyframe requests, no lost request,
      Shutdown returns, and three races.
    - [Faults]: concrete runs that end in a panic, block or leak.
    - [Offer]: an offer on its way through the JSON decoder, the parser of
      descriptions and the peer: what is recorded of it, and one that stops the
      server.
    - [SignalingProps]: the state and the descriptions of a connection implement
      the offer/answer model, but for three of its transitions.  [MediaEngineProps]: codecs survive a description, which
      of them are negotiated, and which descriptions are refused; the ids of
      header extensions.  [Negotiate]: the signalling states and the codecs of the
      peers of a reachable server; an offer is answered in its handler; an answer
      that was not asked for, or an offer of a static payload type, stops the
      server.
    - [RtpProps]: what Marshal writes is the layout of the RFCs, it is read
      back, and what Unmarshal makes of any bytes, with any header extensions and
      in any buffer.
    - [RtcpCodec] (one instance of its class per packet type), [RtcpProps]:
      datagrams are read back as they were written.  [RtcpSafe]: reading any
      datagram ends, and which malformed ones panic.
    - [SdpSafe]: reading any text as a session description ends.  [SdpProps]:
      descriptions are read back as they were written.
    - [ReplayProps]: the window, with its words, shifts and wrapping numbers,
      implements the set of the numbers accepted.  [SrtpProps]: SRTP and SRTCP
      deliver each packet once, as it was sent.  [SrtpSafe]: what a forged
      packet leaves behind, and what it can stop.
    - [NackProps]: the receive log implements the set of the numbers that
      arrived.  [Resend]: the send buffer implements the list of the packets
      sent.
    - [Float64]: the truncated binary64 quotient of two integers is their
      integer quotient.  [ReportProps]: receiver reports implement the account
      of the numbers that arrived.  [RtcpTcc], [TwccProps]: the feedback of the
      congestion control, written, sent and read, reports what arrived.
    - [InterceptorsProps]: NACKs, receiver reports and feedback of one
      connection agree with what was read from it; which errors reads give, and
      two faults in the removal of streams.  [InterceptorsSend]: what is written
      is sent, kept, counted, and sent again when it is asked for.
    - [TrackProps]: what a track's writers get, and the codec a video track is
      bound to.  [MediaFaults]: packets that stop the server.

    ** Bounds and granularity

    A transition runs one goroutine body, or one handler of an event, to its
    end.  Goroutines and handlers come in any order, one at a time; handlers that
    overlap (the source reads several maps without their mutex) are outside of
    the reachable states, and so is a run after a panic or with a goroutine left
    blocked, although in the source the others go on then, possibly with a mutex
    held by the one that is blocked: what the theorems say of reachable states
    holds up to the first stop.  The reachable states begin when main has
    installed the send handler; [Startup] has the messages that come before.  Goroutines that wait in a select (timers, the registration, the
    producers and receivers of exchanges, the watchers of FakeSubscribe) are
    counted in the state of their owner, and their rounds are events or part of
    the send they serve.

    No definition of the server's own components needs fuel; loops are over
    lists or maps.  The
    JSON encoder and decoder recurse over strings with the length of the string
    as fuel, one unit per rune or token at least, so it does not run out
    ([JsonProps] proves it for what Marshal writes).  Integers are [Z], wrapped
    where the source has a fixed width that can overflow ([to_uint64] in GetSn,
    [to_int64] in the filter, [to_uint16] and [to_uint32]).  The loops of the
    packages over the bytes of a packet have the length of the packet as fuel,
    those over 16-bit numbers 2^16 rounds, those of the lexer of session
    descriptions one more than the length of the text, its states two more, the
    counter mode of [Srtp] one more than the length of its input, the chunks of
    [Twcc] the length of the last one; running out is the outcome [Diverge], and
    [RtcpSafe], [RtpProps], [SdpSafe], [NackProps], [Resend], [ReportProps] and
    [TwccProps] prove that it does not happen.  In [Interceptors], [Diverge] is a
    send on a channel that nobody reads, too.

    Not modelled: what is printed to standard output; the String methods; the
    rest of the vendored packages under third/; within pion/interceptor the
    intervals of the tickers, options and pools, interleavings inside one packet's
    handling, and the interceptors the server does not register; within pion/ice
    everything but candidates, and of those their ids and sockets;
    in [MediaEngine] letter case outside of ASCII and statistics; the goroutines and stream buffers of pion/srtp and
    its export of keys; the test page, the limit of encoding/json on nesting, and the
    non-ASCII spaces of strings.Fields.  Control characters are escaped in JSON
    strings the way Go did before 1.22. *)

From stdpp Require Export prelude gmap strings list.
From Stdlib Require Export ZArith Lia.
Open Scope Z_scope.

#[global] Arguments String.append : simpl nomatch.

(** ** Outcomes of a goroutine

    A Go function that runs to its end returns a value; a run can also stop
    for good: a panic (or a fatal error of the runtime) ends the process, and
    an operation on a mutex or a channel can leave the goroutine blocked. *)

(** The mutexes of the program, by owner. *)
Inductive lockid :=
  | LRooms                    (* roommgr.roomsLock *)
  | LSessions (r : nat)       (* room.sessionsLock *)
  | LPubs (s : nat)           (* session.pubsmux *)
  | LSubs (s : nat)           (* session.subsmux *)
  | LMq (q : nat).            (* RabbitMQ.mu *)

#[export] Instance lockid_eq_dec : EqDecision lockid.
Proof. solve_decision. Defined.

(** The channels a goroutine can block on. *)
Inductive chanid :=
  | CStopRegist               (* roommgr.stopRegist *)
  | CMsgChan                  (* QueueExchange.msgChan *)
  | CExitExc                  (* QueueExchange.exitChan *)
  | CWaitSession              (* session.waitGroup *)
  | CWaitFilter               (* KeyframeFilter.waitGroup *)
  | CWaitMq                   (* RabbitMQ.waitGroup *)
  | CRemoteSdp.               (* peer.remoteSdpReceived *)

#[export] Instance chanid_eq_dec : EqDecision chanid.
Proof. solve_decision. Defined.

Inductive stop :=
  | PNilDeref                 (* nil pointer dereference *)
  | PNilFunc                  (* call of a nil func value *)
  | PCloseClosed              (* close of a closed channel *)
  | PMutex (l : lockid)       (* fatal error: unlock of an unlocked mutex *)
  | PExplicit                 (* panic(err) written in the source *)
  | PIndex                    (* index or slice bound out of range *)
  | PTypeAssert               (* x.(T) on a value of another type *)
  | PDangling                 (* a pointer to no object: never happens in Go *)
  | HLock (l : lockid)        (* blocked on a mutex *)
  | HChan (c : chanid).       (* blocked on a channel or a wait group *)

#[export] Instance stop_eq_dec : EqDecision stop.
Proof. solve_decision. Defined.

Inductive outcome (S A : Type) :=
  | Ret (a : A) (s : S)
  | Stop (r : stop) (s : S).
Arguments Ret {S A} a s.
Arguments Stop {S A} r s.

(** ** The state and stop monad *)

Definition M (S A : Type) : Type := S → outcome S A.

#[export] Instance M_ret S : MRet (M S) := λ A a s, Ret a s.
#[export] Instance M_bind S : MBind (M S) := λ A B f m s,
  match m s with
  | Ret a s' => f a s'
  | Stop r s' => Stop r s'
  end.

Definition gets {S A} (f : S → A) : M S A := λ s, Ret (f s) s.
Definition modify {S} (f : S → S) : M S unit := λ s, Ret tt (f s).
Definition halt {S A} (r : stop) : M S A := λ s, Stop r s.
Definition skip {S} : M S unit := mret tt.

(** A pointer that may be nil is dereferenced. *)
Definition from_some {S A} (r : stop) (o : option A) : M S A :=
  match o with
  | Some a => mret a
  | None => halt r
  end.

(** A [for ... range] loop over the elements of a list. *)
Fixpoint for_each {S A} (l : list A) (body : A → M S unit) : M S unit :=
  match l with
  | [] => skip
  | x :: l => _ ← body x; for_each l body
  end.

(** A first step that returns. *)
Lemma bind_ret {S A B} (m : M S A) (k : A → M S B) s a s' :
  m s = Ret a s' → (m ≫= k) s = k a s'.
Proof. intros E. unfold mbind, M_bind. by rewrite E. Qed.

(** ** Weakest preconditions *)

Definition wp {S A} (m : M S A) (Q : A → S → Prop) (E : stop → S → Prop) (s : S) : Prop :=
  match m s with
  | Ret a s' => Q a s'
  | Stop r s' => E r s'
  end.

Section wp.
Context {S : Type}.
Implicit Types (s : S) (E : stop → S → Prop).

Lemma wp_ret {A} (a : A) Q E s : Q a s → wp (mret a) Q E s.
Proof. done. Qed.

Lemma wp_bind {A B} (m : M S A) (k : A → M S B) Q E s :
  wp m (λ a, wp (k a) Q E) E s → wp (m ≫= k) Q E s.
Proof. unfold wp, mbind, M_bind. by destruct (m s). Qed.

Lemma wp_mono {A} (m : M S A) (Q Q' : A → S → Prop) (E E' : stop → S → Prop) s :
  wp m Q E s → (∀ a s', Q a s' → Q' a s') → (∀ r s', E r s' → E' r s') →
  wp m Q' E' s.
Proof. unfold wp. destruct (m s); eauto. Qed.

Lemma wp_gets {A} (f : S → A) (Q : A → S → Prop) E s : Q (f s) s → wp (gets f) Q E s.
Proof. done. Qed.

Lemma wp_modify (f : S → S) (Q : unit → S → Prop) E s : Q tt (f s) → wp (modify f) Q E s.
Proof. done. Qed.

Lemma wp_halt {A} r (Q : A → S → Prop) E s : E r s → wp (halt r) Q E s.
Proof. done. Qed.

Lemma wp_from_some {A} r (o : option A) (Q : A → S → Prop) E s :
  (∀ a, o = Some a → Q a s) → (o = None → E r s) → wp (from_some r o) Q E s.
Proof. destruct o; intros H1 H2; [by apply H1 | by apply H2]. Qed.

(** The loop rule: an invariant that may name the elements still to visit. *)
Lemma wp_for_each {A} (l : list A) (body : A → M S unit)
    (I : list A → S → Prop) (Q : unit → S → Prop) E s :
  I l s →
  (∀ x l' s', suffix (x :: l') l → I (x :: l') s' → wp (body x) (λ _, I l') E s') →
  (∀ s', I [] s' → Q tt s') →
  wp (for_each l body) Q E s.
Proof.
  intros Hi Hbody HQ.
  assert (∀ l1 s1, suffix l1 l → I l1 s1 → wp (for_each l1 body) Q E s1) as Hgen.
  { induction l1 as [|x l1 IH]; intros s1 Hsuf H1; simpl.
    - apply wp_ret. auto.
    - apply wp_bind. eapply wp_mono; [by apply Hbody | | auto].
      intros [] s2 H2. apply IH; [by eapply suffix_cons_l | done]. }
  by apply Hgen.
Qed.

Lemma wp_run {A} (m : M S A) Q E s a s' : wp m Q E s → m s = Ret a s' → Q a s'.
Proof. unfold wp. intros H Heq. by rewrite Heq in H. Qed.

Lemma wp_run_stop {A} (m : M S A) Q E s r s' : wp m Q E s → m s = Stop r s' → E r s'.
Proof. unfold wp. intros H Heq. by rewrite Heq in H. Qed.
End wp.

(** ** Lists *)

Lemma length_delete_le {A} (l : list A) i : (length (delete i l) <= length l)%nat.
Proof.
  revert i. induction l as [|x l IH]; intros [|i]; simpl; [lia.. |]. specialize (IH i). lia.
Qed.
