(* ===== verification/GoLib.v ===== *)
(** * The parts of Go's standard library the server relies on

    Strings are Go strings: sequences of bytes.  [strings.Contains],
    [strings.Split], [strings.SplitN], [strings.Join], [strings.Fields],
    [strings.FieldsFunc], [strings.EqualFold], [strings.TrimSpace], [strconv.Atoi],
    [strconv.Itoa], the UTF-8 decoder of [unicode/utf8], and the wrap-around of
    the fixed-width integers.  The order in which [range] visits a map is not
    specified by Go: it is a parameter, a permutation chosen afresh by every
    loop ([GoRuntime]). *)

From Stdlib Require Import Decimal DecimalString DecimalZ DecimalN DecimalFacts Ascii.
From S2P Require Import Prelude.

(** ** Bytes and strings *)

Definition byte (c : ascii) : Z := Z.of_N (N_of_ascii c).
Definition chr (z : Z) : ascii := ascii_of_N (Z.to_N z).

Fixpoint string_len (s : string) : nat :=
  match s with
  | EmptyString => O
  | String _ s => S (string_len s)
  end.

Fixpoint has_prefix (p s : string) : bool :=
  match p, s with
  | EmptyString, _ => true
  | String a p, String b s => if Ascii.eqb a b then has_prefix p s else false
  | _, EmptyString => false
  end.

(** strings.Contains(s, sub) *)
Fixpoint str_contains (s sub : string) : bool :=
  has_prefix sub s ||
  match s with
  | EmptyString => false
  | String _ s => str_contains s sub
  end.

(** strings.FieldsFunc(s, f): maximal runs of bytes that do not satisfy [f].
    [cur] holds the current field. *)
Fixpoint fields_func_aux (f : ascii → bool) (cur s : string) : list string :=
  match s with
  | EmptyString => if decide (cur = EmptyString) then [] else [cur]
  | String c s =>
      if f c then
        (if decide (cur = EmptyString) then [] else [cur]) ++ fields_func_aux f EmptyString s
      else fields_func_aux f (cur +:+ String c EmptyString) s
  end.
Definition fields_func (f : ascii → bool) (s : string) : list string :=
  fields_func_aux f EmptyString s.

(** The ASCII part of unicode.IsSpace. *)
Definition is_space (c : ascii) : bool :=
  (byte c =? 32) || ((9 <=? byte c) && (byte c <=? 13)).

(** strings.Fields *)
Definition str_fields (s : string) : list string := fields_func is_space s.

(** strings.Split(s, sep) for a separator of one byte: never empty. *)
Fixpoint str_split_aux (sep : ascii) (cur s : string) : list string :=
  match s with
  | EmptyString => [cur]
  | String c s =>
      if Ascii.eqb c sep then cur :: str_split_aux sep EmptyString s
      else str_split_aux sep (cur +:+ String c EmptyString) s
  end.
Definition str_split (s : string) (sep : ascii) : list string :=
  str_split_aux sep EmptyString s.

(** s[:n] and s[n:] *)
Fixpoint str_take (n : nat) (s : string) : string :=
  match n, s with
  | S n, String c s => String c (str_take n s)
  | _, _ => EmptyString
  end.

Fixpoint str_drop (n : nat) (s : string) : string :=
  match n, s with
  | S n, String _ s => str_drop n s
  | _, _ => s
  end.

(** strings.TrimPrefix *)
Definition TrimPrefix (s p : string) : string := if has_prefix p s then str_drop (string_len p) s else s.

(** strings.Join *)
Fixpoint str_join (sep : string) (l : list string) : string :=
  match l with
  | [] => EmptyString
  | [x] => x
  | x :: l => x +:+ sep +:+ str_join sep l
  end.

(** ASCII letters only. *)
Definition to_lower_char (c : ascii) : ascii :=
  if (65 <=? byte c) && (byte c <=? 90) then chr (byte c + 32) else c.

Fixpoint to_lower (s : string) : string :=
  match s with
  | EmptyString => EmptyString
  | String c s => String (to_lower_char c) (to_lower s)
  end.

(** strings.EqualFold *)
Definition EqualFold (a b : string) : bool := bool_decide (to_lower a = to_lower b).

Fixpoint trim_left (s : string) : string :=
  match s with
  | EmptyString => EmptyString
  | String c r => if is_space c then trim_left r else s
  end.

Fixpoint trim_right (s : string) : string :=
  match s with
  | EmptyString => EmptyString
  | String c r =>
      match trim_right r with
      | EmptyString => if is_space c then EmptyString else String c EmptyString
      | r' => String c r'
      end
  end.

(** strings.TrimSpace *)
Definition TrimSpace (s : string) : string := trim_right (trim_left s).

(** strings.SplitN(s, sep, 2) for a separator of one byte: what comes before the
    first one, and what follows it. *)
Fixpoint str_cut (sep : ascii) (s : string) : string * option string :=
  match s with
  | EmptyString => (EmptyString, None)
  | String c r =>
      if Ascii.eqb c sep then (EmptyString, Some r)
      else let x := str_cut sep r in (String c x.1, x.2)
  end.

Definition is_digit (c : ascii) : bool := (48 <=? byte c) && (byte c <=? 57).

(** strconv.Atoi on a 64-bit int. *)
Fixpoint atoi_digits (acc : Z) (s : string) : option Z :=
  match s with
  | EmptyString => Some acc
  | String c s => if is_digit c then atoi_digits (10 * acc + (byte c - 48)) s else None
  end.
Definition atoi (s : string) : option Z :=
  let '(neg, ds) :=
    match s with
    | String "-" s' => (true, s')
    | String "+" s' => (false, s')
    | _ => (false, s)
    end in
  if decide (ds = EmptyString) then None
  else match atoi_digits 0 ds with
       | Some n =>
           let z := if neg : bool then - n else n in
           if (- 2 ^ 63 <=? z) && (z <? 2 ^ 63) then Some z else None
       | None => None
       end.

(** strconv.Itoa, and the %d verb. *)
Definition itoa (z : Z) : string := NilZero.string_of_int (Z.to_int z).

(** Conversions between integer types keep the low bits. *)
Definition to_uint16 (z : Z) : Z := z mod 2 ^ 16.
Definition to_uint32 (z : Z) : Z := z mod 2 ^ 32.
Definition to_uint64 (z : Z) : Z := z mod 2 ^ 64.

(** Signed 64-bit arithmetic (int64, time.Duration). *)
Definition to_int64 (z : Z) : Z := (z + 2 ^ 63) mod 2 ^ 64 - 2 ^ 63.

(** ** Floating-point numbers as decimals

    A finite float64 is the shortest decimal that denotes it, the one strconv
    prints: [± 0.d1 d2 ... dn * 10 ^ dexp], with neither a leading nor a
    trailing zero among the digits; zero has no digits. *)
Record dec := Dec { dneg : bool; ddig : string; dexp : Z }.

#[export] Instance dec_eq_dec : EqDecision dec.
Proof. solve_decision. Defined.

Definition dec_zero : dec := Dec false EmptyString 0.
Definition dec_is_zero (d : dec) : bool := bool_decide (ddig d = EmptyString).

(** Leading zeros go, each moves the point by one. *)
Fixpoint strip_lead (s : string) (e : Z) : string * Z :=
  match s with
  | String "0" s' => strip_lead s' (e - 1)
  | _ => (s, e)
  end.

Fixpoint strip_trail (s : string) : string :=
  match s with
  | EmptyString => EmptyString
  | String c s' =>
      let t := strip_trail s' in
      if decide (t = EmptyString) then
        (if Ascii.eqb c "0" then EmptyString else String c EmptyString)
      else String c t
  end.

(** The decimal of a literal: integer digits, fraction digits, exponent. *)
Definition mk_dec (neg : bool) (int frac : string) (e : Z) : dec :=
  let '(ds, e') := strip_lead (int +:+ frac) (Z.of_nat (string_len int) + e) in
  let ds := strip_trail ds in
  Dec neg ds (if decide (ds = EmptyString) then 0 else e').

(** ** What Go leaves open

    [range_order n l] is the order in which the [n]-th loop of a run visits
    the keys [l]; [float64_of] rounds a decimal literal to the float64 that
    strconv.ParseFloat returns ([None] when it is out of range): literals of
    at most 15 significant digits are kept. *)
Class GoRuntime := {
  range_order : nat → list string → list string;
  range_order_perm : ∀ n l, range_order n l ≡ₚ l;
  float64_of : dec → option dec;
  float64_of_exact : ∀ d,
    (string_len (ddig d) <= 15)%nat → -300 ≤ dexp d ≤ 300 → float64_of d = Some d;
}.

Lemma to_int64_small z : - 2 ^ 63 ≤ z < 2 ^ 63 → to_int64 z = z.
Proof. intros H. unfold to_int64. rewrite Z.mod_small; lia. Qed.

Lemma string_app_nil_r s : s +:+ EmptyString = s.
Proof. induction s as [|c s IH]; simpl; [done|]. by rewrite IH. Qed.

Lemma string_app_assoc s1 s2 s3 : s1 +:+ (s2 +:+ s3) = (s1 +:+ s2) +:+ s3.
Proof. induction s1 as [|c s1 IH]; simpl; [done|]. by rewrite IH. Qed.

Lemma string_len_app s1 s2 : string_len (s1 +:+ s2) = (string_len s1 + string_len s2)%nat.
Proof. induction s1 as [|c s1 IH]; simpl; [done|]. by rewrite IH. Qed.

Lemma has_prefix_app p s : has_prefix p (p +:+ s) = true.
Proof. induction p as [|c p IH]; simpl; [done|]. by rewrite Ascii.eqb_refl. Qed.

Lemma str_contains_prefix s sub : has_prefix sub s = true → str_contains s sub = true.
Proof. intros H. destruct s; simpl in *; by rewrite H. Qed.

Lemma str_contains_app s1 s2 : str_contains (s1 +:+ s2) s2 = true.
Proof.
  induction s1 as [|c s1 IH]; simpl.
  - apply str_contains_prefix. rewrite <- (string_app_nil_r s2) at 2. apply has_prefix_app.
  - rewrite IH. by rewrite orb_true_r.
Qed.
