(* ===== verification/Bytes.v ===== *)
(** * Byte slices, big-endian words and fallible code

    What the packet codecs of the media path (pion/rtp, pion/rtcp) use of Go:
    a slice is a window on an array, so that an index is checked against the
    length and a slice expression against the capacity; the functions of
    encoding/binary; writes into a buffer that was made before; and the three
    ways such code can end, a value, an error or a panic.  Loops that are not
    over a list take fuel and end in [Diverge] when it runs out: the theorems
    about them show that it does not. *)

From S2P Require Import Prelude.

(** ** Results *)

Inductive res (E A : Type) :=
  | Ok (a : A)
  | Err (e : E)
  | Panic                     (* index or slice bounds out of range *)
  | Diverge.                  (* out of fuel *)
Arguments Ok {E A} a.
Arguments Err {E A} e.
Arguments Panic {E A}.
Arguments Diverge {E A}.

#[export] Instance res_ret E : MRet (res E) := λ A a, Ok a.
#[export] Instance res_bind E : MBind (res E) := λ A B f m,
  match m with
  | Ok a => f a
  | Err e => Err e
  | Panic => Panic
  | Diverge => Diverge
  end.

#[export] Instance res_fmap E : FMap (res E) := λ A B f m,
  match m with
  | Ok a => Ok (f a)
  | Err e => Err e
  | Panic => Panic
  | Diverge => Diverge
  end.

(** An early return: [if c { return err }]. *)
Definition fail_if {E} (c : bool) (e : E) : res E unit := if c then Err e else Ok tt.

(** The result is a value or an error. *)
Definition safe {E A} (m : res E A) : Prop :=
  match m with
  | Ok _ | Err _ => True
  | Panic | Diverge => False
  end.

(** A value, if any, satisfies [Q], and the code neither panics nor diverges. *)
Definition res_wp {E A} (m : res E A) (Q : A → Prop) : Prop :=
  match m with
  | Ok a => Q a
  | Err _ => True
  | Panic | Diverge => False
  end.

Section res.
Context {E : Type}.

Lemma bind_Ok {A B} (a : A) (k : A → res E B) : Ok a ≫= k = k a.
Proof. done. Qed.

Lemma bind_Ok_inv {A B} (m : res E A) (k : A → res E B) b :
  m ≫= k = Ok b → ∃ a, m = Ok a ∧ k a = Ok b.
Proof. destruct m; simpl; try done. eauto. Qed.

Lemma fail_if_false (c : bool) (e : E) : c = false → fail_if c e = Ok tt.
Proof. by intros ->. Qed.

(** A guard that does not hold is passed. *)
Lemma fail_step {A} (c : bool) (e : E) (k : unit → res E A) r :
  c = false → k tt = r → fail_if c e ≫= k = r.
Proof. by intros ->. Qed.

Lemma fail_if_Ok_inv (c : bool) (e : E) u : fail_if c e = Ok u → c = false.
Proof. by destruct c. Qed.

Lemma res_wp_ret {A} (a : A) (Q : A → Prop) : Q a → res_wp (E := E) (Ok a) Q.
Proof. done. Qed.

Lemma res_wp_bind {A B} (m : res E A) (k : A → res E B) Q :
  res_wp m (λ a, res_wp (k a) Q) → res_wp (m ≫= k) Q.
Proof. by destruct m. Qed.

Lemma res_wp_fail_if (c : bool) (e : E) Q : (c = false → Q tt) → res_wp (fail_if c e) Q.
Proof. destruct c; simpl; auto. Qed.

Lemma res_wp_mono {A} (m : res E A) (Q Q' : A → Prop) :
  res_wp m Q → (∀ a, Q a → Q' a) → res_wp m Q'.
Proof. destruct m; simpl; auto. Qed.

Lemma res_wp_safe {A} (m : res E A) Q : res_wp m Q → safe m.
Proof. by destruct m. Qed.

Lemma res_wp_Ok {A} (m : res E A) Q a : res_wp m Q → m = Ok a → Q a.
Proof. by intros H ->. Qed.
End res.

(** [m] ends with an error, with a value in [Q], or, if [p] allows it, with a
    panic. *)
Definition ends {E A} (p : bool) (m : res E A) (Q : A → Prop) : Prop :=
  match m with
  | Ok a => Q a
  | Err _ => True
  | Panic => p = true
  | Diverge => False
  end.

Section ends.
Context {E : Type} {p : bool}.

Lemma ends_ret {A} (a : A) (Q : A → Prop) : Q a → ends (E := E) p (Ok a) Q.
Proof. done. Qed.

Lemma ends_err {A} e (Q : A → Prop) : ends (E := E) p (Err e) Q.
Proof. done. Qed.

Lemma ends_bind {A B} (m : res E A) (k : A → res E B) Q :
  ends p m (λ a, ends p (k a) Q) → ends p (m ≫= k) Q.
Proof. by destruct m. Qed.

Lemma ends_fmap {A B} (m : res E A) (f : A → B) Q : ends p m (λ a, Q (f a)) → ends p (f <$> m) Q.
Proof. by destruct m. Qed.

Lemma ends_fail_if (c : bool) (e : E) Q : (c = false → Q tt) → ends p (fail_if c e) Q.
Proof. destruct c; simpl; auto. Qed.

Lemma ends_mono {A} (m : res E A) (Q Q' : A → Prop) :
  ends p m Q → (∀ a, Q a → Q' a) → ends p m Q'.
Proof. destruct m; simpl; auto. Qed.

Lemma ends_wp {A} (m : res E A) Q (c : Prop) :
  Decision c → (c → res_wp m Q) → (¬ c → m = Panic) → (p = false → c) → ends p m Q.
Proof.
  intros [Hc|Hc] H1 H2 H3.
  - specialize (H1 Hc). by destruct m.
  - rewrite H2 by done. simpl. destruct p; [done|]. by destruct (Hc (H3 eq_refl)).
Qed.

End ends.

(** ** Bytes and words *)

Definition is_byte (z : Z) : Prop := 0 ≤ z < 256.
Definition is_u16 (z : Z) : Prop := 0 ≤ z < 2 ^ 16.
Definition is_u32 (z : Z) : Prop := 0 ≤ z < 2 ^ 32.
Definition is_u64 (z : Z) : Prop := 0 ≤ z < 2 ^ 64.

(** Conversions keep the low bits; [uint8(z)] also stores a byte. *)
Definition u8 (z : Z) : Z := z mod 2 ^ 8.
Definition u16 (z : Z) : Z := z mod 2 ^ 16.
Definition u32 (z : Z) : Z := z mod 2 ^ 32.

(** binary.BigEndian.PutUint16, PutUint32 and PutUint64: the bytes written. *)
Definition be16 (v : Z) : list Z := [u8 (Z.shiftr v 8); u8 v].
Definition be32 (v : Z) : list Z :=
  [u8 (Z.shiftr v 24); u8 (Z.shiftr v 16); u8 (Z.shiftr v 8); u8 v].
Definition be64 (v : Z) : list Z := be32 (Z.shiftr v 32) ++ be32 v.
#[global] Arguments be16 : simpl never.
#[global] Arguments be32 : simpl never.
#[global] Arguments be64 : simpl never.

(** binary.BigEndian.Uint16, Uint32 and Uint64 of the first bytes. *)
Definition word16 (b0 b1 : Z) : Z := Z.lor b1 (Z.shiftl b0 8).
Definition word32 (b0 b1 b2 b3 : Z) : Z :=
  Z.lor (Z.lor (Z.lor b3 (Z.shiftl b2 8)) (Z.shiftl b1 16)) (Z.shiftl b0 24).
Definition word64 (b0 b1 b2 b3 b4 b5 b6 b7 : Z) : Z :=
  Z.lor (word32 b4 b5 b6 b7) (Z.shiftl (word32 b0 b1 b2 b3) 32).

(** A disjunction of bits that do not overlap is a sum. *)
Lemma testbit_small a n i : 0 ≤ n ≤ i → 0 ≤ a < 2 ^ n → Z.testbit a i = false.
Proof.
  intros Hn Ha. rewrite <- (Z.mod_small a (2 ^ n)) by done. apply Z.mod_pow2_bits_high. lia.
Qed.

Lemma land_shiftl_disjoint a b n : 0 ≤ n → 0 ≤ a < 2 ^ n → Z.land a (Z.shiftl b n) = 0.
Proof.
  intros Hn Ha. apply Z.bits_inj'. intros i Hi. rewrite Z.land_spec, Z.bits_0.
  destruct (decide (i < n)).
  - by rewrite Z.shiftl_spec_low, andb_false_r.
  - by rewrite (testbit_small a n) by lia.
Qed.

Lemma lor_shiftl_add a b n : 0 ≤ n → 0 ≤ a < 2 ^ n → Z.lor a (Z.shiftl b n) = a + b * 2 ^ n.
Proof.
  intros Hn Ha. pose proof (land_shiftl_disjoint a b n Hn Ha) as Hd.
  rewrite <- Z.lxor_lor by done. rewrite <- Z.add_nocarry_lxor by done.
  by rewrite Z.shiftl_mul_pow2.
Qed.

Lemma word16_sum b0 b1 : is_byte b1 → word16 b0 b1 = b1 + b0 * 2 ^ 8.
Proof. intros H. unfold word16. by rewrite lor_shiftl_add. Qed.

Lemma word32_sum b0 b1 b2 b3 : is_byte b1 → is_byte b2 → is_byte b3 →
  word32 b0 b1 b2 b3 = b3 + b2 * 2 ^ 8 + b1 * 2 ^ 16 + b0 * 2 ^ 24.
Proof.
  unfold is_byte, word32. intros. rewrite (lor_shiftl_add b3) by lia.
  rewrite (lor_shiftl_add (b3 + _)) by lia. rewrite lor_shiftl_add by lia. done.
Qed.

Lemma u8_byte z : is_byte (u8 z).
Proof. unfold is_byte, u8. by apply Z.mod_pos_bound. Qed.

Lemma u8_small z : is_byte z → u8 z = z.
Proof. unfold is_byte, u8. intros. by apply Z.mod_small. Qed.

Lemma u16_small z : is_u16 z → u16 z = z.
Proof. unfold is_u16, u16. intros. by apply Z.mod_small. Qed.

Lemma u32_small z : is_u32 z → u32 z = z.
Proof. unfold is_u32, u32. intros. by apply Z.mod_small. Qed.

Lemma u16_range z : is_u16 (u16 z).
Proof. unfold is_u16, u16. by apply Z.mod_pos_bound. Qed.

Lemma u32_range z : is_u32 (u32 z).
Proof. unfold is_u32, u32. by apply Z.mod_pos_bound. Qed.

Lemma land_low z k m : 0 ≤ k → m = Z.ones k → 0 ≤ Z.land z m < 2 ^ k.
Proof. intros Hk ->. rewrite Z.land_ones by done. by apply Z.mod_pos_bound, Z.pow_pos_nonneg. Qed.

(** A word is read back from the bytes that were written. *)
Lemma word16_be16 v : is_u16 v → word16 (u8 (Z.shiftr v 8)) (u8 v) = v.
Proof.
  intros H. rewrite word16_sum by apply u8_byte. unfold u8, is_u16 in *.
  rewrite Z.shiftr_div_pow2 by done. Z.div_mod_to_equations. lia.
Qed.

Lemma word32_be32 v : is_u32 v →
  word32 (u8 (Z.shiftr v 24)) (u8 (Z.shiftr v 16)) (u8 (Z.shiftr v 8)) (u8 v) = v.
Proof.
  intros H. rewrite word32_sum by apply u8_byte. unfold u8, is_u32 in *.
  rewrite !Z.shiftr_div_pow2 by done. Z.div_mod_to_equations. lia.
Qed.

Lemma word16_u16 b0 b1 : is_byte b0 → is_byte b1 → is_u16 (word16 b0 b1).
Proof. intros. rewrite word16_sum by done. unfold is_byte, is_u16 in *. lia. Qed.

Lemma word32_u32 b0 b1 b2 b3 :
  is_byte b0 → is_byte b1 → is_byte b2 → is_byte b3 → is_u32 (word32 b0 b1 b2 b3).
Proof. intros. rewrite word32_sum by done. unfold is_byte, is_u32 in *. lia. Qed.

Lemma length_be16 v : length (be16 v) = 2%nat.
Proof. done. Qed.
Lemma length_be32 v : length (be32 v) = 4%nat.
Proof. done. Qed.
Lemma length_be64 v : length (be64 v) = 8%nat.
Proof. done. Qed.

Lemma be16_bytes v : Forall is_byte (be16 v).
Proof. repeat constructor; apply u8_byte. Qed.

Lemma be32_bytes v : Forall is_byte (be32 v).
Proof. repeat constructor; apply u8_byte. Qed.

(** ** Slices

    [s_arr] holds the bytes from the first one of the slice to the end of its
    capacity. *)
Record slice := Slice { s_arr : list Z; s_len : nat }.

Definition s_cap (b : slice) : nat := length (s_arr b).

(** The bytes a slice shows. *)
Definition s_bytes (b : slice) : list Z := take (s_len b) (s_arr b).

Definition s_ok (b : slice) : Prop := (s_len b <= s_cap b)%nat ∧ Forall is_byte (s_arr b).

(** A slice without room to grow. *)
Definition of_bytes (l : list Z) : slice := Slice l (length l).

Section slices.
Context {E : Type}.

(** [b[i]] *)
Definition s_idx (b : slice) (i : nat) : res E Z :=
  if (i <? s_len b)%nat then Ok (nth i (s_arr b) 0) else Panic.

(** [b[i:]] *)
Definition s_from (b : slice) (i : nat) : res E slice :=
  if (i <=? s_len b)%nat then Ok (Slice (drop i (s_arr b)) (s_len b - i)) else Panic.

(** [b[i:j]]: the upper bound may go past the length, up to the capacity. *)
Definition s_sub (b : slice) (i j : nat) : res E slice :=
  if ((i <=? j) && (j <=? s_cap b))%nat then Ok (Slice (drop i (s_arr b)) (j - i)) else Panic.

(** binary.BigEndian.Uint16(b), Uint32(b), Uint64(b) *)
Definition get16 (b : slice) : res E Z :=
  match s_bytes b with
  | b0 :: b1 :: _ => Ok (word16 b0 b1)
  | _ => Panic
  end.
Definition get32 (b : slice) : res E Z :=
  match s_bytes b with
  | b0 :: b1 :: b2 :: b3 :: _ => Ok (word32 b0 b1 b2 b3)
  | _ => Panic
  end.
Definition get64 (b : slice) : res E Z :=
  match s_bytes b with
  | b0 :: b1 :: b2 :: b3 :: b4 :: b5 :: b6 :: b7 :: _ => Ok (word64 b0 b1 b2 b3 b4 b5 b6 b7)
  | _ => Panic
  end.

(** binary.BigEndian.Uint16(b[i:]), and so on. *)
Definition get16_at (b : slice) (i : nat) : res E Z := c ← s_from b i; get16 c.
Definition get32_at (b : slice) (i : nat) : res E Z := c ← s_from b i; get32 c.
Definition get64_at (b : slice) (i : nat) : res E Z := c ← s_from b i; get64 c.
End slices.

Lemma length_s_bytes b : (s_len b <= s_cap b)%nat → length (s_bytes b) = s_len b.
Proof. unfold s_bytes, s_cap. intros. rewrite length_take. lia. Qed.

Lemma s_bytes_of_bytes l : s_bytes (of_bytes l) = l.
Proof. unfold s_bytes, of_bytes. simpl. by rewrite firstn_all. Qed.

Lemma of_bytes_ok l : Forall is_byte l → s_ok (of_bytes l).
Proof. intros H. by split. Qed.

Lemma s_bytes_drop b i :
  s_bytes (Slice (drop i (s_arr b)) (s_len b - i)) = drop i (s_bytes b).
Proof. unfold s_bytes. simpl. by rewrite skipn_firstn_comm. Qed.

Lemma s_ok_drop b i j : s_ok b → (j <= s_cap b - i)%nat → s_ok (Slice (drop i (s_arr b)) j).
Proof.
  intros [Hl Hb] Hj. unfold s_ok, s_cap in *. simpl. rewrite length_drop. split; [lia|].
  by apply Forall_drop.
Qed.

Lemma s_bytes_ok b : s_ok b → Forall is_byte (s_bytes b).
Proof. intros [_ H]. by apply Forall_take. Qed.

Section slice_lemmas.
Context {E : Type}.

Lemma s_from_Ok b i : (i <= s_len b)%nat →
  s_from (E := E) b i = Ok (Slice (drop i (s_arr b)) (s_len b - i)).
Proof. intros H. unfold s_from. by rewrite (proj2 (Nat.leb_le _ _)). Qed.

Lemma s_sub_Ok b i j : (i <= j <= s_cap b)%nat →
  s_sub (E := E) b i j = Ok (Slice (drop i (s_arr b)) (j - i)).
Proof.
  intros H. unfold s_sub. by rewrite !(proj2 (Nat.leb_le _ _)) by lia.
Qed.

Lemma s_idx_Ok b i z : (s_len b <= s_cap b)%nat → s_bytes b !! i = Some z →
  s_idx (E := E) b i = Ok z.
Proof.
  unfold s_bytes, s_idx. intros Hl H. apply lookup_take_Some in H as [H Hi].
  rewrite (proj2 (Nat.ltb_lt _ _)) by done. by rewrite (nth_lookup_Some _ _ _ _ H).
Qed.

Lemma s_idx_at b i z l : (s_len b <= s_cap b)%nat → drop i (s_bytes b) = z :: l →
  s_idx (E := E) b i = Ok z.
Proof.
  intros Hl H. apply s_idx_Ok; [done|]. rewrite <- (Nat.add_0_r i), <- lookup_drop. by rewrite H.
Qed.

(** Reading a word at an offset, given the bytes that stand there. *)
Lemma get16_at_be b i v l : is_u16 v → drop i (s_bytes b) = be16 v ++ l →
  get16_at (E := E) b i = Ok v.
Proof.
  intros Hv H. assert (i <= s_len b)%nat as Hi.
  { assert (length (drop i (s_bytes b)) <> 0)%nat as Hn by (by rewrite H).
    unfold s_bytes in Hn. rewrite length_drop, length_take in Hn. lia. }
  unfold get16_at, get16. rewrite s_from_Ok by done. cbn [mbind res_bind].
  rewrite s_bytes_drop, H. unfold be16. simpl. by rewrite word16_be16.
Qed.

Lemma get32_at_be b i v l : is_u32 v → drop i (s_bytes b) = be32 v ++ l →
  get32_at (E := E) b i = Ok v.
Proof.
  intros Hv H. assert (i <= s_len b)%nat as Hi.
  { assert (length (drop i (s_bytes b)) <> 0)%nat as Hn by (by rewrite H).
    unfold s_bytes in Hn. rewrite length_drop, length_take in Hn. lia. }
  unfold get32_at, get32. rewrite s_from_Ok by done. cbn [mbind res_bind].
  rewrite s_bytes_drop, H. unfold be32. simpl. by rewrite word32_be32.
Qed.

Lemma word64_be64 v : is_u64 v →
  word64 (u8 (Z.shiftr (Z.shiftr v 32) 24)) (u8 (Z.shiftr (Z.shiftr v 32) 16))
    (u8 (Z.shiftr (Z.shiftr v 32) 8)) (u8 (Z.shiftr v 32))
    (u8 (Z.shiftr v 24)) (u8 (Z.shiftr v 16)) (u8 (Z.shiftr v 8)) (u8 v) = v.
Proof.
  intros H. unfold word64. unfold is_u64 in H.
  rewrite (word32_be32 (Z.shiftr v 32))
    by (unfold is_u32; rewrite Z.shiftr_div_pow2 by lia; Z.div_mod_to_equations; lia).
  rewrite word32_sum by apply u8_byte.
  assert (u8 v + u8 (Z.shiftr v 8) * 2 ^ 8 + u8 (Z.shiftr v 16) * 2 ^ 16 + u8 (Z.shiftr v 24) * 2 ^ 24
          = v mod 2 ^ 32) as ->.
  { unfold u8. rewrite !Z.shiftr_div_pow2 by lia. Z.div_mod_to_equations. lia. }
  rewrite lor_shiftl_add by (try apply Z.mod_pos_bound; lia).
  rewrite Z.shiftr_div_pow2 by lia. Z.div_mod_to_equations. lia.
Qed.

Lemma get64_at_be b i v l : is_u64 v → drop i (s_bytes b) = be64 v ++ l →
  get64_at (E := E) b i = Ok v.
Proof.
  intros Hv H. assert (i <= s_len b)%nat as Hi.
  { assert (length (drop i (s_bytes b)) <> 0)%nat as Hn by (by rewrite H).
    unfold s_bytes in Hn. rewrite length_drop, length_take in Hn. lia. }
  unfold get64_at, get64. rewrite s_from_Ok by done. cbn [mbind res_bind].
  rewrite s_bytes_drop, H. unfold be64, be32. cbn [app]. by rewrite word64_be64.
Qed.
End slice_lemmas.

(** The bytes a slice expression shows, given what stands there. *)
Lemma drop_app_inv {A} (l xs ys : list A) i j :
  drop i l = xs ++ ys → j = (i + length xs)%nat → drop j l = ys.
Proof. intros H ->. rewrite <- drop_drop, H. apply drop_app_length. Qed.

Lemma s_sub_bytes {E} b i j xs r :
  (s_len b <= s_cap b)%nat → drop i (s_bytes b) = xs ++ r → j = (i + length xs)%nat →
  (j <= s_len b)%nat → ∃ c, s_sub (E := E) b i j = Ok c ∧ s_bytes c = xs ∧ s_len c = length xs.
Proof.
  intros Hl H -> Hj. eexists. rewrite s_sub_Ok by lia. split; [done|]. unfold s_bytes in *. simpl.
  split; [|lia]. replace (i + length xs - i)%nat with (length xs) by lia.
  rewrite skipn_firstn_comm in H.
  transitivity (take (length xs) (take (s_len b - i) (drop i (s_arr b)))).
  - rewrite take_take. f_equal. lia.
  - rewrite H. apply take_app_length.
Qed.

Lemma drop_s_bytes_len b i xs r :
  (s_len b <= s_cap b)%nat → drop i (s_bytes b) = xs ++ r → xs <> [] →
  (i + length xs + length r = s_len b)%nat.
Proof.
  intros Hl H Hx. apply (f_equal length) in H.
  rewrite length_drop, length_s_bytes, length_app in H by done.
  destruct xs; [done|]. simpl in *. lia.
Qed.

(** binary.BigEndian.Uint16(b[i:j]) and Uint32(b[i:j]). *)
Lemma get16_sub {E B} b i j v r (k : Z → res E B) :
  is_u16 v → (s_len b <= s_cap b)%nat → drop i (s_bytes b) = be16 v ++ r → j = (i + 2)%nat →
  (c ← s_sub b i j; x ← get16 c; k x) = k v.
Proof.
  intros Hv Hb H ->. pose proof (drop_s_bytes_len b i _ _ Hb H ltac:(done)) as Hn.
  destruct (s_sub_bytes (E := E) b i (i + 2) _ _ Hb H eq_refl) as (c & Hc & Hcb & _); [simpl in *; lia|].
  rewrite Hc, bind_Ok. unfold get16. rewrite Hcb. unfold be16. by rewrite bind_Ok, word16_be16.
Qed.

Lemma get32_sub {E B} b i j v r (k : Z → res E B) :
  is_u32 v → (s_len b <= s_cap b)%nat → drop i (s_bytes b) = be32 v ++ r → j = (i + 4)%nat →
  (c ← s_sub b i j; x ← get32 c; k x) = k v.
Proof.
  intros Hv Hb H ->. pose proof (drop_s_bytes_len b i _ _ Hb H ltac:(done)) as Hn.
  destruct (s_sub_bytes (E := E) b i (i + 4) _ _ Hb H eq_refl) as (c & Hc & Hcb & _); [simpl in *; lia|].
  rewrite Hc, bind_Ok. unfold get32. rewrite Hcb. unfold be32. by rewrite bind_Ok, word32_be32.
Qed.

(** A fact about every byte, or every small number, by evaluation. *)
Lemma forall_upto (n : nat) (P : Z → bool) :
  forallb P (map Z.of_nat (seq 0 n)) = true → ∀ z, 0 ≤ z < Z.of_nat n → P z = true.
Proof.
  intros H z Hz. rewrite forallb_forall in H. apply H. apply in_map_iff.
  exists (Z.to_nat z). rewrite in_seq. split; lia.
Qed.

(** ** Safety rules for reads *)

Section wp_slices.
Context {E : Type}.

Lemma wp_s_idx b i (Q : Z → Prop) :
  s_ok b → (i < s_len b)%nat → (∀ z, is_byte z → Q z) → res_wp (s_idx (E := E) b i) Q.
Proof.
  intros [Hl Hb] Hi HQ. unfold s_idx. rewrite (proj2 (Nat.ltb_lt _ _)) by done. simpl. apply HQ.
  rewrite Forall_lookup in Hb. unfold s_cap in Hl.
  destruct (lookup_lt_is_Some_2 (s_arr b) i) as [z Hz]; [lia|].
  rewrite (nth_lookup_Some _ _ _ _ Hz). eauto.
Qed.

Lemma wp_s_from b i (Q : slice → Prop) :
  s_ok b → (i <= s_len b)%nat →
  (∀ c, s_ok c → s_len c = (s_len b - i)%nat → s_bytes c = drop i (s_bytes b) → Q c) →
  res_wp (s_from (E := E) b i) Q.
Proof.
  intros Hb Hi HQ. rewrite s_from_Ok by done. simpl. apply HQ; [| done | apply s_bytes_drop].
  apply s_ok_drop; [done|]. destruct Hb. unfold s_cap in *. lia.
Qed.

Lemma wp_s_sub b i j (Q : slice → Prop) :
  s_ok b → (i <= j <= s_cap b)%nat →
  (∀ c, s_ok c → s_len c = (j - i)%nat → Q c) →
  res_wp (s_sub (E := E) b i j) Q.
Proof.
  intros Hb Hi HQ. rewrite s_sub_Ok by done. simpl. apply HQ; [|done].
  apply s_ok_drop; [done|]. lia.
Qed.

Lemma wp_get16 b (Q : Z → Prop) :
  s_ok b → (2 <= s_len b)%nat → (∀ v, is_u16 v → Q v) → res_wp (get16 (E := E) b) Q.
Proof.
  intros Hb Hl HQ. pose proof (s_bytes_ok b Hb) as Hf. pose proof (length_s_bytes b (proj1 Hb)) as Hn.
  unfold get16. destruct (s_bytes b) as [|b0 [|b1 l]]; simpl in Hn; [lia..|].
  inversion Hf as [|? ? H0 Hf1]; subst. inversion Hf1; subst. simpl. apply HQ. by apply word16_u16.
Qed.

Lemma wp_get32 b (Q : Z → Prop) :
  s_ok b → (4 <= s_len b)%nat → (∀ v, is_u32 v → Q v) → res_wp (get32 (E := E) b) Q.
Proof.
  intros Hb Hl HQ. pose proof (s_bytes_ok b Hb) as Hf. pose proof (length_s_bytes b (proj1 Hb)) as Hn.
  unfold get32. destruct (s_bytes b) as [|b0 [|b1 [|b2 [|b3 l]]]]; simpl in Hn; [lia..|].
  rewrite !Forall_cons in Hf. destruct Hf as (H0 & H1 & H2 & H3 & _). simpl. apply HQ.
  by apply word32_u32.
Qed.

Lemma word64_u64 b0 b1 b2 b3 b4 b5 b6 b7 :
  is_u32 (word32 b0 b1 b2 b3) → is_u32 (word32 b4 b5 b6 b7) →
  is_u64 (word64 b0 b1 b2 b3 b4 b5 b6 b7).
Proof.
  intros H1 H2. unfold word64, is_u64, is_u32 in *. rewrite lor_shiftl_add by lia. lia.
Qed.

Lemma wp_get64 b (Q : Z → Prop) :
  s_ok b → (8 <= s_len b)%nat → (∀ v, is_u64 v → Q v) → res_wp (get64 (E := E) b) Q.
Proof.
  intros Hb Hl HQ. pose proof (s_bytes_ok b Hb) as Hf. pose proof (length_s_bytes b (proj1 Hb)) as Hn.
  unfold get64.
  destruct (s_bytes b) as [|b0 [|b1 [|b2 [|b3 [|b4 [|b5 [|b6 [|b7 l]]]]]]]]; simpl in Hn; [lia..|].
  rewrite !Forall_cons in Hf. destruct Hf as (H0 & H1 & H2 & H3 & H4 & H5 & H6 & H7 & _).
  simpl. apply HQ. apply word64_u64; by apply word32_u32.
Qed.

Lemma wp_get16_at b i (Q : Z → Prop) :
  s_ok b → (i + 2 <= s_len b)%nat → (∀ v, is_u16 v → Q v) → res_wp (get16_at (E := E) b i) Q.
Proof.
  intros Hb Hi HQ. unfold get16_at. apply res_wp_bind, wp_s_from; [done | lia |].
  intros c Hc Hlen _. apply wp_get16; [done | lia | done].
Qed.

Lemma wp_get32_at b i (Q : Z → Prop) :
  s_ok b → (i + 4 <= s_len b)%nat → (∀ v, is_u32 v → Q v) → res_wp (get32_at (E := E) b i) Q.
Proof.
  intros Hb Hi HQ. unfold get32_at. apply res_wp_bind, wp_s_from; [done | lia |].
  intros c Hc Hlen _. apply wp_get32; [done | lia | done].
Qed.

Lemma wp_get64_at b i (Q : Z → Prop) :
  s_ok b → (i + 8 <= s_len b)%nat → (∀ v, is_u64 v → Q v) → res_wp (get64_at (E := E) b i) Q.
Proof.
  intros Hb Hi HQ. unfold get64_at. apply res_wp_bind, wp_s_from; [done | lia |].
  intros c Hc Hlen _. apply wp_get64; [done | lia | done].
Qed.
End wp_slices.

(** A bound that holds where no panic is allowed. *)
Ltac bound :=
  let H := fresh "Hp" in intros H;
  repeat match goal with
         | Hq : ?q = false → _, Hr : ?q = false |- _ => specialize (Hq Hr)
         | Hb : s_ok _ |- _ => destruct Hb as [? _]
         end; lia.

Section ends_rules.
Context {E : Type} (p : bool).

Lemma ends_s_idx b i (Q : Z → Prop) :
  s_ok b → (p = false → i < s_len b)%nat → (∀ z, is_byte z → (i < s_len b)%nat → Q z) →
  ends p (s_idx (E := E) b i) Q.
Proof.
  intros Hb Hp HQ. apply (ends_wp _ _ (i < s_len b)%nat); [apply _ | | | done].
  - intros Hi. apply wp_s_idx; auto.
  - intros Hi. unfold s_idx. by rewrite (proj2 (Nat.ltb_ge _ _)) by lia.
Qed.

Lemma ends_s_from b i (Q : slice → Prop) :
  s_ok b → (p = false → i <= s_len b)%nat →
  (∀ c, s_ok c → s_len c = (s_len b - i)%nat → s_cap c = (s_cap b - i)%nat →
     s_bytes c = drop i (s_bytes b) → (i <= s_len b)%nat → Q c) →
  ends p (s_from (E := E) b i) Q.
Proof.
  intros Hb Hp HQ. apply (ends_wp _ _ (i <= s_len b)%nat); [apply _ | | | done].
  - intros Hi. rewrite s_from_Ok by done. simpl. apply HQ; [| done | | apply s_bytes_drop | done].
    + apply s_ok_drop; [done|]. destruct Hb. lia.
    + unfold s_cap. simpl. by rewrite length_drop.
  - intros Hi. unfold s_from. by rewrite (proj2 (Nat.leb_gt _ _)) by lia.
Qed.

Lemma ends_s_sub b i j (Q : slice → Prop) :
  s_ok b → (p = false → i <= j <= s_cap b)%nat →
  (∀ c, s_ok c → s_len c = (j - i)%nat → (i <= j <= s_cap b)%nat → Q c) →
  ends p (s_sub (E := E) b i j) Q.
Proof.
  intros Hb Hp HQ. apply (ends_wp _ _ (i <= j <= s_cap b)%nat); [apply _ | | | done].
  - intros Hi. apply wp_s_sub; auto.
  - intros Hi. unfold s_sub. destruct (_ && _) eqn:H; [|done]. rewrite andb_true_iff, !Nat.leb_le in H. lia.
Qed.

Lemma ends_get16 b (Q : Z → Prop) :
  s_ok b → (p = false → 2 <= s_len b)%nat → (∀ v, is_u16 v → (2 <= s_len b)%nat → Q v) →
  ends p (get16 (E := E) b) Q.
Proof.
  intros Hb Hp HQ. apply (ends_wp _ _ (2 <= s_len b)%nat); [apply _ | | | done].
  - intros Hi. apply wp_get16; auto.
  - intros Hi. pose proof (length_s_bytes b (proj1 Hb)). unfold get16.
    destruct (s_bytes b) as [|? [|? ?]]; simpl in *; [done..|lia].
Qed.

Lemma ends_get32 b (Q : Z → Prop) :
  s_ok b → (p = false → 4 <= s_len b)%nat → (∀ v, is_u32 v → (4 <= s_len b)%nat → Q v) →
  ends p (get32 (E := E) b) Q.
Proof.
  intros Hb Hp HQ. apply (ends_wp _ _ (4 <= s_len b)%nat); [apply _ | | | done].
  - intros Hi. apply wp_get32; auto.
  - intros Hi. pose proof (length_s_bytes b (proj1 Hb)). unfold get32.
    destruct (s_bytes b) as [|? [|? [|? [|? ?]]]]; simpl in *; [done..|lia].
Qed.

Lemma ends_get64 b (Q : Z → Prop) :
  s_ok b → (p = false → 8 <= s_len b)%nat → (∀ v, is_u64 v → (8 <= s_len b)%nat → Q v) →
  ends p (get64 (E := E) b) Q.
Proof.
  intros Hb Hp HQ. apply (ends_wp _ _ (8 <= s_len b)%nat); [apply _ | | | done].
  - intros Hi. apply wp_get64; auto.
  - intros Hi. pose proof (length_s_bytes b (proj1 Hb)). unfold get64.
    destruct (s_bytes b) as [|? [|? [|? [|? [|? [|? [|? [|? ?]]]]]]]]; simpl in *; [done..|lia].
Qed.

Lemma ends_get16_at b i (Q : Z → Prop) :
  s_ok b → (p = false → i + 2 <= s_len b)%nat → (∀ v, is_u16 v → (i + 2 <= s_len b)%nat → Q v) →
  ends p (get16_at (E := E) b i) Q.
Proof.
  intros Hb Hp HQ. apply ends_bind, ends_s_from; [done | bound |]. intros c Hc Hl _ _ Hi.
  apply ends_get16; [done | bound |]. intros v Hv Hl'. apply HQ; [done | lia].
Qed.

Lemma ends_get32_at b i (Q : Z → Prop) :
  s_ok b → (p = false → i + 4 <= s_len b)%nat → (∀ v, is_u32 v → (i + 4 <= s_len b)%nat → Q v) →
  ends p (get32_at (E := E) b i) Q.
Proof.
  intros Hb Hp HQ. apply ends_bind, ends_s_from; [done | bound |]. intros c Hc Hl _ _ Hi.
  apply ends_get32; [done | bound |]. intros v Hv Hl'. apply HQ; [done | lia].
Qed.

Lemma ends_get64_at b i (Q : Z → Prop) :
  s_ok b → (p = false → i + 8 <= s_len b)%nat → (∀ v, is_u64 v → (i + 8 <= s_len b)%nat → Q v) →
  ends p (get64_at (E := E) b i) Q.
Proof.
  intros Hb Hp HQ. apply ends_bind, ends_s_from; [done | bound |]. intros c Hc Hl _ _ Hi.
  apply ends_get64; [done | bound |]. intros v Hv Hl'. apply HQ; [done | lia].
Qed.
End ends_rules.

(** ** Buffers

    A buffer that a function fills: [make] gives zeros, a store outside of it
    panics. *)

Definition zeros (n : nat) : list Z := replicate n 0.

Section buffers.
Context {E : Type}.

(** [buf[i] = x], PutUint16(buf[i:], v), PutUint32(buf[i:], v): the bytes [xs]
    are stored from [i] on. *)
Definition put (buf : list Z) (i : nat) (xs : list Z) : res E (list Z) :=
  if (i + length xs <=? length buf)%nat
  then Ok (take i buf ++ xs ++ drop (i + length xs) buf)
  else Panic.

(** [copy(buf[i:], src)]: as many bytes as fit; their number is returned. *)
Definition copy_at (buf : list Z) (i : nat) (src : list Z) : res E (list Z * nat) :=
  if (i <=? length buf)%nat then
    let m := Nat.min (length buf - i) (length src) in
    Ok (take i buf ++ take m src ++ drop (i + m) buf, m)
  else Panic.
End buffers.

Lemma length_zeros n : length (zeros n) = n.
Proof. apply length_replicate. Qed.

Lemma zeros_add n m : zeros (n + m) = zeros n ++ zeros m.
Proof. apply replicate_add. Qed.

Lemma drop_zeros n m : drop n (zeros m) = zeros (m - n).
Proof. apply drop_replicate. Qed.

Lemma zeros_bytes n : Forall is_byte (zeros n).
Proof. apply Forall_replicate. unfold is_byte. lia. Qed.

Section buffer_lemmas.
Context {E : Type}.

(** A store over a middle part. *)
Lemma put_app pre old post xs i : length pre = i → length old = length xs →
  put (E := E) (pre ++ old ++ post) i xs = Ok (pre ++ xs ++ post).
Proof.
  intros <- Hl. unfold put. rewrite !length_app, (proj2 (Nat.leb_le _ _)) by lia.
  rewrite take_app_length, <- Hl, drop_app_add', drop_app_length by done. done.
Qed.

(** A buffer that is filled from the left, over what it held. *)
Lemma put_tail pre t xs i : length pre = i → (length xs <= length t)%nat →
  put (E := E) (pre ++ t) i xs = Ok ((pre ++ xs) ++ drop (length xs) t).
Proof.
  intros Hi Hn. rewrite <- (take_drop (length xs) t) at 1.
  rewrite put_app; [by rewrite app_assoc | done | rewrite length_take; lia].
Qed.

Lemma copy_tail pre t xs i : length pre = i → (length xs <= length t)%nat →
  copy_at (E := E) (pre ++ t) i xs = Ok ((pre ++ xs) ++ drop (length xs) t, length xs).
Proof.
  intros Hi Hn. unfold copy_at. rewrite length_app, (proj2 (Nat.leb_le _ _)) by lia.
  replace (Nat.min _ _) with (length xs) by lia. rewrite firstn_all, <- Hi, take_app_length.
  rewrite drop_app_add' by done. by rewrite app_assoc.
Qed.

Lemma put_zeros pre n xs i : length pre = i → (length xs <= n)%nat →
  put (E := E) (pre ++ zeros n) i xs = Ok ((pre ++ xs) ++ zeros (n - length xs)).
Proof. intros Hi Hn. rewrite put_tail by (rewrite ?length_zeros; done). by rewrite drop_zeros. Qed.

Lemma copy_zeros pre n xs i : length pre = i → (length xs <= n)%nat →
  copy_at (E := E) (pre ++ zeros n) i xs =
  Ok ((pre ++ xs) ++ zeros (n - length xs), length xs).
Proof. intros Hi Hn. rewrite copy_tail by (rewrite ?length_zeros; done). by rewrite drop_zeros. Qed.

Lemma copy_front old post xs : length old = length xs →
  copy_at (E := E) (old ++ post) 0 xs = Ok (xs ++ post, length xs).
Proof.
  intros Hl. unfold copy_at. rewrite length_app. simpl.
  replace (Nat.min _ _) with (length old) by lia.
  rewrite drop_app_length, Hl, firstn_all. done.
Qed.
End buffer_lemmas.

(** Lengths of the pieces of a buffer. *)
Ltac buf_lia :=
  rewrite ?length_app, ?length_be16, ?length_be32, ?length_be64, ?length_zeros; simpl; lia.

(** Buffers and positions that differ in arithmetic only. *)
Ltac buf_eq := repeat (lia || f_equal).
