(* ===== verification/Text.v ===== *)
(** * Strings and decimal numbers

    Facts about the string functions of GoLib: parts of a string, splitting
    what was joined, and reading back the numbers that were printed. *)

From Stdlib Require Import Decimal DecimalString DecimalZ Ascii.
From S2P Require Import Prelude GoLib.

(** ** Parts of a string *)

Lemma str_drop_add m n s : str_drop m (str_drop n s) = str_drop (m + n) s.
Proof.
  revert m s. induction n as [|n IH]; intros m [|c s]; rewrite ?Nat.add_0_r, ?Nat.add_succ_r; simpl; try done.
  by destruct m.
Qed.

Lemma str_len_drop n s : string_len (str_drop n s) = (string_len s - n)%nat.
Proof. revert s. induction n as [|n IH]; intros [|c s]; simpl; [done..|]. apply IH. Qed.

Lemma str_len_take n s : string_len (str_take n s) = (n `min` string_len s)%nat.
Proof. revert s. induction n as [|n IH]; intros [|c s]; simpl; [done..|]. by rewrite IH. Qed.

Lemma str_get_drop n s :
  String.get n s = match str_drop n s with EmptyString => None | String c _ => Some c end.
Proof. revert s. induction n as [|n IH]; intros [|c s]; simpl; [done..|]. apply IH. Qed.

Lemma prefix_long p s t : (string_len p <= string_len s)%nat → has_prefix p (s +:+ t) = has_prefix p s.
Proof. revert s. induction p as [|a p IH]; intros [|b s] Hl; simpl in *; try done; [lia|]. rewrite IH by lia. done. Qed.

Lemma has_prefix_take n s : has_prefix (str_take n s) s = true.
Proof. revert s. induction n as [|n IH]; intros [|c s]; simpl; try done. by rewrite Ascii.eqb_refl. Qed.

Lemma str_contains_sub m n s : str_contains s (str_take n (str_drop m s)) = true.
Proof.
  revert s. induction m as [|m IH]; intros s; [apply str_contains_prefix, has_prefix_take|].
  destruct s as [|c s]; [by destruct n|]. simpl. by rewrite IH, orb_true_r.
Qed.

(** All bytes of a string satisfy [f]. *)
Fixpoint all_chars (f : ascii → bool) (s : string) : bool :=
  match s with
  | EmptyString => true
  | String c s => f c && all_chars f s
  end.

Lemma all_chars_app f s t : all_chars f (s +:+ t) = all_chars f s && all_chars f t.
Proof. induction s as [|c s IH]; simpl; [done|]. by rewrite IH, andb_assoc. Qed.

Lemma all_chars_impl (f g : ascii → bool) s :
  (∀ c, f c = true → g c = true) → all_chars f s = true → all_chars g s = true.
Proof.
  intros Hfg. induction s as [|c s IH]; simpl; [done|]. rewrite !andb_true_iff. intros [? ?]. auto.
Qed.

Lemma str_take_app s t : str_take (string_len s) (s +:+ t) = s.
Proof. induction s as [|c s IH]; simpl; [done|]. by rewrite IH. Qed.

Lemma str_drop_app s t : str_drop (string_len s) (s +:+ t) = t.
Proof. induction s as [|c s IH]; simpl; [done|]. by rewrite IH. Qed.

Lemma string_app_cons c s t : String c s +:+ t = String c (s +:+ t).
Proof. done. Qed.

Lemma str_get_last c s : String.get (string_len (s +:+ String c EmptyString) - 1) (s +:+ String c EmptyString) = Some c.
Proof.
  rewrite str_get_drop, string_len_app. simpl. replace (string_len s + 1 - 1)%nat with (string_len s) by lia.
  by rewrite str_drop_app.
Qed.

(** ** Splitting *)

Definition not_char (sep : ascii) (c : ascii) : bool := negb (Ascii.eqb c sep).

Lemma split_aux_app sep s : ∀ cur t, all_chars (not_char sep) s = true →
  str_split_aux sep cur (s +:+ String sep t) = (cur +:+ s) :: str_split_aux sep EmptyString t.
Proof.
  induction s as [|c s IH]; intros cur t Hs; simpl in *.
  - by rewrite Ascii.eqb_refl, string_app_nil_r.
  - apply andb_true_iff in Hs as [Hc Hs]. unfold not_char in Hc. apply negb_true_iff in Hc. rewrite Hc.
    rewrite IH by done. by rewrite <- string_app_assoc.
Qed.

Lemma split_aux_end sep s : ∀ cur, all_chars (not_char sep) s = true → str_split_aux sep cur s = [cur +:+ s].
Proof.
  induction s as [|c s IH]; intros cur Hs; simpl in *; [by rewrite string_app_nil_r|].
  apply andb_true_iff in Hs as [Hc Hs]. unfold not_char in Hc. apply negb_true_iff in Hc. rewrite Hc.
  rewrite IH by done. by rewrite <- string_app_assoc.
Qed.

(** Splitting what was joined. *)
Lemma split_join sep l : l ≠ [] → Forall (λ s, all_chars (not_char sep) s = true) l →
  str_split (str_join (String sep EmptyString) l) sep = l.
Proof.
  intros Hl. induction 1 as [|x l Hx Hall IH]; [done|]. destruct l as [|y l].
  - unfold str_split. simpl. by rewrite split_aux_end.
  - change (str_join _ (x :: y :: l)) with (x +:+ String sep (str_join (String sep EmptyString) (y :: l))).
    unfold str_split. rewrite split_aux_app by done. f_equal. by apply IH.
Qed.

Lemma cut_app sep s t : all_chars (not_char sep) s = true →
  str_cut sep (s +:+ String sep t) = (s, Some t).
Proof.
  induction s as [|c s IH]; simpl; [by rewrite Ascii.eqb_refl|]. rewrite andb_true_iff. intros [Hc Hs].
  unfold not_char in Hc. apply negb_true_iff in Hc. rewrite Hc, IH by done. done.
Qed.

Lemma cut_none sep s : all_chars (not_char sep) s = true → str_cut sep s = (s, None).
Proof.
  induction s as [|c s IH]; simpl; [done|]. rewrite andb_true_iff. intros [Hc Hs].
  unfold not_char in Hc. apply negb_true_iff in Hc. by rewrite Hc, IH.
Qed.

(** ** Numbers *)

(** The value of a string of digits read from left to right after [acc]. *)
Fixpoint digits_value (acc : Z) (u : uint) : Z :=
  match u with
  | Nil => acc
  | D0 u => digits_value (10 * acc) u
  | D1 u => digits_value (10 * acc + 1) u
  | D2 u => digits_value (10 * acc + 2) u
  | D3 u => digits_value (10 * acc + 3) u
  | D4 u => digits_value (10 * acc + 4) u
  | D5 u => digits_value (10 * acc + 5) u
  | D6 u => digits_value (10 * acc + 6) u
  | D7 u => digits_value (10 * acc + 7) u
  | D8 u => digits_value (10 * acc + 8) u
  | D9 u => digits_value (10 * acc + 9) u
  end.

Lemma of_uint_acc_value u : ∀ q, Z.pos (Pos.of_uint_acc u q) = digits_value (Z.pos q) u.
Proof. induction u as [|u IH|u IH|u IH|u IH|u IH|u IH|u IH|u IH|u IH|u IH]; intros q; simpl; rewrite ?IH; f_equal; lia. Qed.

Lemma of_uint_value u : Z.of_N (Pos.of_uint u) = digits_value 0 u.
Proof. induction u; simpl; rewrite ?of_uint_acc_value; done. Qed.

Lemma atoi_digits_uint u : ∀ acc, atoi_digits acc (NilEmpty.string_of_uint u) = Some (digits_value acc u).
Proof.
  induction u as [|u IH|u IH|u IH|u IH|u IH|u IH|u IH|u IH|u IH|u IH]; intros acc; [done|..];
    simpl; rewrite IH; do 2 f_equal; change (byte _ - 48) with 0 || done; apply Z.add_0_r.
Qed.

Lemma digits_uint u : all_chars is_digit (NilEmpty.string_of_uint u) = true.
Proof. induction u as [|u IH|u IH|u IH|u IH|u IH|u IH|u IH|u IH|u IH|u IH]; [done|..]; simpl; by rewrite IH. Qed.

(** A printed number is a string of digits, after a minus if it is negative. *)
Lemma itoa_digits z :
  ∃ s, itoa z = (if z <? 0 then "-" else EmptyString) +:+ s ∧ s ≠ EmptyString ∧
    all_chars is_digit s = true ∧ atoi_digits 0 s = Some (Z.abs z).
Proof.
  assert (∀ u, ∃ s, NilZero.string_of_uint u = s ∧ s ≠ EmptyString ∧ all_chars is_digit s = true ∧
    atoi_digits 0 s = Some (Z.of_uint u)) as Hu.
  { intros u. unfold Z.of_uint. rewrite of_uint_value. eexists. split; [done|].
    assert (u = Nil ∨ NilZero.string_of_uint u = NilEmpty.string_of_uint u ∧ NilEmpty.string_of_uint u ≠ EmptyString)
      as [->|[-> Hne]] by (destruct u; auto); [done|].
    split_and!; [done | apply digits_uint | apply atoi_digits_uint]. }
  unfold itoa. pose proof (DecimalZ.of_to z) as Hz. destruct (Z.to_int z) as [u|u] eqn:E; simpl in Hz.
  - destruct (Hu u) as (s & Hs & ? & ? & Hn). exists s. simpl. rewrite Hs.
    assert (0 ≤ z) by (rewrite <- Hz; unfold Z.of_uint; lia).
    rewrite (proj2 (Z.ltb_ge _ _)) by lia. rewrite Hn, Hz, Z.abs_eq by lia. by split_and!.
  - destruct (Hu u) as (s & Hs & ? & ? & Hn). exists s. simpl. rewrite Hs.
    assert (z < 0).
    { destruct z as [|q|q]; try done. }
    rewrite (proj2 (Z.ltb_lt _ _)) by lia. rewrite Hn. split_and!; [done..|]. f_equal. lia.
Qed.

(** Digits are neither signs nor separators. *)
Lemma digit_char c : is_digit c = true → byte c ∈ seqZ 48 10.
Proof. unfold is_digit. rewrite andb_true_iff, !Z.leb_le, elem_of_seqZ. lia. Qed.

Lemma digit_not c d : is_digit c = true → is_digit d = false → Ascii.eqb c d = false.
Proof. intros Hc Hd. apply Ascii.eqb_neq. intros ->. congruence. Qed.

(** What atoi makes of the digits after a sign. *)
Definition atoi_num (neg : bool) (ds : string) : option Z :=
  if decide (ds = EmptyString) then None
  else match atoi_digits 0 ds with
       | Some n =>
           let z := if neg then - n else n in
           if (- 2 ^ 63 <=? z) && (z <? 2 ^ 63) then Some z else None
       | None => None
       end.

Lemma atoi_digit c s : is_digit c = true → atoi (String c s) = atoi_num false (String c s).
Proof. destruct c as [[] [] [] [] [] [] [] []]; intros Hc; try discriminate Hc; reflexivity. Qed.

Lemma atoi_num_value (neg : bool) s n z : s ≠ EmptyString → atoi_digits 0 s = Some n →
  z = (if neg then - n else n) → - 2 ^ 63 ≤ z < 2 ^ 63 → atoi_num neg s = Some z.
Proof.
  intros Hs Hn -> Hz. unfold atoi_num. rewrite decide_False, Hn by done. cbv zeta.
  by rewrite (proj2 (Z.leb_le _ _)), (proj2 (Z.ltb_lt _ _)) by lia.
Qed.

Lemma atoi_itoa z : - 2 ^ 63 ≤ z < 2 ^ 63 → atoi (itoa z) = Some z.
Proof.
  intros Hz. destruct (itoa_digits z) as (s & -> & Hne & Hd & Hn). destruct (Z.ltb_spec z 0).
  - change (atoi_num true s = Some z). eapply atoi_num_value; [done..| |done]. lia.
  - destruct s as [|c s]; [done|]. simpl in Hd. apply andb_true_iff in Hd as [Hc _].
    change (EmptyString +:+ String c s) with (String c s). rewrite atoi_digit by done.
    eapply atoi_num_value; [done..| |done]. lia.
Qed.
