(* ===== verification/Sdp.v ===== *)
(** * Session descriptions: pion/sdp

    The data of a session description (common_description.go,
    session_description.go, time_description.go, media_description.go), the
    lexer (base_lexer.go, the end of util.go) and the state machine of Unmarshal
    (unmarshal.go), which reads the offers and answers of clients, and Marshal
    (marshal.go).

    A description is a string of bytes.  The text of an error message is left
    out: an error is the value it wraps.  When Unmarshal returns an error, the
    fields it had set by then are dropped, as the server drops them. *)

From Stdlib Require Import Ascii.
From S2P Require Import Prelude GoLib Bytes.

Inductive sdp_err :=
  | EOF
  | errDocumentStart
  | syntaxError (s : string) (i : Z)
  | errSDPInvalidSyntax
  | errSDPInvalidNumericValue
  | errSDPInvalidValue
  | errSDPInvalidPortValue
  | errURL.

Abbreviation sres := (res sdp_err).

(** What is used of net/url: a URL is kept as it was parsed and printed back. *)
Class NetUrl := {
  URL : Type;
  url_Parse : string → option URL;
  URL_String : URL → string;
}.

(** ** Descriptions *)

Record Address := MkAddress {
  a_Address : string;
  TTL : option Z;
  a_Range : option Z;
}.

Record ConnectionInformation := MkConnection {
  c_NetworkType : string;
  c_AddressType : string;
  c_Address : option Address;
}.

Record Bandwidth := MkBandwidth {
  Experimental : bool;
  b_Type : string;
  b_Bandwidth : Z;
}.

Record Attribute := MkAttribute { Key : string; Value : string }.

Definition NewPropertyAttribute (key : string) : Attribute := MkAttribute key EmptyString.
Definition NewAttribute (key value : string) : Attribute := MkAttribute key value.

Record Origin := MkOrigin {
  Username : string;
  SessionID : Z;
  SessionVersion : Z;
  o_NetworkType : string;
  o_AddressType : string;
  UnicastAddress : string;
}.

Record Timing := MkTiming { StartTime : Z; StopTime : Z }.
Record RepeatTime := MkRepeat { Interval : Z; Duration : Z; Offsets : list Z }.
Record TimeDescription := MkTime { td_Timing : Timing; RepeatTimes : list RepeatTime }.
Record TimeZone := MkZone { AdjustmentTime : Z; tz_Offset : Z }.

Record RangedPort := MkPort { rp_Value : Z; rp_Range : option Z }.
Record MediaName := MkMediaName {
  mn_Media : string;
  Port : RangedPort;
  Protos : list string;
  Formats : list string;
}.

Record MediaDescription := MkMediaDesc {
  md_MediaName : MediaName;
  MediaTitle : option string;
  md_ConnectionInformation : option ConnectionInformation;
  md_Bandwidth : list Bandwidth;
  md_EncryptionKey : option string;
  md_Attributes : list Attribute;
}.

(** A list updated at len-1: an index out of range if it is empty. *)
Fixpoint update_last {A} (g : A → A) (l : list A) : sres (list A) :=
  match l with
  | [] => Panic
  | [x] => Ok [g x]
  | x :: l => l ← update_last g l; Ok (x :: l)
  end.

Section description.
Context `{NetUrl}.

Record SessionDescription := MkSession {
  sd_Version : Z;
  sd_Origin : Origin;
  SessionName : string;
  SessionInformation : option string;
  URI : option URL;
  EmailAddress : option string;
  PhoneNumber : option string;
  sd_ConnectionInformation : option ConnectionInformation;
  sd_Bandwidth : list Bandwidth;
  TimeDescriptions : list TimeDescription;
  TimeZones : list TimeZone;
  sd_EncryptionKey : option string;
  sd_Attributes : list Attribute;
  MediaDescriptions : list MediaDescription;
}.
End description.

Definition origin_zero : Origin := MkOrigin "" 0 0 "" "" "".
Definition session_zero `{NetUrl} : SessionDescription :=
  MkSession 0 origin_zero "" None None None None None [] [] [] None [] [].

(** func (s *SessionDescription) Attribute(key string) (string, bool), and the
    method of the same name of a media description. *)
Fixpoint find_attribute (l : list Attribute) (key : string) : option string :=
  match l with
  | [] => None
  | a :: l => if decide (Key a = key) then Some (Value a) else find_attribute l key
  end.
Definition Session_Attribute `{NetUrl} (s : SessionDescription) : string → option string :=
  find_attribute (sd_Attributes s).
Definition Media_Attribute (d : MediaDescription) : string → option string :=
  find_attribute (md_Attributes d).

Definition IsICECandidate (a : Attribute) : bool := bool_decide (Key a = "candidate").

(** ** Printing *)

Definition Address_String (c : Address) : string :=
  str_join "/" ([a_Address c] ++
    match TTL c with Some n => [itoa n] | None => [] end ++
    match a_Range c with Some n => [itoa n] | None => [] end).

Definition ConnectionInformation_String (c : ConnectionInformation) : string :=
  str_join " " ([c_NetworkType c; c_AddressType c] ++
    match c_Address c with
    | Some a => if decide (Address_String a = EmptyString) then [] else [Address_String a]
    | None => []
    end).

Definition Bandwidth_String (b : Bandwidth) : string :=
  (if Experimental b then "X-" else EmptyString) +:+ b_Type b +:+ ":" +:+ itoa (b_Bandwidth b).

Definition Attribute_String (a : Attribute) : string :=
  Key a +:+ (if decide (Value a = EmptyString) then EmptyString else ":" +:+ Value a).

Definition Origin_String (o : Origin) : string :=
  Username o +:+ " " +:+ itoa (SessionID o) +:+ " " +:+ itoa (SessionVersion o) +:+ " " +:+
  o_NetworkType o +:+ " " +:+ o_AddressType o +:+ " " +:+ UnicastAddress o.

Definition TimeZone_String (z : TimeZone) : string :=
  itoa (AdjustmentTime z) +:+ " " +:+ itoa (tz_Offset z).

Definition Timing_String (t : Timing) : string := itoa (StartTime t) +:+ " " +:+ itoa (StopTime t).

Definition RepeatTime_String (r : RepeatTime) : string :=
  str_join " " (itoa (Interval r) :: itoa (Duration r) :: map itoa (Offsets r)).

Definition RangedPort_String (p : RangedPort) : string :=
  itoa (rp_Value p) +:+ match rp_Range p with Some r => "/" +:+ itoa r | None => EmptyString end.

Definition MediaName_String (m : MediaName) : string :=
  str_join " " [mn_Media m; RangedPort_String (Port m); str_join "/" (Protos m); str_join " " (Formats m)].

(** A carriage return and a line feed. *)
Definition CRLF : string := String "013" (String "010" EmptyString).

(** func (m *marshaller) addKeyValue(key, value string) *)
Definition addKeyValue (m key value : string) : string :=
  if decide (value = EmptyString) then m else m +:+ key +:+ value +:+ CRLF.

Definition add_opt (m key : string) (value : option string) : string :=
  match value with Some v => addKeyValue m key v | None => m end.
Definition add_each (m key : string) (values : list string) : string :=
  foldl (λ m v, addKeyValue m key v) m values.

Definition add_time (m : string) (td : TimeDescription) : string :=
  add_each (addKeyValue m "t=" (Timing_String (td_Timing td))) "r=" (map RepeatTime_String (RepeatTimes td)).

Definition add_media (m : string) (md : MediaDescription) : string :=
  let m := addKeyValue m "m=" (MediaName_String (md_MediaName md)) in
  let m := add_opt m "i=" (MediaTitle md) in
  let m := add_opt m "c=" (ConnectionInformation_String <$> md_ConnectionInformation md) in
  let m := add_each m "b=" (map Bandwidth_String (md_Bandwidth md)) in
  let m := add_opt m "k=" (md_EncryptionKey md) in
  add_each m "a=" (map Attribute_String (md_Attributes md)).

(** func (s *SessionDescription) Marshal() ([]byte, error): the error is always
    nil. *)
Definition SessionDescription_Marshal `{NetUrl} (s : SessionDescription) : string :=
  let m := addKeyValue EmptyString "v=" (itoa (sd_Version s)) in
  let m := addKeyValue m "o=" (Origin_String (sd_Origin s)) in
  let m := addKeyValue m "s=" (SessionName s) in
  let m := add_opt m "i=" (SessionInformation s) in
  let m := add_opt m "u=" (URL_String <$> URI s) in
  let m := add_opt m "e=" (EmailAddress s) in
  let m := add_opt m "p=" (PhoneNumber s) in
  let m := add_opt m "c=" (ConnectionInformation_String <$> sd_ConnectionInformation s) in
  let m := add_each m "b=" (map Bandwidth_String (sd_Bandwidth s)) in
  let m := foldl add_time m (TimeDescriptions s) in
  let m := match TimeZones s with
           | [] => m
           | l => addKeyValue m "z=" (str_join " " (map TimeZone_String l))
           end in
  let m := add_opt m "k=" (sd_EncryptionKey s) in
  let m := add_each m "a=" (map Attribute_String (sd_Attributes s)) in
  foldl add_media m (MediaDescriptions s).

(** ** The lexer *)

Record baseLexer := MkLexer { value : string; pos : nat }.

Definition lexer_syntaxError (l : baseLexer) : sdp_err := syntaxError (value l) (Z.of_nat (pos l) - 1).

Definition unreadByte (l : baseLexer) : sres baseLexer :=
  match pos l with
  | O => Err errDocumentStart
  | S n => Ok (MkLexer (value l) n)
  end.

Definition readByte (l : baseLexer) : sres (ascii * baseLexer) :=
  match String.get (pos l) (value l) with
  | Some ch => Ok (ch, MkLexer (value l) (S (pos l)))
  | None => Err EOF
  end.

Definition isNewline (ch : ascii) : bool := Ascii.eqb ch "010" || Ascii.eqb ch "013".
Definition isWhitespace (ch : ascii) : bool := Ascii.eqb ch " " || Ascii.eqb ch "009".

(** The loops of the lexer read at least one byte in every round. *)
Definition lex_fuel (l : baseLexer) : nat := S (string_len (value l)).

(** The loop of nextLine and readWhitespace: bytes that satisfy [skip] are
    passed over, up to another one or the end. *)
Fixpoint skip_loop (skip : ascii → bool) (fuel : nat) (l : baseLexer) : sres baseLexer :=
  match fuel with
  | O => Diverge
  | S fuel =>
      match readByte l with
      | Ok (ch, l') => if skip ch then skip_loop skip fuel l' else unreadByte l'
      | Err EOF => Ok l
      | Err e => Err e
      | Panic => Panic
      | Diverge => Diverge
      end
  end.
Definition nextLine (l : baseLexer) : sres baseLexer := skip_loop isNewline (lex_fuel l) l.
Definition readWhitespace (l : baseLexer) : sres baseLexer := skip_loop isWhitespace (lex_fuel l) l.

Definition u64 (z : Z) : Z := z mod 2 ^ 64.

Fixpoint uint64_loop (fuel : nat) (i : Z) (l : baseLexer) : sres (Z * baseLexer) :=
  match fuel with
  | O => Diverge
  | S fuel =>
      match readByte l with
      | Ok (ch, l') =>
          if isNewline ch then l'' ← unreadByte l'; Ok (i, l'')
          else if isWhitespace ch then l'' ← readWhitespace l'; Ok (i, l'')
          else if is_digit ch then uint64_loop fuel (u64 (i * 10 + (byte ch - 48))) l'
          else Err (lexer_syntaxError l')
      | Err EOF => if 0 <? i then Ok (i, l) else Err EOF
      | Err e => Err e
      | Panic => Panic
      | Diverge => Diverge
      end
  end.
Definition readUint64Field (l : baseLexer) : sres (Z * baseLexer) := uint64_loop (lex_fuel l) 0 l.

(** l.value[start:stop] *)
Definition lex_slice (l : baseLexer) (start stop : nat) : string :=
  str_take (stop - start) (str_drop start (value l)).

Fixpoint field_loop (fuel start : nat) (l : baseLexer) : sres (string * baseLexer) :=
  match fuel with
  | O => Diverge
  | S fuel =>
      let stop := pos l in
      match readByte l with
      | Ok (ch, l') =>
          if isNewline ch then l'' ← unreadByte l'; Ok (lex_slice l start stop, l'')
          else if isWhitespace ch then l'' ← readWhitespace l'; Ok (lex_slice l start stop, l'')
          else field_loop fuel start l'
      | Err EOF => if (start <? stop)%nat then Ok (lex_slice l start stop, l) else Err EOF
      | Err e => Err e
      | Panic => Panic
      | Diverge => Diverge
      end
  end.
Definition readField (l : baseLexer) : sres (string * baseLexer) := field_loop (lex_fuel l) (pos l) l.

Fixpoint line_loop (fuel start trim : nat) (l : baseLexer) : sres (string * baseLexer) :=
  match fuel with
  | O => Diverge
  | S fuel =>
      '(ch, l) ← readByte l;
      let trim := if Ascii.eqb ch "013" then S trim else trim in
      if Ascii.eqb ch "010" then
        if (pos l <? start + trim)%nat then Panic else Ok (lex_slice l start (pos l - trim), l)
      else line_loop fuel start trim l
  end.
Definition readLine (l : baseLexer) : sres (string * baseLexer) := line_loop (lex_fuel l) (pos l) 1 l.

Fixpoint string_loop (until : ascii) (fuel start : nat) (l : baseLexer) : sres (string * baseLexer) :=
  match fuel with
  | O => Diverge
  | S fuel =>
      '(ch, l) ← readByte l;
      if Ascii.eqb ch until then Ok (lex_slice l start (pos l), l)
      else string_loop until fuel start l
  end.
Definition readString (until : ascii) (l : baseLexer) : sres (string * baseLexer) :=
  string_loop until (lex_fuel l) (pos l) l.

(** An EOF comes with an empty key. *)
Fixpoint type_loop (fuel : nat) (l : baseLexer) : sres (string * baseLexer) :=
  match fuel with
  | O => Diverge
  | S fuel =>
      '(b, l) ← readByte l;
      if isNewline b then type_loop fuel l
      else
        l ← unreadByte l;
        '(key, l) ← readString "=" l;
        if (string_len key =? 2)%nat then Ok (key, l) else Err (lexer_syntaxError l)
  end.
Definition readType (l : baseLexer) : sres (string * baseLexer) := type_loop (lex_fuel l) l.

Definition anyOf (element : string) (data : list string) : bool := bool_decide (element ∈ data).

(** ** The state machine of Unmarshal *)

(** type stateFn: the functions s1 to s16, which read a key, and those that read
    the rest of a line. *)
Inductive stateFn :=
  | Fs1 | Fs2 | Fs3 | Fs4 | Fs5 | Fs6 | Fs7 | Fs8 | Fs9 | Fs10 | Fs11 | Fs12 | Fs13 | Fs14 | Fs15 | Fs16
  | FProtocolVersion | FOrigin | FSessionName | FSessionInformation | FURI | FEmail | FPhone
  | FSessionConnectionInformation | FSessionBandwidth | FTiming | FRepeatTimes | FTimeZones
  | FSessionEncryptionKey | FSessionAttribute | FMediaDescription | FMediaTitle
  | FMediaConnectionInformation | FMediaBandwidth | FMediaEncryptionKey | FMediaAttribute.

(** strconv.ParseUint(s, 10, bits) *)
Definition parse_uint (bits : Z) (s : string) : option Z :=
  if decide (s = EmptyString) then None
  else match atoi_digits 0 s with
       | Some n => if n <? 2 ^ bits then Some n else None
       | None => None
       end.

Definition unmarshalBandwidth (v : string) : sres Bandwidth :=
  match str_split v ":" with
  | [ty; n] =>
      let experimental := has_prefix "X-" ty in
      ty ← (if experimental then Ok (str_drop 2 ty)
            else if anyOf ty ["CT"; "AS"; "TIAS"; "RS"; "RR"] then Ok ty
            else Err errSDPInvalidValue);
      match parse_uint 64 n with
      | Some bandwidth => Ok (MkBandwidth experimental ty bandwidth)
      | None => Err errSDPInvalidNumericValue
      end
  | _ => Err errSDPInvalidValue
  end.

Definition timeShorthand (b : ascii) : Z :=
  if Ascii.eqb b "d" then 86400
  else if Ascii.eqb b "h" then 3600
  else if Ascii.eqb b "m" then 60
  else if Ascii.eqb b "s" then 1
  else 0.

(** value[len(value)-1] is out of range for the empty string.  ParseInt is
    [atoi]; the product is an int64. *)
Definition parseTimeUnits (v : string) : sres Z :=
  let n := (string_len v - 1)%nat in
  match String.get n v with
  | None => Panic
  | Some b =>
      let k := timeShorthand b in
      match (if 0 <? k then atoi (str_take n v) else atoi v) with
      | Some num => Ok (to_int64 (num * (if 0 <? k then k else 1)))
      | None => Err errSDPInvalidValue
      end
  end.

Definition parsePort (v : string) : sres Z :=
  match atoi v with
  | None => Err errSDPInvalidPortValue
  | Some port => if (port <? 0) || (65536 <? port) then Err errSDPInvalidPortValue else Ok port
  end.

(** if err != nil { return ..., e }: another error is returned instead. *)
Definition or_err {A} (m : sres A) (e : sdp_err) : sres A :=
  match m with
  | Err _ => Err e
  | m => m
  end.

(** i := strings.IndexRune(value, ':'); a value only if i > 0. *)
Definition parse_attribute (v : string) : Attribute :=
  match str_cut ":" v with
  | (String c k, Some rest) => NewAttribute (String c k) rest
  | _ => NewPropertyAttribute v
  end.

(** for ... { field; if field == "" { break }; ... }: the offsets of r= and the
    formats of m=. *)
Fixpoint fields_until_empty {A} (parse : string → sres A) (fuel : nat) (l : baseLexer) (acc : list A)
    : sres (list A * baseLexer) :=
  match fuel with
  | O => Diverge
  | S fuel =>
      '(field, l) ← readField l;
      if decide (field = EmptyString) then Ok (acc, l)
      else x ← parse field; fields_until_empty parse fuel l (acc ++ [x])
  end.

Fixpoint zones_loop (fuel : nat) (l : baseLexer) (acc : list TimeZone) : sres (list TimeZone * baseLexer) :=
  match fuel with
  | O => Diverge
  | S fuel =>
      '(t, l) ← readUint64Field l;
      '(offset, l) ← readField l;
      if decide (offset = EmptyString) then Ok (acc, l)
      else o ← parseTimeUnits offset; zones_loop fuel l (acc ++ [MkZone t o])
  end.

Definition unmarshalConnectionInformation (l : baseLexer) : sres (ConnectionInformation * baseLexer) :=
  '(nt, l) ← readField l;
  _ ← fail_if (negb (anyOf nt ["IN"])) errSDPInvalidValue;
  '(at_, l) ← readField l;
  _ ← fail_if (negb (anyOf at_ ["IP4"; "IP6"])) errSDPInvalidValue;
  '(address, l) ← readField l;
  let a := if decide (address = EmptyString) then None else Some (MkAddress address None None) in
  l ← nextLine l;
  Ok (MkConnection nt at_ a, l).

(** The protocols of an m= line. *)
Definition known_proto (p : string) : bool :=
  anyOf p ["UDP"; "RTP"; "AVP"; "SAVP"; "SAVPF"; "TLS"; "DTLS"; "SCTP"; "AVPF"; "TCP"; "MSRP"].

Definition parse_media_port (field : string) : sres RangedPort :=
  let parts := str_split field "/" in
  v ← or_err (parsePort (default EmptyString (head parts))) errSDPInvalidPortValue;
  match parts with
  | _ :: r :: _ =>
      match atoi r with
      | Some n => Ok (MkPort v (Some n))
      | None => Err errSDPInvalidValue
      end
  | _ => Ok (MkPort v None)
  end.

Definition read_media_name (l : baseLexer) : sres (MediaName * baseLexer) :=
  '(media, l) ← readField l;
  _ ← fail_if (negb (anyOf media ["audio"; "video"; "text"; "application"; "message"])) errSDPInvalidValue;
  '(field, l) ← readField l;
  port ← parse_media_port field;
  '(field, l) ← readField l;
  let protos := str_split field "/" in
  _ ← fail_if (negb (forallb known_proto protos)) errSDPInvalidNumericValue;
  '(formats, l) ← fields_until_empty (λ f, Ok f) (lex_fuel l) l [];
  l ← nextLine l;
  Ok (MkMediaName media port protos formats, l).

Section unmarshal.
Context `{NetUrl}.

Record lexer := MkLex { desc : SessionDescription; base : baseLexer }.

(** What a state function returns: the next one, unless parsing is over, and
    the lexer. *)
Definition next : Type := option stateFn * lexer.
Definition go_to (st : stateFn) (d : SessionDescription) (l : baseLexer) : sres next :=
  Ok (Some st, MkLex d l).

Definition handleType (l : lexer) (fn : string → option stateFn) : sres next :=
  match readType (base l) with
  | Ok (key, b) =>
      match fn key with
      | Some st => go_to st (desc l) b
      | None => Err (lexer_syntaxError b)
      end
  | Err EOF => Ok (None, l)
  | Err e => Err e
  | Panic => Panic
  | Diverge => Diverge
  end.

(** switch key { case ...: return ... }; return nil *)
Definition by_key (table : list (string * stateFn)) (key : string) : option stateFn :=
  snd <$> List.find (λ e, bool_decide (e.1 = key)) table.

Definition s1 (l : lexer) : sres next := handleType l (by_key [("v=", FProtocolVersion)]).
Definition s2 (l : lexer) : sres next := handleType l (by_key [("o=", FOrigin)]).
Definition s3 (l : lexer) : sres next := handleType l (by_key [("s=", FSessionName)]).
Definition s4 (l : lexer) : sres next := handleType l (by_key [
  ("i=", FSessionInformation); ("u=", FURI); ("e=", FEmail); ("p=", FPhone);
  ("c=", FSessionConnectionInformation); ("b=", FSessionBandwidth); ("t=", FTiming)]).
Definition s5 (l : lexer) : sres next := handleType l (by_key [("b=", FSessionBandwidth); ("t=", FTiming)]).
Definition s6 (l : lexer) : sres next := handleType l (by_key [
  ("p=", FPhone); ("c=", FSessionConnectionInformation); ("b=", FSessionBandwidth); ("t=", FTiming)]).
Definition s7 (l : lexer) : sres next := handleType l (by_key [
  ("u=", FURI); ("e=", FEmail); ("p=", FPhone); ("c=", FSessionConnectionInformation);
  ("b=", FSessionBandwidth); ("t=", FTiming)]).
Definition s8 (l : lexer) : sres next := handleType l (by_key [
  ("c=", FSessionConnectionInformation); ("b=", FSessionBandwidth); ("t=", FTiming)]).
Definition s9 (l : lexer) : sres next := handleType l (by_key [
  ("z=", FTimeZones); ("k=", FSessionEncryptionKey); ("a=", FSessionAttribute); ("r=", FRepeatTimes);
  ("t=", FTiming); ("m=", FMediaDescription)]).
Definition s10 (l : lexer) : sres next := handleType l (by_key [
  ("e=", FEmail); ("p=", FPhone); ("c=", FSessionConnectionInformation); ("b=", FSessionBandwidth);
  ("t=", FTiming)]).
Definition s11 (l : lexer) : sres next := handleType l (by_key [
  ("a=", FSessionAttribute); ("m=", FMediaDescription)]).
Definition s12 (l : lexer) : sres next := handleType l (by_key [
  ("a=", FMediaAttribute); ("k=", FMediaEncryptionKey); ("b=", FMediaBandwidth);
  ("c=", FMediaConnectionInformation); ("i=", FMediaTitle); ("m=", FMediaDescription)]).
Definition s13 (l : lexer) : sres next := handleType l (by_key [
  ("a=", FSessionAttribute); ("k=", FSessionEncryptionKey); ("m=", FMediaDescription)]).
Definition s14 (l : lexer) : sres next := handleType l (by_key [
  ("a=", FMediaAttribute); ("k=", FMediaEncryptionKey); ("b=", FMediaBandwidth);
  ("c=", FMediaConnectionInformation); ("i=", FMediaTitle); ("m=", FMediaDescription)]).
Definition s15 (l : lexer) : sres next := handleType l (by_key [
  ("a=", FMediaAttribute); ("k=", FMediaEncryptionKey); ("b=", FMediaBandwidth);
  ("c=", FMediaConnectionInformation); ("i=", FMediaTitle); ("m=", FMediaDescription)]).
Definition s16 (l : lexer) : sres next := handleType l (by_key [
  ("a=", FMediaAttribute); ("k=", FMediaEncryptionKey); ("c=", FMediaConnectionInformation);
  ("b=", FMediaBandwidth); ("i=", FMediaTitle); ("m=", FMediaDescription)]).

(** Updates of one field of the description. *)
Definition set_sd_Origin v (d : SessionDescription) : SessionDescription :=
  MkSession (sd_Version d) v (SessionName d) (SessionInformation d) (URI d) (EmailAddress d) (PhoneNumber d)
    (sd_ConnectionInformation d) (sd_Bandwidth d) (TimeDescriptions d) (TimeZones d) (sd_EncryptionKey d) (sd_Attributes d) (MediaDescriptions d).
Definition set_SessionName v (d : SessionDescription) : SessionDescription :=
  MkSession (sd_Version d) (sd_Origin d) v (SessionInformation d) (URI d) (EmailAddress d) (PhoneNumber d)
    (sd_ConnectionInformation d) (sd_Bandwidth d) (TimeDescriptions d) (TimeZones d) (sd_EncryptionKey d) (sd_Attributes d) (MediaDescriptions d).
Definition set_SessionInformation v (d : SessionDescription) : SessionDescription :=
  MkSession (sd_Version d) (sd_Origin d) (SessionName d) v (URI d) (EmailAddress d) (PhoneNumber d)
    (sd_ConnectionInformation d) (sd_Bandwidth d) (TimeDescriptions d) (TimeZones d) (sd_EncryptionKey d) (sd_Attributes d) (MediaDescriptions d).
Definition set_URI v (d : SessionDescription) : SessionDescription :=
  MkSession (sd_Version d) (sd_Origin d) (SessionName d) (SessionInformation d) v (EmailAddress d) (PhoneNumber d)
    (sd_ConnectionInformation d) (sd_Bandwidth d) (TimeDescriptions d) (TimeZones d) (sd_EncryptionKey d) (sd_Attributes d) (MediaDescriptions d).
Definition set_EmailAddress v (d : SessionDescription) : SessionDescription :=
  MkSession (sd_Version d) (sd_Origin d) (SessionName d) (SessionInformation d) (URI d) v (PhoneNumber d)
    (sd_ConnectionInformation d) (sd_Bandwidth d) (TimeDescriptions d) (TimeZones d) (sd_EncryptionKey d) (sd_Attributes d) (MediaDescriptions d).
Definition set_PhoneNumber v (d : SessionDescription) : SessionDescription :=
  MkSession (sd_Version d) (sd_Origin d) (SessionName d) (SessionInformation d) (URI d) (EmailAddress d) v
    (sd_ConnectionInformation d) (sd_Bandwidth d) (TimeDescriptions d) (TimeZones d) (sd_EncryptionKey d) (sd_Attributes d) (MediaDescriptions d).
Definition set_sd_ConnectionInformation v (d : SessionDescription) : SessionDescription :=
  MkSession (sd_Version d) (sd_Origin d) (SessionName d) (SessionInformation d) (URI d) (EmailAddress d) (PhoneNumber d)
    v (sd_Bandwidth d) (TimeDescriptions d) (TimeZones d) (sd_EncryptionKey d) (sd_Attributes d) (MediaDescriptions d).
Definition set_sd_Bandwidth v (d : SessionDescription) : SessionDescription :=
  MkSession (sd_Version d) (sd_Origin d) (SessionName d) (SessionInformation d) (URI d) (EmailAddress d) (PhoneNumber d)
    (sd_ConnectionInformation d) v (TimeDescriptions d) (TimeZones d) (sd_EncryptionKey d) (sd_Attributes d) (MediaDescriptions d).
Definition set_TimeDescriptions v (d : SessionDescription) : SessionDescription :=
  MkSession (sd_Version d) (sd_Origin d) (SessionName d) (SessionInformation d) (URI d) (EmailAddress d) (PhoneNumber d)
    (sd_ConnectionInformation d) (sd_Bandwidth d) v (TimeZones d) (sd_EncryptionKey d) (sd_Attributes d) (MediaDescriptions d).
Definition set_TimeZones v (d : SessionDescription) : SessionDescription :=
  MkSession (sd_Version d) (sd_Origin d) (SessionName d) (SessionInformation d) (URI d) (EmailAddress d) (PhoneNumber d)
    (sd_ConnectionInformation d) (sd_Bandwidth d) (TimeDescriptions d) v (sd_EncryptionKey d) (sd_Attributes d) (MediaDescriptions d).
Definition set_sd_EncryptionKey v (d : SessionDescription) : SessionDescription :=
  MkSession (sd_Version d) (sd_Origin d) (SessionName d) (SessionInformation d) (URI d) (EmailAddress d) (PhoneNumber d)
    (sd_ConnectionInformation d) (sd_Bandwidth d) (TimeDescriptions d) (TimeZones d) v (sd_Attributes d) (MediaDescriptions d).
Definition set_sd_Attributes v (d : SessionDescription) : SessionDescription :=
  MkSession (sd_Version d) (sd_Origin d) (SessionName d) (SessionInformation d) (URI d) (EmailAddress d) (PhoneNumber d)
    (sd_ConnectionInformation d) (sd_Bandwidth d) (TimeDescriptions d) (TimeZones d) (sd_EncryptionKey d) v (MediaDescriptions d).
Definition set_MediaDescriptions v (d : SessionDescription) : SessionDescription :=
  MkSession (sd_Version d) (sd_Origin d) (SessionName d) (SessionInformation d) (URI d) (EmailAddress d) (PhoneNumber d)
    (sd_ConnectionInformation d) (sd_Bandwidth d) (TimeDescriptions d) (TimeZones d) (sd_EncryptionKey d) (sd_Attributes d) v.

Definition set_Title v (d : MediaDescription) : MediaDescription :=
  MkMediaDesc (md_MediaName d) v (md_ConnectionInformation d) (md_Bandwidth d) (md_EncryptionKey d)
    (md_Attributes d).
Definition set_Connection v (d : MediaDescription) : MediaDescription :=
  MkMediaDesc (md_MediaName d) (MediaTitle d) v (md_Bandwidth d) (md_EncryptionKey d) (md_Attributes d).
Definition add_Bandwidth b (d : MediaDescription) : MediaDescription :=
  MkMediaDesc (md_MediaName d) (MediaTitle d) (md_ConnectionInformation d) (md_Bandwidth d ++ [b])
    (md_EncryptionKey d) (md_Attributes d).
Definition set_Key v (d : MediaDescription) : MediaDescription :=
  MkMediaDesc (md_MediaName d) (MediaTitle d) (md_ConnectionInformation d) (md_Bandwidth d) v
    (md_Attributes d).
Definition add_Attribute a (d : MediaDescription) : MediaDescription :=
  MkMediaDesc (md_MediaName d) (MediaTitle d) (md_ConnectionInformation d) (md_Bandwidth d)
    (md_EncryptionKey d) (md_Attributes d ++ [a]).

(** Session level *)

Definition unmarshalProtocolVersion (l : lexer) : sres next :=
  '(version, b) ← readUint64Field (base l);
  _ ← fail_if (negb (version =? 0)) errSDPInvalidValue;
  b ← nextLine b;
  go_to Fs2 (desc l) b.

Definition unmarshalOrigin (l : lexer) : sres next :=
  '(username, b) ← readField (base l);
  '(sid, b) ← readUint64Field b;
  '(sver, b) ← readUint64Field b;
  '(nt, b) ← readField b;
  _ ← fail_if (negb (anyOf nt ["IN"])) errSDPInvalidValue;
  '(at_, b) ← readField b;
  _ ← fail_if (negb (anyOf at_ ["IP4"; "IP6"])) errSDPInvalidValue;
  '(addr, b) ← readField b;
  b ← nextLine b;
  go_to Fs3 (set_sd_Origin (MkOrigin username sid sver nt at_ addr) (desc l)) b.

Definition unmarshalSessionName (l : lexer) : sres next :=
  '(v, b) ← readLine (base l);
  go_to Fs4 (set_SessionName v (desc l)) b.

Definition unmarshalSessionInformation (l : lexer) : sres next :=
  '(v, b) ← readLine (base l);
  go_to Fs7 (set_SessionInformation (Some v) (desc l)) b.

Definition unmarshalURI (l : lexer) : sres next :=
  '(v, b) ← readLine (base l);
  match url_Parse v with
  | Some u => go_to Fs10 (set_URI (Some u) (desc l)) b
  | None => Err errURL
  end.

Definition unmarshalEmail (l : lexer) : sres next :=
  '(v, b) ← readLine (base l);
  go_to Fs6 (set_EmailAddress (Some v) (desc l)) b.

Definition unmarshalPhone (l : lexer) : sres next :=
  '(v, b) ← readLine (base l);
  go_to Fs8 (set_PhoneNumber (Some v) (desc l)) b.

Definition unmarshalSessionConnectionInformation (l : lexer) : sres next :=
  '(c, b) ← unmarshalConnectionInformation (base l);
  go_to Fs5 (set_sd_ConnectionInformation (Some c) (desc l)) b.

Definition unmarshalSessionBandwidth (l : lexer) : sres next :=
  '(v, b) ← readLine (base l);
  bw ← or_err (unmarshalBandwidth v) errSDPInvalidValue;
  go_to Fs5 (set_sd_Bandwidth (sd_Bandwidth (desc l) ++ [bw]) (desc l)) b.

Definition unmarshalTiming (l : lexer) : sres next :=
  '(start, b) ← readUint64Field (base l);
  '(stop, b) ← readUint64Field b;
  b ← nextLine b;
  go_to Fs9 (set_TimeDescriptions (TimeDescriptions (desc l) ++ [MkTime (MkTiming start stop) []]) (desc l)) b.

Definition unmarshalRepeatTimes (l : lexer) : sres next :=
  _ ← update_last id (TimeDescriptions (desc l));
  '(field, b) ← readField (base l);
  interval ← or_err (parseTimeUnits field) errSDPInvalidValue;
  '(field, b) ← readField b;
  duration ← or_err (parseTimeUnits field) errSDPInvalidValue;
  '(offsets, b) ← fields_until_empty (λ f, or_err (parseTimeUnits f) errSDPInvalidValue) (lex_fuel b) b [];
  b ← nextLine b;
  tds ← update_last (λ td, MkTime (td_Timing td) (RepeatTimes td ++ [MkRepeat interval duration offsets]))
          (TimeDescriptions (desc l));
  go_to Fs9 (set_TimeDescriptions tds (desc l)) b.

Definition unmarshalTimeZones (l : lexer) : sres next :=
  '(zones, b) ← zones_loop (lex_fuel (base l)) (base l) (TimeZones (desc l));
  b ← nextLine b;
  go_to Fs13 (set_TimeZones zones (desc l)) b.

Definition unmarshalSessionEncryptionKey (l : lexer) : sres next :=
  '(v, b) ← readLine (base l);
  go_to Fs11 (set_sd_EncryptionKey (Some v) (desc l)) b.

Definition unmarshalSessionAttribute (l : lexer) : sres next :=
  '(v, b) ← readLine (base l);
  go_to Fs11 (set_sd_Attributes (sd_Attributes (desc l) ++ [parse_attribute v]) (desc l)) b.

(** Media level: the lines belong to the last media description. *)

Definition unmarshalMediaDescription (l : lexer) : sres next :=
  '(name, b) ← read_media_name (base l);
  go_to Fs12 (set_MediaDescriptions
    (MediaDescriptions (desc l) ++ [MkMediaDesc name None None [] None []]) (desc l)) b.

Definition update_media (st : stateFn) (g : MediaDescription → MediaDescription) (l : lexer) (b : baseLexer)
    : sres next :=
  mds ← update_last g (MediaDescriptions (desc l));
  go_to st (set_MediaDescriptions mds (desc l)) b.

Definition unmarshalMediaTitle (l : lexer) : sres next :=
  '(v, b) ← readLine (base l);
  update_media Fs16 (set_Title (Some v)) l b.

Definition unmarshalMediaConnectionInformation (l : lexer) : sres next :=
  _ ← update_last id (MediaDescriptions (desc l));
  '(c, b) ← unmarshalConnectionInformation (base l);
  update_media Fs15 (set_Connection (Some c)) l b.

Definition unmarshalMediaBandwidth (l : lexer) : sres next :=
  '(v, b) ← readLine (base l);
  _ ← update_last id (MediaDescriptions (desc l));
  bw ← or_err (unmarshalBandwidth v) errSDPInvalidSyntax;
  update_media Fs15 (add_Bandwidth bw) l b.

Definition unmarshalMediaEncryptionKey (l : lexer) : sres next :=
  '(v, b) ← readLine (base l);
  update_media Fs14 (set_Key (Some v)) l b.

Definition unmarshalMediaAttribute (l : lexer) : sres next :=
  '(v, b) ← readLine (base l);
  update_media Fs14 (add_Attribute (parse_attribute v)) l b.

(** state(l) *)
Definition run_state (st : stateFn) : lexer → sres next :=
  match st with
  | Fs1 => s1 | Fs2 => s2 | Fs3 => s3 | Fs4 => s4 | Fs5 => s5 | Fs6 => s6 | Fs7 => s7 | Fs8 => s8
  | Fs9 => s9 | Fs10 => s10 | Fs11 => s11 | Fs12 => s12 | Fs13 => s13 | Fs14 => s14 | Fs15 => s15
  | Fs16 => s16
  | FProtocolVersion => unmarshalProtocolVersion
  | FOrigin => unmarshalOrigin
  | FSessionName => unmarshalSessionName
  | FSessionInformation => unmarshalSessionInformation
  | FURI => unmarshalURI
  | FEmail => unmarshalEmail
  | FPhone => unmarshalPhone
  | FSessionConnectionInformation => unmarshalSessionConnectionInformation
  | FSessionBandwidth => unmarshalSessionBandwidth
  | FTiming => unmarshalTiming
  | FRepeatTimes => unmarshalRepeatTimes
  | FTimeZones => unmarshalTimeZones
  | FSessionEncryptionKey => unmarshalSessionEncryptionKey
  | FSessionAttribute => unmarshalSessionAttribute
  | FMediaDescription => unmarshalMediaDescription
  | FMediaTitle => unmarshalMediaTitle
  | FMediaConnectionInformation => unmarshalMediaConnectionInformation
  | FMediaBandwidth => unmarshalMediaBandwidth
  | FMediaEncryptionKey => unmarshalMediaEncryptionKey
  | FMediaAttribute => unmarshalMediaAttribute
  end.

(** for state := s1; state != nil; *)
Fixpoint state_loop (fuel : nat) (st : stateFn) (l : lexer) : sres SessionDescription :=
  match fuel with
  | O => Diverge
  | S fuel =>
      '(o, l) ← run_state st l;
      match o with
      | Some st => state_loop fuel st l
      | None => Ok (desc l)
      end
  end.

(** func (s *SessionDescription) Unmarshal(value []byte) error.  Every second
    state reads a key of two bytes, so there are fewer states than bytes. *)
Definition SessionDescription_Unmarshal (s : SessionDescription) (v : string) : sres SessionDescription :=
  state_loop (2 + string_len v) Fs1 (MkLex s (MkLexer v 0)).
End unmarshal.
