(* ===== verification/SdpSafe.v ===== *)
(** * Reading a session description: termination and panics

    Unmarshal ends on every string, and it can panic only at an r= line. *)

From Stdlib Require Import Ascii.
From S2P Require Import Prelude GoLib Text Bytes Sdp.

(** ** What is left to read *)

Definition rest (l : baseLexer) : string := str_drop (pos l) (value l).

Lemma readByte_rest l :
  readByte l =
  match rest l with
  | EmptyString => Err EOF
  | String c _ => Ok (c, MkLexer (value l) (S (pos l)))
  end.
Proof. unfold readByte, rest. rewrite str_get_drop. by destruct (str_drop _ _). Qed.

Lemma rest_S l c s : rest l = String c s → rest (MkLexer (value l) (S (pos l))) = s.
Proof. intros E. change (str_drop (1 + pos l) (value l) = s). rewrite <- str_drop_add. by unfold rest in E; rewrite E. Qed.

Lemma rest_len l : (string_len (rest l) < lex_fuel l)%nat.
Proof. unfold rest, lex_fuel. rewrite str_len_drop. lia. Qed.

(** A lexer further on in the same description. *)
Definition after (n : nat) (l l' : baseLexer) : Prop :=
  value l' = value l ∧ (n + string_len (rest l') <= string_len (rest l))%nat.

Lemma after_refl l : after 0 l l.
Proof. done. Qed.
Lemma after_same l : after 0 l (MkLexer (value l) (pos l)).
Proof. by destruct l. Qed.
Lemma after_trans m n l1 l2 l3 : after m l1 l2 → after n l2 l3 → after (m + n) l1 l3.
Proof. intros [E1 H1] [E2 H2]. split; [congruence | lia]. Qed.
Lemma after_weaken m n l l' : (m <= n)%nat → after n l l' → after m l l'.
Proof. intros Hm [E H]. split; [done | lia]. Qed.
Lemma after_S l c s : rest l = String c s → after 1 l (MkLexer (value l) (S (pos l))).
Proof. intros E. split; [done|]. rewrite (rest_S _ _ _ E), E. simpl. lia. Qed.

Section lexer.
Context {p : bool}.

Lemma ends_readByte l (Q : ascii * baseLexer → Prop) :
  (∀ c s, rest l = String c s → Q (c, MkLexer (value l) (S (pos l)))) → ends p (readByte l) Q.
Proof. rewrite readByte_rest. destruct (rest l); simpl; eauto. Qed.

Lemma unread_S l n : unreadByte (MkLexer (value l) (S n)) = Ok (MkLexer (value l) n).
Proof. done. Qed.

(** A loop that is given fuel for what is left reads on. *)
Lemma ends_skip f fuel : ∀ l, (string_len (rest l) < fuel)%nat →
  ends p (skip_loop f fuel l) (after 0 l).
Proof.
  induction fuel as [|fuel IH]; intros l Hl; [lia|]. simpl. rewrite readByte_rest.
  destruct (rest l) as [|c s] eqn:E; simpl; [apply after_refl|].
  destruct (f c); [|exact (after_same l)]. eapply ends_mono.
  - apply IH. rewrite (rest_S _ _ _ E). simpl in Hl. lia.
  - intros l' Hl'. apply (after_weaken 0 (1 + 0)); [lia|]. eapply after_trans; [by eapply after_S | done].
Qed.
Lemma ends_nextLine l : ends p (nextLine l) (after 0 l).
Proof. apply ends_skip, rest_len. Qed.
Lemma ends_readWhitespace l : ends p (readWhitespace l) (after 0 l).
Proof. apply ends_skip, rest_len. Qed.

(** After one byte, white space or a newline ends a field. *)
Lemma ends_field_end {A} l c s (a : A) n :
  rest l = String c s →
  ends p (l'' ← readWhitespace (MkLexer (value l) (S (pos l))); Ok (a, l''))
    (λ r, r.1 = a ∧ after (n `min` 1) l r.2).
Proof.
  intros E. apply ends_bind. eapply ends_mono; [apply ends_readWhitespace|]. intros l' Hl. split; [done|].
  apply (after_weaken _ (1 + 0)); [lia|]. eapply after_trans; [by eapply after_S | done].
Qed.

Lemma ends_uint64 fuel : ∀ i l, (string_len (rest l) < fuel)%nat →
  ends p (uint64_loop fuel i l) (λ r, after 0 l r.2).
Proof.
  induction fuel as [|fuel IH]; intros i l Hl; [lia|]. simpl. rewrite readByte_rest.
  destruct (rest l) as [|c s] eqn:E; [by case_match|].
  destruct (isNewline c); [exact (after_same l)|].
  destruct (isWhitespace c).
  { eapply ends_mono; [exact (ends_field_end _ _ _ _ 0 E)|]. by intros r [_ ?]. }
  destruct (is_digit c); [|done]. eapply ends_mono.
  - apply IH. rewrite (rest_S _ _ _ E). simpl in Hl. lia.
  - intros r Hr. apply (after_weaken 0 (1 + 0)); [lia|]. eapply after_trans; [by eapply after_S | done].
Qed.
Lemma ends_readUint64Field l : ends p (readUint64Field l) (λ r, after 0 l r.2).
Proof. apply ends_uint64, rest_len. Qed.

(** A field that is not empty was read. *)
Lemma lex_slice_ne l start stop : lex_slice l start stop ≠ EmptyString → (start < stop)%nat.
Proof.
  unfold lex_slice. intros H. destruct (decide (start < stop)%nat); [done|].
  by replace (stop - start)%nat with O in H by lia.
Qed.

Definition field_end (n : nat) (l : baseLexer) (r : string * baseLexer) : Prop :=
  after 0 l r.2 ∧ (r.1 ≠ EmptyString → (0 < n)%nat ∨ after 1 l r.2).

Lemma ends_field fuel start : ∀ l, (string_len (rest l) < fuel)%nat → (start <= pos l)%nat →
  ends p (field_loop fuel start l) (field_end (pos l - start) l).
Proof.
  induction fuel as [|fuel IH]; intros l Hl Hs; [lia|]. simpl. rewrite readByte_rest.
  destruct (rest l) as [|c s] eqn:E.
  { case_match; [|done]. split; [apply after_refl|]. intros Hr%lex_slice_ne. left. lia. }
  destruct (isNewline c).
  { simpl. split; [exact (after_same l)|]. intros Hr%lex_slice_ne. left. lia. }
  destruct (isWhitespace c).
  { eapply ends_mono; [exact (ends_field_end _ _ _ _ 1 E)|]. intros r [_ Hr].
    split; [by eapply after_weaken; [|done]; lia|]. by right. }
  eapply ends_mono.
  - apply IH; [|simpl; lia]. rewrite (rest_S _ _ _ E). simpl in Hl. lia.
  - intros r [Hr _]. assert (after (1 + 0) l r.2) by (eapply after_trans; [by eapply after_S | done]).
    split; [by eapply after_weaken; [|done]; lia|]. by right.
Qed.
Lemma ends_readField l :
  ends p (readField l) (λ r, after 0 l r.2 ∧ (r.1 ≠ EmptyString → after 1 l r.2)).
Proof.
  eapply ends_mono; [by apply ends_field; [apply rest_len|]|]. intros r [H0 H1]. split; [done|].
  intros Hr. destruct (H1 Hr); [lia | done].
Qed.

(** The trimmed bytes are among those read. *)
Lemma ends_line fuel start : ∀ trim l, (string_len (rest l) < fuel)%nat → (start + trim <= S (pos l))%nat →
  ends p (line_loop fuel start trim l) (λ r, after 0 l r.2).
Proof.
  induction fuel as [|fuel IH]; intros trim l Hl Ht; [lia|]. simpl.
  apply ends_bind, ends_readByte. intros c s E. simpl.
  pose proof (after_S _ _ _ E) as Ha. set (l' := MkLexer _ _) in *.
  destruct (Ascii.eqb c "010") eqn:Hc.
  - apply Ascii.eqb_eq in Hc as ->. simpl. rewrite (proj2 (Nat.ltb_ge _ _)) by lia. simpl.
    eapply after_weaken; [|done]. lia.
  - eapply ends_mono.
    + apply IH; [|case_match; simpl; lia]. destruct Ha. lia.
    + intros r Hr. apply (after_weaken 0 (1 + 0)); [lia|]. by eapply after_trans.
Qed.
Lemma ends_readLine l : ends p (readLine l) (λ r, after 0 l r.2).
Proof. apply ends_line; [apply rest_len | lia]. Qed.

(** A string that was read is part of the description. *)
Lemma ends_string until fuel start : ∀ l, (string_len (rest l) < fuel)%nat → (start <= pos l)%nat →
  ends p (string_loop until fuel start l) (λ r, after 1 l r.2 ∧ r.1 = lex_slice l start (pos r.2)).
Proof.
  induction fuel as [|fuel IH]; intros l Hl Hs; [lia|]. simpl.
  apply ends_bind, ends_readByte. intros c s E. pose proof (after_S _ _ _ E) as Ha.
  destruct (Ascii.eqb c until); [by split|]. eapply ends_mono.
  - apply IH; [destruct Ha; lia | simpl; lia].
  - intros r [Hr ?]. split; [|done]. apply (after_weaken 1 (1 + 1)); [lia|]. by eapply after_trans.
Qed.

Lemma ends_type fuel : ∀ l, (string_len (rest l) < fuel)%nat →
  ends p (type_loop fuel l)
    (λ r, after 2 l r.2 ∧ str_contains (value l) r.1 = true).
Proof.
  induction fuel as [|fuel IH]; intros l Hl; [lia|]. simpl.
  apply ends_bind, ends_readByte. intros c s E. pose proof (after_S _ _ _ E) as Ha.
  destruct (isNewline c).
  { eapply ends_mono; [apply IH; destruct Ha; lia|]. intros r [Hr Hc]. split; [|done].
    apply (after_weaken 2 (1 + 2)); [lia|]. by eapply after_trans. }
  rewrite unread_S, bind_Ok. replace (MkLexer (value l) (pos l)) with l by by destruct l.
  apply ends_bind. eapply ends_mono; [apply (ends_string _ _ (pos l)); [apply rest_len | done]|].
  intros [key l'] [Hl' Es]. simpl in *. subst key. case_match eqn:Hk; [|done]. simpl. split; [|apply str_contains_sub].
  destruct Hl' as [Ev Hn]. split; [done|]. apply Nat.eqb_eq in Hk.
  unfold lex_slice in Hk. unfold rest in *. rewrite Ev in *. rewrite str_len_take, !str_len_drop in *.
  lia.
Qed.
End lexer.

(** ** The parts of a line *)

Section parts.
Context {p : bool}.

Lemma ends_update_last {A} (g : A → A) l : l ≠ [] → ends p (update_last g l) (λ l', l' ≠ []).
Proof.
  induction l as [|x l IH]; [done|]. intros _. destruct l as [|y l]; [done|].
  change (update_last g (x :: y :: l)) with (l' ← update_last g (y :: l); Ok (x :: l')).
  apply ends_bind. by eapply ends_mono; [by apply IH|].
Qed.

Lemma ends_or_err {A} (m : sres A) e Q : ends p m Q → ends p (or_err m e) Q.
Proof. by destruct m. Qed.

Lemma ends_unmarshalBandwidth v : ends p (unmarshalBandwidth v) (λ _, True).
Proof.
  unfold unmarshalBandwidth. destruct (str_split v ":") as [|ty [|n [|? ?]]]; try done.
  apply ends_bind. repeat case_match; done.
Qed.

(** The last byte is there unless the value is empty. *)
Lemma ends_parseTimeUnits v : v ≠ EmptyString ∨ p = true → ends p (parseTimeUnits v) (λ _, True).
Proof.
  intros Hv. unfold parseTimeUnits. rewrite str_get_drop. destruct (str_drop (string_len v - 1) v) eqn:E.
  - destruct Hv as [Hv|Hv]; [|done]. exfalso. apply Hv. assert (string_len (str_drop (string_len v - 1) v) = 0)%nat as H by by rewrite E.
    rewrite str_len_drop in H. destruct v; [done|]. simpl in H. lia.
  - repeat case_match; done.
Qed.

Lemma ends_parsePort v : ends p (parsePort v) (λ _, True).
Proof. unfold parsePort. repeat case_match; done. Qed.

Lemma ends_parse_media_port v : ends p (parse_media_port v) (λ _, True).
Proof.
  unfold parse_media_port. apply ends_bind. eapply ends_mono; [apply ends_or_err, ends_parsePort|].
  intros n _. repeat case_match; done.
Qed.

(** Every field of a list takes at least one byte. *)
Lemma ends_fields {A} (parse : string → sres A) fuel : ∀ l acc,
  (∀ f, f ≠ EmptyString → ends p (parse f) (λ _, True)) → (string_len (rest l) < fuel)%nat →
  ends p (fields_until_empty parse fuel l acc) (λ r, after 0 l r.2).
Proof.
  induction fuel as [|fuel IH]; intros l acc Hp Hl; [lia|]. simpl. apply ends_bind.
  eapply ends_mono; [apply ends_readField|]. intros [f l'] [H0 H1]. simpl in *. case_decide as Hf; [done|].
  destruct (H1 Hf) as [E Hn]. apply ends_bind. eapply ends_mono; [by apply Hp|]. intros x _.
  eapply ends_mono; [apply IH; [done | lia]|]. intros r Hr. apply (after_weaken 0 (1 + 0)); [lia|].
  eapply after_trans; [by apply H1 | exact Hr].
Qed.

Lemma ends_zones fuel : ∀ l acc, (string_len (rest l) < fuel)%nat →
  ends p (zones_loop fuel l acc) (λ r, after 0 l r.2).
Proof.
  induction fuel as [|fuel IH]; intros l acc Hl; [lia|]. simpl. apply ends_bind.
  eapply ends_mono; [apply ends_readUint64Field|]. intros [t l1] H0. apply ends_bind.
  eapply ends_mono; [apply ends_readField|]. intros [o l2] [H1 H2]. simpl in *.
  case_decide as Ho; [exact (after_trans 0 0 _ _ _ H0 H1)|].
  pose proof (after_trans 0 1 _ _ _ H0 (H2 Ho)) as [E Hn]. apply ends_bind.
  eapply ends_mono; [by apply ends_parseTimeUnits; left|]. intros z _.
  eapply ends_mono; [apply IH; lia|]. intros r Hr. apply (after_weaken 0 (1 + 0)); [lia|].
  eapply after_trans; [exact (after_trans 0 1 _ _ _ H0 (H2 Ho)) | exact Hr].
Qed.

End parts.

(** Reads a line piece by piece. *)
Ltac lex_step :=
  match goal with
  | |- ends _ (_ ≫= _) _ => apply ends_bind
  | |- ends _ (fail_if _ _) _ => apply ends_fail_if; intros _
  | |- ends _ (readField _) _ => eapply ends_mono; [apply ends_readField|]; intros [? ?] [? _]; cbn [fst snd] in *
  | |- ends _ (readUint64Field _) _ =>
      eapply ends_mono; [apply ends_readUint64Field|]; intros [? ?] ?; cbn [fst snd] in *
  | |- ends _ (readLine _) _ => eapply ends_mono; [apply ends_readLine|]; intros [? ?] ?; cbn [fst snd] in *
  | |- ends _ (nextLine _) _ => eapply ends_mono; [apply ends_nextLine|]; intros ? ?; cbn [fst snd] in *
  | |- ends _ (or_err (parseTimeUnits _) _) _ =>
      eapply ends_mono; [apply ends_or_err, ends_parseTimeUnits; by right|]; intros ? _
  | |- ends _ (or_err (unmarshalBandwidth _) _) _ =>
      eapply ends_mono; [apply ends_or_err, ends_unmarshalBandwidth|]; intros ? _
  | |- ends _ (parse_media_port _) _ => eapply ends_mono; [apply ends_parse_media_port|]; intros ? _
  | |- ends _ (fields_until_empty _ (lex_fuel _) _ _) _ =>
      eapply ends_mono; [apply ends_fields; [|apply rest_len]; intros;
        try (apply ends_or_err, ends_parseTimeUnits; left); done|]; intros [? ?] ?; cbn [fst snd] in *
  | |- ends _ (zones_loop (lex_fuel _) _ _) _ =>
      eapply ends_mono; [apply ends_zones, rest_len|]; intros [? ?] ?; cbn [fst snd] in *
  | |- ends _ (update_last _ _) _ => eapply ends_mono; [by apply ends_update_last|]; intros ? ?
  | |- ends _ (Ok _) _ => simpl
  end.
Ltac lex_end := unfold after in *; simpl in *; intuition (congruence || lia).

Section names.
Context {p : bool}.

Lemma ends_connection l : ends p (unmarshalConnectionInformation l) (λ r, after 0 l r.2).
Proof. unfold unmarshalConnectionInformation. repeat lex_step. lex_end. Qed.

Lemma ends_media_name l : ends p (read_media_name l) (λ r, after 0 l r.2).
Proof. unfold read_media_name. repeat lex_step. lex_end. Qed.
End names.

(** ** The states *)

Definition is_key (st : stateFn) : bool :=
  match st with
  | Fs1 | Fs2 | Fs3 | Fs4 | Fs5 | Fs6 | Fs7 | Fs8 | Fs9 | Fs10 | Fs11 | Fs12 | Fs13 | Fs14 | Fs15 | Fs16 => true
  | _ => false
  end.

Section states.
Context `{NetUrl} {p : bool}.

(** What a state relies on: lines that belong to the last time or media
    description come after one; an r= line was announced. *)
Definition needs (st : stateFn) (d : SessionDescription) : Prop :=
  match st with
  | Fs9 => TimeDescriptions d ≠ []
  | FRepeatTimes => TimeDescriptions d ≠ [] ∧ p = true
  | Fs12 | Fs14 | Fs15 | Fs16 | FMediaTitle | FMediaConnectionInformation | FMediaBandwidth
  | FMediaEncryptionKey | FMediaAttribute => MediaDescriptions d ≠ []
  | _ => True
  end.

Definition next_ok (n : nat) (key : bool) (l : baseLexer) (r : next) : Prop :=
  match r.1 with
  | Some st => needs st (desc r.2) ∧ is_key st = key ∧ after n l (base r.2)
  | None => True
  end.

Lemma by_key_in table key st : by_key table key = Some st → (key, st) ∈ table.
Proof.
  unfold by_key. intros ([k st'] & Hf & [= ->])%fmap_Some. apply List.find_some in Hf as [Hin Hk].
  apply bool_decide_eq_true in Hk. simpl in Hk. subst. by apply list_elem_of_In.
Qed.

Lemma ends_handleType l table :
  (str_contains (value (base l)) "r=" = true → p = true) →
  Forall (λ e, is_key e.2 = false ∧ (e.1 = "r=" ∨ e.2 ≠ FRepeatTimes)) table →
  (∀ st, st ∈ table.*2 → st = FRepeatTimes ∧ TimeDescriptions (desc l) ≠ [] ∨
     st ≠ FRepeatTimes ∧ needs st (desc l)) →
  ends p (handleType l (by_key table)) (next_ok 2 false (base l)).
Proof.
  intros Hr Ht Hn. unfold handleType. pose proof (ends_type (p := p) (lex_fuel (base l)) (base l) (rest_len _)) as He.
  unfold readType. destruct (type_loop _ _) as [[key b]|[]| |]; try done. destruct He as [Ha Hc]. simpl in *.
  destruct (by_key table key) as [st|] eqn:Hk; [|done]. apply by_key_in in Hk as Hin. simpl.
  rewrite Forall_forall in Ht. destruct (Ht _ Hin) as [Hkey Hrep]. simpl in *.
  assert (st ∈ table.*2) as Hst by (by apply (list_elem_of_fmap_2 snd) in Hin).
  split; [|done]. destruct (Hn st Hst) as [[-> Htd]|[? ?]]; [|done]. simpl. split; [done|].
  destruct Hrep as [->|]; [auto | done].
Qed.

Ltac line_step :=
  match goal with
  | |- ends _ (go_to _ _ _) _ => simpl
  | |- ends _ (unmarshalConnectionInformation _) _ =>
      eapply ends_mono; [apply ends_connection|]; intros [? ?] ?; cbn [fst snd] in *
  | |- ends _ (read_media_name _) _ =>
      eapply ends_mono; [apply ends_media_name|]; intros [? ?] ?; cbn [fst snd] in *
  | |- ends _ (match url_Parse _ with _ => _ end) _ => case_match
  | |- _ => lex_step
  end.
Ltac line_end :=
  unfold next_ok; cbn [fst snd desc base needs is_key]; split_and!;
  [first [done | simpl; by destruct (TimeDescriptions _) | simpl; by destruct (MediaDescriptions _)] | done | lex_end].

Ltac key_state :=
  apply ends_handleType; [done | repeat constructor; simpl; auto |];
  intros st; simpl; rewrite ?elem_of_cons, elem_of_nil; intuition (subst; simpl; auto; right; by split).

Lemma ends_state st d l :
  (str_contains (value l) "r=" = true → p = true) → needs st d →
  ends p (run_state st (MkLex d l)) (next_ok (if is_key st then 2 else 0) (negb (is_key st)) l).
Proof.
  intros Hr Hn. destruct st; simpl; try (key_state; fail).
  all: unfold unmarshalProtocolVersion, unmarshalOrigin, unmarshalSessionName, unmarshalSessionInformation,
    unmarshalURI, unmarshalEmail, unmarshalPhone, unmarshalSessionConnectionInformation,
    unmarshalSessionBandwidth, unmarshalTiming, unmarshalRepeatTimes, unmarshalTimeZones,
    unmarshalSessionEncryptionKey, unmarshalSessionAttribute, unmarshalMediaDescription, unmarshalMediaTitle,
    unmarshalMediaConnectionInformation, unmarshalMediaBandwidth, unmarshalMediaEncryptionKey,
    unmarshalMediaAttribute, update_media; cbn [desc base needs] in *;
    match type of Hn with _ ∧ _ => destruct Hn as [Hn Hp] | _ => idtac end.
  all: repeat line_step; (done || line_end).
Qed.

(** Every second state reads at least two bytes. *)
Lemma ends_loop fuel : ∀ st d l,
  (str_contains (value l) "r=" = true → p = true) → needs st d →
  (string_len (rest l) + (if is_key st then 1 else 2) < fuel)%nat →
  ends p (state_loop fuel st (MkLex d l)) (λ _, True).
Proof.
  induction fuel as [|fuel IH]; intros st d l Hr Hn Hf; [lia|]. simpl. apply ends_bind.
  eapply ends_mono; [by apply ends_state|]. intros [[st'|] [d' l']]; [|done].
  unfold next_ok. cbn [fst snd desc base]. intros (Hn' & Hk & E & Hl). apply IH; [by rewrite E | done |].
  rewrite Hk. destruct (is_key st); simpl in *; lia.
Qed.
End states.

(** C21. Reading a session description ends on every string of bytes, also in
    the loops over fields, lines and states; and it cannot panic unless there
    is an r= in the description: the lines that belong to the last time or
    media description always come after one. *)
Theorem sdp_unmarshal_ends `{NetUrl} s v :
  SessionDescription_Unmarshal s v ≠ Diverge ∧
  (SessionDescription_Unmarshal s v = Panic → str_contains v "r=" = true).
Proof.
  assert (ends (str_contains v "r=") (SessionDescription_Unmarshal s v) (λ _, True)) as He.
  { apply ends_loop; [done | done |]. unfold rest. simpl. destruct v; simpl; lia. }
  split; intros E; rewrite E in He; done.
Qed.

(** An r= line without its fields, after a t= line. *)
Definition empty_repeat : string :=
  "v=0" +:+ CRLF +:+ "o=- 1 1 IN IP4 0.0.0.0" +:+ CRLF +:+ "s=-" +:+ CRLF +:+ "t=0 0" +:+ CRLF +:+ "r=" +:+ CRLF.

(** A description with an empty r= line is not refused: parseTimeUnits
    takes the last byte of an empty field, and Unmarshal panics, whatever
    follows. *)
Theorem sdp_repeat_panics `{NetUrl} more :
  SessionDescription_Unmarshal session_zero (empty_repeat +:+ more) = Panic.
Proof. reflexivity. Qed.
