(* ===== verification/SdpProps.v ===== *)
(** * Session descriptions are read back as they were written

    What the lexer reads of a text that is known, line by line, and the path
    the state machine of Unmarshal takes through the lines Marshal writes. *)

From Stdlib Require Import Ascii.
From S2P Require Import Prelude GoLib Text Bytes Sdp SdpSafe.

(** ** What the lexer reads *)

Definition plain (c : ascii) : bool := negb (isNewline c) && negb (isWhitespace c).
Definition inline (c : ascii) : bool := negb (isNewline c).

(** The first byte, if any, is no newline; no white space. *)
Definition clean (s : string) : bool := match s with String c _ => negb (isNewline c) | _ => true end.
Definition no_space (s : string) : bool := match s with String c _ => negb (isWhitespace c) | _ => true end.

Definition is_field (s : string) : Prop := s ≠ EmptyString ∧ all_chars plain s = true.

Definition adv (n : nat) (l : baseLexer) : baseLexer := MkLexer (value l) (n + pos l).

Lemma rest_adv n l : rest (adv n l) = str_drop n (rest l).
Proof. unfold rest, adv. simpl. by rewrite str_drop_add. Qed.
Lemma rest_adv_app s t l : rest l = s +:+ t → rest (adv (string_len s) l) = t.
Proof. intros E. by rewrite rest_adv, E, str_drop_app. Qed.
Lemma rest_same l : rest (MkLexer (value l) (pos l)) = rest l.
Proof. done. Qed.
Lemma lex_slice_app s t l l' : rest l = s +:+ t → value l' = value l →
  lex_slice l' (pos l) (string_len s + pos l) = s.
Proof.
  intros E Hv. unfold lex_slice. rewrite Hv. replace (string_len s + pos l - pos l)%nat with (string_len s) by lia.
  unfold rest in E. by rewrite E, str_take_app.
Qed.

Lemma readByte_cons l c s : rest l = String c s → readByte l = Ok (c, adv 1 l) ∧ rest (adv 1 l) = s.
Proof. intros E. rewrite readByte_rest, E. split; [done|]. by rewrite rest_adv, E. Qed.
Lemma unread_adv l : unreadByte (adv 1 l) = Ok l.
Proof. by destruct l. Qed.

(** There is fuel for what is left. *)
Lemma fuel_for l s t : rest l = s +:+ t → ∃ n, lex_fuel l = (string_len s + S (string_len t + n))%nat.
Proof.
  intros E. pose proof (rest_len l) as H. rewrite E, string_len_app in H.
  exists (lex_fuel l - string_len s - S (string_len t))%nat. lia.
Qed.

Lemma skip_reads f s : ∀ l t fuel,
  all_chars f s = true → (match t with String c _ => negb (f c) | _ => true end) = true → rest l = s +:+ t →
  ∃ l', skip_loop f (string_len s + S fuel) l = Ok l' ∧ rest l' = t.
Proof.
  induction s as [|c s IH]; intros l t fuel Hs Ht E; simpl in *.
  - destruct t as [|c t]; [rewrite readByte_rest, E; by exists l|].
    destruct (readByte_cons _ _ _ E) as [-> _]. apply negb_true_iff in Ht. rewrite Ht, unread_adv. by exists l.
  - apply andb_true_iff in Hs as [Hc Hs]. destruct (readByte_cons _ _ _ E) as [-> E']. rewrite Hc. by apply IH.
Qed.

Lemma nextLine_reads l s : rest l = CRLF +:+ s → clean s = true → ∃ l', nextLine l = Ok l' ∧ rest l' = s.
Proof.
  intros E Hs. destruct (fuel_for _ _ _ E) as [n Hn]. unfold nextLine. rewrite Hn. by apply skip_reads.
Qed.
Lemma spaces_reads l t : rest l = t → no_space t = true → ∃ l', readWhitespace l = Ok l' ∧ rest l' = t.
Proof.
  intros E Ht. unfold readWhitespace, lex_fuel. by apply (skip_reads isWhitespace EmptyString).
Qed.

(** Fields *)

Lemma field_scan s : ∀ l t fuel start, all_chars plain s = true → rest l = s +:+ t →
  field_loop (string_len s + fuel) start l = field_loop fuel start (adv (string_len s) l).
Proof.
  induction s as [|c s IH]; intros l t fuel start Hs E; simpl in *; [by destruct l|].
  apply andb_true_iff in Hs as [Hc Hs]. apply andb_true_iff in Hc as [Hn Hw].
  destruct (readByte_cons _ _ _ E) as [-> E'].
  apply negb_true_iff in Hn, Hw. rewrite Hn, Hw, (IH _ t) by done. f_equal. unfold adv. simpl. f_equal. lia.
Qed.

(** A field that ends at white space, or at the end of the line. *)
Lemma field_space l s t : all_chars plain s = true → rest l = s +:+ " " +:+ t → no_space t = true →
  ∃ l', readField l = Ok (s, l') ∧ rest l' = t.
Proof.
  intros Hs E Ht. change (" " +:+ t) with (String " " t) in E. destruct (fuel_for _ _ _ E) as [n Hn]. unfold readField. rewrite Hn, (field_scan _ _ _ _ _ Hs E).
  simpl. pose proof (rest_adv_app _ _ _ E) as E1. destruct (readByte_cons _ _ _ E1) as [-> E2]. simpl.
  destruct (spaces_reads _ _ E2 Ht) as (l' & -> & E3). exists l'. split; [|done]. cbn.
  by rewrite (lex_slice_app s (String " " t)).
Qed.
Lemma field_line l s t : all_chars plain s = true → rest l = s +:+ CRLF +:+ t →
  ∃ l', readField l = Ok (s, l') ∧ rest l' = CRLF +:+ t.
Proof.
  intros Hs E. destruct (fuel_for _ _ _ E) as [n Hn]. unfold readField. rewrite Hn, (field_scan _ _ _ _ _ Hs E).
  simpl. pose proof (rest_adv_app _ _ _ E) as E1. destruct (readByte_cons _ _ _ E1) as [-> E2]. simpl.
  exists (adv (string_len s) l). split; [|done]. cbn. by rewrite (lex_slice_app s (CRLF +:+ t)).
Qed.

(** Numbers *)

Lemma u64_step a d : u64 (u64 a * 10 + d) = u64 (10 * a + d).
Proof. unfold u64. rewrite Z.add_mod, Z.mul_mod_idemp_l, <- Z.add_mod by done. f_equal. lia. Qed.

Lemma digit_plain c : is_digit c = true → isNewline c = false ∧ isWhitespace c = false.
Proof. destruct c as [[] [] [] [] [] [] [] []]; intros Hc; try discriminate Hc; done. Qed.

Lemma uint_scan s : ∀ l t fuel acc n, all_chars is_digit s = true → atoi_digits acc s = Some n → rest l = s +:+ t →
  uint64_loop (string_len s + fuel) (u64 acc) l = uint64_loop fuel (u64 n) (adv (string_len s) l).
Proof.
  induction s as [|c s IH]; intros l t fuel acc n Hs Ha E; simpl in *; [by injection Ha as <-; destruct l|].
  apply andb_true_iff in Hs as [Hc Hs]. destruct (readByte_cons _ _ _ E) as [-> E'].
  destruct (digit_plain c Hc) as [-> ->]. rewrite Hc in *. rewrite u64_step, (IH _ t _ _ n) by done.
  f_equal. unfold adv. simpl. f_equal. lia.
Qed.

Lemma u64_id n : is_u64 n → u64 n = n.
Proof. intros Hn. by apply Z.mod_small. Qed.
Lemma itoa_u64 n : is_u64 n →
  itoa n ≠ EmptyString ∧ all_chars is_digit (itoa n) = true ∧ atoi_digits 0 (itoa n) = Some n.
Proof.
  intros [Hn _]. destruct (itoa_digits n) as (s & -> & Hs). rewrite (proj2 (Z.ltb_ge _ _)) by lia.
  by rewrite Z.abs_eq in Hs by lia.
Qed.

Lemma uint_space l n t : is_u64 n → rest l = itoa n +:+ " " +:+ t → no_space t = true →
  ∃ l', readUint64Field l = Ok (n, l') ∧ rest l' = t.
Proof.
  intros Hn E Ht. change (" " +:+ t) with (String " " t) in E. destruct (itoa_u64 n Hn) as (_ & Hd & Ha). destruct (fuel_for _ _ _ E) as [k Hk].
  unfold readUint64Field. rewrite Hk. change 0 with (u64 0). rewrite (uint_scan _ _ _ _ _ _ Hd Ha E). simpl.
  destruct (readByte_cons _ _ _ (rest_adv_app _ _ _ E)) as [-> E2]. simpl.
  destruct (spaces_reads _ _ E2 Ht) as (l' & -> & E3). exists l'. cbn. by rewrite u64_id.
Qed.
Lemma uint_line l n t : is_u64 n → rest l = itoa n +:+ CRLF +:+ t →
  ∃ l', readUint64Field l = Ok (n, l') ∧ rest l' = CRLF +:+ t.
Proof.
  intros Hn E. destruct (itoa_u64 n Hn) as (_ & Hd & Ha). destruct (fuel_for _ _ _ E) as [k Hk].
  unfold readUint64Field. rewrite Hk. change 0 with (u64 0). rewrite (uint_scan _ _ _ _ _ _ Hd Ha E). simpl.
  pose proof (rest_adv_app _ _ _ E) as E1. destruct (readByte_cons _ _ _ E1) as [-> E2]. simpl.
  exists (adv (string_len (itoa n)) l). cbn. by rewrite u64_id.
Qed.
Lemma uint_none l t : rest l = CRLF +:+ t → ∃ l', readUint64Field l = Ok (0, l') ∧ rest l' = CRLF +:+ t.
Proof.
  intros E. unfold readUint64Field, lex_fuel. simpl. destruct (readByte_cons _ _ _ E) as [-> _]. simpl. eexists. split; [reflexivity | exact E].
Qed.

(** Lines and keys *)

Lemma line_scan s : ∀ l t fuel start trim, all_chars inline s = true → rest l = s +:+ t →
  line_loop (string_len s + fuel) start trim l = line_loop fuel start trim (adv (string_len s) l).
Proof.
  induction s as [|c s IH]; intros l t fuel start trim Hs E; simpl in *; [by destruct l|].
  apply andb_true_iff in Hs as [Hc Hs]. unfold inline, isNewline in Hc. apply negb_true_iff, orb_false_iff in Hc as [H1 H2].
  destruct (readByte_cons _ _ _ E) as [-> E']. rewrite bind_Ok. simpl. rewrite H1, H2, (IH _ t) by done.
  f_equal. unfold adv. simpl. f_equal. lia.
Qed.

Lemma line_reads l s t : all_chars inline s = true → rest l = s +:+ CRLF +:+ t →
  ∃ l', readLine l = Ok (s, l') ∧ rest l' = t.
Proof.
  intros Hs E. destruct (fuel_for _ _ _ E) as [n Hn]. unfold readLine. rewrite Hn, (line_scan _ _ _ _ _ _ Hs E).
  pose proof (rest_adv_app _ _ _ E) as E1. simpl.
  destruct (readByte_cons _ _ _ E1) as [-> E2]. rewrite bind_Ok. simpl.
  destruct (readByte_cons _ _ _ E2) as [-> E3]. rewrite bind_Ok. simpl.
  rewrite (proj2 (Nat.ltb_ge _ _)) by lia. eexists. split; [|exact E3]. do 2 f_equal.
  rewrite Nat.sub_0_r. by apply (lex_slice_app s (CRLF +:+ t) l).
Qed.

Lemma type_reads l c t : isNewline c = false → Ascii.eqb c "=" = false → rest l = String c (String "=" t) →
  ∃ l', readType l = Ok (String c (String "=" EmptyString), l') ∧ rest l' = t.
Proof.
  intros Hn Hc E. unfold readType. destruct (fuel_for _ (String c (String "=" EmptyString)) t E) as [n Hf].
  rewrite Hf. simpl. destruct (readByte_cons _ _ _ E) as [-> E1]. rewrite bind_Ok. cbv beta iota. rewrite Hn, unread_adv, bind_Ok.
  unfold readString. rewrite Hf. simpl.
  destruct (readByte_cons _ _ _ E) as [-> _]. rewrite bind_Ok. simpl. rewrite Hc.
  destruct (readByte_cons _ _ _ E1) as [-> E2]. rewrite bind_Ok. simpl.
  pose proof (lex_slice_app (String c (String "=" EmptyString)) t l (adv 1 (adv 1 l)) E eq_refl) as Hs.
  simpl in Hs. rewrite Hs. simpl. by eexists.
Qed.

(** ** Well-formed descriptions

    Strings that fill a line hold no newline and are not empty (Marshal leaves
    out a line without a value); fields hold no white space either; numbers fit
    their type; the registered names are those Unmarshal accepts. *)

Definition is_line (s : string) : Prop := s ≠ EmptyString ∧ all_chars inline s = true.
Definition opt_line (o : option string) : Prop := from_option is_line True o.
Definition is_i64 (z : Z) : Prop := - 2 ^ 63 ≤ z < 2 ^ 63.

Definition origin_ok (o : Origin) : Prop :=
  is_field (Username o) ∧ is_u64 (SessionID o) ∧ is_u64 (SessionVersion o) ∧ o_NetworkType o = "IN" ∧
  o_AddressType o ∈ ["IP4"; "IP6"] ∧ is_field (UnicastAddress o).

(** The parts of an address after a slash are read as part of it. *)
Definition connection_ok (c : ConnectionInformation) : Prop :=
  c_NetworkType c = "IN" ∧ c_AddressType c ∈ ["IP4"; "IP6"] ∧
  from_option (λ a, is_field (a_Address a) ∧ TTL a = None ∧ a_Range a = None) True (c_Address c).

Definition bandwidth_ok (b : Bandwidth) : Prop :=
  is_u64 (b_Bandwidth b) ∧ all_chars inline (b_Type b) = true ∧ all_chars (not_char ":") (b_Type b) = true ∧
  (Experimental b = false → b_Type b ∈ ["CT"; "AS"; "TIAS"; "RS"; "RR"]).

Definition repeat_ok (r : RepeatTime) : Prop :=
  is_i64 (Interval r) ∧ is_i64 (Duration r) ∧ Forall is_i64 (Offsets r).
Definition time_ok (td : TimeDescription) : Prop :=
  is_u64 (StartTime (td_Timing td)) ∧ is_u64 (StopTime (td_Timing td)) ∧ Forall repeat_ok (RepeatTimes td).
Definition zone_ok (z : TimeZone) : Prop := is_u64 (AdjustmentTime z) ∧ is_i64 (tz_Offset z).

(** A key without a colon; the value may be empty and may hold colons. *)
Definition attribute_ok (a : Attribute) : Prop :=
  is_line (Key a) ∧ all_chars (not_char ":") (Key a) = true ∧ all_chars inline (Value a) = true.

Definition media_name_ok (m : MediaName) : Prop :=
  mn_Media m ∈ ["audio"; "video"; "text"; "application"; "message"] ∧ 0 ≤ rp_Value (Port m) ≤ 65536 ∧
  from_option is_i64 True (rp_Range (Port m)) ∧ Protos m ≠ [] ∧ Forall (λ p, known_proto p = true) (Protos m) ∧
  Forall is_field (Formats m).

Definition media_ok (md : MediaDescription) : Prop :=
  media_name_ok (md_MediaName md) ∧ opt_line (MediaTitle md) ∧
  from_option connection_ok True (md_ConnectionInformation md) ∧ Forall bandwidth_ok (md_Bandwidth md) ∧
  opt_line (md_EncryptionKey md) ∧ Forall attribute_ok (md_Attributes md).

(** A URL whose text is a line that parses to it. *)
Definition url_ok `{NetUrl} (u : URL) : Prop := is_line (URL_String u) ∧ url_Parse (URL_String u) = Some u.

Record session_ok `{NetUrl} (s : SessionDescription) : Prop := {
  so_version : sd_Version s = 0;
  so_origin : origin_ok (sd_Origin s);
  so_name : is_line (SessionName s);
  so_info : opt_line (SessionInformation s);
  so_uri : from_option url_ok True (URI s);
  so_email : opt_line (EmailAddress s);
  so_phone : opt_line (PhoneNumber s);
  so_connection : from_option connection_ok True (sd_ConnectionInformation s);
  so_bandwidth : Forall bandwidth_ok (sd_Bandwidth s);
  so_times : TimeDescriptions s ≠ [] ∧ Forall time_ok (TimeDescriptions s);
  so_zones : Forall zone_ok (TimeZones s);
  so_key : opt_line (sd_EncryptionKey s);
  so_attributes : Forall attribute_ok (sd_Attributes s);
  so_media : Forall media_ok (MediaDescriptions s);
}.

(** ** Values *)

Lemma digits_plain s : all_chars is_digit s = true → all_chars plain s = true.
Proof. apply all_chars_impl. intros c Hc. unfold plain. by destruct (digit_plain c Hc) as [-> ->]. Qed.
Lemma plain_inline s : all_chars plain s = true → all_chars inline s = true.
Proof. apply all_chars_impl. intros c. unfold plain, inline. by intros [? _]%andb_true_iff. Qed.

Lemma itoa_field z : is_field (itoa z).
Proof.
  destruct (itoa_digits z) as (s & -> & Hs & Hd & _). unfold is_field. rewrite all_chars_app, (digits_plain s Hd).
  by destruct (z <? 0), s.
Qed.
Lemma itoa_not sep z : is_digit sep = false → sep ≠ "-"%char → all_chars (not_char sep) (itoa z) = true.
Proof.
  intros Hsep Hm. destruct (itoa_digits z) as (s & -> & _ & Hd & _). rewrite all_chars_app. apply andb_true_iff. split.
  - destruct (z <? 0); [|done]. simpl. unfold not_char. rewrite andb_true_r. apply negb_true_iff, Ascii.eqb_neq. congruence.
  - revert Hd. apply all_chars_impl. intros c Hc. unfold not_char. by rewrite (digit_not c sep).
Qed.

Lemma field_no_space s t : is_field s → no_space (s +:+ t) = true.
Proof.
  intros [Hne Hs]. destruct s as [|c s]; [done|]. simpl in *.
  apply andb_true_iff in Hs as [[_ ?]%andb_true_iff _]. done.
Qed.
Lemma field_plain s : is_field s → all_chars plain s = true.
Proof. by intros [_ ?]. Qed.

(** A string of digits ends in one. *)
Lemma last_digit s : s ≠ EmptyString → all_chars is_digit s = true →
  ∃ c s', s = s' +:+ String c EmptyString ∧ is_digit c = true.
Proof.
  induction s as [|c s IH]; [done|]. intros _. simpl. rewrite andb_true_iff. intros [Hc Hs].
  destruct s as [|d s]; [by exists c, EmptyString|]. destruct IH as (e & s' & -> & He); [done..|].
  by exists e, (String c s').
Qed.

Lemma parseTimeUnits_itoa z : is_i64 z → parseTimeUnits (itoa z) = Ok z.
Proof.
  intros Hz. unfold parseTimeUnits. pose proof (atoi_itoa z Hz) as Ha.
  destruct (itoa_digits z) as (s & E & Hs & Hd & _). destruct (last_digit s Hs Hd) as (c & s' & -> & Hc).
  rewrite E in *. rewrite string_app_assoc in *. rewrite str_get_last.
  assert (timeShorthand c = 0) as ->.
  { unfold timeShorthand. by rewrite !(digit_not c _ Hc). }
  cbn [Z.ltb Z.compare]. rewrite Ha, Z.mul_1_r, to_int64_small by done. done.
Qed.

Lemma parse_uint_itoa n : is_u64 n → parse_uint 64 (itoa n) = Some n.
Proof.
  intros Hn. destruct (itoa_u64 n Hn) as (Hne & _ & Ha). unfold parse_uint. rewrite decide_False, Ha by done.
  by rewrite (proj2 (Z.ltb_lt _ _)) by apply Hn.
Qed.

Lemma bandwidth_reads b : bandwidth_ok b → unmarshalBandwidth (Bandwidth_String b) = Ok b.
Proof.
  destruct b as [x ty n]. intros (Hn & _ & Hty & Hx). simpl in *. unfold unmarshalBandwidth, Bandwidth_String. cbn [Experimental b_Type b_Bandwidth].
  assert (str_split ((if x then "X-" else EmptyString) +:+ ty +:+ ":" +:+ itoa n) ":" =
    [(if x then "X-" else EmptyString) +:+ ty; itoa n]) as ->.
  { rewrite string_app_assoc. apply (split_join ":" [_; _]); [done|]. repeat constructor; [|by apply itoa_not].
    by rewrite all_chars_app, Hty; destruct x. }
  destruct x.
  - simpl. by rewrite parse_uint_itoa.
  - change (EmptyString +:+ ty) with ty. specialize (Hx eq_refl). assert (has_prefix "X-" ty = false) as ->.
    { rewrite !elem_of_cons, elem_of_nil in Hx. by destruct Hx as [->|[->|[->|[->|[->|[]]]]]]. }
    unfold anyOf. rewrite bool_decide_true by done. cbn. by rewrite parse_uint_itoa.
Qed.

Lemma attribute_reads a : attribute_ok a → parse_attribute (Attribute_String a) = a.
Proof.
  destruct a as [k v]. intros ([Hk _] & Hc & _). unfold parse_attribute, Attribute_String. simpl in *.
  case_decide as Hv.
  - subst v. rewrite string_app_nil_r, (cut_none _ _ Hc). by destruct k.
  - change (":" +:+ v) with (String ":" v). rewrite cut_app by done. by destruct k.
Qed.

(** ** Lines *)

Section lines.
Context `{NetUrl}.

(** The function [F] reads [v] up to the end of its line. *)
Definition line (F : stateFn) (v : string) (d : SessionDescription) (st : stateFn) (d' : SessionDescription)
    : Prop := ∀ l s, rest l = v +:+ CRLF +:+ s → clean s = true →
  ∃ l', run_state F (MkLex d l) = go_to st d' l' ∧ rest l' = s.

(** Steps through the pieces of a line. *)
Ltac piece Hl :=
  let l' := fresh "l" in let E := fresh "E" in let R := fresh "R" in
  destruct Hl as (l' & E & R); cbn [base desc]; rewrite E, bind_Ok; cbv beta iota.
Ltac line_start := intros l s R Hclean; cbn [run_state].
Ltac done_line := eexists; split; [reflexivity | eassumption].

Lemma line_version d : line FProtocolVersion (itoa 0) d Fs2 d.
Proof.
  line_start. unfold unmarshalProtocolVersion. piece (uint_line _ 0 _ ltac:(done) R).
  rewrite fail_if_false by done. rewrite bind_Ok. piece (nextLine_reads _ _ R0 Hclean). done_line.
Qed.

Lemma anyOf_in x l : x ∈ l → negb (anyOf x l) = false.
Proof. intros Hx. unfold anyOf. by rewrite bool_decide_true. Qed.

Lemma net_types : is_field "IN" ∧ ∀ a, a ∈ ["IP4"; "IP6"] → is_field a.
Proof. split; [done|]. intros a. rewrite !elem_of_cons, elem_of_nil. by intros [->|[->|[]]]. Qed.

Lemma line_origin d o : origin_ok o → line FOrigin (Origin_String o) d Fs3 (set_sd_Origin o d).
Proof.
  destruct o as [u i v n a w]. intros (Hu & Hi & Hv & Hn & Ha & Hw). cbn [Username SessionID SessionVersion
    o_NetworkType o_AddressType UnicastAddress] in *. subst n.
  destruct net_types as [Hin Hip]. specialize (Hip a Ha) as Ha'.
  line_start. unfold unmarshalOrigin, Origin_String in *. cbn [Username SessionID SessionVersion
    o_NetworkType o_AddressType UnicastAddress base desc] in *. rewrite <- !string_app_assoc in R.
  piece (field_space _ _ _ (field_plain _ Hu) R ltac:(by apply field_no_space, itoa_field)).
  piece (uint_space _ _ _ Hi R0 ltac:(by apply field_no_space, itoa_field)).
  piece (uint_space _ _ _ Hv R1 ltac:(by apply field_no_space)).
  piece (field_space _ _ _ (field_plain _ Hin) R2 ltac:(by apply field_no_space)).
  rewrite fail_if_false by done. rewrite bind_Ok.
  piece (field_space _ _ _ (field_plain _ Ha') R3 ltac:(by apply field_no_space)).
  rewrite fail_if_false by by apply anyOf_in. rewrite bind_Ok.
  piece (field_line _ _ _ (field_plain _ Hw) R4). piece (nextLine_reads _ _ R5 Hclean). done_line.
Qed.


(** Values that fill their line *)

Lemma line_name d v : all_chars inline v = true → line FSessionName v d Fs4 (set_SessionName v d).
Proof. intros Hv. line_start. unfold unmarshalSessionName. piece (line_reads _ _ _ Hv R). done_line. Qed.
Lemma line_info d v : all_chars inline v = true → line FSessionInformation v d Fs7 (set_SessionInformation (Some v) d).
Proof. intros Hv. line_start. unfold unmarshalSessionInformation. piece (line_reads _ _ _ Hv R). done_line. Qed.
Lemma line_uri d u : url_ok u → line FURI (URL_String u) d Fs10 (set_URI (Some u) d).
Proof.
  intros [[_ Hv] Hu]. line_start. unfold unmarshalURI. piece (line_reads _ _ _ Hv R). rewrite Hu. done_line.
Qed.
Lemma line_email d v : all_chars inline v = true → line FEmail v d Fs6 (set_EmailAddress (Some v) d).
Proof. intros Hv. line_start. unfold unmarshalEmail. piece (line_reads _ _ _ Hv R). done_line. Qed.
Lemma line_phone d v : all_chars inline v = true → line FPhone v d Fs8 (set_PhoneNumber (Some v) d).
Proof. intros Hv. line_start. unfold unmarshalPhone. piece (line_reads _ _ _ Hv R). done_line. Qed.
Lemma line_key d v : all_chars inline v = true →
  line FSessionEncryptionKey v d Fs11 (set_sd_EncryptionKey (Some v) d).
Proof. intros Hv. line_start. unfold unmarshalSessionEncryptionKey. piece (line_reads _ _ _ Hv R). done_line. Qed.

Lemma attribute_line a : attribute_ok a → all_chars inline (Attribute_String a) = true.
Proof.
  intros ([_ Hk] & _ & Hv). unfold Attribute_String. rewrite all_chars_app, Hk. case_decide; [done|].
  simpl. by rewrite Hv.
Qed.
Lemma line_attribute d a : attribute_ok a →
  line FSessionAttribute (Attribute_String a) d Fs11 (set_sd_Attributes (sd_Attributes d ++ [a]) d).
Proof.
  intros Ha. line_start. unfold unmarshalSessionAttribute. piece (line_reads _ _ _ (attribute_line a Ha) R).
  rewrite attribute_reads by done. done_line.
Qed.

Lemma bandwidth_line b : bandwidth_ok b → all_chars inline (Bandwidth_String b) = true.
Proof.
  intros (_ & Hty & _). unfold Bandwidth_String. rewrite !all_chars_app, Hty.
  rewrite (plain_inline (itoa _)) by apply itoa_field. by destruct (Experimental b).
Qed.
Lemma line_bandwidth d b : bandwidth_ok b →
  line FSessionBandwidth (Bandwidth_String b) d Fs5 (set_sd_Bandwidth (sd_Bandwidth d ++ [b]) d).
Proof.
  intros Hb. line_start. unfold unmarshalSessionBandwidth. piece (line_reads _ _ _ (bandwidth_line b Hb) R).
  rewrite bandwidth_reads by done. done_line.
Qed.

(** Fields that were joined by a space *)

Lemma join_no_space l s : Forall is_field l → no_space (str_join " " l +:+ CRLF +:+ s) = true.
Proof.
  intros [|x l' Hx _]; [done|]. destruct l'; [by apply field_no_space|].
  cbn [str_join]. rewrite <- string_app_assoc. by apply field_no_space.
Qed.
Lemma field_join l x xs s : is_field x → Forall is_field xs → rest l = str_join " " (x :: xs) +:+ CRLF +:+ s →
  ∃ l', readField l = Ok (x, l') ∧ rest l' = str_join " " xs +:+ CRLF +:+ s.
Proof.
  intros Hx Hxs E. destruct xs as [|y ys]; [by apply field_line; [apply field_plain|]|].
  change (str_join " " (x :: y :: ys)) with (x +:+ " " +:+ str_join " " (y :: ys)) in E.
  rewrite <- !string_app_assoc in E. apply field_space; [by apply field_plain | done | by apply join_no_space].
Qed.
Lemma fields_len l : Forall is_field l → (length l <= string_len (str_join " " l))%nat.
Proof.
  induction 1 as [|x l [Hx _] _ IH]; [done|]. destruct x as [|c x]; [done|]. destruct l as [|y l]; [simpl; lia|].
  change (str_join " " (String c x :: y :: l)) with (String c x +:+ " " +:+ str_join " " (y :: l)).
  rewrite !string_len_app. simpl in *. lia.
Qed.

Lemma fields_reads {A} (parse : string → sres A) (pr : A → string) xs : ∀ l s acc fuel,
  Forall (λ x, is_field (pr x) ∧ parse (pr x) = Ok x) xs → rest l = str_join " " (map pr xs) +:+ CRLF +:+ s →
  (length xs < fuel)%nat →
  ∃ l', fields_until_empty parse fuel l acc = Ok (acc ++ xs, l') ∧ rest l' = CRLF +:+ s.
Proof.
  induction xs as [|x xs IH]; intros l s acc [|fuel] Hxs E Hf; try (simpl in *; lia).
  - destruct (field_line l EmptyString s) as (l' & E1 & R1); [done..|]. exists l'. simpl.
    rewrite E1, bind_Ok. cbv beta iota. by rewrite decide_True, app_nil_r by done.
  - apply Forall_cons in Hxs as [[Hx Hp] Hxs].
    assert (Forall is_field (map pr xs)) as Hm.
    { apply Forall_map. eapply Forall_impl; [exact Hxs|]. by intros ? [? _]. }
    destruct (field_join l (pr x) (map pr xs) s Hx Hm E) as (l1 & E1 & R1). cbn [fields_until_empty].
    rewrite E1, bind_Ok. cbv beta iota. rewrite decide_False by apply Hx. rewrite Hp, bind_Ok.
    destruct (IH l1 s (acc ++ [x]) fuel Hxs R1) as (l2 & E2 & R2); [simpl in *; lia|].
    exists l2. by rewrite E2, <- app_assoc.
Qed.
(** With the fuel the source's loops are given. *)
Lemma fields_fuel {A} (parse : string → sres A) (pr : A → string) xs l s :
  Forall (λ x, is_field (pr x) ∧ parse (pr x) = Ok x) xs → rest l = str_join " " (map pr xs) +:+ CRLF +:+ s →
  ∃ l', fields_until_empty parse (lex_fuel l) l [] = Ok (xs, l') ∧ rest l' = CRLF +:+ s.
Proof.
  intros Hxs E. apply (fields_reads parse pr xs l s []); [done..|].
  pose proof (rest_len l) as Hl. rewrite E, string_len_app in Hl.
  assert (length (map pr xs) <= string_len (str_join " " (map pr xs)))%nat as Hj.
  { apply fields_len, Forall_map. eapply Forall_impl; [exact Hxs|]. by intros ? [? _]. }
  rewrite length_map in Hj. lia.
Qed.

Lemma connection_reads c l s : connection_ok c → rest l = ConnectionInformation_String c +:+ CRLF +:+ s →
  clean s = true → ∃ l', unmarshalConnectionInformation l = Ok (c, l') ∧ rest l' = s.
Proof.
  destruct c as [n a [[w t r]|]]; intros (Hn & Ha & Hw) R Hclean; cbn [c_NetworkType c_AddressType c_Address] in *;
    subst n; destruct net_types as [Hin Hip]; specialize (Hip a Ha) as Ha'; unfold unmarshalConnectionInformation.
  - destruct Hw as (Hw & Ht & Hr). cbn [a_Address TTL a_Range] in *. subst t r.
    unfold ConnectionInformation_String in R. cbn [c_NetworkType c_AddressType c_Address] in R.
    change (Address_String (MkAddress w None None)) with w in R. rewrite decide_False in R by apply Hw.
    piece (field_join _ "IN" [a; w] _ Hin ltac:(by rewrite ?Forall_cons, ?Forall_nil) R). rewrite fail_if_false, bind_Ok by done.
    piece (field_join _ a [w] _ Ha' ltac:(by rewrite ?Forall_cons, ?Forall_nil) R0).
    rewrite fail_if_false by (by apply anyOf_in). rewrite bind_Ok.
    piece (field_join _ w [] _ Hw ltac:(by rewrite ?Forall_cons, ?Forall_nil) R1). rewrite decide_False by apply Hw.
    piece (nextLine_reads _ _ R2 Hclean). done_line.
  - piece (field_join _ "IN" [a] _ Hin ltac:(by rewrite ?Forall_cons, ?Forall_nil) R). rewrite fail_if_false, bind_Ok by done.
    piece (field_join _ a [] _ Ha' ltac:(by rewrite ?Forall_cons, ?Forall_nil) R0).
    rewrite fail_if_false by (by apply anyOf_in). rewrite bind_Ok.
    piece (field_line _ EmptyString s eq_refl R1). rewrite decide_True by done.
    piece (nextLine_reads _ _ R2 Hclean). done_line.
Qed.
Lemma line_connection d c : connection_ok c →
  line FSessionConnectionInformation (ConnectionInformation_String c) d Fs5
    (set_sd_ConnectionInformation (Some c) d).
Proof.
  intros Hc. line_start. unfold unmarshalSessionConnectionInformation. piece (connection_reads c _ _ Hc R Hclean).
  done_line.
Qed.

Lemma line_timing d t : is_u64 (StartTime t) → is_u64 (StopTime t) →
  line FTiming (Timing_String t) d Fs9 (set_TimeDescriptions (TimeDescriptions d ++ [MkTime t []]) d).
Proof.
  destruct t as [a b]. intros Ha Hb. line_start. unfold unmarshalTiming, Timing_String in *. cbn [StartTime StopTime] in *.
  rewrite <- !string_app_assoc in R.
  piece (uint_space _ _ _ Ha R ltac:(by apply field_no_space, itoa_field)).
  piece (uint_line _ _ _ Hb R0). piece (nextLine_reads _ _ R1 Hclean). done_line.
Qed.

Lemma update_last_snoc {A} (g : A → A) l x : update_last g (l ++ [x]) = Ok (l ++ [g x]).
Proof.
  induction l as [|y l IH]; [done|]. change ((y :: l) ++ [x]) with (y :: (l ++ [x])).
  destruct (l ++ [x]) as [|z zs] eqn:E; [by destruct l|].
  change (update_last g (y :: z :: zs)) with (l' ← update_last g (z :: zs); Ok (y :: l')). by rewrite IH.
Qed.

Definition add_repeat (r : RepeatTime) (td : TimeDescription) : TimeDescription :=
  MkTime (td_Timing td) (RepeatTimes td ++ [r]).
Lemma line_repeat d r ts td : repeat_ok r → TimeDescriptions d = ts ++ [td] →
  line FRepeatTimes (RepeatTime_String r) d Fs9 (set_TimeDescriptions (ts ++ [add_repeat r td]) d).
Proof.
  destruct r as [i n offs]. intros (Hi & Hn & Ho) Hd. cbn [Interval Duration Offsets] in *.
  line_start. unfold unmarshalRepeatTimes, RepeatTime_String in *. cbn [Interval Duration Offsets desc base] in *.
  rewrite Hd, !update_last_snoc, bind_Ok.
  assert (Forall is_field (map itoa offs)) as Hf by (apply Forall_map, Forall_true; intros; apply itoa_field).
  piece (field_join _ _ (itoa n :: map itoa offs) _ (itoa_field i) ltac:(constructor; [apply itoa_field | done]) R).
  rewrite parseTimeUnits_itoa by done. cbn [or_err]. rewrite bind_Ok.
  piece (field_join _ _ (map itoa offs) _ (itoa_field n) Hf R0).
  rewrite parseTimeUnits_itoa by done. cbn [or_err]. rewrite bind_Ok.
  assert (Forall (λ x, is_field (itoa x) ∧ or_err (parseTimeUnits (itoa x)) errSDPInvalidValue = Ok x) offs) as Hp.
  { eapply Forall_impl; [exact Ho|]. intros x Hx. by split; [apply itoa_field | rewrite parseTimeUnits_itoa]. }
  piece (fields_fuel (λ f, or_err (parseTimeUnits f) errSDPInvalidValue) itoa offs _ _ Hp R1). piece (nextLine_reads _ _ R2 Hclean).
  rewrite update_last_snoc, bind_Ok. done_line.
Qed.

(** Zones come in pairs; the list ends where a number should be. *)
Lemma zones_read zs : ∀ l s acc fuel, Forall zone_ok zs →
  rest l = str_join " " (map TimeZone_String zs) +:+ CRLF +:+ s → (length zs < fuel)%nat →
  ∃ l', zones_loop fuel l acc = Ok (acc ++ zs, l') ∧ rest l' = CRLF +:+ s.
Proof.
  induction zs as [|[t o] zs IH]; intros l s acc [|fuel] Hzs R Hf; try (simpl in *; lia); cbn [zones_loop].
  - piece (uint_none _ _ R). piece (field_line _ EmptyString s eq_refl R0). rewrite decide_True, app_nil_r by done.
    done_line.
  - apply Forall_cons in Hzs as [[Ht Ho] Hzs]. cbn [AdjustmentTime tz_Offset] in *.
    assert (no_space (str_join " " (map TimeZone_String zs) +:+ CRLF +:+ s) = true) as Hns.
    { destruct zs as [|z [|z' zs]]; [done | |]; cbn [map str_join]; unfold TimeZone_String;
        rewrite <- !string_app_assoc; apply field_no_space, itoa_field. }
    assert (rest l = itoa t +:+ " " +:+ itoa o +:+
      (match zs with [] => EmptyString | _ => " " +:+ str_join " " (map TimeZone_String zs) end) +:+ CRLF +:+ s) as R'.
    { rewrite R. by destruct zs; cbn [map str_join]; unfold TimeZone_String; rewrite <- !string_app_assoc. }
    piece (uint_space _ _ _ Ht R' ltac:(apply field_no_space, itoa_field)).
    assert (∃ l', readField l0 = Ok (itoa o, l') ∧ rest l' = str_join " " (map TimeZone_String zs) +:+ CRLF +:+ s) as Hr.
    { destruct zs; [by apply field_line; [apply field_plain, itoa_field|]|].
      rewrite <- string_app_assoc in R0. by apply field_space; [apply field_plain, itoa_field|..]. }
    piece Hr. rewrite decide_False by apply itoa_field. rewrite parseTimeUnits_itoa, bind_Ok by done.
    destruct (IH _ s (acc ++ [MkZone t o]) fuel Hzs R1) as (l' & E' & R2); [simpl in *; lia|].
    exists l'. by rewrite E', <- app_assoc.
Qed.

Lemma zones_len zs : (length zs <= string_len (str_join " " (map TimeZone_String zs)))%nat.
Proof.
  induction zs as [|z zs IH]; [done|]. destruct (itoa_field (AdjustmentTime z)) as [Hne _].
  assert (1 <= string_len (TimeZone_String z))%nat.
  { unfold TimeZone_String. destruct (itoa _); [done|]. simpl. lia. }
  destruct zs as [|z' zs]; [simpl; lia|].
  change (str_join " " (map TimeZone_String (z :: z' :: zs))) with
    (TimeZone_String z +:+ " " +:+ str_join " " (map TimeZone_String (z' :: zs))).
  rewrite !string_len_app. simpl in *. lia.
Qed.

Lemma line_zones d zs : Forall zone_ok zs → TimeZones d = [] →
  line FTimeZones (str_join " " (map TimeZone_String zs)) d Fs13 (set_TimeZones zs d).
Proof.
  intros Hzs Hd. line_start. unfold unmarshalTimeZones. cbn [desc base]. rewrite Hd.
  assert (length zs < lex_fuel l)%nat as Hl.
  { pose proof (rest_len l) as Hl. rewrite R, string_len_app in Hl. pose proof (zones_len zs). lia. }
  piece (zones_read zs _ _ [] _ Hzs R Hl). piece (nextLine_reads _ _ R0 Hclean). done_line.
Qed.

(** Media *)

Lemma known_protos p : known_proto p = true → is_field p ∧ all_chars (not_char "/") p = true.
Proof.
  unfold known_proto, anyOf. intros Hp%bool_decide_eq_true. revert p Hp.
  apply Forall_forall. by repeat constructor.
Qed.

Lemma protos_field ps : ps ≠ [] → Forall (λ p, known_proto p = true) ps → is_field (str_join "/" ps).
Proof.
  intros Hne Hps. split.
  - destruct Hps as [|p ps Hp _]; [done|]. destruct (known_protos p Hp) as [[Hp' _] _].
    destruct p; [done|]. by destruct ps.
  - induction Hps as [|p ps Hp Hps IH]; [done|]. destruct (known_protos p Hp) as [[_ Hp'] _].
    destruct ps as [|q ps]; [done|]. change (str_join "/" (p :: q :: ps)) with (p +:+ "/" +:+ str_join "/" (q :: ps)).
    rewrite !all_chars_app, Hp', IH by done. done.
Qed.

Lemma port_field p : is_field (RangedPort_String p).
Proof.
  unfold RangedPort_String. destruct (itoa_field (rp_Value p)) as [Hne Hp]. split.
  - by destruct (itoa (rp_Value p)).
  - rewrite all_chars_app, Hp. destruct (rp_Range p); [|done]. rewrite all_chars_app. simpl. apply itoa_field.
Qed.

Lemma port_reads p : 0 ≤ rp_Value p ≤ 65536 → from_option is_i64 True (rp_Range p) →
  parse_media_port (RangedPort_String p) = Ok p.
Proof.
  destruct p as [v r]. intros Hv Hr. cbn [rp_Value rp_Range] in *. unfold parse_media_port, RangedPort_String.
  cbn [rp_Value rp_Range]. assert (parsePort (itoa v) = Ok v) as Hp.
  { unfold parsePort. rewrite atoi_itoa by lia. by rewrite (proj2 (Z.ltb_ge _ _)), (proj2 (Z.ltb_ge _ _)) by lia. }
  destruct r as [r|].
  - assert (str_split (itoa v +:+ "/" +:+ itoa r) "/" = [itoa v; itoa r]) as ->.
    { apply (split_join "/" [_; _]); [done|]. rewrite !Forall_cons. by split_and!; try apply itoa_not. }
    cbn [hd_error from_option id]. rewrite Hp. cbn [or_err]. rewrite bind_Ok. by rewrite atoi_itoa.
  - rewrite string_app_nil_r. assert (str_split (itoa v) "/" = [itoa v]) as ->.
    { apply (split_join "/" [_]); [done|]. rewrite !Forall_cons. by split_and!; try apply itoa_not. }
    cbn [hd_error from_option id]. by rewrite Hp.
Qed.

Lemma media_names m : m ∈ ["audio"; "video"; "text"; "application"; "message"] → is_field m.
Proof. revert m. apply Forall_forall. by repeat constructor. Qed.

Lemma media_name_reads m l s : media_name_ok m → rest l = MediaName_String m +:+ CRLF +:+ s → clean s = true →
  ∃ l', read_media_name l = Ok (m, l') ∧ rest l' = s.
Proof.
  destruct m as [md p ps fs]. intros (Hm & Hp & Hr & Hne & Hps & Hfs) R Hclean.
  cbn [mn_Media Port Protos Formats] in *. unfold MediaName_String in R. cbn [mn_Media Port Protos Formats str_join] in R.
  rewrite <- !string_app_assoc in R. unfold read_media_name.
  pose proof (protos_field ps Hne Hps) as Hpf.
  piece (field_space _ _ _ (field_plain _ (media_names md Hm)) R ltac:(apply field_no_space, port_field)).
  rewrite fail_if_false by (by apply anyOf_in). rewrite bind_Ok.
  piece (field_space _ _ _ (field_plain _ (port_field p)) R0 ltac:(by apply field_no_space)).
  rewrite port_reads, bind_Ok by done.
  piece (field_space _ _ _ (field_plain _ Hpf) R1 ltac:(by apply join_no_space)).
  assert (str_split (str_join "/" ps) "/" = ps) as ->.
  { apply split_join; [done|]. eapply Forall_impl; [exact Hps|]. intros q Hq. by apply known_protos. }
  assert (forallb known_proto ps = true) as ->.
  { clear -Hps. induction Hps as [|q ps Hq _ IH]; [done|]. simpl. by rewrite Hq, IH. }
  rewrite fail_if_false, bind_Ok by done.
  rewrite <- (map_id fs) in R2.
  piece (fields_fuel (λ f, Ok f) id fs _ _ ltac:(eapply Forall_impl; [exact Hfs|]; by intros ? ?) R2).
  piece (nextLine_reads _ _ R3 Hclean). done_line.
Qed.

Definition new_media (m : MediaName) : MediaDescription := MkMediaDesc m None None [] None [].
Lemma line_media d m : media_name_ok m →
  line FMediaDescription (MediaName_String m) d Fs12
    (set_MediaDescriptions (MediaDescriptions d ++ [new_media m]) d).
Proof.
  intros Hm. line_start. unfold unmarshalMediaDescription. piece (media_name_reads m _ _ Hm R Hclean). done_line.
Qed.

(** The lines of the last media description *)

Section media.
Context (d : SessionDescription) (ms : list MediaDescription) (md : MediaDescription).
Context (Hd : MediaDescriptions d = ms ++ [md]).

Definition with_media (md' : MediaDescription) : SessionDescription := set_MediaDescriptions (ms ++ [md']) d.

Ltac media_end := unfold update_media; cbn [desc]; rewrite Hd, update_last_snoc, bind_Ok; done_line.

Lemma line_media_title v : all_chars inline v = true →
  line FMediaTitle v d Fs16 (with_media (set_Title (Some v) md)).
Proof. intros Hv. line_start. unfold unmarshalMediaTitle. piece (line_reads _ _ _ Hv R). media_end. Qed.
Lemma line_media_key v : all_chars inline v = true →
  line FMediaEncryptionKey v d Fs14 (with_media (set_Key (Some v) md)).
Proof. intros Hv. line_start. unfold unmarshalMediaEncryptionKey. piece (line_reads _ _ _ Hv R). media_end. Qed.
Lemma line_media_attribute a : attribute_ok a →
  line FMediaAttribute (Attribute_String a) d Fs14 (with_media (add_Attribute a md)).
Proof.
  intros Ha. line_start. unfold unmarshalMediaAttribute. piece (line_reads _ _ _ (attribute_line a Ha) R).
  rewrite attribute_reads by done. media_end.
Qed.
Lemma line_media_bandwidth b : bandwidth_ok b →
  line FMediaBandwidth (Bandwidth_String b) d Fs15 (with_media (add_Bandwidth b md)).
Proof.
  intros Hb. line_start. unfold unmarshalMediaBandwidth. piece (line_reads _ _ _ (bandwidth_line b Hb) R).
  rewrite Hd, update_last_snoc, bind_Ok, bandwidth_reads by done. cbn [or_err]. rewrite bind_Ok. media_end.
Qed.
Lemma line_media_connection c : connection_ok c →
  line FMediaConnectionInformation (ConnectionInformation_String c) d Fs15 (with_media (set_Connection (Some c) md)).
Proof.
  intros Hc. line_start. unfold unmarshalMediaConnectionInformation. cbn [desc]. rewrite Hd, update_last_snoc, bind_Ok.
  piece (connection_reads c _ _ Hc R Hclean). media_end.
Qed.
End media.
End lines.

(** ** The path through the states *)

Section path.
Context `{NetUrl}.

Definition accepts (st : stateFn) (e : string * stateFn) : Prop :=
  ∃ table, (∀ l, run_state st l = handleType l (by_key table)) ∧ by_key table e.1 = Some e.2.
Definition can (ks : list (string * stateFn)) (st : stateFn) : Prop := Forall (accepts st) ks.

(** From any state that accepts [ks], the text [txt] takes the description [d]
    to [d'] and a state that accepts [ks']. *)
Definition reach (ks : list (string * stateFn)) (txt : string) (d : SessionDescription)
    (ks' : list (string * stateFn)) (d' : SessionDescription) : Prop :=
  ∀ st, can ks st → ∃ st' k, can ks' st' ∧ (k <= string_len txt)%nat ∧
    ∀ l s, rest l = txt +:+ s → clean s = true → ∃ l', rest l' = s ∧
      ∀ fuel, state_loop (k + fuel) st (MkLex d l) = state_loop fuel st' (MkLex d' l').

Lemma reach_nil ks d : reach ks EmptyString d ks d.
Proof. intros st Hst. exists st, O. split_and!; [done..|]. intros l s R _. by exists l. Qed.

Lemma clean_app s t : clean s = true → clean t = true → clean (s +:+ t) = true.
Proof. by destruct s. Qed.

Lemma reach_app ks t1 d ks1 d1 t2 ks2 d2 :
  reach ks t1 d ks1 d1 → reach ks1 t2 d1 ks2 d2 → clean t2 = true → reach ks (t1 +:+ t2) d ks2 d2.
Proof.
  intros H1 H2 Hc st Hst. destruct (H1 st Hst) as (st1 & k1 & Hs1 & Hk1 & P1).
  destruct (H2 st1 Hs1) as (st2 & k2 & Hs2 & Hk2 & P2). exists st2, (k1 + k2)%nat.
  rewrite string_len_app. split_and!; [done | lia |]. intros l s R Hs. rewrite <- string_app_assoc in R.
  destruct (P1 l _ R) as (l1 & R1 & F1); [by apply clean_app|]. destruct (P2 l1 s R1 Hs) as (l2 & R2 & F2).
  exists l2. split; [done|]. intros fuel. by rewrite <- Nat.add_assoc, F1, F2.
Qed.

Lemma reach_weaken ks ks0 txt d ks' ks'' d' :
  reach ks txt d ks' d' → (∀ st, can ks0 st → can ks st) → (∀ st, can ks' st → can ks'' st) →
  reach ks0 txt d ks'' d'.
Proof.
  intros Hr H0 H1 st Hst. destruct (Hr st (H0 st Hst)) as (st' & k & Hs & P). exists st', k. auto.
Qed.
Lemma reach_tail e ks txt d ks' d' : reach ks txt d (e :: ks') d' → reach ks txt d ks' d'.
Proof. intros Hr. eapply reach_weaken; [done | done |]. by intros st [_ ?]%Forall_cons. Qed.

(** A key of one letter. *)
Definition key_of (c : ascii) : string := String c (String "=" EmptyString).
Definition good_key (c : ascii) : Prop := isNewline c = false ∧ Ascii.eqb c "=" = false.

Lemma clean_key c v : good_key c → clean (key_of c +:+ v) = true.
Proof. intros [Hc _]. simpl. by rewrite Hc. Qed.

Lemma reach_line c F ks v d st1 d' ks' :
  good_key c → line F v d st1 d' → can ks' st1 → reach ((key_of c, F) :: ks) (key_of c +:+ v +:+ CRLF) d ks' d'.
Proof.
  intros [Hn Hc] Hl Hk st [(table & Hst & Hby) _]%Forall_cons. cbn [fst snd] in Hby. unfold key_of in Hby. exists st1, 2%nat. split; [done|].
  rewrite !string_len_app. split; [simpl; lia|]. intros l s R Hs.
  destruct (type_reads l c ((v +:+ CRLF) +:+ s) Hn Hc) as (l1 & E1 & R1); [done|].
  rewrite <- string_app_assoc in R1. destruct (Hl l1 s R1 Hs) as (l2 & E2 & R2). exists l2. split; [done|].
  intros fuel. cbn [plus state_loop]. rewrite Hst. unfold handleType. cbn [base desc]. rewrite E1, Hby.
  unfold go_to at 1. rewrite bind_Ok. cbv beta iota. rewrite E2. unfold go_to. by rewrite bind_Ok.
Qed.

(** The text of a line, which is left out if its value is empty. *)
Definition kv (key v : string) : string :=
  if decide (v = EmptyString) then EmptyString else key +:+ v +:+ CRLF.
Definition kv_each (key : string) (l : list string) : string := foldr (λ v t, kv key v +:+ t) EmptyString l.

Lemma clean_kv c v : good_key c → clean (kv (key_of c) v) = true.
Proof. intros Hc. unfold kv. case_decide; [done|]. by apply clean_key. Qed.
Lemma clean_each c l : good_key c → clean (kv_each (key_of c) l) = true.
Proof. intros Hc. induction l as [|v l IH]; [done|]. simpl. apply clean_app; [by apply clean_kv | done]. Qed.

Lemma reach_kv c F ks v d st1 d' ks' :
  good_key c → v ≠ EmptyString → line F v d st1 d' → can ks' st1 →
  reach ((key_of c, F) :: ks) (kv (key_of c) v) d ks' d'.
Proof. intros Hc Hv Hl Hk. unfold kv. rewrite decide_False by done. by eapply reach_line. Qed.

(** An optional line; [emb] is the description around the part that changes. *)
Lemma reach_opt {A B} (emb : B → SessionDescription) c F ks st1 (pr : A → string) (set : option A → B → B) o b :
  good_key c → can ks st1 → set None b = b →
  (∀ x, o = Some x → pr x ≠ EmptyString ∧ line F (pr x) (emb b) st1 (emb (set (Some x) b))) →
  reach ((key_of c, F) :: ks) (from_option (kv (key_of c)) EmptyString (pr <$> o)) (emb b) ks (emb (set o b)).
Proof.
  intros Hc Hk Hd Ho. destruct o as [x|]; simpl.
  - destruct (Ho x eq_refl) as [Hx Hl]. by eapply reach_kv.
  - rewrite Hd. apply (reach_tail (key_of c, F)), reach_nil.
Qed.

(** Lines of the same kind. *)
Lemma reach_each {A B} (emb : B → SessionDescription) c F ks st1 (pr : A → string) (upd : A → B → B) l : ∀ b,
  good_key c → can ((key_of c, F) :: ks) st1 →
  (∀ x b, x ∈ l → pr x ≠ EmptyString ∧ line F (pr x) (emb b) st1 (emb (upd x b))) →
  reach ((key_of c, F) :: ks) (kv_each (key_of c) (map pr l)) (emb b)
    ((key_of c, F) :: ks) (emb (foldl (λ b x, upd x b) b l)).
Proof.
  induction l as [|x l IH]; intros b Hc Hk Hl; [apply reach_nil|]. cbn [map kv_each foldr foldl].
  eapply reach_app; [|apply IH; [done..|]|by apply clean_each].
  - destruct (Hl x b) as [Hx Hx']; [by left|]. by eapply reach_kv.
  - intros y b' Hy. apply Hl. by right.
Qed.

Lemma foldl_snoc {A} (l acc : list A) : foldl (λ acc x, acc ++ [x]) acc l = acc ++ l.
Proof. revert acc. induction l as [|x l IH]; intros acc; simpl; [by rewrite app_nil_r|]. by rewrite IH, <- app_assoc. Qed.

(** ** Sections *)

(** The keys of the session before its times, of the times, of what follows, and
    of the media. *)
Definition keys_t : list (string * stateFn) := [("t=", FTiming)].
Definition keys_9 : list (string * stateFn) := [("r=", FRepeatTimes); ("t=", FTiming); ("z=", FTimeZones);
  ("k=", FSessionEncryptionKey); ("a=", FSessionAttribute); ("m=", FMediaDescription)].
Definition keys_m : list (string * stateFn) := [("m=", FMediaDescription)].
Definition keys_md : list (string * stateFn) := [("i=", FMediaTitle); ("c=", FMediaConnectionInformation);
  ("b=", FMediaBandwidth); ("k=", FMediaEncryptionKey); ("a=", FMediaAttribute); ("m=", FMediaDescription)].

Ltac can_do := repeat constructor; eexists; split; reflexivity.
Ltac good := by split.

(** One media description. *)
Definition media_text (md : MediaDescription) : string :=
  kv "m=" (MediaName_String (md_MediaName md)) +:+
  from_option (kv "i=") EmptyString (id <$> MediaTitle md) +:+
  from_option (kv "c=") EmptyString (ConnectionInformation_String <$> md_ConnectionInformation md) +:+
  kv_each "b=" (map Bandwidth_String (md_Bandwidth md)) +:+
  from_option (kv "k=") EmptyString (id <$> md_EncryptionKey md) +:+
  kv_each "a=" (map Attribute_String (md_Attributes md)).

Lemma join_ne x l : l ≠ [] → str_join " " (x :: l) ≠ EmptyString.
Proof. destruct l as [|y l]; [done|]. intros _. by destruct x. Qed.
Lemma connection_ne c : ConnectionInformation_String c ≠ EmptyString.
Proof. by apply join_ne. Qed.
Lemma bandwidth_ne b : Bandwidth_String b ≠ EmptyString.
Proof. unfold Bandwidth_String. by destruct (Experimental b), (b_Type b). Qed.
Lemma attribute_ne a : attribute_ok a → Attribute_String a ≠ EmptyString.
Proof. intros [[Hk _] _]. unfold Attribute_String. by destruct (Key a). Qed.

Lemma foldl_bandwidth l : ∀ md, foldl (λ b x, add_Bandwidth x b) md l =
  MkMediaDesc (md_MediaName md) (MediaTitle md) (md_ConnectionInformation md) (md_Bandwidth md ++ l)
    (md_EncryptionKey md) (md_Attributes md).
Proof. induction l as [|x l IH]; intros [? ? ? ? ? ?]; simpl; rewrite ?app_nil_r, ?IH; simpl; by rewrite <- ?app_assoc. Qed.
Lemma foldl_attribute l : ∀ md, foldl (λ b x, add_Attribute x b) md l =
  MkMediaDesc (md_MediaName md) (MediaTitle md) (md_ConnectionInformation md) (md_Bandwidth md)
    (md_EncryptionKey md) (md_Attributes md ++ l).
Proof. induction l as [|x l IH]; intros [? ? ? ? ? ?]; simpl; rewrite ?app_nil_r, ?IH; simpl; by rewrite <- ?app_assoc. Qed.

Lemma clean_opt c o : good_key c → clean (from_option (kv (key_of c)) EmptyString o) = true.
Proof. intros Hc. destruct o; [by apply clean_kv | done]. Qed.

Ltac clean_text := repeat apply clean_app; (apply clean_opt || apply clean_each || apply clean_kv); good.

Lemma reach_media d ms md : media_ok md →
  reach keys_m (media_text md) (set_MediaDescriptions ms d) keys_m (set_MediaDescriptions (ms ++ [md]) d).
Proof.
  destruct md as [nm ti co ba ke at_]. intros (Hnm & Hti & Hco & Hba & Hke & Hat). unfold media_text.
  cbn [md_MediaName MediaTitle md_ConnectionInformation md_Bandwidth md_EncryptionKey md_Attributes] in *.
  set (emb := λ x, set_MediaDescriptions (ms ++ [x]) d).
  apply (reach_app _ _ _ keys_md (emb (new_media nm))).
  { apply (reach_kv "m" FMediaDescription [] _ _ Fs12); [good | by apply join_ne | | can_do].
    exact (line_media (set_MediaDescriptions ms d) nm Hnm). }
  2: clean_text.
  eapply reach_app.
  { apply (reach_opt emb "i" _ _ Fs16 id set_Title ti (new_media nm)); [good | can_do | done |].
    intros v ->. destruct Hti as [? ?]. split; [done|]. by apply (line_media_title (emb _) ms). }
  2: clean_text.
  eapply reach_app.
  { apply (reach_opt emb "c" _ _ Fs15 ConnectionInformation_String set_Connection co); [good | can_do | done |].
    intros c ->. split; [apply connection_ne|]. by apply (line_media_connection (emb _) ms). }
  2: clean_text.
  eapply reach_app.
  { apply (reach_tail ("b=", FMediaBandwidth)).
    apply (reach_each emb "b" _ _ Fs15 Bandwidth_String add_Bandwidth ba); [good | can_do |].
    intros b x Hb. split; [apply bandwidth_ne|]. apply (line_media_bandwidth (emb _) ms); [done|].
    by eapply Forall_forall in Hba. }
  2: clean_text.
  eapply reach_app.
  { apply (reach_opt emb "k" _ _ Fs14 id set_Key ke); [good | can_do | by rewrite foldl_bandwidth |].
    intros v ->. destruct Hke as [? ?]. split; [done|]. by apply (line_media_key (emb _) ms). }
  2: clean_text.
  rewrite foldl_bandwidth.
  replace (MkMediaDesc nm ti co ba ke at_) with
    (foldl (λ b x, add_Attribute x b) (MkMediaDesc nm ti co ba ke []) at_) by by rewrite foldl_attribute.
  apply (reach_tail ("a=", FMediaAttribute)).
  apply (reach_each emb "a" _ _ Fs14 Attribute_String add_Attribute at_ (MkMediaDesc nm ti co ba ke [])); [good | can_do |].
  intros a x Ha. eapply Forall_forall in Hat; [|done]. split; [by apply attribute_ne|].
  by apply (line_media_attribute (emb _) ms).
Qed.

(** One time description, and all of them. *)
Definition time_text (td : TimeDescription) : string :=
  kv "t=" (Timing_String (td_Timing td)) +:+ kv_each "r=" (map RepeatTime_String (RepeatTimes td)).

Lemma foldl_repeat l : ∀ td, foldl (λ b x, add_repeat x b) td l = MkTime (td_Timing td) (RepeatTimes td ++ l).
Proof. induction l as [|x l IH]; intros [? ?]; simpl; rewrite ?app_nil_r, ?IH; simpl; by rewrite <- ?app_assoc. Qed.

Lemma reach_time d ts td : time_ok td →
  reach keys_t (time_text td) (set_TimeDescriptions ts d) keys_9 (set_TimeDescriptions (ts ++ [td]) d).
Proof.
  destruct td as [t rs]. intros (Ha & Hb & Hr). cbn [td_Timing RepeatTimes] in *.
  set (emb := λ x, set_TimeDescriptions (ts ++ [x]) d). unfold time_text. cbn [td_Timing RepeatTimes].
  eapply (reach_app _ _ _ keys_9 (emb (MkTime t []))).
  - apply (reach_kv "t" FTiming [] _ _ Fs9); [good | | | can_do].
    + unfold Timing_String. by destruct (itoa (StartTime t)).
    + by apply (line_timing (set_TimeDescriptions ts d)).
  - replace (MkTime t rs) with (foldl (λ b x, add_repeat x b) (MkTime t []) rs) by by rewrite foldl_repeat.
    apply (reach_each emb "r" _ _ Fs9 RepeatTime_String add_repeat rs (MkTime t [])); [good | can_do |].
    intros r x Hx. eapply Forall_forall in Hr; [|done]. split; [by apply join_ne|].
    by apply (line_repeat (emb x) r ts x).
  - clean_text.
Qed.

Definition times_text (tds : list TimeDescription) : string := foldr (λ td t, time_text td +:+ t) EmptyString tds.
Definition medias_text (mds : list MediaDescription) : string := foldr (λ md t, media_text md +:+ t) EmptyString mds.

Lemma clean_times tds : clean (times_text tds) = true.
Proof. induction tds as [|td tds IH]; [done|]. simpl. apply clean_app; [|done]. clean_text. Qed.
Lemma clean_medias mds : clean (medias_text mds) = true.
Proof. induction mds as [|md mds IH]; [done|]. simpl. apply clean_app; [|done]. clean_text. Qed.

Lemma reach_times_9 d tds : ∀ ts, Forall time_ok tds →
  reach keys_9 (times_text tds) (set_TimeDescriptions ts d) keys_9 (set_TimeDescriptions (ts ++ tds) d).
Proof.
  induction tds as [|td tds IH]; intros ts Hall; [rewrite app_nil_r; apply reach_nil|].
  apply Forall_cons in Hall as [Htd Hall]. simpl. rewrite cons_middle, app_assoc.
  eapply reach_app; [|by apply (IH (ts ++ [td]))|apply clean_times].
  eapply reach_weaken; [by apply reach_time | |done]. intros st. unfold keys_9, keys_t, can. rewrite !Forall_cons. tauto.
Qed.
Lemma reach_times d tds : tds ≠ [] → Forall time_ok tds →
  reach keys_t (times_text tds) (set_TimeDescriptions [] d) keys_9 (set_TimeDescriptions tds d).
Proof.
  destruct tds as [|td tds]; [done|]. intros _ [Htd Hall]%Forall_cons. simpl.
  eapply reach_app; [by apply reach_time | by apply (reach_times_9 d tds [td]) | apply clean_times].
Qed.
Lemma reach_medias d mds : ∀ ms, Forall media_ok mds →
  reach keys_m (medias_text mds) (set_MediaDescriptions ms d) keys_m (set_MediaDescriptions (ms ++ mds) d).
Proof.
  induction mds as [|md mds IH]; intros ms Hall; [rewrite app_nil_r; apply reach_nil|].
  apply Forall_cons in Hall as [Hmd Hall]. simpl. rewrite cons_middle, app_assoc.
  eapply reach_app; [by apply reach_media | by apply (IH (ms ++ [md])) | apply clean_medias].
Qed.

(** ** The text of a description *)

Definition zones_of (l : list TimeZone) : option (list TimeZone) := match l with [] => None | l => Some l end.
Definition zones_string (l : list TimeZone) : string := str_join " " (map TimeZone_String l).

Definition tail_text (s : SessionDescription) : string :=
  from_option (kv "z=") EmptyString (zones_string <$> zones_of (TimeZones s)) +:+
  from_option (kv "k=") EmptyString (id <$> sd_EncryptionKey s) +:+
  kv_each "a=" (map Attribute_String (sd_Attributes s)) +:+ medias_text (MediaDescriptions s).

Definition head_text (s : SessionDescription) : string :=
  kv "v=" (itoa (sd_Version s)) +:+ kv "o=" (Origin_String (sd_Origin s)) +:+ kv "s=" (SessionName s) +:+
  from_option (kv "i=") EmptyString (id <$> SessionInformation s) +:+
  from_option (kv "u=") EmptyString (URL_String <$> URI s) +:+
  from_option (kv "e=") EmptyString (id <$> EmailAddress s) +:+
  from_option (kv "p=") EmptyString (id <$> PhoneNumber s) +:+
  from_option (kv "c=") EmptyString (ConnectionInformation_String <$> sd_ConnectionInformation s) +:+
  kv_each "b=" (map Bandwidth_String (sd_Bandwidth s)).

Lemma add_kv m k v : addKeyValue m k v = m +:+ kv k v.
Proof. unfold addKeyValue, kv. case_decide; [by rewrite string_app_nil_r | done]. Qed.
Lemma add_opt_kv m k o : add_opt m k o = m +:+ from_option (kv k) EmptyString o.
Proof. destruct o; simpl; [apply add_kv | by rewrite string_app_nil_r]. Qed.
Lemma add_each_kv k l : ∀ m, add_each m k l = m +:+ kv_each k l.
Proof.
  unfold add_each. induction l as [|v l IH]; intros m; simpl; [by rewrite string_app_nil_r|].
  by rewrite IH, add_kv, <- string_app_assoc.
Qed.
Lemma foldl_text {A} (add : string → A → string) (text : A → string) l :
  (∀ m x, add m x = m +:+ text x) → ∀ m, foldl add m l = m +:+ foldr (λ x t, text x +:+ t) EmptyString l.
Proof.
  intros Ha. induction l as [|x l IH]; intros m; simpl; [by rewrite string_app_nil_r|].
  by rewrite IH, Ha, <- string_app_assoc.
Qed.
Lemma fmap_id_opt {A} (o : option A) : id <$> o = o.
Proof. by destruct o. Qed.

Lemma marshal_text s :
  SessionDescription_Marshal s = head_text s +:+ times_text (TimeDescriptions s) +:+ tail_text s.
Proof.
  unfold SessionDescription_Marshal. cbv zeta.
  rewrite (foldl_text add_media media_text).
  2: { intros m md. unfold add_media, media_text. cbv zeta.
       by rewrite add_each_kv, add_opt_kv, add_each_kv, !add_opt_kv, add_kv, !fmap_id_opt, <- !string_app_assoc. }
  rewrite add_each_kv, add_opt_kv.
  assert (∀ m, match TimeZones s with [] => m | l => addKeyValue m "z=" (str_join " " (map TimeZone_String l)) end =
    m +:+ from_option (kv "z=") EmptyString (zones_string <$> zones_of (TimeZones s))) as Hz.
  { intros m. destruct (TimeZones s); [by rewrite string_app_nil_r | apply add_kv]. }
  rewrite Hz, (foldl_text add_time time_text).
  2: { intros m td. unfold add_time, time_text. by rewrite add_each_kv, add_kv, <- string_app_assoc. }
  rewrite add_each_kv, !add_opt_kv, !add_kv. unfold head_text, tail_text, times_text, medias_text.
  rewrite !fmap_id_opt, <- !string_app_assoc. done.
Qed.

Definition keys_i : list (string * stateFn) := [("i=", FSessionInformation); ("u=", FURI); ("e=", FEmail);
  ("p=", FPhone); ("c=", FSessionConnectionInformation); ("b=", FSessionBandwidth); ("t=", FTiming)].

(** The description up to its times. *)
Definition head_of (s : SessionDescription) : SessionDescription :=
  MkSession 0 (sd_Origin s) (SessionName s) (SessionInformation s) (URI s) (EmailAddress s) (PhoneNumber s)
    (sd_ConnectionInformation s) (sd_Bandwidth s) [] [] None [] [].

Lemma origin_ne o : origin_ok o → Origin_String o ≠ EmptyString.
Proof. intros ([Hu _] & _). unfold Origin_String. by destruct (Username o). Qed.

Lemma reach_head s : session_ok s → reach [("v=", FProtocolVersion)] (head_text s) session_zero keys_t (head_of s).
Proof.
  intros [Hv Ho Hn Hi Hu He Hp Hc Hb _ _ _ _ _]. unfold head_text. rewrite Hv.
  eapply reach_app; [|clear Hv|clean_text].
  { apply (reach_kv "v" _ _ _ _ Fs2 session_zero [("o=", FOrigin)]); [good | done | apply line_version | can_do]. }
  eapply reach_app; [|clear Ho|clean_text].
  { apply (reach_kv "o" _ _ _ _ Fs3 (set_sd_Origin (sd_Origin s) session_zero) [("s=", FSessionName)]);
      [good | by apply origin_ne | by apply line_origin | can_do]. }
  eapply reach_app; [|clear Hn|clean_text].
  { destruct Hn as [? ?]. apply (reach_kv "s" _ _ _ _ Fs4 _ keys_i); [good | done | by apply line_name | can_do]. }
  eapply reach_app; [|clear Hi|clean_text].
  { apply (reach_opt id "i" _ _ Fs7 id set_SessionInformation); [good | can_do | done |].
    intros v E. rewrite E in Hi. destruct Hi as [? ?]. split; [done | by apply line_info]. }
  eapply reach_app; [|clear Hu|clean_text].
  { apply (reach_opt id "u" _ _ Fs10 URL_String set_URI); [good | can_do | done |].
    intros v E. rewrite E in Hu. destruct (Hu) as [[? ?] ?]. split; [done | by apply line_uri]. }
  eapply reach_app; [|clear He|clean_text].
  { apply (reach_opt id "e" _ _ Fs6 id set_EmailAddress); [good | can_do | done |].
    intros v E. rewrite E in He. destruct He as [? ?]. split; [done | by apply line_email]. }
  eapply reach_app; [|clear Hp|clean_text].
  { apply (reach_opt id "p" _ _ Fs8 id set_PhoneNumber); [good | can_do | done |].
    intros v E. rewrite E in Hp. destruct Hp as [? ?]. split; [done | by apply line_phone]. }
  eapply reach_app; [|clear Hc|clean_text].
  { apply (reach_opt id "c" _ _ Fs5 ConnectionInformation_String set_sd_ConnectionInformation); [good | can_do | done |].
    intros c E. rewrite E in Hc. split; [apply connection_ne | by apply line_connection]. }
  set (D := id _). assert (D = set_sd_Bandwidth [] (head_of s)) as -> by reflexivity.
  replace (head_of s) with (set_sd_Bandwidth (foldl (λ l x, l ++ [x]) [] (sd_Bandwidth s)) (head_of s)) at 2
    by by rewrite foldl_snoc.
  apply (reach_tail ("b=", FSessionBandwidth)).
  apply (reach_each (λ l, set_sd_Bandwidth l (head_of s)) "b" _ _ Fs5 Bandwidth_String (λ x l, l ++ [x]));
    [good | can_do |].
  intros b l Hin. eapply Forall_forall in Hb; [|done]. split; [apply bandwidth_ne|].
  by apply (line_bandwidth (set_sd_Bandwidth l (head_of s))).
Qed.

(** The description up to its media. *)
Definition times_of (s : SessionDescription) : SessionDescription :=
  set_TimeDescriptions (TimeDescriptions s) (head_of s).
Definition body_of (s : SessionDescription) : SessionDescription :=
  set_sd_Attributes (sd_Attributes s) (set_sd_EncryptionKey (sd_EncryptionKey s) (set_TimeZones (TimeZones s) (times_of s))).
Definition keys_z : list (string * stateFn) := [("z=", FTimeZones); ("k=", FSessionEncryptionKey);
  ("a=", FSessionAttribute); ("m=", FMediaDescription)].

Lemma reach_tail_text s : session_ok s →
  reach keys_9 (tail_text s) (times_of s) keys_m (set_MediaDescriptions (MediaDescriptions s) (body_of s)).
Proof.
  intros [_ _ _ _ _ _ _ _ _ _ Hz Hk Ha Hm]. apply (reach_weaken keys_z _ _ _ keys_m); [|unfold keys_9, keys_z, can|done].
  2: { intros st. rewrite !Forall_cons. tauto. }
  unfold tail_text. eapply reach_app; [|clear Hz|repeat apply clean_app; try apply clean_medias; clean_text].
  { apply (reach_opt id "z" _ _ Fs13 zones_string (λ o, set_TimeZones (default [] o)) _ (times_of s)); [good | can_do | done |].
    intros zs E. destruct (TimeZones s) as [|z zs'] eqn:Et; [done|]. injection E as <-. split; [|by apply line_zones].
    unfold zones_string. simpl. destruct zs'; unfold TimeZone_String; simpl; by destruct (itoa (AdjustmentTime z)). }
  eapply reach_app; [|clear Hk|repeat apply clean_app; try apply clean_medias; clean_text].
  { apply (reach_opt id "k" _ _ Fs11 id set_sd_EncryptionKey); [good | can_do | done |].
    intros v E. rewrite E in Hk. destruct Hk as [? ?]. split; [done | by apply line_key]. }
  set (D := id _). assert (D = set_sd_Attributes [] (body_of s)) as ->.
  { unfold D, body_of. by destruct (TimeZones s). }
  eapply (reach_app _ _ _ keys_m (body_of s)); [| |apply clean_medias].
  - apply (reach_tail ("a=", FSessionAttribute)).
    replace (body_of s) with (set_sd_Attributes (foldl (λ l x, l ++ [x]) [] (sd_Attributes s)) (body_of s)) at 2
      by by rewrite foldl_snoc.
    apply (reach_each (λ l, set_sd_Attributes l (body_of s)) "a" _ _ Fs11 Attribute_String (λ x l, l ++ [x]));
      [good | can_do |].
    intros a l Hin. eapply Forall_forall in Ha; [|done]. split; [by apply attribute_ne|].
    by apply (line_attribute (set_sd_Attributes l (body_of s))).
  - by apply (reach_medias (body_of s) (MediaDescriptions s) []).
Qed.

Lemma body_media s : session_ok s → set_MediaDescriptions (MediaDescriptions s) (body_of s) = s.
Proof. intros [Hv _ _ _ _ _ _ _ _ _ _ _ _ _]. destruct s; simpl in *. by subst. Qed.

(** At the end of the text the description is the result. *)
Lemma end_of_text st ks d l fuel : can ks st → ks ≠ [] → rest l = EmptyString →
  state_loop (S fuel) st (MkLex d l) = Ok d.
Proof.
  destruct ks as [|e ks]; [done|]. intros [(table & Hst & _) _]%Forall_cons _ R. simpl. rewrite Hst.
  unfold handleType, readType. cbn [base]. replace (lex_fuel l) with (S (lex_fuel l - 1)) by (unfold lex_fuel; lia).
  simpl. by rewrite readByte_rest, R.
Qed.

(** Reading what Marshal writes. *)
Lemma unmarshal_marshal s : session_ok s →
  SessionDescription_Unmarshal session_zero (SessionDescription_Marshal s) = Ok s.
Proof.
  intros Hs. pose proof (so_times s Hs) as [Hne Ht].
  assert (reach [("v=", FProtocolVersion)] (SessionDescription_Marshal s) session_zero keys_m s) as Hr.
  { rewrite marshal_text. eapply reach_app; [by apply reach_head | |].
    - eapply reach_app; [by apply (reach_times (head_of s)) | |].
      + pose proof (reach_tail_text s Hs) as Htail. by rewrite (body_media s Hs) in Htail.
      + repeat apply clean_app; try apply clean_medias; clean_text.
    - repeat apply clean_app; try apply clean_times; try apply clean_medias; clean_text. }
  destruct (Hr Fs1) as (st & k & Hst & Hk & P); [can_do|].
  destruct (P (MkLexer (SessionDescription_Marshal s) 0) EmptyString) as (l & R & F); [by rewrite string_app_nil_r | done |].
  unfold SessionDescription_Unmarshal.
  replace (2 + string_len _)%nat with (k + S (S (string_len (SessionDescription_Marshal s) - k)))%nat by lia.
  rewrite F. by eapply end_of_text.
Qed.

(** C9. [Unmarshal] inverts [Marshal]: the text of a session description whose
    fields are within what the format allows (see [session_ok]), parsed into a
    new description, gives back that description, every time, zone, attribute
    and media section included. *)
Theorem sdp_roundtrip s : session_ok s →
  SessionDescription_Unmarshal session_zero (SessionDescription_Marshal s) = Ok s.
Proof. apply unmarshal_marshal. Qed.
End path.

(** A description with every kind of line, and URLs that are their text. *)
Definition text_url : NetUrl := {| URL := string; url_Parse := Some; URL_String s := s |}.
Definition full_session : @SessionDescription text_url :=
  @MkSession text_url 0 (MkOrigin "-" 12 3 "IN" "IP4" "0.0.0.0") "-" (Some "info") (Some "http://a") (Some "e") (Some "p")
    (Some (MkConnection "IN" "IP4" (Some (MkAddress "1.2.3.4" None None))))
    [MkBandwidth true "ab" 12; MkBandwidth false "AS" 5]
    [MkTime (MkTiming 0 0) [MkRepeat (-5) 7 [1; 2; 3]]; MkTime (MkTiming 1 2) []]
    [MkZone 1 2; MkZone 5 (-3)] (Some "key") [MkAttribute "ice-lite" EmptyString; MkAttribute "group" "BUNDLE 0 1:x"]
    [MkMediaDesc (MkMediaName "audio" (MkPort 9 None) ["UDP"; "TLS"; "RTP"; "SAVPF"] ["111"; "0"]) (Some "t")
       (Some (MkConnection "IN" "IP4" None)) [MkBandwidth false "AS" 1] (Some "k")
       [MkAttribute "ssrc" "1 cname:x"; MkAttribute "recvonly" EmptyString];
     MkMediaDesc (MkMediaName "application" (MkPort 9 (Some 2)) ["UDP"; "DTLS"; "SCTP"] ["webrtc-datachannel"])
       None None [] None []].

(** The conditions on a concrete description, one field at a time. *)
Ltac concrete_field :=
  match goal with
  | |- _ ∧ _ => split
  | |- Forall _ [] => constructor
  | |- Forall _ (_ :: _) => constructor
  | |- _ ∈ _ => set_solver
  | |- _ ≠ _ => discriminate
  | |- _ → _ => intros ?
  | |- True => exact I
  | |- _ = _ => reflexivity || discriminate
  | |- _ => lia
  | |- _ => progress (unfold origin_ok, connection_ok, bandwidth_ok, url_ok, time_ok, repeat_ok, zone_ok, attribute_ok,
              media_ok, media_name_ok, is_u64, is_i64, is_line, is_field; cbn -[Z.pow])
  end.

Lemma full_session_ok : session_ok full_session.
Proof. constructor; cbn -[Z.pow]; repeat concrete_field. Qed.

Lemma sdp_roundtrip_witness :
  SessionDescription_Unmarshal (H := text_url) session_zero (SessionDescription_Marshal full_session) = Ok full_session.
Proof. apply sdp_roundtrip, full_session_ok. Defined.
