(* ===== verification/Rtp.v ===== *)
(** * RTP packets

    packet.go of pion/rtp, the package that reads and writes the packets the
    server forwards: [TrackLocalStaticRTP.Write] parses every buffer a
    publisher sends with it.  A header is filled from a slice; bounds are
    checked as Go checks them, so a malformed header extension can end in a
    panic.  A receiver that is filled in place is an argument; what an
    [Unmarshal] that fails leaves in it is not returned, no caller reads it. *)

From S2P Require Import Prelude Bytes.

Inductive rtp_err :=
  | errHeaderSizeInsufficient
  | errHeaderSizeInsufficientForExtension
  | errTooSmall
  | errHeaderExtensionsNotEnabled
  | errHeaderExtensionNotFound
  | errRFC8285OneByteHeaderIDRange
  | errRFC8285OneByteHeaderSize
  | errRFC8285TwoByteHeaderIDRange
  | errRFC8285TwoByteHeaderSize
  | errRFC3550HeaderIDRange
  | ErrShortBuffer.           (* io.ErrShortBuffer *)

(** Extension RTP Header extension *)
Record Extension := MkExtension { ext_id : Z; ext_payload : list Z }.

#[export] Instance Extension_eq_dec : EqDecision Extension.
Proof. solve_decision. Defined.

(** Header represents an RTP packet header; the field Extension is
    [HasExtension] here. *)
Record Header := MkHeader {
  Version : Z;
  Padding : bool;
  HasExtension : bool;
  Marker : bool;
  PayloadType : Z;
  SequenceNumber : Z;
  Timestamp : Z;
  SSRC : Z;
  CSRC : list Z;
  ExtensionProfile : Z;
  Extensions : list Extension;
}.

(** Packet represents an RTP Packet *)
Record Packet := MkPacket { pHeader : Header; Payload : list Z; PaddingSize : Z }.

#[export] Instance Header_eq_dec : EqDecision Header.
Proof. solve_decision. Defined.
#[export] Instance Packet_eq_dec : EqDecision Packet.
Proof. solve_decision. Defined.

Definition empty_header : Header := MkHeader 0 false false false 0 0 0 0 [] 0 [].
Definition empty_packet : Packet := MkPacket empty_header [] 0.

Definition headerLength : nat := 4.
Definition extensionProfileOneByte : Z := 0xBEDE.
Definition extensionProfileTwoByte : Z := 0x1000.
Definition extensionIDReserved : Z := 0xF.
Definition csrcOffset : nat := 12.
Definition csrcLength : nat := 4.

(** ** Reading *)

(** [for i := range h.CSRC { h.CSRC[i] = Uint32(buf[csrcOffset+4*i:]) }] *)
Fixpoint read_csrc (buf : slice) (offset n : nat) : res rtp_err (list Z) :=
  match n with
  | O => Ok []
  | S n =>
      x ← get32_at buf offset;
      l ← read_csrc buf (offset + csrcLength) n;
      Ok (x :: l)
  end.

(** The loop over the elements of a one-byte header extension: a zero byte is
    padding, the reserved id ends the loop. *)
Fixpoint one_byte_loop (fuel : nat) (buf : slice) (n end_ : nat) (acc : list Extension)
    : res rtp_err (list Extension * nat) :=
  match fuel with
  | O => Diverge
  | S fuel =>
      if (n <? end_)%nat then
        b ← s_idx buf n;
        if b =? 0 then one_byte_loop fuel buf (S n) end_ acc
        else
          let extid := Z.shiftr b 4 in
          let len := Z.to_nat (Z.ldiff b 0xF0 + 1) in
          let n := S n in
          if extid =? extensionIDReserved then Ok (acc, n)
          else
            p ← s_sub buf n (n + len);
            one_byte_loop fuel buf (n + len) end_ (acc ++ [MkExtension extid (s_bytes p)])
      else Ok (acc, n)
  end.

(** The loop over the elements of a two-byte header extension. *)
Fixpoint two_byte_loop (fuel : nat) (buf : slice) (n end_ : nat) (acc : list Extension)
    : res rtp_err (list Extension * nat) :=
  match fuel with
  | O => Diverge
  | S fuel =>
      if (n <? end_)%nat then
        b ← s_idx buf n;
        if b =? 0 then two_byte_loop fuel buf (S n) end_ acc
        else
          let extid := b in
          let n := S n in
          l ← s_idx buf n;
          let len := Z.to_nat l in
          let n := S n in
          p ← s_sub buf n (n + len);
          two_byte_loop fuel buf (n + len) end_ (acc ++ [MkExtension extid (s_bytes p)])
      else Ok (acc, n)
  end.

(** The header extension that starts at [n]: its profile, its elements and the
    position after it. *)
Definition read_extension (buf : slice) (n : nat) : res rtp_err (Z * list Extension * nat) :=
  _ ← fail_if (s_len buf <? n + 4)%nat errHeaderSizeInsufficientForExtension;
  profile ← get16_at buf n;
  let n := (n + 2)%nat in
  words ← get16_at buf n;
  let extensionLength := Z.to_nat (words * 4) in
  let n := (n + 2)%nat in
  _ ← fail_if (s_len buf <? n + extensionLength)%nat errHeaderSizeInsufficientForExtension;
  if profile =? extensionProfileOneByte then
    r ← one_byte_loop (S extensionLength) buf n (n + extensionLength) [];
    Ok (profile, r.1, r.2)
  else if profile =? extensionProfileTwoByte then
    r ← two_byte_loop (S extensionLength) buf n (n + extensionLength) [];
    Ok (profile, r.1, r.2)
  else
    _ ← fail_if (s_len buf <? n + extensionLength)%nat errHeaderSizeInsufficientForExtension;
    p ← s_sub buf n (n + extensionLength);
    Ok (profile, [MkExtension 0 (s_bytes p)], (n + length (s_bytes p))%nat).

(** func (h *Header) Unmarshal(buf []byte) (n int, err error) *)
Definition Header_Unmarshal (h : Header) (buf : slice) : res rtp_err (Header * nat) :=
  _ ← fail_if (s_len buf <? headerLength)%nat errHeaderSizeInsufficient;
  b0 ← s_idx buf 0;
  let version := Z.land (Z.shiftr b0 6) 0x3 in
  let padding := 0 <? Z.land (Z.shiftr b0 5) 0x1 in
  let extension := 0 <? Z.land (Z.shiftr b0 4) 0x1 in
  let nCSRC := Z.to_nat (Z.land b0 0xF) in
  let n := (csrcOffset + nCSRC * csrcLength)%nat in
  _ ← fail_if (s_len buf <? n)%nat errHeaderSizeInsufficient;
  b1 ← s_idx buf 1;
  let marker := 0 <? Z.land (Z.shiftr b1 7) 0x1 in
  let payloadType := Z.land b1 0x7F in
  b23 ← s_sub buf 2 4;
  seq ← get16 b23;
  b47 ← s_sub buf 4 8;
  ts ← get32 b47;
  b8 ← s_sub buf 8 12;
  ssrc ← get32 b8;
  csrc ← read_csrc buf csrcOffset nCSRC;
  let mk := MkHeader version padding extension marker payloadType seq ts ssrc csrc in
  if extension then
    r ← read_extension buf n;
    Ok (mk r.1.1 r.1.2, r.2)
  else Ok (mk (ExtensionProfile h) [], n).

(** func (p *Packet) Unmarshal(buf []byte) error *)
Definition Packet_Unmarshal (p : Packet) (buf : slice) : res rtp_err Packet :=
  r ← Header_Unmarshal (pHeader p) buf;
  let '(h, n) := r in
  let end_ := Z.of_nat (s_len buf) in
  e ← (if Padding h then
         ps ← s_idx buf (Z.to_nat (end_ - 1));
         Ok (ps, end_ - ps)
       else Ok (PaddingSize p, end_));
  _ ← fail_if (e.2 <? Z.of_nat n) errTooSmall;
  pl ← s_sub buf n (Z.to_nat e.2);
  Ok (MkPacket h (s_bytes pl) e.1).

(** ** Writing *)

Definition one_byte_size (l : list Extension) : nat :=
  foldl (λ s e, (s + (1 + length (ext_payload e)))%nat) 4%nat l.
Definition two_byte_size (l : list Extension) : nat :=
  foldl (λ s e, (s + (2 + length (ext_payload e)))%nat) 4%nat l.

(** func (h Header) MarshalSize() int *)
Definition Header_MarshalSize (h : Header) : res rtp_err nat :=
  let size := (12 + length (CSRC h) * csrcLength)%nat in
  if HasExtension h then
    extSize ←
      (if ExtensionProfile h =? extensionProfileOneByte then Ok (one_byte_size (Extensions h))
       else if ExtensionProfile h =? extensionProfileTwoByte then Ok (two_byte_size (Extensions h))
       else match Extensions h with
            | e :: _ => Ok (4 + length (ext_payload e))%nat
            | [] => Panic
            end);
    Ok (size + (extSize + 3) / 4 * 4)%nat
  else Ok size.

(** [for _, csrc := range h.CSRC { PutUint32(buf[n:n+4], csrc); n += 4 }] *)
Fixpoint write_csrc (buf : list Z) (n : nat) (l : list Z) : res rtp_err (list Z * nat) :=
  match l with
  | [] => Ok (buf, n)
  | x :: l =>
      buf ← put buf n (be32 x);
      write_csrc buf (n + 4) l
  end.

Fixpoint write_one_byte (buf : list Z) (n : nat) (l : list Extension) : res rtp_err (list Z * nat) :=
  match l with
  | [] => Ok (buf, n)
  | e :: l =>
      buf ← put buf n [Z.lor (u8 (Z.shiftl (ext_id e) 4))
                             (u8 (u8 (Z.of_nat (length (ext_payload e))) - 1))];
      let n := S n in
      c ← copy_at buf n (ext_payload e);
      write_one_byte c.1 (n + c.2) l
  end.

Fixpoint write_two_byte (buf : list Z) (n : nat) (l : list Extension) : res rtp_err (list Z * nat) :=
  match l with
  | [] => Ok (buf, n)
  | e :: l =>
      buf ← put buf n [ext_id e];
      let n := S n in
      buf ← put buf n [u8 (Z.of_nat (length (ext_payload e)))];
      let n := S n in
      c ← copy_at buf n (ext_payload e);
      write_two_byte c.1 (n + c.2) l
  end.

(** The extension of the header, written from [n] on. *)
Definition write_extension (h : Header) (buf : list Z) (n : nat) : res rtp_err (list Z * nat) :=
  let extHeaderPos := n in
  buf ← put buf n (be16 (ExtensionProfile h));
  let n := (n + 4)%nat in
  let startExtensionsPos := n in
  r ← (if ExtensionProfile h =? extensionProfileOneByte then write_one_byte buf n (Extensions h)
       else if ExtensionProfile h =? extensionProfileTwoByte then write_two_byte buf n (Extensions h)
       else match Extensions h with
            | e :: _ =>
                _ ← fail_if (negb (length (ext_payload e) mod 4 =? 0)%nat) ErrShortBuffer;
                c ← copy_at buf n (ext_payload e);
                Ok (c.1, (n + c.2)%nat)
            | [] => Panic
            end);
  let '(buf, n) := r in
  let extSize := (n - startExtensionsPos)%nat in
  let roundedExtSize := ((extSize + 3) / 4 * 4)%nat in
  buf ← put buf (extHeaderPos + 2) (be16 (u16 (Z.of_nat (roundedExtSize / 4))));
  buf ← put buf n (zeros (roundedExtSize - extSize));
  Ok (buf, (n + (roundedExtSize - extSize))%nat).

(** The first two bytes of the header. *)
Definition header_byte0 (h : Header) : Z :=
  let b := Z.lor (u8 (Z.shiftl (Version h) 6)) (u8 (Z.of_nat (length (CSRC h)))) in
  let b := if Padding h then Z.lor b (Z.shiftl 1 5) else b in
  if HasExtension h then Z.lor b (Z.shiftl 1 4) else b.
Definition header_byte1 (h : Header) : Z :=
  if Marker h then Z.lor (PayloadType h) (Z.shiftl 1 7) else PayloadType h.

(** func (h Header) MarshalTo(buf []byte) (n int, err error): the buffer
    after the stores, and n. *)
Definition Header_MarshalTo (h : Header) (buf : list Z) : res rtp_err (list Z * nat) :=
  size ← Header_MarshalSize h;
  _ ← fail_if (length buf <? size)%nat ErrShortBuffer;
  buf ← put buf 0 [header_byte0 h];
  buf ← put buf 1 [header_byte1 h];
  buf ← put buf 2 (be16 (SequenceNumber h));
  buf ← put buf 4 (be32 (Timestamp h));
  buf ← put buf 8 (be32 (SSRC h));
  r ← write_csrc buf 12 (CSRC h);
  if HasExtension h then write_extension h r.1 r.2 else Ok r.

(** func (h Header) Marshal() (buf []byte, err error) *)
Definition Header_Marshal (h : Header) : res rtp_err (list Z) :=
  size ← Header_MarshalSize h;
  r ← Header_MarshalTo h (zeros size);
  Ok (take r.2 r.1).

(** func (p Packet) MarshalSize() int *)
Definition Packet_MarshalSize (p : Packet) : res rtp_err nat :=
  n ← Header_MarshalSize (pHeader p);
  Ok (n + length (Payload p) + Z.to_nat (PaddingSize p))%nat.

Definition set_padding (b : bool) (h : Header) : Header :=
  MkHeader (Version h) b (HasExtension h) (Marker h) (PayloadType h) (SequenceNumber h)
    (Timestamp h) (SSRC h) (CSRC h) (ExtensionProfile h) (Extensions h).

(** func (p Packet) MarshalTo(buf []byte) (n int, err error) *)
Definition Packet_MarshalTo (p : Packet) (buf : list Z) : res rtp_err (list Z * nat) :=
  let h := set_padding (negb (PaddingSize p =? 0)) (pHeader p) in
  r ← Header_MarshalTo h buf;
  let '(buf, n) := r in
  let ps := Z.to_nat (PaddingSize p) in
  _ ← fail_if (length buf <? n + length (Payload p) + ps)%nat ErrShortBuffer;
  c ← copy_at buf n (Payload p);
  let '(buf, m) := c in
  buf ← (if Padding h then put buf (n + m + Z.to_nat (u8 (PaddingSize p - 1))) [PaddingSize p]
         else Ok buf);
  Ok (buf, (n + m + ps)%nat).

(** func (p Packet) Marshal() (buf []byte, err error) *)
Definition Packet_Marshal (p : Packet) : res rtp_err (list Z) :=
  size ← Packet_MarshalSize p;
  r ← Packet_MarshalTo p (zeros size);
  Ok (take r.2 r.1).

(** ** Header extensions *)

Definition set_extensions (x : bool) (profile : Z) (l : list Extension) (h : Header) : Header :=
  MkHeader (Version h) (Padding h) x (Marker h) (PayloadType h) (SequenceNumber h)
    (Timestamp h) (SSRC h) (CSRC h) profile l.

(** The first extension with the id gets the payload. *)
Fixpoint update_extension (id : Z) (payload : list Z) (l : list Extension) : option (list Extension) :=
  match l with
  | [] => None
  | e :: l =>
      if ext_id e =? id then Some (MkExtension (ext_id e) payload :: l)
      else l' ← update_extension id payload l; Some (e :: l')
  end.

(** func (h *Header) SetExtension(id uint8, payload []byte) error *)
Definition SetExtension (h : Header) (id : Z) (payload : list Z) : res rtp_err Header :=
  let len := length payload in
  if HasExtension h then
    _ ← (if ExtensionProfile h =? extensionProfileOneByte then
           _ ← fail_if ((id <? 1) || (14 <? id)) errRFC8285OneByteHeaderIDRange;
           fail_if (16 <? len)%nat errRFC8285OneByteHeaderSize
         else if ExtensionProfile h =? extensionProfileTwoByte then
           _ ← fail_if ((id <? 1) || (255 <? id)) errRFC8285TwoByteHeaderIDRange;
           fail_if (255 <? len)%nat errRFC8285TwoByteHeaderSize
         else fail_if (negb (id =? 0)) errRFC3550HeaderIDRange);
    match update_extension id payload (Extensions h) with
    | Some l => Ok (set_extensions true (ExtensionProfile h) l h)
    | None =>
        Ok (set_extensions true (ExtensionProfile h)
              (Extensions h ++ [MkExtension id payload]) h)
    end
  else
    let profile :=
      if (len <=? 16)%nat then extensionProfileOneByte
      else if ((16 <? len) && (len <? 256))%nat then extensionProfileTwoByte
      else ExtensionProfile h in
    Ok (set_extensions true profile (Extensions h ++ [MkExtension id payload]) h).

(** func (h *Header) GetExtensionIDs() []uint8 *)
Definition GetExtensionIDs (h : Header) : list Z :=
  if negb (HasExtension h) then []
  else if (length (Extensions h) =? 0)%nat then []
  else map ext_id (Extensions h).

(** func (h *Header) GetExtension(id uint8) []byte: nil is [None]. *)
Definition GetExtension (h : Header) (id : Z) : option (list Z) :=
  if negb (HasExtension h) then None
  else ext_payload <$> List.find (λ e, ext_id e =? id) (Extensions h).

Fixpoint remove_extension (id : Z) (l : list Extension) : option (list Extension) :=
  match l with
  | [] => None
  | e :: l => if ext_id e =? id then Some l else l' ← remove_extension id l; Some (e :: l')
  end.

(** func (h *Header) DelExtension(id uint8) error *)
Definition DelExtension (h : Header) (id : Z) : res rtp_err Header :=
  if negb (HasExtension h) then Err errHeaderExtensionsNotEnabled
  else match remove_extension id (Extensions h) with
       | Some l => Ok (set_extensions (HasExtension h) (ExtensionProfile h) l h)
       | None => Err errHeaderExtensionNotFound
       end.
