(* ===== verification/RtpProps.v ===== *)
(** * RTP packets: layout, round trip and bounds

    [wire_header] and [wire_packet] are the layout of RFC 3550 and RFC 8285 as
    a concatenation of fields.  [Marshal], which fills a buffer by offsets,
    produces exactly these bytes, and [Unmarshal] reads them back. *)

From S2P Require Import Prelude Bytes Rtp.

(** ** The layout *)

Definition one_byte_head (e : Extension) : Z :=
  Z.lor (u8 (Z.shiftl (ext_id e) 4)) (u8 (u8 (Z.of_nat (length (ext_payload e))) - 1)).
Definition one_byte_elem (e : Extension) : list Z := [one_byte_head e] ++ ext_payload e.
Definition two_byte_elem (e : Extension) : list Z :=
  [ext_id e] ++ [u8 (Z.of_nat (length (ext_payload e)))] ++ ext_payload e.

Lemma one_byte_elem_eq e : one_byte_elem e = [one_byte_head e] ++ ext_payload e.
Proof. done. Qed.
Lemma two_byte_elem_eq e :
  two_byte_elem e = [ext_id e] ++ [u8 (Z.of_nat (length (ext_payload e)))] ++ ext_payload e.
Proof. done. Qed.

(** The elements of the extension, without the padding to a 32-bit boundary. *)
Definition ext_body (h : Header) : list Z :=
  if ExtensionProfile h =? extensionProfileOneByte then flat_map one_byte_elem (Extensions h)
  else if ExtensionProfile h =? extensionProfileTwoByte then flat_map two_byte_elem (Extensions h)
  else flat_map ext_payload (take 1 (Extensions h)).

Definition ext_words (h : Header) : nat := ((length (ext_body h) + 3) / 4)%nat.

Definition wire_ext (h : Header) : list Z :=
  if HasExtension h then
    be16 (ExtensionProfile h) ++ be16 (u16 (Z.of_nat (ext_words h))) ++
    ext_body h ++ zeros (ext_words h * 4 - length (ext_body h))
  else [].

Definition wire_fixed (h : Header) : list Z :=
  header_byte0 h :: header_byte1 h :: be16 (SequenceNumber h) ++ be32 (Timestamp h) ++ be32 (SSRC h).

Definition wire_header (h : Header) : list Z :=
  wire_fixed h ++ flat_map be32 (CSRC h) ++ wire_ext h.

Definition wire_padding (ps : Z) : list Z :=
  if ps =? 0 then [] else zeros (Z.to_nat (ps - 1)) ++ [ps].

Definition wire_packet (p : Packet) : list Z :=
  wire_header (pHeader p) ++ Payload p ++ wire_padding (PaddingSize p).

(** ** Well-formed packets: every field fits its place in the layout *)

Definition elem_ok (h : Header) (e : Extension) : Prop :=
  Forall is_byte (ext_payload e) ∧
  if ExtensionProfile h =? extensionProfileOneByte then
    1 ≤ ext_id e ≤ 14 ∧ (1 <= length (ext_payload e) <= 16)%nat
  else if ExtensionProfile h =? extensionProfileTwoByte then
    1 ≤ ext_id e ≤ 255 ∧ (length (ext_payload e) <= 255)%nat
  else ext_id e = 0 ∧ (length (ext_payload e) mod 4 = 0)%nat.

Definition extensions_ok (h : Header) : Prop :=
  if HasExtension h then
    is_u16 (ExtensionProfile h) ∧ Forall (elem_ok h) (Extensions h) ∧
    Z.of_nat (ext_words h) < 2 ^ 16 ∧
    (ExtensionProfile h <> extensionProfileOneByte → ExtensionProfile h <> extensionProfileTwoByte →
     length (Extensions h) = 1%nat)
  else ExtensionProfile h = 0 ∧ Extensions h = [].

Record header_ok (h : Header) : Prop := {
  hk_version : 0 ≤ Version h < 4;
  hk_type : 0 ≤ PayloadType h < 128;
  hk_seq : is_u16 (SequenceNumber h);
  hk_ts : is_u32 (Timestamp h);
  hk_ssrc : is_u32 (SSRC h);
  hk_csrc : Forall is_u32 (CSRC h);
  hk_count : (length (CSRC h) <= 15)%nat;
  hk_ext : extensions_ok h;
}.

Record packet_ok (p : Packet) : Prop := {
  pk_header : header_ok (pHeader p);
  pk_payload : Forall is_byte (Payload p);
  pk_padding : is_byte (PaddingSize p);
  pk_flag : Padding (pHeader p) = negb (PaddingSize p =? 0);
}.

(** ** Writing *)

Lemma length_csrcs l : length (flat_map be32 l) = (length l * 4)%nat.
Proof. induction l as [|x l IH]; simpl; [done|]. rewrite IH. lia. Qed.

(** Both sides are the same up to arithmetic in what is left of the buffer. *)
Ltac tail_eq := rewrite ?drop_drop; buf_eq.

Lemma write_csrc_spec l pre t n :
  length pre = n → (length l * 4 <= length t)%nat →
  write_csrc (pre ++ t) n l =
  Ok ((pre ++ flat_map be32 l) ++ drop (length l * 4) t, (n + length l * 4)%nat).
Proof.
  revert pre t n. induction l as [|x l IH]; intros pre t n Hn Hk; cbn [write_csrc flat_map length] in *.
  - rewrite app_nil_r. tail_eq.
  - rewrite put_tail by (simpl; lia). rewrite bind_Ok, length_be32.
    rewrite IH by (rewrite ?length_app, ?length_be32, ?length_drop; lia).
    rewrite <- !app_assoc. tail_eq.
Qed.

Lemma write_one_byte_spec l pre t n :
  length pre = n → (length (flat_map one_byte_elem l) <= length t)%nat →
  write_one_byte (pre ++ t) n l =
  Ok ((pre ++ flat_map one_byte_elem l) ++ drop (length (flat_map one_byte_elem l)) t,
      (n + length (flat_map one_byte_elem l))%nat).
Proof.
  revert pre t n. induction l as [|e l IH]; intros pre t n Hn Hk.
  - simpl in *. rewrite app_nil_r. tail_eq.
  - cbn [write_one_byte flat_map]. fold (one_byte_head e). cbn [flat_map] in Hk.
    rewrite (one_byte_elem_eq e) in Hk. rewrite !length_app in Hk. cbn [length] in Hk.
    rewrite put_tail by (simpl; lia). rewrite bind_Ok. cbn [length].
    rewrite copy_tail by (rewrite ?length_app, ?length_drop; simpl; lia). rewrite bind_Ok. cbn [fst snd].
    rewrite IH by (rewrite ?length_app, ?length_drop; simpl; lia).
    rewrite (one_byte_elem_eq e), !length_app, <- !app_assoc.
    cbn [length]. tail_eq.
Qed.

Lemma write_two_byte_spec l pre t n :
  length pre = n → (length (flat_map two_byte_elem l) <= length t)%nat →
  write_two_byte (pre ++ t) n l =
  Ok ((pre ++ flat_map two_byte_elem l) ++ drop (length (flat_map two_byte_elem l)) t,
      (n + length (flat_map two_byte_elem l))%nat).
Proof.
  revert pre t n. induction l as [|e l IH]; intros pre t n Hn Hk.
  - simpl in *. rewrite app_nil_r. tail_eq.
  - cbn [write_two_byte flat_map]. cbn [flat_map] in Hk.
    rewrite (two_byte_elem_eq e) in Hk. rewrite !length_app in Hk. cbn [length] in Hk.
    rewrite put_tail by (simpl; lia). rewrite bind_Ok. cbn [length].
    rewrite put_tail by (rewrite ?length_app, ?length_drop; simpl; lia). rewrite bind_Ok. cbn [length].
    rewrite copy_tail by (rewrite ?length_app, ?length_drop; simpl; lia). rewrite bind_Ok. cbn [fst snd].
    rewrite IH by (rewrite ?length_app, ?length_drop; simpl; lia).
    rewrite (two_byte_elem_eq e), !length_app, <- !app_assoc.
    cbn [length]. tail_eq.
Qed.

Lemma one_byte_size_eq l : one_byte_size l = (4 + length (flat_map one_byte_elem l))%nat.
Proof.
  unfold one_byte_size. generalize 4%nat. induction l as [|e l IH]; intros a; cbn [foldl flat_map].
  - simpl. lia.
  - rewrite IH, one_byte_elem_eq, !length_app. cbn [length]. lia.
Qed.

Lemma two_byte_size_eq l : two_byte_size l = (4 + length (flat_map two_byte_elem l))%nat.
Proof.
  unfold two_byte_size. generalize 4%nat. induction l as [|e l IH]; intros a; cbn [foldl flat_map].
  - simpl. lia.
  - rewrite IH, two_byte_elem_eq, !length_app. cbn [length]. lia.
Qed.

Lemma ext_words_bound h : (length (ext_body h) <= ext_words h * 4)%nat.
Proof.
  unfold ext_words. pose proof (Nat.div_mod_eq (length (ext_body h) + 3) 4).
  pose proof (Nat.mod_upper_bound (length (ext_body h) + 3) 4). lia.
Qed.

Lemma length_wire_header h :
  length (wire_header h) =
  (12 + length (CSRC h) * 4 + if HasExtension h then 4 + ext_words h * 4 else 0)%nat.
Proof.
  unfold wire_header. rewrite !length_app, length_csrcs.
  unfold wire_fixed, wire_ext. cbn [length]. rewrite !length_app, length_be16, !length_be32.
  destruct (HasExtension h); [|simpl; lia].
  rewrite !length_app, !length_be16, length_zeros. pose proof (ext_words_bound h). lia.
Qed.

(** The body of an extension of another profile is its only payload. *)
Lemma ext_body_raw h e :
  ExtensionProfile h <> extensionProfileOneByte → ExtensionProfile h <> extensionProfileTwoByte →
  Extensions h = [e] → ext_body h = ext_payload e.
Proof.
  intros H1 H2 He. unfold ext_body. rewrite (proj2 (Z.eqb_neq _ _) H1), (proj2 (Z.eqb_neq _ _) H2), He.
  simpl. by rewrite app_nil_r.
Qed.

Lemma raw_extension h :
  HasExtension h = true → extensions_ok h →
  ExtensionProfile h <> extensionProfileOneByte → ExtensionProfile h <> extensionProfileTwoByte →
  ∃ p, Extensions h = [MkExtension 0 p] ∧ (length p mod 4 = 0)%nat ∧ Forall is_byte p.
Proof.
  unfold extensions_ok. intros -> (_ & Hf & _ & Hl) H1 H2. specialize (Hl H1 H2).
  destruct (Extensions h) as [|[id p] [|]]; try done. inversion Hf as [|? ? Hk]; subst.
  unfold elem_ok in Hk. rewrite (proj2 (Z.eqb_neq _ _) H1), (proj2 (Z.eqb_neq _ _) H2) in Hk.
  destruct Hk as (Hb & Hid & Hm). simpl in *. subst. eauto.
Qed.

Lemma round4_add n : ((4 + n + 3) / 4 * 4 = 4 + (n + 3) / 4 * 4)%nat.
Proof.
  replace (4 + n + 3)%nat with (1 * 4 + (n + 3))%nat by lia. rewrite Nat.div_add_l by lia. lia.
Qed.

Lemma Header_MarshalSize_spec h : extensions_ok h →
  Header_MarshalSize h = Ok (length (wire_header h)).
Proof.
  intros Hx. rewrite length_wire_header. unfold Header_MarshalSize, csrcLength.
  destruct (HasExtension h) eqn:He; [|buf_eq].
  unfold ext_words, ext_body.
  destruct (ExtensionProfile h =? extensionProfileOneByte) eqn:H1.
  { rewrite one_byte_size_eq, bind_Ok, round4_add. buf_eq. }
  destruct (ExtensionProfile h =? extensionProfileTwoByte) eqn:H2.
  { rewrite two_byte_size_eq, bind_Ok, round4_add. buf_eq. }
  apply Z.eqb_neq in H1, H2. destruct (raw_extension h He Hx H1 H2) as (p & -> & _ & _).
  cbn [flat_map take ext_payload]. rewrite bind_Ok, round4_add, app_nil_r. buf_eq.
Qed.

(** The elements of the extension are written one after the other. *)
Lemma write_elements_spec h pre t n :
  HasExtension h = true → extensions_ok h → length pre = n → (length (ext_body h) <= length t)%nat →
  (if ExtensionProfile h =? extensionProfileOneByte then write_one_byte (pre ++ t) n (Extensions h)
   else if ExtensionProfile h =? extensionProfileTwoByte
   then write_two_byte (pre ++ t) n (Extensions h)
   else match Extensions h with
        | e :: _ =>
            _ ← fail_if (negb (length (ext_payload e) mod 4 =? 0)%nat) ErrShortBuffer;
            c ← copy_at (pre ++ t) n (ext_payload e);
            Ok (c.1, (n + c.2)%nat)
        | [] => Panic
        end) =
  Ok ((pre ++ ext_body h) ++ drop (length (ext_body h)) t, (n + length (ext_body h))%nat).
Proof.
  intros He Hx Hn Hk.
  destruct (decide (ExtensionProfile h = extensionProfileOneByte)) as [H1|H1].
  { unfold ext_body in *. rewrite (proj2 (Z.eqb_eq _ _) H1) in *. by apply write_one_byte_spec. }
  destruct (decide (ExtensionProfile h = extensionProfileTwoByte)) as [H2|H2].
  { unfold ext_body in *. rewrite (proj2 (Z.eqb_neq _ _) H1), (proj2 (Z.eqb_eq _ _) H2) in *.
    by apply write_two_byte_spec. }
  destruct (raw_extension h He Hx H1 H2) as (p & Hp & Hm & _).
  rewrite (ext_body_raw h _ H1 H2 Hp) in *.
  rewrite (proj2 (Z.eqb_neq _ _) H1), (proj2 (Z.eqb_neq _ _) H2), Hp. cbn [ext_payload] in *.
  rewrite Hm. cbn [Nat.eqb negb fail_if]. rewrite bind_Ok, copy_tail by done. by rewrite bind_Ok.
Qed.

Lemma write_extension_spec h pre t n :
  HasExtension h = true → extensions_ok h → length pre = n → (4 + ext_words h * 4 <= length t)%nat →
  write_extension h (pre ++ t) n =
  Ok ((pre ++ wire_ext h) ++ drop (4 + ext_words h * 4) t, (n + (4 + ext_words h * 4))%nat).
Proof.
  intros He Hx Hn Hk. pose proof (ext_words_bound h) as Hw.
  unfold write_extension, wire_ext. rewrite He.
  rewrite put_tail by (rewrite ?length_be16; lia). rewrite bind_Ok, length_be16.
  rewrite <- (take_drop 2 (drop 2 t)), app_assoc.
  rewrite write_elements_spec by (rewrite ?length_app, ?length_be16, ?length_take, ?length_drop, ?length_zeros; lia || done).
  rewrite bind_Ok. cbv beta iota.
  replace (n + 4 + length (ext_body h) - (n + 4))%nat with (length (ext_body h)) by lia.
  fold (ext_words h). rewrite Nat.div_mul by lia.
  rewrite <- !app_assoc, (app_assoc pre).
  rewrite put_app by (rewrite ?length_app, ?length_be16, ?length_take, ?length_drop, ?length_zeros; lia). rewrite bind_Ok.
  rewrite !app_assoc, put_tail
    by (rewrite ?length_app, ?length_be16, ?length_take, ?length_drop, ?length_zeros; lia). rewrite bind_Ok, length_zeros.
  rewrite <- !app_assoc. tail_eq.
Qed.

(** The header is written over whatever the buffer holds. *)
Lemma Header_MarshalTo_over h t :
  extensions_ok h → (length (wire_header h) <= length t)%nat →
  Header_MarshalTo h t = Ok (wire_header h ++ drop (length (wire_header h)) t, length (wire_header h)).
Proof.
  intros Hx Hn. unfold Header_MarshalTo. rewrite Header_MarshalSize_spec by done.
  rewrite bind_Ok, fail_if_false by (apply Nat.ltb_ge; lia). rewrite bind_Ok.
  rewrite length_wire_header in *. unfold wire_header.
  rewrite <- (app_nil_l t) at 1. rewrite put_tail by (rewrite ?length_drop; simpl; lia). rewrite bind_Ok. cbn [length].
  rewrite put_tail by (rewrite ?length_drop; simpl; lia). rewrite bind_Ok. cbn [length].
  rewrite put_tail by (rewrite ?length_be16, ?length_drop; simpl; lia). rewrite bind_Ok, length_be16.
  rewrite put_tail by (rewrite ?length_be32, ?length_drop; simpl; lia). rewrite bind_Ok, length_be32.
  rewrite put_tail by (rewrite ?length_be32, ?length_drop; simpl; lia). rewrite bind_Ok, length_be32.
  rewrite write_csrc_spec by (rewrite ?length_drop; simpl; lia). rewrite bind_Ok. cbn [fst snd].
  destruct (HasExtension h) eqn:He.
  - rewrite write_extension_spec; [| done | done | | rewrite ?length_drop; lia].
    + unfold wire_fixed. rewrite <- !app_assoc. cbn [app]. rewrite <- !app_assoc. tail_eq.
    + rewrite !length_app, length_csrcs. simpl. lia.
  - unfold wire_ext, wire_fixed. rewrite He, !app_nil_r. rewrite <- !app_assoc. cbn [app].
    rewrite <- !app_assoc. tail_eq.
Qed.

Lemma Header_MarshalTo_spec h n :
  extensions_ok h → (length (wire_header h) <= n)%nat →
  Header_MarshalTo h (zeros n) =
  Ok (wire_header h ++ zeros (n - length (wire_header h)), length (wire_header h)).
Proof. intros Hx Hn. rewrite Header_MarshalTo_over by (rewrite ?length_zeros; done). by rewrite drop_zeros. Qed.

Lemma set_padding_id p : packet_ok p → set_padding (negb (PaddingSize p =? 0)) (pHeader p) = pHeader p.
Proof. intros Hp. rewrite <- (pk_flag p Hp). by destruct (pHeader p). Qed.

Lemma length_wire_padding ps : is_byte ps → length (wire_padding ps) = Z.to_nat ps.
Proof.
  unfold wire_padding, is_byte. intros H. destruct (Z.eqb_spec ps 0) as [->|Hn]; [done|].
  rewrite length_app, length_zeros. simpl. lia.
Qed.

(** [Marshal] fills its buffer with the layout. *)
Lemma Packet_Marshal_wire p : packet_ok p → Packet_Marshal p = Ok (wire_packet p).
Proof.
  intros Hp. pose proof (hk_ext _ (pk_header p Hp)) as Hx.
  pose proof (pk_padding p Hp) as Hb. pose proof (length_wire_padding _ Hb) as Hlp.
  unfold Packet_Marshal, Packet_MarshalSize. rewrite Header_MarshalSize_spec, !bind_Ok by done.
  unfold Packet_MarshalTo. rewrite set_padding_id by done.
  rewrite Header_MarshalTo_spec by (lia || done). rewrite bind_Ok. cbv beta iota.
  rewrite fail_if_false by (apply Nat.ltb_ge; rewrite length_app, length_zeros; lia).
  rewrite bind_Ok, copy_zeros by (lia || done). rewrite bind_Ok. cbv beta iota.
  rewrite (pk_flag p Hp). unfold wire_packet.
  unfold wire_padding in *. unfold is_byte in Hb.
  destruct (Z.eqb_spec (PaddingSize p) 0) as [H0|H0]; cbn [negb]; cbv iota.
  - rewrite !bind_Ok, H0. cbn [fst snd]. rewrite app_nil_r. f_equal.
    rewrite take_app_le by (rewrite length_app; simpl; lia).
    rewrite take_ge by (rewrite length_app; simpl; lia). done.
  - rewrite u8_small by (unfold is_byte; lia).
    replace (_ - _ - length (Payload p))%nat
      with (Z.to_nat (PaddingSize p - 1) + 1)%nat by lia.
    rewrite zeros_add, app_assoc, <- (app_nil_r (zeros 1)), put_app; cycle 1.
    { rewrite !length_app, length_zeros. lia. } { done. }
    rewrite !bind_Ok. cbn [fst snd]. rewrite app_nil_r. f_equal.
    rewrite <- !app_assoc. apply take_ge. rewrite !length_app, length_zeros. simpl. lia.
Qed.

(** ** Reading *)

Definition byte0_fields (v c : Z) (p x : bool) : bool :=
  let b := Z.lor (u8 (Z.shiftl v 6)) (u8 c) in
  let b := if p then Z.lor b (Z.shiftl 1 5) else b in
  let b := if x then Z.lor b (Z.shiftl 1 4) else b in
  (Z.land (Z.shiftr b 6) 3 =? v) && eqb (0 <? Z.land (Z.shiftr b 5) 1) p &&
  eqb (0 <? Z.land (Z.shiftr b 4) 1) x && (Z.land b 15 =? c) && (0 <=? b) && (b <? 256).

Lemma byte0_fields_true v c p x : 0 ≤ v < 4 → 0 ≤ c < 16 → byte0_fields v c p x = true.
Proof.
  intros Hv Hc. revert c Hc. apply (forall_upto 16). revert v Hv.
  apply (forall_upto 4 (λ v, forallb (λ c, byte0_fields v c p x) (map Z.of_nat (seq 0 16)))).
  by destruct p, x; vm_compute.
Qed.

Lemma header_byte0_spec h : header_ok h →
  let b := header_byte0 h in
  Z.land (Z.shiftr b 6) 3 = Version h ∧ (0 <? Z.land (Z.shiftr b 5) 1) = Padding h ∧
  (0 <? Z.land (Z.shiftr b 4) 1) = HasExtension h ∧ Z.land b 15 = Z.of_nat (length (CSRC h)) ∧
  is_byte b.
Proof.
  intros Hh. pose proof (byte0_fields_true (Version h) (Z.of_nat (length (CSRC h))) (Padding h)
    (HasExtension h) (hk_version h Hh)) as H.
  pose proof (hk_count h Hh). specialize (H ltac:(lia)).
  unfold byte0_fields in H. fold (header_byte0 h) in H. unfold is_byte.
  rewrite !andb_true_iff, !eqb_true_iff, !Z.eqb_eq in H. cbv zeta. destruct_and!. repeat split; lia || done.
Qed.

Definition byte1_fields (m : bool) (pt : Z) : bool :=
  let b := if m then Z.lor pt (Z.shiftl 1 7) else pt in
  eqb (0 <? Z.land (Z.shiftr b 7) 1) m && (Z.land b 127 =? pt).

Lemma header_byte1_spec h : header_ok h →
  (0 <? Z.land (Z.shiftr (header_byte1 h) 7) 1) = Marker h ∧ Z.land (header_byte1 h) 127 = PayloadType h.
Proof.
  intros Hh. assert (byte1_fields (Marker h) (PayloadType h) = true) as H.
  { generalize (hk_type h Hh). generalize (PayloadType h). apply (forall_upto 128).
    by destruct (Marker h); vm_compute. }
  unfold byte1_fields in H. fold (header_byte1 h) in H. rewrite andb_true_iff, eqb_true_iff, Z.eqb_eq in H. done.
Qed.

Definition one_byte_fields (id len : Z) : bool :=
  let b := Z.lor (u8 (Z.shiftl (id + 1) 4)) (u8 (u8 (len + 1) - 1)) in
  (Z.shiftr b 4 =? id + 1) && (Z.ldiff b 0xF0 + 1 =? len + 1) && negb (b =? 0).

Lemma one_byte_head_spec e :
  1 ≤ ext_id e ≤ 14 → (1 <= length (ext_payload e) <= 16)%nat →
  Z.shiftr (one_byte_head e) 4 = ext_id e ∧
  Z.ldiff (one_byte_head e) 0xF0 + 1 = Z.of_nat (length (ext_payload e)) ∧ one_byte_head e <> 0.
Proof.
  intros Hid Hl. assert (∀ id len, 0 ≤ id < 14 → 0 ≤ len < 16 → one_byte_fields id len = true) as H.
  { intros id len H1 H2. revert len H2. apply (forall_upto 16). revert id H1.
    apply (forall_upto 14 (λ id, forallb (one_byte_fields id) (map Z.of_nat (seq 0 16)))).
    by vm_compute. }
  specialize (H (ext_id e - 1) (Z.of_nat (length (ext_payload e)) - 1) ltac:(lia) ltac:(lia)).
  unfold one_byte_fields in H. rewrite !Z.sub_add in H. fold (one_byte_head e) in H.
  rewrite !andb_true_iff, negb_true_iff in H. lia.
Qed.

Lemma read_csrc_spec l b off r :
  Forall is_u32 l → drop off (s_bytes b) = flat_map be32 l ++ r →
  read_csrc b off (length l) = Ok l.
Proof.
  revert off. induction l as [|x l IH]; intros off Hl H; [done|].
  inversion Hl as [|? ? Hx Hl']; subst. cbn [length read_csrc].
  cbn [flat_map] in H. rewrite <- app_assoc in H.
  rewrite (get32_at_be b off x _ Hx H), bind_Ok.
  rewrite (IH (off + csrcLength)%nat); [done | done |].
  by eapply drop_app_inv.
Qed.

Section elements.
Context (b : slice) (Hb : (s_len b <= s_cap b)%nat).

(** The zeros that pad the extension to a 32-bit boundary are skipped. *)
Lemma one_byte_padding k n acc fuel r :
  drop n (s_bytes b) = zeros k ++ r → (k < fuel)%nat →
  one_byte_loop fuel b n (n + k) acc = Ok (acc, (n + k)%nat).
Proof.
  revert n fuel. induction k as [|k IH]; intros n [|fuel] H Hf; [lia | | lia |]; simpl.
  - rewrite Nat.add_0_r, Nat.ltb_irrefl. done.
  - rewrite (proj2 (Nat.ltb_lt _ _)) by lia. rewrite (s_idx_at _ _ _ _ Hb H), bind_Ok. simpl.
    rewrite <- Nat.add_succ_comm. apply IH; [|lia].
    apply (drop_app_inv _ [0] (zeros k ++ r) n); [done | simpl; lia].
Qed.

Lemma two_byte_padding k n acc fuel r :
  drop n (s_bytes b) = zeros k ++ r → (k < fuel)%nat →
  two_byte_loop fuel b n (n + k) acc = Ok (acc, (n + k)%nat).
Proof.
  revert n fuel. induction k as [|k IH]; intros n [|fuel] H Hf; [lia | | lia |]; simpl.
  - rewrite Nat.add_0_r, Nat.ltb_irrefl. done.
  - rewrite (proj2 (Nat.ltb_lt _ _)) by lia. rewrite (s_idx_at _ _ _ _ Hb H), bind_Ok. simpl.
    rewrite <- Nat.add_succ_comm. apply IH; [|lia].
    apply (drop_app_inv _ [0] (zeros k ++ r) n); [done | simpl; lia].
Qed.

Lemma one_byte_loop_spec l k n acc fuel r :
  Forall (λ e, 1 ≤ ext_id e ≤ 14 ∧ (1 <= length (ext_payload e) <= 16)%nat) l →
  drop n (s_bytes b) = flat_map one_byte_elem l ++ zeros k ++ r →
  (length (flat_map one_byte_elem l) + k < fuel)%nat →
  one_byte_loop fuel b n (n + length (flat_map one_byte_elem l) + k) acc =
  Ok (acc ++ l, (n + length (flat_map one_byte_elem l) + k)%nat).
Proof.
  revert n acc fuel. induction l as [|e l IH]; intros n acc fuel Hl H Hf.
  { rewrite app_nil_r. simpl in *. rewrite Nat.add_0_r. by eapply one_byte_padding. }
  inversion Hl as [|? ? [Hid Hlen] Hl']; subst. cbn [flat_map] in *.
  destruct (one_byte_head_spec e Hid Hlen) as (Hs & Hd & Hz).
  rewrite one_byte_elem_eq, <- !app_assoc in H. rewrite one_byte_elem_eq, !length_app in *.
  cbn [length] in *. destruct fuel as [|fuel]; [lia|]. cbn [one_byte_loop].
  rewrite (proj2 (Nat.ltb_lt _ _)) by lia. rewrite (s_idx_at _ _ _ _ Hb H), bind_Ok.
  rewrite (proj2 (Z.eqb_neq _ _) Hz), Hs, Hd, Nat2Z.id.
  rewrite (proj2 (Z.eqb_neq _ _)) by (unfold extensionIDReserved; lia).
  apply (drop_app_inv _ _ _ _ (S n)) in H; [|simpl; lia].
  pose proof (drop_s_bytes_len b (S n) _ _ Hb H) as Hn.
  destruct (s_sub_bytes (E := rtp_err) b (S n) (S n + length (ext_payload e)) _ _ Hb H)
    as (c & Hc & Hcb & _); [done | destruct (ext_payload e); [simpl in *; lia|]; specialize (Hn ltac:(done)); lia |].
  rewrite Hc, bind_Ok, Hcb. destruct e as [id p]. cbn [ext_id ext_payload] in *.
  replace (n + (1 + length p + length (flat_map one_byte_elem l)) + k)%nat
    with ((S n + length p) + length (flat_map one_byte_elem l) + k)%nat by lia.
  rewrite IH; [by rewrite <- app_assoc | done | by eapply drop_app_inv | lia].
Qed.

Lemma two_byte_loop_spec l k n acc fuel r :
  Forall (λ e, 1 ≤ ext_id e ≤ 255 ∧ (length (ext_payload e) <= 255)%nat) l →
  drop n (s_bytes b) = flat_map two_byte_elem l ++ zeros k ++ r →
  (length (flat_map two_byte_elem l) + k < fuel)%nat →
  two_byte_loop fuel b n (n + length (flat_map two_byte_elem l) + k) acc =
  Ok (acc ++ l, (n + length (flat_map two_byte_elem l) + k)%nat).
Proof.
  revert n acc fuel. induction l as [|e l IH]; intros n acc fuel Hl H Hf.
  { rewrite app_nil_r. simpl in *. rewrite Nat.add_0_r. by eapply two_byte_padding. }
  inversion Hl as [|? ? [Hid Hlen] Hl']; subst. cbn [flat_map] in *.
  rewrite two_byte_elem_eq, <- !app_assoc in H. rewrite two_byte_elem_eq, !length_app in *.
  cbn [length] in *. destruct fuel as [|fuel]; [lia|]. cbn [two_byte_loop].
  rewrite (proj2 (Nat.ltb_lt _ _)) by lia. rewrite (s_idx_at _ _ _ _ Hb H), bind_Ok.
  rewrite (proj2 (Z.eqb_neq _ _)) by lia.
  apply (drop_app_inv _ _ _ _ (S n)) in H; [|simpl; lia].
  rewrite (s_idx_at _ _ _ _ Hb H), bind_Ok.
  rewrite u8_small, Nat2Z.id by (unfold is_byte; lia).
  pose proof (drop_s_bytes_len b (S n) _ _ Hb H ltac:(done)) as Hn. cbn [length] in Hn.
  rewrite !length_app in Hn.
  apply (drop_app_inv _ _ _ _ (S (S n))) in H; [|simpl; lia].
  destruct (s_sub_bytes (E := rtp_err) b (S (S n)) (S (S n) + length (ext_payload e)) _ _ Hb H)
    as (c & Hc & Hcb & _); [done | lia |].
  rewrite Hc, bind_Ok, Hcb. destruct e as [id p]. cbn [ext_id ext_payload] in *.
  replace (n + (1 + (1 + length p) + length (flat_map two_byte_elem l)) + k)%nat
    with ((S (S n) + length p) + length (flat_map two_byte_elem l) + k)%nat by lia.
  rewrite IH; [by rewrite <- app_assoc | done | by eapply drop_app_inv | lia].
Qed.
Lemma one_byte_loop_at l n k r :
  Forall (λ e, 1 ≤ ext_id e ≤ 14 ∧ (1 <= length (ext_payload e) <= 16)%nat) l →
  drop n (s_bytes b) =
    flat_map one_byte_elem l ++ zeros (k - length (flat_map one_byte_elem l)) ++ r →
  (length (flat_map one_byte_elem l) <= k)%nat →
  one_byte_loop (S k) b n (n + k) [] = Ok (l, (n + k)%nat).
Proof.
  intros Hl H Hk.
  replace (n + k)%nat with (n + length (flat_map one_byte_elem l) +
    (k - length (flat_map one_byte_elem l)))%nat by lia.
  rewrite (one_byte_loop_spec l _ n [] (S k) r); [done | done | done | lia].
Qed.

Lemma two_byte_loop_at l n k r :
  Forall (λ e, 1 ≤ ext_id e ≤ 255 ∧ (length (ext_payload e) <= 255)%nat) l →
  drop n (s_bytes b) =
    flat_map two_byte_elem l ++ zeros (k - length (flat_map two_byte_elem l)) ++ r →
  (length (flat_map two_byte_elem l) <= k)%nat →
  two_byte_loop (S k) b n (n + k) [] = Ok (l, (n + k)%nat).
Proof.
  intros Hl H Hk.
  replace (n + k)%nat with (n + length (flat_map two_byte_elem l) +
    (k - length (flat_map two_byte_elem l)))%nat by lia.
  rewrite (two_byte_loop_spec l _ n [] (S k) r); [done | done | done | lia].
Qed.
End elements.

Lemma ext_words_raw n : (n mod 4 = 0)%nat → ((n + 3) / 4 * 4 = n)%nat.
Proof.
  intros H. pose proof (Nat.div_mod_eq n 4) as Hn. rewrite H in Hn.
  replace (n + 3)%nat with (n / 4 * 4 + 3)%nat by lia. rewrite Nat.div_add_l, (Nat.div_small 3 4) by lia. lia.
Qed.

Lemma read_elements_spec h b n r :
  HasExtension h = true → extensions_ok h → (s_len b <= s_cap b)%nat →
  drop n (s_bytes b) = ext_body h ++ zeros (ext_words h * 4 - length (ext_body h)) ++ r →
  (n + ext_words h * 4 <= s_len b)%nat →
  (if ExtensionProfile h =? extensionProfileOneByte then
     r ← one_byte_loop (S (ext_words h * 4)) b n (n + ext_words h * 4) [];
     Ok (ExtensionProfile h, r.1, r.2)
   else if ExtensionProfile h =? extensionProfileTwoByte then
     r ← two_byte_loop (S (ext_words h * 4)) b n (n + ext_words h * 4) [];
     Ok (ExtensionProfile h, r.1, r.2)
   else
     _ ← fail_if (s_len b <? n + ext_words h * 4)%nat errHeaderSizeInsufficientForExtension;
     p ← s_sub b n (n + ext_words h * 4);
     Ok (ExtensionProfile h, [MkExtension 0 (s_bytes p)], (n + length (s_bytes p))%nat)) =
  Ok (ExtensionProfile h, Extensions h, (n + ext_words h * 4)%nat).
Proof.
  intros He Hx Hb H Hn. pose proof Hx as Hx'. unfold extensions_ok in Hx. rewrite He in Hx.
  destruct Hx as (Hp & Hf & Hw & _). pose proof (ext_words_bound h) as Hbd.
  destruct (decide (ExtensionProfile h = extensionProfileOneByte)) as [H1|H1].
  { unfold ext_words, ext_body in *. rewrite (proj2 (Z.eqb_eq _ _) H1) in *.
    rewrite (one_byte_loop_at b Hb (Extensions h) n _ r); [done | | done | done].
    eapply Forall_impl; [done|]. intros e [_ He']. by rewrite H1 in He'. }
  destruct (decide (ExtensionProfile h = extensionProfileTwoByte)) as [H2|H2].
  { unfold ext_words, ext_body in *.
    rewrite (proj2 (Z.eqb_neq _ _) H1), (proj2 (Z.eqb_eq _ _) H2) in *.
    rewrite (two_byte_loop_at b Hb (Extensions h) n _ r); [done | | done | done].
    eapply Forall_impl; [done|]. intros e [_ He'].
    rewrite (proj2 (Z.eqb_neq _ _) H1), (proj2 (Z.eqb_eq _ _) H2) in He'. done. }
  destruct (raw_extension h He Hx' H1 H2) as (p & Hp' & Hm & _).
  unfold ext_words in *. rewrite (ext_body_raw h _ H1 H2 Hp') in *. cbn [ext_payload] in *.
  rewrite ext_words_raw in * by done. rewrite Nat.sub_diag in H. simpl in H.
  rewrite (proj2 (Z.eqb_neq _ _) H1), (proj2 (Z.eqb_neq _ _) H2), Hp'.
  rewrite fail_if_false, bind_Ok by (apply Nat.ltb_ge; lia).
  destruct (s_sub_bytes (E := rtp_err) b n (n + length p) _ _ Hb H) as (c & Hc & Hcb & _); [done..|].
  by rewrite Hc, bind_Ok, Hcb.
Qed.

Lemma read_extension_spec h b n r :
  HasExtension h = true → extensions_ok h → (s_len b <= s_cap b)%nat →
  drop n (s_bytes b) = wire_ext h ++ r →
  read_extension b n =
  Ok (ExtensionProfile h, Extensions h, (n + (4 + ext_words h * 4))%nat).
Proof.
  intros He Hx Hb H. unfold wire_ext in H. rewrite He, <- !app_assoc in H.
  pose proof (drop_s_bytes_len b n _ _ Hb H ltac:(done)) as Hn.
  rewrite !length_app, !length_be16, length_zeros in Hn. pose proof (ext_words_bound h) as Hw.
  assert (is_u16 (ExtensionProfile h) ∧ is_u16 (Z.of_nat (ext_words h))) as [Hp Hu].
  { unfold extensions_ok in Hx. rewrite He in Hx. destruct Hx as (? & _ & ? & _).
    split; [done|]. unfold is_u16. lia. }
  unfold read_extension. cbv zeta. rewrite fail_if_false, bind_Ok by (apply Nat.ltb_ge; lia).
  rewrite (get16_at_be b n _ _ Hp H), bind_Ok.
  apply (drop_app_inv _ _ _ _ (n + 2)) in H; [|by rewrite length_be16].
  rewrite (u16_small _ Hu) in H. rewrite (get16_at_be b _ _ _ Hu H), bind_Ok.
  apply (drop_app_inv _ _ _ _ (n + 2 + 2)) in H; [|by rewrite length_be16].
  replace (Z.to_nat (Z.of_nat (ext_words h) * 4)) with (ext_words h * 4)%nat by lia.
  rewrite fail_if_false at 1 by (apply Nat.ltb_ge; lia). rewrite bind_Ok.
  etransitivity; [apply (read_elements_spec h b _ r He Hx Hb H); lia | buf_eq].
Qed.

(** What stands in the fixed part is read back, and the rest as far as the
    header goes. *)
Lemma rtp_header_unmarshal_wire h h0 b r :
  header_ok h → (HasExtension h = false → ExtensionProfile h0 = 0) →
  (s_len b <= s_cap b)%nat → s_bytes b = wire_header h ++ r →
  Header_Unmarshal h0 b = Ok (h, length (wire_header h)).
Proof.
  intros Hh H0 Hb H. pose proof (drop_s_bytes_len b 0 _ _ Hb H ltac:(done)) as Hn.
  rewrite length_wire_header in Hn.
  destruct (header_byte0_spec h Hh) as (Hv & Hp & Hx & Hc & _). destruct (header_byte1_spec h Hh) as [Hm Ht].
  unfold wire_header, wire_fixed in H. rewrite <- !app_assoc in H. cbn [app] in H.
  rewrite <- !app_assoc in H. change (s_bytes b) with (drop 0 (s_bytes b)) in H.
  unfold Header_Unmarshal, headerLength, csrcOffset, csrcLength.
  rewrite fail_if_false, bind_Ok by (apply Nat.ltb_ge; lia).
  rewrite (s_idx_at b 0 _ _ Hb H), bind_Ok. rewrite Hv, Hp, Hx, Hc, Nat2Z.id.
  rewrite fail_if_false, bind_Ok by (apply Nat.ltb_ge; lia).
  apply (drop_app_inv _ [header_byte0 h] _ _ 1) in H; [|done].
  rewrite (s_idx_at b 1 _ _ Hb H), bind_Ok, Hm, Ht.
  apply (drop_app_inv _ [header_byte1 h] _ _ 2) in H; [|done].
  rewrite (get16_sub b 2 4 _ _ _ (hk_seq h Hh) Hb H eq_refl).
  apply (drop_app_inv _ _ _ _ 4) in H; [|done].
  rewrite (get32_sub b 4 8 _ _ _ (hk_ts h Hh) Hb H eq_refl).
  apply (drop_app_inv _ _ _ _ 8) in H; [|done].
  rewrite (get32_sub b 8 12 _ _ _ (hk_ssrc h Hh) Hb H eq_refl).
  apply (drop_app_inv _ _ _ _ 12) in H; [|done].
  rewrite (read_csrc_spec (CSRC h) b 12 _ (hk_csrc h Hh) H), bind_Ok.
  apply (drop_app_inv _ _ _ _ (12 + length (CSRC h) * 4)) in H; [|by rewrite length_csrcs].
  rewrite length_wire_header. pose proof (hk_ext h Hh) as Hk. destruct (HasExtension h) eqn:He.
  - rewrite (read_extension_spec h b _ r He Hk Hb H), bind_Ok. cbn [fst snd].
    destruct h; simpl in *; subst. buf_eq.
  - unfold extensions_ok in Hk. rewrite He in Hk. destruct Hk as [Hk1 Hk2].
    destruct h; simpl in *; subst. rewrite H0 by done. buf_eq.
Qed.

(** [Marshal], which computes a size, allocates a buffer and fills it by
    offsets (padding the extension block after the fact), writes exactly the
    layout of RFC 3550 / RFC 8285: the fields one after the other, and the size
    it computes beforehand is the size of what it writes. *)
Theorem marshal_layout p : packet_ok p →
  Packet_Marshal p = Ok (wire_packet p) ∧ Packet_MarshalSize p = Ok (length (wire_packet p)).
Proof.
  intros Hp. split; [by apply Packet_Marshal_wire|].
  unfold Packet_MarshalSize. rewrite Header_MarshalSize_spec by apply Hp. rewrite bind_Ok.
  unfold wire_packet. rewrite !length_app, length_wire_padding by apply Hp. buf_eq.
Qed.

(** Reading the layout, from a slice that may have room behind it. *)
Lemma Packet_Unmarshal_wire p b :
  packet_ok p → (s_len b <= s_cap b)%nat → s_bytes b = wire_packet p →
  Packet_Unmarshal empty_packet b = Ok p.
Proof.
  intros Hp Hb H. pose proof (pk_padding p Hp) as Hps. pose proof (length_wire_padding _ Hps) as Hlp.
  pose proof (length_s_bytes b Hb) as Hl. rewrite H in Hl. unfold wire_packet in Hl, H.
  rewrite !length_app in Hl. unfold Packet_Unmarshal.
  rewrite (rtp_header_unmarshal_wire (pHeader p) (pHeader empty_packet) b _ (pk_header p Hp) (λ _, eq_refl) Hb H).
  rewrite bind_Ok. cbv beta iota zeta. rewrite (pk_flag p Hp).
  change (s_bytes b) with (drop 0 (s_bytes b)) in H. apply (drop_app_inv _ _ _ _ (length (wire_header (pHeader p)))) in H; [|done].
  set (n := length (wire_header (pHeader p))) in *. destruct p as [h pl ps]. cbn [Payload PaddingSize pHeader] in *.
  assert ((if negb (ps =? 0) then
             ps' ← s_idx b (Z.to_nat (Z.of_nat (s_len b) - 1)); Ok (ps', Z.of_nat (s_len b) - ps')
           else Ok (PaddingSize empty_packet, Z.of_nat (s_len b))) =
          Ok (ps, Z.of_nat (n + length pl)) :> res rtp_err _) as ->.
  { unfold wire_padding, is_byte in *. destruct (decide (ps = 0)) as [->|H0].
    - simpl in *. buf_eq.
    - rewrite (proj2 (Z.eqb_neq _ _) H0) in *. cbn [negb]. apply (drop_app_inv _ _ _ _ (n + length pl)) in H; [|done].
      apply (drop_app_inv _ _ _ _ (Z.to_nat (Z.of_nat (s_len b) - 1))) in H;
        [|rewrite length_zeros; lia].
      rewrite (s_idx_at _ _ _ _ Hb H), bind_Ok. buf_eq. }
  rewrite bind_Ok. cbn [fst snd].
  rewrite fail_if_false, bind_Ok by (apply Z.ltb_ge; lia). rewrite Nat2Z.id.
  destruct (s_sub_bytes (E := rtp_err) b n (n + length pl) _ _ Hb H) as (c & Hc & Hcb & _); [done | lia |].
  by rewrite Hc, bind_Ok, Hcb.
Qed.

(** C7. A well-formed packet that is written and then read is the same packet:
    from the bytes [Marshal] returns, in a slice of any capacity, [Unmarshal]
    into a fresh packet recovers every field, the CSRCs, the header extensions
    of each of the three profiles, the payload and the padding. *)
Theorem rtp_roundtrip p (slack : list Z) : packet_ok p →
  ∃ buf, Packet_Marshal p = Ok buf ∧
    Packet_Unmarshal empty_packet (Slice (buf ++ slack) (length buf)) = Ok p.
Proof.
  intros Hp. exists (wire_packet p). split; [by apply Packet_Marshal_wire|].
  apply Packet_Unmarshal_wire; [done | unfold s_cap; cbn [s_arr s_len]; rewrite length_app; lia |].
  unfold s_bytes. cbn [s_arr s_len]. apply take_app_length.
Qed.

(** ** Bounds *)

(** The two bytes a header with an extension has as its profile say two-byte
    elements. *)
Definition two_byte_profile (b : slice) : bool :=
  match s_bytes b with
  | b0 :: _ =>
      (0 <? Z.land (Z.shiftr b0 4) 1) &&
      match drop (csrcOffset + Z.to_nat (Z.land b0 0xF) * csrcLength) (s_bytes b) with
      | p0 :: p1 :: _ => word16 p0 p1 =? extensionProfileTwoByte
      | _ => false
      end
  | [] => false
  end.

(** [p] tells whether a panic is allowed; if not, the buffer has spare capacity. *)
Section bounds.
Context (p : bool) (b : slice) (Hb : s_ok b) (Hc : p = false → (s_len b + 16 <= s_cap b)%nat).

Lemma ends_read_csrc n off (Q : list Z → Prop) :
  (off + n * 4 <= s_len b)%nat →
  (∀ l, length l = n → Forall is_u32 l → Q l) → ends p (read_csrc b off n) Q.
Proof.
  revert off Q. induction n as [|n IH]; intros off Q Hn HQ; simpl; [by apply HQ|].
  apply ends_bind, ends_get32_at; [done | lia |]. intros v Hv _.
  apply ends_bind, IH; [unfold csrcLength; lia|]. intros l Hl Hf. simpl. apply HQ; [simpl; lia|].
  by constructor.
Qed.

(** An element of an extension that was read. *)
Abbreviation ext_bytes := (Forall (λ e, Forall is_byte (ext_payload e))).

Lemma ext_bytes_snoc acc i c : ext_bytes acc → s_ok c → ext_bytes (acc ++ [MkExtension i (s_bytes c)]).
Proof. intros Ha Hs. apply Forall_app. split; [done|]. constructor; [|done]. by apply s_bytes_ok. Qed.

(** An element that starts inside the extension may reach 16 bytes past its
    end, never more: with that much room the loop does not panic. *)
Lemma ends_one_byte_loop fuel n end_ acc (Q : list Extension * nat → Prop) :
  (end_ - n < fuel)%nat → (end_ <= s_len b)%nat → ext_bytes acc →
  (∀ l m, (n <= m)%nat → ext_bytes l → Q (l, m)) →
  ends p (one_byte_loop fuel b n end_ acc) Q.
Proof.
  revert n acc Q. induction fuel as [|fuel IH]; intros n acc Q Hf He Ha HQ; [lia|]. simpl.
  destruct (n <? end_)%nat eqn:Hn; [apply Nat.ltb_lt in Hn | by apply HQ].
  apply ends_bind, ends_s_idx; [done | lia |]. intros z Hz _.
  destruct (z =? 0); [apply IH; [lia | done.. |]; intros; apply HQ; [lia | done]|].
  destruct (_ =? extensionIDReserved); [apply HQ; [lia | done]|].
  assert (Z.ldiff z 0xF0 + 1 ≤ 16) as Hl.
  { apply (forall_upto 256 (λ z, Z.ldiff z 0xF0 + 1 <=? 16)) in Hz; [lia | by vm_compute]. }
  apply ends_bind, ends_s_sub; [done | intros Hp; pose proof (Hc Hp); lia |]. intros c Hcok Hclen _.
  apply IH; [lia | done | by apply ext_bytes_snoc |]. intros l m Hm Hl'. apply HQ; [lia | done].
Qed.

Lemma ends_two_byte_loop fuel n end_ acc (Q : list Extension * nat → Prop) :
  p = true → (end_ - n < fuel)%nat → ext_bytes acc →
  (∀ l m, (n <= m)%nat → ext_bytes l → Q (l, m)) →
  ends p (two_byte_loop fuel b n end_ acc) Q.
Proof.
  intros Hp. revert n acc Q. induction fuel as [|fuel IH]; intros n acc Q Hf Ha HQ; [lia|]. simpl.
  destruct (n <? end_)%nat eqn:Hn; [apply Nat.ltb_lt in Hn | by apply HQ].
  apply ends_bind, ends_s_idx; [done | by rewrite Hp |]. intros z Hz _.
  destruct (z =? 0); [apply IH; [lia | done |]; intros; apply HQ; [lia | done]|].
  apply ends_bind, ends_s_idx; [done | by rewrite Hp |]. intros k Hk _.
  apply ends_bind, ends_s_sub; [done | by rewrite Hp |]. intros c Hcok Hclen _.
  apply IH; [lia | by apply ext_bytes_snoc |]. intros l m Hm Hl'. apply HQ; [lia | done].
Qed.

Lemma two_byte_profile_false b0 r p0 p1 r' :
  s_bytes b = b0 :: r → two_byte_profile b = false →
  (0 <? Z.land (Z.shiftr b0 4) 1) = true →
  drop (csrcOffset + Z.to_nat (Z.land b0 0xF) * csrcLength) (s_bytes b) = p0 :: p1 :: r' →
  word16 p0 p1 <> extensionProfileTwoByte.
Proof.
  intros Hs H Hx Hd. unfold two_byte_profile in H. rewrite Hs in *.
  rewrite Hx, Hd in H. simpl in H. lia.
Qed.

Lemma ends_read_extension n (Q : Z * list Extension * nat → Prop) :
  (p = false → ∀ p0 p1 r, drop n (s_bytes b) = p0 :: p1 :: r → word16 p0 p1 <> extensionProfileTwoByte) →
  (∀ pr l m, is_u16 pr → (n <= m)%nat → ext_bytes l → Q (pr, l, m)) →
  ends p (read_extension b n) Q.
Proof.
  intros Ht HQ. unfold read_extension.
  apply ends_bind, ends_fail_if. intros Hn. apply Nat.ltb_ge in Hn.
  apply ends_bind. unfold get16_at at 1. apply ends_bind, ends_s_from; [done | lia |].
  intros c Hcok Hclen _ Hcb _. pose proof (length_s_bytes c (proj1 Hcok)) as Hl. unfold get16.
  destruct (s_bytes c) as [|p0 [|p1 r]] eqn:Hbs; simpl in Hl; [lia.. |]. apply ends_ret.
  assert (is_u16 (word16 p0 p1)) as Hu.
  { pose proof (s_bytes_ok c Hcok) as Hf. rewrite Hbs, !Forall_cons in Hf. apply word16_u16; apply Hf. }
  apply ends_bind, ends_get16_at; [done | lia |]. intros w Hw _.
  apply ends_bind, ends_fail_if. intros Hn2. apply Nat.ltb_ge in Hn2.
  destruct (_ =? extensionProfileOneByte).
  { apply ends_bind, ends_one_byte_loop; [lia | lia | done |].
    intros l m Hm Hlb. simpl. apply HQ; [done | lia | done]. }
  destruct (Z.eqb_spec (word16 p0 p1) extensionProfileTwoByte) as [He|Hne].
  { assert (p = true) as Hp by (destruct p; [done|]; by destruct (Ht eq_refl p0 p1 r)).
    apply ends_bind, ends_two_byte_loop; [done | lia | done |].
    intros l m Hm Hlb. simpl. apply HQ; [done | lia | done]. }
  apply ends_bind, ends_fail_if. intros _.
  apply ends_bind, ends_s_sub; [done | unfold s_ok in Hb; lia |]. intros d Hd Hdl _. simpl.
  apply HQ; [done | lia |]. constructor; [|done]. by apply s_bytes_ok.
Qed.

(** What a header that was read looks like. *)
Record header_typed (h : Header) : Prop := {
  ht_version : 0 ≤ Version h < 4;
  ht_type : 0 ≤ PayloadType h < 128;
  ht_seq : is_u16 (SequenceNumber h);
  ht_ts : is_u32 (Timestamp h);
  ht_ssrc : is_u32 (SSRC h);
  ht_csrc : Forall is_u32 (CSRC h);
  ht_count : (length (CSRC h) <= 15)%nat;
  ht_ext : Forall (λ e, Forall is_byte (ext_payload e)) (Extensions h);
}.

Lemma ends_Header_Unmarshal h0 (Q : Header * nat → Prop) :
  (p = false → two_byte_profile b = false) →
  (∀ h n, header_typed h → (12 <= n)%nat → (12 <= s_len b)%nat → Q (h, n)) →
  ends p (Header_Unmarshal h0 b) Q.
Proof.
  intros Ht HQ. unfold Header_Unmarshal, headerLength.
  apply ends_bind, ends_fail_if. intros Hn. apply Nat.ltb_ge in Hn.
  pose proof (length_s_bytes b (proj1 Hb)) as Hl. pose proof (s_bytes_ok b Hb) as Hbb.
  destruct (s_bytes b) as [|b0 r] eqn:Hbs; [simpl in Hl; lia|].
  rewrite (s_idx_at b 0 b0 r (proj1 Hb) Hbs), bind_Ok. cbv zeta.
  pose proof (land_low b0 4 0xF ltac:(lia) eq_refl) as Hcc.
  pose proof (land_low (Z.shiftr b0 6) 2 0x3 ltac:(lia) eq_refl) as Hver.
  apply ends_bind, ends_fail_if. intros Hn2. apply Nat.ltb_ge in Hn2.
  unfold csrcOffset, csrcLength in *.
  apply ends_bind, ends_s_idx; [done | lia |]. intros b1 Hb1 _.
  pose proof (land_low b1 7 0x7F ltac:(lia) eq_refl) as Hpt.
  apply ends_bind, ends_s_sub; [done | unfold s_ok in Hb; lia |]. intros c1 Hc1 Hl1 _.
  apply ends_bind, ends_get16; [done | lia |]. intros seq Hseq _.
  apply ends_bind, ends_s_sub; [done | unfold s_ok in Hb; lia |]. intros c2 Hc2 Hl2 _.
  apply ends_bind, ends_get32; [done | lia |]. intros ts Hts _.
  apply ends_bind, ends_s_sub; [done | unfold s_ok in Hb; lia |]. intros c3 Hc3 Hl3 _.
  apply ends_bind, ends_get32; [done | lia |]. intros ssrc Hssrc _.
  apply ends_bind, ends_read_csrc; [lia|]. intros l Hll Hlu.
  destruct (0 <? Z.land (Z.shiftr b0 4) 1) eqn:Hx.
  - apply ends_bind, ends_read_extension.
    + intros Hp p0 p1 r' Hd. by eapply two_byte_profile_false; [| apply Ht | |].
    + intros pr es m Hpr Hm Hes. apply ends_ret, HQ; [|simpl; lia..]. split; simpl; try done; lia.
  - apply ends_ret, HQ; [|lia..]. split; simpl; try done; try lia.
Qed.
End bounds.

(** A packet that was read: every field has its width, and header, payload and
    padding together are no longer than the buffer. *)
Record packet_typed (b : slice) (p : Packet) : Prop := {
  pt_header : header_typed (pHeader p);
  pt_payload : Forall is_byte (Payload p);
  pt_padding : Padding (pHeader p) = true → is_byte (PaddingSize p);
  pt_size : (12 + length (Payload p) + (if Padding (pHeader p) then Z.to_nat (PaddingSize p) else 0)
             <= s_len b)%nat;
}.

Lemma ends_Packet_Unmarshal p p0 b : s_ok b →
  (p = false → (s_len b + 16 <= s_cap b)%nat) → (p = false → two_byte_profile b = false) →
  ends p (Packet_Unmarshal p0 b) (packet_typed b).
Proof.
  intros Hb Hc Ht. unfold Packet_Unmarshal. apply ends_bind, ends_Header_Unmarshal; [done..|].
  intros h n Hh Hn Hl. cbv zeta beta iota.
  assert (∀ ps e, (Padding h = true → is_byte ps) →
    e = Z.of_nat (s_len b) - (if Padding h then ps else 0) →
    ends p (_ ← fail_if (e <? Z.of_nat n) errTooSmall; pl ← s_sub b n (Z.to_nat e);
            Ok (MkPacket h (s_bytes pl) ps)) (packet_typed b)) as Hend.
  { intros ps e Hps ->. apply ends_bind, ends_fail_if. intros He. apply Z.ltb_ge in He.
    pose proof (proj1 Hb). destruct (Padding h) eqn:Hp; [specialize (Hps eq_refl); unfold is_byte in Hps|];
      (apply ends_bind, ends_s_sub; [done | lia |]; intros pl Hpl Hlen _; apply ends_ret);
      pose proof (length_s_bytes pl (proj1 Hpl)); pose proof (s_bytes_ok pl Hpl);
      split; simpl; rewrite ?Hp; try done; lia. }
  destruct (Padding h) eqn:Hp.
  - apply ends_bind, ends_bind, ends_s_idx; [done | lia |]. intros ps Hps _.
    apply ends_ret. by apply Hend.
  - rewrite bind_Ok. apply Hend; [done|]. cbn [snd]. lia.
Qed.

(** C36. Reading any bytes with [Unmarshal], in a buffer of any capacity, with
    any kind of header extension, comes to an end: in an error, in a packet all
    of whose fields fit their width and whose payload and padding lie within
    the bytes read, or in a panic; and in a panic only if the header announces
    two-byte extensions or the buffer has less than 16 bytes of spare capacity
    (the forwarding loop of the server reads into 1500-byte buffers). *)
Theorem rtp_unmarshal_typed p0 b : s_ok b →
  match Packet_Unmarshal p0 b with
  | Ok p => packet_typed b p
  | Err _ => True
  | Panic => two_byte_profile b = true ∨ (s_cap b < s_len b + 16)%nat
  | Diverge => False
  end.
Proof.
  intros Hb. set (p := two_byte_profile b || (s_cap b <? s_len b + 16)%nat).
  assert (ends p (Packet_Unmarshal p0 b) (packet_typed b)) as H.
  { apply ends_Packet_Unmarshal; [done|..]; unfold p; intros [H1 H2]%orb_false_iff; [by apply Nat.ltb_ge in H2 | done]. }
  destruct (Packet_Unmarshal p0 b); simpl in H; try done. unfold p in H.
  apply orb_true_iff in H as [H|H]; [by left | right; by apply Nat.ltb_lt].
Qed.

(** A publisher's packet as the server reads it: sequence number 7, one-byte
    extension with two elements, in a buffer of 1500 bytes. *)
Definition sample_rtp : Packet :=
  MkPacket (MkHeader 2 true true true 96 7 90000 0x11223344 [5; 6] 0xBEDE
              [MkExtension 1 [10]; MkExtension 3 [1; 2; 3]])
    [200; 201; 202] 4.

Definition rtp_buffer (l : list Z) : slice := Slice (l ++ zeros (1500 - length l)) (length l).

Lemma sample_rtp_ok : packet_ok sample_rtp.
Proof.
  split; [split| | |]; simpl; unfold is_u16, is_u32, is_byte, elem_ok, extensions_ok; simpl; repeat constructor;
    unfold is_byte, is_u32; simpl; try lia; by intros [].
Qed.

Lemma marshal_layout_witness :
  Packet_Marshal sample_rtp = Ok (wire_packet sample_rtp) ∧ length (wire_packet sample_rtp) = 39%nat.
Proof. split; [apply (marshal_layout sample_rtp sample_rtp_ok) | reflexivity]. Defined.

Lemma rtp_roundtrip_witness : ∃ buf, Packet_Marshal sample_rtp = Ok buf ∧
  Packet_Unmarshal empty_packet (Slice (buf ++ [1; 2]) (length buf)) = Ok sample_rtp.
Proof. exact (rtp_roundtrip sample_rtp [1; 2] sample_rtp_ok). Defined.

Lemma rtp_buffer_ok l : Forall is_byte l → (length l <= 1484)%nat →
  s_ok (rtp_buffer l) ∧ (s_len (rtp_buffer l) + 16 <= s_cap (rtp_buffer l))%nat.
Proof.
  intros Hl Hn. unfold rtp_buffer, s_ok, s_cap. simpl s_arr. simpl s_len.
  rewrite length_app, length_zeros. repeat split; [lia | | lia].
  apply Forall_app. split; [done | apply zeros_bytes].
Qed.

Lemma rtp_unmarshal_typed_witness :
  Packet_Unmarshal empty_packet (rtp_buffer (wire_packet sample_rtp)) = Ok sample_rtp ∧
  packet_typed (rtp_buffer (wire_packet sample_rtp)) sample_rtp.
Proof.
  assert (Forall is_byte (wire_packet sample_rtp)) as Hb.
  { unfold is_byte. vm_compute. repeat constructor; done. }
  destruct (rtp_buffer_ok (wire_packet sample_rtp) Hb) as [H1 H2]; [simpl; lia|].
  pose proof (rtp_unmarshal_typed empty_packet _ H1) as H.
  assert (Packet_Unmarshal empty_packet (rtp_buffer (wire_packet sample_rtp)) = Ok sample_rtp) as E
    by (vm_compute; reflexivity).
  rewrite E in H. by split.
Defined.

(** A header that announces two-byte extensions and whose last byte is the id
    of an element: the length byte of the element is not there. *)
Definition truncated_two_byte : list Z :=
  [0x90; 96; 0; 7; 0; 0; 0; 1; 0; 0; 0; 2; 0x10; 0; 0; 1; 1; 1; 0xAA; 5].

(** A truncated two-byte header extension is not refused with an error:
    [Unmarshal] indexes past the end of the buffer and panics, with whatever
    capacity the buffer has.  The bytes are what a publisher sends. *)
Theorem rtp_two_byte_panics p0 slack :
  Packet_Unmarshal p0 (Slice (truncated_two_byte ++ slack) (length truncated_two_byte)) = Panic.
Proof. reflexivity. Qed.
