(* ===== verification/Rtcp.v ===== *)
(** * RTCP packets

    pion/rtcp, the package that reads the control packets a subscriber sends
    back (the server looks for keyframe requests among them) and writes those
    the server and its interceptors send: the common header, the reports, the
    source descriptions, and the feedback messages.  One Record per struct,
    one function per method; a receiver that is filled by [Unmarshal] is new.
    Lengths are kept in the widths of the source: an expression like
    [4*h.Length] is computed in 16 bits. *)

From S2P Require Import Prelude Bytes.

Inductive rtcp_err :=
  | errWrongMarshalSize | errInvalidTotalLost | errInvalidHeader | errEmptyCompound
  | errBadFirstPacket | errMissingCNAME | errPacketBeforeCNAME | errTooManyReports
  | errTooManyChunks | errTooManySources | errPacketTooShort | errWrongType
  | errSDESTextTooLong | errSDESMissingType | errReasonTooLong | errBadVersion
  | errWrongPadding | errWrongFeedbackType | errWrongPayloadType | errHeaderTooSmall
  | errSSRCMustBeZero | errMissingREMBidentifier | errSSRCNumAndLengthMismatch
  | errInvalidSizeOrStartIndex | errInvalidBitrate | errWrongChunkType
  | errBadStructMemberType | errBadReadParameter
  | errPacketStatusChunkLength | errDeltaExceedLimit
  | errReportBlockLength | errIncorrectNumReports | errMetricBlockLength.

Abbreviation rres := (res rtcp_err).

(** ** The common header *)

Definition TypeSenderReport : Z := 200.
Definition TypeReceiverReport : Z := 201.
Definition TypeSourceDescription : Z := 202.
Definition TypeGoodbye : Z := 203.
Definition TypeTransportSpecificFeedback : Z := 205.
Definition TypePayloadSpecificFeedback : Z := 206.
Definition TypeExtendedReport : Z := 207.

Definition FormatSLI : Z := 2.
Definition FormatPLI : Z := 1.
Definition FormatFIR : Z := 4.
Definition FormatTLN : Z := 1.
Definition FormatRRR : Z := 5.
Definition FormatCCFB : Z := 11.
Definition FormatREMB : Z := 15.
Definition FormatTCC : Z := 15.

Record Header := MkHeader { Padding : bool; Count : Z; Type_ : Z; Length : Z }.

#[export] Instance Header_eq_dec : EqDecision Header.
Proof. solve_decision. Defined.

Definition headerLength : nat := 4.
Definition ssrcLength : nat := 4.
Definition countMax : nat := 31.

(** func (h Header) Marshal() ([]byte, error) *)
Definition Header_Marshal (h : Header) : rres (list Z) :=
  let b := Z.lor 0 (Z.shiftl 2 6) in
  let b := if Padding h then Z.lor b (Z.shiftl 1 5) else b in
  _ ← fail_if (31 <? Count h) errInvalidHeader;
  let b := Z.lor b (u8 (Z.shiftl (Count h) 0)) in
  raw ← put (zeros headerLength) 0 [b];
  raw ← put raw 1 [u8 (Type_ h)];
  put raw 2 (be16 (Length h)).

(** func (h *Header) Unmarshal(rawPacket []byte) error *)
Definition Header_Unmarshal (raw : slice) : rres Header :=
  _ ← fail_if (s_len raw <? headerLength)%nat errPacketTooShort;
  b0 ← s_idx raw 0;
  _ ← fail_if (negb (Z.land (Z.shiftr b0 6) 0x3 =? 2)) errBadVersion;
  b1 ← s_idx raw 1;
  len ← get16_at raw 2;
  Ok (MkHeader (0 <? Z.land (Z.shiftr b0 5) 0x1) (Z.land (Z.shiftr b0 0) 0x1f) b1 len).

(** func getPadding(packetLen int) int *)
Definition getPadding (packetLen : nat) : nat :=
  if (packetLen mod 4 =? 0)%nat then 0%nat else (4 - packetLen mod 4)%nat.

(** The Length field of a packet of [n] bytes: uint16((n / 4) - 1). *)
Definition length_field (n : nat) : Z := u16 (Z.of_nat (n / 4) - 1).

(** [for i, x := range l { store i x }]: every element is stored at its place. *)
Fixpoint put_each {A} (enc : A → rres (list Z)) (buf : list Z) (off step : nat) (l : list A)
    : rres (list Z) :=
  match l with
  | [] => Ok buf
  | x :: l =>
      d ← enc x;
      buf ← put buf off d;
      put_each enc buf (off + step) step l
  end.

(** [for _, x := range l { data := x.Marshal(); copy(buf[offset:], data); offset += step }] *)
Fixpoint copy_each {A} (enc : A → rres (list Z)) (buf : list Z) (off step : nat) (l : list A)
    : rres (list Z) :=
  match l with
  | [] => Ok buf
  | x :: l =>
      d ← enc x;
      c ← copy_at buf off d;
      copy_each enc c.1 (off + step) step l
  end.

(** ** Reception reports *)

Record ReceptionReport := MkReceptionReport {
  rr_SSRC : Z;
  FractionLost : Z;
  TotalLost : Z;
  LastSequenceNumber : Z;
  Jitter : Z;
  LastSenderReport : Z;
  Delay : Z;
}.

#[export] Instance ReceptionReport_eq_dec : EqDecision ReceptionReport.
Proof. solve_decision. Defined.

Definition receptionReportLength : nat := 24.

(** func (r ReceptionReport) Marshal() ([]byte, error) *)
Definition ReceptionReport_Marshal (r : ReceptionReport) : rres (list Z) :=
  raw ← put (zeros receptionReportLength) 0 (be32 (rr_SSRC r));
  raw ← put raw 4 [FractionLost r];
  _ ← fail_if (Z.shiftl 1 25 <=? TotalLost r) errInvalidTotalLost;
  raw ← put raw 5 [u8 (Z.shiftr (TotalLost r) 16)];
  raw ← put raw 6 [u8 (Z.shiftr (TotalLost r) 8)];
  raw ← put raw 7 [u8 (TotalLost r)];
  raw ← put raw 8 (be32 (LastSequenceNumber r));
  raw ← put raw 12 (be32 (Jitter r));
  raw ← put raw 16 (be32 (LastSenderReport r));
  put raw 20 (be32 (Delay r)).

(** func (r *ReceptionReport) Unmarshal(rawPacket []byte) error *)
Definition ReceptionReport_Unmarshal (raw : slice) : rres ReceptionReport :=
  _ ← fail_if (s_len raw <? receptionReportLength)%nat errPacketTooShort;
  ssrc ← get32_at raw 0;
  fl ← s_idx raw 4;
  tl ← s_from raw 5;
  t2 ← s_idx tl 2;
  t1 ← s_idx tl 1;
  t0 ← s_idx tl 0;
  lastSeq ← get32_at raw 8;
  jitter ← get32_at raw 12;
  lastSR ← get32_at raw 16;
  delay ← get32_at raw 20;
  Ok (MkReceptionReport ssrc fl (Z.lor (Z.lor t2 (Z.shiftl t1 8)) (Z.shiftl t0 16))
        lastSeq jitter lastSR delay).

(** ** Sender reports *)

Record SenderReport := MkSenderReport {
  sr_SSRC : Z;
  NTPTime : Z;
  RTPTime : Z;
  PacketCount : Z;
  OctetCount : Z;
  sr_Reports : list ReceptionReport;
  sr_ProfileExtensions : list Z;
}.

Definition srHeaderLength : nat := 24.

Definition SenderReport_len (r : SenderReport) : nat :=
  (headerLength + srHeaderLength + length (sr_Reports r) * receptionReportLength +
   length (sr_ProfileExtensions r))%nat.

Definition SenderReport_Header (r : SenderReport) : Header :=
  MkHeader false (u8 (Z.of_nat (length (sr_Reports r)))) TypeSenderReport
    (length_field (SenderReport_len r)).

(** func (r SenderReport) Marshal() ([]byte, error): packetBody is
    rawPacket[headerLength:], so its offsets are shifted by 4. *)
Definition SenderReport_Marshal (r : SenderReport) : rres (list Z) :=
  raw ← put (zeros (SenderReport_len r)) (headerLength + 0) (be32 (sr_SSRC r));
  raw ← put raw (headerLength + 4) (be64 (NTPTime r));
  raw ← put raw (headerLength + 12) (be32 (RTPTime r));
  raw ← put raw (headerLength + 16) (be32 (PacketCount r));
  raw ← put raw (headerLength + 20) (be32 (OctetCount r));
  raw ← copy_each ReceptionReport_Marshal raw (headerLength + srHeaderLength)
          receptionReportLength (sr_Reports r);
  _ ← fail_if (countMax <? length (sr_Reports r))%nat errTooManyReports;
  c ← copy_at raw (headerLength + srHeaderLength + length (sr_Reports r) * receptionReportLength)
        (sr_ProfileExtensions r);
  hData ← Header_Marshal (SenderReport_Header r);
  c ← copy_at c.1 0 hData;
  Ok c.1.

(** The loop over the report blocks of a sender report: [n] blocks from
    [offset] on; the blocks and the offset after them. *)
Fixpoint read_reports (body : slice) (offset n : nat) : rres (list ReceptionReport * nat) :=
  match n with
  | O => Ok ([], offset)
  | S n =>
      let rrEnd := (offset + receptionReportLength)%nat in
      _ ← fail_if (s_len body <? rrEnd)%nat errPacketTooShort;
      rrBody ← s_sub body offset (offset + receptionReportLength);
      rr ← ReceptionReport_Unmarshal rrBody;
      r ← read_reports body rrEnd n;
      Ok (rr :: r.1, r.2)
  end.

(** func (r *SenderReport) Unmarshal(rawPacket []byte) error *)
Definition SenderReport_Unmarshal (raw : slice) : rres SenderReport :=
  _ ← fail_if (s_len raw <? headerLength + srHeaderLength)%nat errPacketTooShort;
  h ← Header_Unmarshal raw;
  _ ← fail_if (negb (Type_ h =? TypeSenderReport)) errWrongType;
  body ← s_from raw headerLength;
  ssrc ← get32_at body 0;
  ntp ← get64_at body 4;
  rtp ← get32_at body 12;
  pc ← get32_at body 16;
  oc ← get32_at body 20;
  r ← read_reports body 24 (Z.to_nat (Count h));
  ext ← (if (r.2 <? s_len body)%nat then e ← s_from body r.2; Ok (s_bytes e) else Ok []);
  _ ← fail_if (negb (u8 (Z.of_nat (length r.1)) =? Count h)) errInvalidHeader;
  Ok (MkSenderReport ssrc ntp rtp pc oc r.1 ext).

Definition SenderReport_DestinationSSRC (r : SenderReport) : list Z :=
  map rr_SSRC (sr_Reports r) ++ [sr_SSRC r].

(** ** Receiver reports *)

Record ReceiverReport := MkReceiverReport {
  rcv_SSRC : Z;
  rcv_Reports : list ReceptionReport;
  rcv_ProfileExtensions : list Z;
}.

Definition ReceiverReport_len (r : ReceiverReport) : nat :=
  (headerLength + ssrcLength + length (rcv_Reports r) * receptionReportLength)%nat.

(** The padding of the profile extensions, not their length, is added to the
    Length field. *)
Definition ReceiverReport_Header (r : ReceiverReport) : Header :=
  MkHeader false (u8 (Z.of_nat (length (rcv_Reports r)))) TypeReceiverReport
    (u16 (length_field (ReceiverReport_len r) +
          u16 (Z.of_nat (getPadding (length (rcv_ProfileExtensions r)))))).

(** func (r ReceiverReport) Marshal() ([]byte, error) *)
Definition ReceiverReport_Marshal (r : ReceiverReport) : rres (list Z) :=
  raw ← put (zeros (ReceiverReport_len r)) headerLength (be32 (rcv_SSRC r));
  raw ← copy_each ReceptionReport_Marshal raw (headerLength + ssrcLength)
          receptionReportLength (rcv_Reports r);
  _ ← fail_if (countMax <? length (rcv_Reports r))%nat errTooManyReports;
  let pe := rcv_ProfileExtensions r ++ zeros (getPadding (length (rcv_ProfileExtensions r))) in
  let raw := raw ++ pe in
  hData ← Header_Marshal (ReceiverReport_Header r);
  c ← copy_at raw 0 hData;
  Ok c.1.

(** [for i := rrReportOffset; i < len(rawPacket) && len(r.Reports) < int(h.Count); i += 24]:
    [n] blocks are still wanted. *)
Fixpoint read_report_blocks (raw : slice) (i n : nat) : rres (list ReceptionReport) :=
  match n with
  | O => Ok []
  | S n =>
      if (i <? s_len raw)%nat then
        c ← s_from raw i;
        rr ← ReceptionReport_Unmarshal c;
        l ← read_report_blocks raw (i + receptionReportLength) n;
        Ok (rr :: l)
      else Ok []
  end.

(** func (r *ReceiverReport) Unmarshal(rawPacket []byte) error *)
Definition ReceiverReport_Unmarshal (raw : slice) : rres ReceiverReport :=
  _ ← fail_if (s_len raw <? headerLength + ssrcLength)%nat errPacketTooShort;
  h ← Header_Unmarshal raw;
  _ ← fail_if (negb (Type_ h =? TypeReceiverReport)) errWrongType;
  ssrc ← get32_at raw 4;
  l ← read_report_blocks raw 8 (Z.to_nat (Count h));
  e ← s_from raw (8 + length l * receptionReportLength);
  _ ← fail_if (negb (u8 (Z.of_nat (length l)) =? Count h)) errInvalidHeader;
  Ok (MkReceiverReport ssrc l (s_bytes e)).

Definition ReceiverReport_DestinationSSRC (r : ReceiverReport) : list Z :=
  map rr_SSRC (rcv_Reports r).

(** ** Source descriptions *)

Definition SDESEnd : Z := 0.
Definition SDESCNAME : Z := 1.
Definition sdesMaxOctetCount : nat := 255.

Record SourceDescriptionItem := MkItem { it_Type : Z; it_Text : list Z }.
Record SourceDescriptionChunk := MkChunk { ch_Source : Z; ch_Items : list SourceDescriptionItem }.
Record SourceDescription := MkSourceDescription { Chunks : list SourceDescriptionChunk }.

(** func NewCNAMESourceDescription(ssrc uint32, cname string) *SourceDescription *)
Definition NewCNAMESourceDescription (ssrc : Z) (cname : list Z) : SourceDescription :=
  MkSourceDescription [MkChunk ssrc [MkItem SDESCNAME cname]].

#[export] Instance Item_eq_dec : EqDecision SourceDescriptionItem.
Proof. solve_decision. Defined.
#[export] Instance Chunk_eq_dec : EqDecision SourceDescriptionChunk.
Proof. solve_decision. Defined.

Definition Item_len (s : SourceDescriptionItem) : nat := (1 + 1 + length (it_Text s))%nat.

Definition Item_Marshal (s : SourceDescriptionItem) : rres (list Z) :=
  _ ← fail_if (it_Type s =? SDESEnd) errSDESMissingType;
  raw ← put (zeros 2) 0 [u8 (it_Type s)];
  _ ← fail_if (sdesMaxOctetCount <? length (it_Text s))%nat errSDESTextTooLong;
  raw ← put raw 1 [u8 (Z.of_nat (length (it_Text s)))];
  Ok (raw ++ it_Text s).

Definition Item_Unmarshal (raw : slice) : rres SourceDescriptionItem :=
  _ ← fail_if (s_len raw <? 2)%nat errPacketTooShort;
  ty ← s_idx raw 0;
  n ← s_idx raw 1;
  let octetCount := Z.to_nat n in
  _ ← fail_if (s_len raw <? 2 + octetCount)%nat errPacketTooShort;
  txt ← s_sub raw 2 (2 + octetCount);
  Ok (MkItem ty (s_bytes txt)).

Definition Chunk_len (s : SourceDescriptionChunk) : nat :=
  let n := (foldl (λ n it, n + Item_len it) 4 (ch_Items s) + 1)%nat in
  (n + getPadding n)%nat.

Fixpoint append_each {A} (enc : A → rres (list Z)) (raw : list Z) (l : list A) : rres (list Z) :=
  match l with
  | [] => Ok raw
  | x :: l => d ← enc x; append_each enc (raw ++ d) l
  end.

Definition Chunk_Marshal (s : SourceDescriptionChunk) : rres (list Z) :=
  raw ← put (zeros 4) 0 (be32 (ch_Source s));
  raw ← append_each Item_Marshal raw (ch_Items s);
  let raw := raw ++ [u8 SDESEnd] in
  Ok (raw ++ zeros (getPadding (length raw))).

(** [for i := 4; i < len(rawPacket); { ... }]: an item of type zero ends the
    chunk, the end of the bytes is an error. *)
Fixpoint read_items (fuel : nat) (raw : slice) (i : nat) (acc : list SourceDescriptionItem)
    : rres (list SourceDescriptionItem) :=
  match fuel with
  | O => Diverge
  | S fuel =>
      if (i <? s_len raw)%nat then
        t ← s_idx raw i;
        if t =? SDESEnd then Ok acc
        else
          c ← s_from raw i;
          it ← Item_Unmarshal c;
          read_items fuel raw (i + Item_len it) (acc ++ [it])
      else Err errPacketTooShort
  end.

Definition Chunk_Unmarshal (raw : slice) : rres SourceDescriptionChunk :=
  _ ← fail_if (s_len raw <? 5)%nat errPacketTooShort;
  src ← get32_at raw 0;
  items ← read_items (S (s_len raw)) raw 4 [];
  Ok (MkChunk src items).

Definition SourceDescription_len (s : SourceDescription) : nat :=
  (headerLength + foldl (λ n c, n + Chunk_len c) 0 (Chunks s))%nat.

Definition SourceDescription_Header (s : SourceDescription) : Header :=
  MkHeader false (u8 (Z.of_nat (length (Chunks s)))) TypeSourceDescription
    (length_field (SourceDescription_len s)).

(** The chunks are copied one after the other. *)
Fixpoint copy_chunks (buf : list Z) (off : nat) (l : list SourceDescriptionChunk) : rres (list Z) :=
  match l with
  | [] => Ok buf
  | c :: l =>
      d ← Chunk_Marshal c;
      r ← copy_at buf off d;
      copy_chunks r.1 (off + length d) l
  end.

(** func (s SourceDescription) Marshal() ([]byte, error) *)
Definition SourceDescription_Marshal (s : SourceDescription) : rres (list Z) :=
  raw ← copy_chunks (zeros (SourceDescription_len s)) headerLength (Chunks s);
  _ ← fail_if (countMax <? length (Chunks s))%nat errTooManyChunks;
  hData ← Header_Marshal (SourceDescription_Header s);
  c ← copy_at raw 0 hData;
  Ok c.1.

(** [for i := headerLength; i < len(rawPacket); { ... i += chunk.len() }] *)
Fixpoint read_chunks (fuel : nat) (raw : slice) (i : nat) (acc : list SourceDescriptionChunk)
    : rres (list SourceDescriptionChunk) :=
  match fuel with
  | O => Diverge
  | S fuel =>
      if (i <? s_len raw)%nat then
        c ← s_from raw i;
        chunk ← Chunk_Unmarshal c;
        read_chunks fuel raw (i + Chunk_len chunk) (acc ++ [chunk])
      else Ok acc
  end.

(** func (s *SourceDescription) Unmarshal(rawPacket []byte) error *)
Definition SourceDescription_Unmarshal (raw : slice) : rres SourceDescription :=
  h ← Header_Unmarshal raw;
  _ ← fail_if (negb (Type_ h =? TypeSourceDescription)) errWrongType;
  l ← read_chunks (S (s_len raw)) raw headerLength [];
  _ ← fail_if (negb (Z.of_nat (length l) =? Count h)) errInvalidHeader;
  Ok (MkSourceDescription l).

Definition SourceDescription_DestinationSSRC (s : SourceDescription) : list Z :=
  map ch_Source (Chunks s).

(** ** Goodbye *)

Record Goodbye := MkGoodbye { Sources : list Z; Reason : list Z }.

Definition Goodbye_len (g : Goodbye) : nat :=
  let l := (headerLength + length (Sources g) * ssrcLength + (length (Reason g) + 1))%nat in
  (l + getPadding l)%nat.

Definition Goodbye_Header (g : Goodbye) : Header :=
  MkHeader false (u8 (Z.of_nat (length (Sources g)))) TypeGoodbye (length_field (Goodbye_len g)).

(** func (g Goodbye) Marshal() ([]byte, error) *)
Definition Goodbye_Marshal (g : Goodbye) : rres (list Z) :=
  let raw := zeros (Goodbye_len g) in
  _ ← fail_if (countMax <? length (Sources g))%nat errTooManySources;
  raw ← put_each (λ s, Ok (be32 s)) raw headerLength ssrcLength (Sources g);
  raw ← (if (length (Reason g) =? 0)%nat then Ok raw
         else
           _ ← fail_if (sdesMaxOctetCount <? length (Reason g))%nat errReasonTooLong;
           let reasonOffset := (length (Sources g) * ssrcLength)%nat in
           raw ← put raw (headerLength + reasonOffset) [u8 (Z.of_nat (length (Reason g)))];
           c ← copy_at raw (headerLength + reasonOffset + 1) (Reason g);
           Ok c.1);
  hData ← Header_Marshal (Goodbye_Header g);
  c ← copy_at raw 0 hData;
  Ok c.1.

Fixpoint read_words (raw : slice) (offset n : nat) : rres (list Z) :=
  match n with
  | O => Ok []
  | S n =>
      x ← get32_at raw offset;
      l ← read_words raw (offset + ssrcLength) n;
      Ok (x :: l)
  end.

(** func (g *Goodbye) Unmarshal(rawPacket []byte) error:
    [int(headerLength + header.Count*ssrcLength)] is computed in a uint8. *)
Definition Goodbye_Unmarshal (raw : slice) : rres Goodbye :=
  h ← Header_Unmarshal raw;
  _ ← fail_if (negb (Type_ h =? TypeGoodbye)) errWrongType;
  _ ← fail_if (negb (getPadding (s_len raw) =? 0)%nat) errPacketTooShort;
  let reasonOffset := Z.to_nat (u8 (4 + u8 (Count h * 4))) in
  _ ← fail_if (s_len raw <? reasonOffset)%nat errPacketTooShort;
  srcs ← read_words raw headerLength (Z.to_nat (Count h));
  reason ←
    (if (reasonOffset <? s_len raw)%nat then
       n ← s_idx raw reasonOffset;
       let reasonEnd := (reasonOffset + 1 + Z.to_nat n)%nat in
       _ ← fail_if (s_len raw <? reasonEnd)%nat errPacketTooShort;
       r ← s_sub raw (reasonOffset + 1) reasonEnd;
       Ok (s_bytes r)
     else Ok []);
  Ok (MkGoodbye srcs reason).

Definition Goodbye_DestinationSSRC (g : Goodbye) : list Z := Sources g.
