(* ===== verification/RtcpFeedback.v ===== *)
(** * RTCP feedback messages

    The transport- and payload-specific feedback of pion/rtcp: picture loss,
    full intra request, slice loss, rapid resynchronization, negative
    acknowledgements with their bitmaps, congestion control feedback (RFC 8888)
    and transport-wide congestion control. *)

From S2P Require Import Prelude Bytes Rtcp.

(** ** PictureLossIndication and RapidResynchronizationRequest *)

Record PictureLossIndication := MkPLI { pli_SenderSSRC : Z; pli_MediaSSRC : Z }.

Definition pli_len : nat := (headerLength + ssrcLength * 2)%nat.

Definition PictureLossIndication_Header (p : PictureLossIndication) : Header :=
  MkHeader false FormatPLI TypePayloadSpecificFeedback 2.

Definition PictureLossIndication_Marshal (p : PictureLossIndication) : rres (list Z) :=
  raw ← put (zeros pli_len) headerLength (be32 (pli_SenderSSRC p));
  raw ← put raw (headerLength + 4) (be32 (pli_MediaSSRC p));
  hData ← Header_Marshal (MkHeader false FormatPLI TypePayloadSpecificFeedback 2);
  c ← copy_at raw 0 hData;
  Ok c.1.

Definition PictureLossIndication_Unmarshal (raw : slice) : rres PictureLossIndication :=
  _ ← fail_if (s_len raw <? headerLength + ssrcLength * 2)%nat errPacketTooShort;
  h ← Header_Unmarshal raw;
  _ ← fail_if (negb (Type_ h =? TypePayloadSpecificFeedback) || negb (Count h =? FormatPLI)) errWrongType;
  s ← get32_at raw headerLength;
  m ← get32_at raw (headerLength + ssrcLength);
  Ok (MkPLI s m).

Definition PictureLossIndication_DestinationSSRC (p : PictureLossIndication) : list Z :=
  [pli_MediaSSRC p].

Record RapidResynchronizationRequest := MkRRR { rrr_SenderSSRC : Z; rrr_MediaSSRC : Z }.

Definition rrr_len : nat := (headerLength + ssrcLength * 2)%nat.

Definition RapidResynchronizationRequest_Header (p : RapidResynchronizationRequest) : Header :=
  MkHeader false FormatRRR TypeTransportSpecificFeedback 2.

Definition RapidResynchronizationRequest_Marshal (p : RapidResynchronizationRequest) : rres (list Z) :=
  raw ← put (zeros rrr_len) headerLength (be32 (rrr_SenderSSRC p));
  raw ← put raw (headerLength + 4) (be32 (rrr_MediaSSRC p));
  hData ← Header_Marshal (RapidResynchronizationRequest_Header p);
  c ← copy_at raw 0 hData;
  Ok c.1.

Definition RapidResynchronizationRequest_Unmarshal (raw : slice) : rres RapidResynchronizationRequest :=
  _ ← fail_if (s_len raw <? headerLength + ssrcLength * 2)%nat errPacketTooShort;
  h ← Header_Unmarshal raw;
  _ ← fail_if (negb (Type_ h =? TypeTransportSpecificFeedback) || negb (Count h =? FormatRRR)) errWrongType;
  s ← get32_at raw headerLength;
  m ← get32_at raw (headerLength + ssrcLength);
  Ok (MkRRR s m).

(** ** FullIntraRequest *)

Record FIREntry := MkFIREntry { fir_SSRC : Z; fir_SequenceNumber : Z }.
Record FullIntraRequest := MkFIR {
  fir_SenderSSRC : Z;
  fir_MediaSSRC : Z;
  FIR : list FIREntry;
}.

Definition FullIntraRequest_len (p : FullIntraRequest) : nat :=
  (headerLength + 8 + length (FIR p) * 8)%nat.

Definition FullIntraRequest_Header (p : FullIntraRequest) : Header :=
  MkHeader false FormatFIR TypePayloadSpecificFeedback (length_field (FullIntraRequest_len p)).

(** The two stores of an entry; the last three bytes stay zero. *)
Fixpoint put_fir (buf : list Z) (off : nat) (l : list FIREntry) : rres (list Z) :=
  match l with
  | [] => Ok buf
  | e :: l =>
      buf ← put buf off (be32 (fir_SSRC e));
      buf ← put buf (off + 4) [fir_SequenceNumber e];
      put_fir buf (off + 8) l
  end.

Definition FullIntraRequest_Marshal (p : FullIntraRequest) : rres (list Z) :=
  raw ← put (zeros (8 + length (FIR p) * 8)) 0 (be32 (fir_SenderSSRC p));
  raw ← put raw 4 (be32 (fir_MediaSSRC p));
  raw ← put_fir raw 8 (FIR p);
  hData ← Header_Marshal (FullIntraRequest_Header p);
  Ok (hData ++ raw).

(** [for i := headerLength + firOffset; i < headerLength + int(h.Length*4); i += 8] *)
Fixpoint read_fir (fuel : nat) (raw : slice) (i end_ : nat) : rres (list FIREntry) :=
  match fuel with
  | O => Diverge
  | S fuel =>
      if (i <? end_)%nat then
        s ← get32_at raw i;
        n ← s_idx raw (i + 4);
        l ← read_fir fuel raw (i + 8) end_;
        Ok (MkFIREntry s n :: l)
      else Ok []
  end.

(** [headerLength + int(4*h.Length)], the product in 16 bits. *)
Definition payload_end (h : Header) : nat := (headerLength + Z.to_nat (u16 (4 * Length h)))%nat.

Definition FullIntraRequest_Unmarshal (raw : slice) : rres FullIntraRequest :=
  _ ← fail_if (s_len raw <? headerLength + ssrcLength)%nat errPacketTooShort;
  h ← Header_Unmarshal raw;
  _ ← fail_if (s_len raw <? payload_end h)%nat errPacketTooShort;
  _ ← fail_if (negb (Type_ h =? TypePayloadSpecificFeedback) || negb (Count h =? FormatFIR)) errWrongType;
  s ← get32_at raw headerLength;
  m ← get32_at raw (headerLength + ssrcLength);
  l ← read_fir (S (payload_end h)) raw (headerLength + 8) (payload_end h);
  Ok (MkFIR s m l).

Definition FullIntraRequest_DestinationSSRC (p : FullIntraRequest) : list Z := map fir_SSRC (FIR p).

(** ** SliceLossIndication *)

Record SLIEntry := MkSLIEntry { First : Z; Number : Z; Picture : Z }.
Record SliceLossIndication := MkSLI {
  sli_SenderSSRC : Z;
  sli_MediaSSRC : Z;
  SLI : list SLIEntry;
}.

Definition SliceLossIndication_len (p : SliceLossIndication) : nat :=
  (headerLength + 8 + length (SLI p) * 4)%nat.

Definition SliceLossIndication_Header (p : SliceLossIndication) : Header :=
  MkHeader false FormatSLI TypeTransportSpecificFeedback (length_field (SliceLossIndication_len p)).

Definition sli_word (s : SLIEntry) : Z :=
  Z.lor (Z.lor (u32 (Z.shiftl (Z.land (First s) 0x1FFF) 19))
               (u32 (Z.shiftl (Z.land (Number s) 0x1FFF) 6)))
        (Z.land (Picture s) 0x3F).

Definition SliceLossIndication_Marshal (p : SliceLossIndication) : rres (list Z) :=
  _ ← fail_if (255 <? length (SLI p) + 2)%nat errTooManyReports;
  raw ← put (zeros (8 + length (SLI p) * 4)) 0 (be32 (sli_SenderSSRC p));
  raw ← put raw 4 (be32 (sli_MediaSSRC p));
  raw ← put_each (λ s, Ok (be32 (sli_word s))) raw 8 4 (SLI p);
  hData ← Header_Marshal (SliceLossIndication_Header p);
  Ok (hData ++ raw).

Fixpoint read_sli (fuel : nat) (raw : slice) (i end_ : nat) : rres (list SLIEntry) :=
  match fuel with
  | O => Diverge
  | S fuel =>
      if (i <? end_)%nat then
        sli ← get32_at raw i;
        l ← read_sli fuel raw (i + 4) end_;
        Ok (MkSLIEntry (u16 (Z.land (Z.shiftr sli 19) 0x1FFF)) (u16 (Z.land (Z.shiftr sli 6) 0x1FFF))
              (u8 (Z.land sli 0x3F)) :: l)
      else Ok []
  end.

(** The type that is required here is the transport-specific one. *)
Definition SliceLossIndication_Unmarshal (raw : slice) : rres SliceLossIndication :=
  _ ← fail_if (s_len raw <? headerLength + ssrcLength)%nat errPacketTooShort;
  h ← Header_Unmarshal raw;
  _ ← fail_if (s_len raw <? payload_end h)%nat errPacketTooShort;
  _ ← fail_if (negb (Type_ h =? TypeTransportSpecificFeedback) || negb (Count h =? FormatSLI)) errWrongType;
  s ← get32_at raw headerLength;
  m ← get32_at raw (headerLength + ssrcLength);
  l ← read_sli (S (payload_end h)) raw (headerLength + 8) (payload_end h);
  Ok (MkSLI s m l).

Definition SliceLossIndication_DestinationSSRC (p : SliceLossIndication) : list Z := [sli_MediaSSRC p].

(** ** TransportLayerNack *)

(** NackPair is a wire-representation of a collection of lost RTP packets. *)
Record NackPair := MkNackPair { PacketID : Z; LostPackets : Z }.

#[export] Instance NackPair_eq_dec : EqDecision NackPair.
Proof. solve_decision. Defined.

Record TransportLayerNack := MkNack {
  tln_SenderSSRC : Z;
  tln_MediaSSRC : Z;
  Nacks : list NackPair;
}.

(** The loop of NackPairsFromSequenceNumbers: [cur] is the pair being built. *)
Fixpoint nack_pairs (cur : NackPair) (l : list Z) : list NackPair :=
  match l with
  | [] => [cur]
  | m :: l =>
      if 16 <? u16 (m - PacketID cur) then cur :: nack_pairs (MkNackPair m 0) l
      else nack_pairs (MkNackPair (PacketID cur)
                         (Z.lor (LostPackets cur) (u16 (Z.shiftl 1 (u16 (u16 (m - PacketID cur) - 1)))))) l
  end.

(** func NackPairsFromSequenceNumbers(sequenceNumbers []uint16) (pairs []NackPair) *)
Definition NackPairsFromSequenceNumbers (l : list Z) : list NackPair :=
  match l with
  | [] => []
  | s :: l => nack_pairs (MkNackPair s 0) l
  end.

(** The loop of Range: [b] holds the bits not visited yet. *)
Fixpoint nack_range (fuel : nat) (id b i : Z) : rres (list Z) :=
  if b =? 0 then Ok []
  else match fuel with
       | O => Diverge
       | S fuel =>
           let bit := u16 (Z.shiftl 1 i) in
           if Z.land b bit =? 0 then nack_range fuel id b (u16 (i + 1))
           else
             l ← nack_range fuel id (Z.ldiff b bit) (u16 (i + 1));
             Ok (u16 (u16 (id + i) + 1) :: l)
       end.

(** func (n *NackPair) PacketList() []uint16: Range with an f that always
    wants more. *)
Definition PacketList (n : NackPair) : rres (list Z) :=
  l ← nack_range 16 (PacketID n) (LostPackets n) 0;
  Ok (PacketID n :: l).

Definition TransportLayerNack_len (p : TransportLayerNack) : nat :=
  (headerLength + 8 + length (Nacks p) * 4)%nat.

Definition TransportLayerNack_Header (p : TransportLayerNack) : Header :=
  MkHeader false FormatTLN TypeTransportSpecificFeedback (length_field (TransportLayerNack_len p)).

Definition TransportLayerNack_Marshal (p : TransportLayerNack) : rres (list Z) :=
  _ ← fail_if (255 <? length (Nacks p) + 2)%nat errTooManyReports;
  raw ← put (zeros (8 + length (Nacks p) * 4)) 0 (be32 (tln_SenderSSRC p));
  raw ← put raw 4 (be32 (tln_MediaSSRC p));
  raw ← put_each (λ n, Ok (be16 (PacketID n) ++ be16 (LostPackets n))) raw 8 4 (Nacks p);
  hData ← Header_Marshal (TransportLayerNack_Header p);
  Ok (hData ++ raw).

Fixpoint read_nacks (fuel : nat) (raw : slice) (i end_ : nat) : rres (list NackPair) :=
  match fuel with
  | O => Diverge
  | S fuel =>
      if (i <? end_)%nat then
        id ← get16_at raw i;
        lost ← get16_at raw (i + 2);
        l ← read_nacks fuel raw (i + 4) end_;
        Ok (MkNackPair id lost :: l)
      else Ok []
  end.

Definition TransportLayerNack_Unmarshal (raw : slice) : rres TransportLayerNack :=
  _ ← fail_if (s_len raw <? headerLength + ssrcLength)%nat errPacketTooShort;
  h ← Header_Unmarshal raw;
  _ ← fail_if (s_len raw <? payload_end h)%nat errPacketTooShort;
  _ ← fail_if (negb (Type_ h =? TypeTransportSpecificFeedback) || negb (Count h =? FormatTLN)) errWrongType;
  s ← get32_at raw headerLength;
  m ← get32_at raw (headerLength + ssrcLength);
  l ← read_nacks (S (payload_end h)) raw (headerLength + 8) (payload_end h);
  Ok (MkNack s m l).

Definition TransportLayerNack_DestinationSSRC (p : TransportLayerNack) : list Z := [tln_MediaSSRC p].
