(* ===== verification/RtcpCongestion.v ===== *)
(** * RTCP congestion control feedback

    RFC 8888 feedback, transport-wide congestion control and the receiver's
    estimated maximum bitrate, the feedback messages of pion/rtcp with bit
    fields of their own. *)

From S2P Require Import Prelude Bytes Rtcp.

(** ** Bit fields *)

(** func setNBitsOfUint16(src, size, startIndex, val uint16) (uint16, error) *)
Definition setNBitsOfUint16 (src size startIndex val : Z) : rres Z :=
  _ ← fail_if (16 <? u16 (startIndex + size)) errInvalidSizeOrStartIndex;
  let val := Z.land val (u16 (Z.shiftl 1 size - 1)) in
  Ok (Z.lor src (u16 (Z.shiftl val (16 - size - startIndex)))).

(** func appendNBitsToUint32(src, n, val uint32) uint32 *)
Definition appendNBitsToUint32 (src n val : Z) : Z :=
  Z.lor (u32 (Z.shiftl src n)) (Z.land val (Z.shiftr 0xFFFFFFFF (32 - n))).

(** func getNBitsFromByte(b byte, begin, n uint16) uint16 *)
Definition getNBitsFromByte (b begin n : Z) : Z :=
  let endShift := 8 - (begin + n) in
  let mask := Z.land (Z.shiftr 0xFF begin) (u8 (Z.shiftl 0xFF endShift)) in
  Z.shiftr (Z.land b mask) endShift.

(** func get24BitsFromBytes(b []byte) uint32 *)
Definition get24BitsFromBytes (b : slice) : rres Z :=
  b0 ← s_idx b 0;
  b1 ← s_idx b 1;
  b2 ← s_idx b 2;
  Ok (u32 (Z.shiftl b0 16 + Z.shiftl b1 8 + b2)).

(** ** CCFeedbackReport *)

Record CCFeedbackMetricBlock := MkMetric { Received : bool; ECN : Z; ArrivalTimeOffset : Z }.
Record CCFeedbackReportBlock := MkReportBlock {
  rb_MediaSSRC : Z;
  BeginSequence : Z;
  MetricBlocks : list CCFeedbackMetricBlock;
}.
Record CCFeedbackReport := MkCCFB {
  cc_SenderSSRC : Z;
  ReportBlocks : list CCFeedbackReportBlock;
  ReportTimestamp : Z;
}.

Definition Metric_marshal (b : CCFeedbackMetricBlock) : rres (list Z) :=
  let r := if Received b then 1 else 0 in
  dst ← setNBitsOfUint16 0 1 0 r;
  dst ← setNBitsOfUint16 dst 2 1 (ECN b);
  dst ← setNBitsOfUint16 dst 13 3 (ArrivalTimeOffset b);
  put (zeros 2) 0 (be16 dst).

Definition Metric_unmarshal (raw : slice) : rres CCFeedbackMetricBlock :=
  _ ← fail_if (negb (s_len raw =? 2)%nat) errMetricBlockLength;
  b0 ← s_idx raw 0;
  if Z.land b0 0x80 =? 0 then Ok (MkMetric false 0 0)
  else
    w ← get16 raw;
    Ok (MkMetric true (Z.land (Z.shiftr b0 5) 0x03) (Z.land w 0x1FFF)).

(** func (b *CCFeedbackReportBlock) len() uint16 *)
Definition ReportBlock_len (b : CCFeedbackReportBlock) : Z :=
  let n := Z.of_nat (length (MetricBlocks b)) in
  let n := if n mod 2 =? 0 then n else n + 1 in
  u16 (8 + u16 (2 * u16 n)).

Definition ReportBlock_marshal (b : CCFeedbackReportBlock) : rres (list Z) :=
  _ ← fail_if (16384 <? Z.of_nat (length (MetricBlocks b))) errTooManyReports;
  buf ← put (zeros (Z.to_nat (ReportBlock_len b))) 0 (be32 (rb_MediaSSRC b));
  buf ← put buf 4 (be16 (BeginSequence b));
  let length_ := u16 (Z.of_nat (length (MetricBlocks b))) in
  let length_ := if 0 <? length_ then length_ - 1 else length_ in
  buf ← put buf 6 (be16 length_);
  copy_each Metric_marshal buf 8 2 (MetricBlocks b).

(** The loop over the metric blocks; [offset := reportsOffset + 2*i] is a
    uint16. *)
Fixpoint read_metrics (raw : slice) (i : Z) (n : nat) : rres (list CCFeedbackMetricBlock) :=
  match n with
  | O => Ok []
  | S n =>
      let offset := u16 (8 + u16 (2 * i)) in
      c ← s_sub raw (Z.to_nat offset) (Z.to_nat (u16 (offset + 2)));
      mb ← Metric_unmarshal c;
      l ← read_metrics raw (i + 1) n;
      Ok (mb :: l)
  end.

Definition ReportBlock_unmarshal (raw : slice) : rres CCFeedbackReportBlock :=
  _ ← fail_if (s_len raw <? 8)%nat errReportBlockLength;
  c ← s_sub raw 0 4;
  ssrc ← get32 c;
  c ← s_sub raw 4 6;
  begin ← get16 c;
  numReportsField ← get16_at raw 6;
  if numReportsField =? 0 then Ok (MkReportBlock ssrc begin [])
  else
    let endSequence := u16 (begin + numReportsField) in
    let numReports := u16 (u16 (endSequence - begin) + 1) in
    _ ← fail_if (Z.of_nat (s_len raw) <? u16 (8 + u16 (numReports * 2))) errIncorrectNumReports;
    l ← read_metrics raw 0 (Z.to_nat numReports);
    Ok (MkReportBlock ssrc begin l).

(** func (b *CCFeedbackReport) Len() uint16 *)
Definition CCFeedbackReport_Len (b : CCFeedbackReport) : Z :=
  u16 (8 + foldl (λ n x, u16 (n + ReportBlock_len x)) 0 (ReportBlocks b) + 4).

Definition CCFeedbackReport_Header (b : CCFeedbackReport) : Header :=
  MkHeader false FormatCCFB TypeTransportSpecificFeedback
    (u16 (CCFeedbackReport_Len b / 4 - 1)).

Fixpoint copy_blocks (buf : list Z) (offset : Z) (l : list CCFeedbackReportBlock)
    : rres (list Z * Z) :=
  match l with
  | [] => Ok (buf, offset)
  | x :: l =>
      d ← ReportBlock_marshal x;
      c ← copy_at buf (Z.to_nat offset) d;
      copy_blocks c.1 (u16 (offset + ReportBlock_len x)) l
  end.

Definition CCFeedbackReport_Marshal (b : CCFeedbackReport) : rres (list Z) :=
  let header := CCFeedbackReport_Header b in
  headerBuf ← Header_Marshal header;
  let length_ := u16 (4 * u16 (Length header + 1)) in
  let buf := zeros (Z.to_nat length_) in
  c ← (if (length buf <? headerLength)%nat then Panic else copy_at buf 0 headerBuf);
  buf ← put c.1 headerLength (be32 (cc_SenderSSRC b));
  r ← copy_blocks buf 8 (ReportBlocks b);
  put r.1 (Z.to_nat r.2) (be32 (ReportTimestamp b)).

(** [for offset < reportTimestampOffset { ... }] *)
Fixpoint read_blocks (fuel : nat) (raw : slice) (offset end_ : Z) : rres (list CCFeedbackReportBlock) :=
  match fuel with
  | O => Diverge
  | S fuel =>
      if offset <? end_ then
        c ← s_from raw (Z.to_nat offset);
        b ← ReportBlock_unmarshal c;
        l ← read_blocks fuel raw (u16 (offset + ReportBlock_len b)) end_;
        Ok (b :: l)
      else Ok []
  end.

Definition CCFeedbackReport_Unmarshal (raw : slice) : rres CCFeedbackReport :=
  _ ← fail_if (s_len raw <? headerLength + ssrcLength + 4)%nat errPacketTooShort;
  h ← Header_Unmarshal raw;
  _ ← fail_if (negb (Type_ h =? TypeTransportSpecificFeedback)) errWrongType;
  s ← get32_at raw headerLength;
  let reportTimestampOffset := u16 (Z.of_nat (s_len raw) - 4) in
  ts ← get32_at raw (Z.to_nat reportTimestampOffset);
  l ← read_blocks (S (s_len raw)) raw 8 reportTimestampOffset;
  Ok (MkCCFB s l ts).

Definition CCFeedbackReport_DestinationSSRC (b : CCFeedbackReport) : list Z :=
  map rb_MediaSSRC (ReportBlocks b).

(** ** TransportLayerCC *)

Definition TypeTCCPacketNotReceived : Z := 0.
Definition TypeTCCPacketReceivedSmallDelta : Z := 1.
Definition TypeTCCPacketReceivedLargeDelta : Z := 2.
Definition TypeTCCSymbolSizeOneBit : Z := 0.
Definition TypeTCCSymbolSizeTwoBit : Z := 1.

Record RunLengthChunk := MkRunLength {
  rl_Type : Z;
  PacketStatusSymbol : Z;
  RunLength : Z;
}.
Record StatusVectorChunk := MkStatusVector {
  sv_Type : Z;
  SymbolSize : Z;
  SymbolList : list Z;
}.
(** The interface PacketStatusChunk and its two implementations. *)
Inductive PacketStatusChunk :=
  | CRunLength (c : RunLengthChunk)
  | CStatusVector (c : StatusVectorChunk).

Record RecvDelta := MkDelta { rd_Type : Z; Delta : Z }.

(** func numOfBitsOfSymbolSize() map[uint16]uint16, and its lookup: zero for
    another key. *)
Definition numOfBitsOfSymbolSize (size : Z) : Z :=
  if size =? TypeTCCSymbolSizeOneBit then 1
  else if size =? TypeTCCSymbolSizeTwoBit then 2 else 0.

Definition RunLengthChunk_Marshal (r : RunLengthChunk) : rres (list Z) :=
  dst ← setNBitsOfUint16 0 1 0 0;
  dst ← setNBitsOfUint16 dst 2 1 (PacketStatusSymbol r);
  dst ← setNBitsOfUint16 dst 13 3 (RunLength r);
  put (zeros 2) 0 (be16 dst).

Definition RunLengthChunk_Unmarshal (raw : slice) : rres RunLengthChunk :=
  _ ← fail_if (negb (s_len raw =? 2)%nat) errPacketStatusChunkLength;
  b0 ← s_idx raw 0;
  b1 ← s_idx raw 1;
  Ok (MkRunLength 0 (getNBitsFromByte b0 1 2)
        (u16 (u16 (Z.shiftl (getNBitsFromByte b0 3 5) 8) + b1))).

Fixpoint set_symbols (dst numOfBits i : Z) (l : list Z) : rres Z :=
  match l with
  | [] => Ok dst
  | s :: l =>
      let index := u16 (u16 (numOfBits * u16 i) + 2) in
      dst ← setNBitsOfUint16 dst numOfBits index s;
      set_symbols dst numOfBits (i + 1) l
  end.

Definition StatusVectorChunk_Marshal (r : StatusVectorChunk) : rres (list Z) :=
  dst ← setNBitsOfUint16 0 1 0 1;
  dst ← setNBitsOfUint16 dst 1 1 (SymbolSize r);
  dst ← set_symbols dst (numOfBitsOfSymbolSize (SymbolSize r)) 0 (SymbolList r);
  put (zeros 2) 0 (be16 dst).

Definition StatusVectorChunk_Unmarshal (raw : slice) : rres StatusVectorChunk :=
  _ ← fail_if (negb (s_len raw =? 2)%nat) errPacketStatusChunkLength;
  b0 ← s_idx raw 0;
  b1 ← s_idx raw 1;
  let size := getNBitsFromByte b0 1 1 in
  if size =? TypeTCCSymbolSizeOneBit then
    Ok (MkStatusVector 1 size
          (map (λ i, getNBitsFromByte b0 (2 + i) 1) [0; 1; 2; 3; 4; 5] ++
           map (λ i, getNBitsFromByte b1 i 1) [0; 1; 2; 3; 4; 5; 6; 7]))
  else if size =? TypeTCCSymbolSizeTwoBit then
    Ok (MkStatusVector 1 size
          (map (λ i, getNBitsFromByte b0 (2 + i * 2) 2) [0; 1; 2] ++
           map (λ i, getNBitsFromByte b1 (i * 2) 2) [0; 1; 2; 3]))
  else Ok (MkStatusVector 1 (u16 (u16 (Z.shiftl (getNBitsFromByte b0 2 6) 8) + b1)) []).

Definition PacketStatusChunk_Marshal (c : PacketStatusChunk) : rres (list Z) :=
  match c with
  | CRunLength c => RunLengthChunk_Marshal c
  | CStatusVector c => StatusVectorChunk_Marshal c
  end.

(** func (r RecvDelta) Marshal() ([]byte, error): the division truncates. *)
Definition RecvDelta_Marshal (r : RecvDelta) : rres (list Z) :=
  let delta := Z.quot (Delta r) 250 in
  if (rd_Type r =? TypeTCCPacketReceivedSmallDelta) && (0 <=? delta) && (delta <=? 255) then
    Ok [u8 delta]
  else if (rd_Type r =? TypeTCCPacketReceivedLargeDelta) && (-32768 <=? delta) && (delta <=? 32767) then
    Ok (be16 (u16 delta))
  else Err errDeltaExceedLimit.

(** int16(v) of a uint16 *)
Definition to_int16 (v : Z) : Z := if v <? 2 ^ 15 then v else v - 2 ^ 16.

Definition RecvDelta_Unmarshal (raw : slice) : rres RecvDelta :=
  let chunkLen := s_len raw in
  _ ← fail_if (negb (chunkLen =? 1)%nat && negb (chunkLen =? 2)%nat) errDeltaExceedLimit;
  if (chunkLen =? 1)%nat then
    b0 ← s_idx raw 0;
    Ok (MkDelta TypeTCCPacketReceivedSmallDelta (250 * b0))
  else
    w ← get16 raw;
    Ok (MkDelta TypeTCCPacketReceivedLargeDelta (250 * to_int16 w)).

Record TransportLayerCC := MkTCC {
  tcc_Header : Header;
  tcc_SenderSSRC : Z;
  tcc_MediaSSRC : Z;
  BaseSequenceNumber : Z;
  PacketStatusCount : Z;
  ReferenceTime : Z;
  FbPktCount : Z;
  PacketChunks : list PacketStatusChunk;
  RecvDeltas : list RecvDelta;
}.

(** func (t *TransportLayerCC) packetLen() uint16 *)
Definition TransportLayerCC_packetLen (t : TransportLayerCC) : Z :=
  foldl (λ n d, if rd_Type d =? TypeTCCPacketReceivedSmallDelta then u16 (n + 1) else u16 (n + 2))
    (u16 (20 + Z.of_nat (length (PacketChunks t)) * 2)) (RecvDeltas t).

(** func (t *TransportLayerCC) Len() uint16 *)
Definition TransportLayerCC_Len (t : TransportLayerCC) : Z :=
  let n := TransportLayerCC_packetLen t in
  if n mod 4 =? 0 then n else u16 (u16 (n / 4 + 1) * 4).

(** A delta that does not fit its type is left out. *)
Fixpoint copy_deltas (payload : list Z) (off : nat) (l : list RecvDelta) : rres (list Z) :=
  match l with
  | [] => Ok payload
  | d :: l =>
      match RecvDelta_Marshal d with
      | Ok b =>
          c ← copy_at payload off b;
          copy_deltas c.1
            (if rd_Type d =? TypeTCCPacketReceivedLargeDelta then (off + 2)%nat else (off + 1)%nat) l
      | Err _ => copy_deltas payload off l
      | Panic => Panic
      | Diverge => Diverge
      end
  end.

Definition TransportLayerCC_Marshal (t : TransportLayerCC) : rres (list Z) :=
  header ← Header_Marshal (tcc_Header t);
  let payload := zeros (Z.to_nat (u16 (TransportLayerCC_Len t - 4))) in
  payload ← put payload 0 (be32 (tcc_SenderSSRC t));
  payload ← put payload 4 (be32 (tcc_MediaSSRC t));
  payload ← put payload 8 (be16 (BaseSequenceNumber t));
  payload ← put payload 10 (be16 (PacketStatusCount t));
  let v := appendNBitsToUint32 0 24 (ReferenceTime t) in
  let v := appendNBitsToUint32 v 8 (FbPktCount t) in
  payload ← put payload 12 (be32 v);
  payload ← copy_each PacketStatusChunk_Marshal payload 16 2 (PacketChunks t);
  payload ← copy_deltas payload (16 + length (PacketChunks t) * 2) (RecvDeltas t);
  payload ← (if Padding (tcc_Header t) then
               if (length payload =? 0)%nat then Panic
               else put payload (length payload - 1)
                      [u8 (u16 (TransportLayerCC_Len t - TransportLayerCC_packetLen t))]
             else Ok payload);
  Ok (header ++ payload).

Definition is_delta (s : Z) : bool :=
  (s =? TypeTCCPacketReceivedSmallDelta) || (s =? TypeTCCPacketReceivedLargeDelta).

(** The loop over the status chunks, [processed < count]: the chunks, the types
    of the deltas to read and the position after the chunks. *)
Fixpoint read_status (fuel : nat) (raw : slice) (total count processed pos : Z)
    : rres (list PacketStatusChunk * list Z * Z) :=
  match fuel with
  | O => Diverge
  | S fuel =>
      if processed <? count then
        _ ← fail_if (total <=? u16 (pos + 2)) errPacketTooShort;
        c ← s_sub raw (Z.to_nat pos) (Z.to_nat (u16 (pos + 1)));
        b ← s_idx c 0;
        c ← s_sub raw (Z.to_nat pos) (Z.to_nat (u16 (pos + 2)));
        if getNBitsFromByte b 0 1 =? 0 then
          r ← RunLengthChunk_Unmarshal c;
          let n := Z.min (u16 (count - processed)) (RunLength r) in
          let ds := if is_delta (PacketStatusSymbol r)
                    then replicate (Z.to_nat n) (PacketStatusSymbol r) else [] in
          rest ← read_status fuel raw total count (u16 (processed + n)) (u16 (pos + 2));
          Ok (CRunLength r :: rest.1.1, ds ++ rest.1.2, rest.2)
        else
          v ← StatusVectorChunk_Unmarshal c;
          let ds :=
            if SymbolSize v =? TypeTCCSymbolSizeOneBit then
              filter (λ s, s = TypeTCCPacketReceivedSmallDelta) (SymbolList v)
            else if SymbolSize v =? TypeTCCSymbolSizeTwoBit then
              filter (λ s, is_delta s = true) (SymbolList v)
            else [] in
          rest ← read_status fuel raw total count
                   (u16 (processed + u16 (Z.of_nat (length (SymbolList v))))) (u16 (pos + 2));
          Ok (CStatusVector v :: rest.1.1, ds ++ rest.1.2, rest.2)
      else Ok ([], [], pos)
  end.

(** The loop over the deltas; the upper bound of a slice is not checked
    against the length of the packet. *)
Fixpoint read_deltas (raw : slice) (total pos : Z) (types : list Z) : rres (list RecvDelta) :=
  match types with
  | [] => Ok []
  | t :: types =>
      _ ← fail_if (total <=? pos) errPacketTooShort;
      if t =? TypeTCCPacketReceivedSmallDelta then
        c ← s_sub raw (Z.to_nat pos) (Z.to_nat (u16 (pos + 1)));
        d ← RecvDelta_Unmarshal c;
        l ← read_deltas raw total (u16 (pos + 1)) types;
        Ok (d :: l)
      else if t =? TypeTCCPacketReceivedLargeDelta then
        c ← s_sub raw (Z.to_nat pos) (Z.to_nat (u16 (pos + 2)));
        d ← RecvDelta_Unmarshal c;
        l ← read_deltas raw total (u16 (pos + 2)) types;
        Ok (d :: l)
      else
        l ← read_deltas raw total pos types;
        Ok (MkDelta t 0 :: l)
  end.

Definition TransportLayerCC_Unmarshal (raw : slice) : rres TransportLayerCC :=
  _ ← fail_if (s_len raw <? headerLength + ssrcLength)%nat errPacketTooShort;
  h ← Header_Unmarshal raw;
  let totalLength := u16 (4 * u16 (Length h + 1)) in
  _ ← fail_if (totalLength <? 20) errPacketTooShort;
  _ ← fail_if (Z.of_nat (s_len raw) <? totalLength) errPacketTooShort;
  _ ← fail_if (negb (Type_ h =? TypeTransportSpecificFeedback) || negb (Count h =? FormatTCC)) errWrongType;
  s ← get32_at raw headerLength;
  m ← get32_at raw (headerLength + ssrcLength);
  base ← get16_at raw (headerLength + 8);
  count ← get16_at raw (headerLength + 10);
  c ← s_sub raw (headerLength + 12) (headerLength + 12 + 3);
  ref ← get24BitsFromBytes c;
  fb ← s_idx raw (headerLength + 15);
  r ← read_status (S (Z.to_nat totalLength)) raw totalLength count 0 20;
  ds ← read_deltas raw totalLength r.2 r.1.2;
  Ok (MkTCC h s m base count ref fb r.1.1 ds).

Definition TransportLayerCC_DestinationSSRC (t : TransportLayerCC) : list Z := [tcc_MediaSSRC t].

(** ** ReceiverEstimatedMaximumBitrate

    Bitrate is a float32, kept as its 32 bits (math.Float32bits).  Every finite
    float32 is a multiple of 2^-149: [f32_scaled] is that multiple. *)

Record ReceiverEstimatedMaximumBitrate := MkREMB {
  remb_SenderSSRC : Z;
  Bitrate : Z;
  SSRCs : list Z;
}.

Inductive f32 := FNaN | FInf (neg : bool) | FFin (scaled : Z).

Definition f32_of_bits (bits : Z) : f32 :=
  let neg := Z.testbit bits 31 in
  let e := Z.land (Z.shiftr bits 23) 0xFF in
  let m := Z.land bits 0x7FFFFF in
  if e =? 255 then (if m =? 0 then FInf neg else FNaN)
  else
    let v := if e =? 0 then m else Z.shiftl (m + 2 ^ 23) (e - 1) in
    FFin (if neg then - v else v).

(** bitratemax, 0x3FFFFp+63, in multiples of 2^-149 *)
Definition bitratemax : Z := 0x3FFFF * 2 ^ (63 + 149).

(** [for bitrate >= (1 << 18) { bitrate /= 2.0; exp++ }]: the division is
    exact, the numbers are normal. *)
Fixpoint bitrate_loop (fuel : nat) (v exp : Z) : rres (Z * Z) :=
  if v <? 2 ^ (18 + 149) then Ok (v, exp)
  else match fuel with
       | O => Diverge
       | S fuel => bitrate_loop fuel (v / 2) (exp + 1)
       end.

Definition REMB_MarshalSize (p : ReceiverEstimatedMaximumBitrate) : nat := (20 + 4 * length (SSRCs p))%nat.

(** The bitrate after the clamp; a NaN passes every comparison, and the
    conversion of its floor to an integer is not specified by Go: [nan]. *)
Definition remb_mantissa (nan : Z) (bits : Z) : rres (Z * Z) :=
  match f32_of_bits bits with
  | FNaN => Ok (nan, 0)
  | FInf true => Err errInvalidBitrate
  | f =>
      let v := match f with FFin v => Z.min v bitratemax | _ => bitratemax end in
      _ ← fail_if (v <? 0) errInvalidBitrate;
      r ← bitrate_loop 300 v 0;
      _ ← fail_if (64 <=? r.2) errInvalidBitrate;
      Ok (r.1 / 2 ^ 149, r.2)
  end.

(** func (p ReceiverEstimatedMaximumBitrate) Marshal() (buf []byte, err error),
    with MarshalTo on a buffer of the exact size. *)
Definition REMB_Marshal (nan : Z) (p : ReceiverEstimatedMaximumBitrate) : rres (list Z) :=
  let size := REMB_MarshalSize p in
  buf ← put (zeros size) 0 [143];
  buf ← put buf 1 [206];
  buf ← put buf 2 (be16 (length_field size));
  buf ← put buf 4 (be32 (remb_SenderSSRC p));
  buf ← put buf 8 (be32 0);
  buf ← put buf 12 [82; 69; 77; 66];
  buf ← put buf 16 [u8 (Z.of_nat (length (SSRCs p)))];
  r ← remb_mantissa nan (Bitrate p);
  let '(mantissa, exp) := r in
  buf ← put buf 17 [Z.lor (u8 (Z.shiftl exp 2)) (u8 (Z.shiftr mantissa 16))];
  buf ← put buf 18 [u8 (Z.shiftr mantissa 8)];
  buf ← put buf 19 [u8 mantissa];
  put_each (λ s, Ok (be32 s)) buf 20 4 (SSRCs p).

(** [for (mantissa & (mantissamax + 1)) == 0 { exp--; mantissa *= 2 }] *)
Fixpoint normalize (fuel : nat) (mantissa exp : Z) : rres (Z * Z) :=
  if Z.land mantissa 0x800000 =? 0 then
    match fuel with
    | O => Diverge
    | S fuel => normalize fuel (u32 (mantissa * 2)) (u8 (exp - 1))
    end
  else Ok (mantissa, exp).

(** func (p *ReceiverEstimatedMaximumBitrate) Unmarshal(buf []byte) (err error) *)
Definition REMB_Unmarshal (buf : slice) : rres ReceiverEstimatedMaximumBitrate :=
  _ ← fail_if (s_len buf <? 20)%nat errPacketTooShort;
  b0 ← s_idx buf 0;
  _ ← fail_if (negb (Z.shiftr b0 6 =? 2)) errBadVersion;
  _ ← fail_if (negb (Z.land (Z.shiftr b0 5) 1 =? 0)) errWrongPadding;
  _ ← fail_if (negb (Z.land b0 31 =? 15)) errWrongFeedbackType;
  b1 ← s_idx buf 1;
  _ ← fail_if (negb (b1 =? 206)) errWrongPayloadType;
  c ← s_sub buf 2 4;
  length_ ← get16 c;
  let size := u16 (u16 (length_ + 1) * 4) in
  _ ← fail_if (size <? 20) errHeaderTooSmall;
  _ ← fail_if (Z.of_nat (s_len buf) <? size) errPacketTooShort;
  c ← s_sub buf 4 8;
  sender ← get32 c;
  c ← s_sub buf 8 12;
  media ← get32 c;
  _ ← fail_if (negb (media =? 0)) errSSRCMustBeZero;
  c ← s_sub buf 12 16;
  _ ← fail_if (negb (bool_decide (s_bytes c = [82; 69; 77; 66]))) errMissingREMBidentifier;
  num ← s_idx buf 16;
  _ ← fail_if (negb (size =? 20 + 4 * num)) errSSRCNumAndLengthMismatch;
  b17 ← s_idx buf 17;
  b18 ← s_idx buf 18;
  b19 ← s_idx buf 19;
  let exp := u8 (u8 (Z.shiftr b17 2 + 127) + 23) in
  let mantissa := Z.lor (Z.lor (Z.shiftl (Z.land b17 3) 16) (Z.shiftl b18 8)) b19 in
  r ← (if mantissa =? 0 then Ok (mantissa, exp) else normalize 24 mantissa exp);
  let bitrate := Z.lor (u32 (Z.shiftl r.2 23)) (Z.land r.1 0x7FFFFF) in
  ssrcs ← read_words buf 20 (Z.to_nat num);
  Ok (MkREMB sender bitrate ssrcs).

Definition REMB_DestinationSSRC (p : ReceiverEstimatedMaximumBitrate) : list Z := SSRCs p.
