(* ===== verification/RtcpXr.v ===== *)
(** * RTCP extended reports (RFC 3611)

    packet_buffer.go of pion/rtcp reads and writes structs by reflection; the
    model is as generic: a value carries its kind, a type describes the fields
    of a struct in their order with their tags.  extended_report.go gives the
    types of the report blocks. *)

From S2P Require Import Prelude Bytes Rtcp.

#[local] Set Warnings "-register-all".

(** How reflection sees a field: exported, tagged encoding:"omit", or
    unexported (it takes space, is skipped by reads and left zero by writes). *)
Inductive ftag := Exported | Omit | Unexported.

Inductive ftype :=
  | TU8 | TU16 | TU32 | TU64 | TBool
  | TSlice (t : ftype)
  | TStruct (l : list (ftag * ftype)).

Inductive fval :=
  | VU8 (z : Z) | VU16 (z : Z) | VU32 (z : Z) | VU64 (z : Z) | VBool (b : bool)
  | VSlice (l : list fval)
  | VStruct (l : list (ftag * fval)).

(** reflect.Type.Size of the types that can stand in an unexported field here. *)
Definition fsize (v : fval) : nat :=
  match v with
  | VU8 _ | VBool _ => 1
  | VU16 _ => 2
  | VU32 _ => 4
  | VU64 _ => 8
  | _ => 0
  end.

(** The zero value of a type. *)
Fixpoint fzero (t : ftype) : fval :=
  match t with
  | TU8 => VU8 0
  | TU16 => VU16 0
  | TU32 => VU32 0
  | TU64 => VU64 0
  | TBool => VBool false
  | TSlice _ => VSlice []
  | TStruct l => VStruct (map (λ f, (f.1, fzero f.2)) l)
  end.

(** ** packetBuffer *)

(** One word: the bytes stored and the rest of the buffer. *)
Definition write_word (n : nat) (bs : list Z) (rem : list Z) : rres (list Z * list Z) :=
  _ ← fail_if (length rem <? n)%nat errWrongMarshalSize;
  Ok (bs, drop n rem).

(** func (b *packetBuffer) write(v interface{}) error: [rem] is b.bytes before;
    the bytes that now stand at its front, and b.bytes after. *)
Fixpoint pb_write (v : fval) (rem : list Z) : rres (list Z * list Z) :=
  match v with
  | VU8 z => write_word 1 [u8 z] rem
  | VU16 z => write_word 2 (be16 z) rem
  | VU32 z => write_word 4 (be32 z) rem
  | VU64 z => write_word 8 (be64 z) rem
  | VBool _ => Err errBadStructMemberType
  | VSlice l =>
      (fix go l rem :=
         match l with
         | [] => Ok ([], rem)
         | x :: l =>
             r ← pb_write x rem;
             r' ← go l r.2;
             Ok (r.1 ++ r'.1, r'.2)
         end) l rem
  | VStruct l =>
      (fix go l rem :=
         match l with
         | [] => Ok ([], rem)
         | (Omit, _) :: l => go l rem
         | (Exported, x) :: l =>
             r ← pb_write x rem;
             r' ← go l r.2;
             Ok (r.1 ++ r'.1, r'.2)
         | (Unexported, x) :: l =>
             _ ← fail_if (length rem <? fsize x)%nat errWrongMarshalSize;
             r' ← go l (drop (fsize x) rem);
             Ok (take (fsize x) rem ++ r'.1, r'.2)
         end) l rem
  end.

(** One word read: the value and the rest of the buffer. *)
Definition read_word (n : nat) (get : slice → rres Z) (mk : Z → fval) (b : slice)
    : rres (fval * slice) :=
  _ ← fail_if (s_len b <? n)%nat errWrongMarshalSize;
  z ← get b;
  r ← s_from b n;
  Ok (mk z, r).

(** func (b *packetBuffer) read(v interface{}) error.  A slice takes the rest
    of the buffer; [fuel] bounds the number of its elements. *)
Fixpoint pb_read (fuel : nat) (t : ftype) (b : slice) : rres (fval * slice) :=
  match t with
  | TU8 => read_word 1 (λ b, s_idx b 0) VU8 b
  | TU16 => read_word 2 get16 VU16 b
  | TU32 => read_word 4 get32 VU32 b
  | TU64 => read_word 8 get64 VU64 b
  | TBool => Err errBadStructMemberType
  | TSlice t =>
      r ← (fix go n b :=
             if (s_len b =? 0)%nat then Ok ([], b)
             else match n with
                  | O => Diverge
                  | S n =>
                      x ← pb_read fuel t b;
                      r ← go n x.2;
                      Ok (x.1 :: r.1, r.2)
                  end) fuel b;
      Ok (VSlice r.1, r.2)
  | TStruct l =>
      r ← (fix go l b :=
             match l with
             | [] => Ok ([], b)
             | (Omit, t) :: l =>
                 r ← go l b;
                 Ok ((Omit, fzero t) :: r.1, r.2)
             | (Exported, t) :: l =>
                 x ← pb_read fuel t b;
                 r ← go l x.2;
                 Ok ((Exported, x.1) :: r.1, r.2)
             | (Unexported, t) :: l =>
                 let advance := fsize (fzero t) in
                 _ ← fail_if (s_len b <? advance)%nat errWrongMarshalSize;
                 c ← s_from b advance;
                 r ← go l c;
                 Ok ((Unexported, fzero t) :: r.1, r.2)
             end) l b;
      Ok (VStruct r.1, r.2)
  end.

(** func wireSize(v interface{}) int *)
Fixpoint wireSize (v : fval) : nat :=
  match v with
  | VSlice l => foldr (λ x n, (wireSize x + n)%nat) 0%nat l
  | VStruct l =>
      foldr (λ f n, (match f.1 with
                     | Omit => 0
                     | Exported => wireSize f.2
                     | Unexported => fsize f.2
                     end + n)%nat) 0%nat l
  | _ => fsize v
  end.

(** func (b *packetBuffer) split(size int) packetBuffer: the first bytes, and
    what is left in b. *)
Definition pb_split (b : slice) (size : nat) : rres (slice * slice) :=
  let size := if (s_len b <? size)%nat then s_len b else size in
  c ← s_sub b 0 size;
  r ← s_from b size;
  Ok (c, r).

(** ** The report blocks *)

Definition XRHeader : ftype := TStruct [(Exported, TU8); (Exported, TU8); (Exported, TU16)].

Definition rleReportBlock : ftype :=
  TStruct [(Exported, XRHeader); (Omit, TU8); (Exported, TU32); (Exported, TU16); (Exported, TU16);
           (Exported, TSlice TU16)].
Definition PacketReceiptTimesReportBlock : ftype :=
  TStruct [(Exported, XRHeader); (Omit, TU8); (Exported, TU32); (Exported, TU16); (Exported, TU16);
           (Exported, TSlice TU32)].
Definition ReceiverReferenceTimeReportBlock : ftype :=
  TStruct [(Exported, XRHeader); (Exported, TU64)].
Definition DLRRReport : ftype := TStruct [(Exported, TU32); (Exported, TU32); (Exported, TU32)].
Definition DLRRReportBlock : ftype := TStruct [(Exported, XRHeader); (Exported, TSlice DLRRReport)].
Definition StatisticsSummaryReportBlock : ftype :=
  TStruct ([(Exported, XRHeader); (Omit, TBool); (Omit, TBool); (Omit, TBool); (Omit, TU8);
            (Exported, TU32); (Exported, TU16); (Exported, TU16)] ++
           replicate 6 (Exported, TU32) ++ replicate 4 (Exported, TU8)).
Definition VoIPMetricsReportBlock : ftype :=
  TStruct ([(Exported, XRHeader); (Exported, TU32)] ++ replicate 4 (Exported, TU8) ++
           replicate 4 (Exported, TU16) ++ replicate 9 (Exported, TU8) ++
           [(Unexported, TU8)] ++ replicate 3 (Exported, TU16)).
Definition UnknownReportBlock : ftype := TStruct [(Exported, XRHeader); (Exported, TSlice TU8)].

(** Chunk, a run length, a bit vector or the end of the chunks. *)
Definition RunLengthChunkType : Z := 0.
Definition BitVectorChunkType : Z := 1.
Definition TerminatingNullChunkType : Z := 2.

Definition XrChunk_Type (c : Z) : Z :=
  if c =? 0 then TerminatingNullChunkType else Z.shiftr c 15.

Definition XrChunk_RunType (c : Z) : rres Z :=
  _ ← fail_if (negb (XrChunk_Type c =? RunLengthChunkType)) errWrongChunkType;
  Ok (Z.land (Z.shiftr c 14) 1).

Definition XrChunk_Value (c : Z) : Z :=
  if XrChunk_Type c =? RunLengthChunkType then Z.land c 0x3FFF
  else if XrChunk_Type c =? BitVectorChunkType then Z.land c 0x7FFF
  else if XrChunk_Type c =? TerminatingNullChunkType then 0
  else c.

(** The interface ReportBlock: which struct, and its value. *)
Inductive block_kind :=
  | LossRLE | DuplicateRLE | PacketReceiptTimes | ReceiverReferenceTime | DLRR
  | StatisticsSummary | VoIPMetrics | Unknown.

#[export] Instance block_kind_eq_dec : EqDecision block_kind.
Proof. solve_decision. Defined.

Definition block_type (k : block_kind) : ftype :=
  match k with
  | LossRLE | DuplicateRLE => rleReportBlock
  | PacketReceiptTimes => PacketReceiptTimesReportBlock
  | ReceiverReferenceTime => ReceiverReferenceTimeReportBlock
  | DLRR => DLRRReportBlock
  | StatisticsSummary => StatisticsSummaryReportBlock
  | VoIPMetrics => VoIPMetricsReportBlock
  | Unknown => UnknownReportBlock
  end.

(** The switch on xrHeader.BlockType. *)
Definition block_kind_of (blockType : Z) : block_kind :=
  if blockType =? 1 then LossRLE
  else if blockType =? 2 then DuplicateRLE
  else if blockType =? 3 then PacketReceiptTimes
  else if blockType =? 4 then ReceiverReferenceTime
  else if blockType =? 5 then DLRR
  else if blockType =? 6 then StatisticsSummary
  else if blockType =? 7 then VoIPMetrics
  else Unknown.

Record ReportBlock := MkBlock { b_kind : block_kind; b_val : fval }.

Definition xr_header (bt ts len : Z) : ftag * fval :=
  (Exported, VStruct [(Exported, VU8 bt); (Exported, VU8 ts); (Exported, VU16 len)]).

(** func (b *...) setupBlockHeader() of every kind. *)
Definition setupBlockHeader (b : ReportBlock) : ReportBlock :=
  let len := u16 (Z.of_nat (wireSize (b_val b) / 4) - 1) in
  let set bt ts rest := MkBlock (b_kind b) (VStruct (xr_header bt ts len :: rest)) in
  match b_kind b, b_val b with
  | LossRLE, VStruct (_ :: (o, VU8 t) :: r) => set 1 (Z.land t 0x0F) ((o, VU8 t) :: r)
  | DuplicateRLE, VStruct (_ :: (o, VU8 t) :: r) => set 2 (Z.land t 0x0F) ((o, VU8 t) :: r)
  | PacketReceiptTimes, VStruct (_ :: (o, VU8 t) :: r) => set 3 (Z.land t 0x0F) ((o, VU8 t) :: r)
  | ReceiverReferenceTime, VStruct (_ :: r) => set 4 0 r
  | DLRR, VStruct (_ :: r) => set 5 0 r
  | StatisticsSummary,
    VStruct (_ :: (o1, VBool l) :: (o2, VBool d) :: (o3, VBool j) :: (o4, VU8 toh) :: r) =>
      let ts := 0 in
      let ts := if l then Z.lor ts 0x80 else ts in
      let ts := if d then Z.lor ts 0x40 else ts in
      let ts := if j then Z.lor ts 0x20 else ts in
      set 6 (Z.lor ts (u8 (Z.shiftl (Z.land toh 0x03) 3)))
        ((o1, VBool l) :: (o2, VBool d) :: (o3, VBool j) :: (o4, VU8 toh) :: r)
  | VoIPMetrics, VStruct (_ :: r) => set 7 0 r
  | Unknown, VStruct ((_, VStruct [(_, VU8 bt); (_, VU8 ts); _]) :: r) => set bt ts r
  | _, _ => b
  end.

(** func (b *...) unpackBlockHeader() of every kind. *)
Definition unpackBlockHeader (b : ReportBlock) : ReportBlock :=
  match b_kind b, b_val b with
  | (LossRLE | DuplicateRLE | PacketReceiptTimes),
    VStruct ((e, VStruct [(e1, VU8 bt); (e2, VU8 ts); (e3, VU16 len)]) :: (o, _) :: r) =>
      MkBlock (b_kind b)
        (VStruct ((e, VStruct [(e1, VU8 bt); (e2, VU8 ts); (e3, VU16 len)])
                  :: (o, VU8 (Z.land ts 0x0F)) :: r))
  | StatisticsSummary,
    VStruct ((e, VStruct [(e1, VU8 bt); (e2, VU8 ts); (e3, VU16 len)])
             :: (o1, _) :: (o2, _) :: (o3, _) :: (o4, _) :: r) =>
      MkBlock (b_kind b)
        (VStruct ((e, VStruct [(e1, VU8 bt); (e2, VU8 ts); (e3, VU16 len)])
                  :: (o1, VBool (negb (Z.land ts 0x80 =? 0)))
                  :: (o2, VBool (negb (Z.land ts 0x40 =? 0)))
                  :: (o3, VBool (negb (Z.land ts 0x20 =? 0)))
                  :: (o4, VU8 (Z.shiftr (Z.land ts 0x18) 3)) :: r))
  | _, _ => b
  end.

(** ** ExtendedReport *)

Record ExtendedReport := MkXR { xr_SenderSSRC : Z; xr_Reports : list ReportBlock }.

Definition xr_value (x : ExtendedReport) : fval :=
  VStruct [(Exported, VU32 (xr_SenderSSRC x)); (Exported, VSlice (map b_val (xr_Reports x)))].

(** func (x ExtendedReport) Marshal() ([]byte, error) *)
Definition ExtendedReport_Marshal (x : ExtendedReport) : rres (list Z) :=
  let x := MkXR (xr_SenderSSRC x) (map setupBlockHeader (xr_Reports x)) in
  let length_ := wireSize (xr_value x) in
  headerBuffer ← Header_Marshal (MkHeader false 0 TypeExtendedReport (u16 (Z.of_nat (length_ / 4))));
  r ← pb_write (VSlice (map VU8 headerBuffer)) (zeros (length_ + length headerBuffer));
  r' ← pb_write (xr_value x) r.2;
  Ok (r.1 ++ r'.1 ++ r'.2).

(** [for len(buffer.bytes) > 0 { ... }] *)
Fixpoint read_xr_blocks (fuel : nat) (b : slice) : rres (list ReportBlock) :=
  if (s_len b =? 0)%nat then Ok []
  else match fuel with
       | O => Diverge
       | S fuel =>
           h ← pb_read 0 XRHeader b;
           let '(blockType, blockLength) :=
             match h.1 with
             | VStruct [(_, VU8 bt); _; (_, VU16 len)] => (bt, len)
             | _ => (0, 0)
             end in
           let kind := block_kind_of blockType in
           s ← pb_split b (Z.to_nat ((blockLength + 1) * 4));
           v ← pb_read (s_len s.1) (block_type kind) s.1;
           l ← read_xr_blocks fuel s.2;
           Ok (unpackBlockHeader (MkBlock kind v.1) :: l)
       end.

(** func (x *ExtendedReport) Unmarshal(b []byte) error *)
Definition ExtendedReport_Unmarshal (b : slice) : rres ExtendedReport :=
  h ← Header_Unmarshal b;
  _ ← fail_if (negb (Type_ h =? TypeExtendedReport)) errWrongType;
  body ← s_from b headerLength;
  r ← pb_read 0 TU32 body;
  let sender := match r.1 with VU32 z => z | _ => 0 end in
  l ← read_xr_blocks (s_len b) r.2;
  Ok (MkXR sender l).

(** DestinationSSRC of a report block. *)
Definition block_DestinationSSRC (b : ReportBlock) : list Z :=
  match b_kind b, b_val b with
  | (LossRLE | DuplicateRLE | PacketReceiptTimes), VStruct (_ :: _ :: (_, VU32 s) :: _) => [s]
  | DLRR, VStruct [_; (_, VSlice l)] =>
      omap (λ r, match r with VStruct ((_, VU32 s) :: _) => Some s | _ => None end) l
  | StatisticsSummary, VStruct (_ :: _ :: _ :: _ :: _ :: (_, VU32 s) :: _) => [s]
  | VoIPMetrics, VStruct (_ :: (_, VU32 s) :: _) => [s]
  | _, _ => []
  end.

Definition ExtendedReport_DestinationSSRC (x : ExtendedReport) : list Z :=
  flat_map block_DestinationSSRC (xr_Reports x).
