(* ===== verification/RtcpPacket.v ===== *)
(** * RTCP datagrams

    packet.go, raw_packet.go and compound_packet.go of pion/rtcp: the interface
    Packet with its implementations, the function that reads every packet of a
    datagram, and the check of compound packets. *)

From S2P Require Import Prelude Bytes Rtcp RtcpFeedback RtcpCongestion RtcpXr.

(** The types that implement the interface Packet. *)
Inductive Packet :=
  | PSenderReport (p : SenderReport)
  | PReceiverReport (p : ReceiverReport)
  | PSourceDescription (p : SourceDescription)
  | PGoodbye (p : Goodbye)
  | PTransportLayerNack (p : TransportLayerNack)
  | PRapidResynchronizationRequest (p : RapidResynchronizationRequest)
  | PTransportLayerCC (p : TransportLayerCC)
  | PCCFeedbackReport (p : CCFeedbackReport)
  | PPictureLossIndication (p : PictureLossIndication)
  | PSliceLossIndication (p : SliceLossIndication)
  | PReceiverEstimatedMaximumBitrate (p : ReceiverEstimatedMaximumBitrate)
  | PFullIntraRequest (p : FullIntraRequest)
  | PExtendedReport (p : ExtendedReport)
  | PRawPacket (b : list Z).

(** func (r *RawPacket) Unmarshal(b []byte) error *)
Definition RawPacket_Unmarshal (b : slice) : rres (list Z) :=
  _ ← fail_if (s_len b <? headerLength)%nat errPacketTooShort;
  _ ← Header_Unmarshal b;
  Ok (s_bytes b).

(** The switch of [unmarshal] on the type and the count of the header: which
    packet is made. *)
Inductive packet_kind :=
  | KSR | KRR | KSDES | KBYE | KNACK | KRRR | KTCC | KCCFB | KPLI | KSLI | KREMB | KFIR | KXR | KRaw.

Definition kind_of (h : Header) : packet_kind :=
  if Type_ h =? TypeSenderReport then KSR
  else if Type_ h =? TypeReceiverReport then KRR
  else if Type_ h =? TypeSourceDescription then KSDES
  else if Type_ h =? TypeGoodbye then KBYE
  else if Type_ h =? TypeTransportSpecificFeedback then
    if Count h =? FormatTLN then KNACK
    else if Count h =? FormatRRR then KRRR
    else if Count h =? FormatTCC then KTCC
    else if Count h =? FormatCCFB then KCCFB
    else KRaw
  else if Type_ h =? TypePayloadSpecificFeedback then
    if Count h =? FormatPLI then KPLI
    else if Count h =? FormatSLI then KSLI
    else if Count h =? FormatREMB then KREMB
    else if Count h =? FormatFIR then KFIR
    else KRaw
  else if Type_ h =? TypeExtendedReport then KXR
  else KRaw.

(** packet.Unmarshal(inPacket) *)
Definition Packet_Unmarshal (k : packet_kind) (b : slice) : rres Packet :=
  match k with
  | KSR => PSenderReport <$> SenderReport_Unmarshal b
  | KRR => PReceiverReport <$> ReceiverReport_Unmarshal b
  | KSDES => PSourceDescription <$> SourceDescription_Unmarshal b
  | KBYE => PGoodbye <$> Goodbye_Unmarshal b
  | KNACK => PTransportLayerNack <$> TransportLayerNack_Unmarshal b
  | KRRR => PRapidResynchronizationRequest <$> RapidResynchronizationRequest_Unmarshal b
  | KTCC => PTransportLayerCC <$> TransportLayerCC_Unmarshal b
  | KCCFB => PCCFeedbackReport <$> CCFeedbackReport_Unmarshal b
  | KPLI => PPictureLossIndication <$> PictureLossIndication_Unmarshal b
  | KSLI => PSliceLossIndication <$> SliceLossIndication_Unmarshal b
  | KREMB => PReceiverEstimatedMaximumBitrate <$> REMB_Unmarshal b
  | KFIR => PFullIntraRequest <$> FullIntraRequest_Unmarshal b
  | KXR => PExtendedReport <$> ExtendedReport_Unmarshal b
  | KRaw => PRawPacket <$> RawPacket_Unmarshal b
  end.

(** func unmarshal(rawData []byte) (packet Packet, bytesprocessed int, err error):
    [h.Length+1] is a uint16. *)
Definition unmarshal (rawData : slice) : rres (Packet * nat) :=
  h ← Header_Unmarshal rawData;
  let bytesprocessed := (Z.to_nat (u16 (Length h + 1)) * 4)%nat in
  _ ← fail_if (s_len rawData <? bytesprocessed)%nat errPacketTooShort;
  inPacket ← s_sub rawData 0 bytesprocessed;
  p ← Packet_Unmarshal (kind_of h) inPacket;
  Ok (p, bytesprocessed).

(** [for len(rawData) != 0 { ... }] *)
Fixpoint unmarshal_loop (fuel : nat) (rawData : slice) : rres (list Packet) :=
  if (s_len rawData =? 0)%nat then Ok []
  else match fuel with
       | O => Diverge
       | S fuel =>
           r ← unmarshal rawData;
           rest ← s_from rawData r.2;
           l ← unmarshal_loop fuel rest;
           Ok (r.1 :: l)
       end.

(** func Unmarshal(rawData []byte) ([]Packet, error) *)
Definition Unmarshal (rawData : slice) : rres (list Packet) :=
  l ← unmarshal_loop (s_len rawData) rawData;
  match l with
  | [] => Err errInvalidHeader
  | _ => Ok l
  end.

Section marshal.
(** The integer a NaN converts to, which Go leaves open. *)
Context (nan : Z).

(** p.Marshal() *)
Definition Packet_Marshal (p : Packet) : rres (list Z) :=
  match p with
  | PSenderReport p => SenderReport_Marshal p
  | PReceiverReport p => ReceiverReport_Marshal p
  | PSourceDescription p => SourceDescription_Marshal p
  | PGoodbye p => Goodbye_Marshal p
  | PTransportLayerNack p => TransportLayerNack_Marshal p
  | PRapidResynchronizationRequest p => RapidResynchronizationRequest_Marshal p
  | PTransportLayerCC p => TransportLayerCC_Marshal p
  | PCCFeedbackReport p => CCFeedbackReport_Marshal p
  | PPictureLossIndication p => PictureLossIndication_Marshal p
  | PSliceLossIndication p => SliceLossIndication_Marshal p
  | PReceiverEstimatedMaximumBitrate p => REMB_Marshal nan p
  | PFullIntraRequest p => FullIntraRequest_Marshal p
  | PExtendedReport p => ExtendedReport_Marshal p
  | PRawPacket b => Ok b
  end.

(** func Marshal(packets []Packet) ([]byte, error) *)
Definition Marshal (packets : list Packet) : rres (list Z) := append_each Packet_Marshal [] packets.

(** ** CompoundPacket *)

Definition has_cname (p : SourceDescription) : bool :=
  existsb (λ c, existsb (λ it, it_Type it =? SDESCNAME) (ch_Items c)) (Chunks p).

Fixpoint validate_rest (l : list Packet) : rres unit :=
  match l with
  | [] => Err errMissingCNAME
  | PReceiverReport _ :: l => validate_rest l
  | PSourceDescription p :: _ => if has_cname p then Ok tt else Err errMissingCNAME
  | _ => Err errPacketBeforeCNAME
  end.

(** func (c CompoundPacket) Validate() error *)
Definition Validate (c : list Packet) : rres unit :=
  match c with
  | [] => Err errEmptyCompound
  | (PSenderReport _ | PReceiverReport _) :: l => validate_rest l
  | _ => Err errBadFirstPacket
  end.

(** func (c CompoundPacket) Marshal() ([]byte, error) *)
Definition Compound_Marshal (c : list Packet) : rres (list Z) :=
  _ ← Validate c;
  Marshal c.

(** func (c *CompoundPacket) Unmarshal(rawData []byte) error *)
Definition Compound_Unmarshal (rawData : slice) : rres (list Packet) :=
  l ← unmarshal_loop (s_len rawData) rawData;
  _ ← Validate l;
  Ok l.
End marshal.

(** The first CNAME item of a source description. *)
Definition sdes_cname (p : SourceDescription) : option (list Z) :=
  it_Text <$> List.find (λ it, it_Type it =? SDESCNAME) (flat_map ch_Items (Chunks p)).

(** The loop of CNAME; [err] is the error met so far, which is returned along
    with the text. *)
Fixpoint cname_loop (err : option rtcp_err) (l : list Packet) : list Z * option rtcp_err :=
  match l with
  | [] => ([], Some errMissingCNAME)
  | PSourceDescription p :: l =>
      match sdes_cname p with
      | Some t => (t, err)
      | None => cname_loop err l
      end
  | PReceiverReport _ :: l => cname_loop err l
  | _ :: l => cname_loop (Some errPacketBeforeCNAME) l
  end.

(** func (c CompoundPacket) CNAME() (string, error) *)
Definition Compound_CNAME (c : list Packet) : list Z * option rtcp_err :=
  match c with
  | [] => ([], Some errEmptyCompound)
  | _ :: l => cname_loop None l
  end.

(** func (r RawPacket) Header() Header: the zero header for bytes that are none. *)
Definition RawPacket_Header (r : slice) : Header :=
  match Header_Unmarshal r with
  | Ok h => h
  | _ => MkHeader false 0 0 0
  end.

(** DestinationSSRC of every kind of packet. *)
Definition DestinationSSRC (p : Packet) : list Z :=
  match p with
  | PSenderReport p => SenderReport_DestinationSSRC p
  | PReceiverReport p => ReceiverReport_DestinationSSRC p
  | PSourceDescription p => SourceDescription_DestinationSSRC p
  | PGoodbye p => Goodbye_DestinationSSRC p
  | PTransportLayerNack p => TransportLayerNack_DestinationSSRC p
  | PRapidResynchronizationRequest p => [rrr_MediaSSRC p]
  | PTransportLayerCC p => TransportLayerCC_DestinationSSRC p
  | PCCFeedbackReport p => CCFeedbackReport_DestinationSSRC p
  | PPictureLossIndication p => PictureLossIndication_DestinationSSRC p
  | PSliceLossIndication p => SliceLossIndication_DestinationSSRC p
  | PReceiverEstimatedMaximumBitrate p => REMB_DestinationSSRC p
  | PFullIntraRequest p => FullIntraRequest_DestinationSSRC p
  | PExtendedReport p => ExtendedReport_DestinationSSRC p
  | PRawPacket _ => []
  end.

(** func (c CompoundPacket) DestinationSSRC() []uint32 *)
Definition Compound_DestinationSSRC (c : list Packet) : list Z :=
  match c with
  | [] => []
  | p :: _ => DestinationSSRC p
  end.
