(* ===== verification/RtcpCodec.v ===== *)
(** * RTCP packets: codecs

    Every kind of packet the server or its interceptors write is an instance of
    [Codec]: its bytes start with a header that announces their number, and
    reading them gives the packet back. *)

From S2P Require Import Prelude Bytes Rtcp RtcpFeedback RtcpCongestion RtcpXr RtcpPacket.

(** The constant offsets are numbers. *)
Ltac rtcp_lia := unfold headerLength, ssrcLength, receptionReportLength, srHeaderLength in *; buf_lia.

(** ** The header *)

Definition hdr_byte0 (h : Header) : Z :=
  Z.lor (if Padding h then Z.lor (Z.lor 0 (Z.shiftl 2 6)) (Z.shiftl 1 5) else Z.lor 0 (Z.shiftl 2 6))
    (u8 (Z.shiftl (Count h) 0)).

Definition wire_hdr (h : Header) : list Z := [hdr_byte0 h; u8 (Type_ h)] ++ be16 (Length h).

Definition hdr_ok (h : Header) : Prop := 0 ≤ Count h ≤ 31 ∧ is_byte (Type_ h) ∧ is_u16 (Length h).

Lemma length_wire_hdr h : length (wire_hdr h) = 4%nat.
Proof. done. Qed.

Lemma Header_Marshal_wire h : hdr_ok h → Header_Marshal h = Ok (wire_hdr h).
Proof.
  intros (Hc & _ & _). unfold Header_Marshal. rewrite fail_if_false, bind_Ok by lia.
  rewrite <- (app_nil_l (zeros headerLength)), put_zeros by rtcp_lia. rewrite bind_Ok.
  rewrite put_zeros by rtcp_lia. rewrite bind_Ok.
  rewrite put_zeros by rtcp_lia. rewrite length_be16. cbn [headerLength length Nat.sub zeros replicate].
  by rewrite app_nil_r.
Qed.

Definition hdr_fields (p : bool) (c : Z) : bool :=
  let b := Z.lor (if p then Z.lor (Z.lor 0 (Z.shiftl 2 6)) (Z.shiftl 1 5) else Z.lor 0 (Z.shiftl 2 6))
             (u8 (Z.shiftl c 0)) in
  (Z.land (Z.shiftr b 6) 3 =? 2) && eqb (0 <? Z.land (Z.shiftr b 5) 1) p &&
  (Z.land (Z.shiftr b 0) 0x1f =? c) && (0 <=? b) && (b <? 256).

Lemma hdr_byte0_spec h : 0 ≤ Count h ≤ 31 →
  Z.land (Z.shiftr (hdr_byte0 h) 6) 3 = 2 ∧ (0 <? Z.land (Z.shiftr (hdr_byte0 h) 5) 1) = Padding h ∧
  Z.land (Z.shiftr (hdr_byte0 h) 0) 0x1f = Count h ∧ is_byte (hdr_byte0 h).
Proof.
  intros Hc. assert (hdr_fields (Padding h) (Count h) = true) as H.
  { assert (0 ≤ Count h < Z.of_nat 32) as Hc' by lia. generalize Hc'. generalize (Count h).
    apply (forall_upto 32). by destruct (Padding h); vm_compute. }
  unfold hdr_fields in H. fold (hdr_byte0 h) in H.
  rewrite !andb_true_iff, eqb_true_iff, !Z.eqb_eq in H. destruct_and!.
  unfold is_byte. repeat split; lia || done.
Qed.

Lemma Header_Unmarshal_wire h b r :
  hdr_ok h → (s_len b <= s_cap b)%nat → s_bytes b = wire_hdr h ++ r → Header_Unmarshal b = Ok h.
Proof.
  intros (Hc & Ht & Hl) Hb H. destruct (hdr_byte0_spec h Hc) as (Hv & Hp & Hn & _).
  pose proof (drop_s_bytes_len b 0 _ _ Hb H ltac:(done)) as Hlen. rewrite length_wire_hdr in Hlen.
  unfold wire_hdr in H. change (s_bytes b) with (drop 0 (s_bytes b)) in H. cbn [app] in H.
  unfold Header_Unmarshal, headerLength. rewrite fail_if_false, bind_Ok by (apply Nat.ltb_ge; lia).
  rewrite (s_idx_at b 0 _ _ Hb H), bind_Ok, Hv, Hp, Hn.
  rewrite fail_if_false, bind_Ok by done.
  apply (drop_app_inv _ [hdr_byte0 h] _ _ 1) in H; [|done].
  rewrite (s_idx_at b 1 _ _ Hb H), bind_Ok.
  apply (drop_app_inv _ [u8 (Type_ h)] _ _ 2) in H; [|done].
  rewrite (get16_at_be b 2 _ _ Hl H), bind_Ok, u8_small by done. by destruct h.
Qed.

(** ** Codecs *)

(** What the functions that read and write datagrams rely on, for each kind of
    packet: what it writes starts with a header of its kind that tells the
    number of bytes, and is read back. *)
Class Codec (A : Type) := {
  enc : A → rres (list Z);
  dec : slice → rres A;
  wf : A → Prop;
  wire : A → list Z;
  hdr : A → Header;
  kind : packet_kind;
  enc_wire : ∀ a, wf a → enc a = Ok (wire a);
  wire_head : ∀ a, wf a → take 4 (wire a) = wire_hdr (hdr a);
  hdr_wf : ∀ a, wf a → hdr_ok (hdr a);
  hdr_kind : ∀ a, wf a → kind_of (hdr a) = kind;
  wire_length : ∀ a, wf a → length (wire a) = (Z.to_nat (u16 (Length (hdr a) + 1)) * 4)%nat;
  dec_wire : ∀ a b, wf a → (s_len b <= s_cap b)%nat → s_bytes b = wire a → dec b = Ok a;
}.

(** The length field of a packet of [k] words. *)
Lemma length_field_words k : (1 <= k)%nat → Z.of_nat k < 2 ^ 16 →
  length_field (4 * k) = Z.of_nat k - 1 ∧ is_u16 (length_field (4 * k)) ∧
  (4 * k = Z.to_nat (u16 (length_field (4 * k) + 1)) * 4)%nat.
Proof.
  intros Hk Hm. unfold length_field. rewrite Nat.mul_comm, Nat.div_mul by lia. unfold u16, is_u16.
  rewrite !Z.mod_small by lia. lia.
Qed.

(** *** Feedback messages: header, two source identifiers, entries *)

Definition wire_fb (h : Header) (s m : Z) (body : list Z) : list Z :=
  wire_hdr h ++ be32 s ++ be32 m ++ body.

Lemma length_wire_fb h s m body : length (wire_fb h s m body) = (12 + length body)%nat.
Proof. unfold wire_fb. rewrite !length_app, length_wire_hdr. buf_lia. Qed.

Lemma read_ssrcs {B} b h s m r (k : Z → Z → rres B) :
  is_u32 s → is_u32 m → s_bytes b = wire_fb h s m r →
  (x ← get32_at b headerLength; y ← get32_at b (headerLength + ssrcLength); k x y) = k s m.
Proof.
  intros Hs Hm H. unfold wire_fb in H. change (s_bytes b) with (drop 0 (s_bytes b)) in H.
  apply (drop_app_inv _ _ _ _ 4) in H; [|done].
  rewrite (get32_at_be b _ s _ Hs H), bind_Ok.
  apply (drop_app_inv _ _ _ _ 8) in H; [|done].
  by rewrite (get32_at_be b _ m _ Hm H), bind_Ok.
Qed.

(** A buffer of 12 bytes, the header filled in last. *)
Lemma marshal_ssrcs h s m : hdr_ok h →
  (raw ← put (zeros 12) headerLength (be32 s);
   raw ← put raw (headerLength + 4) (be32 m);
   hData ← Header_Marshal h;
   c ← copy_at raw 0 hData;
   Ok c.1) = Ok (wire_fb h s m []) :> rres (list Z).
Proof.
  intros Hh. rewrite Header_Marshal_wire by done. change (zeros 12) with (zeros 4 ++ zeros 8).
  rewrite put_zeros by rtcp_lia. rewrite bind_Ok.
  rewrite put_zeros by rtcp_lia. rewrite !bind_Ok. simpl zeros. rewrite app_nil_r.
  rewrite <- app_assoc, copy_front by done. rewrite bind_Ok. unfold wire_fb. by rewrite app_nil_r.
Qed.

Definition ssrcs_ok (s m : Z) : Prop := is_u32 s ∧ is_u32 m.

Lemma fb_header_ok count type len :
  0 ≤ count ≤ 31 → is_byte type → is_u16 len → hdr_ok (MkHeader false count type len).
Proof. done. Qed.

Ltac const_lia :=
  unfold is_byte, is_u16, FormatPLI, FormatRRR, FormatFIR, FormatTLN, FormatSLI,
    TypePayloadSpecificFeedback, TypeTransportSpecificFeedback in *; simpl; lia.

Lemma pli_hdr_ok p : hdr_ok (PictureLossIndication_Header p).
Proof. apply fb_header_ok; const_lia. Qed.

#[export] Program Instance pli_codec : Codec PictureLossIndication := {
  enc := PictureLossIndication_Marshal;
  dec := PictureLossIndication_Unmarshal;
  wf p := ssrcs_ok (pli_SenderSSRC p) (pli_MediaSSRC p);
  wire p := wire_fb (PictureLossIndication_Header p) (pli_SenderSSRC p) (pli_MediaSSRC p) [];
  hdr := PictureLossIndication_Header;
  kind := KPLI;
}.
Next Obligation.
  intros p Hp. unfold PictureLossIndication_Marshal. change pli_len with 12%nat.
  apply (marshal_ssrcs _ _ _ (pli_hdr_ok p)).
Qed.
Next Obligation. reflexivity. Qed.
Next Obligation. intros p _. apply pli_hdr_ok. Qed.
Next Obligation. reflexivity. Qed.
Next Obligation. reflexivity. Qed.
Next Obligation.
  intros p b [Hs Hm] Hb H. pose proof (length_s_bytes b Hb) as Hl. rewrite H, length_wire_fb in Hl.
  unfold PictureLossIndication_Unmarshal. rewrite fail_if_false, bind_Ok by (rewrite <- Hl; done).
  rewrite (Header_Unmarshal_wire _ b _ (pli_hdr_ok p) Hb H), bind_Ok.
  rewrite fail_if_false, bind_Ok by done.
  rewrite (read_ssrcs b _ _ _ _ _ Hs Hm H). by destruct p.
Qed.

Lemma rrr_hdr_ok p : hdr_ok (RapidResynchronizationRequest_Header p).
Proof. apply fb_header_ok; const_lia. Qed.

#[export] Program Instance rrr_codec : Codec RapidResynchronizationRequest := {
  enc := RapidResynchronizationRequest_Marshal;
  dec := RapidResynchronizationRequest_Unmarshal;
  wf p := ssrcs_ok (rrr_SenderSSRC p) (rrr_MediaSSRC p);
  wire p := wire_fb (RapidResynchronizationRequest_Header p) (rrr_SenderSSRC p) (rrr_MediaSSRC p) [];
  hdr := RapidResynchronizationRequest_Header;
  kind := KRRR;
}.
Next Obligation.
  intros p Hp. unfold RapidResynchronizationRequest_Marshal. change rrr_len with 12%nat.
  apply (marshal_ssrcs _ _ _ (rrr_hdr_ok p)).
Qed.
Next Obligation. reflexivity. Qed.
Next Obligation. intros p _. apply rrr_hdr_ok. Qed.
Next Obligation. reflexivity. Qed.
Next Obligation. reflexivity. Qed.
Next Obligation.
  intros p b [Hs Hm] Hb H. pose proof (length_s_bytes b Hb) as Hl. rewrite H, length_wire_fb in Hl.
  unfold RapidResynchronizationRequest_Unmarshal. rewrite fail_if_false, bind_Ok by (rewrite <- Hl; done).
  rewrite (Header_Unmarshal_wire _ b _ (rrr_hdr_ok p) Hb H), bind_Ok.
  rewrite fail_if_false, bind_Ok by done.
  rewrite (read_ssrcs b _ _ _ _ _ Hs Hm H). by destruct p.
Qed.

(** *** FullIntraRequest *)

Definition fir_entry (e : FIREntry) : list Z := be32 (fir_SSRC e) ++ [fir_SequenceNumber e] ++ zeros 3.

Lemma length_fir_entries l : length (flat_map fir_entry l) = (8 * length l)%nat.
Proof. induction l as [|e l IH]; cbn [flat_map length]; [done|]. rewrite length_app, IH. simpl. lia. Qed.

Lemma put_fir_spec l pre k n :
  length pre = n → (8 * length l <= k)%nat →
  put_fir (pre ++ zeros k) n l = Ok ((pre ++ flat_map fir_entry l) ++ zeros (k - 8 * length l)).
Proof.
  revert pre k n. induction l as [|e l IH]; intros pre k n Hn Hk; cbn [put_fir flat_map length] in *.
  - rewrite app_nil_r. buf_eq.
  - rewrite put_zeros by buf_lia. rewrite bind_Ok, length_be32.
    rewrite put_zeros by buf_lia. rewrite bind_Ok. cbn [length].
    replace (k - 4 - 1)%nat with (3 + (k - 8))%nat by lia. rewrite zeros_add, app_assoc.
    rewrite IH by buf_lia. unfold fir_entry at 2. rewrite <- !app_assoc. buf_eq.
Qed.

Lemma read_fir_spec l b i end_ fuel :
  Forall (λ e, is_u32 (fir_SSRC e) ∧ is_byte (fir_SequenceNumber e)) l → (s_len b <= s_cap b)%nat →
  drop i (s_bytes b) = flat_map fir_entry l → end_ = (i + 8 * length l)%nat → (length l < fuel)%nat →
  read_fir fuel b i end_ = Ok l.
Proof.
  revert i fuel. induction l as [|e l IH]; intros i fuel Hl Hb H -> Hf;
    (destruct fuel as [|fuel]; [lia|]); cbn [read_fir flat_map length] in *.
  - rewrite (proj2 (Nat.ltb_ge _ _)) by lia. done.
  - inversion Hl as [|? ? [Hs Hn] Hl']; subst. rewrite (proj2 (Nat.ltb_lt _ _)) by lia.
    unfold fir_entry at 1 in H. rewrite <- !app_assoc in H.
    rewrite (get32_at_be b i _ _ Hs H), bind_Ok.
    apply (drop_app_inv _ _ _ _ (i + 4)) in H; [|done].
    rewrite (s_idx_at b _ _ _ Hb H), bind_Ok.
    apply (drop_app_inv _ _ _ _ (i + 5)) in H; [|simpl; lia].
    apply (drop_app_inv _ _ _ _ (i + 8)) in H; [|rewrite length_zeros; lia].
    rewrite (IH (i + 8)%nat); [by destruct e | done | done | done | lia | lia].
Qed.

Definition fir_ok (p : FullIntraRequest) : Prop :=
  ssrcs_ok (fir_SenderSSRC p) (fir_MediaSSRC p) ∧
  Forall (λ e, is_u32 (fir_SSRC e) ∧ is_byte (fir_SequenceNumber e)) (FIR p) ∧
  Z.of_nat (length (FIR p)) ≤ 8190.

Lemma fir_length p : fir_ok p →
  FullIntraRequest_len p = (4 * (3 + 2 * length (FIR p)))%nat ∧
  Length (FullIntraRequest_Header p) = Z.of_nat (2 + 2 * length (FIR p)).
Proof.
  intros (_ & _ & Hn). assert (FullIntraRequest_len p = (4 * (3 + 2 * length (FIR p)))%nat) as Hl
    by (unfold FullIntraRequest_len; rtcp_lia).
  split; [done|]. simpl. rewrite Hl. destruct (length_field_words (3 + 2 * length (FIR p))); lia.
Qed.

Lemma fir_hdr_ok p : fir_ok p → hdr_ok (FullIntraRequest_Header p).
Proof.
  intros Hp. destruct (fir_length p Hp) as [_ Hl]. destruct Hp as (_ & _ & Hn).
  apply fb_header_ok; [const_lia..|]. simpl in Hl. rewrite Hl. const_lia.
Qed.

#[export] Program Instance fir_codec : Codec FullIntraRequest := {
  enc := FullIntraRequest_Marshal;
  dec := FullIntraRequest_Unmarshal;
  wf := fir_ok;
  wire p := wire_fb (FullIntraRequest_Header p) (fir_SenderSSRC p) (fir_MediaSSRC p)
              (flat_map fir_entry (FIR p));
  hdr := FullIntraRequest_Header;
  kind := KFIR;
}.
Next Obligation.
  intros p Hp. unfold FullIntraRequest_Marshal.
  rewrite <- (app_nil_l (zeros _)), put_zeros by buf_lia. rewrite bind_Ok.
  rewrite put_zeros by buf_lia. rewrite bind_Ok, !length_be32.
  rewrite put_fir_spec by buf_lia. rewrite bind_Ok.
  rewrite Header_Marshal_wire, bind_Ok by (by apply fir_hdr_ok).
  unfold wire_fb. replace (_ - _)%nat with 0%nat by lia. rewrite app_nil_r. by rewrite <- !app_assoc.
Qed.
Next Obligation. reflexivity. Qed.
Next Obligation. apply fir_hdr_ok. Qed.
Next Obligation. reflexivity. Qed.
Next Obligation.
  intros p Hp. destruct (fir_length p Hp) as [_ ->]. rewrite length_wire_fb, length_fir_entries.
  destruct Hp as (_ & _ & Hn). rewrite u16_small by (unfold is_u16; lia). lia.
Qed.
Next Obligation.
  intros p b Hp Hb H. pose proof (length_s_bytes b Hb) as Hl.
  rewrite H, length_wire_fb, length_fir_entries in Hl. destruct (fir_length p Hp) as [_ Hf].
  assert (payload_end (FullIntraRequest_Header p) = s_len b) as He.
  { unfold payload_end. rewrite Hf. destruct Hp as (_ & _ & Hn).
    rewrite u16_small by (unfold is_u16; lia). rtcp_lia. }
  unfold FullIntraRequest_Unmarshal. rewrite fail_if_false, bind_Ok by (apply Nat.ltb_ge; rtcp_lia).
  rewrite (Header_Unmarshal_wire _ b _ (fir_hdr_ok p Hp) Hb H), bind_Ok, He.
  apply fail_step; [apply Nat.ltb_ge; lia|]. apply fail_step; [done|].
  destruct Hp as ([Hs Hm] & Hes & Hn). rewrite (read_ssrcs b _ _ _ _ _ Hs Hm H).
  rewrite (read_fir_spec (FIR p)); [by destruct p | done | done | | rtcp_lia | lia].
  rewrite H. done.
Qed.

(** *** Buffers filled element by element *)

Section each.
Context {A : Type} (e : A → list Z) (f : A → rres (list Z)) (step : nat).

Lemma length_flat l : Forall (λ x, length (e x) = step) l → length (flat_map e l) = (step * length l)%nat.
Proof.
  induction 1 as [|x l Hx Hl IH]; cbn [flat_map length]; [lia|]. rewrite length_app, Hx, IH. lia.
Qed.

Context (l : list A) (Hl : Forall (λ x, f x = Ok (e x) ∧ length (e x) = step) l).

Lemma put_each_spec pre k n :
  length pre = n → (step * length l <= k)%nat →
  put_each f (pre ++ zeros k) n step l =
  Ok ((pre ++ flat_map e l) ++ zeros (k - step * length l)).
Proof.
  revert pre k n. induction Hl as [|x l' [Hx Hs] Hl' IH]; intros pre k n Hn Hk;
    cbn [put_each flat_map length] in *.
  - rewrite app_nil_r. buf_eq.
  - rewrite Hx, bind_Ok, put_zeros by lia. rewrite bind_Ok, Hs.
    rewrite (IH Hl') by (rewrite ?length_app, ?Hs; lia). rewrite <- !app_assoc. buf_eq.
Qed.

Lemma copy_each_spec pre k n :
  length pre = n → (step * length l <= k)%nat →
  copy_each f (pre ++ zeros k) n step l =
  Ok ((pre ++ flat_map e l) ++ zeros (k - step * length l)).
Proof.
  revert pre k n. induction Hl as [|x l' [Hx Hs] Hl' IH]; intros pre k n Hn Hk;
    cbn [copy_each flat_map length] in *.
  - rewrite app_nil_r. buf_eq.
  - rewrite Hx, bind_Ok, copy_zeros by lia. rewrite bind_Ok. cbn [fst]. rewrite Hs.
    rewrite (IH Hl') by (rewrite ?length_app, ?Hs; lia). rewrite <- !app_assoc. buf_eq.
Qed.
End each.

(** *** TransportLayerNack *)

Definition nack_entry (n : NackPair) : list Z := be16 (PacketID n) ++ be16 (LostPackets n).

Definition nack_ok (p : TransportLayerNack) : Prop :=
  ssrcs_ok (tln_SenderSSRC p) (tln_MediaSSRC p) ∧
  Forall (λ n, is_u16 (PacketID n) ∧ is_u16 (LostPackets n)) (Nacks p) ∧
  (length (Nacks p) <= 253)%nat.

Lemma length_nack_entries l : length (flat_map nack_entry l) = (4 * length l)%nat.
Proof. apply length_flat. by apply Forall_true. Qed.

Lemma read_nacks_spec l b i end_ fuel :
  Forall (λ n, is_u16 (PacketID n) ∧ is_u16 (LostPackets n)) l →
  drop i (s_bytes b) = flat_map nack_entry l → end_ = (i + 4 * length l)%nat → (length l < fuel)%nat →
  read_nacks fuel b i end_ = Ok l.
Proof.
  revert i fuel. induction l as [|n l IH]; intros i fuel Hl H -> Hf;
    (destruct fuel as [|fuel]; [lia|]); cbn [read_nacks flat_map length] in *.
  - rewrite (proj2 (Nat.ltb_ge _ _)) by lia. done.
  - inversion Hl as [|? ? [H1 H2] Hl']; subst. rewrite (proj2 (Nat.ltb_lt _ _)) by lia.
    unfold nack_entry at 1 in H. rewrite <- !app_assoc in H.
    rewrite (get16_at_be b i _ _ H1 H), bind_Ok.
    apply (drop_app_inv _ _ _ _ (i + 2)) in H; [|done].
    rewrite (get16_at_be b _ _ _ H2 H), bind_Ok.
    apply (drop_app_inv _ _ _ _ (i + 4)) in H; [|rewrite length_be16; lia].
    rewrite (IH (i + 4)%nat); [by destruct n | done | done | lia | lia].
Qed.

Lemma nack_length p : nack_ok p →
  Length (TransportLayerNack_Header p) = Z.of_nat (2 + length (Nacks p)).
Proof.
  intros (_ & _ & Hn). simpl.
  assert (TransportLayerNack_len p = (4 * (3 + length (Nacks p)))%nat) as ->
    by (unfold TransportLayerNack_len; rtcp_lia).
  destruct (length_field_words (3 + length (Nacks p))); lia.
Qed.

Lemma nack_hdr_ok p : nack_ok p → hdr_ok (TransportLayerNack_Header p).
Proof.
  intros Hp. pose proof (nack_length p Hp) as Hl. destruct Hp as (_ & _ & Hn).
  apply fb_header_ok; [const_lia..|]. simpl in Hl. rewrite Hl. const_lia.
Qed.

#[export] Program Instance nack_codec : Codec TransportLayerNack := {
  enc := TransportLayerNack_Marshal;
  dec := TransportLayerNack_Unmarshal;
  wf := nack_ok;
  wire p := wire_fb (TransportLayerNack_Header p) (tln_SenderSSRC p) (tln_MediaSSRC p)
              (flat_map nack_entry (Nacks p));
  hdr := TransportLayerNack_Header;
  kind := KNACK;
}.
Next Obligation.
  intros p Hp. unfold TransportLayerNack_Marshal.
  apply fail_step; [apply Nat.ltb_ge; destruct Hp as (_ & _ & Hn); lia|].
  rewrite <- (app_nil_l (zeros _)), put_zeros by buf_lia. rewrite bind_Ok.
  rewrite put_zeros by buf_lia. rewrite bind_Ok, !length_be32.
  rewrite (put_each_spec nack_entry); [| by apply Forall_true | buf_lia | lia].
  rewrite bind_Ok, Header_Marshal_wire, bind_Ok by (by apply nack_hdr_ok).
  unfold wire_fb. replace (_ - _)%nat with 0%nat by lia. rewrite app_nil_r. by rewrite <- !app_assoc.
Qed.
Next Obligation. reflexivity. Qed.
Next Obligation. apply nack_hdr_ok. Qed.
Next Obligation. reflexivity. Qed.
Next Obligation.
  intros p Hp. rewrite (nack_length p Hp), length_wire_fb, length_nack_entries.
  destruct Hp as (_ & _ & Hn). rewrite u16_small by (unfold is_u16; lia). lia.
Qed.
Next Obligation.
  intros p b Hp Hb H. pose proof (length_s_bytes b Hb) as Hl.
  rewrite H, length_wire_fb, length_nack_entries in Hl. pose proof (nack_length p Hp) as Hf.
  assert (payload_end (TransportLayerNack_Header p) = s_len b) as He.
  { unfold payload_end. rewrite Hf. destruct Hp as (_ & _ & Hn).
    rewrite u16_small by (unfold is_u16; lia). rtcp_lia. }
  unfold TransportLayerNack_Unmarshal. apply fail_step; [apply Nat.ltb_ge; rtcp_lia|].
  rewrite (Header_Unmarshal_wire _ b _ (nack_hdr_ok p Hp) Hb H), bind_Ok, He.
  apply fail_step; [apply Nat.ltb_ge; lia|]. apply fail_step; [done|].
  destruct Hp as ([Hs Hm] & Hes & Hn). rewrite (read_ssrcs b _ _ _ _ _ Hs Hm H).
  rewrite (read_nacks_spec (Nacks p)); [by destruct p | done | | rtcp_lia | lia].
  rewrite H. done.
Qed.

(** *** Reports *)

Definition wire_report (r : ReceptionReport) : list Z :=
  be32 (rr_SSRC r) ++ [FractionLost r] ++
  [u8 (Z.shiftr (TotalLost r) 16)] ++ [u8 (Z.shiftr (TotalLost r) 8)] ++ [u8 (TotalLost r)] ++
  be32 (LastSequenceNumber r) ++ be32 (Jitter r) ++ be32 (LastSenderReport r) ++ be32 (Delay r).

(** The total lost count has 24 bits. *)
Definition report_ok (r : ReceptionReport) : Prop :=
  is_u32 (rr_SSRC r) ∧ is_byte (FractionLost r) ∧ 0 ≤ TotalLost r < 2 ^ 24 ∧
  is_u32 (LastSequenceNumber r) ∧ is_u32 (Jitter r) ∧ is_u32 (LastSenderReport r) ∧ is_u32 (Delay r).

Lemma ReceptionReport_Marshal_wire r : report_ok r → ReceptionReport_Marshal r = Ok (wire_report r).
Proof.
  intros (_ & _ & Ht & _). unfold ReceptionReport_Marshal, receptionReportLength.
  rewrite <- (app_nil_l (zeros _)), put_zeros by buf_lia. rewrite bind_Ok.
  rewrite put_zeros by buf_lia. rewrite bind_Ok.
  apply fail_step; [rewrite Z.shiftl_mul_pow2 by lia; lia|].
  do 3 (rewrite put_zeros by buf_lia; rewrite bind_Ok).
  do 3 (rewrite put_zeros by buf_lia; rewrite bind_Ok).
  rewrite put_zeros by buf_lia. rewrite !length_be32. simpl zeros. rewrite app_nil_r.
  unfold wire_report. by rewrite <- !app_assoc.
Qed.

Lemma total_lost_spec t : 0 ≤ t < 2 ^ 24 →
  Z.lor (Z.lor (u8 t) (Z.shiftl (u8 (Z.shiftr t 8)) 8)) (Z.shiftl (u8 (Z.shiftr t 16)) 16) = t.
Proof.
  intros H. pose proof (u8_byte t) as H0. pose proof (u8_byte (Z.shiftr t 8)) as H1.
  unfold is_byte in *. rewrite (lor_shiftl_add (u8 t)) by lia. rewrite lor_shiftl_add by lia.
  unfold u8. rewrite !Z.shiftr_div_pow2 by lia. Z.div_mod_to_equations. lia.
Qed.

Lemma ReceptionReport_Unmarshal_wire r b rest :
  report_ok r → (s_len b <= s_cap b)%nat → s_bytes b = wire_report r ++ rest →
  ReceptionReport_Unmarshal b = Ok r.
Proof.
  intros (H1 & H2 & H3 & H4 & H5 & H6 & H7) Hb H.
  pose proof (drop_s_bytes_len b 0 _ _ Hb H ltac:(done)) as Hl.
  change (length (wire_report r)) with 24%nat in Hl.
  unfold ReceptionReport_Unmarshal. apply fail_step; [apply Nat.ltb_ge; rtcp_lia|].
  unfold wire_report in H. rewrite <- !app_assoc in H.
  change (s_bytes b) with (drop 0 (s_bytes b)) in H.
  rewrite (get32_at_be b 0 _ _ H1 H), bind_Ok.
  apply (drop_app_inv _ _ _ _ 4) in H; [|done]. rewrite (s_idx_at b _ _ _ Hb H), bind_Ok.
  apply (drop_app_inv _ _ _ _ 5) in H; [|done].
  rewrite s_from_Ok, bind_Ok by lia. set (c := Slice _ _).
  assert (s_len c <= s_cap c)%nat as Hc.
  { unfold s_cap in *. simpl. rewrite length_drop. lia. }
  assert (s_bytes c = drop 5 (s_bytes b)) as Hcb by apply s_bytes_drop.
  rewrite H in Hcb. cbn [app] in Hcb.
  rewrite (s_idx_Ok c 2 (u8 (TotalLost r)) Hc), bind_Ok by (by rewrite Hcb).
  rewrite (s_idx_Ok c 1 (u8 (Z.shiftr (TotalLost r) 8)) Hc), bind_Ok by (by rewrite Hcb).
  rewrite (s_idx_Ok c 0 (u8 (Z.shiftr (TotalLost r) 16)) Hc), bind_Ok by (by rewrite Hcb).
  apply (drop_app_inv _ [_; _; _] _ _ 8) in H; [|done].
  rewrite (get32_at_be b _ _ _ H4 H), bind_Ok. apply (drop_app_inv _ _ _ _ 12) in H; [|done].
  rewrite (get32_at_be b _ _ _ H5 H), bind_Ok. apply (drop_app_inv _ _ _ _ 16) in H; [|done].
  rewrite (get32_at_be b _ _ _ H6 H), bind_Ok. apply (drop_app_inv _ _ _ _ 20) in H; [|done].
  rewrite (get32_at_be b _ _ _ H7 H), bind_Ok. rewrite total_lost_spec by done. by destruct r.
Qed.

Lemma wire_reports_ok l : Forall report_ok l →
  Forall (λ r, ReceptionReport_Marshal r = Ok (wire_report r) ∧ length (wire_report r) = 24%nat) l.
Proof.
  intros Hl. eapply Forall_impl; [done|]. intros r Hr. split; [by apply ReceptionReport_Marshal_wire | done].
Qed.

Lemma length_wire_reports l : length (flat_map wire_report l) = (24 * length l)%nat.
Proof. apply length_flat. by apply Forall_true. Qed.

(** *** SenderReport *)

Definition sr_ok (r : SenderReport) : Prop :=
  (is_u32 (sr_SSRC r) ∧ is_u64 (NTPTime r) ∧ is_u32 (RTPTime r) ∧ is_u32 (PacketCount r) ∧
   is_u32 (OctetCount r)) ∧ Forall report_ok (sr_Reports r) ∧ (length (sr_Reports r) <= 31)%nat ∧
  ∃ k, length (sr_ProfileExtensions r) = (4 * k)%nat ∧ Z.of_nat k < 2 ^ 15.

Definition sr_body (r : SenderReport) : list Z :=
  be32 (sr_SSRC r) ++ be64 (NTPTime r) ++ be32 (RTPTime r) ++ be32 (PacketCount r) ++
  be32 (OctetCount r) ++ flat_map wire_report (sr_Reports r) ++ sr_ProfileExtensions r.

Lemma sr_length r : sr_ok r → ∃ k, SenderReport_len r = (4 * k)%nat ∧ (7 <= k)%nat ∧ Z.of_nat k < 2 ^ 16.
Proof.
  intros (_ & _ & Hn & k & Hk & Hb). exists (7 + 6 * length (sr_Reports r) + k)%nat.
  unfold SenderReport_len. rewrite Hk. split; [rtcp_lia|]. split; lia.
Qed.

Lemma length_sr_wire r : length (wire_hdr (SenderReport_Header r) ++ sr_body r) = SenderReport_len r.
Proof.
  unfold sr_body, SenderReport_len. rewrite !length_app, length_wire_hdr, length_wire_reports. rtcp_lia.
Qed.

Lemma count_field n : (n <= 31)%nat → u8 (Z.of_nat n) = Z.of_nat n.
Proof. intros H. apply u8_small. unfold is_byte. lia. Qed.

Lemma report_hdr_ok type n len : (n <= 31)%nat → is_byte type → is_u16 len →
  hdr_ok (MkHeader false (u8 (Z.of_nat n)) type len).
Proof. intros Hn Ht Hl. rewrite count_field by done. split; simpl; [lia | done]. Qed.

Lemma sr_hdr_ok r : sr_ok r → hdr_ok (SenderReport_Header r).
Proof.
  intros Hr. destruct (sr_length r Hr) as (k & Hk & H1 & H2). destruct Hr as (_ & _ & Hn & _).
  apply report_hdr_ok; [done | unfold is_byte, TypeSenderReport; lia |].
  rewrite Hk. apply length_field_words; lia.
Qed.

Lemma read_reports_spec l b i rest :
  Forall report_ok l → (s_len b <= s_cap b)%nat →
  drop i (s_bytes b) = flat_map wire_report l ++ rest → (i + 24 * length l <= s_len b)%nat →
  read_reports b i (length l) = Ok (l, (i + 24 * length l)%nat).
Proof.
  revert i. induction l as [|r l IH]; intros i Hl Hb H Hn; cbn [read_reports flat_map length] in *.
  - buf_eq.
  - inversion Hl as [|? ? Hr Hl']; subst. apply fail_step; [apply Nat.ltb_ge; rtcp_lia|].
    rewrite <- app_assoc in H.
    destruct (s_sub_bytes (E := rtcp_err) b i (i + 24) _ _ Hb H) as (c & Hc & Hcb & Hcl); [done | lia |].
    unfold receptionReportLength. rewrite Hc, bind_Ok.
    rewrite (ReceptionReport_Unmarshal_wire r c []), bind_Ok; [| done | | by rewrite app_nil_r].
    2: { assert (length (s_bytes c) = s_len c) as Hx by (rewrite Hcb, Hcl; done).
         unfold s_bytes in Hx. rewrite length_take in Hx. unfold s_cap. lia. }
    apply (drop_app_inv _ _ _ _ (i + 24)) in H; [|done].
    rewrite (IH (i + 24)%nat Hl' Hb H) by lia. rewrite bind_Ok. cbn [fst snd]. buf_eq.
Qed.

#[export] Program Instance sr_codec : Codec SenderReport := {
  enc := SenderReport_Marshal;
  dec := SenderReport_Unmarshal;
  wf := sr_ok;
  wire r := wire_hdr (SenderReport_Header r) ++ sr_body r;
  hdr := SenderReport_Header;
  kind := KSR;
}.
Next Obligation.
  intros r Hr. unfold SenderReport_Marshal. unfold SenderReport_len at 1.
  replace (zeros _) with (zeros 4 ++ zeros (srHeaderLength + length (sr_Reports r) * receptionReportLength
    + length (sr_ProfileExtensions r))) by (rewrite <- zeros_add; f_equal; rtcp_lia).
  do 5 (rewrite put_zeros by rtcp_lia; rewrite bind_Ok).
  pose proof Hr as (_ & Hrs & Hn & _).
  rewrite (copy_each_spec wire_report); [| by apply wire_reports_ok | rtcp_lia | rtcp_lia].
  rewrite bind_Ok. apply fail_step; [by apply Nat.ltb_ge|].
  rewrite copy_zeros; [| rewrite !length_app, length_wire_reports; rtcp_lia | rtcp_lia].
  rewrite bind_Ok. cbn [fst]. rewrite Header_Marshal_wire, bind_Ok by (by apply sr_hdr_ok).
  replace (_ - _ - _ - _)%nat with 0%nat by rtcp_lia. simpl (zeros 0). rewrite app_nil_r.
  rewrite <- !app_assoc, copy_front by done. by rewrite bind_Ok.
Qed.
Next Obligation. reflexivity. Qed.
Next Obligation. apply sr_hdr_ok. Qed.
Next Obligation. reflexivity. Qed.
Next Obligation.
  intros r Hr. cbv beta. rewrite length_sr_wire. destruct (sr_length r Hr) as (k & Hk & H1 & H2).
  simpl Length. rewrite Hk. apply length_field_words; lia.
Qed.
Next Obligation.
  intros r b Hr Hb H. cbv beta in H. pose proof (length_s_bytes b Hb) as Hl.
  rewrite H, length_sr_wire in Hl.
  unfold SenderReport_len in Hl. unfold SenderReport_Unmarshal.
  apply fail_step; [apply Nat.ltb_ge; rtcp_lia|].
  rewrite (Header_Unmarshal_wire _ b _ (sr_hdr_ok r Hr) Hb H), bind_Ok.
  apply fail_step; [done|]. rewrite s_from_Ok, bind_Ok by rtcp_lia. set (c := Slice _ _).
  assert (s_len c <= s_cap c)%nat as Hc.
  { unfold s_cap in *. simpl. rewrite length_drop. lia. }
  assert (s_bytes c = drop 4 (s_bytes b)) as Hcb by apply s_bytes_drop.
  assert (s_len c = s_len b - 4)%nat as Hcl by done.
  rewrite H, drop_app_length' in Hcb by done. unfold sr_body in Hcb.
  destruct Hr as ((H1 & H2 & H3 & H4 & H5) & Hrs & Hn & _).
  change (s_bytes c) with (drop 0 (s_bytes c)) in Hcb. clearbody c.
  rewrite (get32_at_be c _ _ _ H1 Hcb), bind_Ok. apply (drop_app_inv _ _ _ _ 4) in Hcb; [|done].
  rewrite (get64_at_be c _ _ _ H2 Hcb), bind_Ok. apply (drop_app_inv _ _ _ _ 12) in Hcb; [|done].
  rewrite (get32_at_be c _ _ _ H3 Hcb), bind_Ok. apply (drop_app_inv _ _ _ _ 16) in Hcb; [|done].
  rewrite (get32_at_be c _ _ _ H4 Hcb), bind_Ok. apply (drop_app_inv _ _ _ _ 20) in Hcb; [|done].
  rewrite (get32_at_be c _ _ _ H5 Hcb), bind_Ok. apply (drop_app_inv _ _ _ _ 24) in Hcb; [|done].
  simpl Count. rewrite count_field, Nat2Z.id by done.
  rewrite (read_reports_spec (sr_Reports r) c 24 _ Hrs Hc Hcb), bind_Ok by rtcp_lia. cbn [fst snd].
  apply (drop_app_inv _ _ _ _ (24 + 24 * length (sr_Reports r))) in Hcb; [|by rewrite length_wire_reports].
  assert ((if (24 + 24 * length (sr_Reports r) <? s_len c)%nat
           then e ← s_from c (24 + 24 * length (sr_Reports r)); Ok (s_bytes e) else Ok []) =
          Ok (sr_ProfileExtensions r) :> rres (list Z)) as ->.
  { destruct (Nat.ltb_spec (24 + 24 * length (sr_Reports r)) (s_len c)).
    - rewrite s_from_Ok, bind_Ok by lia. by rewrite s_bytes_drop, Hcb.
    - assert (sr_ProfileExtensions r = []) as -> by (apply length_zero_iff_nil; rtcp_lia). done. }
  rewrite bind_Ok. apply fail_step; [by rewrite count_field, Z.eqb_refl|]. by destruct r.
Qed.

(** *** ReceiverReport: without profile extensions, whose length is not counted *)

Definition rcv_ok (r : ReceiverReport) : Prop :=
  is_u32 (rcv_SSRC r) ∧ Forall report_ok (rcv_Reports r) ∧ (length (rcv_Reports r) <= 31)%nat ∧
  rcv_ProfileExtensions r = [].

Definition rcv_body (r : ReceiverReport) : list Z :=
  be32 (rcv_SSRC r) ++ flat_map wire_report (rcv_Reports r).

Lemma rcv_length r : rcv_ok r →
  ReceiverReport_len r = (4 * (2 + 6 * length (rcv_Reports r)))%nat ∧
  Length (ReceiverReport_Header r) = length_field (4 * (2 + 6 * length (rcv_Reports r))).
Proof.
  intros (_ & _ & Hn & He). assert (ReceiverReport_len r = (4 * (2 + 6 * length (rcv_Reports r)))%nat) as Hl
    by (unfold ReceiverReport_len; rtcp_lia).
  split; [done|]. simpl Length. rewrite He, Hl. change (u16 (Z.of_nat (getPadding (length [])))) with 0.
  rewrite Z.add_0_r. apply u16_small. apply length_field_words; lia.
Qed.

Lemma length_rcv_wire r : length (wire_hdr (ReceiverReport_Header r) ++ rcv_body r) = ReceiverReport_len r.
Proof.
  unfold rcv_body, ReceiverReport_len. rewrite !length_app, length_wire_hdr, length_wire_reports. rtcp_lia.
Qed.

Lemma rcv_hdr_ok r : rcv_ok r → hdr_ok (ReceiverReport_Header r).
Proof.
  intros Hr. destruct (rcv_length r Hr) as [_ Hk]. destruct Hr as (_ & _ & Hn & _).
  unfold ReceiverReport_Header in *. cbn [Length] in Hk. rewrite Hk.
  apply report_hdr_ok; [done | unfold is_byte, TypeReceiverReport; lia |].
  apply length_field_words; lia.
Qed.

Lemma read_report_blocks_spec l b i rest :
  Forall report_ok l → (s_len b <= s_cap b)%nat →
  drop i (s_bytes b) = flat_map wire_report l ++ rest → (i + 24 * length l <= s_len b)%nat →
  read_report_blocks b i (length l) = Ok l.
Proof.
  revert i. induction l as [|r l IH]; intros i Hl Hb H Hn; cbn [read_report_blocks flat_map length] in *.
  - done.
  - inversion Hl as [|? ? Hr Hl']; subst. rewrite (proj2 (Nat.ltb_lt _ _)) by lia.
    rewrite <- app_assoc in H. rewrite s_from_Ok, bind_Ok by lia.
    rewrite (ReceptionReport_Unmarshal_wire r _ (flat_map wire_report l ++ rest)), bind_Ok;
      [| done | | by rewrite s_bytes_drop, H].
    2: { unfold s_cap in *. simpl. rewrite length_drop. lia. }
    apply (drop_app_inv _ _ _ _ (i + 24)) in H; [|done].
    unfold receptionReportLength. rewrite (IH (i + 24)%nat Hl' Hb H) by lia. done.
Qed.

#[export] Program Instance rcv_codec : Codec ReceiverReport := {
  enc := ReceiverReport_Marshal;
  dec := ReceiverReport_Unmarshal;
  wf := rcv_ok;
  wire r := wire_hdr (ReceiverReport_Header r) ++ rcv_body r;
  hdr := ReceiverReport_Header;
  kind := KRR;
}.
Next Obligation.
  intros r Hr. unfold ReceiverReport_Marshal. cbv zeta.
  replace (ReceiverReport_len r) with (4 + (4 + length (rcv_Reports r) * receptionReportLength))%nat
    by (unfold ReceiverReport_len; rtcp_lia).
  rewrite zeros_add.
  rewrite put_zeros by rtcp_lia. rewrite bind_Ok. pose proof Hr as (_ & Hrs & Hn & He).
  rewrite (copy_each_spec wire_report); [| by apply wire_reports_ok | rtcp_lia | rtcp_lia].
  rewrite bind_Ok. apply fail_step; [by apply Nat.ltb_ge|].
  rewrite Header_Marshal_wire, bind_Ok by (by apply rcv_hdr_ok). rewrite He.
  change (zeros (getPadding (length []))) with ([] : list Z). rewrite !app_nil_r.
  replace (4 + _ - _ - _)%nat with 0%nat by rtcp_lia. change (zeros 0) with ([] : list Z).
  rewrite app_nil_r, <- !app_assoc, copy_front by done. by rewrite bind_Ok.
Qed.
Next Obligation. reflexivity. Qed.
Next Obligation. apply rcv_hdr_ok. Qed.
Next Obligation. reflexivity. Qed.
Next Obligation.
  intros r Hr. cbv beta. rewrite length_rcv_wire. destruct (rcv_length r Hr) as [-> ->].
  destruct Hr as (_ & _ & Hn & _). apply length_field_words; lia.
Qed.
Next Obligation.
  intros r b Hr Hb H. cbv beta in H. pose proof (length_s_bytes b Hb) as Hl.
  rewrite H, length_rcv_wire in Hl. unfold ReceiverReport_len in Hl. unfold ReceiverReport_Unmarshal.
  apply fail_step; [apply Nat.ltb_ge; rtcp_lia|].
  rewrite (Header_Unmarshal_wire _ b _ (rcv_hdr_ok r Hr) Hb H), bind_Ok.
  apply fail_step; [done|]. destruct Hr as (H1 & Hrs & Hn & He).
  change (s_bytes b) with (drop 0 (s_bytes b)) in H. apply (drop_app_inv _ _ _ _ 4) in H; [|done].
  rewrite (get32_at_be b _ _ _ H1 H), bind_Ok. apply (drop_app_inv _ _ _ _ 8) in H; [|done].
  simpl Count. rewrite count_field, Nat2Z.id by done.
  rewrite (read_report_blocks_spec (rcv_Reports r) b 8 [] Hrs Hb), bind_Ok
    by (rewrite ?app_nil_r; rtcp_lia || done).
  rewrite s_from_Ok, bind_Ok by rtcp_lia. rewrite s_bytes_drop.
  apply fail_step; [by rewrite count_field, Z.eqb_refl|].
  rewrite drop_ge by (rewrite length_s_bytes by done; rtcp_lia). destruct r. simpl in *. by subst.
Qed.

(** *** Goodbye *)

Definition bye_pad (g : Goodbye) : nat :=
  (Goodbye_len g - (headerLength + length (Sources g) * ssrcLength + (length (Reason g) + 1)))%nat.

Definition bye_body (g : Goodbye) : list Z :=
  flat_map be32 (Sources g) ++ [Z.of_nat (length (Reason g))] ++ Reason g ++ zeros (bye_pad g).

Definition bye_ok (g : Goodbye) : Prop :=
  Forall is_u32 (Sources g) ∧ (length (Sources g) <= 31)%nat ∧ (length (Reason g) <= 255)%nat.

Lemma getPadding_spec n : ∃ k, (n + getPadding n = 4 * k)%nat ∧ (getPadding n <= 3)%nat.
Proof.
  unfold getPadding. pose proof (Nat.div_mod_eq n 4) as Hn. pose proof (Nat.mod_upper_bound n 4) as Hu.
  destruct (Nat.eqb_spec (n mod 4) 0) as [H0|H0].
  - exists (n / 4)%nat. lia.
  - exists (n / 4 + 1)%nat. lia.
Qed.

Lemma bye_length g : bye_ok g →
  ∃ k, Goodbye_len g = (4 * k)%nat ∧ (1 <= k)%nat ∧ Z.of_nat k < 2 ^ 16 ∧
    (headerLength + length (Sources g) * ssrcLength + (length (Reason g) + 1) + bye_pad g = 4 * k)%nat.
Proof.
  intros (_ & Hn & Hr). unfold bye_pad, Goodbye_len. cbv zeta.
  set (n := (headerLength + length (Sources g) * ssrcLength + (length (Reason g) + 1))%nat).
  destruct (getPadding_spec n) as (k & Hk & Hp). exists k.
  assert (n <= 384 /\ 5 <= n)%nat by (unfold n, headerLength, ssrcLength; lia). lia.
Qed.

Lemma length_flat_be32 l : length (flat_map be32 l) = (4 * length l)%nat.
Proof. apply length_flat. by apply Forall_true. Qed.

Lemma length_bye_wire g : bye_ok g →
  length (wire_hdr (Goodbye_Header g) ++ bye_body g) = Goodbye_len g.
Proof.
  intros Hg. destruct (bye_length g Hg) as (k & Hk & _ & _ & Hp). rewrite Hk, <- Hp.
  unfold bye_body. rewrite !length_app, length_wire_hdr, length_flat_be32. rtcp_lia.
Qed.

Lemma bye_hdr_ok g : bye_ok g → hdr_ok (Goodbye_Header g).
Proof.
  intros Hg. destruct (bye_length g Hg) as (k & Hk & H1 & H2 & _). destruct Hg as (_ & Hn & _).
  apply report_hdr_ok; [done | unfold is_byte, TypeGoodbye; lia |].
  rewrite Hk. apply length_field_words; lia.
Qed.

Lemma read_words_spec l b i rest :
  Forall is_u32 l → drop i (s_bytes b) = flat_map be32 l ++ rest →
  read_words b i (length l) = Ok l.
Proof.
  revert i. induction l as [|x l IH]; intros i Hl H; cbn [read_words flat_map length] in *; [done|].
  inversion Hl as [|? ? Hx Hl']; subst. rewrite <- app_assoc in H.
  rewrite (get32_at_be b i _ _ Hx H), bind_Ok. apply (drop_app_inv _ _ _ _ (i + 4)) in H; [|done].
  unfold ssrcLength. by rewrite (IH (i + 4)%nat Hl' H).
Qed.

(** The reason, with its length in front, fills what is left of the buffer. *)
Lemma bye_reason g pre n :
  length pre = n → (length (Reason g) <= 255)%nat →
  (if (length (Reason g) =? 0)%nat then Ok (pre ++ zeros (length (Reason g) + 1 + bye_pad g))
   else
     _ ← fail_if (sdesMaxOctetCount <? length (Reason g))%nat errReasonTooLong;
     raw ← put (pre ++ zeros (length (Reason g) + 1 + bye_pad g)) n [u8 (Z.of_nat (length (Reason g)))];
     c ← copy_at raw (n + 1) (Reason g);
     Ok c.1) =
  Ok (pre ++ [Z.of_nat (length (Reason g))] ++ Reason g ++ zeros (bye_pad g)) :> rres (list Z).
Proof.
  intros Hn Hr. destruct (Nat.eqb_spec (length (Reason g)) 0) as [H0|H0].
  - apply nil_length_inv in H0. rewrite H0. simpl. done.
  - apply fail_step; [apply Nat.ltb_ge; unfold sdesMaxOctetCount; lia|].
    rewrite put_zeros by buf_lia. rewrite bind_Ok. cbn [length].
    rewrite copy_zeros by buf_lia. rewrite bind_Ok. cbn [fst].
    rewrite u8_small by (unfold is_byte; lia). rewrite <- !app_assoc. buf_eq.
Qed.

#[export] Program Instance bye_codec : Codec Goodbye := {
  enc := Goodbye_Marshal;
  dec := Goodbye_Unmarshal;
  wf := bye_ok;
  wire g := wire_hdr (Goodbye_Header g) ++ bye_body g;
  hdr := Goodbye_Header;
  kind := KBYE;
}.
Next Obligation.
  intros g Hg. unfold Goodbye_Marshal. destruct (bye_length g Hg) as (k & Hk & _ & _ & Hp).
  pose proof (bye_hdr_ok g Hg) as Hh. destruct Hg as (Hs & Hn & Hr).
  apply fail_step; [by apply Nat.ltb_ge|]. cbv zeta.
  replace (Goodbye_len g) with
    (headerLength + (length (Sources g) * ssrcLength + (length (Reason g) + 1 + bye_pad g)))%nat by lia.
  rewrite (zeros_add headerLength), (put_each_spec be32); [| by apply Forall_true | done | rtcp_lia].
  rewrite bind_Ok.
  replace (length (Sources g) * ssrcLength + _ - _)%nat with (length (Reason g) + 1 + bye_pad g)%nat
    by rtcp_lia.
  rewrite (bye_reason g), bind_Ok; [| | done].
  2: { rewrite !length_app, length_flat_be32, length_zeros. rtcp_lia. }
  rewrite Header_Marshal_wire, bind_Ok by done. unfold bye_body.
  rewrite <- !app_assoc, copy_front by done. by rewrite bind_Ok.
Qed.
Next Obligation. reflexivity. Qed.
Next Obligation. apply bye_hdr_ok. Qed.
Next Obligation. reflexivity. Qed.
Next Obligation.
  intros g Hg. cbv beta. rewrite length_bye_wire by done.
  destruct (bye_length g Hg) as (k & Hk & H1 & H2 & _). simpl Length. rewrite Hk.
  apply length_field_words; lia.
Qed.
Next Obligation.
  intros g b Hg Hb H. cbv beta in H. pose proof (length_s_bytes b Hb) as Hl.
  rewrite H, length_bye_wire in Hl by done. unfold Goodbye_Unmarshal.
  rewrite (Header_Unmarshal_wire _ b _ (bye_hdr_ok g Hg) Hb H), bind_Ok.
  apply fail_step; [done|]. destruct (bye_length g Hg) as (k & Hk & H1 & H2 & Hp).
  destruct Hg as (Hs & Hn & Hr). rewrite <- Hl, Hk.
  apply fail_step; [unfold getPadding; by rewrite Nat.mul_comm, Nat.Div0.mod_mul|].
  simpl Count. rewrite count_field by done.
  assert (Z.to_nat (u8 (4 + u8 (Z.of_nat (length (Sources g)) * 4))) = 4 + 4 * length (Sources g))%nat as ->.
  { rewrite (u8_small (_ * 4)), u8_small by (unfold is_byte; lia). lia. }
  apply fail_step; [apply Nat.ltb_ge; rtcp_lia|]. rewrite Nat2Z.id.
  change (s_bytes b) with (drop 0 (s_bytes b)) in H. apply (drop_app_inv _ _ _ _ 4) in H; [|done].
  unfold bye_body in H. rewrite (read_words_spec _ b headerLength _ Hs H), bind_Ok.
  apply (drop_app_inv _ _ _ _ (4 + 4 * length (Sources g))) in H; [|by rewrite length_flat_be32].
  rewrite (proj2 (Nat.ltb_lt _ _)) by rtcp_lia.
  rewrite (s_idx_at b _ _ _ Hb H), bind_Ok, Nat2Z.id.
  rewrite fail_if_false, bind_Ok by (apply Nat.ltb_ge; rtcp_lia).
  apply (drop_app_inv _ _ _ _ (4 + 4 * length (Sources g) + 1)) in H; [|done].
  destruct (s_sub_bytes (E := rtcp_err) b _ (4 + 4 * length (Sources g) + 1 + length (Reason g))%nat _ _ Hb H)
    as (c & -> & Hc & _); [done | rtcp_lia |].
  rewrite !bind_Ok, Hc. by destruct g.
Qed.

(** *** Source descriptions *)

Definition wire_item (s : SourceDescriptionItem) : list Z :=
  [it_Type s; Z.of_nat (length (it_Text s))] ++ it_Text s.

Definition chunk_text (c : SourceDescriptionChunk) : list Z :=
  be32 (ch_Source c) ++ flat_map wire_item (ch_Items c) ++ [0].

Definition wire_chunk (c : SourceDescriptionChunk) : list Z :=
  chunk_text c ++ zeros (getPadding (length (chunk_text c))).

Definition item_ok (s : SourceDescriptionItem) : Prop :=
  0 < it_Type s < 256 ∧ (length (it_Text s) <= 255)%nat.

Definition chunk_ok (c : SourceDescriptionChunk) : Prop :=
  is_u32 (ch_Source c) ∧ Forall item_ok (ch_Items c).

Definition sdes_ok (s : SourceDescription) : Prop :=
  Forall chunk_ok (Chunks s) ∧ (length (Chunks s) <= 31)%nat ∧
  Z.of_nat (length (flat_map wire_chunk (Chunks s))) < 4 * (2 ^ 16 - 1).

Lemma Item_Marshal_wire s : item_ok s → Item_Marshal s = Ok (wire_item s).
Proof.
  intros [Ht Hl]. unfold Item_Marshal. apply fail_step; [apply Z.eqb_neq; unfold SDESEnd; lia|].
  rewrite <- (app_nil_l (zeros 2)), put_zeros by buf_lia. rewrite bind_Ok.
  apply fail_step; [apply Nat.ltb_ge; unfold sdesMaxOctetCount; lia|].
  rewrite put_zeros by buf_lia. rewrite bind_Ok. simpl.
  by rewrite !u8_small by (unfold is_byte; lia).
Qed.

Lemma append_each_spec {A} (f : A → rres (list Z)) e l raw :
  Forall (λ x, f x = Ok (e x)) l → append_each f raw l = Ok (raw ++ flat_map e l).
Proof.
  intros H. revert raw. induction H as [|x l Hx Hl IH]; intros raw; simpl; [by rewrite app_nil_r|].
  by rewrite Hx, bind_Ok, IH, app_assoc.
Qed.

Lemma Chunk_Marshal_wire c : chunk_ok c → Chunk_Marshal c = Ok (wire_chunk c).
Proof.
  intros [_ Hi]. unfold Chunk_Marshal.
  rewrite <- (app_nil_l (zeros 4)), put_zeros by buf_lia. rewrite bind_Ok. simpl (zeros _). simpl ([] ++ _).
  rewrite app_nil_r, (append_each_spec _ wire_item), bind_Ok.
  2: { eapply Forall_impl; [exact Hi|]. apply Item_Marshal_wire. }
  unfold wire_chunk, chunk_text. change (u8 SDESEnd) with 0. by rewrite <- !app_assoc.
Qed.

Lemma Item_len_wire s : length (wire_item s) = Item_len s.
Proof. reflexivity. Qed.

Lemma foldl_sum {A} (f : A → nat) (e : A → list Z) l n :
  Forall (λ x, length (e x) = f x) l →
  foldl (λ n x, n + f x)%nat n l = (n + length (flat_map e l))%nat.
Proof.
  intros H. revert n. induction H as [|x l Hx Hl IH]; intros n; simpl; [lia|].
  rewrite IH, length_app, Hx. lia.
Qed.

Lemma Chunk_len_wire c : length (wire_chunk c) = Chunk_len c.
Proof.
  unfold Chunk_len. rewrite (foldl_sum Item_len wire_item) by (apply Forall_true, Item_len_wire).
  unfold wire_chunk. rewrite length_app, length_zeros.
  assert (length (chunk_text c) = 4 + length (flat_map wire_item (ch_Items c)) + 1)%nat as ->; [|done].
  unfold chunk_text. rewrite !length_app, length_be32. simpl. lia.
Qed.

Lemma Chunk_len_words c : ∃ k, Chunk_len c = (4 * k)%nat.
Proof.
  unfold Chunk_len. cbv zeta.
  match goal with |- context [(?n + getPadding ?n)%nat] => destruct (getPadding_spec n) as (k & Hk & _) end.
  eauto.
Qed.

Lemma sdes_len s : SourceDescription_len s = (4 + length (flat_map wire_chunk (Chunks s)))%nat.
Proof.
  unfold SourceDescription_len. rewrite (foldl_sum Chunk_len wire_chunk); [done|].
  apply Forall_true, Chunk_len_wire.
Qed.

Lemma chunks_words l : ∃ k, length (flat_map wire_chunk l) = (4 * k)%nat.
Proof.
  induction l as [|c l [k Hk]]; cbn [flat_map]; [by exists 0%nat|].
  destruct (Chunk_len_words c) as [j Hj]. exists (j + k)%nat. rewrite length_app, Chunk_len_wire. lia.
Qed.

Lemma sdes_length s : sdes_ok s →
  ∃ k, SourceDescription_len s = (4 * k)%nat ∧ (1 <= k)%nat ∧ Z.of_nat k < 2 ^ 16.
Proof.
  intros (_ & _ & Hm). rewrite sdes_len. destruct (chunks_words (Chunks s)) as [k Hk].
  exists (1 + k)%nat. lia.
Qed.

Lemma sdes_hdr_ok s : sdes_ok s → hdr_ok (SourceDescription_Header s).
Proof.
  intros Hs. destruct (sdes_length s Hs) as (k & Hk & H1 & H2). destruct Hs as (_ & Hn & _).
  apply report_hdr_ok; [done | unfold is_byte, TypeSourceDescription; lia |].
  rewrite Hk. apply length_field_words; lia.
Qed.

Lemma copy_chunks_spec l pre k n :
  Forall chunk_ok l → length pre = n → (length (flat_map wire_chunk l) <= k)%nat →
  copy_chunks (pre ++ zeros k) n l =
  Ok ((pre ++ flat_map wire_chunk l) ++ zeros (k - length (flat_map wire_chunk l))).
Proof.
  intros H. revert pre k n. induction H as [|c l Hc Hl IH]; intros pre k n Hn Hk;
    cbn [copy_chunks flat_map length] in *.
  - rewrite app_nil_r. buf_eq.
  - rewrite length_app in *. rewrite Chunk_Marshal_wire, bind_Ok by done.
    rewrite copy_zeros by lia. rewrite bind_Ok. cbn [fst].
    rewrite IH by (rewrite ?length_app; lia). rewrite <- !app_assoc. buf_eq.
Qed.

Lemma Item_Unmarshal_wire s b rest :
  item_ok s → (s_len b <= s_cap b)%nat → s_bytes b = wire_item s ++ rest →
  Item_Unmarshal b = Ok s.
Proof.
  intros [Ht Hs] Hb H. change (s_bytes b) with (drop 0 (s_bytes b)) in H.
  pose proof (drop_s_bytes_len b 0 _ _ Hb H ltac:(done)) as Hn. rewrite Item_len_wire in Hn.
  unfold Item_len in Hn. unfold Item_Unmarshal. apply fail_step; [apply Nat.ltb_ge; lia|].
  rewrite (s_idx_at b _ _ _ Hb H), bind_Ok. apply (drop_app_inv _ [it_Type s] _ _ 1) in H; [|done].
  rewrite (s_idx_at b _ _ _ Hb H), bind_Ok, Nat2Z.id.
  apply fail_step; [apply Nat.ltb_ge; lia|]. apply (drop_app_inv _ [_] _ _ 2) in H; [|done].
  destruct (s_sub_bytes (E := rtcp_err) b _ (2 + length (it_Text s))%nat _ _ Hb H)
    as (c & -> & Hc & _); [done | lia |].
  rewrite bind_Ok, Hc. by destruct s.
Qed.

Lemma read_items_spec l b i rest acc fuel :
  Forall item_ok l → (s_len b <= s_cap b)%nat →
  drop i (s_bytes b) = flat_map wire_item l ++ 0 :: rest → (length l < fuel)%nat →
  read_items fuel b i acc = Ok (acc ++ l).
Proof.
  intros Hl Hb. revert i acc fuel. induction Hl as [|s l [Ht Hs] Hl IH]; intros i acc fuel H Hf;
    (destruct fuel as [|fuel]; [simpl in Hf; lia|]); cbn [read_items flat_map length] in *.
  - pose proof (drop_s_bytes_len b i [0] rest Hb H ltac:(done)) as Hn. simpl in Hn.
    rewrite (proj2 (Nat.ltb_lt _ _)) by lia. rewrite (s_idx_at b _ _ _ Hb H), bind_Ok. simpl.
    by rewrite app_nil_r.
  - rewrite <- app_assoc in H.
    pose proof (drop_s_bytes_len b i _ _ Hb H ltac:(done)) as Hn. rewrite Item_len_wire in Hn.
    unfold Item_len in Hn. rewrite (proj2 (Nat.ltb_lt _ _)) by lia.
    rewrite (s_idx_at b _ _ _ Hb H), bind_Ok.
    rewrite (proj2 (Z.eqb_neq _ _)) by (unfold SDESEnd; lia). rewrite s_from_Ok, bind_Ok by lia.
    rewrite (Item_Unmarshal_wire s _ (flat_map wire_item l ++ 0 :: rest)), bind_Ok;
      [| done | unfold s_cap in *; simpl; rewrite length_drop; lia | by rewrite s_bytes_drop].
    apply (drop_app_inv _ _ _ _ (i + Item_len s)) in H; [|done].
    rewrite (IH _ _ fuel H) by lia. by rewrite <- app_assoc.
Qed.

Lemma length_items_le l : (length l <= length (flat_map wire_item l))%nat.
Proof. induction l as [|s l IH]; cbn [flat_map length]; [done|]. rewrite length_app, Item_len_wire. unfold Item_len. lia. Qed.

Lemma Chunk_Unmarshal_wire c b rest :
  chunk_ok c → (s_len b <= s_cap b)%nat → s_bytes b = wire_chunk c ++ rest →
  Chunk_Unmarshal b = Ok c.
Proof.
  intros [Hs Hi] Hb H. unfold wire_chunk in H. unfold chunk_text in H at 1. rewrite <- !app_assoc in H.
  change (s_bytes b) with (drop 0 (s_bytes b)) in H.
  pose proof (drop_s_bytes_len b 0 _ _ Hb H ltac:(done)) as Hn. rewrite !length_app, length_be32 in Hn.
  cbn [length] in Hn. unfold Chunk_Unmarshal. apply fail_step; [apply Nat.ltb_ge; lia|].
  rewrite (get32_at_be b _ _ _ Hs H), bind_Ok. apply (drop_app_inv _ _ _ _ 4) in H; [|done].
  pose proof (length_items_le (ch_Items c)).
  rewrite (read_items_spec _ b 4 _ [] _ Hi Hb H), bind_Ok by lia. by destruct c.
Qed.

Lemma Chunk_len_pos c : (5 <= Chunk_len c)%nat.
Proof.
  rewrite <- Chunk_len_wire. unfold wire_chunk, chunk_text. rewrite !length_app, length_be32. simpl. lia.
Qed.

Lemma length_chunks_le l : (length l <= length (flat_map wire_chunk l))%nat.
Proof.
  induction l as [|c l IH]; cbn [flat_map length]; [done|]. rewrite length_app, Chunk_len_wire.
  pose proof (Chunk_len_pos c). lia.
Qed.

Lemma read_chunks_spec l b i acc fuel :
  Forall chunk_ok l → (s_len b <= s_cap b)%nat →
  drop i (s_bytes b) = flat_map wire_chunk l → (length l < fuel)%nat →
  read_chunks fuel b i acc = Ok (acc ++ l).
Proof.
  intros Hl Hb. revert i acc fuel. induction Hl as [|c l Hc Hl IH]; intros i acc fuel H Hf;
    (destruct fuel as [|fuel]; [simpl in Hf; lia|]); cbn [read_chunks flat_map length] in *.
  - apply (f_equal length) in H. rewrite length_drop, length_s_bytes in H by done. simpl in H.
    rewrite (proj2 (Nat.ltb_ge _ _)) by lia. by rewrite app_nil_r.
  - pose proof (Chunk_len_pos c). assert (i + Chunk_len c <= s_len b)%nat as Hn.
    { pose proof (f_equal length H) as Hd. rewrite length_drop, length_s_bytes, length_app, Chunk_len_wire in Hd
        by done. lia. }
    rewrite (proj2 (Nat.ltb_lt _ _)), s_from_Ok, bind_Ok by lia.
    rewrite (Chunk_Unmarshal_wire c _ (flat_map wire_chunk l)), bind_Ok;
      [| done | unfold s_cap in *; simpl; rewrite length_drop; lia | by rewrite s_bytes_drop].
    apply (drop_app_inv _ _ _ _ (i + Chunk_len c)) in H; [| by rewrite Chunk_len_wire].
    rewrite (IH _ _ fuel H) by lia. by rewrite <- app_assoc.
Qed.

#[export] Program Instance sdes_codec : Codec SourceDescription := {
  enc := SourceDescription_Marshal;
  dec := SourceDescription_Unmarshal;
  wf := sdes_ok;
  wire s := wire_hdr (SourceDescription_Header s) ++ flat_map wire_chunk (Chunks s);
  hdr := SourceDescription_Header;
  kind := KSDES;
}.
Next Obligation.
  intros s Hs. unfold SourceDescription_Marshal. rewrite sdes_len, zeros_add.
  pose proof Hs as (Hc & Hn & _). rewrite copy_chunks_spec by (done || buf_lia). rewrite bind_Ok.
  apply fail_step; [by apply Nat.ltb_ge|]. rewrite Header_Marshal_wire, bind_Ok by (by apply sdes_hdr_ok).
  rewrite Nat.sub_diag, app_nil_r, copy_front by done. by rewrite bind_Ok.
Qed.
Next Obligation. reflexivity. Qed.
Next Obligation. apply sdes_hdr_ok. Qed.
Next Obligation. reflexivity. Qed.
Next Obligation.
  intros s Hs. cbv beta. destruct (sdes_length s Hs) as (k & Hk & H1 & H2).
  rewrite length_app, length_wire_hdr. rewrite <- sdes_len. simpl Length. rewrite Hk.
  apply length_field_words; lia.
Qed.
Next Obligation.
  intros s b Hs Hb H. cbv beta in H. unfold SourceDescription_Unmarshal.
  rewrite (Header_Unmarshal_wire _ b _ (sdes_hdr_ok s Hs) Hb H), bind_Ok.
  apply fail_step; [done|]. destruct Hs as (Hc & Hn & _). pose proof (length_chunks_le (Chunks s)) as Hle.
  change (s_bytes b) with (drop 0 (s_bytes b)) in H.
  pose proof (f_equal length H) as Hl. rewrite length_drop, length_s_bytes, length_app in Hl by done.
  apply (drop_app_inv _ _ _ _ 4) in H; [|done].
  rewrite (read_chunks_spec _ b _ [] _ Hc Hb H), bind_Ok by lia.
  apply fail_step; [simpl; by rewrite count_field, Z.eqb_refl by done|]. by destruct s.
Qed.
