(* ===== verification/RtcpProps.v ===== *)
(** * RTCP datagrams: round trip

    A datagram of packets that are instances of [Codec] is read back packet by
    packet. *)

From S2P Require Import Prelude Bytes Rtcp RtcpFeedback RtcpCongestion RtcpXr RtcpPacket RtcpCodec.

(** ** Datagrams *)

(** The packets of the round trip: the kinds that are instances of [Codec]. *)
Definition rtcp_ok (p : Packet) : Prop :=
  match p with
  | PSenderReport p => wf p
  | PReceiverReport p => wf p
  | PSourceDescription p => wf p
  | PGoodbye p => wf p
  | PTransportLayerNack p => wf p
  | PRapidResynchronizationRequest p => wf p
  | PPictureLossIndication p => wf p
  | PFullIntraRequest p => wf p
  | _ => False
  end.

Definition rtcp_wire (p : Packet) : list Z :=
  match p with
  | PSenderReport p => wire p
  | PReceiverReport p => wire p
  | PSourceDescription p => wire p
  | PGoodbye p => wire p
  | PTransportLayerNack p => wire p
  | PRapidResynchronizationRequest p => wire p
  | PPictureLossIndication p => wire p
  | PFullIntraRequest p => wire p
  | _ => []
  end.

(** The slice [b] starts with the bytes [l]. *)
Definition starts (b : slice) (l : list Z) : Prop :=
  (s_len b <= s_cap b)%nat ∧ ∃ rest, s_bytes b = l ++ rest.

Lemma starts_length b l : starts b l → (length l <= s_len b)%nat.
Proof.
  intros (Hb & rest & H). rewrite <- (length_s_bytes b Hb), H, length_app. lia.
Qed.

(** The packet that is read first is the one that was written first. *)
Lemma unmarshal_wire `{Codec A} (inj : A → Packet) a b :
  (∀ s, Packet_Unmarshal kind s = inj <$> dec s) → wf a → starts b (wire a) →
  unmarshal b = Ok (inj a, length (wire a)) ∧ (4 <= length (wire a))%nat.
Proof.
  intros Hk Ha Hs. pose proof (starts_length b _ Hs) as Hn. destruct Hs as (Hb & rest & Hs).
  pose proof (wire_head a Ha) as Ht. pose proof (f_equal length Ht) as Hlt.
  rewrite length_take, length_wire_hdr in Hlt.
  assert (s_bytes b = wire_hdr (hdr a) ++ (drop 4 (wire a) ++ rest)) as Hh
    by (rewrite app_assoc, <- Ht, take_drop; done).
  unfold unmarshal. rewrite (Header_Unmarshal_wire _ b _ (hdr_wf a Ha) Hb Hh), bind_Ok.
  rewrite <- (wire_length a Ha). rewrite fail_if_false, bind_Ok by (apply Nat.ltb_ge; lia).
  change (s_bytes b) with (drop 0 (s_bytes b)) in Hs.
  destruct (s_sub_bytes (E := rtcp_err) b 0 (length (wire a)) _ _ Hb Hs eq_refl Hn) as (c & Hc & Hcb & Hcl).
  rewrite Hc, bind_Ok, (hdr_kind a Ha), Hk.
  assert (s_len c <= s_cap c)%nat as Hcc.
  { assert (length (s_bytes c) = s_len c) as Hx by congruence.
    unfold s_bytes, s_cap in *. rewrite length_take in Hx. lia. }
  rewrite (dec_wire a c Ha Hcc Hcb). split; [done | lia].
Qed.

Lemma packet_wire p nan : rtcp_ok p →
  Packet_Marshal nan p = Ok (rtcp_wire p) ∧
  (∀ b, starts b (rtcp_wire p) → unmarshal b = Ok (p, length (rtcp_wire p)) ∧ (4 <= length (rtcp_wire p))%nat).
Proof.
  destruct p; intros Hp; try done; (split; [exact (enc_wire p Hp) | intros b Hb; by apply unmarshal_wire]).
Qed.

Lemma unmarshal_loop_wire l : Forall rtcp_ok l → ∀ b fuel,
  (s_len b <= s_cap b)%nat → s_bytes b = flat_map rtcp_wire l → (s_len b <= fuel)%nat →
  unmarshal_loop fuel b = Ok l.
Proof.
  induction 1 as [|p l Hp Hl IH]; intros b fuel Hb H Hf; pose proof (length_s_bytes b Hb) as Hn;
    rewrite H in Hn; cbn [flat_map] in *.
  - destruct fuel; cbn [unmarshal_loop]; by rewrite <- Hn.
  - rewrite length_app in Hn. destruct (packet_wire p 0 Hp) as [_ Hu].
    destruct (Hu b) as [Hb1 H4]; [by split; eauto|].
    destruct fuel as [|fuel]; [lia|]. cbn [unmarshal_loop].
    rewrite (proj2 (Nat.eqb_neq _ _)) by lia. rewrite Hb1, bind_Ok. cbn [fst snd].
    rewrite s_from_Ok, bind_Ok by lia.
    rewrite (IH _ fuel), bind_Ok; [done | | | simpl; lia].
    + unfold s_cap in *. simpl. rewrite length_drop. lia.
    + rewrite s_bytes_drop, H. apply drop_app_length.
Qed.

Definition sample_rtcp : list Packet := [
  PReceiverReport (MkReceiverReport 7 [MkReceptionReport 9 12 300 70000 5 0 0] []);
  PSourceDescription (MkSourceDescription [MkChunk 7 [MkItem SDESCNAME [117; 115; 114]]]);
  PPictureLossIndication (MkPLI 0 9);
  PTransportLayerNack (MkNack 7 9 [MkNackPair 100 3]);
  PGoodbye (MkGoodbye [7] [98; 121; 101])].

(** C8. Every datagram made of reports, source descriptions, goodbyes, picture
    loss indications, full intra requests, resynchronization requests and
    negative acknowledgements is written without an error, and reading its
    bytes, whatever follows them in the buffer's array, gives the same packets
    in the same order, if the fields fit their widths and counts, the extensions
    of a sender report are whole words and a receiver report has no profile
    extensions (the source writes a wrong length for those). *)
Theorem rtcp_roundtrip nan l : l ≠ [] → Forall rtcp_ok l →
  ∃ bytes, Marshal nan l = Ok bytes ∧
    ∀ b, (s_len b <= s_cap b)%nat → s_bytes b = bytes → Unmarshal b = Ok l.
Proof.
  intros Hne Hl. exists (flat_map rtcp_wire l). split.
  - unfold Marshal. rewrite (append_each_spec _ rtcp_wire); [done|].
    eapply Forall_impl; [exact Hl|]. intros p Hp. by apply packet_wire.
  - intros b Hb H. unfold Unmarshal. rewrite (unmarshal_loop_wire l Hl), bind_Ok by done. by destruct l.
Qed.

Lemma sample_rtcp_ok : Forall rtcp_ok sample_rtcp.
Proof.
  repeat apply Forall_cons_2; try apply Forall_nil_2; repeat split; repeat constructor; try done.
Qed.

Lemma rtcp_roundtrip_witness :
  ∃ bytes, Marshal 0 sample_rtcp = Ok bytes ∧ Unmarshal (Slice (bytes ++ zeros 9) (length bytes)) = Ok sample_rtcp.
Proof.
  destruct (rtcp_roundtrip 0 sample_rtcp ltac:(done) sample_rtcp_ok) as (bytes & Hm & Hu).
  exists bytes. split; [exact Hm|]. apply Hu.
  - unfold s_cap. simpl. rewrite length_app. lia.
  - unfold s_bytes. simpl. apply take_app_length.
Defined.
