(* ===== verification/RtcpSafe.v ===== *)
(** * Reading RTCP datagrams: termination and panics

    What the functions of pion/rtcp that read a datagram can end in.  Every
    loop ends; the ways to a panic are listed: the packets that are too short
    for their kind, a transport-wide feedback cut within a delta at the very end
    of its buffer, and a congestion control feedback that counts past 16 bits. *)

From S2P Require Import Prelude Bytes Rtcp RtcpFeedback RtcpCongestion RtcpXr RtcpPacket RtcpCodec.

(** ** Slices and words *)

Ltac fb_lia := unfold headerLength, ssrcLength, receptionReportLength, srHeaderLength in *; lia.

(** A bound that holds where no panic is allowed. *)
Ltac bound :=
  let H := fresh "Hp" in intros H;
  repeat match goal with
         | Hq : ?q = false → _, Hr : ?q = false |- _ => specialize (Hq Hr)
         | Hb : s_ok _ |- _ => destruct Hb as [? _]
         end; fb_lia.

(** The fact a guard leaves. *)
Ltac after_check H :=
  first [ apply Nat.ltb_ge in H | apply Z.ltb_ge in H | apply Z.leb_gt in H | idtac ].

(** One read or guard. *)
Ltac rd_step :=
  lazymatch goal with
  | |- ends _ (_ ≫= _) _ => apply ends_bind
  | |- ends _ (_ <$> _) _ => apply ends_fmap
  | |- ends _ (fail_if _ _) _ => let H := fresh "Hg" in apply ends_fail_if; intros H; after_check H
  | |- ends _ (s_idx _ _) _ => apply ends_s_idx; [done | bound | intros]
  | |- ends _ (s_from _ _) _ => apply ends_s_from; [done | bound | intros ? ? ? ? _ ?]
  | |- ends _ (s_sub _ _ _) _ => apply ends_s_sub; [done | bound | intros]
  | |- ends _ (get16 _) _ => apply ends_get16; [done | bound | intros]
  | |- ends _ (get32 _) _ => apply ends_get32; [done | bound | intros]
  | |- ends _ (get64 _) _ => apply ends_get64; [done | bound | intros]
  | |- ends _ (get16_at _ _) _ => apply ends_get16_at; [done | bound | intros]
  | |- ends _ (get32_at _ _) _ => apply ends_get32_at; [done | bound | intros]
  | |- ends _ (get64_at _ _) _ => apply ends_get64_at; [done | bound | intros]
  | |- ends _ (Ok _) _ => apply ends_ret
  | |- ends _ (Err _) _ => apply ends_err
  end.

Ltac rd := repeat rd_step; cbv beta.

Section packets.
Context (p : bool).

(** ** Header and reports *)

Definition hdr_typed (h : Header) : Prop := 0 ≤ Count h < 32 ∧ is_byte (Type_ h) ∧ is_u16 (Length h).

Lemma ends_Header b (Q : Header → Prop) : s_ok b →
  (∀ h, hdr_typed h → Header_Unmarshal b = Ok h → (4 <= s_len b)%nat → Q h) → ends p (Header_Unmarshal b) Q.
Proof.
  intros Hb HQ. assert (ends p (Header_Unmarshal b) (λ h, hdr_typed h ∧ (4 <= s_len b)%nat)) as H.
  { unfold Header_Unmarshal. rd. split; [|fb_lia]. split; [|done]. simpl.
    apply (land_low _ 5); [lia | done]. }
  destruct (Header_Unmarshal b) as [h| | |]; try done. destruct H. by apply HQ.
Qed.

Lemma ends_ReceptionReport b (Q : ReceptionReport → Prop) : s_ok b →
  (∀ r, (24 <= s_len b)%nat → Q r) → ends p (ReceptionReport_Unmarshal b) Q.
Proof. intros Hb HQ. unfold ReceptionReport_Unmarshal. rd. apply HQ. fb_lia. Qed.

Lemma ends_read_reports b i n (Q : list ReceptionReport * nat → Prop) : s_ok b →
  (∀ r, Q r) → ends p (read_reports b i n) Q.
Proof.
  intros Hb HQ. revert i Q HQ. induction n as [|n IH]; intros i Q HQ; cbn [read_reports]; [apply HQ|].
  rd. apply ends_ReceptionReport; [done|]. intros r _. rd. apply IH. intros r'. rd. apply HQ.
Qed.

Lemma ends_SenderReport b Q : s_ok b → (∀ r, Q r) → ends p (SenderReport_Unmarshal b) Q.
Proof.
  intros Hb HQ. unfold SenderReport_Unmarshal. rd. apply ends_Header; [done|]. intros h Hh _ _. rd.
  apply ends_read_reports; [done|]. intros r. apply ends_bind.
  destruct (r.2 <? s_len _)%nat eqn:Hr; [apply Nat.ltb_lt in Hr|]; rd; apply HQ.
Qed.

Lemma ends_read_report_blocks b i n (Q : list ReceptionReport → Prop) : s_ok b →
  (i <= s_len b)%nat → (∀ l, (i + 24 * length l <= s_len b)%nat → Q l) → ends p (read_report_blocks b i n) Q.
Proof.
  intros Hb. revert i Q. induction n as [|n IH]; intros i Q Hi HQ; cbn [read_report_blocks].
  - apply ends_ret, HQ. simpl. lia.
  - destruct (i <? s_len b)%nat eqn:H; [apply Nat.ltb_lt in H|].
    + rd. apply ends_ReceptionReport; [done|]. intros r Hr. rd. apply IH; [fb_lia|].
      intros l Hl. rd. apply HQ. simpl. fb_lia.
    + apply ends_ret, HQ. simpl. lia.
Qed.

Lemma ends_ReceiverReport b Q : s_ok b → (∀ r, Q r) → ends p (ReceiverReport_Unmarshal b) Q.
Proof.
  intros Hb HQ. unfold ReceiverReport_Unmarshal. rd. apply ends_Header; [done|]. intros h Hh _ _. rd.
  apply ends_read_report_blocks; [done | fb_lia |]. intros l Hl. rd. apply HQ.
Qed.

(** ** Source descriptions and goodbyes *)

Lemma ends_Item b (Q : SourceDescriptionItem → Prop) : s_ok b →
  (∀ s, Q s) → ends p (Item_Unmarshal b) Q.
Proof. intros Hb HQ. unfold Item_Unmarshal. rd. apply HQ. Qed.

Lemma ends_read_items fuel b i acc (Q : list SourceDescriptionItem → Prop) : s_ok b →
  (s_len b - i < fuel)%nat → (∀ l, Q l) → ends p (read_items fuel b i acc) Q.
Proof.
  intros Hb. revert i acc. induction fuel as [|fuel IH]; intros i acc Hf HQ; [lia|]. cbn [read_items].
  destruct (i <? s_len b)%nat eqn:H; [apply Nat.ltb_lt in H | apply ends_err].
  rd. destruct (_ =? SDESEnd); [rd; apply HQ|]. rd. apply ends_Item; [done|]. intros s.
  apply IH; [unfold Item_len; lia | done].
Qed.

Lemma ends_Chunk b (Q : SourceDescriptionChunk → Prop) : s_ok b → (∀ c, Q c) → ends p (Chunk_Unmarshal b) Q.
Proof.
  intros Hb HQ. unfold Chunk_Unmarshal. rd. apply ends_read_items; [done | lia |]. intros l. rd. apply HQ.
Qed.

Lemma ends_read_chunks fuel b i acc (Q : list SourceDescriptionChunk → Prop) : s_ok b →
  (s_len b - i < fuel)%nat → (∀ l, Q l) → ends p (read_chunks fuel b i acc) Q.
Proof.
  intros Hb. revert i acc. induction fuel as [|fuel IH]; intros i acc Hf HQ; [lia|]. cbn [read_chunks].
  destruct (i <? s_len b)%nat eqn:H; [apply Nat.ltb_lt in H | apply ends_ret, HQ].
  rd. apply ends_Chunk; [done|]. intros ch. pose proof (Chunk_len_pos ch). apply IH; [lia | done].
Qed.

Lemma ends_SourceDescription b Q : s_ok b → (∀ r, Q r) → ends p (SourceDescription_Unmarshal b) Q.
Proof.
  intros Hb HQ. unfold SourceDescription_Unmarshal. rd. apply ends_Header; [done|]. intros h Hh _ _. rd.
  apply ends_read_chunks; [done | lia |]. intros l. rd. apply HQ.
Qed.

Lemma ends_read_words b i n (Q : list Z → Prop) : s_ok b →
  (p = false → i + 4 * n <= s_len b)%nat → (∀ l, Q l) → ends p (read_words b i n) Q.
Proof.
  intros Hb. revert i Q. induction n as [|n IH]; intros i Q Hp HQ; cbn [read_words]; [apply HQ|].
  rd. apply IH; [bound|]. intros l. rd. apply HQ.
Qed.

Lemma ends_Goodbye b Q : s_ok b → (∀ r, Q r) → ends p (Goodbye_Unmarshal b) Q.
Proof.
  intros Hb HQ. unfold Goodbye_Unmarshal. rd. apply ends_Header; [done|]. intros h [Hc _] _ _. rd.
  assert (Z.to_nat (u8 (4 + u8 (Count h * 4))) = 4 + 4 * Z.to_nat (Count h))%nat as Hr.
  { rewrite (u8_small (_ * 4)), u8_small by (unfold is_byte; lia). lia. }
  rewrite Hr in *.
  apply ends_read_words; [done | bound |]. intros l. apply ends_bind.
  destruct (_ <? s_len b)%nat eqn:H'; [apply Nat.ltb_lt in H'|]; rd; apply HQ.
Qed.

(** ** Feedback *)

Lemma ends_PLI b Q : s_ok b → (∀ r, Q r) → ends p (PictureLossIndication_Unmarshal b) Q.
Proof.
  intros Hb HQ. unfold PictureLossIndication_Unmarshal. rd. apply ends_Header; [done|].
  intros h Hh _ _. rd. apply HQ.
Qed.

Lemma ends_RRR b Q : s_ok b → (∀ r, Q r) → ends p (RapidResynchronizationRequest_Unmarshal b) Q.
Proof.
  intros Hb HQ. unfold RapidResynchronizationRequest_Unmarshal. rd. apply ends_Header; [done|].
  intros h Hh _ _. rd. apply HQ.
Qed.

Lemma ends_read_fir fuel b i end_ (Q : list FIREntry → Prop) : s_ok b → (end_ - i < fuel)%nat →
  (p = false → (end_ <= s_len b)%nat ∧ ∃ k, (i <= end_ -> end_ = i + 8 * k)%nat) →
  (∀ l, Q l) → ends p (read_fir fuel b i end_) Q.
Proof.
  intros Hb. revert i Q. induction fuel as [|fuel IH]; intros i Q Hf Hp HQ; [lia|]. cbn [read_fir].
  destruct (i <? end_)%nat eqn:H; [apply Nat.ltb_lt in H | apply ends_ret, HQ].
  assert (p = false → i + 8 <= end_ ∧ end_ <= s_len b)%nat as Hp'.
  { intros Hf'. destruct (Hp Hf') as (He & k & Hk). specialize (Hk ltac:(lia)). destruct k; lia. }
  rd. apply IH; [lia | |].
  - intros Hf'. destruct (Hp Hf') as (He & k & Hk). specialize (Hk ltac:(lia)). split; [done|].
    exists (k - 1)%nat. lia.
  - intros l. rd. apply HQ.
Qed.

Lemma ends_FIR b Q : s_ok b →
  (p = false → (12 <= s_len b)%nat ∧ ∀ h, Header_Unmarshal b = Ok h → ∃ k, payload_end h = (12 + 8 * k)%nat) →
  (∀ r, Q r) → ends p (FullIntraRequest_Unmarshal b) Q.
Proof.
  intros Hb Hp HQ. unfold FullIntraRequest_Unmarshal. rd. apply ends_Header; [done|]. intros h Hh Hu _.
  assert (p = false → 12 <= s_len b)%nat by (intros; by apply Hp). rd.
  apply ends_read_fir; [done | lia | |].
  - intros Hf. split; [done|]. destruct (Hp Hf) as [_ Hk]. destruct (Hk h Hu) as [k Hk']. exists k. fb_lia.
  - intros l. rd. apply HQ.
Qed.

Lemma ends_read_nacks fuel b i end_ (Q : list NackPair → Prop) : s_ok b → (end_ - i < fuel)%nat →
  (p = false → (end_ <= s_len b)%nat ∧ ∃ k, (i <= end_ -> end_ = i + 4 * k)%nat) →
  (∀ l, Q l) → ends p (read_nacks fuel b i end_) Q.
Proof.
  intros Hb. revert i Q. induction fuel as [|fuel IH]; intros i Q Hf Hp HQ; [lia|]. cbn [read_nacks].
  destruct (i <? end_)%nat eqn:H; [apply Nat.ltb_lt in H | apply ends_ret, HQ].
  assert (p = false → i + 4 <= end_ ∧ end_ <= s_len b)%nat as Hp'.
  { intros Hf'. destruct (Hp Hf') as (He & k & Hk). specialize (Hk ltac:(lia)). destruct k; lia. }
  rd. apply IH; [lia | |].
  - intros Hf'. destruct (Hp Hf') as (He & k & Hk). specialize (Hk ltac:(lia)). split; [done|].
    exists (k - 1)%nat. lia.
  - intros l. rd. apply HQ.
Qed.

Lemma payload_end_words h : ∃ k, payload_end h = (4 * k)%nat.
Proof.
  unfold payload_end, u16. exists (1 + Z.to_nat (Length h mod 2 ^ 14))%nat.
  change (2 ^ 16) with (4 * 2 ^ 14). rewrite Z.mul_mod_distr_l by lia. fb_lia.
Qed.

Lemma ends_NACK b Q : s_ok b → (p = false → (12 <= s_len b)%nat) →
  (∀ r, Q r) → ends p (TransportLayerNack_Unmarshal b) Q.
Proof.
  intros Hb Hp HQ. unfold TransportLayerNack_Unmarshal. rd. apply ends_Header; [done|]. intros h Hh Hu _.
  rd. apply ends_read_nacks; [done | lia | |].
  - intros Hf. split; [done|]. destruct (payload_end_words h) as [k Hk]. exists (k - 3)%nat. fb_lia.
  - intros l. rd. apply HQ.
Qed.

(** A slice loss indication of a datagram is refused by its own reader. *)
Lemma SLI_refused b h : Header_Unmarshal b = Ok h → kind_of h = KSLI →
  ∃ e, SliceLossIndication_Unmarshal b = Err e.
Proof.
  intros Hu Hk. unfold SliceLossIndication_Unmarshal.
  destruct (s_len b <? headerLength + ssrcLength)%nat; [by exists errPacketTooShort|]. rewrite Hu.
  cbn [fail_if mbind res_bind]. destruct (s_len b <? payload_end h)%nat; [by exists errPacketTooShort|].
  exists errWrongType. destruct (Type_ h =? TypeTransportSpecificFeedback) eqn:Ht; [|done].
  apply Z.eqb_eq in Ht. unfold kind_of in Hk. rewrite Ht in Hk. simpl in Hk. by repeat case_match.
Qed.

(** ** Bitrate estimates *)

Lemma land_top m : 2 ^ 23 ≤ m < 2 ^ 24 → Z.land m 0x800000 ≠ 0.
Proof.
  intros Hm H. pose proof (f_equal (λ z, Z.testbit z 23) H) as Hz. cbv beta in Hz.
  rewrite Z.land_spec, Z.bits_0 in Hz. change (Z.testbit 0x800000 23) with true in Hz.
  rewrite andb_true_r, Z.testbit_odd, Z.shiftr_div_pow2 in Hz by lia.
  assert (m / 2 ^ 23 = 1) as Hd by (symmetry; apply (Z.div_unique _ _ _ (m - 2 ^ 23)); lia).
  by rewrite Hd in Hz.
Qed.

Lemma normalize_ends fuel m e : 1 ≤ m < 2 ^ 24 → 2 ^ 23 ≤ m * 2 ^ Z.of_nat fuel →
  ∃ r, normalize fuel m e = Ok r.
Proof.
  revert m e. induction fuel as [|fuel IH]; intros m e Hm Hf; cbn [normalize];
    (destruct (Z.eqb_spec (Z.land m 0x800000) 0) as [H|H]; [|eauto]);
    (destruct (Z.lt_ge_cases m (2 ^ 23)); [|destruct (land_top m ltac:(lia) H)]).
  - simpl in Hf. lia.
  - unfold u32. rewrite Z.mod_small by lia. apply IH; [lia|].
    rewrite Nat2Z.inj_succ, Z.pow_succ_r in Hf by lia. lia.
Qed.

Lemma mantissa_range x y z : is_byte y → is_byte z →
  0 ≤ Z.lor (Z.lor (Z.shiftl (Z.land x 3) 16) (Z.shiftl y 8)) z < 2 ^ 18.
Proof.
  intros Hy Hz. pose proof (land_low x 2 3 ltac:(lia) eq_refl) as Hx. unfold is_byte in *.
  rewrite Z.lor_comm, (Z.lor_comm (Z.shiftl (Z.land x 3) 16)), Z.lor_assoc.
  rewrite (lor_shiftl_add z), lor_shiftl_add by lia. lia.
Qed.

Lemma ends_REMB b Q : s_ok b → (∀ r, Q r) → ends p (REMB_Unmarshal b) Q.
Proof.
  intros Hb HQ. unfold REMB_Unmarshal. rd. cbv zeta.
  assert (∀ r : Z * Z, ends p (ssrcs ← read_words b 20 (Z.to_nat z1);
    Ok (MkREMB v0 (Z.lor (u32 (Z.shiftl r.2 23)) (Z.land r.1 0x7FFFFF)) ssrcs)) Q) as Hend.
  { intros r. rd. apply ends_read_words; [done | | intros l; rd; apply HQ].
    apply negb_false_iff, Z.eqb_eq in Hg8. unfold is_byte in *. bound. }
  pose proof (mantissa_range z2 z3 z4 ltac:(done) ltac:(done)) as Hm.
  revert Hm. generalize (Z.lor (Z.lor (Z.shiftl (Z.land z2 3) 16) (Z.shiftl z3 8)) z4). intros m Hm.
  destruct (Z.eqb_spec m 0); [apply ends_ret, Hend|].
  destruct (normalize_ends 24 m (u8 (u8 (Z.shiftr z2 2 + 127) + 23))) as [r ->]; [lia.. | apply Hend].
Qed.

(** ** Congestion control feedback *)

Lemma ends_Metric b (Q : CCFeedbackMetricBlock → Prop) : s_ok b → (∀ m, Q m) → ends p (Metric_unmarshal b) Q.
Proof.
  intros Hb HQ. unfold Metric_unmarshal. apply ends_bind, ends_fail_if. intros Hl.
  apply negb_false_iff, Nat.eqb_eq in Hl. rd. destruct (_ =? 0); rd; apply HQ.
Qed.

(** The bytes of the metrics behind the count [n] of a report block: [n + 1]
    metrics of two bytes, and two more to fill a word; the counts 0 and 65535
    stand for none. *)
Definition metric_bytes (n : Z) : nat := if (0 <? n) && (n <? 65535) then Z.to_nat (4 * ((n + 2) / 2)) else 0.

(** The counts of metrics that the report blocks in [l] announce, one block
    after the other. *)
Fixpoint block_counts (fuel : nat) (l : list Z) : list Z :=
  match fuel, l with
  | S fuel, _ :: _ :: _ :: _ :: _ :: _ :: b6 :: b7 :: l =>
      word16 b6 b7 :: block_counts fuel (drop (metric_bytes (word16 b6 b7)) l)
  | _, _ => []
  end.

(** A count whose metrics end beyond what 16 bits can address. *)
Definition overlong (n : Z) : bool := (32763 <=? n) && (n <? 65535).

(** The offset of the 32763rd metric is 65534, and the end of its slice is 0. *)
Lemma ends_read_metrics b i n (Q : list CCFeedbackMetricBlock → Prop) :
  s_ok b → 0 ≤ i ≤ 32763 → Z.of_nat (s_len b) ≤ 65524 → (p = false → 8 + 2 * (i + Z.of_nat n) ≤ Z.of_nat (s_len b)) →
  (∀ l, length l = n → i + Z.of_nat n ≤ 32763 → Q l) → ends p (read_metrics b i n) Q.
Proof.
  intros Hb Hi Hl. revert i Q Hi. induction n as [|n IH]; intros i Q Hi Hp HQ; cbn [read_metrics].
  - apply ends_ret, HQ; [done | lia].
  - apply ends_bind, ends_s_sub; [done | | ].
    { intros Hf. specialize (Hp Hf). rewrite (u16_small (2 * i)), (u16_small (8 + _)), u16_small by (unfold is_u16; lia).
      destruct Hb. lia. }
    intros c Hc _ Ho.
    assert (i < 32763) as Hi'.
    { destruct (Z.eq_dec i 32763) as [->|]; [|lia]. exfalso. revert Ho.
      change (u16 (8 + u16 (2 * 32763))) with 65534. change (u16 (65534 + 2)) with 0. lia. }
    apply ends_bind, ends_Metric; [done|]. intros m. apply ends_bind, IH; [lia | intros Hf; specialize (Hp Hf); lia |]. intros l Hll Hn.
    apply ends_ret, HQ; [simpl; lia | lia].
Qed.

(** A word read at a position, and the bytes there. *)
Lemma ends_get16_eq b i b0 b1 l (Q : Z → Prop) :
  drop i (s_bytes b) = b0 :: b1 :: l → (i <= s_len b)%nat → Q (word16 b0 b1) → ends p (get16_at (E := rtcp_err) b i) Q.
Proof.
  intros Hd Hi HQ. unfold get16_at. rewrite s_from_Ok, bind_Ok by done. unfold get16. by rewrite s_bytes_drop, Hd.
Qed.

Lemma ends_ReportBlock b (Q : CCFeedbackReportBlock → Prop) : s_ok b → Z.of_nat (s_len b) ≤ 65524 →
  (∀ x0 x1 x2 x3 x4 x5 b6 b7 l, s_bytes b = x0 :: x1 :: x2 :: x3 :: x4 :: x5 :: b6 :: b7 :: l →
     (p = false → overlong (word16 b6 b7) = false) ∧
     ∀ x, 8 ≤ ReportBlock_len x ≤ Z.of_nat (s_len b) + 2 →
       (p = false → ReportBlock_len x = 8 + Z.of_nat (metric_bytes (word16 b6 b7))) → Q x) →
  ends p (ReportBlock_unmarshal b) Q.
Proof.
  intros Hb Hl HQ. unfold ReportBlock_unmarshal. do 11 rd_step.
  pose proof (length_s_bytes b (proj1 Hb)) as Hlen. pose proof (s_bytes_ok b Hb) as Hby.
  destruct (s_bytes b) as [|x0 [|x1 [|x2 [|x3 [|x4 [|x5 [|b6 [|b7 l]]]]]]]] eqn:Hbytes; simpl in Hlen; try lia.
  destruct (HQ _ _ _ _ _ _ _ _ _ eq_refl) as [Hw HQ']. clear HQ.
  do 6 apply Forall_cons in Hby as [_ Hby]. apply Forall_cons in Hby as [Y6 Hby]. apply Forall_cons in Hby as [Y7 _].
  pose proof (word16_u16 b6 b7 Y6 Y7) as Hv. eapply ends_get16_eq; [by rewrite Hbytes | lia |].
  revert Hw HQ' Hv. generalize (word16 b6 b7). intros n Hw HQ' Hv.
  destruct (Z.eqb_spec n 0) as [->|Hn0].
  { apply ends_ret, HQ'; [change (ReportBlock_len _) with 8; lia | done]. }
  apply ends_bind, ends_fail_if. intros Hn. apply Z.ltb_ge in Hn.
  assert (u16 (u16 (u16 (v0 + n) - v0) + 1) = u16 (n + 1)) as Em.
  { unfold u16. rewrite Zminus_mod_idemp_l. replace (v0 + n - v0) with n by lia. by rewrite Zplus_mod_idemp_l. }
  rewrite Em in *. pose proof (u16_range (n + 1)) as Hm. unfold is_u16 in *.
  assert (p = false → n ≤ 32762 ∨ n = 65535) as Hsmall.
  { intros Hf. specialize (Hw Hf). unfold overlong in Hw. apply andb_false_iff in Hw as [Hw|Hw]; [apply Z.leb_gt in Hw | apply Z.ltb_ge in Hw]; lia. }
  assert (p = false → 8 + 2 * (0 + Z.of_nat (Z.to_nat (u16 (n + 1)))) ≤ Z.of_nat (s_len b)) as Hfits.
  { intros Hf. destruct (Hsmall Hf) as [Hs| ->].
    - rewrite (u16_small (n + 1)) in * by (unfold is_u16; lia). rewrite (u16_small (_ * 2)), u16_small in Hn by (unfold is_u16; lia). lia.
    - change (u16 (65535 + 1)) with 0. lia. }
  apply ends_bind, ends_read_metrics; [done | lia | done | done |]. intros k Hk Hkm. apply ends_ret.
  assert (ReportBlock_len (MkReportBlock v v0 k) = 8 + 4 * ((u16 (n + 1) + 1) / 2)) as Elen.
  { unfold ReportBlock_len. cbn [MetricBlocks]. rewrite Hk, Z2Nat.id by lia. rewrite Z2Nat.id in Hkm by lia.
    assert (∀ z, 0 ≤ z ≤ 32764 → z ≤ 32763 → u16 (8 + u16 (2 * u16 z)) = 8 + 2 * z) as Hz
      by (intros z ? ?; rewrite (u16_small z), (u16_small (2 * z)), u16_small by (unfold is_u16; lia); done).
    pose proof (Z.mod_pos_bound (u16 (n + 1)) 2).
    assert (u16 (n + 1) ≤ 32762) as Hmx.
    { rewrite (u16_small (_ * 2)), u16_small in Hn by (unfold is_u16; lia). lia. }
    destruct (Z.eqb_spec (u16 (n + 1) mod 2) 0); rewrite Hz by lia; Z.div_mod_to_equations; lia. }
  apply HQ'.
  - rewrite Elen. rewrite Z2Nat.id in Hkm by lia. rewrite (u16_small (_ * 2)), u16_small in Hn by (unfold is_u16; lia).
    Z.div_mod_to_equations. lia.
  - intros Hf. rewrite Elen. unfold metric_bytes. destruct (Hsmall Hf) as [Hs| ->]; [|done].
    rewrite (proj2 (Z.ltb_lt 0 n)), (proj2 (Z.ltb_lt n 65535)) by lia. cbn [andb]. rewrite Z2Nat.id by (Z.div_mod_to_equations; lia).
    rewrite u16_small by (unfold is_u16; lia). by replace (n + 1 + 1) with (n + 2) by lia.
Qed.

Lemma ends_read_blocks fuel b i end_ (Q : list CCFeedbackReportBlock → Prop) :
  s_ok b → Z.of_nat (s_len b) ≤ 65532 → 8 ≤ i → end_ ≤ Z.of_nat (s_len b) →
  (Z.to_nat (end_ - i) < fuel)%nat →
  (p = false → existsb overlong (block_counts fuel (drop (Z.to_nat i) (s_bytes b))) = false) →
  (∀ l, Q l) → ends p (read_blocks fuel b i end_) Q.
Proof.
  intros Hb Hl. revert i Q. induction fuel as [|fuel IH]; intros i Q Hi He Hf Hp HQ; [lia|]. cbn [read_blocks].
  destruct (i <? end_) eqn:H; [apply Z.ltb_lt in H | apply ends_ret, HQ].
  apply ends_bind, ends_s_from; [done | lia |]. intros c Hc Hcl _ Hcb Hi'.
  apply ends_bind, ends_ReportBlock; [done | lia |]. intros x0 x1 x2 x3 x4 x5 b6 b7 l El.
  rewrite <- Hcb, El in Hp. cbn [block_counts existsb] in Hp. split; [intros Hf'; by apply orb_false_iff in Hp as [? _]|].
  intros x Hx Hxl. apply ends_bind, IH; [| done | | | intros l'; apply ends_ret, HQ].
  - rewrite u16_small by (unfold is_u16; lia). lia.
  - rewrite u16_small by (unfold is_u16; lia). lia.
  - intros Hf'. rewrite u16_small by (unfold is_u16; lia). specialize (Hxl Hf'). apply orb_false_iff in Hp as [_ Hp]; [|done].
    replace (Z.to_nat (i + ReportBlock_len x)) with (Z.to_nat i + (8 + metric_bytes (word16 b6 b7)))%nat by lia.
    rewrite <- drop_drop, <- Hcb, El. exact Hp.
Qed.

(** The congestion control feedback in [b] has a block with such a count. *)
Definition ccfb_overlong (b : slice) : bool := existsb overlong (block_counts (S (s_len b)) (drop 8 (s_bytes b))).

Lemma ends_CCFB b Q : s_ok b → Z.of_nat (s_len b) ≤ 65532 → (p = false → ccfb_overlong b = false) → (∀ r, Q r) →
  ends p (CCFeedbackReport_Unmarshal b) Q.
Proof.
  intros Hb Hl Hp HQ. unfold CCFeedbackReport_Unmarshal. rd. apply ends_Header; [done|].
  intros h Hh _ _.
  assert (u16 (Z.of_nat (s_len b) - 4) = Z.of_nat (s_len b) - 4) as Ho
    by (apply u16_small; unfold is_u16; fb_lia).
  rewrite Ho. rd. apply ends_read_blocks; [done | done | lia | lia | lia | done |]. intros l. rd. apply HQ.
Qed.

(** ** Transport-wide feedback *)

Lemma ends_RunLength b (Q : RunLengthChunk → Prop) : s_ok b → s_len b = 2%nat → (∀ m, Q m) →
  ends p (RunLengthChunk_Unmarshal b) Q.
Proof. intros Hb Hl HQ. unfold RunLengthChunk_Unmarshal. rd. apply HQ. Qed.

Lemma ends_StatusVector b (Q : StatusVectorChunk → Prop) : s_ok b → s_len b = 2%nat → (∀ m, Q m) →
  ends p (StatusVectorChunk_Unmarshal b) Q.
Proof.
  intros Hb Hl HQ. unfold StatusVectorChunk_Unmarshal. rd. repeat case_match; apply HQ.
Qed.

Lemma ends_read_status fuel b total count processed pos Q : s_ok b →
  0 ≤ pos ≤ total → total ≤ 65532 → total ≤ Z.of_nat (s_len b) → (Z.to_nat (total - pos) < fuel)%nat →
  (∀ r, 0 ≤ r.2 ≤ total → Q r) → ends p (read_status fuel b total count processed pos) Q.
Proof.
  intros Hb. revert processed pos Q. induction fuel as [|fuel IH]; intros processed pos Q Hpos Ht Htl Hf HQ; [lia|].
  cbn [read_status]. destruct (processed <? count); [|apply ends_ret, HQ; done].
  rewrite (u16_small (pos + 1)), (u16_small (pos + 2)) by (unfold is_u16; lia). rd.
  destruct (_ =? 0); apply ends_bind;
    [apply ends_RunLength | apply ends_StatusVector]; [done | lia | | done | lia |];
    intros r; apply ends_bind, IH; try lia; intros r' Hr'; apply ends_ret, HQ; done.
Qed.

Lemma ends_RecvDelta b (Q : RecvDelta → Prop) : s_ok b → s_len b = 1%nat ∨ s_len b = 2%nat → (∀ m, Q m) →
  ends p (RecvDelta_Unmarshal b) Q.
Proof.
  intros Hb Hl HQ. unfold RecvDelta_Unmarshal. rd. destruct (s_len b =? 1)%nat eqn:H; rd; [apply HQ|].
  apply Nat.eqb_neq in H. apply ends_get16; [done | bound | intros]. rd. apply HQ.
Qed.

(** A delta of two bytes of which the packet of [total] bytes has only the
    first. *)
Fixpoint cut_delta (total pos : Z) (types : list Z) : bool :=
  match types with
  | [] => false
  | t :: types =>
      if t =? TypeTCCPacketReceivedSmallDelta then cut_delta total (pos + 1) types
      else if t =? TypeTCCPacketReceivedLargeDelta then (pos =? total - 1) || cut_delta total (pos + 2) types
      else cut_delta total pos types
  end.

Lemma ends_read_deltas b total pos types (Q : list RecvDelta → Prop) : s_ok b →
  0 ≤ pos → total ≤ 65532 → total ≤ Z.of_nat (s_len b) →
  (p = false → (s_len b < s_cap b)%nat ∨ cut_delta total pos types = false) →
  (∀ l, Q l) → ends p (read_deltas b total pos types) Q.
Proof.
  intros Hb. revert pos Q. induction types as [|t types IH]; intros pos Q Hpos Ht Htl Hp HQ;
    cbn [read_deltas]; [apply HQ|].
  rd. rewrite (u16_small (pos + 1)), (u16_small (pos + 2)) by (unfold is_u16; lia). cbn [cut_delta] in Hp. repeat case_match.
  - rd. apply ends_RecvDelta; [done | lia |]. intros d. rd. apply IH; try done; [lia|]. intros l. rd. apply HQ.
  - assert (p = false → pos + 2 ≤ Z.of_nat (s_cap b)) as Hc.
    { intros Hf. destruct Hb. destruct (Hp Hf) as [?|[Hx%Z.eqb_neq _]%orb_false_iff]; lia. }
    rd. apply ends_RecvDelta; [done | lia |]. intros d. rd. apply IH; try done; [lia| |intros l; rd; apply HQ].
    intros Hf. destruct (Hp Hf) as [|[_ ?]%orb_false_iff]; auto.
  - rd. apply IH; try done. intros l. rd. apply HQ.
Qed.

(** The transport-wide feedback in [b] ends within a delta: the deltas that its
    status chunks announce, from the end of the chunks. *)
Definition tcc_cut (b : slice) : bool :=
  match Header_Unmarshal b, get16_at (E := rtcp_err) b 14 with
  | Ok h, Ok count =>
      let total := u16 (4 * u16 (Length h + 1)) in
      match read_status (S (Z.to_nat total)) b total count 0 20 with
      | Ok r => cut_delta total r.2 r.1.2
      | _ => false
      end
  | _, _ => false
  end.

Lemma ends_eq {A} (m : rres A) (Q Q' : A → Prop) : ends p m Q → (∀ a, m = Ok a → Q a → Q' a) → ends p m Q'.
Proof. destruct m; simpl; auto. Qed.

Lemma ends_TCC b Q : s_ok b → (p = false → (s_len b < s_cap b)%nat ∨ tcc_cut b = false) → (∀ r, Q r) →
  ends p (TransportLayerCC_Unmarshal b) Q.
Proof.
  intros Hb Hp HQ. unfold TransportLayerCC_Unmarshal. rd. apply ends_Header; [done|].
  intros h Hh Eh _. cbv zeta. do 13 rd_step.
  eapply ends_eq; [apply (ends_get16_at p b _ (λ _, True)); [done | bound | done]|]. intros count Ec _.
  unfold get24BitsFromBytes. rd.
  assert (u16 (4 * u16 (Length h + 1)) ≤ 65532) as Ht.
  { unfold u16. change (2 ^ 16) with (4 * 2 ^ 14) at 2. rewrite Z.mul_mod_distr_l by lia.
    pose proof (Z.mod_pos_bound ((Length h + 1) mod 2 ^ 16) (2 ^ 14)). lia. }
  eapply ends_eq; [apply (ends_read_status _ _ _ _ _ _ (λ r, 0 ≤ r.2 ≤ u16 (4 * u16 (Length h + 1)))); [done | lia | done | done | lia | done]|].
  cbv beta. intros r Er [Hr _]. rd. apply ends_read_deltas; [done | lia | done | done | |intros l; rd; apply HQ].
  intros Hf. destruct (Hp Hf) as [?|Hcut]; [by left|]. right. unfold tcc_cut in Hcut.
  change (headerLength + 10)%nat with 14%nat in Ec. by rewrite Eh, Ec, Er in Hcut.
Qed.

(** ** Extended reports *)

Section ftype_induction.
Context (P : ftype → Prop) (H8 : P TU8) (H16 : P TU16) (H32 : P TU32) (H64 : P TU64) (HB : P TBool)
  (HS : ∀ t, P t → P (TSlice t)) (HR : ∀ l, Forall (λ f, P f.2) l → P (TStruct l)).

Fixpoint ftype_induct (t : ftype) : P t :=
  match t with
  | TU8 => H8
  | TU16 => H16
  | TU32 => H32
  | TU64 => H64
  | TBool => HB
  | TSlice t => HS t (ftype_induct t)
  | TStruct l =>
      HR l ((fix go l : Forall (λ f, P f.2) l :=
               match l with
               | [] => Forall_nil_2 _
               | f :: l => Forall_cons_2 _ f l (ftype_induct f.2) (go l)
               end) l)
  end.
End ftype_induction.

(** The bytes that a value of the type takes at least. *)
Fixpoint min_size (t : ftype) : nat :=
  match t with
  | TU8 | TBool => 1
  | TU16 => 2
  | TU32 => 4
  | TU64 => 8
  | TSlice _ => 0
  | TStruct l => foldr (λ f n, (match f.1 with Exported => min_size f.2 | _ => 0 end + n)%nat) 0%nat l
  end.

(** Every element of a slice takes space, so that a slice has an end. *)
Fixpoint slices_end (t : ftype) : bool :=
  match t with
  | TSlice t => (1 <=? min_size t)%nat && slices_end t
  | TStruct l => forallb (λ f, slices_end f.2) l
  | _ => true
  end.

Fixpoint has_slice (t : ftype) : bool :=
  match t with
  | TSlice _ => true
  | TStruct l => existsb (λ f, has_slice f.2) l
  | _ => false
  end.

Definition reads_well (t : ftype) : Prop := ∀ fuel b Q,
  slices_end t = true → s_ok b → (has_slice t = true → s_len b <= fuel)%nat →
  (∀ v c, s_ok c → (s_len c + min_size t <= s_len b)%nat → Q (v, c)) → ends p (pb_read fuel t b) Q.

Lemma reads_slice t : reads_well t → reads_well (TSlice t).
Proof.
  intros IH fuel b Q Hs Hb Hf HQ. cbn [slices_end has_slice min_size pb_read] in *.
  apply andb_true_iff in Hs as [Hm Hs]. apply Nat.leb_le in Hm. specialize (Hf eq_refl).
  apply ends_bind. match goal with |- ends p (?f fuel b) _ => set (go := f) end.
  assert (∀ n b Q', s_ok b → (s_len b <= n)%nat → (s_len b <= fuel)%nat →
    (∀ r, s_ok r.2 → (s_len r.2 <= s_len b)%nat → Q' r) → ends p (go n b) Q') as Hgo.
  { clear b Q Hb Hf HQ. induction n as [|n IHn]; intros b Q' Hb Hn Hf HQ'; simpl;
      (destruct (Nat.eqb_spec (s_len b) 0) as [H0|H0]; [apply ends_ret, HQ'; [done | simpl; lia]|]); [lia|].
    apply ends_bind, IH; [done | done | done |]. intros v c Hc Hl.
    apply ends_bind, IHn; [done | simpl; lia | simpl; lia |]. intros r Hr Hrl.
    apply ends_ret, HQ'; [done | simpl in *; lia]. }
  apply Hgo; [done | done | done |]. intros r Hr Hl. apply ends_ret, HQ; [done | lia].
Qed.

Lemma reads_struct l : Forall (λ f, reads_well f.2) l → reads_well (TStruct l).
Proof.
  intros IH fuel b Q Hs Hb Hf HQ. cbn [slices_end has_slice min_size pb_read] in *.
  apply ends_bind. match goal with |- ends p (?f l b) _ => set (go := f) end.
  assert (∀ Q', (∀ r, s_ok r.2 →
    (s_len r.2 + foldr (λ f n, (match f.1 with Exported => min_size f.2 | _ => 0 end + n)%nat) 0%nat l
     <= s_len b)%nat → Q' r) → ends p (go l b) Q') as Hgo.
  { clear Q HQ. revert b Hb Hs Hf. induction IH as [|[tag t] l Ht Hl IHl]; intros b Hb Hs Hf Q' HQ'.
    - apply HQ'; simpl; [done | lia].
    - cbn [forallb existsb snd foldr fst] in *. apply andb_true_iff in Hs as [Hs1 Hs2].
      rewrite orb_true_iff in Hf. destruct tag; simpl.
      + apply ends_bind, Ht; [done | done | by auto|]. intros v c Hc Hlc.
        apply ends_bind, IHl; [done | done | intros; simpl; specialize (Hf (or_intror H)); lia|].
        intros r Hr Hlr. apply ends_ret, HQ'; [done | simpl in *; lia].
      + apply ends_bind, IHl; [done | done | auto |]. intros r Hr Hlr. apply ends_ret, HQ'; [done | simpl in *; lia].
      + rd. apply IHl; [done | done | intros Hh; specialize (Hf (or_intror Hh)); lia|]. intros r Hr Hlr.
        apply ends_ret, HQ'; [done | simpl in *; lia]. }
  apply Hgo. intros r Hr Hl. apply ends_ret, HQ; [done | lia].
Qed.

Lemma pb_read_ends t : reads_well t.
Proof.
  apply ftype_induct; [| | | | | apply reads_slice | apply reads_struct];
    intros fuel b Q _ Hb _ HQ; cbn [pb_read]; unfold read_word; rd; apply HQ; (done || simpl; lia).
Qed.

Lemma slices_end_blocks k : slices_end (block_type k) = true.
Proof. by destruct k. Qed.

Lemma ends_read_xr fuel b (Q : list ReportBlock → Prop) : s_ok b → (s_len b <= fuel)%nat → (∀ l, Q l) →
  ends p (read_xr_blocks fuel b) Q.
Proof.
  revert b Q. induction fuel as [|fuel IH]; intros b Q Hb Hf HQ; cbn [read_xr_blocks];
    (destruct (Nat.eqb_spec (s_len b) 0); [apply ends_ret, HQ|]); [lia|].
  apply ends_bind. unfold XRHeader. cbn [pb_read]. unfold read_word. rd. cbn [fst snd].
  match goal with H : is_u16 ?v |- _ => assert (4 <= Z.to_nat ((v + 1) * 4))%nat as Hk by (unfold is_u16 in H; lia);
    revert Hk; generalize (Z.to_nat ((v + 1) * 4)) end.
  intros k Hk. unfold pb_split. set (size := if (s_len b <? k)%nat then s_len b else k).
  assert (1 <= size <= s_len b)%nat by (unfold size; destruct (s_len b <? k)%nat eqn:Hx;
    [|apply Nat.ltb_ge in Hx]; lia).
  rd. cbn [fst snd]. apply pb_read_ends; [apply slices_end_blocks | done | done |]. intros w d _ _.
  rd. apply IH; [done | lia |]. intros l. rd. apply HQ.
Qed.

Lemma ends_XR b Q : s_ok b → (∀ r, Q r) → ends p (ExtendedReport_Unmarshal b) Q.
Proof.
  intros Hb HQ. unfold ExtendedReport_Unmarshal. rd. apply ends_Header; [done|]. intros h Hh _ H4.
  cbn [pb_read]. unfold read_word. rd. cbn [fst snd].
  apply ends_read_xr; [done | lia |]. intros l. rd. apply HQ.
Qed.

Lemma ends_Raw b Q : s_ok b → (∀ r, Q r) → ends p (RawPacket_Unmarshal b) Q.
Proof.
  intros Hb HQ. unfold RawPacket_Unmarshal. rd. apply ends_Header; [done|]. intros h Hh _ _. rd. apply HQ.
Qed.
End packets.

(** ** Datagrams *)

(** The packets whose reader may panic: a negative acknowledgement or a full
    intra request too short for its two source identifiers, a full intra request
    whose last entry is cut, a transport-wide feedback that is cut within its
    last delta, at the end of the buffer, and a congestion control feedback with
    a block that announces more than 32763 metrics. *)
Definition may_panic (k : packet_kind) (b : slice) : bool :=
  match k with
  | KNACK => (s_len b <? 12)%nat
  | KFIR => (s_len b <? 12)%nat || negb (s_len b mod 8 =? 4)%nat
  | KTCC => (s_cap b <=? s_len b)%nat && tcc_cut b
  | KCCFB => ccfb_overlong b
  | _ => false
  end.

(** The bytes of one packet: its header tells their number. *)
Definition framed (b : slice) (h : Header) : Prop :=
  s_ok b ∧ Header_Unmarshal b = Ok h ∧ Z.of_nat (s_len b) = 4 * (Length h + 1) ∧ Z.of_nat (s_len b) ≤ 65532.

Lemma ends_Packet b h : framed b h →
  ends (may_panic (kind_of h) b) (Packet_Unmarshal (kind_of h) b) (λ _, True).
Proof.
  intros (Hb & Hu & Hl & Hm). destruct (kind_of h) eqn:Hk; cbn [Packet_Unmarshal]; apply ends_fmap.
  - by apply ends_SenderReport.
  - by apply ends_ReceiverReport.
  - by apply ends_SourceDescription.
  - by apply ends_Goodbye.
  - apply ends_NACK; [done | | done]. cbn [may_panic]. intros H. by apply Nat.ltb_ge in H.
  - by apply ends_RRR.
  - apply ends_TCC; [done | | done]. cbn [may_panic]. intros [H|H]%andb_false_iff; [left; by apply Nat.leb_gt in H | by right].
  - by apply ends_CCFB.
  - by apply ends_PLI.
  - destruct (SLI_refused b h Hu Hk) as [e ->]. done.
  - by apply ends_REMB.
  - apply ends_FIR; [done | | done]. cbn [may_panic]. intros H. apply orb_false_iff in H as [H1 H2].
    apply Nat.ltb_ge in H1. apply negb_false_iff, Nat.eqb_eq in H2. split; [done|].
    intros h' Hh'. replace h' with h by congruence. unfold payload_end.
    rewrite u16_small by (unfold is_u16; lia). exists ((s_len b - 12) / 8)%nat.
    pose proof (Nat.div_mod_eq (s_len b) 8). replace (s_len b - 12)%nat with ((s_len b / 8 - 1) * 8)%nat by lia.
    rewrite Nat.div_mul by lia. fb_lia.
  - by apply ends_XR.
  - by apply ends_Raw.
Qed.

(** The header is in the first four bytes. *)
Lemma Header_Unmarshal_prefix arr n m : (4 <= n <= length arr)%nat → (4 <= m <= length arr)%nat →
  Header_Unmarshal (Slice arr n) = Header_Unmarshal (Slice arr m).
Proof.
  intros Hn Hm. destruct arr as [|a0 [|a1 [|a2 [|a3 arr]]]]; simpl in *; [lia..|].
  do 4 (destruct n as [|n]; [lia|]). do 4 (destruct m as [|m]; [lia|]). done.
Qed.

Lemma Packet_Unmarshal_empty k arr : Packet_Unmarshal k (Slice arr 0) = Err errPacketTooShort.
Proof. by destruct k. Qed.

(** The packet [c] of the datagram [b] that starts at byte [i]. *)
Definition packet_at (b : slice) (i : nat) (c : slice) (h : Header) : Prop :=
  framed c h ∧ s_arr c = drop i (s_arr b) ∧ (i + s_len c <= s_len b)%nat.

Lemma ends_unmarshal b : s_ok b → Z.of_nat (s_len b) ≤ 65535 →
  match unmarshal b with
  | Ok (_, n) => (4 <= n <= s_len b)%nat
  | Err _ => True
  | Panic => ∃ c h, packet_at b 0 c h ∧ may_panic (kind_of h) c = true
  | Diverge => False
  end.
Proof.
  intros Hb Hm. unfold unmarshal.
  assert (ends false (Header_Unmarshal b) (λ h, is_u16 (Length h) ∧ 4 <= s_len b)%nat) as Hh
    by (apply ends_Header; [done|]; by intros h (_ & _ & ?)).
  destruct (Header_Unmarshal b) as [h| | |] eqn:Hu; try done. destruct Hh as (Hl & H4). rewrite bind_Ok.
  set (n := (Z.to_nat (u16 (Length h + 1)) * 4)%nat).
  destruct (s_len b <? n)%nat eqn:Hn; [done|]. apply Nat.ltb_ge in Hn. cbn [fail_if]. rewrite bind_Ok.
  rewrite s_sub_Ok, bind_Ok by (destruct Hb; lia). rewrite drop_0, Nat.sub_0_r.
  destruct (decide (n = 0)%nat) as [Hn0|Hn0].
  { rewrite Hn0. by rewrite Packet_Unmarshal_empty. }
  assert (Z.of_nat n = 4 * (Length h + 1)) as Hw.
  { unfold is_u16 in Hl. destruct (Z.eq_dec (Length h) 65535) as [He|He].
    - exfalso. apply Hn0. unfold n. by rewrite He.
    - unfold n. rewrite u16_small by (unfold is_u16; lia). lia. }
  assert (framed (Slice (s_arr b) n) h) as Hf.
  { destruct Hb as [Hb1 Hb2]. unfold framed. simpl. split; [split; [simpl; unfold s_cap in *; simpl; lia | done]|].
    split; [|lia]. rewrite <- Hu. destruct b as [arr m]. simpl in *.
    apply Header_Unmarshal_prefix; unfold s_cap in *; simpl in *; unfold is_u16 in *; lia. }
  pose proof (ends_Packet _ _ Hf) as He. destruct (Packet_Unmarshal _ _); cbn in He |- *; try done.
  - unfold is_u16 in *. lia.
  - exists (Slice (s_arr b) n), h. split; [|done]. split; [done|]. simpl. rewrite drop_0. split; [done | lia].
Qed.

Lemma ends_unmarshal_loop fuel : ∀ b, s_ok b → Z.of_nat (s_len b) ≤ 65535 → (s_len b <= fuel)%nat →
  match unmarshal_loop fuel b with
  | Ok _ | Err _ => True
  | Panic => ∃ i c h, packet_at b i c h ∧ may_panic (kind_of h) c = true
  | Diverge => False
  end.
Proof.
  induction fuel as [|fuel IH]; intros b Hb Hm Hf; cbn [unmarshal_loop];
    (destruct (Nat.eqb_spec (s_len b) 0); [done|]); [lia|].
  pose proof (ends_unmarshal b Hb Hm) as Hu.
  destruct (unmarshal b) as [[q n']| | |]; cbn [mbind res_bind] in *; try done.
  - cbn [fst snd]. rewrite s_from_Ok by lia. cbn [mbind res_bind].
    pose proof (IH (Slice (drop n' (s_arr b)) (s_len b - n'))) as IH'.
    destruct (unmarshal_loop fuel _); cbn [mbind res_bind]; try done.
    + destruct IH' as (i & c & h & (Hc & Ha & Hi) & Hp); [apply s_ok_drop; [done|] | simpl; lia.. |].
      { destruct Hb. lia. }
      exists (n' + i)%nat, c, h. split; [|done]. split; [done|]. simpl in *. rewrite <- drop_drop. split; [done | lia].
    + apply IH'; [apply s_ok_drop; [done | destruct Hb; lia] | simpl; lia..].
  - destruct Hu as (c & h & Hp & Hk). eauto.
Qed.

(** C20. Reading any datagram of up to 65535 bytes ends: the loop over the
    packets and the loops over their entries, chunks, items, blocks and deltas
    all come to an end, also where the 16-bit sums of the source wrap around.
    If it panics, then one of the datagram's packets is of a kind and a shape
    that [may_panic] names, all of them malformed: a NACK or FIR shorter than 12
    bytes, a FIR with a cut entry, a transport-wide feedback that ends after the
    first byte of a delta of two, at the very end of the buffer, or an RFC 8888
    feedback with a block that announces more than 32763 metrics, which wraps
    the 16-bit offsets. *)
Theorem rtcp_unmarshal_ends b : s_ok b → Z.of_nat (s_len b) ≤ 65535 →
  Unmarshal b ≠ Diverge ∧
  (Unmarshal b = Panic → ∃ i c h, packet_at b i c h ∧ may_panic (kind_of h) c = true).
Proof.
  intros Hb Hm. pose proof (ends_unmarshal_loop (s_len b) b Hb Hm (le_n _)) as H. unfold Unmarshal.
  destruct (unmarshal_loop _ b) as [[|q l]| | |]; cbn [mbind res_bind]; done.
Qed.

(** A datagram as the server reads it, in a buffer of 1500 bytes. *)
Definition rtcp_buffer (l : list Z) : slice := Slice (l ++ zeros (1500 - length l)) (length l).

Lemma rtcp_buffer_ok l : Forall is_byte l → (length l <= 1500)%nat → s_ok (rtcp_buffer l).
Proof.
  intros Hl Hn. split; [unfold rtcp_buffer, s_cap; cbn [s_arr s_len]; rewrite length_app; lia|].
  apply Forall_app. split; [done | apply zeros_bytes].
Qed.

(** A FIR with the bytes of one identifier, a NACK with one identifier, and a
    feedback report that announces 32768 metrics. *)
Definition short_fir : list Z := [0x84; 206; 0; 1; 0; 0; 0; 7].
Definition short_nack : list Z := [0x81; 205; 0; 1; 0; 0; 0; 7].
Definition long_ccfb : list Z :=
  [0x8b; 205; 0; 4; 0; 0; 0; 7; 0; 0; 0; 8; 0; 0; 0x7f; 0xff; 0; 0; 0; 9].

Lemma rtcp_unmarshal_ends_witness :
  Unmarshal (rtcp_buffer short_nack) = Panic ∧
  ∃ i c h, packet_at (rtcp_buffer short_nack) i c h ∧ may_panic (kind_of h) c = true.
Proof.
  assert (s_ok (rtcp_buffer short_nack)) as Hb.
  { apply rtcp_buffer_ok; [repeat constructor; done | simpl; lia]. }
  assert (Z.of_nat (s_len (rtcp_buffer short_nack)) ≤ 65535) as Hm by (simpl; lia).
  assert (Unmarshal (rtcp_buffer short_nack) = Panic) as Hp by (vm_compute; reflexivity).
  split; [exact Hp | exact (proj2 (rtcp_unmarshal_ends _ Hb Hm) Hp)].
Defined.

(** Feedback that is too short is not refused: a subscriber that sends the
    8 bytes of a FIR or a NACK with a single identifier, or an RFC 8888 report
    whose count of metrics wraps the 16-bit offset, makes [Unmarshal] panic,
    with whatever capacity lies behind the first two. *)
Theorem rtcp_feedback_panics slack :
  Unmarshal (Slice (short_fir ++ slack) 8) = Panic ∧
  Unmarshal (Slice (short_nack ++ slack) 8) = Panic ∧
  Unmarshal (rtcp_buffer long_ccfb) = Panic.
Proof. split; [reflexivity|]. split; [reflexivity|]. vm_compute. reflexivity. Qed.
