(* ===== verification/RtcpTcc.v ===== *)
(** * RTCP transport-wide feedback: round trip

    What TransportLayerCC.Marshal writes, and what its Unmarshal makes of it.
    The last status vector of a packet may have room left, which is read as
    packets that were not received, behind the last number the packet is
    about; the deltas are written in units of 250 microseconds, and the
    reference time in 24 bits. *)

From S2P Require Import Prelude Bytes Rtcp RtcpFeedback RtcpCongestion RtcpXr RtcpPacket RtcpCodec.

(** ** Status chunks *)

(** The statuses a chunk stands for. *)
Definition expand (c : PacketStatusChunk) : list Z :=
  match c with
  | CRunLength r => replicate (Z.to_nat (RunLength r)) (PacketStatusSymbol r)
  | CStatusVector v => SymbolList v
  end.

Definition is_status (s : Z) : Prop := 0 ≤ s ≤ 2.

(** A chunk whose symbols fit their places, and one whose places are all
    taken. *)
Definition status_ok (c : PacketStatusChunk) : Prop :=
  match c with
  | CRunLength r => is_status (PacketStatusSymbol r) ∧ 1 ≤ RunLength r ≤ 8191
  | CStatusVector v =>
      (SymbolSize v = TypeTCCSymbolSizeOneBit ∧ Forall (λ s, 0 ≤ s ≤ 1) (SymbolList v) ∧ length (SymbolList v) = 14%nat) ∨
      (SymbolSize v = TypeTCCSymbolSizeTwoBit ∧ Forall is_status (SymbolList v) ∧ (1 <= length (SymbolList v) <= 7)%nat)
  end.

Definition full (c : PacketStatusChunk) : Prop :=
  match c with
  | CRunLength _ => True
  | CStatusVector v => SymbolSize v = TypeTCCSymbolSizeTwoBit → length (SymbolList v) = 7%nat
  end.

(** Only the last chunk may have room left. *)
Fixpoint packed (l : list PacketStatusChunk) : Prop :=
  match l with
  | [] => True
  | c :: l => status_ok c ∧ (l ≠ [] → full c) ∧ packed l
  end.

(** The chunk that is read. *)
Definition status_read (c : PacketStatusChunk) : PacketStatusChunk :=
  match c with
  | CRunLength r => CRunLength (MkRunLength 0 (PacketStatusSymbol r) (RunLength r))
  | CStatusVector v =>
      let cap := if SymbolSize v =? TypeTCCSymbolSizeOneBit then 14%nat else 7%nat in
      CStatusVector (MkStatusVector 1 (SymbolSize v) (SymbolList v ++ replicate (cap - length (SymbolList v)) 0))
  end.

Definition wire_status (c : PacketStatusChunk) : list Z :=
  match PacketStatusChunk_Marshal c with
  | Ok b => b
  | _ => []
  end.

(** Reading looks at the two bytes of the chunk only. *)
Lemma two_bytes (c : slice) b0 b1 : s_bytes c = [b0; b1] → s_len c = 2%nat →
  s_idx (E := rtcp_err) c 0 = Ok b0 ∧ s_idx (E := rtcp_err) c 1 = Ok b1.
Proof.
  destruct c as [arr n]. unfold s_bytes, s_idx. simpl. intros H ->. destruct arr as [|x [|y arr]]; simplify_eq/=. done.
Qed.

Lemma RunLength_two c b0 b1 : s_bytes c = [b0; b1] → s_len c = 2%nat →
  RunLengthChunk_Unmarshal c = RunLengthChunk_Unmarshal (of_bytes [b0; b1]).
Proof.
  intros H Hl. destruct (two_bytes c b0 b1 H Hl) as [H0 H1]. unfold RunLengthChunk_Unmarshal. by rewrite Hl, H0, H1.
Qed.

Lemma StatusVector_two c b0 b1 : s_bytes c = [b0; b1] → s_len c = 2%nat →
  StatusVectorChunk_Unmarshal c = StatusVectorChunk_Unmarshal (of_bytes [b0; b1]).
Proof.
  intros H Hl. destruct (two_bytes c b0 b1 H Hl) as [H0 H1]. unfold StatusVectorChunk_Unmarshal. by rewrite Hl, H0, H1.
Qed.

(** All lists of [n] symbols below [k]. *)
Fixpoint words (k n : nat) : list (list Z) :=
  match n with
  | O => [[]]
  | S n => flat_map (λ w, map (λ s, Z.of_nat s :: w) (seq 0 k)) (words k n)
  end.

Lemma words_complete k l : Forall (λ s, 0 ≤ s < Z.of_nat k) l → In l (words k (length l)).
Proof.
  induction 1 as [|s l Hs Hl IH]; simpl; [by left|]. apply in_flat_map. exists l. split; [done|].
  apply in_map_iff. exists (Z.to_nat s). split; [f_equal; lia|]. apply in_seq. lia.
Qed.

(** *** Status vectors

    The symbols of the first byte and of the second one are written and read
    independently; a byte has few enough values to look at them all. *)
Definition first_byte (size : Z) (b0 : Z) : list Z :=
  if size =? TypeTCCSymbolSizeOneBit then map (λ i, getNBitsFromByte b0 (2 + i) 1) [0; 1; 2; 3; 4; 5]
  else map (λ i, getNBitsFromByte b0 (2 + i * 2) 2) [0; 1; 2].
Definition second_byte (size : Z) (b1 : Z) : list Z :=
  if size =? TypeTCCSymbolSizeOneBit then map (λ i, getNBitsFromByte b1 i 1) [0; 1; 2; 3; 4; 5; 6; 7]
  else map (λ i, getNBitsFromByte b1 (i * 2) 2) [0; 1; 2; 3].
Definition places (size : Z) : nat * nat := if size =? TypeTCCSymbolSizeOneBit then (6, 8)%nat else (3, 4)%nat.
Definition pad_to (n : nat) (l : list Z) : list Z := l ++ replicate (n - length l) 0.

Definition vector_head (size : Z) (l : list Z) : rres Z :=
  dst ← setNBitsOfUint16 0 1 0 1;
  dst ← setNBitsOfUint16 dst 1 1 size;
  set_symbols dst (numOfBitsOfSymbolSize size) 0 l.
Definition vector_tail (size : Z) (l : list Z) : rres Z :=
  set_symbols 0 (numOfBitsOfSymbolSize size) (Z.of_nat (places size).1) l.

Definition head_codec (size : Z) (l : list Z) : bool :=
  match vector_head size l with
  | Ok v =>
      let b0 := v / 256 in
      (v mod 256 =? 0) && (0 <=? b0) && (b0 <? 256) && negb (getNBitsFromByte b0 0 1 =? 0) &&
      (getNBitsFromByte b0 1 1 =? size) && bool_decide (first_byte size b0 = pad_to (places size).1 l)
  | _ => false
  end.
Definition tail_codec (size : Z) (l : list Z) : bool :=
  match vector_tail size l with
  | Ok v => (0 <=? v) && (v <? 256) && bool_decide (second_byte size v = pad_to (places size).2 l)
  | _ => false
  end.

(** Both checks, for all lists of at least [lo] and at most as many symbols as
    there are places. *)
Definition all_codec (check : Z → list Z → bool) (size : Z) (k lo n : nat) : bool :=
  forallb (λ n, forallb (check size) (words k n)) (seq lo (S n - lo)).

Lemma heads_codec : all_codec head_codec 0 2 6 6 && all_codec head_codec 1 3 0 3 = true.
Proof. vm_compute. reflexivity. Qed.

Lemma tails_codec : all_codec tail_codec 0 2 8 8 && all_codec tail_codec 1 3 0 4 = true.
Proof. vm_compute. reflexivity. Qed.

Lemma all_codec_at check size k lo n l : all_codec check size k lo n = true → (lo <= length l <= n)%nat →
  Forall (λ s, 0 ≤ s < Z.of_nat k) l → check size l = true.
Proof.
  unfold all_codec. intros H Hn Hl. rewrite forallb_forall in H.
  specialize (H (length l) ltac:(apply in_seq; lia)). rewrite forallb_forall in H. by apply H, words_complete.
Qed.

Lemma set_symbols_lor nb l : ∀ dst a i, set_symbols (Z.lor dst a) nb i l = Z.lor dst <$> set_symbols a nb i l.
Proof.
  induction l as [|s l IH]; intros dst a i; cbn [set_symbols]; [done|].
  unfold setNBitsOfUint16. destruct (fail_if _ _); try done. cbn [mbind res_bind]. rewrite <- Z.lor_assoc. apply IH.
Qed.

Lemma set_symbols_app nb l1 : ∀ l2 dst i,
  set_symbols dst nb i (l1 ++ l2) = (d ← set_symbols dst nb i l1; set_symbols d nb (i + Z.of_nat (length l1)) l2).
Proof.
  induction l1 as [|s l1 IH]; intros l2 dst i; cbn [set_symbols app length].
  - cbn [mbind res_bind]. by rewrite Z.add_0_r.
  - destruct (setNBitsOfUint16 _ _ _ _); try done. cbn [mbind res_bind]. rewrite IH.
    by replace (i + 1 + Z.of_nat (length l1)) with (i + Z.of_nat (S (length l1))) by lia.
Qed.

(** The two bytes of a vector, one after the other. *)
Lemma vector_codec ty size l1 l2 : size = 0 ∨ size = 1 → head_codec size l1 = true → tail_codec size l2 = true →
  l2 = [] ∨ length l1 = (places size).1 → ∃ b0 b1,
  StatusVectorChunk_Marshal (MkStatusVector ty size (l1 ++ l2)) = Ok [b0; b1] ∧ is_byte b0 ∧ is_byte b1 ∧
  getNBitsFromByte b0 0 1 ≠ 0 ∧
  StatusVectorChunk_Unmarshal (of_bytes [b0; b1]) =
    Ok (MkStatusVector 1 size (pad_to (places size).1 l1 ++ pad_to (places size).2 l2)).
Proof.
  unfold head_codec, tail_codec. intros Hsize Hh Ht Hl.
  destruct (vector_head size l1) as [v| | |] eqn:Ev; try done.
  destruct (vector_tail size l2) as [w| | |] eqn:Ew; try done.
  rewrite !andb_true_iff, bool_decide_eq_true in Hh. rewrite !andb_true_iff, bool_decide_eq_true in Ht.
  destruct Hh as [[[[[Hv Hb0] Hb1] Hk] Hs] Hf], Ht as [[Hw0 Hw1] Hg].
  assert (0 ≤ v / 256 < 256 ∧ v mod 256 = 0 ∧ 0 ≤ w < 256) as (Hb & Hv' & Hw) by lia.
  assert (StatusVectorChunk_Marshal (MkStatusVector ty size (l1 ++ l2)) = put (zeros 2) 0 (be16 (Z.lor v w))) as Hm.
  { unfold StatusVectorChunk_Marshal, vector_head in *. cbn [SymbolSize SymbolList].
    destruct (setNBitsOfUint16 0 1 0 1); try done. cbn [mbind res_bind] in *.
    destruct (setNBitsOfUint16 a 1 1 size); try done. cbn [mbind res_bind] in *.
    rewrite set_symbols_app, Ev. cbn [mbind res_bind]. rewrite <- (Z.lor_0_r v) at 1. rewrite set_symbols_lor.
    destruct Hl as [-> | ->]; [by injection Ew as <-|]. unfold vector_tail in Ew. by rewrite Z.add_0_l, Ew. }
  exists (v / 256), w. rewrite Hm.
  assert (Z.lor v w = w + v / 256 * 256) as ->.
  { rewrite Z.lor_comm. change 256 with (2 ^ 8) at 2. rewrite <- (lor_shiftl_add w (v / 256) 8) by lia. f_equal. rewrite Z.shiftl_mul_pow2 by lia.
    Z.div_mod_to_equations. lia. }
  split_and!; [| done | done | lia |].
  - change (put (zeros 2) 0 (be16 (w + v / 256 * 256))) with (Ok (E := rtcp_err) (be16 (w + v / 256 * 256))).
    unfold be16, u8. rewrite Z.shiftr_div_pow2 by lia. repeat f_equal; Z.div_mod_to_equations; lia.
  - unfold StatusVectorChunk_Unmarshal. change (s_idx (of_bytes [v / 256; w]) 0) with (Ok (E := rtcp_err) (v / 256)).
    change (s_idx (of_bytes [v / 256; w]) 1) with (Ok (E := rtcp_err) w). cbn [mbind res_bind fail_if s_len of_bytes length Nat.eqb negb].
    rewrite (proj1 (Z.eqb_eq _ _) Hs). rewrite <- Hf, <- Hg. destruct Hsize as [-> | ->]; done.
Qed.

(** *** Run lengths *)

Lemma run_bits : forallb (λ b, (getNBitsFromByte b 0 1 =? 0) && (getNBitsFromByte b 1 2 =? b / 32) &&
  (getNBitsFromByte b 3 5 =? b mod 32)) (map Z.of_nat (seq 0 96)) = true.
Proof. vm_compute. reflexivity. Qed.

Lemma run_codec ty sym n : is_status sym → 1 ≤ n ≤ 8191 → ∃ b0 b1,
  RunLengthChunk_Marshal (MkRunLength ty sym n) = Ok [b0; b1] ∧ is_byte b0 ∧ is_byte b1 ∧
  getNBitsFromByte b0 0 1 = 0 ∧ RunLengthChunk_Unmarshal (of_bytes [b0; b1]) = Ok (MkRunLength 0 sym n).
Proof.
  unfold is_status. intros Hs Hn. exists (sym * 32 + n / 256), (n mod 256).
  assert (0 ≤ n / 256 < 32) as Hd by (Z.div_mod_to_equations; lia).
  pose proof (forall_upto 96 _ run_bits (sym * 32 + n / 256) ltac:(lia)) as H.
  simpl in H. rewrite !andb_true_iff, !Z.eqb_eq in H. destruct H as [[H0 H1] H2].
  split_and!; [| unfold is_byte; lia | unfold is_byte; Z.div_mod_to_equations; lia | done |].
  - unfold RunLengthChunk_Marshal, setNBitsOfUint16. cbn [PacketStatusSymbol RunLength].
    change (fail_if _ _) with (Ok (E := rtcp_err) ()). cbn [mbind res_bind].
    change (u16 (Z.shiftl 1 2 - 1)) with (Z.ones 2). change (u16 (Z.shiftl 1 13 - 1)) with (Z.ones 13).
    rewrite !Z.land_ones, (Z.mod_small sym), (Z.mod_small n) by lia.
    change (16 - 13 - 3) with 0. change (16 - 2 - 1) with 13. rewrite Z.shiftl_0_r.
    rewrite (u16_small n), (u16_small (Z.shiftl sym 13)) by (unfold is_u16; rewrite ?Z.shiftl_mul_pow2; lia).
    cbn [Z.land Z.lor Z.shiftl]. change (u16 0) with 0. rewrite Z.lor_0_l, Z.lor_comm, lor_shiftl_add by lia.
    change (put (zeros 2) 0 (be16 (n + sym * 2 ^ 13))) with (Ok (E := rtcp_err) (be16 (n + sym * 2 ^ 13))).
    clear H0 H1 H2. unfold be16, u8. rewrite Z.shiftr_div_pow2 by lia.
    assert ((n + sym * 2 ^ 13) / 2 ^ 8 mod 2 ^ 8 = sym * 32 + n / 256) as -> by (Z.div_mod_to_equations; lia).
    by assert ((n + sym * 2 ^ 13) mod 2 ^ 8 = n mod 256) as -> by (Z.div_mod_to_equations; lia).
  - unfold RunLengthChunk_Unmarshal. unfold s_idx, of_bytes. cbn [mbind res_bind fail_if s_len s_arr length Nat.eqb negb Nat.ltb Nat.leb nth].
    rewrite H1, H2. clear H0 H1 H2. do 2 f_equal; [Z.div_mod_to_equations; lia|].
    assert ((sym * 32 + n / 256) mod 32 = n / 256) as -> by (Z.div_mod_to_equations; lia).
    rewrite Z.shiftl_mul_pow2 by lia. rewrite (u16_small (n / 256 * 2 ^ 8)) by (unfold is_u16; lia).
    rewrite u16_small by (unfold is_u16; Z.div_mod_to_equations; lia). Z.div_mod_to_equations. lia.
Qed.

Lemma vector_split size l :
  (size = TypeTCCSymbolSizeOneBit ∧ Forall (λ s, 0 ≤ s ≤ 1) l ∧ length l = 14%nat) ∨
  (size = TypeTCCSymbolSizeTwoBit ∧ Forall is_status l ∧ (1 <= length l <= 7)%nat) →
  ∃ l1 l2, l = l1 ++ l2 ∧ head_codec size l1 = true ∧ tail_codec size l2 = true ∧
    (l2 = [] ∨ length l1 = (places size).1) ∧
    pad_to (places size).1 l1 ++ pad_to (places size).2 l2 =
      (l1 ++ l2) ++ replicate ((if size =? TypeTCCSymbolSizeOneBit then 14%nat else 7%nat) - length (l1 ++ l2)) 0.
Proof.
  pose proof heads_codec as [HH1 HH2]%andb_true_iff. pose proof tails_codec as [HT1 HT2]%andb_true_iff.
  intros [(-> & Hl & Hn)|(-> & Hl & Hn)]; unfold TypeTCCSymbolSizeOneBit, TypeTCCSymbolSizeTwoBit, pad_to;
    [exists (take 6 l), (drop 6 l) | exists (take 3 l), (drop 3 l)]; rewrite take_drop;
    [rewrite <- (take_drop 6 l) in Hl | rewrite <- (take_drop 3 l) in Hl];
    apply Forall_app in Hl as [Hl1 Hl2]; rewrite length_take, length_drop; cbn [places Z.eqb fst snd];
    (split; [reflexivity|]); split_and!.
  - apply (all_codec_at _ _ 2 6 6); [done | rewrite length_take; lia|]. eapply Forall_impl; [exact Hl1|]. simpl. lia.
  - apply (all_codec_at _ _ 2 8 8); [done | rewrite length_drop; lia|]. eapply Forall_impl; [exact Hl2|]. simpl. lia.
  - right. change (places 0).1 with 6%nat. lia.
  - change (places 0) with (6, 8)%nat. rewrite Hn. simpl. by rewrite !app_nil_r, take_drop.
  - apply (all_codec_at _ _ 3 0 3); [done | rewrite length_take; lia|]. eapply Forall_impl; [exact Hl1|].
    unfold is_status. simpl. lia.
  - apply (all_codec_at _ _ 3 0 4); [done | rewrite length_drop; lia|]. eapply Forall_impl; [exact Hl2|].
    unfold is_status. simpl. lia.
  - destruct (decide (length l <= 3)%nat); [left; apply drop_ge; lia | right; change (places 1).1 with 3%nat; lia].
  - change (places 1) with (3, 4)%nat. cbn [fst snd]. destruct (decide (length l <= 3)%nat).
    + rewrite (drop_ge l), take_ge, app_nil_l, <- app_assoc, <- replicate_add by lia. do 2 f_equal. lia.
    + replace (3 - _)%nat with 0%nat by lia. simpl replicate at 1. rewrite app_nil_r, app_assoc, take_drop. do 2 f_equal. lia.
Qed.

Lemma wire_status_spec c : status_ok c → ∃ b0 b1,
  PacketStatusChunk_Marshal c = Ok (wire_status c) ∧ wire_status c = [b0; b1] ∧ is_byte b0 ∧ is_byte b1 ∧
  match status_read c with
  | CRunLength r => getNBitsFromByte b0 0 1 = 0 ∧ RunLengthChunk_Unmarshal (of_bytes [b0; b1]) = Ok r
  | CStatusVector v => getNBitsFromByte b0 0 1 ≠ 0 ∧ StatusVectorChunk_Unmarshal (of_bytes [b0; b1]) = Ok v
  end.
Proof.
  unfold wire_status. destruct c as [[ty sym n]|[ty size l]];
    cbn [PacketStatusChunk_Marshal status_ok status_read PacketStatusSymbol RunLength SymbolSize SymbolList].
  - intros [Hs Hn]. destruct (run_codec ty sym n Hs Hn) as (b0 & b1 & -> & H & H0 & H1 & H2). exists b0, b1. split_and!; done.
  - intros H. assert (size = 0 ∨ size = 1) as Hs by (destruct H as [(-> & _)|(-> & _)]; auto).
    destruct (vector_split size l H) as (l1 & l2 & -> & Hh & Ht & Hl & Hp).
    destruct (vector_codec ty size l1 l2 Hs Hh Ht Hl) as (b0 & b1 & -> & H0 & H1 & H2 & H3).
    exists b0, b1. rewrite Hp in H3. split_and!; done.
Qed.

Lemma length_wire_status l : Forall status_ok l → length (flat_map wire_status l) = (2 * length l)%nat.
Proof.
  intros H. apply length_flat. eapply Forall_impl; [exact H|]. intros c (b0 & b1 & _ & -> & _)%wire_status_spec. done.
Qed.

Lemma packed_ok l : packed l → Forall status_ok l.
Proof. induction l as [|c l IH]; simpl; [done|]. intros (? & _ & ?). constructor; auto. Qed.

(** The statuses with a delta. *)
Definition deltas_of (l : list Z) : list Z := filter (λ s, is_delta s = true) l.

Lemma deltas_of_zeros n : deltas_of (replicate n 0) = [].
Proof. induction n; [done|]. unfold deltas_of. by rewrite replicate_S, filter_cons_False. Qed.

Lemma deltas_of_run n s : deltas_of (replicate n s) = if is_delta s then replicate n s else [].
Proof.
  induction n as [|n IH]; [by destruct (is_delta s)|]. unfold deltas_of in *. rewrite replicate_S.
  destruct (is_delta s) eqn:Hs; [rewrite filter_cons_True | rewrite filter_cons_False by congruence]; [by rewrite IH | done..].
Qed.

Lemma one_bit_deltas l : Forall (λ s, 0 ≤ s ≤ 1) l →
  filter (λ s, s = TypeTCCPacketReceivedSmallDelta) l = deltas_of l.
Proof.
  unfold deltas_of, TypeTCCPacketReceivedSmallDelta. induction 1 as [|s l Hs Hl IH]; [done|].
  assert (s = 0 ∨ s = 1) as [-> | ->] by lia.
  - by rewrite !filter_cons_False.
  - by rewrite !filter_cons_True, IH.
Qed.

(** One round of the loop: the chunk that stands there. *)
Lemma read_chunk c b pos rest : status_ok c → (s_len b <= s_cap b)%nat → Z.of_nat (s_len b) < 2 ^ 16 → 0 ≤ pos →
  drop (Z.to_nat pos) (s_bytes b) = wire_status c ++ rest → rest ≠ [] →
  pos + 2 < Z.of_nat (s_len b) ∧ u16 (pos + 2) = pos + 2 ∧
  drop (Z.to_nat (pos + 2)) (s_bytes b) = rest ∧
  ∃ s1 s2 b0, s_sub (E := rtcp_err) b (Z.to_nat pos) (Z.to_nat (u16 (pos + 1))) = Ok s1 ∧
    s_sub (E := rtcp_err) b (Z.to_nat pos) (Z.to_nat (pos + 2)) = Ok s2 ∧ s_idx (E := rtcp_err) s1 0 = Ok b0 ∧
    match status_read c with
    | CRunLength r => getNBitsFromByte b0 0 1 = 0 ∧ RunLengthChunk_Unmarshal s2 = Ok r
    | CStatusVector v => getNBitsFromByte b0 0 1 ≠ 0 ∧ StatusVectorChunk_Unmarshal s2 = Ok v
    end.
Proof.
  intros (b0 & b1 & _ & Hw & _ & _ & Hr)%wire_status_spec Hb Hn Hp H Hne. rewrite Hw in H.
  pose proof (drop_s_bytes_len b _ _ _ Hb H ltac:(done)) as Hl. cbn [length] in Hl.
  assert (length rest ≠ 0%nat) by (by destruct rest).
  assert (u16 (pos + 1) = pos + 1) as -> by (apply u16_small; unfold is_u16; lia).
  split_and!; [lia | apply u16_small; unfold is_u16; lia | |].
  { eapply drop_app_inv; [exact H|]. simpl. lia. }
  destruct (s_sub_bytes (E := rtcp_err) b (Z.to_nat pos) (Z.to_nat (pos + 1)) [b0] (b1 :: rest) Hb H) as (s1 & E1 & Hb1 & Hl1);
    [simpl; lia | lia |].
  destruct (s_sub_bytes (E := rtcp_err) b (Z.to_nat pos) (Z.to_nat (pos + 2)) [b0; b1] rest Hb H) as (s2 & E2 & Hb2 & Hl2);
    [simpl; lia | lia |].
  exists s1, s2, b0. split_and!; try done.
  - destruct s1 as [arr n]. unfold s_bytes, s_idx in *. simpl in *. subst n. destruct arr; simplify_eq/=. done.
  - destruct (status_read c); rewrite ?(RunLength_two s2 b0 b1), ?(StatusVector_two s2 b0 b1) by done; done.
Qed.

Lemma length_expand c : status_ok c → 1 ≤ Z.of_nat (length (expand c)) ≤ 8191.
Proof.
  destruct c as [r|v]; simpl; [intros [_ H]; rewrite length_replicate; lia|].
  intros [(_ & _ & ->)|(_ & _ & H)]; lia.
Qed.

Lemma read_status_wire l : ∀ fuel b pos processed count rest, packed l →
  (s_len b <= s_cap b)%nat → Z.of_nat (s_len b) < 2 ^ 16 →
  drop (Z.to_nat pos) (s_bytes b) = flat_map wire_status l ++ rest → rest ≠ [] → 0 ≤ pos → 0 ≤ processed →
  count = processed + Z.of_nat (length (flat_map expand l)) ∨ l = [] ∧ count ≤ processed → count < 2 ^ 16 - 14 →
  (length l < fuel)%nat →
  read_status fuel b (Z.of_nat (s_len b)) count processed pos =
    Ok (map status_read l, deltas_of (flat_map expand l), pos + 2 * Z.of_nat (length l)).
Proof.
  induction l as [|c l IH]; intros fuel b pos processed count rest Hl Hb Hn H Hne Hp Hpr Hc Hmax Hf;
    (destruct fuel as [|fuel]; [simpl in Hf; lia|]); cbn [read_status flat_map map length] in *.
  - rewrite (proj2 (Z.ltb_ge _ _)) by (destruct Hc as [?|[_ ?]]; simpl in *; lia). by rewrite Z.add_0_r.
  - destruct Hl as (Hok & Hfull & Hl). rewrite <- app_assoc in H. destruct Hc as [Hc|[? _]]; [|done].
    destruct (read_chunk c b pos _ Hok Hb Hn Hp H) as (H1 & Hu & Hd & s1 & s2 & b0 & E1 & E2 & E0 & Hr).
    { destruct (flat_map wire_status l); [done|]. done. }
    pose proof (length_expand c Hok) as Hle. rewrite length_app in Hc.
    rewrite (proj2 (Z.ltb_lt _ _)) by lia. apply fail_step; [rewrite Hu; lia|].
    rewrite E1, bind_Ok, E0, bind_Ok, Hu, E2, bind_Ok. unfold deltas_of. rewrite filter_app. fold (deltas_of (expand c)) (deltas_of (flat_map expand l)).
    destruct c as [r|v]; cbn [status_read expand] in *; destruct Hr as [Hk ->]; rewrite bind_Ok.
    + rewrite (proj2 (Z.eqb_eq _ _) Hk). cbn [RunLength PacketStatusSymbol]. destruct Hok as [Hs Hr]. cbn [status_ok] in *.
      rewrite length_replicate in *. rewrite (u16_small (count - processed)), Z.min_r by (unfold is_u16; lia).
      rewrite (u16_small (processed + _)) by (unfold is_u16; lia).
      rewrite (IH _ _ _ _ _ rest), bind_Ok by (done || lia). cbn [fst snd].
      rewrite deltas_of_run. f_equal. f_equal. lia.
    + rewrite (proj2 (Z.eqb_neq _ _) Hk). cbn [SymbolList SymbolSize].
      set (cap := if SymbolSize v =? TypeTCCSymbolSizeOneBit then 14%nat else 7%nat).
      assert (length (SymbolList v) <= cap ∧ cap <= 14)%nat as [Hcap Hcap'].
      { unfold cap. destruct Hok as [(-> & _ & ->)|(-> & _ & ?)]; simpl; lia. }
      rewrite length_app, length_replicate, (u16_small (Z.of_nat _)) by (unfold is_u16; lia).
      rewrite u16_small by (unfold is_u16; lia).
      rewrite (IH _ _ _ _ _ rest), bind_Ok; try done; try lia.
      * cbn [fst snd]. f_equal. f_equal; [f_equal | lia]. f_equal.
        assert (deltas_of (SymbolList v ++ replicate (cap - length (SymbolList v)) 0) = deltas_of (SymbolList v)) as Hpad.
        { unfold deltas_of. rewrite filter_app. fold (deltas_of (replicate (cap - length (SymbolList v)) 0)).
          by rewrite deltas_of_zeros, app_nil_r. }
        destruct Hok as [(Hs & Hv & _)|(Hs & Hv & _)]; rewrite Hs; simpl; [|done].
        rewrite one_bit_deltas; [done|]. apply Forall_app. split; [done|]. by apply Forall_replicate.
      * destruct l as [|c' l]; [right; split; [done | simpl in *; lia] | left]. specialize (Hfull ltac:(done)). simpl in Hfull.
        assert (cap = length (SymbolList v)) as ->; [|lia].
        unfold cap. destruct Hok as [(Hs & _ & Hv)|(Hs & _ & _)]; rewrite Hs; simpl; [done|]. by rewrite Hfull.
Qed.

(** ** Deltas *)

Definition delta_ok (d : RecvDelta) : Prop :=
  (rd_Type d = TypeTCCPacketReceivedSmallDelta ∧ 0 ≤ Z.quot (Delta d) 250 ≤ 255) ∨
  (rd_Type d = TypeTCCPacketReceivedLargeDelta ∧ -32768 ≤ Z.quot (Delta d) 250 ≤ 32767).

Definition wire_delta (d : RecvDelta) : list Z :=
  if rd_Type d =? TypeTCCPacketReceivedSmallDelta then [u8 (Z.quot (Delta d) 250)]
  else be16 (u16 (Z.quot (Delta d) 250)).

(** The delta that is read: a multiple of 250 microseconds. *)
Definition delta_read (d : RecvDelta) : RecvDelta := MkDelta (rd_Type d) (250 * Z.quot (Delta d) 250).

Lemma RecvDelta_Marshal_wire d : delta_ok d → RecvDelta_Marshal d = Ok (wire_delta d) ∧
  length (wire_delta d) = (if rd_Type d =? TypeTCCPacketReceivedLargeDelta then 2%nat else 1%nat).
Proof.
  unfold RecvDelta_Marshal, wire_delta. intros [(-> & H)|(-> & H)]; simpl.
  - by rewrite !(proj2 (Z.leb_le _ _)) by lia.
  - by rewrite !(proj2 (Z.leb_le _ _)) by lia.
Qed.

Lemma copy_deltas_wire l : Forall delta_ok l → ∀ pre k, (length (flat_map wire_delta l) <= k)%nat →
  copy_deltas (pre ++ zeros k) (length pre) l =
    Ok ((pre ++ flat_map wire_delta l) ++ zeros (k - length (flat_map wire_delta l))).
Proof.
  induction 1 as [|d l Hd Hl IH]; intros pre k Hk; cbn [copy_deltas flat_map] in *.
  - cbn [length]. by rewrite app_nil_r, Nat.sub_0_r.
  - rewrite length_app in *. destruct (RecvDelta_Marshal_wire d Hd) as [-> Hs].
    rewrite copy_zeros by lia. rewrite bind_Ok. cbn [fst].
    replace (if rd_Type d =? TypeTCCPacketReceivedLargeDelta then (length pre + 2)%nat else (length pre + 1)%nat)
      with (length (pre ++ wire_delta d)) by (rewrite length_app, Hs; by destruct (_ =? _)).
    rewrite IH by lia. rewrite <- !app_assoc. buf_eq.
Qed.

Lemma RecvDelta_read d c : delta_ok d → s_bytes c = wire_delta d → s_len c = length (wire_delta d) →
  RecvDelta_Unmarshal c = Ok (delta_read d).
Proof.
  unfold wire_delta, RecvDelta_Unmarshal, delta_read. intros [(-> & H)|(-> & H)]; simpl; intros Hb ->.
  - assert (s_idx (E := rtcp_err) c 0 = Ok (u8 (Z.quot (Delta d) 250))) as Hi; [|].
    { destruct c as [arr n]. unfold s_bytes, s_idx in *. simpl in *. destruct n as [|n]; [done|].
      destruct arr; simplify_eq/=. done. }
    simpl. rewrite Hi, bind_Ok, u8_small by (unfold is_byte; lia). done.
  - simpl. unfold get16. rewrite Hb. unfold be16. rewrite bind_Ok, word16_be16 by apply u16_range.
    unfold to_int16, u16. do 3 f_equal.
    destruct (decide (0 ≤ Z.quot (Delta d) 250)).
    + rewrite Z.mod_small by lia. by rewrite (proj2 (Z.ltb_lt _ _)) by lia.
    + rewrite <- (Z.mod_add _ 1) by lia. rewrite Z.mod_small by lia. rewrite (proj2 (Z.ltb_ge _ _)) by lia. lia.
Qed.

Lemma read_deltas_wire l : Forall delta_ok l → ∀ b pos rest, (s_len b <= s_cap b)%nat → Z.of_nat (s_len b) < 2 ^ 16 →
  0 ≤ pos → drop (Z.to_nat pos) (s_bytes b) = flat_map wire_delta l ++ rest →
  read_deltas b (Z.of_nat (s_len b)) pos (map rd_Type l) = Ok (map delta_read l).
Proof.
  induction 1 as [|d l Hd Hl IH]; intros b pos rest Hb Hn Hp H; cbn [read_deltas map flat_map] in *; [done|].
  rewrite <- app_assoc in H. destruct (RecvDelta_Marshal_wire d Hd) as [_ Hs].
  assert (1 <= length (wire_delta d) <= 2)%nat as H12 by (destruct (_ =? _) in Hs; lia).
  assert (wire_delta d ≠ []) as Hw by (by destruct (wire_delta d); simpl in H12; [lia|]).
  pose proof (drop_s_bytes_len b _ _ _ Hb H Hw) as Hlen.
  apply fail_step; [lia|].
  destruct (s_sub_bytes (E := rtcp_err) b (Z.to_nat pos) (Z.to_nat (pos + Z.of_nat (length (wire_delta d)))) _ _ Hb H)
    as (c & Ec & Hc & Hcl); [lia | lia |].
  assert (drop (Z.to_nat (pos + Z.of_nat (length (wire_delta d)))) (s_bytes b) = flat_map wire_delta l ++ rest) as Hd'.
  { eapply drop_app_inv; [exact H|]. lia. }
  pose proof (RecvDelta_read d c Hd Hc Hcl) as Hr.
  destruct Hd as [(Ht & _)|(Ht & _)]; rewrite Ht in *; simpl in Hs; rewrite Hs in *; change (Z.of_nat 1) with 1 in *; change (Z.of_nat 2) with 2 in *; simpl;
    rewrite u16_small by (unfold is_u16; lia); rewrite Ec, bind_Ok, Hr, bind_Ok, (IH _ _ rest), bind_Ok; done || lia.
Qed.

(** ** Packets *)

Definition tcc_statuses (t : TransportLayerCC) : list Z := flat_map expand (PacketChunks t).

(** The bytes in front of the padding, and the padding. *)
Definition tcc_size (t : TransportLayerCC) : nat :=
  (20 + 2 * length (PacketChunks t) + length (flat_map wire_delta (RecvDeltas t)))%nat.
Definition tcc_pad (t : TransportLayerCC) : nat := ((4 - tcc_size t mod 4) mod 4)%nat.

Definition tcc_header (t : TransportLayerCC) : Header :=
  MkHeader (negb (tcc_size t mod 4 =? 0)%nat) FormatTCC TypeTransportSpecificFeedback
    (Z.of_nat ((tcc_size t + tcc_pad t) / 4) - 1).

(** The statuses are those of the numbers the packet is about, and there is a
    delta for each one that arrived. *)
Record tcc_ok (t : TransportLayerCC) : Prop := {
  to_header : tcc_Header t = tcc_header t;
  to_ssrcs : ssrcs_ok (tcc_SenderSSRC t) (tcc_MediaSSRC t);
  to_base : is_u16 (BaseSequenceNumber t);
  to_count : PacketStatusCount t = Z.of_nat (length (tcc_statuses t));
  to_small : PacketStatusCount t < 2 ^ 16 - 14;
  to_time : is_u32 (ReferenceTime t);
  to_fb : is_byte (FbPktCount t);
  to_chunks : packed (PacketChunks t);
  to_deltas : Forall delta_ok (RecvDeltas t);
  to_types : map rd_Type (RecvDeltas t) = deltas_of (tcc_statuses t);
  to_some : RecvDeltas t ≠ [];
  to_size : Z.of_nat (tcc_size t) < 2 ^ 16 - 4;
}.

Definition tcc_read (t : TransportLayerCC) : TransportLayerCC :=
  MkTCC (tcc_Header t) (tcc_SenderSSRC t) (tcc_MediaSSRC t) (BaseSequenceNumber t) (PacketStatusCount t)
    (ReferenceTime t mod 2 ^ 24) (FbPktCount t) (map status_read (PacketChunks t)) (map delta_read (RecvDeltas t)).

(** The reference time and the counter share a word. *)
Definition tcc_word (t : TransportLayerCC) : Z := ReferenceTime t mod 2 ^ 24 * 2 ^ 8 + FbPktCount t.

Definition tcc_padding (t : TransportLayerCC) : list Z :=
  match tcc_pad t with
  | O => []
  | S n => zeros n ++ [Z.of_nat (S n)]
  end.

Definition tcc_body (t : TransportLayerCC) : list Z :=
  be16 (BaseSequenceNumber t) ++ be16 (PacketStatusCount t) ++ be32 (tcc_word t) ++
  flat_map wire_status (PacketChunks t) ++ flat_map wire_delta (RecvDeltas t) ++ tcc_padding t.

Definition tcc_wire (t : TransportLayerCC) : list Z :=
  wire_fb (tcc_header t) (tcc_SenderSSRC t) (tcc_MediaSSRC t) (tcc_body t).

Lemma length_tcc_padding t : length (tcc_padding t) = tcc_pad t.
Proof. unfold tcc_padding. destruct (tcc_pad t); [done|]. rewrite length_app. unfold zeros. rewrite length_replicate. simpl. lia. Qed.

(** Rounding up to a multiple of four. *)
Lemma round_up n : ∃ k, (n + (4 - n mod 4) mod 4 = 4 * k ∧ (4 - n mod 4) mod 4 < 4 ∧
  (if n mod 4 =? 0 then (4 - n mod 4) mod 4 = 0 else (4 - n mod 4) mod 4 ≠ 0 ∧ k = S (n / 4)))%nat.
Proof.
  pose proof (Nat.div_mod_eq n 4) as H. pose proof (Nat.mod_upper_bound n 4) as Hr.
  set (q := (n / 4)%nat) in *. set (r := (n mod 4)%nat) in *.
  assert (r = 0 ∨ r = 1 ∨ r = 2 ∨ r = 3)%nat as Hc by lia. clearbody q r.
  destruct Hc as [-> | [-> | [-> | ->]]]; [exists q | exists (S q)..]; simpl; lia.
Qed.

Lemma tcc_pad_spec t : ∃ k, (tcc_size t + tcc_pad t = 4 * k ∧ tcc_pad t < 4 ∧ 5 <= k ∧
  (if tcc_size t mod 4 =? 0 then tcc_pad t = 0 else tcc_pad t ≠ 0 ∧ k = S (tcc_size t / 4)))%nat.
Proof.
  destruct (round_up (tcc_size t)) as (k & H). fold (tcc_pad t) in H. exists k.
  assert (20 <= tcc_size t)%nat by (unfold tcc_size; lia). destruct_and!. split_and!; try done. lia.
Qed.

Lemma tcc_header_ok t : tcc_ok t → hdr_ok (tcc_header t) ∧
  (tcc_size t + tcc_pad t = Z.to_nat (u16 (Length (tcc_header t) + 1)) * 4)%nat.
Proof.
  intros H. pose proof (to_size t H) as Hs. destruct (tcc_pad_spec t) as (k & Hk & Hp & H5 & _).
  unfold tcc_header. rewrite Hk, Nat.mul_comm, Nat.div_mul by lia.
  unfold hdr_ok, is_byte, FormatTCC, TypeTransportSpecificFeedback. cbn [Count Type_ Length].
  rewrite u16_small by (unfold is_u16; lia). unfold is_u16. lia.
Qed.

Lemma length_tcc_wire t : tcc_ok t → length (tcc_wire t) = (tcc_size t + tcc_pad t)%nat.
Proof.
  intros H. unfold tcc_wire, tcc_body. rewrite length_wire_fb, !length_app, length_tcc_padding.
  rewrite (length_wire_status _ (packed_ok _ (to_chunks t H))), !length_be16, length_be32. unfold tcc_size. lia.
Qed.

Lemma deltas_length l a : Forall delta_ok l →
  foldl (λ n d, if rd_Type d =? TypeTCCPacketReceivedSmallDelta then u16 (n + 1) else u16 (n + 2)) (u16 a) l =
    u16 (a + Z.of_nat (length (flat_map wire_delta l))).
Proof.
  intros H. revert a. induction H as [|d l Hd Hl IH]; intros a; cbn [foldl flat_map]; [by rewrite Z.add_0_r|].
  rewrite length_app. assert ((if rd_Type d =? TypeTCCPacketReceivedSmallDelta then u16 (u16 a + 1) else u16 (u16 a + 2)) =
    u16 (a + Z.of_nat (length (wire_delta d)))) as ->.
  { destruct (RecvDelta_Marshal_wire d Hd) as [_ ->]. unfold u16. destruct Hd as [(-> & _)|(-> & _)]; simpl; apply Zplus_mod_idemp_l. }
  rewrite IH. f_equal. lia.
Qed.

Lemma tcc_lengths t : tcc_ok t → TransportLayerCC_packetLen t = Z.of_nat (tcc_size t) ∧
  TransportLayerCC_Len t = Z.of_nat (tcc_size t + tcc_pad t).
Proof.
  intros H. pose proof (to_size t H) as Hs. destruct (tcc_pad_spec t) as (k & Hk & Hp & _ & Hm).
  assert (TransportLayerCC_packetLen t = Z.of_nat (tcc_size t)) as E.
  { unfold TransportLayerCC_packetLen. rewrite (deltas_length _ _ (to_deltas t H)). unfold tcc_size in *.
    rewrite u16_small by (unfold is_u16; lia). lia. }
  split; [done|]. unfold TransportLayerCC_Len. rewrite E, <- (Nat2Z.inj_mod _ 4), <- (Nat2Z.inj_div _ 4).
  destruct (Nat.eqb_spec (tcc_size t mod 4) 0) as [Hz|Hz].
  - rewrite Hz. change (Z.of_nat 0 =? 0) with true. cbv iota. lia.
  - rewrite (proj2 (Z.eqb_neq _ _)) by lia. destruct Hm as [_ ->].
    rewrite (u16_small (_ + 1)), u16_small by (unfold is_u16; lia). lia.
Qed.

Lemma tcc_word_spec t : tcc_ok t →
  appendNBitsToUint32 (appendNBitsToUint32 0 24 (ReferenceTime t)) 8 (FbPktCount t) = tcc_word t ∧ is_u32 (tcc_word t).
Proof.
  intros H. pose proof (to_fb t H) as Hf. pose proof (Z.mod_pos_bound (ReferenceTime t) (2 ^ 24)). unfold tcc_word, is_byte in *.
  split; [|unfold is_u32; lia]. unfold appendNBitsToUint32.
  change (Z.shiftr 0xFFFFFFFF (32 - 24)) with (Z.ones 24). change (Z.shiftr 0xFFFFFFFF (32 - 8)) with (Z.ones 8).
  rewrite !Z.land_ones, (Z.mod_small (FbPktCount t)) by lia. change (u32 (Z.shiftl 0 24)) with 0. rewrite Z.lor_0_l.
  rewrite u32_small by (unfold is_u32; rewrite Z.shiftl_mul_pow2 by lia; lia).
  rewrite Z.lor_comm, lor_shiftl_add by lia. lia.
Qed.

Lemma tcc_marshal t : tcc_ok t → TransportLayerCC_Marshal t = Ok (tcc_wire t).
Proof.
  intros H. destruct (tcc_lengths t H) as [Ep El]. destruct (tcc_header_ok t H) as [Hh _].
  destruct (tcc_pad_spec t) as (k & Hk & Hp & H5 & Hm). pose proof (to_size t H) as Hs.
  pose proof (packed_ok _ (to_chunks t H)) as Hc. pose proof (length_wire_status _ Hc) as Hcl.
  unfold TransportLayerCC_Marshal. rewrite (to_header t H), Header_Marshal_wire, bind_Ok by done.
  rewrite El, Ep, (u16_small (Z.of_nat (tcc_size t + tcc_pad t) - 4)) by (unfold is_u16; lia).
  replace (Z.to_nat (_ - 4)) with (tcc_size t + tcc_pad t - 4)%nat by lia.
  rewrite <- (app_nil_l (zeros _)). rewrite put_zeros by (rewrite ?length_be32; simpl; lia). rewrite bind_Ok.
  rewrite put_zeros by buf_lia. rewrite bind_Ok. rewrite put_zeros by buf_lia. rewrite bind_Ok.
  rewrite put_zeros by buf_lia. rewrite bind_Ok. rewrite put_zeros by buf_lia. rewrite bind_Ok.
  rewrite (proj1 (tcc_word_spec t H)).
  rewrite (copy_each_spec wire_status PacketStatusChunk_Marshal 2); cycle 1.
  { eapply Forall_impl; [exact Hc|]. intros c (b0 & b1 & ? & Hw & _)%wire_status_spec. by rewrite Hw in *. }
  { buf_lia. } { unfold tcc_size in *. rewrite ?length_be32, ?length_be16. lia. }
  rewrite bind_Ok. match goal with |- context [copy_deltas (?p ++ zeros ?m) ?n _] =>
    replace n with (length p) by (rewrite !length_app, Hcl, ?length_be32, ?length_be16; simpl; lia) end.
  rewrite (copy_deltas_wire _ (to_deltas t H)), bind_Ok by (unfold tcc_size in *; rewrite ?length_be32, ?length_be16; lia).
  unfold tcc_wire, wire_fb, tcc_body, tcc_padding.
  match goal with |- context [zeros ?n] => replace n with (tcc_pad t) by
    (unfold tcc_size in *; rewrite ?length_be32, ?length_be16; lia) end.
  rewrite (Nat2Z.inj_add (tcc_size t)), Z.add_simpl_l. cbn [tcc_header Padding].
  destruct (Nat.eqb_spec (tcc_size t mod 4) 0) as [Hz|Hz]; cbn [negb].
  - rewrite Hm. cbn [zeros replicate]. rewrite bind_Ok, !app_nil_r. by rewrite <- !app_assoc.
  - destruct Hm as [Hm _]. destruct (tcc_pad t) as [|n] eqn:En; [done|].
    rewrite (u16_small (Z.of_nat _)), u8_small by (unfold is_u16, is_byte; lia).
    rewrite (proj2 (Nat.eqb_neq _ _)) by (rewrite length_app; unfold zeros; rewrite length_replicate; lia).
    unfold zeros. rewrite replicate_S_end, app_assoc. fold (zeros n).
    rewrite put_tail by (rewrite ?length_app; simpl; lia). rewrite bind_Ok. cbn [length drop].
    by rewrite app_nil_r, <- !app_assoc.
Qed.

(** The word of the reference time, read in two parts. *)
Lemma read_word {A} b w r (k : Z → Z → rres A) : is_u32 w → (s_len b <= s_cap b)%nat → drop 16 (s_bytes b) = be32 w ++ r →
  (c ← s_sub b 16 19; ref ← get24BitsFromBytes c; fb ← s_idx b 19; k ref fb) = k (w / 256) (w mod 256).
Proof.
  intros Hw Hb H. pose proof (drop_s_bytes_len b _ _ _ Hb H ltac:(done)) as Hl. rewrite length_be32 in Hl.
  unfold be32 in H. cbn [app] in H.
  destruct (s_sub_bytes (E := rtcp_err) b 16 19 [u8 (Z.shiftr w 24); u8 (Z.shiftr w 16); u8 (Z.shiftr w 8)] _ Hb H)
    as (c & Ec & Hc & Hcl); [done | lia |].
  rewrite Ec, bind_Ok. assert (get24BitsFromBytes c = Ok (w / 256)) as ->.
  { unfold get24BitsFromBytes, s_idx. rewrite Hcl. destruct c as [arr n]. simpl in Hcl. subst n. unfold s_bytes in Hc. simpl in Hc.
    destruct arr as [|x0 [|x1 [|x2 arr]]]; simplify_eq/=. f_equal.
    unfold u8, is_u32 in *. rewrite !Z.shiftr_div_pow2, !Z.shiftl_mul_pow2 by lia.
    rewrite u32_small by (unfold is_u32; Z.div_mod_to_equations; lia). Z.div_mod_to_equations. lia. }
  rewrite bind_Ok. eapply (drop_app_inv _ [_; _; _] _ _ 19) in H; [|done].
  by rewrite (s_idx_at b 19 _ _ Hb H), bind_Ok.
Qed.

Lemma tcc_unmarshal t b : tcc_ok t → (s_len b <= s_cap b)%nat → s_bytes b = tcc_wire t →
  TransportLayerCC_Unmarshal b = Ok (tcc_read t).
Proof.
  intros H Hb E. destruct (tcc_header_ok t H) as [Hh Hw]. pose proof (to_size t H) as Hs.
  destruct (tcc_pad_spec t) as (k & Hk & Hp & H5 & _).
  pose proof (length_s_bytes b Hb) as Hl. rewrite E, (length_tcc_wire t H) in Hl.
  pose proof (packed_ok _ (to_chunks t H)) as Hc. pose proof (length_wire_status _ Hc) as Hcl.
  unfold TransportLayerCC_Unmarshal. apply fail_step; [apply Nat.ltb_ge; rtcp_lia|].
  rewrite (Header_Unmarshal_wire _ b _ Hh Hb E), bind_Ok.
  assert (u16 (4 * u16 (Length (tcc_header t) + 1)) = Z.of_nat (s_len b)) as ->.
  { rewrite u16_small by (unfold is_u16; lia). lia. }
  apply fail_step; [lia|]. apply fail_step; [lia|]. apply fail_step; [done|].
  destruct (to_ssrcs t H) as [Hs1 Hs2].
  unfold tcc_wire in E. rewrite (read_ssrcs b _ _ _ _ _ Hs1 Hs2 E).
  assert (drop 12 (s_bytes b) = tcc_body t) as E12.
  { rewrite E. unfold wire_fb. rewrite !app_assoc. by rewrite drop_app_length'. }
  unfold tcc_body in E12. unfold headerLength. cbn [Nat.add].
  assert (is_u16 (PacketStatusCount t)) as Hct.
  { pose proof (to_small t H). rewrite (to_count t H) in *. unfold is_u16. lia. }
  rewrite (get16_at_be b 12 _ _ (to_base t H) E12), bind_Ok. apply (drop_app_inv _ _ _ _ 14) in E12; [|done].
  rewrite (get16_at_be b 14 _ _ Hct E12), bind_Ok. apply (drop_app_inv _ _ _ _ 16) in E12; [|done].
  rewrite (read_word b _ _ _ (proj2 (tcc_word_spec t H)) Hb E12). apply (drop_app_inv _ _ _ _ 20) in E12; [|done].
  assert (tcc_word t / 256 = ReferenceTime t mod 2 ^ 24 ∧ tcc_word t mod 256 = FbPktCount t) as [-> ->].
  { pose proof (to_fb t H). unfold tcc_word, is_byte in *. Z.div_mod_to_equations. lia. }
  rewrite (read_status_wire (PacketChunks t) _ b 20 0 (PacketStatusCount t)
    (flat_map wire_delta (RecvDeltas t) ++ tcc_padding t)), bind_Ok;
    [| exact (to_chunks t H) | done | lia | done | | done | done | left; exact (to_count t H) | exact (to_small t H) |].
  - cbn [fst snd]. fold (tcc_statuses t). rewrite <- (to_types t H).
    rewrite (read_deltas_wire _ (to_deltas t H) b _ (tcc_padding t)), bind_Ok; [| done | lia | lia |].
    + unfold tcc_read. by rewrite (to_header t H).
    + eapply drop_app_inv; [exact E12|]. rewrite Hcl. lia.
  - intros Hn. apply (f_equal length) in Hn. rewrite length_app in Hn. pose proof (to_some t H) as Hne.
    pose proof (to_deltas t H) as Hd. destruct (RecvDeltas t) as [|d l]; [done|]. simpl in Hn. rewrite length_app in Hn.
    apply Forall_cons in Hd as [[_ Hd]%RecvDelta_Marshal_wire _]. destruct (_ =? _) in Hd; lia.
  - unfold tcc_size in Hl. lia.
Qed.

(** A feedback packet in a datagram of its own. *)
Lemma tcc_datagram t b nan : tcc_ok t → (s_len b <= s_cap b)%nat → s_bytes b = tcc_wire t →
  Marshal nan [PTransportLayerCC t] = Ok (tcc_wire t) ∧ Unmarshal b = Ok [PTransportLayerCC (tcc_read t)].
Proof.
  intros H Hb E. split.
  { unfold Marshal. rewrite (append_each_spec _ (λ p, match p with PTransportLayerCC t => tcc_wire t | _ => [] end)).
    - simpl. by rewrite app_nil_r.
    - constructor; [|done]. exact (tcc_marshal t H). }
  destruct (tcc_header_ok t H) as [Hh Hw]. destruct (tcc_pad_spec t) as (k & Hk & Hp & H5 & _).
  pose proof (length_s_bytes b Hb) as Hl. rewrite E, (length_tcc_wire t H) in Hl.
  unfold Unmarshal. destruct (s_len b) as [|n] eqn:En; [lia|]. cbn [unmarshal_loop].
  rewrite (proj2 (Nat.eqb_neq _ _)) by lia. unfold unmarshal.
  rewrite (Header_Unmarshal_wire _ b _ Hh) by (exact E || lia). rewrite bind_Ok, <- Hw, Hl, En.
  rewrite fail_if_false, bind_Ok by (apply Nat.ltb_ge; lia).
  change (s_bytes b) with (drop 0 (s_bytes b)) in E. rewrite <- (app_nil_r (tcc_wire t)) in E.
  destruct (s_sub_bytes (E := rtcp_err) b 0 (S n) _ _ ltac:(lia) E) as (c & Ec & Hc & Hcl);
    [rewrite (length_tcc_wire t H); lia | lia |].
  rewrite Ec, bind_Ok. change (kind_of (tcc_header t)) with KTCC. cbn [Packet_Unmarshal].
  rewrite (tcc_unmarshal t c H); [| | done].
  - cbn [fmap res_fmap]. rewrite !bind_Ok. cbn [fst snd]. rewrite s_from_Ok, En, Nat.sub_diag, bind_Ok by lia.
    by destruct n.
  - pose proof (f_equal length Hc) as Hx. rewrite <- Hcl in Hx. unfold s_bytes, s_cap in *. rewrite length_take in Hx. lia.
Qed.
