(* ===== verification/Twcc.v ===== *)
(** * Transport-wide congestion control

    pkg/twcc/twcc.go of pion/interceptor: the recorder of the transport-wide
    sequence numbers a publisher's packets carry, and the feedback packets the
    server makes of them every 100 ms, with the chunks their statuses are
    packed in.  Sequence numbers are kept at their width; times are the int64
    microseconds since the interceptor was made. *)

From S2P Require Import Prelude GoLib Bytes Rtcp RtcpCongestion.

(** The code returns no errors: it ends, or panics. *)
Abbreviation tres := (res Empty_set).

(** ** Chunks *)

Definition maxRunLengthCap : Z := 0x1fff.
Definition maxOneBitCap : Z := 14.
Definition maxTwoBitCap : Z := 7.

Record chunk := MkChunk {
  hasLargeDelta : bool;
  hasDifferentTypes : bool;
  ck_deltas : list Z;
}.

Definition empty_chunk : chunk := MkChunk false false [].

(** [len(c.deltas)] and [c.deltas[0]] *)
Definition ck_len (c : chunk) : Z := Z.of_nat (length (ck_deltas c)).
Definition ck_first (l : list Z) : tres Z :=
  match l with
  | [] => Panic
  | d :: _ => Ok d
  end.

Definition canAdd (c : chunk) (delta : Z) : tres bool :=
  if ck_len c <? maxTwoBitCap then Ok true
  else if (ck_len c <? maxOneBitCap) && negb (hasLargeDelta c) &&
          negb (delta =? TypeTCCPacketReceivedLargeDelta) then Ok true
  else if (ck_len c <? maxRunLengthCap) && negb (hasDifferentTypes c) then
    d0 ← ck_first (ck_deltas c);
    Ok (delta =? d0)
  else Ok false.

(** [c.deltas[0]] is read after the append. *)
Definition ck_add (c : chunk) (delta : Z) : chunk :=
  let deltas := ck_deltas c ++ [delta] in
  MkChunk (hasLargeDelta c || (delta =? TypeTCCPacketReceivedLargeDelta))
    (hasDifferentTypes c || negb (delta =? hd delta deltas)) deltas.

(** The loop that sets the flags of what is left in the chunk. *)
Definition chunk_of (l : list Z) : chunk :=
  MkChunk (existsb (λ d, d =? TypeTCCPacketReceivedLargeDelta) l)
    (existsb (λ d, negb (hd 0 l =? d)) l) l.

(** The chunk that is written, and what is left; the Type of the chunk is the
    zero value, which is not written either. *)
Definition encode (c : chunk) : tres (PacketStatusChunk * chunk) :=
  if negb (hasDifferentTypes c) then
    d0 ← ck_first (ck_deltas c);
    Ok (CRunLength (MkRunLength 0 d0 (u16 (ck_len c))), empty_chunk)
  else if ck_len c =? maxOneBitCap then
    Ok (CStatusVector (MkStatusVector 0 TypeTCCSymbolSizeOneBit (ck_deltas c)), empty_chunk)
  else
    let minCap := Nat.min (Z.to_nat maxTwoBitCap) (length (ck_deltas c)) in
    Ok (CStatusVector (MkStatusVector 0 TypeTCCSymbolSizeTwoBit (take minCap (ck_deltas c))),
        chunk_of (drop minCap (ck_deltas c))).

(** ** Feedback *)

(** The packet under construction; of its field rtcp only the three fields set
    by newFeedback are kept, the others are set by getRTCP. *)
Record feedback := MkFeedback {
  fb_senderSSRC : Z;
  fb_mediaSSRC : Z;
  fb_count : Z;
  baseSequenceNumber : Z;
  refTimestamp64MS : Z;
  lastTimestampUS : Z;
  nextSequenceNumber : Z;
  sequenceNumberCount : Z;
  fb_len : Z;
  lastChunk : chunk;
  fb_chunks : list PacketStatusChunk;
  fb_deltas : list RecvDelta;
}.

Definition newFeedback (senderSSRC mediaSSRC count : Z) : feedback :=
  MkFeedback senderSSRC mediaSSRC count 0 0 0 0 0 0 empty_chunk [] [].

Definition setBase (f : feedback) (sequenceNumber timeUS : Z) : feedback :=
  let ref := Z.quot timeUS 64000 in
  MkFeedback (fb_senderSSRC f) (fb_mediaSSRC f) (fb_count f) sequenceNumber ref (to_int64 (ref * 64000))
    sequenceNumber (sequenceNumberCount f) (fb_len f) (lastChunk f) (fb_chunks f) (fb_deltas f).

Definition set_chunks (f : feedback) (c : chunk) (l : list PacketStatusChunk) : feedback :=
  MkFeedback (fb_senderSSRC f) (fb_mediaSSRC f) (fb_count f) (baseSequenceNumber f) (refTimestamp64MS f)
    (lastTimestampUS f) (nextSequenceNumber f) (sequenceNumberCount f) (fb_len f) c l (fb_deltas f).

(** [if !f.lastChunk.canAdd(s) { f.chunks = append(f.chunks, f.lastChunk.encode()) }]
    and [f.lastChunk.add(s)] *)
Definition add_status (f : feedback) (s : Z) : tres feedback :=
  ok ← canAdd (lastChunk f) s;
  f ← (if (ok : bool) then Ok f
       else
         e ← encode (lastChunk f);
         Ok (set_chunks f e.2 (fb_chunks f ++ [e.1])));
  Ok (set_chunks f (ck_add (lastChunk f) s) (fb_chunks f)).

(** [f.sequenceNumberCount++] and [f.nextSequenceNumber++] *)
Definition next_number (f : feedback) : feedback :=
  MkFeedback (fb_senderSSRC f) (fb_mediaSSRC f) (fb_count f) (baseSequenceNumber f) (refTimestamp64MS f)
    (lastTimestampUS f) (u16 (nextSequenceNumber f + 1)) (u16 (sequenceNumberCount f + 1)) (fb_len f)
    (lastChunk f) (fb_chunks f) (fb_deltas f).

(** [for ; f.nextSequenceNumber != sequenceNumber; f.nextSequenceNumber++] *)
Fixpoint skip_to (fuel : nat) (f : feedback) (sequenceNumber : Z) : tres feedback :=
  if nextSequenceNumber f =? sequenceNumber then Ok f
  else match fuel with
       | O => Diverge
       | S fuel =>
           f ← add_status f TypeTCCPacketNotReceived;
           skip_to fuel (next_number f) sequenceNumber
       end.

(** The number of values of a uint16. *)
Definition skip_fuel : nat := Z.to_nat (2 ^ 16).

(** The case distinction on delta250US: what is added to f.len is also the
    type of the delta. *)
Definition delta_type (delta250US : Z) : Z :=
  if (0 <=? delta250US) && (delta250US <=? 0xff) then TypeTCCPacketReceivedSmallDelta
  else TypeTCCPacketReceivedLargeDelta.

(** [f.deltas = append(...)], [f.len += n] and [f.lastTimestampUS = timestampUS] *)
Definition add_delta (f : feedback) (d : RecvDelta) (n timestampUS : Z) : feedback :=
  MkFeedback (fb_senderSSRC f) (fb_mediaSSRC f) (fb_count f) (baseSequenceNumber f) (refTimestamp64MS f)
    timestampUS (nextSequenceNumber f) (sequenceNumberCount f) (fb_len f + n)
    (lastChunk f) (fb_chunks f) (fb_deltas f ++ [d]).

(** None: the delta does not fit, the feedback is as it was. *)
Definition addReceived (f : feedback) (sequenceNumber timestampUS : Z) : tres (option feedback) :=
  let deltaUS := to_int64 (timestampUS - lastTimestampUS f) in
  let delta250US := Z.quot deltaUS 250 in
  if (delta250US <? -32768) || (32767 <? delta250US) then Ok None
  else
    f ← skip_to skip_fuel f sequenceNumber;
    let recvDelta := delta_type delta250US in
    f ← add_status f recvDelta;
    let n := if recvDelta =? TypeTCCPacketReceivedSmallDelta then 1 else 2 in
    Ok (Some (next_number (add_delta f (MkDelta recvDelta deltaUS) n timestampUS))).

(** [for len(f.lastChunk.deltas) > 0 { ... }]: each round takes at least one
    status out of the chunk. *)
Fixpoint flush (fuel : nat) (c : chunk) (l : list PacketStatusChunk) : tres (list PacketStatusChunk) :=
  match ck_deltas c with
  | [] => Ok l
  | _ =>
      match fuel with
      | O => Diverge
      | S fuel =>
          e ← encode c;
          flush fuel e.2 (l ++ [e.1])
      end
  end.

(** The feedback is not used again afterwards. *)
Definition getRTCP (f : feedback) : tres TransportLayerCC :=
  chunks ← flush (length (ck_deltas (lastChunk f))) (lastChunk f) (fb_chunks f);
  let n := 20 + Z.of_nat (length chunks) * 2 + fb_len f in
  let padLen := if n mod 4 =? 0 then n else n + (4 - n mod 4) in
  let header := MkHeader (negb (n mod 4 =? 0)) FormatTCC TypeTransportSpecificFeedback (u16 (padLen / 4 - 1)) in
  Ok (MkTCC header (fb_senderSSRC f) (fb_mediaSSRC f) (baseSequenceNumber f) (sequenceNumberCount f)
        (u32 (refTimestamp64MS f)) (fb_count f) chunks (fb_deltas f)).

(** ** Recorder *)

Record pktInfo := MkPktInfo { pi_sequenceNumber : Z; arrivalTime : Z }.

#[export] Instance pktInfo_eq_dec : EqDecision pktInfo.
Proof. solve_decision. Defined.

Record Recorder := MkRecorder {
  receivedPackets : list pktInfo;
  cycles : Z;
  lastSequenceNumber : Z;
  rec_senderSSRC : Z;
  rec_mediaSSRC : Z;
  fbPktCnt : Z;
}.

Definition NewRecorder (senderSSRC : Z) : Recorder := MkRecorder [] 0 0 senderSSRC 0 0.

(** The loop of insertSorted, at index i - 1. *)
Fixpoint insert_loop (i : nat) (l : list pktInfo) (element : pktInfo) : list pktInfo :=
  match i with
  | O => element :: l
  | S i =>
      match l !! i with
      | Some p =>
          if pi_sequenceNumber p <? pi_sequenceNumber element then take (S i) l ++ element :: drop (S i) l
          else if pi_sequenceNumber p =? pi_sequenceNumber element then <[i := element]> l
          else insert_loop i l element
      | None => l
      end
  end.

Definition insertSorted (l : list pktInfo) (element : pktInfo) : list pktInfo :=
  insert_loop (length l) l element.

Definition Record_ (r : Recorder) (mediaSSRC sequenceNumber arrivalTime : Z) : Recorder :=
  let cycles := if (sequenceNumber <? 0x0fff) && (0xf000 <? Z.land (lastSequenceNumber r) 0xffff)
                then u32 (cycles r + Z.shiftl 1 16) else cycles r in
  MkRecorder (insertSorted (receivedPackets r) (MkPktInfo (Z.lor cycles sequenceNumber) arrivalTime))
    cycles sequenceNumber (rec_senderSSRC r) mediaSSRC (fbPktCnt r).

(** The packets waiting are dropped, the counter goes on. *)
Definition next_feedback (r : Recorder) (l : list pktInfo) (n : Z) : Recorder :=
  MkRecorder l (cycles r) (lastSequenceNumber r) (rec_senderSSRC r) (rec_mediaSSRC r) (u8 n).

(** The loop over the recorded packets, with the feedback under construction,
    the counter and the packets made so far. *)
Fixpoint build_loop (sender media : Z) (l : list pktInfo) (f : feedback) (cnt : Z) (pkts : list TransportLayerCC)
    : tres (feedback * Z * list TransportLayerCC) :=
  match l with
  | [] => Ok (f, cnt, pkts)
  | pkt :: l =>
      let seq := u16 (Z.land (pi_sequenceNumber pkt) 0xffff) in
      ok ← addReceived f seq (arrivalTime pkt);
      match ok with
      | Some f => build_loop sender media l f cnt pkts
      | None =>
          p ← getRTCP f;
          let f := newFeedback sender media cnt in
          ok ← addReceived f seq (arrivalTime pkt);
          build_loop sender media l (default f ok) (u8 (cnt + 1)) (pkts ++ [p])
      end
  end.

Definition BuildFeedbackPacket (r : Recorder) : tres (Recorder * list TransportLayerCC) :=
  let f := newFeedback (rec_senderSSRC r) (rec_mediaSSRC r) (fbPktCnt r) in
  match receivedPackets r with
  | first :: _ :: _ =>
      let f := setBase f (u16 (Z.land (pi_sequenceNumber first) 0xffff)) (arrivalTime first) in
      b ← build_loop (rec_senderSSRC r) (rec_mediaSSRC r) (receivedPackets r) f (u8 (fbPktCnt r + 1)) [];
      p ← getRTCP b.1.1;
      Ok (next_feedback r [] b.1.2, b.2 ++ [p])
  | _ =>
      p ← getRTCP f;
      Ok (next_feedback r [] (fbPktCnt r + 1), [p])
  end.
