(* ===== verification/TwccProps.v ===== *)
(** * Transport-wide congestion control: properties

    The recorder keeps the packets of a publisher in the order of their
    numbers, and the feedback made of them tells which numbers arrived, and
    when. *)

From stdpp Require Import sorting.
From S2P Require Import Prelude GoLib Bytes Rtcp RtcpFeedback RtcpCongestion RtcpXr RtcpPacket RtcpCodec RtcpTcc Twcc.

(** ** Chunks *)

(** The statuses that fit one chunk. *)
Definition fits (l : list Z) : Prop :=
  Forall is_status l ∧
  ((length l <= 7)%nat ∨ ((length l <= 14)%nat ∧ Forall (λ s, s ≤ 1) l) ∨
   (Z.of_nat (length l) ≤ 8191 ∧ Forall (λ s, s = hd 0 l) l)).

Lemma chunk_of_nil : chunk_of [] = empty_chunk.
Proof. done. Qed.

Lemma existsb_Forall {A} (f : A → bool) (P : A → Prop) l : (∀ x, f x = false ↔ P x) → existsb f l = false ↔ Forall P l.
Proof.
  intros Hf. induction l as [|x l IH]; simpl; [done|]. by rewrite orb_false_iff, Forall_cons, Hf, IH.
Qed.

Lemma no_large l : Forall is_status l →
  hasLargeDelta (chunk_of l) = false ↔ Forall (λ s, s ≤ 1) l.
Proof.
  intros Hl. simpl. rewrite (existsb_Forall _ (λ s, s ≠ 2)) by (intros; apply Z.eqb_neq).
  split; intros H; apply Forall_and in H || idtac; rewrite Forall_forall in *; intros x Hx; specialize (H x Hx); specialize (Hl x Hx);
    unfold is_status in *; simpl in *; lia.
Qed.

Lemma same_types l : hasDifferentTypes (chunk_of l) = false ↔ Forall (λ s, s = hd 0 l) l.
Proof. simpl. apply existsb_Forall. intros x. rewrite negb_false_iff, Z.eqb_eq. done. Qed.

(** The flags of a chunk are those of its statuses. *)
Lemma ck_add_of l s : ck_add (chunk_of l) s = chunk_of (l ++ [s]).
Proof.
  unfold ck_add, chunk_of. cbn [hasLargeDelta hasDifferentTypes ck_deltas].
  rewrite !existsb_app. simpl. rewrite !orb_false_r. f_equal.
  destruct l as [|d l]; simpl; [by rewrite Z.eqb_refl|]. by rewrite (Z.eqb_sym s d).
Qed.

(** A chunk that can take a status fits it; one that cannot has at least seven
    of them. *)
Lemma canAdd_spec l s : fits l → is_status s → ∃ b, canAdd (chunk_of l) s = Ok b ∧
  if b then fits (l ++ [s]) else (7 <= length l)%nat.
Proof.
  intros [Hl Hf] Hs. unfold canAdd, ck_len, maxTwoBitCap, maxOneBitCap, maxRunLengthCap. cbn [ck_deltas chunk_of].
  assert (Forall is_status (l ++ [s])) as Hl' by (apply Forall_app; split; [done | by constructor]).
  destruct (Z.ltb_spec (Z.of_nat (length l)) 7).
  { exists true. split; [done|]. split; [done|]. left. rewrite length_app. simpl. lia. }
  destruct (_ && _ && _) eqn:E1.
  { exists true. split; [done|]. split; [done|]. right. left. rewrite !andb_true_iff, !negb_true_iff in E1.
    destruct E1 as [[E1 E2] E3]. rewrite length_app. simpl. split; [lia|].
    apply Forall_app. split; [by apply no_large|]. constructor; [|done].
    unfold TypeTCCPacketReceivedLargeDelta, is_status in *. lia. }
  clear E1. destruct (_ && _) eqn:E2.
  - destruct l as [|d l]; [simpl in *; lia|]. cbn [ck_first]. rewrite bind_Ok. exists (s =? d). split; [done|].
    destruct (Z.eqb_spec s d) as [->|]; [|lia]. split; [done|]. right. right.
    rewrite andb_true_iff, negb_true_iff in E2. destruct E2 as [E2 E3].
    apply Z.ltb_lt in E2. apply same_types in E3. rewrite length_app. cbn [length hd app] in *.
    split; [lia|].
    apply Forall_cons in E3 as [_ E3]. constructor; [done|].
    apply Forall_app. split; [done | by constructor].
  - exists false. split; [done | lia].
Qed.

Lemma same_replicate (d : Z) l : Forall (λ s, s = d) l → l = replicate (length l) d.
Proof. induction 1 as [|x l -> Hl IH]; simpl; [done|]. by rewrite <- IH. Qed.

(** Encoding takes statuses from the front; there is room left in the vector
    only if it takes them all. *)
Lemma encode_spec l : fits l → l ≠ [] → ∃ c r, encode (chunk_of l) = Ok (c, chunk_of r) ∧
  l = expand c ++ r ∧ status_ok c ∧ fits r ∧ (length r <= 6)%nat ∧ ((7 <= length l)%nat ∨ r ≠ [] → full c).
Proof.
  intros [Hl Hf] Hne. unfold encode. destruct (hasDifferentTypes (chunk_of l)) eqn:Ht; cbn [negb].
  - assert ((length l <= 7)%nat ∨ ((length l <= 14)%nat ∧ Forall (λ s, s ≤ 1) l)) as Hf'.
    { destruct Hf as [?|[?|[_ ?%same_types]]]; [tauto | tauto | congruence]. }
    assert (1 <= length l)%nat by (destruct l; simpl; [done | lia]).
    unfold ck_len, maxOneBitCap, maxTwoBitCap. cbn [ck_deltas chunk_of].
    destruct (Z.eqb_spec (Z.of_nat (length l)) 14) as [H14|H14].
    + eexists _, []. split; [done|]. rewrite app_nil_r. split_and!; try done; [| by split; [constructor | left; simpl; lia] | simpl; lia].
      left. cbn [SymbolSize SymbolList]. split_and!; [done | | lia]. destruct Hf' as [?|[_ Hs]]; [lia|].
      eapply Forall_impl; [exact (proj2 (Forall_and _ _) (conj Hl Hs))|]. unfold is_status. simpl. lia.
    + change (Z.to_nat 7) with 7%nat. eexists _, (drop (Nat.min 7 (length l)) l). split; [done|]. cbn [expand SymbolList].
      rewrite take_drop. split; [done|]. split; [|split; [|split; [rewrite length_drop; lia|]]].
      * right. cbn [SymbolSize SymbolList]. split; [done|]. split; [by apply Forall_take | rewrite length_take; lia].
      * split; [by apply Forall_drop|]. left. rewrite length_drop. lia.
      * intros Hr _. cbn [SymbolList]. rewrite length_take. destruct Hr as [?|Hr]; [lia|].
        destruct (decide (7 <= length l)%nat); [lia|]. by rewrite drop_ge in Hr by lia.
  - apply same_types in Ht. destruct l as [|d l]; [done|]. cbn [ck_deltas chunk_of ck_first]. rewrite bind_Ok.
    assert (Z.of_nat (length (d :: l)) ≤ 8191) as Hn by (destruct Hf as [?|[[? _]|[? _]]]; lia).
    unfold ck_len. cbn [ck_deltas chunk_of]. rewrite u16_small by (unfold is_u16; lia).
    eexists _, []. split; [done|]. rewrite app_nil_r. apply Forall_cons in Hl as [Hd Hl]. cbn [hd] in Ht.
    split; [cbn [expand RunLength PacketStatusSymbol]; rewrite Nat2Z.id; by apply same_replicate|].
    split; [cbn [status_ok PacketStatusSymbol RunLength length] in *; split; [done | lia]|].
    split; [split; [constructor | left; simpl; lia] | split; [simpl; lia | done]].
Qed.

(** ** Feedback *)

(** The chunks that were written are full, the last one is as its statuses
    say. *)
Definition chunks_inv (c : chunk) (l : list PacketStatusChunk) : Prop :=
  c = chunk_of (ck_deltas c) ∧ fits (ck_deltas c) ∧ Forall (λ c, status_ok c ∧ full c) l.

(** The statuses a feedback holds. *)
Definition held (c : chunk) (l : list PacketStatusChunk) : list Z := flat_map expand l ++ ck_deltas c.

Lemma add_status_spec f s : chunks_inv (lastChunk f) (fb_chunks f) → is_status s →
  ∃ c l, add_status f s = Ok (set_chunks f c l) ∧ chunks_inv c l ∧
    held c l = held (lastChunk f) (fb_chunks f) ++ [s].
Proof.
  intros (Ec & Hf & Hl) Hs. set (d := ck_deltas (lastChunk f)) in *. unfold add_status, held. rewrite Ec.
  destruct (canAdd_spec d s Hf Hs) as (b & -> & Hb). rewrite bind_Ok. destruct b.
  - rewrite bind_Ok, Ec, ck_add_of. eexists _, _. split; [done|]. split; [by split_and!|]. simpl. by rewrite app_assoc.
  - assert (d ≠ []) as Hne by (by destruct d; simpl in Hb; [lia|]).
    destruct (encode_spec d Hf Hne) as (c & r & -> & Hd & Hok & Hr & Hlen & Hfull). rewrite !bind_Ok.
    cbn [set_chunks lastChunk fb_chunks fst snd]. rewrite ck_add_of.
    eexists _, _. split; [done|]. split.
    + split; [done|]. split; [|apply Forall_app; split; [done|]; constructor; [|done]; split; [done|]; apply Hfull; by left].
      destruct Hr as [Hr _]. split; [apply Forall_app; split; [done | by constructor]|].
      left. cbn [ck_deltas chunk_of]. rewrite length_app. simpl. lia.
    + cbn [ck_deltas chunk_of]. rewrite flat_map_app. simpl. rewrite app_nil_r, Hd. by rewrite <- !app_assoc.
Qed.

(** What a feedback under construction stands for. *)
Record fb_rel (f : feedback) (sts : list Z) (ds : list RecvDelta) (last next cnt : Z) : Prop := {
  fr_chunks : chunks_inv (lastChunk f) (fb_chunks f);
  fr_held : held (lastChunk f) (fb_chunks f) = sts;
  fr_deltas : fb_deltas f = ds;
  fr_last : lastTimestampUS f = last;
  fr_next : nextSequenceNumber f = u16 next;
  fr_count : sequenceNumberCount f = u16 cnt;
  fr_len : fb_len f = Z.of_nat (length (flat_map wire_delta ds));
}.

(** The fields that setBase and newFeedback set. *)
Definition fb_origin (f : feedback) : Z * Z * Z * Z * Z :=
  (fb_senderSSRC f, fb_mediaSSRC f, fb_count f, baseSequenceNumber f, refTimestamp64MS f).

Lemma rel_add_status f sts ds last next cnt s : fb_rel f sts ds last next cnt → is_status s →
  ∃ f', add_status f s = Ok f' ∧ fb_rel f' (sts ++ [s]) ds last next cnt ∧ fb_origin f' = fb_origin f.
Proof.
  intros [H1 H2 H3 H4 H5 H6 H7] Hs. destruct (add_status_spec f s H1 Hs) as (c & l & E & Hc & Hh).
  eexists. split; [exact E|]. split; [|done]. split; try done. cbn [set_chunks lastChunk fb_chunks]. by rewrite Hh, H2.
Qed.

Lemma rel_next f sts ds last next cnt : fb_rel f sts ds last next cnt →
  fb_rel (next_number f) sts ds last (next + 1) (cnt + 1).
Proof.
  intros [H1 H2 H3 H4 H5 H6 H7]. split; try done; cbn [next_number nextSequenceNumber sequenceNumberCount];
    rewrite ?H5, ?H6; unfold u16; apply Zplus_mod_idemp_l.
Qed.

Lemma rel_add_delta f sts ds last next cnt d t : fb_rel f sts ds last next cnt →
  fb_rel (add_delta f d (Z.of_nat (length (wire_delta d))) t) sts (ds ++ [d]) t next cnt.
Proof.
  intros [H1 H2 H3 H4 H5 H6 H7]. split; try done; cbn [add_delta fb_deltas fb_len]; [by rewrite H3|].
  rewrite H7, flat_map_app, length_app. simpl. rewrite app_nil_r. lia.
Qed.

Lemma skip_to_spec fuel : ∀ f sts ds last next cnt x, fb_rel f sts ds last next cnt →
  next ≤ x → x - next ≤ Z.of_nat fuel → x - next < 2 ^ 16 → ∃ f', skip_to fuel f (u16 x) = Ok f' ∧
  fb_rel f' (sts ++ replicate (Z.to_nat (x - next)) 0) ds last x (cnt + (x - next)) ∧ fb_origin f' = fb_origin f.
Proof.
  induction fuel as [|fuel IH]; intros f sts ds last next cnt x H Hx Hf Hm; cbn [skip_to]; rewrite (fr_next _ _ _ _ _ _ H).
  1,2: destruct (Z.eqb_spec (u16 next) (u16 x)) as [He|He].
  1,3: assert (x = next) as -> by (unfold u16 in He; Z.div_mod_to_equations; lia);
    exists f; rewrite Z.sub_diag; simpl; rewrite app_nil_r, Z.add_0_r; done.
  - assert (x = next) as -> by lia. done.
  - destruct (rel_add_status f sts ds last next cnt 0 H) as (f1 & E1 & H1 & O1); [unfold is_status; lia|].
    unfold TypeTCCPacketNotReceived. rewrite E1, bind_Ok. apply rel_next in H1.
    assert (x ≠ next) by (by intros ->).
    destruct (IH _ _ _ _ _ _ x H1) as (f2 & E2 & H2 & O2); [lia..|]. exists f2. split; [done|]. split; [|by rewrite O2].
    replace (Z.to_nat (x - next)) with (S (Z.to_nat (x - (next + 1)))) by lia. rewrite <- app_assoc in H2. simpl in H2.
    by replace (cnt + (x - next)) with (cnt + 1 + (x - (next + 1))) by lia.
Qed.

(** ** What the feedback should say *)

(** Times within the first 290000 years of the interceptor. *)
Definition is_time (t : Z) : Prop := 0 ≤ t < 2 ^ 63.

(** The delta of a packet that arrived at [t], [last] being the time of the one
    before. *)
Definition delta_at (last t : Z) : RecvDelta := MkDelta (delta_type (Z.quot (t - last) 250)) (t - last).

Fixpoint spec_status (next last : Z) (l : list pktInfo) : list Z :=
  match l with
  | [] => []
  | p :: l =>
      replicate (Z.to_nat (pi_sequenceNumber p - next)) 0 ++
      rd_Type (delta_at last (arrivalTime p)) :: spec_status (pi_sequenceNumber p + 1) (arrivalTime p) l
  end.

Fixpoint spec_deltas (last : Z) (l : list pktInfo) : list RecvDelta :=
  match l with
  | [] => []
  | p :: l => delta_at last (arrivalTime p) :: spec_deltas (arrivalTime p) l
  end.

(** The packets come in the order of their numbers, and the times between them
    fit 16 bits. *)
Fixpoint in_line (next last : Z) (l : list pktInfo) : Prop :=
  match l with
  | [] => True
  | p :: l =>
      next ≤ pi_sequenceNumber p < next + 2 ^ 16 ∧ is_time (arrivalTime p) ∧
      -32768 ≤ Z.quot (arrivalTime p - last) 250 ≤ 32767 ∧
      in_line (pi_sequenceNumber p + 1) (arrivalTime p) l
  end.

Definition last_time (last : Z) (l : list pktInfo) : Z := foldl (λ _ p, arrivalTime p) last l.
Definition last_number (next : Z) (l : list pktInfo) : Z := foldl (λ _ p, pi_sequenceNumber p + 1) next l.

Lemma delta_at_ok last t : -32768 ≤ Z.quot (t - last) 250 ≤ 32767 → delta_ok (delta_at last t) ∧
  is_status (rd_Type (delta_at last t)) ∧ is_delta (rd_Type (delta_at last t)) = true.
Proof.
  unfold delta_ok, delta_at, delta_type, is_status. cbn [rd_Type Delta]. intros H.
  destruct (_ && _) eqn:E; (split; [|split; [cbv; done | done]]);
    [left; split; [done|]; rewrite andb_true_iff in E; lia | by right].
Qed.

Lemma time_diff a b : is_time a → is_time b → to_int64 (a - b) = a - b.
Proof. unfold is_time. intros. apply to_int64_small. lia. Qed.

Lemma addReceived_spec f sts ds last next cnt x t : fb_rel f sts ds last next cnt → is_time last → is_time t →
  next ≤ x < next + 2 ^ 16 → -32768 ≤ Z.quot (t - last) 250 ≤ 32767 →
  ∃ f', addReceived f (u16 x) t = Ok (Some f') ∧ fb_origin f' = fb_origin f ∧
    fb_rel f' (sts ++ replicate (Z.to_nat (x - next)) 0 ++ [rd_Type (delta_at last t)]) (ds ++ [delta_at last t]) t
      (x + 1) (cnt + (x - next) + 1).
Proof.
  intros H Hlast Ht Hx Hq. unfold addReceived. rewrite (fr_last _ _ _ _ _ _ H), time_diff by done.
  rewrite (proj2 (Z.ltb_ge _ _)), (proj2 (Z.ltb_ge _ _)) by lia. cbn [orb].
  destruct (skip_to_spec skip_fuel _ _ _ _ _ _ x H) as (f1 & E1 & H1 & O1); [lia | unfold skip_fuel; lia | lia |].
  rewrite E1, bind_Ok. destruct (delta_at_ok last t Hq) as (Hd & Hs & _).
  change (delta_type (Z.quot (t - last) 250)) with (rd_Type (delta_at last t)).
  destruct (rel_add_status _ _ _ _ _ _ _ H1 Hs) as (f2 & E2 & H2 & O2). rewrite E2, bind_Ok.
  eexists. split; [done|]. split; [cbn; rewrite <- O1, <- O2; done|]. rewrite app_assoc.
  apply rel_next. replace (if _ =? _ then 1 else 2) with (Z.of_nat (length (wire_delta (delta_at last t)))).
  - exact (rel_add_delta _ _ _ _ _ _ _ _ H2).
  - unfold wire_delta. by destruct (rd_Type _ =? _).
Qed.

Lemma build_loop_spec sender media pkts cnt0 l : ∀ f sts ds last next cnt,
  fb_rel f sts ds last next cnt → is_time last → in_line next last l →
  ∃ f', build_loop sender media l f cnt0 pkts = Ok (f', cnt0, pkts) ∧ fb_origin f' = fb_origin f ∧
    fb_rel f' (sts ++ spec_status next last l) (ds ++ spec_deltas last l) (last_time last l) (last_number next l)
      (cnt + (last_number next l - next)).
Proof.
  induction l as [|p l IH]; intros f sts ds last next cnt H Hlast Hl; cbn [build_loop spec_status spec_deltas in_line] in *.
  - exists f. rewrite !app_nil_r. unfold last_time, last_number. simpl. by rewrite Z.sub_diag, Z.add_0_r.
  - destruct Hl as (Hx & Ht & Hq & Hl).
    destruct (addReceived_spec _ _ _ _ _ _ _ _ H Hlast Ht Hx Hq) as (f1 & E1 & O1 & H1).
    change 0xffff with (Z.ones 16). rewrite Z.land_ones by lia. fold (u16 (pi_sequenceNumber p)).
    rewrite (u16_small (u16 _)) by apply u16_range. rewrite E1, bind_Ok.
    destruct (IH _ _ _ _ _ _ H1 Ht Hl) as (f2 & E2 & O2 & H2). exists f2. split; [done|]. split; [congruence|].
    rewrite <- !app_assoc in H2. simpl in H2. cbn [last_time last_number foldl]. fold (last_time (arrivalTime p) l).
    fold (last_number (pi_sequenceNumber p + 1) l).
    by replace (cnt + (last_number (pi_sequenceNumber p + 1) l - next)) with
      (cnt + (pi_sequenceNumber p - next) + 1 + (last_number (pi_sequenceNumber p + 1) l - (pi_sequenceNumber p + 1))) by lia.
Qed.

(** ** The packet *)

Lemma packed_snoc l c : Forall (λ c, status_ok c ∧ full c) l → status_ok c → packed (l ++ [c]).
Proof. induction 1 as [|x l [Hx Hf] Hl IH]; simpl; [done|]. intros Hc. split_and!; auto. Qed.

Lemma full_packed l : Forall (λ c, status_ok c ∧ full c) l → packed l.
Proof. induction 1 as [|x l [Hx Hf] Hl IH]; simpl; auto. Qed.

(** Flushing ends, and writes what is left in the chunk. *)
Lemma flush_spec fuel : ∀ s l, fits s → (length s <= fuel)%nat → Forall (λ c, status_ok c ∧ full c) l →
  ∃ l', flush fuel (chunk_of s) l = Ok l' ∧ packed l' ∧ flat_map expand l' = flat_map expand l ++ s.
Proof.
  induction fuel as [|fuel IH]; intros s l Hs Hf Hl; destruct (decide (s = [])) as [->|Hne];
    try (exists l; split; [done|]; split; [by apply full_packed | by rewrite app_nil_r]).
  - destruct s; [done | simpl in Hf; lia].
  - assert (flush (S fuel) (chunk_of s) l = (e ← encode (chunk_of s); flush fuel e.2 (l ++ [e.1]))) as -> by (by destruct s).
    destruct (encode_spec s Hs Hne) as (c & r & -> & Hd & Hok & Hr & _ & Hfull). rewrite bind_Ok. cbn [fst snd].
    pose proof (length_expand c Hok) as Hc. pose proof (f_equal length Hd) as Hlen. rewrite length_app in Hlen.
    destruct (decide (r = [])) as [->|Hr'].
    + exists (l ++ [c]). split; [by destruct fuel|]. split; [by apply packed_snoc|].
      rewrite flat_map_app, Hd. simpl. by rewrite !app_nil_r.
    + destruct (IH r (l ++ [c]) Hr) as (l' & E & Hp & He); [lia | apply Forall_app; split; [done|]; constructor; [|done]; auto |].
      exists l'. split; [done|]. split; [done|]. rewrite He, flat_map_app, Hd. simpl. by rewrite app_nil_r, <- app_assoc.
Qed.

Lemma chunks_few l : packed l → (length l <= length (flat_map expand l))%nat.
Proof.
  induction l as [|c l IH]; simpl; [done|]. intros (Hc%length_expand & _ & Hl%IH). rewrite length_app. lia.
Qed.

(** The deltas go with the statuses that have one. *)
Lemma spec_types l : ∀ next last, in_line next last l →
  map rd_Type (spec_deltas last l) = deltas_of (spec_status next last l) ∧ Forall delta_ok (spec_deltas last l).
Proof.
  induction l as [|p l IH]; intros next last Hl; cbn [spec_deltas spec_status in_line map] in *; [done|].
  destruct Hl as (_ & _ & (Hd & _ & Hi)%delta_at_ok & Hl). destruct (IH _ _ Hl) as [E Hf]. split; [|by constructor].
  unfold deltas_of in *. rewrite filter_app. fold (deltas_of (replicate (Z.to_nat (pi_sequenceNumber p - next)) 0)).
  rewrite deltas_of_zeros, filter_cons_True by done. simpl. by rewrite E.
Qed.

Lemma spec_length l : ∀ next last, in_line next last l →
  Z.of_nat (length (spec_status next last l)) = last_number next l - next ∧ next ≤ last_number next l ∧
  (length (spec_deltas last l) <= length (spec_status next last l))%nat.
Proof.
  induction l as [|p l IH]; intros next last Hl; cbn [spec_deltas spec_status in_line last_number foldl] in *;
    [simpl; lia|]. destruct Hl as (Hx & _ & _ & Hl). destruct (IH _ _ Hl) as (H1 & H2 & H3).
  fold (last_number (pi_sequenceNumber p + 1) l). rewrite length_app, length_replicate. cbn [length]. lia.
Qed.

Lemma wire_deltas_few l : Forall delta_ok l → (length (flat_map wire_delta l) <= 2 * length l)%nat.
Proof.
  induction 1 as [|d l [_ Hd]%RecvDelta_Marshal_wire Hl IH]; simpl; [done|]. rewrite length_app.
  destruct (_ =? _) in Hd; lia.
Qed.

Definition origin_ok (f : feedback) : Prop :=
  ssrcs_ok (fb_senderSSRC f) (fb_mediaSSRC f) ∧ is_byte (fb_count f) ∧ is_u16 (baseSequenceNumber f).

(** The header that is computed while the packet is made is the one of its
    bytes. *)
Lemma tcc_header_at t (n : Z) : n = Z.of_nat (tcc_size t) → Z.of_nat (tcc_size t) < 2 ^ 16 - 4 →
  tcc_header t = MkHeader (negb (n mod 4 =? 0)) FormatTCC TypeTransportSpecificFeedback
    (u16 ((if n mod 4 =? 0 then n else n + (4 - n mod 4)) / 4 - 1)).
Proof.
  intros -> Hs. destruct (tcc_pad_spec t) as (k & Hk & Hp & H5 & Hm). unfold tcc_header.
  rewrite <- (Nat2Z.inj_mod _ 4). rewrite Hk, (Nat.mul_comm 4 k), Nat.div_mul by lia.
  pose proof (Nat.mod_upper_bound (tcc_size t) 4 ltac:(lia)) as Hr. pose proof (Nat.div_mod_eq (tcc_size t) 4) as Hdm.
  destruct (Nat.eqb_spec (tcc_size t mod 4) 0) as [Hz|Hz].
  - rewrite Hz. change (Z.of_nat 0 =? 0) with true. cbn [negb]. f_equal.
    replace (Z.of_nat (tcc_size t)) with (Z.of_nat k * 4) by lia. rewrite Z.div_mul, u16_small by (unfold is_u16; lia). lia.
  - rewrite (proj2 (Z.eqb_neq _ _)) by lia. cbn [negb]. f_equal. destruct Hm as [_ ->].
    replace (Z.of_nat (tcc_size t) + (4 - Z.of_nat (tcc_size t mod 4))) with (Z.of_nat (S (tcc_size t / 4)) * 4) by lia.
    rewrite Z.div_mul, u16_small by (unfold is_u16; lia). lia.
Qed.

Lemma getRTCP_spec f sts ds last next : fb_rel f sts ds last next (Z.of_nat (length sts)) → origin_ok f →
  Z.of_nat (length sts) ≤ 16000 → map rd_Type ds = deltas_of sts → Forall delta_ok ds → ds ≠ [] →
  (length ds <= length sts)%nat →
  ∃ t, getRTCP f = Ok t ∧ tcc_ok t ∧ tcc_statuses t = sts ∧ RecvDeltas t = ds ∧
    BaseSequenceNumber t = baseSequenceNumber f ∧ PacketStatusCount t = Z.of_nat (length sts) ∧
    ReferenceTime t = u32 (refTimestamp64MS f) ∧ tcc_SenderSSRC t = fb_senderSSRC f ∧ tcc_MediaSSRC t = fb_mediaSSRC f ∧
    FbPktCount t = fb_count f.
Proof.
  intros [(Ec & Hf & Hl) H2 H3 H4 H5 H6 H7] (Hss & Hcnt & Hbase) Hn Hty Hds Hne Hfew. unfold getRTCP.
  replace (flush _ _ _) with (flush (length (ck_deltas (lastChunk f))) (chunk_of (ck_deltas (lastChunk f))) (fb_chunks f)) by (by rewrite <- Ec).
  destruct (flush_spec (length (ck_deltas (lastChunk f))) _ _ Hf ltac:(lia) Hl) as (l & -> & Hp & He). rewrite bind_Ok.
  fold (held (lastChunk f) (fb_chunks f)) in He. rewrite H2 in He.
  pose proof (chunks_few l Hp) as Hc. rewrite He in Hc. pose proof (wire_deltas_few ds Hds) as Hw.
  eexists. split; [done|]. set (t := MkTCC _ _ _ _ _ _ _ _ _).
  assert (Z.of_nat (tcc_size t) < 2 ^ 16 - 4) as Hsize by (unfold tcc_size, t; cbn [PacketChunks RecvDeltas]; rewrite H3; lia).
  assert (sequenceNumberCount f = Z.of_nat (length sts)) as Hcount by (rewrite H6, u16_small; [done | unfold is_u16; lia]).
  split; [|unfold tcc_statuses; cbn [t PacketChunks]; by split_and!]. split; try done.
  - rewrite (tcc_header_at t (20 + Z.of_nat (length l) * 2 + fb_len f)); [done | | done].
    unfold tcc_size, t. cbn [PacketChunks RecvDeltas]. rewrite H3, H7. lia.
  - cbn [t PacketStatusCount]. unfold tcc_statuses. cbn [t PacketChunks]. by rewrite He.
  - cbn [t PacketStatusCount]. lia.
  - apply u32_range.
  - cbn [t RecvDeltas]. by rewrite H3.
  - cbn [t RecvDeltas]. unfold tcc_statuses. cbn [t PacketChunks]. by rewrite H3, He.
  - cbn [t RecvDeltas]. by rewrite H3.
Qed.

(** ** The recorder *)

Definition before (p q : pktInfo) : Prop := pi_sequenceNumber p < pi_sequenceNumber q.

Lemma sorted_middle l1 l2 e : StronglySorted before (l1 ++ l2) →
  (∀ p, p ∈ l1 → before p e) → (∀ p, p ∈ l2 → before e p) → StronglySorted before (l1 ++ e :: l2).
Proof.
  intros (H12 & H1 & H2)%StronglySorted_app Hl Hr. apply StronglySorted_app. split_and!; [| done |].
  - intros p q Hp [->|Hq]%elem_of_cons; auto.
  - constructor; [done|]. by apply Forall_forall.
Qed.

(** The element takes the place of the one with its number, if there is one,
    and the order is kept. *)
Lemma insert_loop_spec e l1 : ∀ l2, StronglySorted before (l1 ++ l2) → (∀ p, p ∈ l2 → before e p) →
  StronglySorted before (insert_loop (length l1) (l1 ++ l2) e) ∧
  ∀ p, p ∈ insert_loop (length l1) (l1 ++ l2) e ↔
    p = e ∨ (p ∈ l1 ++ l2 ∧ pi_sequenceNumber p ≠ pi_sequenceNumber e).
Proof.
  induction l1 as [|q l1 IH] using rev_ind; intros l2 Hs He.
  - split; [apply (sorted_middle []); [done | by intros p ?%elem_of_nil | done]|]. intros p. specialize (He p). unfold before in He. cbn [length insert_loop app].
    rewrite elem_of_cons. intuition lia.
  - rewrite length_app, Nat.add_1_r. cbn [insert_loop]. rewrite <- app_assoc in *. cbn [app] in *.
    rewrite list_lookup_middle by done. pose proof Hs as (H12 & H1 & H2)%StronglySorted_app.
    assert (∀ p, p ∈ l1 → before p q) as Hlt by (intros p Hp; apply H12; [done | by left]).
    destruct (Z.ltb_spec (pi_sequenceNumber q) (pi_sequenceNumber e)).
    + replace (l1 ++ q :: l2) with ((l1 ++ [q]) ++ l2) by (by rewrite <- app_assoc).
      rewrite take_app_length', drop_app_length' by (rewrite length_app; simpl; lia).
      assert (∀ p, p ∈ l1 ++ [q] → before p e) as Hpe.
      { intros p [Hp| ->%list_elem_of_singleton]%elem_of_app; [|done]. specialize (Hlt p Hp). unfold before in *. lia. }
      split; [apply sorted_middle; [by rewrite <- app_assoc | done..]|].
      intros p. specialize (Hpe p). specialize (He p). unfold before in *.
      rewrite (elem_of_app _ (e :: l2)), elem_of_cons, (elem_of_app _ l2). intuition lia.
    + destruct (Z.eqb_spec (pi_sequenceNumber q) (pi_sequenceNumber e)).
      * rewrite insert_app_r_alt, Nat.sub_diag by lia. cbn [insert list_insert]. split.
        -- apply sorted_middle; [| intros p Hp; specialize (Hlt p Hp); unfold before in *; lia | done].
           apply StronglySorted_app. split_and!; [intros; apply H12; [done | by right] | done | by inversion H2].
        -- intros p. specialize (Hlt p). specialize (He p). unfold before in *. rewrite !elem_of_app, !elem_of_cons.
           assert (p = q → pi_sequenceNumber p = pi_sequenceNumber q) by (by intros ->). intuition lia.
      * apply (IH (q :: l2)); [done|]. intros p [->|Hp]%elem_of_cons; [unfold before; lia | auto].
Qed.

(** The last arrival of every number, the numbers being counted on past 2^16. *)
Definition latest (arrivals : list (Z * Z)) : gmap Z Z := foldl (λ m a, <[a.1 := a.2]> m) ∅ arrivals.

(** The next number to arrive after [x] is recognized: it is of the same cycle,
    or the first ones of the next cycle follow the last ones of this. *)
Definition follows (x y : Z) : bool :=
  (0 <=? y) && (y <? 2 ^ 32) &&
  let wraps := (y mod 2 ^ 16 <? 0x0fff) && (0xf000 <? x mod 2 ^ 16) in
  (y / 2 ^ 16 =? x / 2 ^ 16 + if wraps then 1 else 0).

Fixpoint recognized (x : Z) (arrivals : list (Z * Z)) : bool :=
  match arrivals with
  | [] => true
  | (y, _) :: l => follows x y && recognized y l
  end.

(** Recording the arrivals, each with its 16-bit number. *)
Definition record_all (r : Recorder) (ssrc : Z) (arrivals : list (Z * Z)) : Recorder :=
  foldl (λ r a, Record_ r ssrc (u16 a.1) a.2) r arrivals.

Definition sorted_listing (m : gmap Z Z) (l : list pktInfo) : Prop :=
  StronglySorted before l ∧ ∀ p, p ∈ l ↔ m !! pi_sequenceNumber p = Some (arrivalTime p).

Record rec_rel (r : Recorder) (x : Z) (m : gmap Z Z) : Prop := {
  rr_listing : sorted_listing m (receivedPackets r);
  rr_cycles : cycles r = x / 2 ^ 16 * 2 ^ 16;
  rr_last : lastSequenceNumber r = u16 x;
}.

Lemma insertSorted_listing m l e : sorted_listing m l →
  sorted_listing (<[pi_sequenceNumber e := arrivalTime e]> m) (insertSorted l e).
Proof.
  intros [Hs Hm]. unfold insertSorted. destruct (insert_loop_spec e l []) as [H1 H2]; rewrite ?app_nil_r in *;
    [done | by intros p ?%elem_of_nil |]. split; [done|]. intros p. rewrite H2, Hm.
  destruct (decide (pi_sequenceNumber p = pi_sequenceNumber e)) as [Ee|Ee].
  - rewrite Ee, lookup_insert_eq. destruct p as [px pt], e as [ex et]. simpl in *. subst.
    split; [intros [[=]|[_ ?]]; congruence | intros [= ->]; by left].
  - rewrite lookup_insert_ne by done. split; [intros [->|[? _]]; done | tauto].
Qed.

Lemma Record_rel r x m ssrc y t : rec_rel r x m → follows x y = true → 0 ≤ x < 2 ^ 32 →
  rec_rel (Record_ r ssrc (u16 y) t) y (<[y := t]> m) ∧ 0 ≤ y < 2 ^ 32.
Proof.
  intros [Hl Hc Hn] Hf Hx. unfold follows in Hf. rewrite !andb_true_iff in Hf. destruct Hf as [[Hy0 Hy1] Hf].
  assert (0 ≤ y < 2 ^ 32) as Hy by lia. split; [|done]. apply Z.eqb_eq in Hf.
  unfold Record_. change 0xffff with (Z.ones 16). rewrite Hn, Z.land_ones, (Z.mod_small (u16 x)) by (try apply u16_range; lia).
  fold (u16 x) (u16 y) in Hf. set (wraps := (u16 y <? 0x0fff) && (0xf000 <? u16 x)) in *.
  assert ((if wraps then u32 (cycles r + Z.shiftl 1 16) else cycles r) = y / 2 ^ 16 * 2 ^ 16) as ->.
  { rewrite Hc, Hf. destruct wraps; [|lia]. change (Z.shiftl 1 16) with (2 ^ 16).
    rewrite u32_small; [lia|]. unfold is_u32. Z.div_mod_to_equations. lia. }
  assert (Z.lor (y / 2 ^ 16 * 2 ^ 16) (u16 y) = y) as Ey.
  { rewrite Z.lor_comm, <- Z.shiftl_mul_pow2, lor_shiftl_add by (try apply u16_range; lia). unfold u16.
    Z.div_mod_to_equations. lia. }
  rewrite Ey. split; [exact (insertSorted_listing m (receivedPackets r) (MkPktInfo y t) Hl) | done | done].
Qed.

Lemma record_all_rel ssrc l : ∀ r x m, rec_rel r x m → 0 ≤ x < 2 ^ 32 → recognized x l = true →
  ∃ x', rec_rel (record_all r ssrc l) x' (foldl (λ m a, <[a.1 := a.2]> m) m l) ∧
    rec_senderSSRC (record_all r ssrc l) = rec_senderSSRC r ∧ fbPktCnt (record_all r ssrc l) = fbPktCnt r ∧
    (l ≠ [] → rec_mediaSSRC (record_all r ssrc l) = ssrc).
Proof.
  induction l as [|[y t] l IH]; intros r x m Hr Hx Hl; [by exists x|].
  cbn [recognized] in Hl. apply andb_true_iff in Hl as [Hf Hl].
  destruct (Record_rel r x m ssrc y t Hr Hf Hx) as [Hr' Hy]. destruct (IH _ _ _ Hr' Hy Hl) as (x' & H & H1 & H2 & H3).
  exists x'. split; [exact H|]. split; [exact H1|]. split; [exact H2|]. intros _. destruct l as [|a l]; [done | by apply H3].
Qed.

(** The listing of a map is unique. *)
Lemma sorted_NoDup l : StronglySorted before l → NoDup l.
Proof.
  induction 1 as [|p l Hs IH Hp]; constructor; [|done]. intros Hin. rewrite Forall_forall in Hp. specialize (Hp p Hin).
  unfold before in Hp. lia.
Qed.

Lemma sorted_listing_unique m l1 l2 : sorted_listing m l1 → sorted_listing m l2 → l1 = l2.
Proof.
  intros [H1 E1] [H2 E2]. eapply StronglySorted_unique_strong; [| exact H1 | exact H2 |].
  - intros p q _ _ Hpq Hqp. unfold before in *. lia.
  - apply NoDup_Permutation; [by apply sorted_NoDup..|]. intros p. by rewrite E1, E2.
Qed.

(** ** Reading the feedback *)

(** The numbers a list of statuses and deltas reports, and the times. *)
Fixpoint report_of (seq time : Z) (sts : list Z) (ds : list RecvDelta) : list (Z * Z) :=
  match sts with
  | [] => []
  | s :: sts =>
      if is_delta s then
        match ds with
        | [] => []
        | d :: ds => (u16 seq, time + Delta d) :: report_of (seq + 1) (time + Delta d) sts ds
        end
      else report_of (seq + 1) time sts ds
  end.

Definition reported (t : TransportLayerCC) : list (Z * Z) :=
  report_of (BaseSequenceNumber t) (ReferenceTime t * 64000)
    (take (Z.to_nat (PacketStatusCount t)) (tcc_statuses t)) (RecvDeltas t).

(** The times that are reported, the deltas being cut to multiples of 250
    microseconds. *)
Fixpoint spec_report (last acc : Z) (l : list pktInfo) : list (Z * Z) :=
  match l with
  | [] => []
  | p :: l =>
      let acc := acc + 250 * Z.quot (arrivalTime p - last) 250 in
      (u16 (pi_sequenceNumber p), acc) :: spec_report (arrivalTime p) acc l
  end.

Lemma report_of_u16 sts : ∀ a b time ds, u16 a = u16 b → report_of a time sts ds = report_of b time sts ds.
Proof.
  induction sts as [|s sts IH]; intros a b time ds E; cbn [report_of]; [done|].
  assert (u16 (a + 1) = u16 (b + 1)) as E'.
  { unfold u16 in *. by rewrite <- (Zplus_mod_idemp_l a), E, Zplus_mod_idemp_l. }
  destruct (is_delta s), ds; rewrite ?E, ?(IH _ _ _ _ E'); done.
Qed.

Lemma report_of_zeros n : ∀ seq time sts ds,
  report_of seq time (replicate n 0 ++ sts) ds = report_of (seq + Z.of_nat n) time sts ds.
Proof.
  induction n as [|n IH]; intros seq time sts ds; simpl; [by rewrite Z.add_0_r|]. rewrite IH. f_equal. lia.
Qed.

Lemma report_of_spec l : ∀ next last acc, in_line next last l →
  report_of next acc (spec_status next last l) (map delta_read (spec_deltas last l)) = spec_report last acc l.
Proof.
  induction l as [|p l IH]; intros next last acc Hl; cbn [in_line spec_status spec_deltas spec_report map] in *; [done|].
  destruct Hl as (Hx & _ & (_ & _ & Hd)%delta_at_ok & Hl). rewrite report_of_zeros. cbn [report_of]. rewrite Hd.
  replace (next + Z.of_nat (Z.to_nat (pi_sequenceNumber p - next))) with (pi_sequenceNumber p) by lia.
  cbn [delta_read delta_at Delta]. by rewrite IH.
Qed.

(** Every packet is reported, at a time that may be off by less than 250
    microseconds for each packet so far. *)
Lemma spec_report_drift l : ∀ last acc i s tm, spec_report last acc l !! i = Some (s, tm) →
  ∃ p, l !! i = Some p ∧ s = u16 (pi_sequenceNumber p) ∧ Z.abs (tm - arrivalTime p) ≤ Z.abs (acc - last) + 249 * Z.of_nat (S i).
Proof.
  induction l as [|p l IH]; intros last acc i s tm H; cbn [spec_report] in H; [done|].
  pose proof (Z.quot_rem' (arrivalTime p - last) 250) as Hq.
  pose proof (Z.rem_bound_abs (arrivalTime p - last) 250 ltac:(lia)) as Hr.
  destruct i as [|i]; simpl in H.
  - injection H as <- <-. exists p. split_and!; [done..|]. lia.
  - apply IH in H as (q & Hq' & Hs & Hb). exists q. split_and!; [done..|]. lia.
Qed.

Lemma length_spec_report l : ∀ last acc, length (spec_report last acc l) = length l.
Proof. induction l as [|p l IH]; intros last acc; simpl; [done|]. by rewrite IH. Qed.

(** What is read has the same statuses, and zeros behind them. *)
Lemma expand_read l : packed l → ∃ n, flat_map expand (map status_read l) = flat_map expand l ++ replicate n 0.
Proof.
  induction l as [|c l IH]; simpl; [by exists 0%nat|]. intros (Hc & Hf & (n & ->)%IH).
  destruct c as [r|v]; simpl; [exists n; by rewrite app_assoc|].
  destruct l as [|c l].
  - cbn [flat_map app]. rewrite <- app_assoc, <- replicate_add, app_nil_r. by eexists.
  - exists n. replace ((if (SymbolSize v =? TypeTCCSymbolSizeOneBit)%Z then 14 else 7) - length (SymbolList v))%nat with 0%nat;
      [by rewrite app_nil_r, <- app_assoc|].
    destruct Hc as [(-> & _ & ->)|(Hs & _ & Hn)]; [done|]. rewrite (Hf ltac:(done) Hs), Hs. done.
Qed.

Lemma reported_read t : tcc_ok t → reported (tcc_read t) =
  report_of (BaseSequenceNumber t) (ReferenceTime t mod 2 ^ 24 * 64000) (tcc_statuses t) (map delta_read (RecvDeltas t)).
Proof.
  intros H. unfold reported, tcc_statuses. cbn [tcc_read PacketChunks BaseSequenceNumber ReferenceTime PacketStatusCount RecvDeltas].
  destruct (expand_read _ (to_chunks t H)) as [n ->]. fold (tcc_statuses t). rewrite (to_count t H), Nat2Z.id.
  by rewrite take_app_length.
Qed.

(** ** The main theorem *)

(** Each packet came within 8.19 seconds of the one before it in the list. *)
Fixpoint close (last : Z) (l : list pktInfo) : bool :=
  match l with
  | [] => true
  | p :: l => (Z.abs (arrivalTime p - last) <? 8192000) && close (arrivalTime p) l
  end.

(** The packets of one feedback: at least two, of not more than 16000 numbers,
    within the twelve days that 24 bits can count, and close in time. *)
Definition one_feedback (l : list pktInfo) : Prop :=
  match l with
  | first :: (_ :: _) as rest =>
      arrivalTime first < 64000 * 2 ^ 24 ∧ Forall (λ p, is_time (arrivalTime p)) l ∧
      Forall (λ p, pi_sequenceNumber p < pi_sequenceNumber first + 16000) l ∧ close (arrivalTime first) (tail l) = true
  | _ => False
  end.

Lemma quot_16bit d : Z.abs d < 8192000 → -32768 ≤ Z.quot d 250 ≤ 32767.
Proof.
  intros H. pose proof (Z.quot_rem' d 250). pose proof (Z.rem_bound_abs d 250 ltac:(lia)).
  pose proof (Z.rem_sign_mul d 250 ltac:(lia)). nia.
Qed.

Lemma in_line_sorted l : ∀ next last, StronglySorted before l → Forall (λ p, is_time (arrivalTime p)) l →
  Forall (λ p, next ≤ pi_sequenceNumber p < next + 2 ^ 16) l → close last l = true → in_line next last l.
Proof.
  induction l as [|p l IH]; intros next last Hs Ht Hn Hc; cbn [in_line close] in *; [done|].
  apply StronglySorted_inv in Hs as [Hs Hp]. apply Forall_cons in Ht as [Ht1 Ht], Hn as [Hn1 Hn].
  apply andb_true_iff in Hc as [Hc1 Hc]. split_and!; [lia | lia | done | apply quot_16bit; lia.. |].
  apply IH; [done | done | | done]. rewrite Forall_forall in *. intros q Hq.
  specialize (Hp q Hq). specialize (Hn q Hq). unfold before in Hp. simpl in *. lia.
Qed.

Lemma last_number_small l : ∀ next n, Forall (λ p, pi_sequenceNumber p < n) l → next ≤ n → last_number next l ≤ n.
Proof.
  induction l as [|p l IH]; intros next n H Hn; cbn [last_number foldl]; [done|].
  apply Forall_cons in H as [Hp H]. apply (IH (pi_sequenceNumber p + 1)); [done | lia].
Qed.

Definition recorder_ok (r : Recorder) : Prop :=
  ssrcs_ok (rec_senderSSRC r) (rec_mediaSSRC r) ∧ is_byte (fbPktCnt r).

(** The time of the base, a multiple of 64 milliseconds. *)
Definition base_time (t : Z) : Z := Z.quot t 64000 * 64000.

Lemma base_time_spec t : is_time t → is_time (base_time t) ∧ 0 ≤ t - base_time t < 64000.
Proof.
  unfold is_time, base_time. intros H. pose proof (Z.quot_rem' t 64000). pose proof (Z.rem_bound_pos t 64000 ltac:(lia) ltac:(lia)). lia.
Qed.

Lemma build_spec r first l : receivedPackets r = first :: l → StronglySorted before (first :: l) → one_feedback (first :: l) →
  recorder_ok r → ∃ t, BuildFeedbackPacket r = Ok (next_feedback r [] (fbPktCnt r + 1), [t]) ∧ tcc_ok t ∧
    tcc_SenderSSRC t = rec_senderSSRC r ∧ tcc_MediaSSRC t = rec_mediaSSRC r ∧ FbPktCount t = fbPktCnt r ∧
    reported (tcc_read t) = spec_report (base_time (arrivalTime first)) (base_time (arrivalTime first)) (first :: l).
Proof.
  intros El Hs H1 [Hss Hcnt]. destruct l as [|second l']; [done|]. destruct H1 as (Hday & Ht & Hn & Hc).
  set (l := first :: second :: l') in *. set (x := pi_sequenceNumber first) in *. set (t0 := arrivalTime first) in *.
  assert (is_time t0) as Ht0 by (by apply Forall_cons in Ht as [? _]). destruct (base_time_spec t0 Ht0) as [Hb Hd].
  assert (in_line x (base_time t0) l) as Hl.
  { apply in_line_sorted; [done | done | |].
    - pose proof Hs as [_ Hp]%StronglySorted_inv. rewrite Forall_forall in *. intros p Hp'. specialize (Hn p Hp').
      apply elem_of_cons in Hp' as [->|Hp']; [lia|]. specialize (Hp p Hp'). unfold before in Hp. simpl in *. lia.
    - cbn [l close]. rewrite (proj2 (Z.ltb_lt _ _)) by lia. exact Hc. }
  unfold BuildFeedbackPacket. rewrite El. fold l. cbn [l]. fold l.
  change 0xffff with (Z.ones 16). rewrite Z.land_ones by lia. fold x (u16 x). rewrite (u16_small (u16 x)) by apply u16_range.
  set (f0 := setBase _ _ _).
  assert (fb_rel f0 [] [] (base_time t0) x 0) as H0.
  { split; try done; [by split_and!; [|split; [constructor | left; simpl; lia]|]|].
    cbn [f0 setBase lastTimestampUS]. apply to_int64_small. fold (base_time t0). unfold is_time in Hb. lia. }
  destruct (build_loop_spec (rec_senderSSRC r) (rec_mediaSSRC r) [] (u8 (fbPktCnt r + 1)) l f0 _ _ _ _ _ H0 Hb Hl)
    as (f & -> & Of & Hf). rewrite bind_Ok. cbn [app fst snd] in *.
  destruct (spec_length l _ _ Hl) as (Hlen & _ & Hfew). destruct (spec_types l _ _ Hl) as [Hty Hds].
  rewrite Z.add_0_l, <- Hlen in Hf. injection Of as O1 O2 O3 O4 O5.
  destruct (getRTCP_spec f _ _ _ _ Hf) as (t & -> & Hok & Hst & Hd' & Hbase & _ & Href & Hs1 & Hs2 & Hfb); try done.
  { split_and!; rewrite ?O1, ?O2, ?O3, ?O4; try done. apply u16_range. }
  { rewrite Hlen. pose proof (last_number_small l x (x + 16000) Hn). lia. }
  rewrite bind_Ok. exists t. split; [unfold next_feedback, u8; by rewrite Zmod_mod|]. split; [done|]. rewrite Hs1, Hs2, Hfb, O1, O2, O3. split_and!; [done..|].
  rewrite (reported_read t Hok), Hbase, Href, O4, O5, Hst, Hd'. fold t0.
  assert (u32 (Z.quot t0 64000) mod 2 ^ 24 * 64000 = base_time t0) as ->.
  { unfold base_time in *. assert (0 ≤ Z.quot t0 64000 < 2 ^ 24) by (unfold is_time in Ht0; lia).
    rewrite u32_small, Z.mod_small by (unfold is_u32; lia). done. }
  rewrite (report_of_u16 _ (u16 x) x) by (unfold u16; apply Zmod_mod). by apply report_of_spec.
Qed.

(** The feedback made of the packets that were recorded. *)
Lemma record_build sender ssrc arrivals l :
  is_u32 sender → is_u32 ssrc → recognized 0 arrivals = true → sorted_listing (latest arrivals) l → one_feedback l →
  let r := record_all (NewRecorder sender) ssrc arrivals in
  ∃ t, BuildFeedbackPacket r = Ok (next_feedback r [] (fbPktCnt r + 1), [t]) ∧ receivedPackets r = l ∧ tcc_ok t ∧
    tcc_SenderSSRC t = sender ∧ tcc_MediaSSRC t = ssrc ∧
    map fst (reported (tcc_read t)) = map (λ p, u16 (pi_sequenceNumber p)) l ∧
    ∀ i p tm, l !! i = Some p → reported (tcc_read t) !! i = Some (u16 (pi_sequenceNumber p), tm) →
      Z.abs (tm - arrivalTime p) ≤ 249 * Z.of_nat (S i).
Proof.
  intros Hs Hm Ha Hl H1 r.
  assert (rec_rel (NewRecorder sender) 0 ∅) as Hr0.
  { split; [|done..]. split; [constructor|]. intros p. split; [by intros ?%elem_of_nil | by rewrite lookup_empty]. }
  destruct (record_all_rel ssrc arrivals _ _ _ Hr0 ltac:(lia) Ha) as (x & Hr & E1 & E2 & E3). fold r in Hr, E1, E2, E3.
  pose proof (sorted_listing_unique _ _ _ (rr_listing _ _ _ Hr) Hl) as El.
  destruct l as [|first l]; [done|]. destruct Hl as [Hl Hel].
  assert (rec_mediaSSRC r = ssrc) as Em.
  { apply E3. intros ->. specialize (Hel first). destruct Hel as [Hel _]. specialize (Hel ltac:(by left)). done. }
  destruct (build_spec r first l El Hl H1) as (t & E & Hok & H2 & H3 & _ & Hrep).
  { unfold recorder_ok. rewrite Em, E1, E2. by split_and!. }
  exists t. rewrite H2, H3, E1, Em. split_and!; [done..| |].
  - rewrite Hrep. apply list_eq. intros i. rewrite !list_lookup_fmap. 
    destruct (spec_report _ _ _ !! i) as [[s tm]|] eqn:Es.
    + apply spec_report_drift in Es as (p & -> & -> & _). done.
    + apply lookup_ge_None in Es. rewrite length_spec_report in Es. by rewrite (proj2 (lookup_ge_None _ _) Es).
  - intros i p tm Hp Hi. rewrite Hrep in Hi. apply spec_report_drift in Hi as (p' & Hp' & _ & Hd). simplify_eq.
    rewrite Z.sub_diag in Hd. simpl in Hd. lia.
Qed.

(** C16. Reporting what arrived: the packets of a publisher are recorded in the order
    in which they arrive, and the feedback made of them, once it has been
    written to a datagram and read at the other end, reports each number that
    arrived, in order, and no other, at its last time of arrival up to less
    than 250 microseconds for each packet before it; the recorder is left
    empty.  There are at least two packets, their numbers span less than 16000
    and keep to their cycle (none is overtaken across a wrap-around), and
    neighbours arrive less than 8.19 seconds apart. *)
Theorem twcc_reports_arrivals sender ssrc arrivals l nan :
  is_u32 sender → is_u32 ssrc → recognized 0 arrivals = true → sorted_listing (latest arrivals) l → one_feedback l →
  ∃ r t bytes, BuildFeedbackPacket (record_all (NewRecorder sender) ssrc arrivals) = Ok (r, [t]) ∧ receivedPackets r = [] ∧
    Marshal nan [PTransportLayerCC t] = Ok bytes ∧
    ∀ b, (s_len b <= s_cap b)%nat → s_bytes b = bytes → ∃ t', Unmarshal b = Ok [PTransportLayerCC t'] ∧
      tcc_SenderSSRC t' = sender ∧ tcc_MediaSSRC t' = ssrc ∧
      map fst (reported t') = map (λ p, u16 (pi_sequenceNumber p)) l ∧
      ∀ i p tm, l !! i = Some p → reported t' !! i = Some (u16 (pi_sequenceNumber p), tm) →
        Z.abs (tm - arrivalTime p) ≤ 249 * Z.of_nat (S i).
Proof.
  intros Hs Hm Ha Hl H1. destruct (record_build sender ssrc arrivals l Hs Hm Ha Hl H1) as (t & E & _ & Hok & H2 & H3 & H4 & H5).
  eexists _, t, (tcc_wire t). split; [exact E|]. split; [done|].
  split; [exact (proj1 (tcc_datagram t (of_bytes (tcc_wire t)) nan Hok ltac:(done) (s_bytes_of_bytes _)))|].
  intros b Hb Hbytes. exists (tcc_read t). split; [exact (proj2 (tcc_datagram t b nan Hok Hb Hbytes))|]. done.
Qed.

Definition sample_arrivals : list (Z * Z) :=
  [(65533, 1000000); (65534, 1000499); (65537, 1003000); (65536, 1003100); (65540, 1290000)].

Definition sample_listing : list pktInfo :=
  [MkPktInfo 65533 1000000; MkPktInfo 65534 1000499; MkPktInfo 65536 1003100; MkPktInfo 65537 1003000; MkPktInfo 65540 1290000].

#[export] Instance pktInfo_eq_dec : EqDecision pktInfo.
Proof. solve_decision. Defined.

(** A listing can be checked. *)
Lemma check_listing m l : StronglySorted before l →
  bool_decide (Forall (λ p, m !! pi_sequenceNumber p = Some (arrivalTime p)) l) = true →
  bool_decide (map_Forall (λ x t, MkPktInfo x t ∈ l) m) = true → sorted_listing m l.
Proof.
  intros Hs H1%bool_decide_eq_true_1 H2%bool_decide_eq_true_1. split; [done|]. intros p. rewrite Forall_forall in H1.
  split; [apply H1|]. intros Hp%H2. by destruct p.
Qed.

Lemma sample_listing_ok : sorted_listing (latest sample_arrivals) sample_listing.
Proof.
  apply check_listing; [repeat constructor; unfold before; simpl; lia | vm_compute; reflexivity | vm_compute; reflexivity].
Qed.

Lemma twcc_reports_arrivals_witness : ∃ r t bytes,
  BuildFeedbackPacket (record_all (NewRecorder 7) 9 sample_arrivals) = Ok (r, [t]) ∧ Marshal 0 [PTransportLayerCC t] = Ok bytes ∧
  ∃ t', Unmarshal (of_bytes bytes) = Ok [PTransportLayerCC t'] ∧ map fst (reported t') = [65533; 65534; 0; 1; 4].
Proof.
  destruct (twcc_reports_arrivals 7 9 sample_arrivals sample_listing 0) as (r & t & bytes & E1 & _ & E2 & H);
    [unfold is_u32; lia.. | reflexivity | exact sample_listing_ok | |].
  - split; [simpl; lia|]. split; [repeat constructor; unfold is_time; simpl; lia|].
    split; [repeat constructor; simpl; lia | reflexivity].
  - exists r, t, bytes. split; [exact E1|]. split; [exact E2|].
    destruct (H (of_bytes bytes)) as (t' & E3 & _ & _ & E4 & _); [done | apply s_bytes_of_bytes |].
    exists t'. split; [exact E3 | exact E4].
Defined.

(** ** Faults *)

(** A packet more than 8.19 seconds after the one before starts a new feedback,
    which is not given a base: unless the interceptor is as young, the packet
    and all that follow it are left out, each with an empty feedback. *)
Lemma gap_loses_packets : ∃ r t1 t2 t3,
  BuildFeedbackPacket (record_all (NewRecorder 7) 9 [(1000, 20000000); (1001, 30000000); (1002, 30020000)]) = Ok (r, [t1; t2; t3]) ∧
  map fst (reported t1) = [1000] ∧ reported t2 = [] ∧ reported t3 = [] ∧ receivedPackets r = [].
Proof. eexists _, _, _, _. split; [vm_compute; reflexivity|]. split_and!; vm_compute; reflexivity. Qed.

(** A packet that is overtaken by the first one of the next cycle is recorded
    65536 numbers too far, and so is what follows it. *)
Lemma overtaken_number_recounted :
  map pi_sequenceNumber (receivedPackets (record_all (NewRecorder 7) 9 [(65534, 0); (65536, 10); (65535, 20); (65537, 30)])) =
    [65534; 65536; 131071; 131073].
Proof. vm_compute. reflexivity. Qed.

(** The rest of each division by 250 is lost, so that the times drift: 40 packets
    that came within 20 milliseconds are reported within 10. *)
Lemma times_drift : ∃ r t,
  BuildFeedbackPacket (record_all (NewRecorder 7) 9 (map (λ i, (i, 499 * i)) (seqZ 0 40))) = Ok (r, [t]) ∧
  last (reported (tcc_read t)) = Some (39, 250 * 39).
Proof. eexists _, _. split; [vm_compute; reflexivity|]. vm_compute. reflexivity. Qed.
