(* ===== verification/Replay.v ===== *)
(** * Replay detection: pion/transport replaydetector

    fixedbig.go and replaydetector.go: a window of bits, behind the highest
    number accepted, that marks the numbers accepted before.  SRTP and SRTCP
    check the numbers of their packets with the variant that allows wrapping,
    DTLS its records with the other one.

    Numbers are uint64, and uint has 64 bits.  [Check] returns the detector as
    it leaves it and, if the number is fine, the function the caller runs once
    the packet has proved authentic. *)

From S2P Require Import Prelude GoLib Bytes.

(** ** Integers of fixed size *)

Definition uw (z : Z) : Z := z mod 2 ^ 64.

(** A shift by 64 or more leaves nothing. *)
Definition shl64 (x n : Z) : Z := if n <? 64 then uw (Z.shiftl x n) else 0.
Definition shr64 (x n : Z) : Z := if n <? 64 then Z.shiftr x n else 0.

Record fixedBigInt := MkBig { bits : list Z; fb_n : Z; msbMask : Z }.

Definition newFixedBigInt (n : Z) : fixedBigInt :=
  let chunkSize := uw (n + 63) / 64 in
  let chunkSize := if chunkSize =? 0 then 1 else chunkSize in
  MkBig (replicate (Z.to_nat chunkSize) 0) n (uw (shl64 1 (64 - n mod 64) - 1)).

Definition word_at (l : list Z) (i : Z) : Z := nth (Z.to_nat i) l 0.

(** The body of the loop of Lsh, at index i. *)
Definition lsh_word (n : Z) (l : list Z) (i : Z) : Z :=
  let nChunk := n / 64 in
  let nN := n mod 64 in
  let carry :=
    if 0 <=? i - nChunk then
      Z.lor (shl64 (word_at l (i - nChunk)) nN)
        (if 0 <=? i - nChunk - 1 then shr64 (word_at l (i - nChunk - 1)) (64 - nN) else 0)
    else 0 in
  Z.lor (shl64 (word_at l i) n) carry.

(** for i := len(s.bits) - 1; i >= 0; i-- *)
Fixpoint lsh_loop (n : Z) (i : nat) (l : list Z) : list Z :=
  match i with
  | O => l
  | S i => lsh_loop n i (<[i := lsh_word n l (Z.of_nat i)]> l)
  end.

Definition Lsh (s : fixedBigInt) (n : Z) : fixedBigInt :=
  if n =? 0 then s
  else
    let l := lsh_loop n (length (bits s)) (bits s) in
    let last := (length l - 1)%nat in
    MkBig (<[last := Z.land (word_at l (Z.of_nat last)) (msbMask s)]> l) (fb_n s) (msbMask s).

(** i < n keeps the index within bits. *)
Definition Bit (s : fixedBigInt) (i : Z) : Z :=
  if fb_n s <=? i then 0
  else
    let chunk := i / 64 in
    let pos := i mod 64 in
    if negb (Z.land (word_at (bits s) chunk) (shl64 1 pos) =? 0) then 1 else 0.

Definition SetBit (s : fixedBigInt) (i : Z) : fixedBigInt :=
  if fb_n s <=? i then s
  else
    let chunk := i / 64 in
    let pos := i mod 64 in
    MkBig (<[Z.to_nat chunk := Z.lor (word_at (bits s) chunk) (shl64 1 pos)]> (bits s)) (fb_n s) (msbMask s).

(** ** Detectors *)

(** slidingWindowDetector and wrappedSlidingWindowDetector; the first has no
    field init. *)
Record window := MkWindow {
  latestSeq : Z;
  maxSeq : Z;
  windowSize : Z;
  mask : fixedBigInt;
  init : bool;
}.

(** type ReplayDetector: the two detectors and nopReplayDetector of pion/srtp. *)
Inductive ReplayDetector :=
  | Sliding (d : window)
  | Wrapped (d : window)
  | NoDetector.

Definition new_window (size max : Z) : window := MkWindow 0 max size (newFixedBigInt size) false.
Definition New (size max : Z) : ReplayDetector := Sliding (new_window size max).
Definition WithWrap (size max : Z) : ReplayDetector := Wrapped (new_window size max).

Definition mark (d : window) (i : Z) : window :=
  MkWindow (latestSeq d) (maxSeq d) (windowSize d) (SetBit (mask d) i) (init d).
Definition advance (d : window) (n seq : Z) : window :=
  MkWindow seq (maxSeq d) (windowSize d) (Lsh (mask d) n) (init d).

(** The function returned by Check; maxSeq is not 0 (the remainder by 0 would
    be a panic). *)
Definition sliding_accept (seq : Z) (d : window) : window :=
  let d := if latestSeq d <? seq then advance d (uw (seq - latestSeq d)) seq else d in
  let diff := uw (latestSeq d - seq) mod maxSeq d in
  mark d diff.

Definition sliding_check (d : window) (seq : Z) : bool :=
  if maxSeq d <? seq then false
  else if seq <=? latestSeq d then
    if uw (windowSize d + seq) <=? latestSeq d then false
    else Bit (mask d) (uw (latestSeq d - seq)) =? 0
  else true.

(** The first number, whether it is accepted later or not, sets the window. *)
Definition wrapped_init (d : window) (seq : Z) : window :=
  if init d then d
  else MkWindow (if negb (seq =? 0) then uw (seq - 1) else maxSeq d) (maxSeq d) (windowSize d) (mask d) true.

Definition wrapped_diff (d : window) (seq : Z) : Z :=
  let diff := to_int64 (to_int64 (latestSeq d) - to_int64 seq) in
  if Z.quot (to_int64 (maxSeq d)) 2 <? diff then to_int64 (diff - to_int64 (uw (maxSeq d + 1)))
  else if diff <=? Z.quot (to_int64 (- to_int64 (maxSeq d))) 2 then to_int64 (diff + to_int64 (uw (maxSeq d + 1)))
  else diff.

Definition wrapped_accept (seq diff : Z) (d : window) : window :=
  let d := if diff <? 0 then advance d (uw (- diff)) seq else d in
  mark d (uw (latestSeq d - seq)).

(** The number is within the window and not marked. *)
Definition wrapped_ok (d : window) (diff : Z) : bool :=
  if to_int64 (windowSize d) <=? diff then false
  else if 0 <=? diff then Bit (mask d) (uw diff) =? 0
  else true.

Definition Check_seq (d : ReplayDetector) (seq : Z) : ReplayDetector * option (ReplayDetector → ReplayDetector) :=
  match d with
  | Sliding w =>
      (Sliding w, if sliding_check w seq
                  then Some (λ d, match d with Sliding w => Sliding (sliding_accept seq w) | d => d end)
                  else None)
  | Wrapped w =>
      if maxSeq w <? seq then (Wrapped w, None)
      else
        let w := wrapped_init w seq in
        let diff := wrapped_diff w seq in
        (Wrapped w, if wrapped_ok w diff
                    then Some (λ d, match d with Wrapped w => Wrapped (wrapped_accept seq diff w) | d => d end)
                    else None)
  | NoDetector => (NoDetector, Some id)
  end.
