(* ===== verification/ReplayProps.v ===== *)
(** * Replay detection: the window implements a set

    The words of bits behave as one row of bits that a shift moves; with it the
    detectors implement a specification with the set of all numbers accepted,
    without wrap-around. *)

From S2P Require Import Prelude GoLib Bytes Replay.

(** ** The row of bits *)

(** The bit at position [p] of the words. *)
Definition row (l : list Z) (p : Z) : bool := Z.testbit (word_at l (p / 64)) (p mod 64).

Definition is_word (z : Z) : Prop := 0 ≤ z < 2 ^ 64.

Lemma testbit_word z b : is_word z → 64 ≤ b → Z.testbit z b = false.
Proof. intros H Hb. by apply (testbit_small z 64). Qed.

Lemma word_at_word l i : Forall is_word l → is_word (word_at l i).
Proof.
  intros H. unfold word_at. destruct (decide (Z.to_nat i < length l)%nat) as [Hi|Hi].
  - by apply List.Forall_nth.
  - rewrite nth_overflow by lia. by unfold is_word.
Qed.

Lemma uw_bits z b : 0 ≤ b < 64 → Z.testbit (uw z) b = Z.testbit z b.
Proof. intros. apply Z.mod_pow2_bits_low. lia. Qed.

Lemma shl64_bits x n b : 0 ≤ n → 0 ≤ b < 64 →
  Z.testbit (shl64 x n) b = if n <=? b then Z.testbit x (b - n) else false.
Proof.
  intros Hn Hb. unfold shl64. destruct (Z.ltb_spec n 64), (Z.leb_spec n b); try lia.
  - rewrite uw_bits by lia. by rewrite Z.shiftl_spec by lia.
  - rewrite uw_bits by lia. by rewrite Z.shiftl_spec_low.
  - by rewrite Z.bits_0.
Qed.

Lemma shr64_bits x n b : is_word x → 0 < n → 0 ≤ b → Z.testbit (shr64 x n) b = Z.testbit x (b + n).
Proof.
  intros Hx Hn Hb. unfold shr64. destruct (Z.ltb_spec n 64).
  - by rewrite Z.shiftr_spec.
  - rewrite Z.bits_0. symmetry. apply testbit_word; [done | lia].
Qed.

Lemma is_word_bits z : 0 ≤ z → (∀ b, 64 ≤ b → Z.testbit z b = false) → is_word z.
Proof.
  intros Hz Hb. unfold is_word. replace z with (z mod 2 ^ 64); [by apply Z.mod_pos_bound|].
  apply Z.bits_inj'. intros b Hb0. destruct (decide (b < 64)).
  - by rewrite Z.mod_pow2_bits_low by lia.
  - rewrite Z.mod_pow2_bits_high by lia. symmetry. apply Hb. lia.
Qed.
Lemma shl64_word x n : is_word (shl64 x n).
Proof. unfold shl64. case_match; [by apply Z.mod_pos_bound | by unfold is_word]. Qed.
Lemma shr64_word x n : is_word x → 0 ≤ n → is_word (shr64 x n).
Proof.
  intros Hx Hn. unfold shr64. case_match; [|by unfold is_word].
  apply is_word_bits; [apply Z.shiftr_nonneg, Hx|]. intros b Hb. rewrite Z.shiftr_spec by lia.
  apply testbit_word; [done | lia].
Qed.
Lemma lor_word a b : is_word a → is_word b → is_word (Z.lor a b).
Proof.
  intros Ha Hb. apply is_word_bits; [apply Z.lor_nonneg; split; [apply Ha | apply Hb]|].
  intros i Hi. by rewrite Z.lor_spec, !testbit_word.
Qed.
Lemma land_word a b : is_word a → is_word (Z.land a b).
Proof.
  intros Ha. apply is_word_bits; [apply Z.land_nonneg; left; apply Ha|].
  intros i Hi. by rewrite Z.land_spec, testbit_word.
Qed.

Lemma lsh_word_word n l i : Forall is_word l → is_word (lsh_word n l i).
Proof.
  intros Hl. unfold lsh_word. apply lor_word; [apply shl64_word|]. case_match; [|by unfold is_word].
  apply lor_word; [apply shl64_word|]. case_match; [|by unfold is_word].
  apply shr64_word; [by apply word_at_word | pose proof (Z.mod_pos_bound n 64); lia].
Qed.

(** A position, by word and bit. *)
Lemma position p i b : p = 64 * i + b → 0 ≤ b < 64 → p / 64 = i ∧ p mod 64 = b.
Proof. intros -> Hb. split; Z.div_mod_to_equations; lia. Qed.

Lemma row_at l i b : 0 ≤ b < 64 → row l (64 * i + b) = Z.testbit (word_at l i) b.
Proof. intros Hb. unfold row. by destruct (position (64 * i + b) i b eq_refl Hb) as [-> ->]. Qed.

Lemma high_part l i r b : Forall is_word l → r ≤ b → 0 ≤ r < 64 → 0 ≤ b →
  Z.testbit (if 0 <=? i then shr64 (word_at l i) (64 - r) else 0) b = false.
Proof.
  intros Hl Hr Hr' Hb. case_match; [|by rewrite Z.bits_0].
  rewrite shr64_bits by (try apply word_at_word; done || lia). apply testbit_word; [by apply word_at_word | lia].
Qed.

Lemma lsh_word_eq n l l' i : 0 ≤ n → (∀ j, 0 ≤ j ≤ i → word_at l j = word_at l' j) → 0 ≤ i →
  lsh_word n l i = lsh_word n l' i.
Proof.
  intros Hn H Hi. unfold lsh_word. pose proof (Z.div_pos n 64 Hn ltac:(lia)). rewrite (H i) by lia.
  destruct (Z.leb_spec 0 (i - n / 64)); [|done]. rewrite (H (i - n / 64)) by lia.
  destruct (Z.leb_spec 0 (i - n / 64 - 1)); [|done]. by rewrite (H (i - n / 64 - 1)) by lia.
Qed.

(** One word of a shift: the bits come from [n] positions below. *)
Lemma lsh_word_bits n l i b : Forall is_word l → 0 < n → 0 ≤ i → 0 ≤ b < 64 →
  Z.testbit (lsh_word n l i) b = if n <=? 64 * i + b then row l (64 * i + b - n) else false.
Proof.
  intros Hl Hn Hi Hb. unfold lsh_word. pose proof (Z.div_mod n 64 ltac:(lia)) as En.
  pose proof (Z.mod_pos_bound n 64 ltac:(lia)) as Hr. set (c := n / 64) in *. set (r := n mod 64) in *.
  rewrite Z.lor_spec, shl64_bits by lia. destruct (Z.leb_spec 0 (i - c)).
  - rewrite Z.lor_spec, shl64_bits by lia. destruct (decide (r ≤ b)).
    + rewrite (proj2 (Z.leb_le r b)), (proj2 (Z.leb_le n (64 * i + b))) by lia.
      replace (64 * i + b - n) with (64 * (i - c) + (b - r)) by lia. rewrite row_at by lia.
      rewrite (high_part l (i - c - 1) r b) by (done || lia). rewrite orb_false_r.
      destruct (Z.leb_spec n b); [|done]. replace c with 0 by nia. replace n with r by nia.
      rewrite Z.sub_0_r. by destruct (Z.testbit _ _).
    + rewrite (proj2 (Z.leb_gt r b)), (proj2 (Z.leb_gt n b)) by nia. simpl.
      destruct (Z.leb_spec 0 (i - c - 1)).
      * rewrite (proj2 (Z.leb_le n (64 * i + b))) by nia. rewrite shr64_bits by (try apply word_at_word; done || lia).
        replace (64 * i + b - n) with (64 * (i - c - 1) + (b + (64 - r))) by lia. by rewrite row_at by lia.
      * rewrite (proj2 (Z.leb_gt n (64 * i + b))) by nia. by rewrite Z.bits_0.
  - rewrite (proj2 (Z.leb_gt n b)), (proj2 (Z.leb_gt n (64 * i + b))) by nia. by rewrite Z.bits_0.
Qed.

(** The whole row after a shift. *)
Lemma lsh_loop_length n i : ∀ l, length (lsh_loop n i l) = length l.
Proof. induction i as [|i IH]; intros l; [done|]. simpl. by rewrite IH, length_insert. Qed.

Lemma word_at_insert l i x j : (i < length l)%nat → 0 ≤ j →
  word_at (<[i := x]> l) j = if decide (j = Z.of_nat i) then x else word_at l j.
Proof.
  intros Hi Hj. unfold word_at. rewrite !nth_lookup. case_decide as E.
  - subst. rewrite Nat2Z.id, list_lookup_insert_eq by done. done.
  - rewrite list_lookup_insert_ne by lia. done.
Qed.

(** The loop writes word [j] from words at [j] and below, which are still the
    old ones. *)
Lemma lsh_loop_at n l0 i : ∀ l, 0 ≤ n → length l = length l0 → (i <= length l)%nat →
  (∀ j, 0 ≤ j < Z.of_nat i → word_at l j = word_at l0 j) →
  ∀ j, 0 ≤ j < Z.of_nat (length l) →
  word_at (lsh_loop n i l) j = if decide (j < Z.of_nat i) then lsh_word n l0 j else word_at l j.
Proof.
  induction i as [|i IH]; intros l Hn Hlen Hi Hold j Hj; simpl; [by rewrite decide_False by lia|].
  rewrite IH; rewrite ?length_insert; try lia; clear IH.
  - case_decide as E1.
    + by rewrite decide_True by lia.
    + rewrite word_at_insert by lia. case_decide as E2.
      * subst. rewrite decide_True by lia. apply lsh_word_eq; [lia | | lia]. intros k Hk. apply Hold. lia.
      * by rewrite decide_False by lia.
  - intros k Hk. rewrite word_at_insert by lia. rewrite decide_False by lia. apply Hold. lia.
Qed.

(** ** Windows of bits

    The mask for the last word keeps all positions below the size exactly if the
    size leaves no more than 32 bits in the last word. *)
Record big_ok (s : fixedBigInt) : Prop := {
  bo_size : 0 < fb_n s < 2 ^ 63;
  bo_last : fb_n s mod 64 ≤ 32;
  bo_words : Z.of_nat (length (bits s)) = (fb_n s + 63) / 64;
  bo_word : Forall is_word (bits s);
  bo_mask : msbMask s = uw (shl64 1 (64 - fb_n s mod 64) - 1);
}.

(** The bit [i] is set. *)
Definition marked (s : fixedBigInt) (i : Z) : bool := (i <? fb_n s) && row (bits s) i.

Lemma marked_row s i : i < fb_n s → marked s i = row (bits s) i.
Proof. intros H. unfold marked. by rewrite (proj2 (Z.ltb_lt _ _) H). Qed.

Lemma land_pow2 w b : 0 ≤ b < 64 → (Z.land w (shl64 1 b) =? 0) = negb (Z.testbit w b).
Proof.
  intros Hb. unfold shl64. rewrite (proj2 (Z.ltb_lt b 64)) by lia.
  assert (uw (Z.shiftl 1 b) = 2 ^ b) as ->.
  { rewrite Z.shiftl_1_l. apply Z.mod_small. split; [lia|]. apply Z.pow_lt_mono_r; lia. }
  destruct (Z.testbit w b) eqn:E; simpl.
  - apply Z.eqb_neq. intros H0. apply (f_equal (λ z, Z.testbit z b)) in H0.
    by rewrite Z.land_spec, E, Z.pow2_bits_true, Z.bits_0 in H0 by lia.
  - apply Z.eqb_eq. apply Z.bits_inj'. intros i Hi. rewrite Z.land_spec, Z.bits_0.
    destruct (decide (i = b)) as [->|]; [by rewrite E|]. by rewrite Z.pow2_bits_false, andb_false_r.
Qed.

Lemma Bit_marked s i : 0 ≤ i → (Bit s i =? 0) = negb (marked s i).
Proof.
  intros Hi. unfold Bit, marked. rewrite Z.leb_antisym. destruct (i <? fb_n s); simpl; [|done].
  rewrite land_pow2 by (apply Z.mod_pos_bound; lia). fold (row (bits s) i). by destruct (row _ _).
Qed.

Lemma nth_replicate_zero n k : nth k (replicate n 0) 0 = 0.
Proof. revert k. induction n as [|n IH]; intros [|k]; simpl; auto. Qed.

Lemma newFixedBigInt_ok n : 0 < n < 2 ^ 63 → n mod 64 ≤ 32 →
  big_ok (newFixedBigInt n) ∧ ∀ i, marked (newFixedBigInt n) i = false.
Proof.
  intros Hn Hm. assert (uw (n + 63) = n + 63) as E by (apply Z.mod_small; lia).
  assert (0 < (n + 63) / 64) by (Z.div_mod_to_equations; lia).
  unfold newFixedBigInt. rewrite E, (proj2 (Z.eqb_neq _ _)) by lia. split.
  - split; simpl; [done | done | rewrite length_replicate; lia | | done].
    apply Forall_replicate. by unfold is_word.
  - intros i. unfold marked, row, word_at. simpl. rewrite nth_replicate_zero, Z.bits_0. apply andb_false_r.
Qed.

Lemma chunk_bound s i : big_ok s → 0 ≤ i < fb_n s → (Z.to_nat (i / 64) < length (bits s))%nat.
Proof. intros [? ? Hl ? ?] Hi. Z.div_mod_to_equations. lia. Qed.

Lemma row_insert l p c w : (Z.to_nat c < length l)%nat → 0 ≤ c → 0 ≤ p →
  row (<[Z.to_nat c := w]> l) p = if decide (p / 64 = c) then Z.testbit w (p mod 64) else row l p.
Proof.
  intros Hc Hc0 Hp. unfold row. rewrite word_at_insert by (done || (apply Z.div_pos; lia)).
  rewrite Z2Nat.id by lia. by case_decide.
Qed.

Lemma SetBit_ok s i : big_ok s → 0 ≤ i → big_ok (SetBit s i) ∧
  fb_n (SetBit s i) = fb_n s ∧
  ∀ p, 0 ≤ p → marked (SetBit s i) p = ((p =? i) && (i <? fb_n s)) || marked s p.
Proof.
  intros Hs Hi. unfold SetBit. destruct (Z.leb_spec (fb_n s) i).
  { split_and!; [done..|]. intros p Hp. by rewrite (proj2 (Z.ltb_ge _ _)), andb_false_r by lia. }
  pose proof (chunk_bound s i Hs ltac:(lia)) as Hc. pose proof (Z.mod_pos_bound i 64 ltac:(lia)).
  split_and!; [|done|].
  - destruct Hs as [? ? Hl Hw ?]. split; simpl; rewrite ?length_insert; try done.
    apply Forall_insert; [done|]. apply lor_word; [by apply word_at_word | apply shl64_word].
  - intros p Hp. unfold marked. simpl. destruct (Z.ltb_spec p (fb_n s)); simpl.
    2: { destruct (Z.eqb_spec p i); [lia | done]. }
    rewrite (proj2 (Z.ltb_lt i _)), andb_true_r by lia.
    rewrite row_insert by (done || (apply Z.div_pos; lia)). pose proof (Z.mod_pos_bound p 64 ltac:(lia)).
    case_decide as Ec.
    + rewrite Z.lor_spec, shl64_bits by lia. unfold row. rewrite Ec. rewrite orb_comm. f_equal.
      destruct (Z.eqb_spec p i) as [->|Hne].
      * rewrite (proj2 (Z.leb_le _ _)), Z.sub_diag by lia. done.
      * destruct (Z.leb_spec (i mod 64) (p mod 64)); [|done]. apply (testbit_small 1 1); [|lia].
        pose proof (Z.div_mod p 64 ltac:(lia)). pose proof (Z.div_mod i 64 ltac:(lia)). lia.
    + destruct (Z.eqb_spec p i); [by subst | done].
Qed.

Lemma mask_bits m b : 0 < m ≤ 64 → 0 ≤ b < m → Z.testbit (uw (shl64 1 m - 1)) b = true.
Proof.
  intros Hm Hb. rewrite uw_bits by lia. unfold shl64. destruct (Z.ltb_spec m 64).
  - assert (uw (Z.shiftl 1 m) = 2 ^ m) as ->.
    { rewrite Z.shiftl_1_l. apply Z.mod_small. split; [lia|]. apply Z.pow_lt_mono_r; lia. }
    replace (2 ^ m - 1) with (Z.ones m) by (rewrite Z.ones_equiv; lia). by apply Z.ones_spec_low.
  - apply Z.bits_m1. lia.
Qed.

(** A shift moves the row up and clears the places below. *)
Lemma Lsh_ok s k : big_ok s → 0 ≤ k → big_ok (Lsh s k) ∧ fb_n (Lsh s k) = fb_n s ∧
  ∀ p, 0 ≤ p < fb_n s → marked (Lsh s k) p = if k <=? p then marked s (p - k) else false.
Proof.
  intros Hs Hk. unfold Lsh. destruct (Z.eqb_spec k 0) as [->|Hk0].
  { split_and!; [done..|]. intros p Hp. by rewrite (proj2 (Z.leb_le _ _)), Z.sub_0_r by lia. }
  pose proof Hs as [Hn Hm Hl Hw Hmask].
  set (l := lsh_loop k (length (bits s)) (bits s)). set (last := (length l - 1)%nat).
  assert (length l = length (bits s)) as Hlen by apply lsh_loop_length.
  assert (0 < length l)%nat by (Z.div_mod_to_equations; lia).
  assert (∀ j, 0 ≤ j < Z.of_nat (length l) → word_at l j = lsh_word k (bits s) j) as Hat.
  { intros j Hj. unfold l. rewrite (lsh_loop_at k (bits s)) by (done || lia). by rewrite decide_True by lia. }
  split_and!; [|done|].
  - split; simpl; rewrite ?length_insert, ?Hlen; try done. apply Forall_insert.
    + apply Forall_lookup. intros j w Hj. pose proof (lookup_lt_Some _ _ _ Hj).
      replace w with (word_at l (Z.of_nat j)).
      * rewrite Hat by lia. by apply lsh_word_word.
      * unfold word_at. rewrite Nat2Z.id. by apply nth_lookup_Some.
    + apply land_word. rewrite Hat by lia. by apply lsh_word_word.
  - intros p Hp. rewrite marked_row by (simpl; lia). simpl.
    replace (if k <=? p then marked s (p - k) else false) with (if k <=? p then row (bits s) (p - k) else false)
      by (destruct (Z.leb_spec k p); [by rewrite marked_row by lia | done]).
    pose proof (Z.mod_pos_bound p 64 ltac:(lia)) as Hb. pose proof (Z.div_mod p 64 ltac:(lia)) as Ep.
    assert (0 ≤ p / 64 < Z.of_nat (length l)) as Hc by (Z.div_mod_to_equations; lia).
    unfold row at 1. rewrite word_at_insert by lia.
    assert (Z.testbit (lsh_word k (bits s) (p / 64)) (p mod 64) =
      (if k <=? p then row (bits s) (p - k) else false)) as Hbit.
    { rewrite lsh_word_bits by (done || lia). by rewrite <- Ep. }
    destruct (decide (p / 64 = Z.of_nat last)) as [Elast|]; [|by rewrite Hat].
    rewrite Hat by lia. rewrite <- Elast, Z.land_spec, Hbit, Hmask, mask_bits, andb_true_r; [done | |].
    + pose proof (Z.mod_pos_bound (fb_n s) 64). lia.
    + unfold last in Elast. Z.div_mod_to_equations. lia.
Qed.

(** ** The specification

    Numbers that do not wrap around, the highest one accepted and the set of
    all accepted ones. *)
Record replay_spec := MkSpec { top : Z; seen : gset Z }.

Definition fresh (W : Z) (s : replay_spec) (x : Z) : bool :=
  (top s <? x) || ((top s - x <? W) && bool_decide (x ∉ seen s)).
Definition record (s : replay_spec) (x : Z) : replay_spec := MkSpec (Z.max (top s) x) ({[x]} ∪ seen s).

(** What the receivers do: a packet is checked, and marked if it then proves
    authentic. *)
Definition receive (d : ReplayDetector) (e : Z * bool) : ReplayDetector * bool :=
  let r := Check_seq d e.1 in
  match r.2 with
  | Some accept => if e.2 then (accept r.1, true) else (r.1, false)
  | None => (r.1, false)
  end.
Fixpoint detector_run (d : ReplayDetector) (l : list (Z * bool)) : list bool :=
  match l with
  | [] => []
  | e :: l => let r := receive d e in r.2 :: detector_run r.1 l
  end.

Definition spec_receive (W : Z) (s : replay_spec) (e : Z * bool) : replay_spec * bool :=
  if fresh W s e.1 && e.2 then (record s e.1, true) else (s, false).
Fixpoint spec_run (W : Z) (s : replay_spec) (l : list (Z * bool)) : list bool :=
  match l with
  | [] => []
  | e :: l => let r := spec_receive W s e in r.2 :: spec_run W r.1 l
  end.

(** The numbers with the verdict true. *)
Definition accepted (l : list (Z * bool)) (vs : list bool) : list Z :=
  flat_map (λ r : (Z * bool) * bool, if r.2 then [r.1.1] else []) (zip l vs).

(** Every number is nearer to the highest one than half of the range, and one
    that is accepted late belongs to the same cycle of the counter. *)
Fixpoint in_reach (W M : Z) (s : replay_spec) (l : list (Z * bool)) : bool :=
  match l with
  | [] => true
  | e :: l =>
      (2 - M / 2 <=? top s - e.1) && (top s - e.1 <? M / 2) &&
      (negb (fresh W s e.1 && e.2) || (top s <? e.1) || (e.1 / M =? top s / M)) &&
      in_reach W M (spec_receive W s e).1 l
  end.

(** The specification never accepts a number again. *)
Lemma spec_run_seen W l : ∀ s, (∀ x, x ∈ seen s → x ≤ top s) →
  NoDup (accepted l (spec_run W s l)) ∧ ∀ x, x ∈ seen s → x ∉ accepted l (spec_run W s l).
Proof.
  unfold accepted. induction l as [|[x a] l IH]; intros s Hs; simpl; [split; [constructor | set_solver]|].
  unfold spec_receive. simpl. destruct (fresh W s x && a) eqn:E; simpl; [|by apply IH].
  destruct (IH (record s x)) as [Hnd Hno].
  { intros y. simpl. intros [->%elem_of_singleton|Hy%Hs]%elem_of_union; lia. }
  assert (x ∉ seen s) as Hx.
  { intros Hin. pose proof (Hs x Hin). unfold fresh in E. rewrite (bool_decide_false (x ∉ seen s)) in E by auto.
    rewrite andb_false_r, orb_false_r in E. destruct (Z.ltb_spec (top s) x); [lia | done]. }
  split.
  - constructor; [|done]. apply Hno, elem_of_union. left. by apply elem_of_singleton.
  - intros y Hy. rewrite elem_of_cons. intros [->|Hin]; [done|]. eapply Hno; [|done]. apply elem_of_union. by right.
Qed.

Section refine.
Context (W M : Z) (HW : 0 < W < 2 ^ 63) (HW64 : W mod 64 ≤ 32) (HM : 4 ≤ M < 2 ^ 62) (Heven : M mod 2 = 0).

Record shows (d : window) (s : replay_spec) : Prop := {
  sh_latest : latestSeq d = top s mod M;
  sh_max : maxSeq d = M - 1;
  sh_size : windowSize d = W;
  sh_init : init d = true;
  sh_big : big_ok (mask d);
  sh_n : fb_n (mask d) = W;
  sh_marks : ∀ k, 0 ≤ k < W → marked (mask d) k = bool_decide (top s - k ∈ seen s);
  sh_top : ∀ x, x ∈ seen s → x ≤ top s;
}.

Lemma uw_small z : 0 ≤ z < 2 ^ 64 → uw z = z.
Proof. intros. by apply Z.mod_small. Qed.

(** The difference is the true one within half of the range. *)
Lemma wrapped_diff_near d s x : shows d s → 2 - M / 2 ≤ top s - x < M / 2 →
  wrapped_diff d (x mod M) = top s - x.
Proof.
  intros [El Em _ _ _ _ _ _] Hx. unfold wrapped_diff. rewrite El, Em.
  pose proof (Z.mod_pos_bound (top s) M ltac:(lia)) as Ht. pose proof (Z.mod_pos_bound x M ltac:(lia)) as Hs.
  rewrite (uw_small (M - 1 + 1)) by lia. rewrite !(to_int64_small (_ mod M)), !(to_int64_small (M - _)) by lia.
  rewrite (to_int64_small (M - 1 + 1)), (to_int64_small (- (M - 1))), (to_int64_small (_ - _)) by lia.
  rewrite Z.quot_div_nonneg by lia. rewrite Z.quot_opp_l, Z.quot_div_nonneg by lia.
  assert ((M - 1) / 2 = M / 2 - 1) as -> by (Z.div_mod_to_equations; lia).
  pose proof (Z.div_mod (top s) M ltac:(lia)). pose proof (Z.div_mod x M ltac:(lia)).
  assert (M = 2 * (M / 2)) as HM2 by (Z.div_mod_to_equations; lia).
  set (a := top s mod M) in *. set (b := x mod M) in *. set (q := top s / M) in *. set (r := x / M) in *.
  assert (top s - x = a - b + M * (q - r)) as E by lia. rewrite E in Hx |- *. 
  assert (q - r = 0 ∨ q - r = 1 ∨ q - r = -1) as Hk by nia.
  destruct (Z.ltb_spec (M / 2 - 1) (a - b)), (Z.leb_spec (a - b) (- (M / 2 - 1)));
    rewrite ?to_int64_small by lia; destruct Hk as [Hk|[Hk|Hk]]; rewrite Hk in *; lia.
Qed.

Lemma wrapped_ok_fresh d s x : shows d s → top s - x < M / 2 → wrapped_ok d (top s - x) = fresh W s x.
Proof.
  intros [El Em Es _ _ En Hm _] Hx. unfold wrapped_ok, fresh. rewrite Es, to_int64_small by lia.
  assert (M / 2 < 2 ^ 62) by (Z.div_mod_to_equations; lia).
  destruct (Z.ltb_spec (top s) x), (Z.leb_spec W (top s - x)), (Z.leb_spec 0 (top s - x)),
    (Z.ltb_spec (top s - x) W); try lia; try done.
  rewrite uw_small, Bit_marked, Hm by lia. replace (top s - (top s - x)) with x by lia. simpl.
  by rewrite bool_decide_not.
Qed.

(** A number above the highest one, or a late one of the same cycle, is marked. *)
Lemma wrapped_accept_shows d s x : shows d s → 2 - M / 2 ≤ top s - x < M / 2 → fresh W s x = true →
  top s < x ∨ x / M = top s / M →
  shows (wrapped_accept (x mod M) (top s - x) d) (record s x).
Proof.
  intros [El Em Es Ei Eb En Hm Ht] Hx Hf Hc. assert (M / 2 < 2 ^ 62) by (Z.div_mod_to_equations; lia).
  unfold wrapped_accept, record. destruct (Z.ltb_spec (top s - x) 0).
  - rewrite uw_small by lia. replace (- (top s - x)) with (x - top s) by lia. unfold advance, mark.
    cbn [latestSeq maxSeq windowSize mask init]. rewrite Z.sub_diag. change (uw 0) with 0.
    destruct (Lsh_ok (mask d) (x - top s) Eb ltac:(lia)) as (Hb1 & Hn1 & Hm1).
    destruct (SetBit_ok _ 0 Hb1 ltac:(lia)) as (Hb2 & Hn2 & Hm2). rewrite En in *.
    split; cbn [latestSeq maxSeq windowSize mask init top seen]; try done.
    + by rewrite Z.max_r by lia.
    + by rewrite Hn2.
    + intros k Hk. rewrite Hm2, Hm1 by lia. rewrite Z.max_r, Hn1 by lia. rewrite (proj2 (Z.ltb_lt 0 W)), andb_true_r by lia.
      destruct (Z.eqb_spec k 0) as [->|]; simpl.
      * rewrite Z.sub_0_r. symmetry. apply bool_decide_true, elem_of_union. left. by apply elem_of_singleton.
      * destruct (Z.leb_spec (x - top s) k).
        -- rewrite Hm by lia. replace (top s - (k - (x - top s))) with (x - k) by lia.
           apply bool_decide_ext. rewrite elem_of_union, elem_of_singleton.
           split; [by right | intros [?|?]; [lia | done]].
        -- symmetry. apply bool_decide_false. rewrite elem_of_union, elem_of_singleton. intros [?|?%Ht]; lia.
    + intros y [->%elem_of_singleton|?%Ht]%elem_of_union; lia.
  - destruct Hc as [?|Hc]; [lia|]. rewrite El.
    pose proof (Z.div_mod (top s) M ltac:(lia)). pose proof (Z.div_mod x M ltac:(lia)). rewrite Hc in *.
    replace (top s mod M - x mod M) with (top s - x) by lia. rewrite uw_small by lia. unfold mark.
    destruct (SetBit_ok (mask d) (top s - x) Eb ltac:(lia)) as (Hb2 & Hn2 & Hm2). rewrite En in *.
    split; cbn [latestSeq maxSeq windowSize mask init top seen]; try done.
    + by rewrite Z.max_l by lia.
    + intros k Hk. rewrite Hm2, Hm, Z.max_l by lia. 
      destruct (Z.eqb_spec k (top s - x)) as [->|]; simpl.
      * rewrite (proj2 (Z.ltb_lt _ _)) by lia. symmetry. apply bool_decide_true.
        apply elem_of_union. left. apply elem_of_singleton. lia.
      * apply bool_decide_ext. rewrite elem_of_union, elem_of_singleton.
           split; [by right | intros [?|?]; [lia | done]].
    + intros y [->%elem_of_singleton|?%Ht]%elem_of_union; lia.
Qed.

Definition on_wire (l : list (Z * bool)) : list (Z * bool) := map (λ e, (e.1 mod M, e.2)) l.

Definition accept_fun (seq diff : Z) (d : ReplayDetector) : ReplayDetector :=
  match d with Wrapped w => Wrapped (wrapped_accept seq diff w) | d => d end.

Lemma check_shows d s x : shows d s → 2 - M / 2 ≤ top s - x < M / 2 →
  Check_seq (Wrapped d) (x mod M) =
    (Wrapped d, if fresh W s x then Some (accept_fun (x mod M) (top s - x)) else None).
Proof.
  intros Hd Hx. unfold Check_seq.
  rewrite (sh_max _ _ Hd), (proj2 (Z.ltb_ge _ _)) by (pose proof (Z.mod_pos_bound x M); lia).
  cbv zeta. unfold wrapped_init. rewrite (sh_init _ _ Hd). rewrite (wrapped_diff_near d s x Hd Hx).
  by rewrite (wrapped_ok_fresh d s x Hd) by lia.
Qed.

Lemma receive_shows d s e : shows d s → 2 - M / 2 ≤ top s - e.1 < M / 2 →
  (fresh W s e.1 && e.2 = true → top s < e.1 ∨ e.1 / M = top s / M) →
  ∃ d', receive (Wrapped d) (e.1 mod M, e.2) = (Wrapped d', (spec_receive W s e).2) ∧ shows d' (spec_receive W s e).1.
Proof.
  intros Hd Hx Hc. unfold receive, spec_receive. destruct e as [x a]. cbn [fst snd] in *.
  rewrite (check_shows d s x Hd Hx). cbn [fst snd].
  destruct (fresh W s x) eqn:Ef; [|by exists d]. destruct a; [|by exists d]. simpl in Hc |- *.
  eexists. split; [done|]. apply wrapped_accept_shows; auto.
Qed.

Lemma detector_run_shows l : ∀ d s, shows d s → in_reach W M s l = true →
  detector_run (Wrapped d) (on_wire l) = spec_run W s l.
Proof.
  induction l as [|e l IH]; intros d s Hd Hr; [done|]. cbn [in_reach] in Hr.
  apply andb_true_iff in Hr as [[[H1%Z.leb_le H2%Z.ltb_lt]%andb_true_iff H3]%andb_true_iff Hr].
  destruct (receive_shows d s e Hd ltac:(lia)) as (d' & E & Hd').
  { intros Hf. rewrite Hf in H3. simpl in H3. apply orb_true_iff in H3 as [?%Z.ltb_lt|?%Z.eqb_eq]; auto. }
  cbn [on_wire map detector_run spec_run]. rewrite E. cbn [fst snd]. f_equal. by apply IH.
Qed.

(** The first number puts the window just below it. *)
Definition start (x : Z) : replay_spec := MkSpec (x - 1) ∅.

Lemma first_shows x : shows (wrapped_init (new_window W (M - 1)) (x mod M)) (start x).
Proof.
  destruct (newFixedBigInt_ok W HW HW64) as [Hb Hm].
  pose proof (Z.mod_pos_bound x M ltac:(lia)) as Hx. unfold wrapped_init, new_window.
  cbn [init latestSeq maxSeq windowSize mask]. split; cbn [latestSeq maxSeq windowSize mask init top seen]; try done.
  - pose proof (Z.div_mod x M ltac:(lia)) as E. destruct (Z.eqb_spec (x mod M) 0) as [E0|]; simpl.
    + apply (Z.mod_unique _ _ (x / M - 1)); lia.
    + rewrite uw_small by lia. apply (Z.mod_unique _ _ (x / M)); lia.
Qed.

Lemma first_check x : Check_seq (WithWrap W (M - 1)) (x mod M) =
  Check_seq (Wrapped (wrapped_init (new_window W (M - 1)) (x mod M))) (x mod M).
Proof.
  unfold Check_seq, WithWrap.
  change (maxSeq (wrapped_init _ _)) with (M - 1). change (maxSeq (new_window _ _)) with (M - 1).
  by rewrite (proj2 (Z.ltb_ge _ _)) by (pose proof (Z.mod_pos_bound x M); lia).
Qed.
End refine.

(** C18. The detector SRTP and SRTCP use implements the set of the numbers accepted,
    for windows that leave at most 32 bits in their last word: for numbers that
    are sent modulo [M], of which each is nearer to the highest one than half of
    [M], it gives the verdicts of the specification, and no number is accepted
    twice; unless a number that is late by less than the window comes from
    before a wrap-around of the counter.  A packet that is not authentic marks
    nothing. *)
Theorem replay_refines W M x a l :
  0 < W < 2 ^ 63 → W mod 64 ≤ 32 → 4 ≤ M < 2 ^ 62 → M mod 2 = 0 →
  in_reach W M (start x) ((x, a) :: l) = true →
  let vs := detector_run (WithWrap W (M - 1)) (on_wire M ((x, a) :: l)) in
  vs = spec_run W (start x) ((x, a) :: l) ∧ NoDup (accepted ((x, a) :: l) vs).
Proof.
  intros HW HW64 HM He Hr vs.
  assert (vs = spec_run W (start x) ((x, a) :: l)) as E.
  { unfold vs. rewrite <- (detector_run_shows W M HW HM He ((x, a) :: l) _ _ (first_shows W M HW HW64 HM x) Hr).
    cbn [on_wire map detector_run fst snd]. unfold receive. cbn [fst]. by rewrite (first_check W M HM). }
  split; [done|]. rewrite E. apply spec_run_seen. set_solver.
Qed.

(** A run around the wrap of a 16-bit counter, with late and repeated packets
    and one that is not authentic. *)
Definition sample_run : list (Z * bool) :=
  [(65530, true); (65533, true); (65531, true); (65531, true); (65532, false); (65540, true); (65538, true);
   (65538, true); (65540, true); (65541, false)].

Lemma replay_refines_witness :
  detector_run (WithWrap 64 (65536 - 1)) (on_wire 65536 sample_run) = [true; true; true; false; false; true; true; false; false; false]
  ∧ NoDup [65530; 65533; 65531; 65540; 65538].
Proof.
  assert (in_reach 64 65536 (start 65530) sample_run = true) as H by (vm_compute; reflexivity).
  destruct (replay_refines 64 65536 65530 true (tail sample_run)) as [E Hn]; [lia | done | lia | done | exact H |].
  vm_compute in E, Hn. split; [vm_compute; reflexivity | exact Hn].
Defined.

(** A late packet from before the wrap-around is not marked: it is accepted as
    often as it is sent again. *)
Theorem replay_across_wrap :
  detector_run (WithWrap 64 65535) (map (λ n, (n, true)) [65533; 65535; 0; 65534; 65534; 65534]) =
    [true; true; true; true; true; true].
Proof. vm_compute. reflexivity. Qed.

(** A window of 48 numbers forgets those more than 16 behind the highest one. *)
Theorem short_window_replays :
  detector_run (WithWrap 48 65535) (map (λ n, (n, true)) [100; 120; 100]) = [true; true; true].
Proof. vm_compute. reflexivity. Qed.
