(* ===== verification/Srtp.v ===== *)
(** * Secure RTP: pion/srtp

    The cryptographic context (context.go, option.go, srtp.go, srtcp.go), the
    two ciphers (srtp_cipher_aes_cm_hmac_sha1.go, srtp_cipher_aead_aes_gcm.go)
    with their key derivation and counter mode (key_derivation.go, crypto.go),
    and what the sessions do with a datagram (session_srtp.go,
    session_srtcp.go).  AES, HMAC-SHA1 and GCM are the class [SrtpCrypto].

    A context is state; a call returns the context and a result, since also a
    call that fails changes it.  The output of a call is written into a buffer
    of the caller ([dst]), of which only what it held matters: the sessions
    decrypt in place, where each byte is read before it is written, and encrypt
    into a buffer of a pool. *)

From stdpp Require Import gmap.
From S2P Require Import Prelude GoLib Bytes Rtcp RtcpPacket Rtp Replay.

Class SrtpCrypto := {
  aes_Encrypt : list Z → list Z → list Z;                 (* key, block *)
  hmac_sha1 : list Z → list Z → list Z;                   (* key, message *)
  gcm_Seal : list Z → list Z → list Z → list Z → list Z;  (* key, nonce, plaintext, data *)
  gcm_Open : list Z → list Z → list Z → list Z → option (list Z);
}.

Inductive srtp_err :=
  | duplicatedError (proto : string) (ssrc index : Z)
  | errShortSrtpMasterKey | errShortSrtpMasterSalt | errNoSuchSRTPProfile | errNonZeroKDRNotSupported
  | errFailedToVerifyAuthTag | errTooShortRTCP | errBadIVLength
  | errKeySize                    (* aes.KeySizeError *)
  | errOpen                       (* cipher: message authentication failed *)
  | errRtp (e : rtp_err) | errRtcp (e : rtcp_err).

Abbreviation xres := (res srtp_err).

(** An error of another package is returned as it is. *)
Definition with_err {E A} (f : E → srtp_err) (m : res E A) : xres A :=
  match m with
  | Ok a => Ok a
  | Err e => Err (f e)
  | Panic => Panic
  | Diverge => Diverge
  end.

(** ** protection_profile.go *)

Definition ProtectionProfileAes128CmHmacSha1_80 : Z := 0x0001.
Definition ProtectionProfileAes128CmHmacSha1_32 : Z := 0x0002.
Definition ProtectionProfileAeadAes128Gcm : Z := 0x0007.

Definition is_cm (p : Z) : bool :=
  (p =? ProtectionProfileAes128CmHmacSha1_32) || (p =? ProtectionProfileAes128CmHmacSha1_80).
Definition is_gcm (p : Z) : bool := p =? ProtectionProfileAeadAes128Gcm.

Definition by_profile (p : Z) (cm gcm : nat) : xres nat :=
  if is_cm p then Ok cm else if is_gcm p then Ok gcm else Err errNoSuchSRTPProfile.

Definition keyLen (p : Z) : xres nat := by_profile p 16 16.
Definition saltLen (p : Z) : xres nat := by_profile p 14 12.
Definition rtpAuthTagLen (p : Z) : xres nat :=
  if p =? ProtectionProfileAes128CmHmacSha1_80 then Ok 10%nat
  else if p =? ProtectionProfileAes128CmHmacSha1_32 then Ok 4%nat
  else if is_gcm p then Ok 0%nat
  else Err errNoSuchSRTPProfile.
Definition rtcpAuthTagLen (p : Z) : xres nat := by_profile p 10 0.
Definition aeadAuthTagLen (p : Z) : xres nat := by_profile p 0 16.
Definition authKeyLen (p : Z) : xres nat := by_profile p 20 0.

(** ** context.go: labels and limits *)

Definition labelSRTPEncryption : Z := 0x00.
Definition labelSRTPAuthenticationTag : Z := 0x01.
Definition labelSRTPSalt : Z := 0x02.
Definition labelSRTCPEncryption : Z := 0x03.
Definition labelSRTCPAuthenticationTag : Z := 0x04.
Definition labelSRTCPSalt : Z := 0x05.
Definition maxSequenceNumber : Z := 65535.
Definition seqNumMedian : Z := 2 ^ 15.
Definition seqNumMax : Z := 2 ^ 16.
Definition srtcpIndexSize : nat := 4.
Definition maxSRTCPIndex : Z := 0x7FFFFFFF.

(** ** key_derivation.go, crypto.go, util.go *)

Definition xor_bytes (a b : list Z) : list Z := zip_with Z.lxor a b.

(** aes.NewCipher takes keys of three sizes. *)
Definition NewCipher (key : list Z) : xres (list Z) :=
  if bool_decide (length key ∈ [16; 24; 32]%nat) then Ok key else Err errKeySize.

Section crypto.
Context `{SrtpCrypto}.

(** for n := 0; n < outLen; n += nMasterKey, with the counter i; a block goes to
    out[n:n+nMasterKey]. *)
Fixpoint derive_loop (blocks : nat) (key prfIn : list Z) (i : Z) : list Z :=
  match blocks with
  | O => []
  | S blocks =>
      let prfIn := take (length key - 2) prfIn ++ be16 i in
      take (length key) (aes_Encrypt key prfIn ++ zeros (length key)) ++ derive_loop blocks key prfIn (u16 (i + 1))
  end.

(** prfIn[7] and prfIn[:nMasterSalt] are within prfIn for the keys and salts of
    the profiles. *)
Definition aesCmKeyDerivation (label : Z) (masterKey masterSalt : list Z) (indexOverKdr : Z) (outLen : nat)
    : xres (list Z) :=
  if negb (indexOverKdr =? 0) then Err errNonZeroKDRNotSupported
  else
    let nMasterKey := length masterKey in
    if (nMasterKey <? length masterSalt)%nat || (nMasterKey <=? 7)%nat then Panic
    else
      let prfIn := masterSalt ++ zeros (nMasterKey - length masterSalt) in
      let prfIn := <[7%nat := Z.lxor (nth 7 prfIn 0) label]> prfIn in
      key ← NewCipher masterKey;
      Ok (take outLen (derive_loop ((outLen + nMasterKey - 1) / nMasterKey) key prfIn 0)).

(** The bytes of ssrc, roc and sequence number are xored into the salt. *)
Definition generateCounter (sequenceNumber rolloverCounter ssrc : Z) (sessionSalt : list Z) : list Z :=
  let counter := take 16 (sessionSalt ++ zeros 16) in
  xor_bytes counter (zeros 4 ++ be32 ssrc ++ be32 rolloverCounter ++ be16 sequenceNumber ++ zeros 2).

(** The least significant byte is the last one; [incr_le] has it first. *)
Fixpoint incr_le (l : list Z) : list Z :=
  match l with
  | [] => []
  | x :: l => if u8 (x + 1) =? 0 then 0 :: incr_le l else u8 (x + 1) :: l
  end.
Definition incrementCTR (ctr : list Z) : list Z := reverse (incr_le (reverse ctr)).

(** for i < len(src): a block of the stream at a time. *)
Fixpoint ctr_loop (fuel : nat) (key ctr src : list Z) : xres (list Z) :=
  match fuel with
  | O => Diverge
  | S fuel =>
      match src with
      | [] => Ok []
      | _ =>
          let stream := aes_Encrypt key ctr in
          let n := Nat.min (length src) (length stream) in
          if (n =? 0)%nat then Ok src
          else out ← ctr_loop fuel key (incrementCTR ctr) (drop n src);
               Ok (xor_bytes (take n src) stream ++ out)
      end
  end.

(** The bytes written over the first len(src) ones of dst. *)
Definition xorBytesCTR (key iv src : list Z) : xres (list Z) :=
  if negb (length iv =? 16)%nat then Err errBadIVLength
  else ctr_loop (S (length src)) key iv src.

(** growBufferSize(buf, size): what the buffer of that size holds. *)
Definition growBufferSize (buf : slice) (size : nat) : list Z :=
  if (size <=? s_cap buf)%nat then take size (s_arr buf)
  else s_bytes buf ++ zeros (size - s_len buf).

(** ** The ciphers *)

(** srtpCipherAesCmHmacSha1 and srtpCipherAeadAesGcm; the authentication keys
    are those of the first. *)
Record keys := MkKeys {
  profile : Z;
  srtpKey : list Z;
  srtpSessionSalt : list Z;
  srtpSessionAuth : list Z;
  srtcpKey : list Z;
  srtcpSessionSalt : list Z;
  srtcpSessionAuth : list Z;
}.

Inductive srtpCipher := AesCmHmacSha1 (k : keys) | AeadAesGcm (k : keys).
Definition cipher_keys (c : srtpCipher) : keys := match c with AesCmHmacSha1 k | AeadAesGcm k => k end.
Definition cipher_profile (c : srtpCipher) : Z := profile (cipher_keys c).

Definition newSrtpCipherAesCmHmacSha1 (p : Z) (masterKey masterSalt : list Z) : xres srtpCipher :=
  k1 ← aesCmKeyDerivation labelSRTPEncryption masterKey masterSalt 0 (length masterKey);
  k1 ← NewCipher k1;
  k2 ← aesCmKeyDerivation labelSRTCPEncryption masterKey masterSalt 0 (length masterKey);
  k2 ← NewCipher k2;
  s1 ← aesCmKeyDerivation labelSRTPSalt masterKey masterSalt 0 (length masterSalt);
  s2 ← aesCmKeyDerivation labelSRTCPSalt masterKey masterSalt 0 (length masterSalt);
  n ← authKeyLen p;
  a1 ← aesCmKeyDerivation labelSRTPAuthenticationTag masterKey masterSalt 0 n;
  a2 ← aesCmKeyDerivation labelSRTCPAuthenticationTag masterKey masterSalt 0 n;
  Ok (AesCmHmacSha1 (MkKeys p k1 s1 a1 k2 s2 a2)).

Definition newSrtpCipherAeadAesGcm (p : Z) (masterKey masterSalt : list Z) : xres srtpCipher :=
  k1 ← aesCmKeyDerivation labelSRTPEncryption masterKey masterSalt 0 (length masterKey);
  k1 ← NewCipher k1;
  k2 ← aesCmKeyDerivation labelSRTCPEncryption masterKey masterSalt 0 (length masterKey);
  k2 ← NewCipher k2;
  s1 ← aesCmKeyDerivation labelSRTPSalt masterKey masterSalt 0 (length masterSalt);
  s2 ← aesCmKeyDerivation labelSRTCPSalt masterKey masterSalt 0 (length masterSalt);
  Ok (AeadAesGcm (MkKeys p k1 s1 [] k2 s2 [])).

(** The hash is reset before every use. *)
Definition generateSrtpAuthTag (k : keys) (buf : list Z) (roc : Z) : xres (list Z) :=
  authTagLen ← rtpAuthTagLen (profile k);
  Ok (take authTagLen (hmac_sha1 (srtpSessionAuth k) (buf ++ be32 roc))).
Definition generateSrtcpAuthTag (k : keys) (buf : list Z) : xres (list Z) :=
  authTagLen ← rtcpAuthTagLen (profile k);
  Ok (take authTagLen (hmac_sha1 (srtcpSessionAuth k) buf)).

Definition cm_encryptRTP (k : keys) (dst : slice) (header : Rtp.Header) (payload : list Z) (roc : Z) : xres (list Z) :=
  authTagLen ← rtpAuthTagLen (profile k);
  size ← with_err errRtp (Rtp.Header_MarshalSize header);
  let buf := growBufferSize dst (size + length payload + authTagLen) in
  r ← with_err errRtp (Rtp.Header_MarshalTo header buf);
  let '(buf, n) := r in
  let counter := generateCounter (Rtp.SequenceNumber header) roc (Rtp.SSRC header) (srtpSessionSalt k) in
  out ← xorBytesCTR (srtpKey k) counter payload;
  buf ← put buf n out;
  let n := (n + length payload)%nat in
  authTag ← generateSrtpAuthTag k (take n buf) roc;
  c ← copy_at buf n authTag;
  Ok c.1.

(** subtle.ConstantTimeCompare(a, b) == 1 *)
Definition same_bytes (a b : list Z) : bool := bool_decide (a = b).

Definition cm_decryptRTP (k : keys) (ciphertext : slice) (header : Rtp.Header) (headerLen : nat) (roc : Z) : xres (list Z) :=
  authTagLen ← rtpAuthTagLen (profile k);
  if (s_len ciphertext <? authTagLen)%nat then Panic
  else
    let n := (s_len ciphertext - authTagLen)%nat in
    tag ← s_from ciphertext n;
    ct ← s_sub ciphertext 0 n;
    expectedTag ← generateSrtpAuthTag k (s_bytes ct) roc;
    if negb (same_bytes (s_bytes tag) expectedTag) then Err errFailedToVerifyAuthTag
    else
      head ← s_sub ct 0 headerLen;
      body ← s_from ct headerLen;
      let counter := generateCounter (Rtp.SequenceNumber header) roc (Rtp.SSRC header) (srtpSessionSalt k) in
      out ← xorBytesCTR (srtpKey k) counter (s_bytes body);
      Ok (s_bytes head ++ out).

(** [decrypted] is the packet, of which dst is first made a copy. *)
Definition cm_encryptRTCP (k : keys) (decrypted : list Z) (srtcpIndex ssrc : Z) : xres (list Z) :=
  if (length decrypted <? 8)%nat then Panic
  else
    let counter := generateCounter (u16 (Z.land srtcpIndex 0xffff)) (Z.shiftr srtcpIndex 16) ssrc (srtcpSessionSalt k) in
    out ← xorBytesCTR (srtcpKey k) counter (drop 8 decrypted);
    let dst := take 8 decrypted ++ out in
    let dst := dst ++ [Z.lor (u8 (Z.shiftr srtcpIndex 24)) 0x80; u8 (Z.shiftr srtcpIndex 16); u8 (Z.shiftr srtcpIndex 8); u8 srtcpIndex] in
    authTag ← generateSrtcpAuthTag k dst;
    Ok (dst ++ authTag).

(** out[8:], with out cut to its first tailOffset bytes. *)
Definition cm_decryptRTCP (k : keys) (encrypted : list Z) (index ssrc : Z) : xres (list Z) :=
  authTagLen ← rtcpAuthTagLen (profile k);
  let n := length encrypted in
  if (n <? authTagLen + srtcpIndexSize)%nat then Panic
  else
    let out := take (n - (authTagLen + srtcpIndexSize)) encrypted in
    expectedTag ← generateSrtcpAuthTag k (take (n - authTagLen) encrypted);
    let actualTag := drop (n - authTagLen) encrypted in
    if negb (same_bytes actualTag expectedTag) then Err errFailedToVerifyAuthTag
    else if (length out <? 8)%nat then Panic
    else
      let counter := generateCounter (u16 (Z.land index 0xffff)) (Z.shiftr index 16) ssrc (srtcpSessionSalt k) in
      x ← xorBytesCTR (srtcpKey k) counter (drop 8 out);
      Ok (take 8 out ++ x).

Definition be_word (l : list Z) : Z := match l with [a; b; c; d] => word32 a b c d | _ => 0 end.

Definition cm_getRTCPIndex (k : keys) (in_ : list Z) : xres Z :=
  authTagLen ← rtcpAuthTagLen (profile k);
  if (length in_ <? authTagLen + srtcpIndexSize)%nat then Panic
  else Ok (Z.ldiff (be_word (take 4 (drop (length in_ - (authTagLen + srtcpIndexSize)) in_))) (2 ^ 31)).

Definition rtpInitializationVector (k : keys) (header : Rtp.Header) (roc : Z) : list Z :=
  xor_bytes (zeros 2 ++ be32 (Rtp.SSRC header) ++ be32 roc ++ be16 (Rtp.SequenceNumber header)) (srtpSessionSalt k).
Definition rtcpInitializationVector (k : keys) (srtcpIndex ssrc : Z) : list Z :=
  xor_bytes (zeros 2 ++ be32 ssrc ++ zeros 2 ++ be32 srtcpIndex) (srtcpSessionSalt k).
Definition rtcpAdditionalAuthenticatedData (rtcpPacket : list Z) (srtcpIndex : Z) : list Z :=
  take 8 rtcpPacket ++
  [Z.lor (u8 (Z.shiftr srtcpIndex 24)) 0x80; u8 (Z.shiftr srtcpIndex 16); u8 (Z.shiftr srtcpIndex 8); u8 srtcpIndex].

(** Seal appends to dst[n:n], within its capacity. *)
Definition gcm_encryptRTP (k : keys) (dst : slice) (header : Rtp.Header) (payload : list Z) (roc : Z) : xres (list Z) :=
  authTagLen ← aeadAuthTagLen (profile k);
  size ← with_err errRtp (Rtp.Header_MarshalSize header);
  let buf := growBufferSize dst (size + length payload + authTagLen) in
  r ← with_err errRtp (Rtp.Header_MarshalTo header buf);
  let '(buf, n) := r in
  put buf n (gcm_Seal (srtpKey k) (rtpInitializationVector k header roc) payload (take n buf)).

Definition gcm_decryptRTP (k : keys) (ciphertext : slice) (header : Rtp.Header) (headerLen : nat) (roc : Z) : xres (list Z) :=
  authTagLen ← aeadAuthTagLen (profile k);
  if (s_len ciphertext <? authTagLen)%nat then Err errFailedToVerifyAuthTag
  else
    let nDst := (s_len ciphertext - authTagLen)%nat in
    body ← s_from ciphertext headerLen;
    head ← s_sub ciphertext 0 headerLen;
    match gcm_Open (srtpKey k) (rtpInitializationVector k header roc) (s_bytes body) (s_bytes head) with
    | None => Err errOpen
    | Some out => Ok (take nDst (s_bytes head ++ out))
    end.

Definition gcm_encryptRTCP (k : keys) (decrypted : list Z) (srtcpIndex ssrc : Z) : xres (list Z) :=
  _ ← aeadAuthTagLen (profile k);
  if (length decrypted <? 8)%nat then Panic
  else
    let aad := rtcpAdditionalAuthenticatedData decrypted srtcpIndex in
    Ok (take 8 decrypted ++
        gcm_Seal (srtcpKey k) (rtcpInitializationVector k srtcpIndex ssrc) (drop 8 decrypted) aad ++
        drop 8 aad).

Definition gcm_decryptRTCP (k : keys) (encrypted : list Z) (srtcpIndex ssrc : Z) : xres (list Z) :=
  authTagLen ← aeadAuthTagLen (profile k);
  if (length encrypted <? srtcpIndexSize + authTagLen)%nat then Err errFailedToVerifyAuthTag
  else
    let aadPos := (length encrypted - srtcpIndexSize)%nat in
    let aad := rtcpAdditionalAuthenticatedData encrypted srtcpIndex in
    match gcm_Open (srtcpKey k) (rtcpInitializationVector k srtcpIndex ssrc) (drop 8 (take aadPos encrypted)) aad with
    | None => Err errOpen
    | Some out => Ok (take (aadPos - authTagLen) (take 8 encrypted ++ out))
    end.

Definition gcm_getRTCPIndex (in_ : list Z) : xres Z :=
  if (length in_ <? 4)%nat then Panic
  else Ok (Z.ldiff (be_word (drop (length in_ - 4) in_)) (Z.shiftl 0x80 24)).

Definition cipher_encryptRTP (c : srtpCipher) : slice → Rtp.Header → list Z → Z → xres (list Z) :=
  match c with AesCmHmacSha1 k => cm_encryptRTP k | AeadAesGcm k => gcm_encryptRTP k end.
Definition cipher_decryptRTP (c : srtpCipher) : slice → Rtp.Header → nat → Z → xres (list Z) :=
  match c with AesCmHmacSha1 k => cm_decryptRTP k | AeadAesGcm k => gcm_decryptRTP k end.
Definition cipher_encryptRTCP (c : srtpCipher) : list Z → Z → Z → xres (list Z) :=
  match c with AesCmHmacSha1 k => cm_encryptRTCP k | AeadAesGcm k => gcm_encryptRTCP k end.
Definition cipher_decryptRTCP (c : srtpCipher) : list Z → Z → Z → xres (list Z) :=
  match c with AesCmHmacSha1 k => cm_decryptRTCP k | AeadAesGcm k => gcm_decryptRTCP k end.
Definition cipher_getRTCPIndex (c : srtpCipher) : list Z → xres Z :=
  match c with AesCmHmacSha1 k => cm_getRTCPIndex k | AeadAesGcm k => gcm_getRTCPIndex end.
End crypto.

(** ** context.go *)

Record srtpSSRCState := MkRtpState {
  rs_ssrc : Z;
  rs_index : Z;
  rolloverHasProcessed : bool;
  rs_replayDetector : ReplayDetector;
}.
Record srtcpSSRCState := MkRtcpState {
  srtcpIndex : Z;
  cs_ssrc : Z;
  cs_replayDetector : ReplayDetector;
}.

(** The functions that make a detector are the detectors they make. *)
Record Context := MkContext {
  cipher : srtpCipher;
  srtpSSRCStates : gmap Z srtpSSRCState;
  srtcpSSRCStates : gmap Z srtcpSSRCState;
  newSRTCPReplayDetector : ReplayDetector;
  newSRTPReplayDetector : ReplayDetector;
}.

(** option.go: the options set one of the two detectors. *)
Inductive ContextOption :=
  | SRTPReplayProtection (windowSize : Z)
  | SRTCPReplayProtection (windowSize : Z)
  | SRTPNoReplayProtection
  | SRTCPNoReplayProtection.
Definition apply_option (c : Context) (o : ContextOption) : Context :=
  let rtp d := MkContext (cipher c) (srtpSSRCStates c) (srtcpSSRCStates c) (newSRTCPReplayDetector c) d in
  let rtcp d := MkContext (cipher c) (srtpSSRCStates c) (srtcpSSRCStates c) d (newSRTPReplayDetector c) in
  match o with
  | SRTPReplayProtection n => rtp (WithWrap n maxSequenceNumber)
  | SRTCPReplayProtection n => rtcp (WithWrap n maxSRTCPIndex)
  | SRTPNoReplayProtection => rtp NoDetector
  | SRTCPNoReplayProtection => rtcp NoDetector
  end.

(** switch profile *)
Definition new_cipher `{SrtpCrypto} (p : Z) (masterKey masterSalt : list Z) : xres srtpCipher :=
  if is_gcm p then newSrtpCipherAeadAesGcm p masterKey masterSalt
  else if is_cm p then newSrtpCipherAesCmHmacSha1 p masterKey masterSalt
  else Err errNoSuchSRTPProfile.

Definition CreateContext `{SrtpCrypto} (masterKey masterSalt : list Z) (p : Z) (opts : list ContextOption) : xres Context :=
  keyLen ← keyLen p;
  saltLen ← saltLen p;
  _ ← fail_if (negb (length masterKey =? keyLen)%nat) errShortSrtpMasterKey;
  _ ← fail_if (negb (length masterSalt =? saltLen)%nat) errShortSrtpMasterSalt;
  cipher ← new_cipher p masterKey masterSalt;
  Ok (foldl apply_option (MkContext cipher ∅ ∅ NoDetector NoDetector)
        ([SRTPNoReplayProtection; SRTCPNoReplayProtection] ++ opts)).

(** The rollover count of a packet, and how far its index is from the highest
    one: uint32 and int32, which do not overflow in the differences. *)
Definition nextRolloverCount (s : srtpSSRCState) (sequenceNumber : Z) : Z * Z :=
  let seq := sequenceNumber in
  let localRoc := u32 (Z.shiftr (rs_index s) 16) in
  let localSeq := Z.land (rs_index s) (seqNumMax - 1) in
  if rolloverHasProcessed s then
    if seqNumMedian <? rs_index s then
      if localSeq <? seqNumMedian then
        if seqNumMedian <? seq - localSeq then (u32 (localRoc - 1), seq - localSeq - seqNumMax)
        else (localRoc, seq - localSeq)
      else
        if seq <? localSeq - seqNumMedian then (u32 (localRoc + 1), seq - localSeq + seqNumMax)
        else (localRoc, seq - localSeq)
    else (localRoc, seq - localSeq)
  else (localRoc, 0).

Definition updateRolloverCount (s : srtpSSRCState) (sequenceNumber difference : Z) : srtpSSRCState :=
  if negb (rolloverHasProcessed s) then
    MkRtpState (rs_ssrc s) (Z.lor (rs_index s) sequenceNumber) true (rs_replayDetector s)
  else if 0 <? difference then
    MkRtpState (rs_ssrc s) (uw (rs_index s + difference)) (rolloverHasProcessed s) (rs_replayDetector s)
  else s.

Definition set_rtp_detector (d : ReplayDetector) (s : srtpSSRCState) : srtpSSRCState :=
  MkRtpState (rs_ssrc s) (rs_index s) (rolloverHasProcessed s) d.
Definition set_rtcp_detector (d : ReplayDetector) (s : srtcpSSRCState) : srtcpSSRCState :=
  MkRtcpState (srtcpIndex s) (cs_ssrc s) d.

(** c.srtpSSRCStates[ssrc] = s: the states are shared through pointers, so a
    change of one is a change of the map. *)
Definition put_rtp (ssrc : Z) (s : srtpSSRCState) (c : Context) : Context :=
  MkContext (cipher c) (<[ssrc := s]> (srtpSSRCStates c)) (srtcpSSRCStates c)
    (newSRTCPReplayDetector c) (newSRTPReplayDetector c).
Definition put_rtcp (ssrc : Z) (s : srtcpSSRCState) (c : Context) : Context :=
  MkContext (cipher c) (srtpSSRCStates c) (<[ssrc := s]> (srtcpSSRCStates c))
    (newSRTCPReplayDetector c) (newSRTPReplayDetector c).

Definition getSRTPSSRCState (c : Context) (ssrc : Z) : srtpSSRCState * Context :=
  match srtpSSRCStates c !! ssrc with
  | Some s => (s, c)
  | None => let s := MkRtpState ssrc 0 false (newSRTPReplayDetector c) in (s, put_rtp ssrc s c)
  end.
Definition getSRTCPSSRCState (c : Context) (ssrc : Z) : srtcpSSRCState * Context :=
  match srtcpSSRCStates c !! ssrc with
  | Some s => (s, c)
  | None => let s := MkRtcpState 0 ssrc (newSRTCPReplayDetector c) in (s, put_rtcp ssrc s c)
  end.

Definition ROC (c : Context) (ssrc : Z) : option Z :=
  s ← srtpSSRCStates c !! ssrc; Some (u32 (Z.shiftr (rs_index s) 16)).

(** roc<<16 is a uint32. *)
Definition SetROC (c : Context) (ssrc roc : Z) : Context :=
  let '(s, c) := getSRTPSSRCState c ssrc in
  put_rtp ssrc (MkRtpState (rs_ssrc s) (Z.lor (u32 (Z.shiftl roc 16)) (Z.land (rs_index s) (seqNumMax - 1)))
    (rolloverHasProcessed s) (rs_replayDetector s)) c.

Definition Index (c : Context) (ssrc : Z) : option Z :=
  s ← srtcpSSRCStates c !! ssrc; Some (srtcpIndex s).
Definition SetIndex (c : Context) (ssrc index : Z) : Context :=
  let '(s, c) := getSRTCPSSRCState c ssrc in
  put_rtcp ssrc (MkRtcpState (index mod (maxSRTCPIndex + 1)) (cs_ssrc s) (cs_replayDetector s)) c.

(** ** srtp.go *)

Section context.
Context `{SrtpCrypto}.

(** growBufferSize(dst, len(ciphertext)-authTagLen) is a panic for a negative
    size. *)
Definition decryptRTP (c : Context) (ciphertext : slice) (header : Rtp.Header) (headerLen : nat)
    : Context * xres (list Z) :=
  let ssrc := Rtp.SSRC header in
  let seq := Rtp.SequenceNumber header in
  let '(s, c) := getSRTPSSRCState c ssrc in
  let '(d, ok) := Check_seq (rs_replayDetector s) seq in
  let s := set_rtp_detector d s in
  let c := put_rtp ssrc s c in
  match ok with
  | None => (c, Err (duplicatedError "srtp" ssrc (u32 seq)))
  | Some markAsValid =>
      let '(roc, diff) := nextRolloverCount s seq in
      let r :=
        authTagLen ← rtpAuthTagLen (cipher_profile (cipher c));
        if (s_len ciphertext <? authTagLen)%nat then Panic
        else cipher_decryptRTP (cipher c) ciphertext header headerLen roc in
      match r with
      | Ok dst => (put_rtp ssrc (updateRolloverCount (set_rtp_detector (markAsValid d) s) seq diff) c, Ok dst)
      | r => (c, r)
      end
  end.

Definition DecryptRTP (c : Context) (encrypted : slice) : Context * xres (list Z) :=
  match with_err errRtp (Rtp.Header_Unmarshal Rtp.empty_header encrypted) with
  | Ok (header, headerLen) => decryptRTP c encrypted header headerLen
  | Err e => (c, Err e)
  | Panic => (c, Panic)
  | Diverge => (c, Diverge)
  end.

Definition encryptRTP (c : Context) (dst : slice) (header : Rtp.Header) (payload : list Z) : Context * xres (list Z) :=
  let ssrc := Rtp.SSRC header in
  let '(s, c) := getSRTPSSRCState c ssrc in
  let '(roc, diff) := nextRolloverCount s (Rtp.SequenceNumber header) in
  let c := put_rtp ssrc (updateRolloverCount s (Rtp.SequenceNumber header) diff) c in
  (c, cipher_encryptRTP (cipher c) dst header payload roc).

Definition EncryptRTP (c : Context) (dst : slice) (plaintext : slice) : Context * xres (list Z) :=
  match with_err errRtp (Rtp.Header_Unmarshal Rtp.empty_header plaintext) with
  | Ok (header, headerLen) =>
      match s_from plaintext headerLen with
      | Ok payload => encryptRTP c dst header (s_bytes payload)
      | Err e => (c, Err e)
      | Panic => (c, Panic)
      | Diverge => (c, Diverge)
      end
  | Err e => (c, Err e)
  | Panic => (c, Panic)
  | Diverge => (c, Diverge)
  end.

(** ** srtcp.go *)

(** isEncrypted == 0: the packet is returned as it is. *)
Definition decryptRTCP (c : Context) (encrypted : list Z) : Context * xres (list Z) :=
  let lens :=
    authTagLen ← rtcpAuthTagLen (cipher_profile (cipher c));
    aeadAuthTagLen ← aeadAuthTagLen (cipher_profile (cipher c));
    Ok (authTagLen, aeadAuthTagLen) in
  match lens with
  | Ok (authTagLen, aeadAuthTagLen) =>
      let tailOffset := Z.of_nat (length encrypted) - Z.of_nat (authTagLen + srtcpIndexSize) in
      if tailOffset <? Z.of_nat aeadAuthTagLen then (c, Err errTooShortRTCP)
      else if Z.shiftr (nth (Z.to_nat tailOffset) encrypted 0) 7 =? 0 then (c, Ok encrypted)
      else
        match cipher_getRTCPIndex (cipher c) encrypted, get32_at (of_bytes encrypted) 4 with
        | Ok index, Ok ssrc =>
            let '(s, c) := getSRTCPSSRCState c ssrc in
            let '(d, ok) := Check_seq (cs_replayDetector s) index in
            let s := set_rtcp_detector d s in
            let c := put_rtcp ssrc s c in
            match ok with
            | None => (c, Err (duplicatedError "srtcp" ssrc index))
            | Some markAsValid =>
                match cipher_decryptRTCP (cipher c) encrypted index ssrc with
                | Ok out => (put_rtcp ssrc (set_rtcp_detector (markAsValid d) s) c, Ok out)
                | r => (c, r)
                end
            end
        | Err e, _ | _, Err e => (c, Err e)
        | Panic, _ | _, Panic => (c, Panic)
        | Diverge, _ => (c, Diverge)
        | _, Diverge => (c, Diverge)
        end
  | Err e => (c, Err e)
  | Panic => (c, Panic)
  | Diverge => (c, Diverge)
  end.

Definition DecryptRTCP (c : Context) (encrypted : slice) : Context * xres (list Z) :=
  match with_err errRtcp (Rtcp.Header_Unmarshal encrypted) with
  | Ok _ => decryptRTCP c (s_bytes encrypted)
  | Err e => (c, Err e)
  | Panic => (c, Panic)
  | Diverge => (c, Diverge)
  end.

Definition encryptRTCP (c : Context) (decrypted : list Z) : Context * xres (list Z) :=
  match get32_at (of_bytes decrypted) 4 with
  | Ok ssrc =>
      let '(s, c) := getSRTCPSSRCState c ssrc in
      let index := u32 (srtcpIndex s + 1) in
      let index := if maxSRTCPIndex <? index then 0 else index in
      let c := put_rtcp ssrc (MkRtcpState index (cs_ssrc s) (cs_replayDetector s)) c in
      (c, cipher_encryptRTCP (cipher c) decrypted index ssrc)
  | Err e => (c, Err e)
  | Panic => (c, Panic)
  | Diverge => (c, Diverge)
  end.

Definition EncryptRTCP (c : Context) (decrypted : slice) : Context * xres (list Z) :=
  match with_err errRtcp (Rtcp.Header_Unmarshal decrypted) with
  | Ok _ => encryptRTCP c (s_bytes decrypted)
  | Err e => (c, Err e)
  | Panic => (c, Panic)
  | Diverge => (c, Diverge)
  end.

(** ** Sessions

    What happens to one datagram of the read loop of a session: the streams it
    is written to and the bytes. *)
Definition defaultSessionSRTPReplayProtectionWindow : Z := 64.
Definition defaultSessionSRTCPReplayProtectionWindow : Z := 64.

(** func (s *SessionSRTP) decrypt(buf []byte) error *)
Definition SessionSRTP_decrypt (c : Context) (buf : slice) : Context * xres (Z * list Z) :=
  match with_err errRtp (Rtp.Header_Unmarshal Rtp.empty_header buf) with
  | Ok (h, headerLen) =>
      let r := decryptRTP c buf h headerLen in
      (r.1, decrypted ← r.2; Ok (Rtp.SSRC h, decrypted))
  | Err e => (c, Err e)
  | Panic => (c, Panic)
  | Diverge => (c, Diverge)
  end.

(** func destinationSSRC(pkts []rtcp.Packet) []uint32: a set, in any order. *)
Definition destinationSSRC (pkts : list RtcpPacket.Packet) : gset Z :=
  list_to_set (flat_map RtcpPacket.DestinationSSRC pkts).

(** func (s *SessionSRTCP) decrypt(buf []byte) error; the packets are read from
    the buffer the datagram came in. *)
Definition SessionSRTCP_decrypt (c : Context) (buf : slice) : Context * xres (gset Z * list Z) :=
  let r := DecryptRTCP c buf in
  (r.1,
   decrypted ← r.2;
   pkt ← with_err errRtcp (RtcpPacket.Unmarshal (Slice (decrypted ++ drop (length decrypted) (s_arr buf)) (length decrypted)));
   Ok (destinationSSRC pkt, decrypted)).
End context.
