(* ===== verification/SrtpProps.v ===== *)
(** * Secure RTP: what is encrypted is decrypted, once

    Counter mode is its own inverse and both ciphers give back what they
    protected; sender and receiver agree on the rollover count; and with the
    replay window, whatever a network does to the order and number of packets
    within reach of the window, each packet that arrives is delivered exactly
    once and as it was sent. *)

From stdpp Require Import gmap.
From S2P Require Import Prelude GoLib Bytes Rtcp RtcpPacket Rtp RtpProps Replay ReplayProps Srtp.

(** What is documented of the primitives: sizes, and that Open inverts Seal. *)
Class SrtpCryptoOk `{SrtpCrypto} : Prop := {
  aes_size : ∀ key block, length block = 16%nat → length (aes_Encrypt key block) = 16%nat;
  hmac_size : ∀ key msg, length (hmac_sha1 key msg) = 20%nat;
  gcm_size : ∀ key nonce plain data, length (gcm_Seal key nonce plain data) = (length plain + 16)%nat;
  gcm_inverse : ∀ key nonce plain data, gcm_Open key nonce (gcm_Seal key nonce plain data) data = Some plain;
}.

Section crypto.
Context `{SrtpCryptoOk}.

(** ** Counter mode *)

Lemma length_incr_le l : length (incr_le l) = length l.
Proof. induction l as [|x l IH]; [done|]. simpl. case_match; simpl; [by rewrite IH | done]. Qed.
Lemma length_incrementCTR l : length (incrementCTR l) = length l.
Proof. unfold incrementCTR. by rewrite length_reverse, length_incr_le, length_reverse. Qed.

Lemma xor_bytes_twice a b : (length a <= length b)%nat → xor_bytes (xor_bytes a b) b = a.
Proof.
  revert b. induction a as [|x a IH]; intros [|y b] Hl; simpl in *; try lia; [done..|].
  by rewrite IH, Z.lxor_assoc, Z.lxor_nilpotent, Z.lxor_0_r by lia.
Qed.
Lemma length_xor_bytes a b : length (xor_bytes a b) = Nat.min (length a) (length b).
Proof. unfold xor_bytes. by rewrite length_zip_with. Qed.

Lemma ctr_loop_inverse fuel : ∀ key ctr src, length ctr = 16%nat → (length src < fuel)%nat →
  ∃ out, ctr_loop fuel key ctr src = Ok out ∧ length out = length src ∧ ctr_loop fuel key ctr out = Ok src.
Proof.
  induction fuel as [|fuel IH]; intros key ctr src Hc Hl; [lia|]. destruct src as [|x src]; [by exists []|].
  set (s := x :: src) in *. pose proof (aes_size key ctr Hc) as Hs. set (stream := aes_Encrypt key ctr) in *.
  set (n := Nat.min (length s) 16). assert (0 < n <= length s)%nat as Hn by (unfold n, s; simpl; lia).
  destruct (IH key (incrementCTR ctr) (drop n s)) as (out & E1 & El & E2).
  { by rewrite length_incrementCTR. } { rewrite length_drop. lia. }
  rewrite length_drop in El.
  set (first := xor_bytes (take n s) stream).
  assert (length first = n) as Hf by (unfold first; rewrite length_xor_bytes, length_take; lia).
  exists (first ++ out). split_and!.
  - cbn [ctr_loop]. fold s stream. rewrite Hs. fold n. rewrite (proj2 (Nat.eqb_neq _ _)) by lia.
    unfold s at 1. rewrite E1. done.
  - rewrite length_app. lia.
  - cbn [ctr_loop]. fold stream. destruct (first ++ out) as [|y l] eqn:Ey.
    { apply (f_equal length) in Ey. rewrite length_app in Ey. simpl in Ey. lia. }
    rewrite <- Ey. rewrite length_app, Hs. replace (Nat.min _ 16) with n by lia.
    rewrite (proj2 (Nat.eqb_neq _ _)) by lia. rewrite <- Hf at 1. rewrite drop_app_length, E2, bind_Ok.
    rewrite <- Hf at 1. rewrite take_app_length. unfold first.
    rewrite xor_bytes_twice by (rewrite length_take; lia). by rewrite take_drop.
Qed.

Lemma xorBytesCTR_inverse key iv src : length iv = 16%nat →
  ∃ out, xorBytesCTR key iv src = Ok out ∧ length out = length src ∧ xorBytesCTR key iv out = Ok src.
Proof.
  intros Hi. unfold xorBytesCTR. rewrite Hi. change (negb (16 =? 16)%nat) with false. cbv iota.
  destruct (ctr_loop_inverse (S (length src)) key iv src Hi ltac:(lia)) as (out & E1 & E2 & E3).
  exists out. split_and!; [done..|]. by rewrite E2.
Qed.

Lemma length_generateCounter seq roc ssrc salt : length (generateCounter seq roc ssrc salt) = 16%nat.
Proof.
  unfold generateCounter. rewrite length_xor_bytes, length_take, !length_app, !length_zeros, !length_be32, length_be16. lia.
Qed.

(** ** The ciphers *)

Definition cipher_ok (c : srtpCipher) : Prop :=
  match c with
  | AesCmHmacSha1 k => is_cm (profile k) = true
  | AeadAesGcm k => is_gcm (profile k) = true
  end.

(** The bytes after the header of a protected packet. *)
Definition sealed (c : srtpCipher) (h : Rtp.Header) (payload : list Z) (roc : Z) : list Z :=
  match c with
  | AesCmHmacSha1 k =>
      match xorBytesCTR (srtpKey k) (generateCounter (Rtp.SequenceNumber h) roc (Rtp.SSRC h) (srtpSessionSalt k)) payload with
      | Ok out =>
          out ++ (match generateSrtpAuthTag k (wire_header h ++ out) roc with Ok t => t | _ => [] end)
      | _ => []
      end
  | AeadAesGcm k => gcm_Seal (srtpKey k) (rtpInitializationVector k h roc) payload (wire_header h)
  end.

Lemma cm_profile p : is_cm p = true →
  ∃ n, rtpAuthTagLen p = Ok n ∧ (n <= 10)%nat ∧ rtcpAuthTagLen p = Ok 10%nat ∧ aeadAuthTagLen p = Ok 0%nat.
Proof.
  unfold is_cm. intros [E%Z.eqb_eq|E%Z.eqb_eq]%orb_true_iff; subst; [exists 4%nat | exists 10%nat]; split_and!; (reflexivity || lia).
Qed.
Lemma gcm_profile p : is_gcm p = true →
  rtpAuthTagLen p = Ok 0%nat ∧ rtcpAuthTagLen p = Ok 0%nat ∧ aeadAuthTagLen p = Ok 16%nat.
Proof. unfold is_gcm. intros E%Z.eqb_eq. by subst. Qed.

Lemma length_growBufferSize dst n : (s_len dst <= s_cap dst)%nat → length (growBufferSize dst n) = n.
Proof.
  intros Hd. unfold growBufferSize. destruct (Nat.leb_spec n (s_cap dst)).
  - rewrite length_take. unfold s_cap in *. lia.
  - rewrite length_app, length_s_bytes, length_zeros by done. unfold s_cap in *. lia.
Qed.

Lemma drop_app_sub {A} (l k : list A) n : length l = n → drop n (l ++ k) = k.
Proof. intros <-. apply drop_app_length. Qed.

Lemma bytes_prefix b n : (n <= s_len b)%nat → s_bytes (Slice (drop 0 (s_arr b)) (n - 0)) = take n (s_bytes b).
Proof. intros Hn. unfold s_bytes. cbn [s_arr s_len]. rewrite drop_0, Nat.sub_0_r, take_take. f_equal. lia. Qed.

Lemma cipher_encrypts c dst h payload roc : cipher_ok c → header_ok h → (s_len dst <= s_cap dst)%nat →
  cipher_encryptRTP c dst h payload roc = Ok (wire_header h ++ sealed c h payload roc).
Proof.
  intros Hc Hh Hd. pose proof (hk_ext h Hh) as Hx. destruct c as [k|k]; cbn [cipher_ok cipher_encryptRTP sealed] in *.
  - destruct (cm_profile _ Hc) as (n & En & Hn & _). unfold cm_encryptRTP. rewrite En, bind_Ok.
    rewrite Header_MarshalSize_spec by done. cbn [with_err]. rewrite bind_Ok.
    set (buf := growBufferSize _ _).
    assert (length buf = length (wire_header h) + length payload + n)%nat as Hb by by apply length_growBufferSize.
    rewrite Header_MarshalTo_over by (done || lia). cbn [with_err]. rewrite bind_Ok. cbv beta iota.
    destruct (xorBytesCTR_inverse (srtpKey k)
      (generateCounter (Rtp.SequenceNumber h) roc (Rtp.SSRC h) (srtpSessionSalt k)) payload
      (length_generateCounter _ _ _ _)) as (out & -> & El & _). rewrite bind_Ok.
    rewrite put_tail by (rewrite ?length_drop; lia). rewrite bind_Ok. cbv zeta.
    rewrite <- El, <- length_app, take_app_length.
    unfold generateSrtpAuthTag. rewrite En, !bind_Ok.
    rewrite copy_tail; [| done | rewrite length_take, hmac_size, !length_drop; lia].
    rewrite bind_Ok. cbn [fst]. rewrite drop_ge by (rewrite length_take, hmac_size, !length_drop; lia).
    by rewrite app_nil_r, <- app_assoc.
  - destruct (gcm_profile _ Hc) as (_ & _ & En). unfold gcm_encryptRTP. rewrite En, bind_Ok.
    rewrite Header_MarshalSize_spec by done. cbn [with_err]. rewrite bind_Ok.
    set (buf := growBufferSize _ _).
    assert (length buf = length (wire_header h) + length payload + 16)%nat as Hb by by apply length_growBufferSize.
    rewrite Header_MarshalTo_over by (done || lia). cbn [with_err]. rewrite bind_Ok. cbv beta iota.
    rewrite take_app_length, put_tail by (rewrite ?gcm_size, ?length_drop; lia).
    rewrite drop_ge by (rewrite gcm_size, length_drop; lia). by rewrite app_nil_r.
Qed.

Lemma sealed_size c h payload roc : cipher_ok c →
  ∃ n, rtpAuthTagLen (cipher_profile c) = Ok n ∧ (n <= length (sealed c h payload roc))%nat.
Proof.
  intros Hc. destruct c as [k|k]; cbn [cipher_ok sealed cipher_profile cipher_keys] in *.
  - destruct (cm_profile _ Hc) as (n & En & Hn & _). exists n. split; [done|].
    destruct (xorBytesCTR_inverse (srtpKey k)
      (generateCounter (Rtp.SequenceNumber h) roc (Rtp.SSRC h) (srtpSessionSalt k)) payload
      (length_generateCounter _ _ _ _)) as (out & -> & El & _).
    unfold generateSrtpAuthTag. rewrite En, bind_Ok. rewrite length_app, length_take, hmac_size. lia.
  - destruct (gcm_profile _ Hc) as (En & _). exists 0%nat. split; [done | lia].
Qed.

Lemma cipher_decrypts c b h payload roc : cipher_ok c → (s_len b <= s_cap b)%nat →
  s_bytes b = wire_header h ++ sealed c h payload roc →
  cipher_decryptRTP c b h (length (wire_header h)) roc = Ok (wire_header h ++ payload).
Proof.
  intros Hc Hb Eb. assert (s_len b = length (wire_header h) + length (sealed c h payload roc))%nat as El.
  { rewrite <- length_app, <- Eb. by rewrite length_s_bytes. }
  destruct c as [k|k]; cbn [cipher_ok cipher_decryptRTP sealed] in *.
  - destruct (cm_profile _ Hc) as (n & En & Hn & _). unfold cm_decryptRTP. rewrite En, bind_Ok.
    destruct (xorBytesCTR_inverse (srtpKey k)
      (generateCounter (Rtp.SequenceNumber h) roc (Rtp.SSRC h) (srtpSessionSalt k)) payload
      (length_generateCounter _ _ _ _)) as (out & E1 & El1 & E2). rewrite E1 in *.
    unfold generateSrtpAuthTag in *. rewrite En, !bind_Ok in *.
    set (tag := take n _) in *.
    assert (length tag = n) as Ht by (unfold tag; rewrite length_take, hmac_size; lia).
    rewrite length_app in El. rewrite (proj2 (Nat.ltb_ge _ _)) by lia.
    assert (s_len b - n = length (wire_header h ++ out))%nat as Em by (rewrite length_app; lia).
    rewrite s_from_Ok, bind_Ok by lia. rewrite s_sub_Ok, bind_Ok by lia.
    rewrite s_bytes_drop, Eb, app_assoc, (drop_app_sub _ tag) by done.
    assert (s_bytes (Slice (drop 0 (s_arr b)) (s_len b - n - 0)) = wire_header h ++ out) as Ec.
    { rewrite bytes_prefix by lia. rewrite Eb, app_assoc, Em. apply take_app_length. }
    rewrite !bind_Ok, Ec. fold tag. unfold same_bytes. rewrite bool_decide_true by done. cbn [negb].
    rewrite s_sub_Ok by (unfold s_cap in *; cbn [s_arr]; rewrite drop_0; lia). rewrite bind_Ok.
    rewrite s_from_Ok by (cbn [s_len]; lia). rewrite bind_Ok.
    rewrite s_bytes_drop, Ec, drop_app_length, E2, bind_Ok. do 2 f_equal.
    rewrite bytes_prefix, Ec by (cbn [s_len]; lia). apply take_app_length.
  - destruct (gcm_profile _ Hc) as (_ & _ & En). unfold gcm_decryptRTP. rewrite En, bind_Ok.
    rewrite gcm_size in El. rewrite (proj2 (Nat.ltb_ge _ _)) by lia.
    rewrite s_from_Ok, bind_Ok by lia. rewrite s_sub_Ok, bind_Ok by (unfold s_cap in *; lia).
    rewrite s_bytes_drop, Eb, drop_app_length.
    assert (s_bytes (Slice (drop 0 (s_arr b)) (length (wire_header h) - 0)) = wire_header h) as ->.
    { rewrite bytes_prefix, Eb by lia. apply take_app_length. }
    rewrite gcm_inverse. do 2 f_equal. apply take_ge. rewrite length_app. lia.
Qed.
End crypto.

(** ** The rollover count *)

(** The state of a stream whose highest index so far is [i]. *)
Definition at_index (s : srtpSSRCState) (i : Z) : Prop :=
  rolloverHasProcessed s = true ∧ rs_index s = i ∧ 0 ≤ i < 2 ^ 48.

Lemma roc_near s i x : at_index s i → 0 ≤ x < 2 ^ 48 → - 2 ^ 15 < x - i < 2 ^ 15 →
  nextRolloverCount s (x mod 2 ^ 16) = (x / 2 ^ 16, x - i).
Proof.
  intros (Hp & Hi & Hr) Hx Hn. unfold nextRolloverCount, seqNumMedian, seqNumMax. rewrite Hp, Hi.
  rewrite Z.shiftr_div_pow2 by lia. change (2 ^ 16 - 1) with (Z.ones 16). rewrite Z.land_ones by lia.
  assert (0 ≤ i / 2 ^ 16 < 2 ^ 32) by (Z.div_mod_to_equations; lia).
  assert (0 ≤ x / 2 ^ 16 < 2 ^ 32) by (Z.div_mod_to_equations; lia).
  rewrite (u32_small (i / _)) by done.
  pose proof (Z.div_mod i (2 ^ 16) ltac:(lia)). pose proof (Z.div_mod x (2 ^ 16) ltac:(lia)).
  pose proof (Z.mod_pos_bound i (2 ^ 16) ltac:(lia)). pose proof (Z.mod_pos_bound x (2 ^ 16) ltac:(lia)).
  set (qi := i / 2 ^ 16) in *. set (qx := x / 2 ^ 16) in *. set (ri := i mod 2 ^ 16) in *. set (rx := x mod 2 ^ 16) in *.
  destruct (Z.ltb_spec (2 ^ 15) i); [destruct (Z.ltb_spec ri (2 ^ 15))|].
  - destruct (Z.ltb_spec (2 ^ 15) (rx - ri)).
    + assert (qx = qi - 1) by lia. rewrite u32_small by (unfold is_u32; lia). f_equal; lia.
    + assert (qx = qi) by lia. f_equal; lia.
  - destruct (Z.ltb_spec rx (ri - 2 ^ 15)).
    + assert (qx = qi + 1) by lia. rewrite u32_small by (unfold is_u32; lia). f_equal; lia.
    + assert (qx = qi) by lia. f_equal; lia.
  - assert (qi = 0) by lia. assert (qx = 0) by lia. f_equal; lia.
Qed.

Lemma update_near s i x : at_index s i → 0 ≤ x < 2 ^ 48 →
  updateRolloverCount s (x mod 2 ^ 16) (x - i) = MkRtpState (rs_ssrc s) (Z.max i x) true (rs_replayDetector s).
Proof.
  intros (Hp & Hi & Hr) Hx. unfold updateRolloverCount. rewrite Hp, Hi. simpl. destruct (Z.ltb_spec 0 (x - i)).
  - rewrite uw_small by lia. f_equal. lia.
  - rewrite Z.max_l by lia. destruct s; simpl in *. by subst.
Qed.

(** ** Streams *)

(** A packet with the index it has in its stream; the sequence number is its
    low part. *)
Record message := MkMessage { m_index : Z; m_header : Rtp.Header; m_payload : list Z }.

Definition message_ok (ssrc : Z) (m : message) : Prop :=
  header_ok (m_header m) ∧ Rtp.SSRC (m_header m) = ssrc ∧
  Rtp.SequenceNumber (m_header m) = m_index m mod 2 ^ 16 ∧ 0 ≤ m_index m < 2 ^ 48.

Definition plain (m : message) : list Z := wire_header (m_header m) ++ m_payload m.

(** The indices of a sender: the first one is below 2^16, and each is nearer
    than 2^15 to the highest one before. *)
Fixpoint steady (i : option Z) (l : list Z) : bool :=
  match l with
  | [] => true
  | x :: l =>
      match i with
      | None => (x <? 2 ^ 16) && steady (Some x) l
      | Some i => (- 2 ^ 15 <? x - i) && (x - i <? 2 ^ 15) && steady (Some (Z.max i x)) l
      end
  end.

Section streams.
Context `{SrtpCryptoOk}.

(** The bytes of a message on the wire. *)
Definition on_air (c : srtpCipher) (m : message) : list Z :=
  wire_header (m_header m) ++ sealed c (m_header m) (m_payload m) (m_index m / 2 ^ 16).

Fixpoint send (c : Context) (dst : slice) (l : list message) : list (xres (list Z)) :=
  match l with
  | [] => []
  | m :: l => let r := encryptRTP c dst (m_header m) (m_payload m) in r.2 :: send r.1 dst l
  end.

Fixpoint receive_all (c : Context) (l : list slice) : list (xres (Z * list Z)) :=
  match l with
  | [] => []
  | b :: l => let r := SessionSRTP_decrypt c b in r.2 :: receive_all r.1 l
  end.

Definition sender_at (c : Context) (ssrc : Z) (i : option Z) : Prop :=
  match i with
  | None => srtpSSRCStates c !! ssrc = None
  | Some i => ∃ s, srtpSSRCStates c !! ssrc = Some s ∧ at_index s i
  end.

Lemma first_index x : 0 ≤ x < 2 ^ 16 → x mod 2 ^ 16 = x ∧ x / 2 ^ 16 = 0.
Proof. intros Hx. split; [by apply Z.mod_small | by apply Z.div_small]. Qed.

Lemma send_ok ssrc dst l : ∀ c i, sender_at c ssrc i → cipher_ok (cipher c) → (s_len dst <= s_cap dst)%nat →
  Forall (message_ok ssrc) l → steady i (map m_index l) = true →
  send c dst l = map (λ m, Ok (on_air (cipher c) m)) l.
Proof.
  induction l as [|m l IH]; intros c i Hs Hc Hd Hl Hst; [done|].
  apply Forall_cons in Hl as [(Hh & Hssrc & Hseq & Hx) Hl]. cbn [send map]. unfold encryptRTP.
  rewrite Hssrc, Hseq. unfold getSRTPSSRCState. destruct i as [i|]; simpl in Hs.
  - destruct Hs as (s & -> & Hi). cbn [map steady] in Hst.
    apply andb_true_iff in Hst as [[H1%Z.ltb_lt H2%Z.ltb_lt]%andb_true_iff Hst].
    rewrite (roc_near s i) by (done || lia). rewrite (update_near s i) by done. cbn [fst snd put_rtp cipher].
    rewrite cipher_encrypts by done. f_equal. erewrite IH; [reflexivity | | done | done | done | exact Hst].
    eexists. simpl. rewrite lookup_insert_eq. split; [done|]. destruct Hi as (? & ? & ?).
    split_and!; simpl; [done | done | lia | lia].
  - rewrite Hs. cbn [map steady] in Hst. apply andb_true_iff in Hst as [H1%Z.ltb_lt Hst].
    destruct (first_index (m_index m) ltac:(lia)) as [E1 E2]. unfold nextRolloverCount, updateRolloverCount. cbn [rolloverHasProcessed rs_index rs_ssrc rs_replayDetector negb fst snd put_rtp cipher].
    change (u32 (Z.shiftr 0 16)) with 0. rewrite E1, Z.lor_0_l. unfold on_air. rewrite E2.
    rewrite cipher_encrypts by done. f_equal. erewrite IH; [reflexivity | | done | done | done | exact Hst].
    eexists. simpl. rewrite lookup_insert_eq. split; [done|]. split_and!; simpl; (done || lia).
Qed.

(** The state of a receiver whose window implements [sp]. *)
Definition receiver_at (c : Context) (ssrc : Z) (sp : replay_spec) : Prop :=
  ∃ s d, srtpSSRCStates c !! ssrc = Some s ∧ at_index s (top sp) ∧ rs_replayDetector s = Wrapped d ∧
    shows 64 (2 ^ 16) d sp.

(** A protected message in a buffer with room behind it. *)
Definition arrival (c : srtpCipher) (m : message) (slack : list Z) : slice :=
  Slice (on_air c m ++ slack) (length (on_air c m)).

Lemma arrival_bytes c m slack : s_bytes (arrival c m slack) = on_air c m.
Proof. unfold s_bytes, arrival. cbn [s_arr s_len]. apply take_app_length. Qed.
Lemma arrival_cap c m slack : (s_len (arrival c m slack) <= s_cap (arrival c m slack))%nat.
Proof. unfold arrival, s_cap. cbn [s_arr s_len]. rewrite length_app. lia. Qed.

Definition verdict (ssrc : Z) (m : message) (v : bool) : xres (Z * list Z) :=
  if v then Ok (ssrc, plain m) else Err (duplicatedError "srtp" ssrc (m_index m mod 2 ^ 16)).

(** What the cipher makes of a message, with the count of rollovers. *)
Lemma decrypt_message c ssrc m slack : cipher_ok (cipher c) → message_ok ssrc m →
  ∃ n, rtpAuthTagLen (cipher_profile (cipher c)) = Ok n ∧ (s_len (arrival (cipher c) m slack) <? n)%nat = false ∧
    cipher_decryptRTP (cipher c) (arrival (cipher c) m slack) (m_header m) (length (wire_header (m_header m)))
      (m_index m / 2 ^ 16) = Ok (plain m).
Proof.
  intros Hc Hm. destruct (sealed_size (cipher c) (m_header m) (m_payload m) (m_index m / 2 ^ 16) Hc) as (n & En & Hn).
  exists n. split_and!; [done | |].
  - apply Nat.ltb_ge. simpl. unfold on_air. rewrite length_app. lia.
  - apply cipher_decrypts; [done | apply arrival_cap | apply arrival_bytes].
Qed.

Lemma read_header c ssrc m slack : message_ok ssrc m →
  Rtp.Header_Unmarshal Rtp.empty_header (arrival c m slack) = Ok (m_header m, length (wire_header (m_header m))).
Proof.
  intros (Hh & _). eapply rtp_header_unmarshal_wire; [done | done | apply arrival_cap |]. apply arrival_bytes.
Qed.

Lemma receive_first c ssrc m slack : cipher_ok (cipher c) → message_ok ssrc m → m_index m < 2 ^ 16 →
  srtpSSRCStates c !! ssrc = None → newSRTPReplayDetector c = WithWrap 64 (2 ^ 16 - 1) →
  ∃ c', SessionSRTP_decrypt c (arrival (cipher c) m slack) = (c', verdict ssrc m true) ∧ cipher c' = cipher c ∧
    receiver_at c' ssrc (record (start (m_index m)) (m_index m)).
Proof.
  intros Hc Hm Hx Hs Hd. destruct (decrypt_message c ssrc m slack Hc Hm) as (n & En & Hn & Ed).
  unfold SessionSRTP_decrypt. rewrite (read_header _ ssrc) by done. cbn [with_err]. unfold decryptRTP.
  destruct Hm as (Hh & Hssrc & Hseq & Hx0). destruct (first_index (m_index m) ltac:(lia)) as [E1 E2].
  rewrite Hssrc, Hseq. unfold getSRTPSSRCState. rewrite Hs. cbn [rs_replayDetector]. rewrite Hd.
  rewrite first_check by lia. pose proof (first_shows 64 (2 ^ 16) ltac:(lia) ltac:(done) ltac:(lia) (m_index m)) as Hsh.
  rewrite (check_shows 64 (2 ^ 16) ltac:(lia) ltac:(lia) ltac:(done) _ _ _ Hsh) by (change (2 ^ 16 / 2) with 32768; cbn [top start]; lia).
  assert (fresh 64 (start (m_index m)) (m_index m) = true) as Hf by (unfold fresh; simpl; rewrite (proj2 (Z.ltb_lt _ _)) by lia; done).
  rewrite Hf. unfold nextRolloverCount. cbn [set_rtp_detector rolloverHasProcessed rs_index put_rtp cipher].
  change (u32 (Z.shiftr 0 16)) with 0. rewrite E2 in Ed. rewrite En, bind_Ok, Hn, Ed. cbn [fst snd]. rewrite bind_Ok.
  eexists. split_and!; [done | done |]. eexists _, _. split_and!.
  - simpl. by rewrite lookup_insert_eq.
  - unfold updateRolloverCount. cbn [rolloverHasProcessed rs_index negb]. rewrite E1, Z.lor_0_l. split_and!; simpl; lia || done.
  - done.
  - change (m_index m - 1) with (top (start (m_index m))).
    apply wrapped_accept_shows; try done; try lia; change (2 ^ 16 / 2) with 32768; cbn [top start]; lia.
Qed.

Lemma receive_next c ssrc m slack sp : cipher_ok (cipher c) → message_ok ssrc m → receiver_at c ssrc sp →
  - 2 ^ 15 + 2 ≤ top sp - m_index m < 2 ^ 15 →
  (fresh 64 sp (m_index m) = true → top sp < m_index m ∨ m_index m / 2 ^ 16 = top sp / 2 ^ 16) →
  ∃ c', SessionSRTP_decrypt c (arrival (cipher c) m slack) = (c', verdict ssrc m (spec_receive 64 sp (m_index m, true)).2) ∧
    cipher c' = cipher c ∧ receiver_at c' ssrc (spec_receive 64 sp (m_index m, true)).1.
Proof.
  intros Hc Hm (s & d & Hs & Hi & Hd & Hsh) Hx Hf. destruct (decrypt_message c ssrc m slack Hc Hm) as (n & En & Hn & Ed).
  unfold SessionSRTP_decrypt, spec_receive. rewrite (read_header _ ssrc) by done. cbn [with_err fst snd].
  destruct Hm as (Hh & Hssrc & Hseq & Hx0). unfold decryptRTP. rewrite Hssrc, Hseq. unfold getSRTPSSRCState. rewrite Hs, Hd.
  rewrite (check_shows 64 (2 ^ 16) ltac:(lia) ltac:(lia) ltac:(done) _ _ _ Hsh) by (change (2 ^ 16 / 2) with 32768; lia).
  rewrite andb_true_r. destruct (fresh 64 sp (m_index m)) eqn:E.
  - assert (at_index (set_rtp_detector (Wrapped d) s) (top sp)) as Hi' by done.
    rewrite (roc_near _ _ _ Hi') by lia. cbn [put_rtp cipher].
    rewrite En, bind_Ok, Hn, Ed. cbn [fst snd]. rewrite bind_Ok.
    assert (at_index (set_rtp_detector (accept_fun (m_index m mod 2 ^ 16) (top sp - m_index m) (Wrapped d))
      (set_rtp_detector (Wrapped d) s)) (top sp)) as Hi2 by done.
    rewrite (update_near _ _ _ Hi2) by lia.
    eexists. split_and!; [done | done |]. eexists _, _. simpl. rewrite lookup_insert_eq. split_and!; [done | | done |].
    + destruct Hi as (_ & _ & ?). split_and!; simpl; lia || done.
    + apply wrapped_accept_shows; try done; try lia; change (2 ^ 16 / 2) with 32768; auto; lia.
  - assert (u32 (m_index m mod 2 ^ 16) = m_index m mod 2 ^ 16) as ->.
    { apply u32_small. unfold is_u32. pose proof (Z.mod_pos_bound (m_index m) (2 ^ 16)). lia. }
    eexists. split_and!; [done | done |]. eexists _, _. simpl. rewrite lookup_insert_eq. by split_and!.
Qed.

(** A delivery: a message and what lies behind it in the buffer. *)
Definition indices (ds : list (message * list Z)) : list (Z * bool) := map (λ d, (m_index d.1, true)) ds.

Lemma receive_all_next ssrc ds : ∀ c sp, cipher_ok (cipher c) → Forall (λ d, message_ok ssrc d.1) ds →
  receiver_at c ssrc sp → in_reach 64 (2 ^ 16) sp (indices ds) = true →
  receive_all c (map (λ d, arrival (cipher c) d.1 d.2) ds) =
    zip_with (λ d v, verdict ssrc d.1 v) ds (spec_run 64 sp (indices ds)).
Proof.
  induction ds as [|[m slack] ds IH]; intros c sp Hc Hds Hr Hin; [done|].
  apply Forall_cons in Hds as [Hm Hds]. cbn [indices map in_reach fst snd] in Hin.
  apply andb_true_iff in Hin as [[[H1%Z.leb_le H2%Z.ltb_lt]%andb_true_iff H3]%andb_true_iff Hin].
  change (2 ^ 16 / 2) with 32768 in *.
  destruct (receive_next c ssrc m slack sp Hc Hm Hr) as (c' & E & Ec & Hr'); [lia | |].
  { intros Hf. rewrite Hf in H3. simpl in H3. apply orb_true_iff in H3 as [?%Z.ltb_lt|?%Z.eqb_eq]; auto. }
  cbn [map receive_all indices spec_run zip_with fst snd]. rewrite E. cbn [fst snd]. f_equal.
  rewrite <- Ec. apply IH; [by rewrite Ec | done..].
Qed.
End streams.

(** ** Contexts *)

Lemma options_keep opts : ∀ c, cipher (foldl apply_option c opts) = cipher c ∧
  srtpSSRCStates (foldl apply_option c opts) = srtpSSRCStates c ∧
  srtcpSSRCStates (foldl apply_option c opts) = srtcpSSRCStates c.
Proof. induction opts as [|o opts IH]; intros c; [done|]. simpl. destruct (IH (apply_option c o)) as (-> & -> & ->). by destruct o. Qed.

Lemma new_cipher_ok `{SrtpCrypto} p key salt ci : new_cipher p key salt = Ok ci → cipher_ok ci ∧ cipher_profile ci = p.
Proof.
  unfold new_cipher, newSrtpCipherAeadAesGcm, newSrtpCipherAesCmHmacSha1.
  destruct (is_gcm p) eqn:Eg; [|destruct (is_cm p) eqn:Ec; [|done]]; intros E;
    repeat (apply bind_Ok_inv in E as (? & _ & E)); injection E as <-; by split.
Qed.

Lemma CreateContext_made `{SrtpCrypto} key salt p opts c : CreateContext key salt p opts = Ok c →
  ∃ ci, new_cipher p key salt = Ok ci ∧
    c = foldl apply_option (MkContext ci ∅ ∅ NoDetector NoDetector) ([SRTPNoReplayProtection; SRTCPNoReplayProtection] ++ opts).
Proof.
  unfold CreateContext. intros E. do 4 apply bind_Ok_inv in E as (? & _ & E).
  apply bind_Ok_inv in E as (ci & Ec & E). injection E as <-. by exists ci.
Qed.


(** ** SRTCP *)

Lemma get_ssrc pkt : (8 <= length pkt)%nat → ∃ ssrc, get32_at (E := srtp_err) (of_bytes pkt) 4 = Ok ssrc.
Proof.
  intros Hl. unfold get32_at. rewrite s_from_Ok by (simpl; lia). rewrite bind_Ok. unfold get32. rewrite s_bytes_drop, s_bytes_of_bytes.
  do 8 (destruct pkt as [|? pkt]; [simpl in Hl; lia|]). simpl. eauto.
Qed.

(** The word behind the packet: the index with the bit that says it is
    encrypted. *)
Definition index_word (i : Z) : list Z :=
  [Z.lor (u8 (Z.shiftr i 24)) 0x80; u8 (Z.shiftr i 16); u8 (Z.shiftr i 8); u8 i].

Lemma index_word_flag i : 0 ≤ i < 2 ^ 31 → (Z.shiftr (Z.lor (u8 (Z.shiftr i 24)) 0x80) 7 =? 0) = false.
Proof.
  intros Hi. apply Z.eqb_neq. intros E. apply (f_equal (λ z, Z.testbit z 0)) in E.
  rewrite Z.shiftr_spec, Z.lor_spec, Z.bits_0 in E by lia. by rewrite orb_true_r in E.
Qed.

Lemma index_word_read i : 0 ≤ i < 2 ^ 31 → Z.ldiff (be_word (index_word i)) (2 ^ 31) = i.
Proof.
  intros Hi. unfold index_word, be_word.
  assert (Z.lor (u8 (Z.shiftr i 24)) 0x80 = u8 (Z.shiftr i 24) + 128) as ->.
  { change 0x80 with (Z.shiftl 1 7). rewrite lor_shiftl_add; [done | lia |]. unfold u8. rewrite Z.shiftr_div_pow2 by lia.
    Z.div_mod_to_equations. lia. }
  rewrite word32_sum by apply u8_byte.
  assert (u8 i + u8 (Z.shiftr i 8) * 2 ^ 8 + u8 (Z.shiftr i 16) * 2 ^ 16 + (u8 (Z.shiftr i 24) + 128) * 2 ^ 24 =
    Z.lor i (Z.shiftl 1 31)) as ->.
  { rewrite lor_shiftl_add by lia. unfold u8. rewrite !Z.shiftr_div_pow2 by lia. Z.div_mod_to_equations. lia. }
  apply Z.bits_inj'. intros b Hb. rewrite Z.ldiff_spec, Z.lor_spec, Z.shiftl_1_l.
  destruct (decide (b = 31)) as [->|].
  - rewrite Z.pow2_bits_true by lia. rewrite andb_false_r. symmetry. by apply (testbit_small i 31).
  - by rewrite Z.pow2_bits_false, orb_false_r, andb_true_r by lia.
Qed.

Section rtcp.
Context `{SrtpCryptoOk}.

(** What goes over the wire for a packet with an index. *)
Definition rtcp_on_air (c : srtpCipher) (pkt : list Z) (i ssrc : Z) : list Z :=
  match c with
  | AesCmHmacSha1 k =>
      match xorBytesCTR (srtcpKey k) (generateCounter (u16 (Z.land i 0xffff)) (Z.shiftr i 16) ssrc (srtcpSessionSalt k)) (drop 8 pkt) with
      | Ok out =>
          let m := take 8 pkt ++ out ++ index_word i in
          m ++ take 10 (hmac_sha1 (srtcpSessionAuth k) m)
      | _ => []
      end
  | AeadAesGcm k =>
      take 8 pkt ++ gcm_Seal (srtcpKey k) (rtcpInitializationVector k i ssrc) (drop 8 pkt)
        (rtcpAdditionalAuthenticatedData pkt i) ++ index_word i
  end.

Lemma rtcp_encrypts c pkt i ssrc : cipher_ok c → (8 <= length pkt)%nat →
  cipher_encryptRTCP c pkt i ssrc = Ok (rtcp_on_air c pkt i ssrc).
Proof.
  intros Hc Hl. destruct c as [k|k]; cbn [cipher_ok cipher_encryptRTCP rtcp_on_air] in *.
  - destruct (cm_profile _ Hc) as (n & _ & _ & En & _). unfold cm_encryptRTCP.
    rewrite (proj2 (Nat.ltb_ge _ _)) by done.
    destruct (xorBytesCTR_inverse (srtcpKey k)
      (generateCounter (u16 (Z.land i 0xffff)) (Z.shiftr i 16) ssrc (srtcpSessionSalt k)) (drop 8 pkt)
      (length_generateCounter _ _ _ _)) as (out & -> & El & _). rewrite bind_Ok. unfold generateSrtcpAuthTag.
    rewrite En, !bind_Ok. unfold index_word. cbv zeta. by rewrite <- !(app_assoc (take 8 pkt)).
  - destruct (gcm_profile _ Hc) as (_ & _ & En). unfold gcm_encryptRTCP. rewrite En, bind_Ok.
    rewrite (proj2 (Nat.ltb_ge _ _)) by done. cbv zeta. do 3 f_equal.
    unfold rtcpAdditionalAuthenticatedData. rewrite drop_app_sub by (rewrite length_take; lia). done.
Qed.

Lemma take_sub {A} (l k : list A) n : length l = n → take n (l ++ k) = l.
Proof. intros <-. apply take_app_length. Qed.

Lemma rtcp_decrypts c pkt i ssrc : cipher_ok c → (8 <= length pkt)%nat →
  cipher_decryptRTCP c (rtcp_on_air c pkt i ssrc) i ssrc = Ok pkt.
Proof.
  intros Hc Hl. assert (length (take 8 pkt) = 8%nat) as Hh by (rewrite length_take; lia).
  destruct c as [k|k]; cbn [cipher_ok cipher_decryptRTCP rtcp_on_air] in *.
  - destruct (cm_profile _ Hc) as (n & _ & _ & En & _). unfold cm_decryptRTCP. rewrite En, bind_Ok.
    destruct (xorBytesCTR_inverse (srtcpKey k)
      (generateCounter (u16 (Z.land i 0xffff)) (Z.shiftr i 16) ssrc (srtcpSessionSalt k)) (drop 8 pkt)
      (length_generateCounter _ _ _ _)) as (out & -> & El & E2). cbv zeta.
    set (m := take 8 pkt ++ out ++ index_word i). set (tag := take 10 (hmac_sha1 _ _)).
    assert (length tag = 10%nat) as Ht by (unfold tag; rewrite length_take, hmac_size; done).
    assert (length m = 8 + length out + 4)%nat as Em by (unfold m; rewrite !length_app, Hh; simpl; lia).
    unfold srtcpIndexSize. rewrite length_app, Ht. rewrite (proj2 (Nat.ltb_ge _ _)) by lia.
    unfold generateSrtcpAuthTag. rewrite En, !bind_Ok.
    rewrite (take_sub m), (drop_app_sub m) by lia. fold tag. unfold same_bytes. rewrite bool_decide_true by done. cbn [negb].
    assert (take (length m + 10 - (10 + 4)) (m ++ tag) = take 8 pkt ++ out) as ->.
    { rewrite Em. unfold m. rewrite <- !app_assoc, (app_assoc (take 8 pkt)). apply take_sub. rewrite length_app, Hh. lia. }
    rewrite length_app, Hh, (proj2 (Nat.ltb_ge _ _)) by lia. rewrite (drop_app_sub (take 8 pkt)), (take_sub (take 8 pkt)) by done.
    rewrite E2, bind_Ok. by rewrite take_drop.
  - destruct (gcm_profile _ Hc) as (_ & _ & En). unfold gcm_decryptRTCP. rewrite En, bind_Ok.
    set (ct := gcm_Seal _ _ _ _). assert (length ct = length pkt - 8 + 16)%nat as Ec.
    { unfold ct. by rewrite gcm_size, length_drop. }
    unfold srtcpIndexSize. rewrite !length_app, Hh, Ec. change (length (index_word i)) with 4%nat.
    rewrite (proj2 (Nat.ltb_ge _ _)) by lia.
    assert (rtcpAdditionalAuthenticatedData (take 8 pkt ++ ct ++ index_word i) i = rtcpAdditionalAuthenticatedData pkt i) as ->.
    { unfold rtcpAdditionalAuthenticatedData. by rewrite (take_sub (take 8 pkt)). }
    rewrite app_assoc, (take_sub (take 8 pkt ++ ct)) by (rewrite length_app; lia).
    rewrite (drop_app_sub (take 8 pkt)) by done. unfold ct. rewrite gcm_inverse. f_equal.
    rewrite <- app_assoc, (take_sub (take 8 pkt)), take_drop by done. apply take_ge. lia.
Qed.

Fixpoint send_rtcp (c : Context) (l : list (list Z)) : list (xres (list Z)) :=
  match l with
  | [] => []
  | pkt :: l => let r := encryptRTCP c pkt in r.2 :: send_rtcp r.1 l
  end.
Fixpoint receive_rtcp (c : Context) (l : list (list Z)) : list (xres (list Z)) :=
  match l with
  | [] => []
  | b :: l => let r := decryptRTCP c b in r.2 :: receive_rtcp r.1 l
  end.

(** A packet of a stream, and packets with the indices they are sent with. *)
Definition rtcp_ok (ssrc : Z) (pkt : list Z) : Prop :=
  (8 <= length pkt)%nat ∧ get32_at (E := srtp_err) (of_bytes pkt) 4 = Ok ssrc.
Fixpoint numbered (i : Z) (l : list (list Z)) : list (Z * list Z) :=
  match l with
  | [] => []
  | pkt :: l => (i, pkt) :: numbered (i + 1) l
  end.

Lemma numbered_range l : ∀ i e, e ∈ numbered i l → i ≤ e.1 < i + Z.of_nat (length l) ∧ e.2 ∈ l.
Proof.
  induction l as [|p l IH]; intros i e; simpl; [by intros ?%elem_of_nil|]. intros [->|He]%elem_of_cons.
  - simpl. split; [lia | by left].
  - destruct (IH (i + 1) e He). split; [lia | by right].
Qed.

Definition rtcp_sender_at (c : Context) (ssrc i : Z) : Prop :=
  match srtcpSSRCStates c !! ssrc with Some s => srtcpIndex s = i | None => i = 0 end.

Lemma send_rtcp_ok ssrc l : ∀ c i, rtcp_sender_at c ssrc i → cipher_ok (cipher c) → Forall (rtcp_ok ssrc) l →
  0 ≤ i → i + Z.of_nat (length l) < 2 ^ 31 →
  send_rtcp c l = map (λ e, Ok (rtcp_on_air (cipher c) e.2 e.1 ssrc)) (numbered (i + 1) l).
Proof.
  induction l as [|pkt l IH]; intros c i Hs Hc Hl Hi Hn; [done|]. apply Forall_cons in Hl as [[Hp Hssrc] Hl].
  cbn [send_rtcp numbered map length fst snd] in *. unfold encryptRTCP. rewrite Hssrc.
  assert (∃ s c', getSRTCPSSRCState c ssrc = (s, c') ∧ srtcpIndex s = i ∧ cipher c' = cipher c) as (s & c' & -> & Ei & Ec).
  { unfold getSRTCPSSRCState, rtcp_sender_at in *. destruct (srtcpSSRCStates c !! ssrc) eqn:E; eauto 6. }
  rewrite Ei, u32_small by (unfold is_u32; lia). unfold maxSRTCPIndex. rewrite (proj2 (Z.ltb_ge _ _)) by lia.
  cbn [fst snd put_rtcp cipher]. rewrite Ec, rtcp_encrypts by done. f_equal.
  rewrite (IH _ (i + 1)); simpl; rewrite ?Ec; try done; try lia.
  unfold rtcp_sender_at. simpl. by rewrite lookup_insert_eq.
Qed.

(** What the receiver reads before it decrypts: the bit, the index, the ssrc. *)
Lemma rtcp_tail c pkt i ssrc : cipher_ok c → rtcp_ok ssrc pkt → 0 ≤ i < 2 ^ 31 →
  ∃ a b, rtcpAuthTagLen (cipher_profile c) = Ok a ∧ aeadAuthTagLen (cipher_profile c) = Ok b ∧
    let m := rtcp_on_air c pkt i ssrc in
    let tail := Z.of_nat (length m) - Z.of_nat (a + srtcpIndexSize) in
    (tail <? Z.of_nat b) = false ∧ (Z.shiftr (nth (Z.to_nat tail) m 0) 7 =? 0) = false ∧
    cipher_getRTCPIndex c m = Ok i ∧ get32_at (E := srtp_err) (of_bytes m) 4 = Ok ssrc.
Proof.
  intros Hc [Hp Hssrc] Hi. assert (length (take 8 pkt) = 8%nat) as Hh by (rewrite length_take; lia).
  assert (∃ x a b, rtcp_on_air c pkt i ssrc = (take 8 pkt ++ x ++ index_word i) ++ a ∧ (b <= length x)%nat ∧
    rtcpAuthTagLen (cipher_profile c) = Ok (length a) ∧ aeadAuthTagLen (cipher_profile c) = Ok b ∧
    cipher_getRTCPIndex c (rtcp_on_air c pkt i ssrc) =
      Ok (Z.ldiff (be_word (take 4 (drop (8 + length x) (rtcp_on_air c pkt i ssrc)))) (2 ^ 31))) as
    (x & a & b & E & Hb & Ea & Eb & Eg).
  { destruct c as [k|k]; cbn [cipher_ok cipher_profile cipher_keys cipher_getRTCPIndex rtcp_on_air] in *.
    - destruct (cm_profile _ Hc) as (n & _ & _ & En & Em).
      destruct (xorBytesCTR_inverse (srtcpKey k)
        (generateCounter (u16 (Z.land i 0xffff)) (Z.shiftr i 16) ssrc (srtcpSessionSalt k)) (drop 8 pkt)
        (length_generateCounter _ _ _ _)) as (out & -> & El & E2). cbv zeta.
      set (m := take 8 pkt ++ out ++ index_word i). set (tag := take 10 (hmac_sha1 _ _)).
      assert (length tag = 10%nat) as Ht by (unfold tag; rewrite length_take, hmac_size; done).
      assert (length m = 8 + length out + 4)%nat as Elm by (unfold m; rewrite !length_app, Hh; simpl; lia).
      exists out, tag, 0%nat. rewrite Ht. split_and!; [done | lia | done | done |].
      unfold cm_getRTCPIndex, srtcpIndexSize. rewrite En, bind_Ok, length_app, Ht, Elm.
      rewrite (proj2 (Nat.ltb_ge _ _)) by lia. do 5 f_equal. lia.
    - destruct (gcm_profile _ Hc) as (_ & En & Em). set (ct := gcm_Seal _ _ _ _).
      assert (length ct = length pkt - 8 + 16)%nat as Ec by (unfold ct; by rewrite gcm_size, length_drop).
      exists ct, [], 16%nat. rewrite app_nil_r. split_and!; [done | lia | done | done |].
      unfold gcm_getRTCPIndex. rewrite !length_app, Hh. change (length (index_word i)) with 4%nat.
      rewrite (proj2 (Nat.ltb_ge _ _)) by lia. change (Z.shiftl 0x80 24) with (2 ^ 31).
      replace (8 + (length ct + 4) - 4)%nat with (8 + length ct)%nat by lia. do 3 f_equal.
      rewrite app_assoc, drop_app_sub by (rewrite length_app; lia). done. }
  exists (length a), b. cbv zeta. rewrite Eg, E. unfold srtcpIndexSize.
  rewrite !length_app, Hh. change (length (index_word i)) with 4%nat.
  replace (Z.of_nat (8 + (length x + 4) + length a) - Z.of_nat (length a + 4)) with (Z.of_nat (8 + length x)) by lia.
  assert (drop (8 + length x) ((take 8 pkt ++ x ++ index_word i) ++ a) = index_word i ++ a) as Ed.
  { rewrite <- !app_assoc, app_assoc. apply drop_app_sub. rewrite length_app. lia. }
  split_and!; [done | done | apply Z.ltb_ge; lia | | |].
  - rewrite Nat2Z.id, <- (Nat.add_0_r (8 + length x)), <- nth_skipn, Ed. by apply index_word_flag.
  - rewrite Ed. change (take 4 (index_word i ++ a)) with (index_word i). by rewrite index_word_read.
  - rewrite <- Hssrc. unfold get32_at. rewrite !s_from_Ok by (simpl; rewrite ?length_app, ?Hh; lia). rewrite !bind_Ok.
    unfold get32. rewrite !s_bytes_drop, !s_bytes_of_bytes.
    do 8 (destruct pkt as [|? pkt]; [simpl in Hp; lia|]). done.
Qed.

(** The window of a stream of SRTCP packets; before the first one it is new. *)
Definition rtcp_receiver_at (c : Context) (ssrc : Z) (sp : replay_spec) : Prop :=
  ∃ s d, srtcpSSRCStates c !! ssrc = Some s ∧ cs_replayDetector s = Wrapped d ∧ shows 64 (2 ^ 31) d sp.

Definition rtcp_verdict (ssrc : Z) (e : Z * list Z) (v : bool) : xres (list Z) :=
  if v then Ok e.2 else Err (duplicatedError "srtcp" ssrc e.1).

(** The part of [decryptRTCP] after the state of the stream is known. *)
Lemma decryptRTCP_unfold c ssrc e : cipher_ok (cipher c) → rtcp_ok ssrc e.2 → 0 ≤ e.1 < 2 ^ 31 →
  decryptRTCP c (rtcp_on_air (cipher c) e.2 e.1 ssrc) =
    let '(s, c') := getSRTCPSSRCState c ssrc in
    let '(d, ok) := Check_seq (cs_replayDetector s) e.1 in
    let c1 := put_rtcp ssrc (set_rtcp_detector d s) c' in
    match ok with
    | None => (c1, Err (duplicatedError "srtcp" ssrc e.1))
    | Some accept => (put_rtcp ssrc (set_rtcp_detector (accept d) (set_rtcp_detector d s)) c1, Ok e.2)
    end.
Proof.
  intros Hc Hp Hi. destruct (rtcp_tail _ _ _ _ Hc Hp Hi) as (a & b & Ea & Eb & Ht & Hf & Eg & Es).
  unfold decryptRTCP. rewrite Ea, Eb, !bind_Ok. rewrite Ht, Hf, Eg, Es.
  assert (∃ s c', getSRTCPSSRCState c ssrc = (s, c') ∧ cipher c' = cipher c) as (s & c' & -> & Ec).
  { unfold getSRTCPSSRCState. destruct (srtcpSSRCStates c !! ssrc); eauto. }
  destruct (Check_seq _ _) as [d [accept|]]; [|done]. cbn [put_rtcp cipher]. rewrite Ec.
  by rewrite rtcp_decrypts by (done || apply Hp).
Qed.

Lemma put_rtcp_twice ssrc s s' c : put_rtcp ssrc s (put_rtcp ssrc s' c) = put_rtcp ssrc s c.
Proof. unfold put_rtcp. simpl. by rewrite insert_insert_eq. Qed.

(** The first packet of a stream finds a new window, put below its index. *)
Lemma first_rtcp c ssrc e : cipher_ok (cipher c) → rtcp_ok ssrc e.2 → 0 ≤ e.1 < 2 ^ 31 →
  srtcpSSRCStates c !! ssrc = None → newSRTCPReplayDetector c = WithWrap 64 (2 ^ 31 - 1) →
  decryptRTCP c (rtcp_on_air (cipher c) e.2 e.1 ssrc) =
  decryptRTCP (put_rtcp ssrc (MkRtcpState 0 ssrc (Wrapped (wrapped_init (new_window 64 (2 ^ 31 - 1)) e.1))) c)
    (rtcp_on_air (cipher c) e.2 e.1 ssrc).
Proof.
  intros Hc Hp Hi Hs Hd. rewrite decryptRTCP_unfold by done. set (c1 := put_rtcp _ _ _).
  change (cipher c) with (cipher c1). rewrite decryptRTCP_unfold by done.
  assert (srtcpSSRCStates c1 !! ssrc = Some (MkRtcpState 0 ssrc (Wrapped (wrapped_init (new_window 64 (2 ^ 31 - 1)) e.1)))) as E1
    by (unfold c1; simpl; by rewrite lookup_insert_eq).
  unfold getSRTCPSSRCState. rewrite Hs, E1.
  cbn [cs_replayDetector]. rewrite Hd.
  pose proof (first_check 64 (2 ^ 31) ltac:(lia) e.1) as Ef. rewrite Z.mod_small in Ef by lia. rewrite Ef. clear Ef.
  destruct (Check_seq _ _) as [d [accept|]]; unfold c1; by rewrite !put_rtcp_twice.
Qed.

Definition rtcp_indices (ds : list (Z * list Z)) : list (Z * bool) := map (λ e, (e.1, true)) ds.

Lemma receive_rtcp_next ssrc ds : ∀ c sp, cipher_ok (cipher c) →
  Forall (λ e, rtcp_ok ssrc e.2 ∧ 0 ≤ e.1 < 2 ^ 31) ds → rtcp_receiver_at c ssrc sp →
  in_reach 64 (2 ^ 31) sp (rtcp_indices ds) = true →
  receive_rtcp c (map (λ e, rtcp_on_air (cipher c) e.2 e.1 ssrc) ds) =
    zip_with (rtcp_verdict ssrc) ds (spec_run 64 sp (rtcp_indices ds)).
Proof.
  induction ds as [|e ds IH]; intros c sp Hc Hds (s & d & Hs & Hd & Hsh) Hin; [done|].
  apply Forall_cons in Hds as [[Hp Hi] Hds]. cbn [rtcp_indices map in_reach fst snd] in Hin.
  apply andb_true_iff in Hin as [[[H1%Z.leb_le H2%Z.ltb_lt]%andb_true_iff H3]%andb_true_iff Hin].
  cbn [map receive_rtcp rtcp_indices spec_run zip_with fst snd]. rewrite decryptRTCP_unfold by done.
  unfold getSRTCPSSRCState. rewrite Hs, Hd.
  pose proof (check_shows 64 (2 ^ 31) ltac:(lia) ltac:(lia) ltac:(done) _ _ _ Hsh (conj H1 H2)) as Ech.
  rewrite Z.mod_small in Ech by lia. rewrite Ech.
  unfold spec_receive in *. cbn [fst snd] in *. rewrite andb_true_r in *.
  destruct (fresh 64 sp e.1) eqn:Ef; cbn [fst snd andb] in *; f_equal.
  - match goal with |- receive_rtcp ?c' _ = _ => change (cipher c) with (cipher c') end. apply IH; [done | done | | done].
    eexists _, _. simpl. rewrite lookup_insert_eq. split_and!; [done | done |].
    rewrite <- (Z.mod_small e.1 (2 ^ 31)) at 1 by lia. apply wrapped_accept_shows; try done; try lia.
  - match goal with |- receive_rtcp ?c' _ = _ => change (cipher c) with (cipher c') end. apply IH; [done | done | | done].
    eexists _, _. simpl. rewrite lookup_insert_eq. by split_and!.
Qed.
End rtcp.

(** C22. Secure RTCP delivers each packet exactly once and as it was sent, whatever
    copies of the packets of a sender arrive in whatever order within reach of
    the replay window. *)
Theorem srtcp_exactly_once `{SrtpCryptoOk} key salt p opts cs cr ssrc l e ds :
  CreateContext key salt p opts = Ok cs → CreateContext key salt p [SRTCPReplayProtection 64] = Ok cr →
  Forall (rtcp_ok ssrc) l → Z.of_nat (length l) < 2 ^ 31 - 1 → Forall (λ e, e ∈ numbered 1 l) (e :: ds) →
  in_reach 64 (2 ^ 31) (start e.1) (rtcp_indices (e :: ds)) = true →
  let vs := spec_run 64 (start e.1) (rtcp_indices (e :: ds)) in
  send_rtcp cs l = map (λ e, Ok (rtcp_on_air (cipher cs) e.2 e.1 ssrc)) (numbered 1 l) ∧
  receive_rtcp cr (map (λ e, rtcp_on_air (cipher cs) e.2 e.1 ssrc) (e :: ds)) = zip_with (rtcp_verdict ssrc) (e :: ds) vs ∧
  NoDup (accepted (rtcp_indices (e :: ds)) vs).
Proof.
  intros (ci & Ei & ->)%CreateContext_made (ci' & Ei' & ->)%CreateContext_made Hl Hn Hds Hin vs.
  assert (ci' = ci) as -> by congruence. destruct (new_cipher_ok _ _ _ _ Ei) as [Hc _].
  destruct (options_keep ([SRTPNoReplayProtection; SRTCPNoReplayProtection] ++ opts) (MkContext ci ∅ ∅ NoDetector NoDetector))
    as (Ec & _ & Es). cbn [cipher srtcpSSRCStates] in Ec, Es. rewrite Ec. split_and!.
  - rewrite (send_rtcp_ok ssrc l _ 0); [by rewrite Ec | by unfold rtcp_sender_at; rewrite Es | by rewrite Ec | done | done | lia].
  - assert (Forall (λ e, rtcp_ok ssrc e.2 ∧ 0 ≤ e.1 < 2 ^ 31) (e :: ds)) as Hok.
    { eapply Forall_impl; [exact Hds|]. intros e' [? Hin']%numbered_range. split; [by eapply Forall_forall in Hl | lia]. }
    set (c0 := foldl _ _ _). set (c1 := put_rtcp ssrc (MkRtcpState 0 ssrc (Wrapped (wrapped_init (new_window 64 (2 ^ 31 - 1)) e.1))) c0).
    unfold vs. rewrite <- (receive_rtcp_next ssrc (e :: ds) c1 (start e.1)); [| done | done | | done].
    + apply Forall_cons in Hok as [[Hp Hi] Hok]. cbn [map receive_rtcp].
      change (rtcp_on_air ci) with (rtcp_on_air (cipher c0)). change (rtcp_on_air (cipher c1)) with (rtcp_on_air (cipher c0)).
      by rewrite (first_rtcp c0 ssrc e).
    + eexists _, _. simpl. rewrite lookup_insert_eq. split_and!; [done | done |].
      replace e.1 with (e.1 mod 2 ^ 31) at 1; [apply first_shows; lia || done|].
      apply Forall_cons in Hok as [[_ Hi] _]. by apply Z.mod_small.
  - apply spec_run_seen. set_solver.
Qed.

(** ** A sample *)

(** Primitives with the sizes and the inverse that are asked for. *)
Definition toy_crypto : SrtpCrypto := {|
  aes_Encrypt key block := take 16 (map (λ z, u8 (z + 1)) block ++ zeros 16);
  hmac_sha1 key msg := be32 (u32 (foldr Z.add 0 msg)) ++ zeros 16;
  gcm_Seal key nonce plain data := map (Z.lxor 1) plain ++ zeros 16;
  gcm_Open key nonce c data := Some (map (Z.lxor 1) (take (length c - 16) c));
|}.

Lemma toy_crypto_ok : @SrtpCryptoOk toy_crypto.
Proof.
  split; simpl; intros.
  - rewrite length_take, length_app, length_zeros. lia.
  - done.
  - by rewrite length_app, length_map.
  - f_equal. rewrite length_app, length_zeros. rewrite take_sub by (simpl; lia). rewrite map_map. erewrite map_ext; [apply map_id|].
    intros a. cbv beta. by rewrite <- Z.lxor_assoc.
Qed.

Definition sample_message (x : Z) : message :=
  MkMessage x (Rtp.MkHeader 2 false false false 96 (x mod 2 ^ 16) 1000 7 [] 0 []) [1; 2; 3].

Lemma sample_message_ok x : 0 ≤ x < 2 ^ 48 → message_ok 7 (sample_message x).
Proof.
  intros Hx. split_and!; [| done | done | simpl; lia..]. pose proof (Z.mod_pos_bound x (2 ^ 16)).
  split; simpl; unfold is_u16, is_u32; try lia; [constructor | done].
Qed.

Definition toy_context (p : Z) (salt : nat) (o : list ContextOption) : Context :=
  match @CreateContext toy_crypto (zeros 16) (zeros salt) p o with
  | Ok c => c
  | _ => MkContext (AesCmHmacSha1 (MkKeys 0 [] [] [] [] [] [])) ∅ ∅ NoDetector NoDetector
  end.


Definition sample_rtcp (n : Z) : list Z := [0x81; 206; 0; 2; 0; 0; 0; 7; 0; 0; 0; n].

Lemma srtcp_exactly_once_witness :
  let ds := [(3, sample_rtcp 30); (1, sample_rtcp 10); (3, sample_rtcp 30)] in
  @receive_rtcp toy_crypto (toy_context 7 12 [SRTCPReplayProtection 64])
    (map (λ e, @rtcp_on_air toy_crypto (cipher (toy_context 7 12 [])) e.2 e.1 7) ds) =
    [Ok (sample_rtcp 30); Ok (sample_rtcp 10); Err (duplicatedError "srtcp" 7 3)].
Proof.
  intros ds. pose proof toy_crypto_ok as Hok.
  destruct (@srtcp_exactly_once toy_crypto Hok (zeros 16) (zeros 12) 7 [] (toy_context 7 12 [])
    (toy_context 7 12 [SRTCPReplayProtection 64]) 7 (map sample_rtcp [10; 20; 30]) (3, sample_rtcp 30) (tail ds)) as (_ & E & _).
  1-6: first [reflexivity | (repeat constructor; simpl; lia) | (vm_compute; reflexivity) | (repeat constructor; simpl; set_solver)].
  exact E.
Defined.
