(* ===== verification/SrtpSafe.v ===== *)
(** * Secure RTP: packets that are not authentic

    What packets of somebody without the keys do to a session: nothing, once a
    stream has begun; but the first one of a stream sets the replay window, and
    an RTCP packet with the bit for encryption clear is not checked at all. *)

From stdpp Require Import gmap.
From S2P Require Import Prelude GoLib Bytes Rtcp RtcpPacket Rtp RtpProps Replay ReplayProps Srtp SrtpProps RtcpSafe.

Section safe.
Context `{SrtpCrypto}.

Definition failed {A} (r : xres A) : Prop := match r with Ok _ => False | _ => True end.

(** A stream that has begun: its window is set. *)
Definition begun (c : Context) (ssrc : Z) : Prop :=
  ∃ s d, srtpSSRCStates c !! ssrc = Some s ∧ rs_replayDetector s = Wrapped d ∧ init d = true.

Lemma check_begun d seq : init d = true → (Check_seq (Wrapped d) seq).1 = Wrapped d.
Proof. intros Hi. unfold Check_seq. destruct (maxSeq d <? seq); [done|]. unfold wrapped_init. by rewrite Hi. Qed.

Lemma put_rtp_same ssrc s c : srtpSSRCStates c !! ssrc = Some s → put_rtp ssrc s c = c.
Proof. intros Hs. unfold put_rtp. rewrite insert_id by done. by destruct c. Qed.

(** C37. A packet of a stream that has begun is refused, if it is, without a trace:
    the rollover count, the window and everything else stay as they were, so
    that somebody without the keys cannot move them. *)
Theorem refused_packet_leaves_no_trace c b h n :
  Rtp.Header_Unmarshal Rtp.empty_header b = Ok (h, n) → begun c (Rtp.SSRC h) →
  failed (SessionSRTP_decrypt c b).2 → (SessionSRTP_decrypt c b).1 = c.
Proof.
  intros Eh (s & d & Hs & Hd & Hi). unfold SessionSRTP_decrypt. rewrite Eh. cbn [with_err fst snd].
  unfold decryptRTP, getSRTPSSRCState. rewrite Hs, Hd.
  pose proof (check_begun d (Rtp.SequenceNumber h) Hi) as Hc. destruct (Check_seq _ _) as [d' ok]. simpl in Hc. subst d'.
  assert (put_rtp (Rtp.SSRC h) (set_rtp_detector (Wrapped d) s) c = c) as ->.
  { apply put_rtp_same. rewrite Hs. f_equal. destruct s; simpl in *. by subst. }
  destruct ok as [accept|]; [|done]. destruct (nextRolloverCount _ _) as [roc diff].
  destruct (rtpAuthTagLen (cipher_profile (cipher c)) ≫= _) as [out|e| |]; [|done..].
  simpl. by intros [].
Qed.

(** A number the window refuses is an error whatever the packet holds. *)
Lemma refused_by_window c b h n s :
  Rtp.Header_Unmarshal Rtp.empty_header b = Ok (h, n) → srtpSSRCStates c !! Rtp.SSRC h = Some s →
  (Check_seq (rs_replayDetector s) (Rtp.SequenceNumber h)).2 = None →
  (SessionSRTP_decrypt c b).2 = Err (duplicatedError "srtp" (Rtp.SSRC h) (u32 (Rtp.SequenceNumber h))).
Proof.
  intros Eh Hs Hc. unfold SessionSRTP_decrypt. rewrite Eh. cbn [with_err fst snd].
  unfold decryptRTP, getSRTPSSRCState. rewrite Hs. destruct (Check_seq _ _) as [d ok]. simpl in Hc. by subst.
Qed.

(** The state a first packet leaves if it is refused. *)
Lemma first_refused c b h n d f :
  Rtp.Header_Unmarshal Rtp.empty_header b = Ok (h, n) → srtpSSRCStates c !! Rtp.SSRC h = None →
  Check_seq (newSRTPReplayDetector c) (Rtp.SequenceNumber h) = (d, f) → failed (SessionSRTP_decrypt c b).2 →
  srtpSSRCStates (SessionSRTP_decrypt c b).1 !! Rtp.SSRC h = Some (MkRtpState (Rtp.SSRC h) 0 false d).
Proof.
  intros Eh Hs Hc. unfold SessionSRTP_decrypt. rewrite Eh. cbn [with_err fst snd].
  unfold decryptRTP, getSRTPSSRCState. rewrite Hs. cbn [rs_replayDetector]. rewrite Hc.
  destruct f as [accept|]; [|intros _; simpl; by rewrite lookup_insert_eq].
  destruct (nextRolloverCount _ _) as [roc diff].
  destruct (rtpAuthTagLen _ ≫= _) as [out|e| |]; [by intros []|..]; intros _; simpl; by rewrite lookup_insert_eq.
Qed.

(** The first packet of a stream, also a forged one, sets the window: a packet
    of the rightful sender with a number between 64 and 32767 below it is then
    refused as a duplicate, whatever it holds. *)
Theorem forged_first_blocks c b1 b2 h1 h2 n1 n2 :
  srtpSSRCStates c !! Rtp.SSRC h1 = None → newSRTPReplayDetector c = WithWrap 64 (2 ^ 16 - 1) →
  Rtp.Header_Unmarshal Rtp.empty_header b1 = Ok (h1, n1) → Rtp.Header_Unmarshal Rtp.empty_header b2 = Ok (h2, n2) →
  Rtp.SSRC h2 = Rtp.SSRC h1 → 0 ≤ Rtp.SequenceNumber h2 → Rtp.SequenceNumber h1 < 2 ^ 16 →
  65 ≤ Rtp.SequenceNumber h1 - Rtp.SequenceNumber h2 < 2 ^ 15 →
  failed (SessionSRTP_decrypt c b1).2 →
  (SessionSRTP_decrypt (SessionSRTP_decrypt c b1).1 b2).2 =
    Err (duplicatedError "srtp" (Rtp.SSRC h1) (Rtp.SequenceNumber h2)).
Proof.
  intros Hs Hd E1 E2 Es H0 H1 Hn. set (x1 := Rtp.SequenceNumber h1) in *. set (x2 := Rtp.SequenceNumber h2) in *.
  pose proof (first_shows 64 (2 ^ 16) ltac:(lia) ltac:(done) ltac:(lia) x1) as Hsh.
  pose proof (first_check 64 (2 ^ 16) ltac:(lia) x1) as Hf.
  assert (x1 mod 2 ^ 16 = x1 ∧ x2 mod 2 ^ 16 = x2) as [Em1 Em2] by (split; apply Z.mod_small; lia).
  pose proof (check_shows 64 (2 ^ 16) ltac:(lia) ltac:(lia) ltac:(done) _ _ x1 Hsh) as Hc1.
  pose proof (check_shows 64 (2 ^ 16) ltac:(lia) ltac:(lia) ltac:(done) _ _ x2 Hsh) as Hc2.
  change (2 ^ 16 / 2) with 32768 in *. cbn [top start] in Hc1, Hc2. specialize (Hc1 ltac:(lia)). specialize (Hc2 ltac:(lia)).
  assert (fresh 64 (start x1) x2 = false) as Hfr.
  { unfold fresh. cbn [top start]. rewrite (proj2 (Z.ltb_ge _ _)), (proj2 (Z.ltb_ge (x1 - 1 - x2) _)) by lia. done. }
  rewrite Hfr in Hc2. rewrite Em1 in Hf, Hc1, Hc2, Hsh. rewrite Em2 in Hc2. set (d := wrapped_init _ _) in *.
  intros Hfail. rewrite (refused_by_window _ b2 h2 n2 (MkRtpState (Rtp.SSRC h1) 0 false (Wrapped d))).
  - rewrite Es. do 2 f_equal. apply u32_small. unfold is_u32. lia.
  - done.
  - rewrite Es. eapply first_refused with (h := h1) (n := n1); [done | done | | done]. fold x1. rewrite Hd, Hf. exact Hc1.
  - fold x2. cbn [rs_replayDetector]. by rewrite Hc2.
Qed.

(** ** SRTCP *)

(** The bytes a session of secure RTCP takes for not encrypted, by profile. *)
Definition clear_bit (c : srtpCipher) (b : list Z) : Prop :=
  let n := match c with AesCmHmacSha1 _ => 14%nat | AeadAesGcm _ => 4%nat end in
  let m := match c with AesCmHmacSha1 _ => 14%nat | AeadAesGcm _ => 20%nat end in
  (m <= length b)%nat ∧ Z.shiftr (nth (length b - n) b 0) 7 = 0.

(** An RTCP packet with the bit for encryption clear is handed on as it is:
    no key, tag or index is looked at. *)
Theorem clear_rtcp_not_checked c b hd :
  cipher_ok (cipher c) → Rtcp.Header_Unmarshal b = Ok hd → clear_bit (cipher c) (s_bytes b) →
  DecryptRTCP c b = (c, Ok (s_bytes b)).
Proof.
  intros Hc Eh [Hl Hb]. unfold DecryptRTCP. rewrite Eh. cbn [with_err]. unfold decryptRTCP, srtcpIndexSize. cbv zeta. unfold cipher_profile.
  destruct (cipher c) as [k|k]; cbn [cipher_ok cipher_keys] in *.
  - destruct (cm_profile _ Hc) as (n & _ & _ & -> & ->). rewrite !bind_Ok.
    rewrite (proj2 (Z.ltb_ge _ _)) by lia.
    replace (Z.to_nat _) with (length (s_bytes b) - 14)%nat by lia. by rewrite (proj2 (Z.eqb_eq _ _) Hb).
  - destruct (gcm_profile _ Hc) as (_ & -> & ->). rewrite !bind_Ok.
    rewrite (proj2 (Z.ltb_ge _ _)) by lia.
    replace (Z.to_nat _) with (length (s_bytes b) - 4)%nat by lia. by rewrite (proj2 (Z.eqb_eq _ _) Hb).
Qed.

(** A picture loss indication and the 8 bytes of a FIR without entries. *)
Definition forged_rtcp : list Z := [0x81; 206; 0; 2; 0; 0; 0; 1; 0; 0; 0; 2] ++ short_fir.

(** Whatever the keys: a datagram of 20 bytes, which anybody can write, is not
    checked and stops the process that reads it. *)
Theorem forged_rtcp_stops c slack : cipher_ok (cipher c) →
  (SessionSRTCP_decrypt c (Slice (forged_rtcp ++ slack) 20)).2 = Panic.
Proof.
  intros Hc. unfold SessionSRTCP_decrypt. erewrite clear_rtcp_not_checked; [| done | reflexivity |].
  - reflexivity.
  - unfold clear_bit. destruct (cipher c); (split; [simpl; lia | reflexivity]).
Qed.
End safe.

(** ** Samples *)

(** A packet of the stream 7 with the wrong tag. *)
Definition forged (x : Z) : slice := of_bytes (wire_header (m_header (sample_message x)) ++ zeros 20).
Definition toy_begun : Context :=
  (@SessionSRTP_decrypt toy_crypto (toy_context 1 14 [SRTPReplayProtection 64])
    (@arrival toy_crypto (cipher (toy_context 1 14 [])) (sample_message 100) [])).1.

Lemma refused_packet_leaves_no_trace_witness : (@SessionSRTP_decrypt toy_crypto toy_begun (forged 101)).1 = toy_begun.
Proof.
  apply (@refused_packet_leaves_no_trace toy_crypto toy_begun (forged 101) (m_header (sample_message 101)) 12).
  - vm_compute. reflexivity.
  - eexists _, _. split_and!; vm_compute; reflexivity.
  - vm_compute. exact I.
Defined.

Lemma forged_first_blocks_witness :
  let c := toy_context 1 14 [SRTPReplayProtection 64] in
  let genuine := @arrival toy_crypto (cipher (toy_context 1 14 [])) (sample_message 100) [] in
  (@SessionSRTP_decrypt toy_crypto (@SessionSRTP_decrypt toy_crypto c (forged 1000)).1 genuine).2 =
    Err (duplicatedError "srtp" 7 100) ∧
  (@SessionSRTP_decrypt toy_crypto c genuine).2 = Ok (7, plain (sample_message 100)).
Proof.
  intros c genuine. split; [|vm_compute; reflexivity].
  apply (@forged_first_blocks toy_crypto c (forged 1000) genuine (m_header (sample_message 1000)) (m_header (sample_message 100)) 12 12).
  all: first [(vm_compute; exact I) | (vm_compute; reflexivity) | (vm_compute; split; [discriminate | reflexivity]) | (vm_compute; discriminate)].
Defined.

Lemma forged_rtcp_stops_witness :
  (@SessionSRTCP_decrypt toy_crypto (toy_context 7 12 [SRTCPReplayProtection 64]) (Slice (forged_rtcp ++ zeros 200) 20)).2 = Panic.
Proof. apply (@forged_rtcp_stops toy_crypto). reflexivity. Defined.
