(* ===== verification/Float64.v ===== *)
(** * Floating-point numbers

    Go's float64 is the binary64 format of IEEE 754 with rounding to the nearest
    even number, which the standard library specifies on integers
    ([SpecFloat]).  The value of a conversion to an integer type that cannot
    hold the number is left open by the language: it is a parameter.

    The quotient of two integers, computed as a float64 and converted back, is
    the integer quotient, as long as the integers are small. *)

From Stdlib Require Import SpecFloat.
From S2P Require Import Prelude.

Abbreviation float64 := spec_float.

Definition f64_add : float64 → float64 → float64 := SFadd 53 1024.
Definition f64_sub : float64 → float64 → float64 := SFsub 53 1024.
Definition f64_mul : float64 → float64 → float64 := SFmul 53 1024.
Definition f64_div : float64 → float64 → float64 := SFdiv 53 1024.
Definition f64_opp : float64 → float64 := SFopp.
Definition f64_ltb : float64 → float64 → bool := SFltb.
Definition f64_zero : float64 := S754_zero false.

(** float64(n) for an integer n *)
Definition f64_of_Z (n : Z) : float64 := binary_normalize 53 1024 n 0 false.

(** The integer part, the fraction being dropped. *)
Definition f64_trunc (f : float64) : option Z :=
  match f with
  | S754_zero _ => Some 0
  | S754_finite s m e =>
      let n := if 0 <=? e then Z.pos m * 2 ^ e else Z.pos m / 2 ^ (- e) in
      Some (if s then - n else n)
  | S754_infinity _ | S754_nan => None
  end.

(** uint8(f), uint32(f) and so on, at the given width, where the value does not
    fit. *)
Class FloatConversion := {
  out_of_range : Z → float64 → Z;
  out_of_range_fits : ∀ w f, 0 ≤ w → 0 ≤ out_of_range w f < 2 ^ w;
}.

Definition f64_to_uint `{FloatConversion} (w : Z) (f : float64) : Z :=
  match f64_trunc f with
  | Some n => if (0 <=? n) && (n <? 2 ^ w) then n else out_of_range w f
  | None => out_of_range w f
  end.

Lemma f64_to_uint_fits `{FloatConversion} w f : 0 ≤ w → 0 ≤ f64_to_uint w f < 2 ^ w.
Proof.
  intros Hw. unfold f64_to_uint. destruct (f64_trunc f) as [n|]; [|by apply out_of_range_fits].
  destruct (_ && _) eqn:E; [lia | by apply out_of_range_fits].
Qed.

(** ** Times and durations

    A time is the number of nanoseconds since the epoch of Unix, a duration an
    int64 of nanoseconds. *)

(** func (t Time) Sub(u Time) Duration: the nearest duration that fits *)
Definition time_Sub (t u : Z) : Z := Z.max (- 2 ^ 63) (Z.min (2 ^ 63 - 1) (t - u)).

(** func (d Duration) Seconds() float64 *)
Definition Seconds (d : Z) : float64 :=
  let sec := Z.quot d 1000000000 in
  let nsec := Z.rem d 1000000000 in
  f64_add (f64_of_Z sec) (f64_div (f64_of_Z nsec) (f64_of_Z 1000000000)).

(** An instance, for evaluation. *)
Definition zero_conversion : FloatConversion.
Proof. refine {| out_of_range := λ _ _, 0 |}. intros w _ Hw. split; [lia|]. by apply Z.pow_pos_nonneg. Defined.

(** ** Digits *)

Lemma digits2_log2 m : Z.pos (digits2_pos m) = Z.log2 (Z.pos m) + 1.
Proof.
  induction m as [m IH|m IH|]; simpl digits2_pos; [| |done]; rewrite Pos2Z.inj_succ, IH.
  - rewrite Pos2Z.inj_xI, Z.log2_succ_double by lia. lia.
  - rewrite Pos2Z.inj_xO, Z.log2_double by lia. lia.
Qed.

Lemma digits2_unique m n : 0 < n → 2 ^ (n - 1) ≤ Z.pos m < 2 ^ n → Z.pos (digits2_pos m) = n.
Proof. intros Hn H. rewrite digits2_log2, (Z.log2_unique (Z.pos m) (n - 1)); [lia.. |]. by replace (Z.succ (n - 1)) with n by lia. Qed.

Lemma iter_xO m n : Z.pos (Pos.iter xO m n) = Z.pos m * 2 ^ Z.pos n.
Proof.
  induction n as [|n IH] using Pos.peano_ind; [simpl Pos.iter; lia|].
  rewrite Pos.iter_succ, Pos2Z.inj_xO, IH, Pos2Z.inj_succ, Z.pow_succ_r by lia. lia.
Qed.

(** The exponents are far from the smallest one. *)
Lemma fexp_small e : -1021 ≤ e → fexp 53 1024 e = e - 53.
Proof. unfold fexp, emin. intros H. apply Z.max_l. lia. Qed.

(** ** Rounding *)

(** What rounding makes of a mantissa of 53 or 54 digits. *)
Lemma shr_fexp_keep m e l : 2 ^ 52 ≤ m < 2 ^ 53 → -1021 ≤ e + 53 → shr_fexp 53 1024 m e l = (shr_record_of_loc m l, e).
Proof.
  intros Hm He. unfold shr_fexp. destruct m as [|m|m]; try lia. cbn [Zdigits2].
  rewrite (digits2_unique m 53), fexp_small by lia. replace (53 + e - 53 - e) with 0 by lia. done.
Qed.

Lemma shr_fexp_shift m e l : 2 ^ 53 ≤ m < 2 ^ 54 → -1021 ≤ e + 53 →
  shr_fexp 53 1024 m e l = (shr_1 (shr_record_of_loc m l), e + 1).
Proof.
  intros Hm He. unfold shr_fexp. destruct m as [|m|m]; try lia. cbn [Zdigits2].
  rewrite (digits2_unique m 54), fexp_small by lia. replace (54 + e - 53 - e) with 1 by lia. done.
Qed.

(** The second pass: a mantissa that was rounded up to 2^53 is halved. *)
Lemma round_result m e : 2 ^ 52 ≤ m ≤ 2 ^ 53 → -1021 ≤ e + 53 → e ≤ 900 → ∃ m' e',
  (let '(r, e'') := shr_fexp 53 1024 m e loc_Exact in
   match shr_m r with
   | Z0 => S754_zero false
   | Zpos m => if e'' <=? 1024 - 53 then S754_finite false m e'' else S754_infinity false
   | _ => S754_nan
   end) = S754_finite false m' e' ∧
  (e' = e ∧ Z.pos m' = m ∨ e' = e + 1 ∧ 2 * Z.pos m' = m).
Proof.
  intros Hm He He'. destruct (decide (m = 2 ^ 53)) as [->|Hne].
  - rewrite shr_fexp_shift by lia. eexists _, _. rewrite (proj2 (Z.leb_le _ _)) by lia. split; [reflexivity|]. right. split; lia.
  - rewrite shr_fexp_keep by lia. destruct m as [|m|m]; try lia. cbn [shr_record_of_loc shr_m].
    rewrite (proj2 (Z.leb_le _ _)) by lia. eexists _, _. split; [done|]. by left.
Qed.

Lemma loc_roundtrip m l : loc_of_shr_record (shr_record_of_loc m l) = l ∧ shr_m (shr_record_of_loc m l) = m.
Proof. by destruct l as [|[]]. Qed.

Lemma round_bounds m l : m ≤ round_nearest_even m l ≤ m + 1 ∧ (l = loc_Exact → round_nearest_even m l = m).
Proof. destruct l as [|[]]; simpl; [| destruct (Z.even m) | |]; split; lia || done. Qed.

(** The value of a rounded number is the mantissa, cut to 53 digits, or the next
    one; a mantissa that needs no cutting is kept. *)
Lemma binary_round_spec q e l : 2 ^ 52 ≤ q < 2 ^ 54 → -1000 ≤ e ≤ 800 → ∃ m' e' k r,
  binary_round_aux 53 1024 false q e l = S754_finite false m' e' ∧ (k = 0 ∨ k = 1) ∧
  q / 2 ^ k ≤ r ≤ q / 2 ^ k + 1 ∧ (l = loc_Exact → q mod 2 = 0 → r = q / 2 ^ k) ∧
  (e' = e + k ∧ Z.pos m' = r ∨ e' = e + k + 1 ∧ 2 * Z.pos m' = r).
Proof.
  intros Hq He. unfold binary_round_aux. destruct (decide (q < 2 ^ 53)) as [Hlt|Hge].
  - rewrite shr_fexp_keep by lia. destruct (loc_roundtrip q l) as [-> ->]. destruct (round_bounds q l) as [Hb Hx].
    destruct (round_result (round_nearest_even q l) e) as (m' & e' & -> & H); [lia..|].
    exists m', e', 0, (round_nearest_even q l). rewrite Z.pow_0_r, Z.div_1_r, Z.add_0_r. split_and!; auto; lia.
  - rewrite shr_fexp_shift by lia. set (r := shr_1 _).
    assert (shr_m r = q / 2 ∧ (l = loc_Exact → q mod 2 = 0 → loc_of_shr_record r = loc_Exact)) as [Hr Hx].
    { subst r. destruct q as [|q|q]; try lia. destruct q as [q|q|]; try lia; destruct l as [|[]]; simpl;
        (split; [Z.div_mod_to_equations; lia | try done]); intros _ Hm; exfalso; Z.div_mod_to_equations; lia. }
    rewrite Hr. destruct (round_bounds (q / 2) (loc_of_shr_record r)) as [Hb Hy].
    assert (2 ^ 52 ≤ q / 2 < 2 ^ 53) by (Z.div_mod_to_equations; lia).
    destruct (round_result (round_nearest_even (q / 2) (loc_of_shr_record r)) (e + 1)) as (m' & e' & -> & H'); [lia..|].
    exists m', e', 1, (round_nearest_even (q / 2) (loc_of_shr_record r)). rewrite Z.pow_1_r. split_and!; auto; lia.
Qed.

(** ** Integers and their quotients *)

Definition width (n : Z) : Z := Z.log2 n + 1.

Lemma width_spec n : 0 < n → 0 < width n ∧ 2 ^ (width n - 1) ≤ n < 2 ^ width n.
Proof.
  intros Hn. unfold width. pose proof (Z.log2_spec n Hn). pose proof (Z.log2_nonneg n).
  replace (Z.log2 n + 1 - 1) with (Z.log2 n) by lia.
  replace (Z.log2 n + 1) with (Z.succ (Z.log2 n)) by lia. split; [lia | done].
Qed.

Lemma f64_of_Z_spec n : 0 < n < 2 ^ 52 → ∃ m, f64_of_Z n = S754_finite false m (width n - 53) ∧
  Z.pos m = n * 2 ^ (53 - width n) ∧ 2 ^ 52 ≤ Z.pos m < 2 ^ 53.
Proof.
  intros Hn. destruct (width_spec n) as [Hw Hd]; [lia|]. assert (width n ≤ 52) as Hw'.
  { unfold width. pose proof (Z.log2_lt_pow2 n 52). lia. }
  destruct n as [|n|n]; try lia. unfold f64_of_Z, binary_normalize, binary_round.
  rewrite digits2_log2. fold (width (Z.pos n)). rewrite fexp_small by lia. unfold shl_align.
  destruct (width (Z.pos n) + 0 - 53 - 0) as [|k|k] eqn:Ek; try lia. rewrite Z.add_0_r.
  set (m := Pos.iter xO n k). assert (Z.pos m = Z.pos n * 2 ^ (53 - width (Z.pos n))) as Em.
  { subst m. rewrite iter_xO. do 2 f_equal. lia. }
  assert (2 ^ 52 ≤ Z.pos m < 2 ^ 53) as Hm.
  { rewrite Em. replace 52 with ((width (Z.pos n) - 1) + (53 - width (Z.pos n))) by lia.
    replace 53 with (width (Z.pos n) + (53 - width (Z.pos n))) at 4 by lia. rewrite !Z.pow_add_r by lia. nia. }
  exists m. split; [|done]. unfold binary_round_aux. rewrite shr_fexp_keep by lia.
  cbn [shr_record_of_loc shr_m loc_of_shr_record round_nearest_even]. rewrite shr_fexp_keep by lia.
  cbn [shr_record_of_loc shr_m]. by rewrite (proj2 (Z.leb_le _ _)) by lia.
Qed.

(** A number close enough above the quotient has its integer part. *)
Lemma floor_near a b n r : 0 < a → 0 < b → 0 ≤ n → b < 2 ^ n → a * 2 ^ n / b ≤ r ≤ a * 2 ^ n / b + 1 →
  (a mod b = 0 → r = a * 2 ^ n / b) → r / 2 ^ n = a / b.
Proof.
  intros Ha Hb Hn Hbn Hr Hx. assert (0 < 2 ^ n) as Hp by (by apply Z.pow_pos_nonneg).
  symmetry. apply (Z.div_unique_pos _ _ _ (r - a / b * 2 ^ n)); [|lia].
  pose proof (Z.div_mod a b ltac:(lia)) as Hd. pose proof (Z.mod_pos_bound a b Hb) as Hm.
  assert (a * 2 ^ n / b = a / b * 2 ^ n + a mod b * 2 ^ n / b) as E.
  { rewrite <- Z.div_add_l by lia. f_equal. rewrite Hd at 1. lia. }
  rewrite E in *. destruct (decide (a mod b = 0)) as [Hz|Hz].
  - rewrite (Hx Hz), Hz. simpl. rewrite Z.div_0_l by lia. lia.
  - assert (0 ≤ a mod b * 2 ^ n / b) by (apply Z.div_pos; nia).
    assert (a mod b * 2 ^ n / b ≤ 2 ^ n - 2); [|lia].
    assert (a mod b * 2 ^ n / b < 2 ^ n - 1); [|lia]. apply Z.div_lt_upper_bound; nia.
Qed.

Lemma f64_quotient a b : 0 < a < 2 ^ 32 → 0 < b < 2 ^ 16 →
  f64_trunc (f64_div (f64_of_Z a) (f64_of_Z b)) = Some (a / b).
Proof.
  intros Ha Hb. destruct (f64_of_Z_spec a) as (m1 & -> & E1 & H1); [lia|]. destruct (f64_of_Z_spec b) as (m2 & -> & E2 & H2); [lia|].
  destruct (width_spec a) as [Hwa Ha']; [lia|]. destruct (width_spec b) as [Hwb Hb']; [lia|].
  assert (width a ≤ 32) as Ha2 by (unfold width; pose proof (Z.log2_lt_pow2 a 32); lia).
  assert (width b ≤ 16) as Hb2 by (unfold width; pose proof (Z.log2_lt_pow2 b 16); lia).
  unfold f64_div, SFdiv, SFdiv_core_binary. cbn [Zdigits2]. rewrite (digits2_unique m1 53), (digits2_unique m2 53) by lia.
  rewrite fexp_small, Z.min_l by lia. set (e := 53 + _ - _ - 53). assert (e = width a - width b - 53) as Ee by lia.
  replace (width a - 53 - (width b - 53) - e) with 53 by lia. rewrite Z.shiftl_mul_pow2 by lia.
  pose proof (Z.div_eucl_eq (Z.pos m1 * 2 ^ 53) (Z.pos m2) ltac:(lia)) as Hde.
  pose proof (Z.mod_pos_bound (Z.pos m1 * 2 ^ 53) (Z.pos m2) ltac:(lia)) as Hmb.
  unfold Z.modulo in Hmb. destruct (Z.div_eucl _ _) as [q r] eqn:Eq.
  assert (q = a * 2 ^ (- e) / b) as Hq.
  { transitivity (Z.pos m1 * 2 ^ 53 / Z.pos m2); [unfold Z.div; by rewrite Eq|]. rewrite E1, E2.
    replace (a * 2 ^ (53 - width a) * 2 ^ 53) with (a * 2 ^ (- e) * 2 ^ (53 - width b)).
    - apply Z.div_mul_cancel_r; [lia|]. apply Z.pow_nonzero; lia.
    - rewrite <- !Z.mul_assoc, <- !Z.pow_add_r by lia. do 2 f_equal. lia. }
  assert (2 ^ 52 ≤ q < 2 ^ 54) as Hq54 by nia.
  assert (0 < a * 2 ^ (- e)) as Hpos by (apply Z.mul_pos_pos; [lia | apply Z.pow_pos_nonneg; lia]).
  cbn [xorb]. destruct (binary_round_spec q e (new_location (Z.pos m2) r) Hq54) as (m' & e' & k & v & -> & Hk & Hv & Hx & Hm'); [lia|].
  assert (v / 2 ^ (- (e + k)) = a / b) as <-.
  { assert (a * 2 ^ (- e) / b / 2 ^ k = a * 2 ^ (- (e + k)) / b) as Ek.
    { rewrite Z.div_div, (Z.mul_comm b) by (try apply Z.pow_pos_nonneg; lia).
      replace (- e) with (k + - (e + k)) by lia. rewrite Z.pow_add_r by lia.
      rewrite (Z.mul_comm (2 ^ k)), Z.mul_assoc, (Z.mul_comm (2 ^ k) b). apply Z.div_mul_cancel_r; [lia|].
      apply Z.pow_nonzero; lia. }
    apply floor_near; [lia | lia | lia | | by rewrite <- Ek, <- Hq |].
    - apply Z.lt_le_trans with (2 ^ 16); [lia|]. apply Z.pow_le_mono_r; lia.
    - intros Hz. rewrite <- Ek, <- Hq. apply Z.div_exact in Hz; [|lia].
      assert (a * 2 ^ (- e) = b * (a / b * 2 ^ (- e))) as Hmul by (rewrite Z.mul_assoc, <- Hz; done).
      apply Hx.
      + assert (r = 0) as ->; [|unfold new_location, new_location_even, new_location_odd; by destruct (Z.even _)].
        assert (Z.pos m1 * 2 ^ 53 = Z.pos m2 * (a / b * 2 ^ (- e))) as Hm12.
        { rewrite E1, E2, <- Z.mul_assoc, <- Z.pow_add_r by lia. rewrite Hz at 1. rewrite <- !Z.mul_assoc. f_equal.
          rewrite (Z.mul_comm (2 ^ (53 - width b))), <- Z.mul_assoc, <- Z.pow_add_r by lia. do 2 f_equal. lia. }
        assert (r = (Z.pos m1 * 2 ^ 53) mod Z.pos m2) as -> by (unfold Z.modulo; by rewrite Eq).
        rewrite Hm12, Z.mul_comm. apply Z.mod_mul. lia.
      + rewrite Hq, Hmul, Z.mul_comm, Z.div_mul by lia.
        replace (- e) with (Z.succ (- e - 1)) by lia. rewrite Z.pow_succ_r by lia.
        rewrite (Z.mul_comm 2), Z.mul_assoc. apply Z.mod_mul. lia. }
  unfold f64_trunc. rewrite (proj2 (Z.leb_gt _ _)) by lia. f_equal. destruct Hm' as [[-> ->]|[-> <-]]; [done|].
  replace (- (e + k)) with (Z.succ (- (e + k + 1))) by lia. rewrite Z.pow_succ_r by lia.
  symmetry. apply Z.div_mul_cancel_l; [|lia]. apply Z.pow_nonzero; lia.
Qed.
