(* ===== verification/Nack.v ===== *)
(** * Negative acknowledgements

    The nack package of pion/interceptor, which every peer connection of the
    server runs (RegisterDefaultInterceptors): the log of the sequence numbers
    received from a publisher, from which NACKs are made, and the buffer of the
    packets sent to a subscriber, from which NACKs are answered.  Sequence
    numbers are 16-bit numbers, sums and differences wrap around; a read or a
    write outside of an array panics. *)

From stdpp Require Import gmap.
From S2P Require Import Prelude Bytes Rtp RtcpFeedback.

Inductive nack_err :=
  | ErrInvalidSize | errPacketReleased | errFailedToCastHeaderPool | errFailedToCastPayloadPool
  | ErrShortBuffer.

Abbreviation nres := (res nack_err).

Definition uint16SizeHalf : Z := 2 ^ 15.

(** [for i := a; i != stop; i++ { s = f(i, s) }] on a uint16 *)
Fixpoint for_u16 {S} (fuel : nat) (i stop : Z) (f : Z → S → nres S) (s : S) : nres S :=
  if i =? stop then Ok s
  else match fuel with
       | O => Diverge
       | Datatypes.S fuel =>
           s ← f i s;
           for_u16 fuel (u16 (i + 1)) stop f s
       end.

(** The number of values of a uint16: no loop runs longer. *)
Definition loop_fuel : nat := Z.to_nat (2 ^ 16).

(** The loop over the exponents [lo, hi): is [size] one of the powers? *)
Definition allowed_size (lo hi : Z) (size : Z) : bool :=
  existsb (λ i, size =? Z.shiftl 1 i) (seqZ lo (hi - lo)).

(** ** receiveLog *)

Record receiveLog := MkReceiveLog {
  rl_packets : list Z;
  rl_size : Z;
  rl_end : Z;
  rl_started : bool;
  lastConsecutive : Z;
}.

Definition newReceiveLog (size : Z) : nres receiveLog :=
  _ ← fail_if (negb (allowed_size 6 16 size)) ErrInvalidSize;
  Ok (MkReceiveLog (replicate (Z.to_nat (size / 64)) 0) size 0 false 0).

(** [s.packets[pos/64]] and its update, for the position of a sequence number *)
Definition log_word (s : receiveLog) (seq : Z) : nres Z :=
  match rl_packets s !! Z.to_nat (seq mod rl_size s / 64) with
  | Some w => Ok w
  | None => Panic
  end.

Definition set_log_word (s : receiveLog) (seq w : Z) : receiveLog :=
  MkReceiveLog (<[Z.to_nat (seq mod rl_size s / 64) := w]> (rl_packets s)) (rl_size s) (rl_end s)
    (rl_started s) (lastConsecutive s).

Definition setReceived (s : receiveLog) (seq : Z) : nres receiveLog :=
  w ← log_word s seq;
  Ok (set_log_word s seq (Z.lor w (Z.shiftl 1 (seq mod rl_size s mod 64)))).

Definition delReceived (s : receiveLog) (seq : Z) : nres receiveLog :=
  w ← log_word s seq;
  Ok (set_log_word s seq (Z.ldiff w (Z.shiftl 1 (seq mod rl_size s mod 64)))).

Definition getReceived (s : receiveLog) (seq : Z) : nres bool :=
  w ← log_word s seq;
  Ok (negb (Z.land w (Z.shiftl 1 (seq mod rl_size s mod 64)) =? 0)).

Definition set_end (s : receiveLog) (e : Z) : receiveLog :=
  MkReceiveLog (rl_packets s) (rl_size s) e (rl_started s) (lastConsecutive s).
Definition set_started (s : receiveLog) : receiveLog :=
  MkReceiveLog (rl_packets s) (rl_size s) (rl_end s) true (lastConsecutive s).
Definition set_lastConsecutive (s : receiveLog) (l : Z) : receiveLog :=
  MkReceiveLog (rl_packets s) (rl_size s) (rl_end s) (rl_started s) l.

(** [for ; i != s.end+1 && s.getReceived(i); i++ {}] *)
Fixpoint fix_loop (fuel : nat) (s : receiveLog) (i : Z) : nres Z :=
  if i =? u16 (rl_end s + 1) then Ok i
  else
    r ← getReceived s i;
    if (r : bool) then
      match fuel with
      | O => Diverge
      | S fuel => fix_loop fuel s (u16 (i + 1))
      end
    else Ok i.

Definition fixLastConsecutive (s : receiveLog) : nres receiveLog :=
  i ← fix_loop loop_fuel s (u16 (lastConsecutive s + 1));
  Ok (set_lastConsecutive s (u16 (i - 1))).

(** func (s *receiveLog) add(seq uint16) *)
Definition log_add (s : receiveLog) (seq : Z) : nres receiveLog :=
  if negb (rl_started s) then
    s ← setReceived s seq;
    Ok (set_lastConsecutive (set_started (set_end s seq)) seq)
  else
    let diff := u16 (seq - rl_end s) in
    if diff =? 0 then Ok s
    else
      s ← (if diff <? uint16SizeHalf then
             s ← for_u16 loop_fuel (u16 (rl_end s + 1)) seq (λ i s, delReceived s i) s;
             let s := set_end s seq in
             if u16 (lastConsecutive s + 1) =? seq then Ok (set_lastConsecutive s seq)
             else if rl_size s <? u16 (seq - lastConsecutive s) then
               fixLastConsecutive (set_lastConsecutive s (u16 (seq - rl_size s)))
             else Ok s
           else if u16 (lastConsecutive s + 1) =? seq then
             fixLastConsecutive (set_lastConsecutive s seq)
           else Ok s);
      setReceived s seq.

(** func (s *receiveLog) get(seq uint16) bool *)
Definition log_get (s : receiveLog) (seq : Z) : nres bool :=
  let diff := u16 (rl_end s - seq) in
  if uint16SizeHalf <=? diff then Ok false
  else if rl_size s <=? diff then Ok false
  else getReceived s seq.

(** func (s *receiveLog) missingSeqNumbers(skipLastN uint16) []uint16 *)
Definition missingSeqNumbers (s : receiveLog) (skipLastN : Z) : nres (list Z) :=
  let until := u16 (rl_end s - skipLastN) in
  if uint16SizeHalf <=? u16 (until - lastConsecutive s) then Ok []
  else
    for_u16 loop_fuel (u16 (lastConsecutive s + 1)) (u16 (until + 1))
      (λ i l, r ← getReceived s i; Ok (if (r : bool) then l else l ++ [i])) [].

(** ** retainablePacket *)

(** A packet with its count; the header is nil after the release. *)
Record retainablePacket := MkRetainable {
  rp_count : Z;
  rp_header : option Header;
  rp_payload : list Z;
}.

(** The packets, by their address. *)
Abbreviation pheap := (gmap nat retainablePacket).

Definition maxPayloadLen : nat := 1460.

(** func (m *packetManager) NewPacket(header *rtp.Header, payload []byte): the
    clone of the header and the copy of the payload are new values. *)
Definition NewPacket (hp : pheap) (h : Header) (payload : list Z) : nres (pheap * nat) :=
  _ ← fail_if (maxPayloadLen <? length payload)%nat ErrShortBuffer;
  let p := fresh (dom hp) in
  Ok (<[p := MkRetainable 1 (Some h) payload]> hp, p).

Definition deref (hp : pheap) (p : nat) : nres retainablePacket :=
  match hp !! p with
  | Some r => Ok r
  | None => Panic
  end.

(** func (p *retainablePacket) Retain() error *)
Definition Retain (hp : pheap) (p : nat) : nres pheap :=
  r ← deref hp p;
  _ ← fail_if (rp_count r =? 0) errPacketReleased;
  Ok (<[p := MkRetainable (rp_count r + 1) (rp_header r) (rp_payload r)]> hp).

(** func (p *retainablePacket) Release() *)
Definition Release (hp : pheap) (p : nat) : nres pheap :=
  r ← deref hp p;
  let c := rp_count r - 1 in
  Ok (<[p := if c =? 0 then MkRetainable c None [] else MkRetainable c (rp_header r) (rp_payload r)]> hp).

(** p.Header().SequenceNumber *)
Definition packet_seq (hp : pheap) (p : nat) : nres Z :=
  r ← deref hp p;
  match rp_header r with
  | Some h => Ok (SequenceNumber h)
  | None => Panic
  end.

(** ** sendBuffer *)

Record sendBuffer := MkSendBuffer {
  sb_packets : list (option nat);
  sb_size : Z;
  lastAdded : Z;
  sb_started : bool;
}.

Definition newSendBuffer (size : Z) : nres sendBuffer :=
  _ ← fail_if (negb (allowed_size 0 16 size)) ErrInvalidSize;
  Ok (MkSendBuffer (replicate (Z.to_nat size) None) size 0 false).

Definition slot (s : sendBuffer) (seq : Z) : nres (option nat) :=
  match sb_packets s !! Z.to_nat (seq mod sb_size s) with
  | Some p => Ok p
  | None => Panic
  end.

Definition set_slot (s : sendBuffer) (seq : Z) (p : option nat) : sendBuffer :=
  MkSendBuffer (<[Z.to_nat (seq mod sb_size s) := p]> (sb_packets s)) (sb_size s) (lastAdded s) (sb_started s).

(** [prevPacket := s.packets[idx]; if prevPacket != nil { prevPacket.Release() }
    s.packets[idx] = p] *)
Definition replace_slot (st : sendBuffer * pheap) (seq : Z) (p : option nat) : nres (sendBuffer * pheap) :=
  prev ← slot st.1 seq;
  hp ← match prev with
       | Some q => Release st.2 q
       | None => Ok st.2
       end;
  Ok (set_slot st.1 seq p, hp).

Definition set_lastAdded (s : sendBuffer) (seq : Z) : sendBuffer :=
  MkSendBuffer (sb_packets s) (sb_size s) seq true.

(** func (s *sendBuffer) add(packet *retainablePacket) *)
Definition sb_add (st : sendBuffer * pheap) (p : nat) : nres (sendBuffer * pheap) :=
  seq ← packet_seq st.2 p;
  if negb (sb_started st.1) then
    _ ← slot st.1 seq;
    Ok (set_lastAdded (set_slot st.1 seq (Some p)) seq, st.2)
  else
    let diff := u16 (seq - lastAdded st.1) in
    if diff =? 0 then Ok st
    else
      st ← (if diff <? uint16SizeHalf then
              for_u16 loop_fuel (u16 (lastAdded st.1 + 1)) seq (λ i st, replace_slot st i None) st
            else Ok st);
      st ← replace_slot st seq (Some p);
      Ok (set_lastAdded st.1 seq, st.2).

(** func (s *sendBuffer) get(seq uint16) *retainablePacket: the packet with one
    more reference. *)
Definition sb_get (st : sendBuffer * pheap) (seq : Z) : nres (pheap * option nat) :=
  let diff := u16 (lastAdded st.1 - seq) in
  if uint16SizeHalf <=? diff then Ok (st.2, None)
  else if sb_size st.1 <=? diff then Ok (st.2, None)
  else
    pkt ← slot st.1 seq;
    match pkt with
    | None => Ok (st.2, None)
    | Some p =>
        n ← packet_seq st.2 p;
        if negb (n =? seq) then Ok (st.2, None)
        else match Retain st.2 p with
             | Ok hp => Ok (hp, Some p)
             | Err _ => Ok (st.2, None)
             | Panic => Panic
             | Diverge => Diverge
             end
    end.

(** ** Interceptors *)

(** func streamSupportNack(info *interceptor.StreamInfo) bool *)
Definition streamSupportNack (feedback : list (string * string)) : bool :=
  existsb (λ fb, bool_decide (fb.1 = "nack"%string) && bool_decide (fb.2 = EmptyString)) feedback.

(** The writer that ResponderInterceptor.BindLocalStream returns: the packet is
    kept first; the second value is what is handed to the next writer. *)
Definition local_write (st : sendBuffer * pheap) (h : Header) (payload : list Z)
    : nres ((sendBuffer * pheap) * (Header * list Z)) :=
  r ← NewPacket st.2 h payload;
  st ← sb_add (st.1, r.1) r.2;
  Ok (st, (h, payload)).

(** One sequence number of resendPackets: what is written to the stream. *)
Definition resend_one (st : sendBuffer * pheap) (seq : Z)
    : nres ((sendBuffer * pheap) * list (Header * list Z)) :=
  r ← sb_get st seq;
  match r.2 with
  | None => Ok ((st.1, r.1), [])
  | Some p =>
      pk ← deref r.1 p;
      match rp_header pk with
      | None => Panic
      | Some h =>
          hp ← Release r.1 p;
          Ok ((st.1, hp), [(h, rp_payload pk)])
      end
  end.

Fixpoint resend_seqs (st : sendBuffer * pheap) (l : list Z)
    : nres ((sendBuffer * pheap) * list (Header * list Z)) :=
  match l with
  | [] => Ok (st, [])
  | seq :: l =>
      r ← resend_one st seq;
      r' ← resend_seqs r.1 l;
      Ok (r'.1, r.2 ++ r'.2)
  end.

(** The numbers that Range hands to its function, pair after pair. *)
Fixpoint nack_seqs (l : list NackPair) : nres (list Z) :=
  match l with
  | [] => Ok []
  | n :: l =>
      match PacketList n with
      | Ok x => r ← nack_seqs l; Ok (x ++ r)
      | Err _ => Ok []
      | Panic => Panic
      | Diverge => Diverge
      end
  end.

(** type localStream: the buffer is a pointer, which the writer of the stream
    has, too.  Its other field, rtpWriter, is where what [resendPackets] gives
    goes to. *)
Record localStream := MkLocalStream { ls_sendBuffer : nat }.

(** ResponderInterceptor: the streams by their SSRC, and the buffers and packets
    its pointers point to. *)
Record ResponderInterceptor := MkResponder {
  ri_size : Z;
  ri_streams : gmap Z localStream;
  ri_buffers : list sendBuffer;
  ri_heap : pheap;
}.

(** An object that a pointer points to; every pointer of this file does. *)
Definition object {A} (l : list A) (p : nat) : nres A :=
  match l !! p with
  | Some a => Ok a
  | None => Panic
  end.

(** func (r *ResponderInterceptorFactory) NewInterceptor(id string), for a size
    that the options may have changed from 1024 *)
Definition Responder_NewInterceptor (size : Z) : nres ResponderInterceptor :=
  _ ← newSendBuffer size;
  Ok (MkResponder size ∅ [] ∅).

(** func (n *ResponderInterceptor) BindLocalStream, of a stream that supports
    NACKs: the registration, and the buffer the writer keeps.  The size was
    checked by NewInterceptor, so that the buffer is never an error. *)
Definition Responder_BindLocalStream (n : ResponderInterceptor) (ssrc : Z) : nres (ResponderInterceptor * nat) :=
  sb ← newSendBuffer (ri_size n);
  let p := length (ri_buffers n) in
  Ok (MkResponder (ri_size n) (<[ssrc := MkLocalStream p]> (ri_streams n)) (ri_buffers n ++ [sb]) (ri_heap n), p).

(** The writer of a bound stream, whose buffer is [p]. *)
Definition Responder_write (n : ResponderInterceptor) (p : nat) (h : Header) (payload : list Z) : nres ResponderInterceptor :=
  sb ← object (ri_buffers n) p;
  r ← local_write (sb, ri_heap n) h payload;
  Ok (MkResponder (ri_size n) (ri_streams n) (<[p := r.1.1]> (ri_buffers n)) r.1.2).

Definition Responder_UnbindLocalStream (n : ResponderInterceptor) (ssrc : Z) : ResponderInterceptor :=
  MkResponder (ri_size n) (delete ssrc (ri_streams n)) (ri_buffers n) (ri_heap n).

(** func (n *ResponderInterceptor) resendPackets(nack *rtcp.TransportLayerNack),
    with what is written to the stream's writer *)
Definition resendPackets (n : ResponderInterceptor) (nack : TransportLayerNack) : nres (ResponderInterceptor * list (Header * list Z)) :=
  match ri_streams n !! tln_MediaSSRC nack with
  | None => Ok (n, [])
  | Some st =>
      l ← nack_seqs (Nacks nack);
      sb ← object (ri_buffers n) (ls_sendBuffer st);
      r ← resend_seqs (sb, ri_heap n) l;
      Ok (MkResponder (ri_size n) (ri_streams n) (<[ls_sendBuffer st := r.1.1]> (ri_buffers n)) r.1.2, r.2)
  end.

(** GeneratorInterceptor: the logs by the SSRC of their stream, as pointers to
    [gi_logs], which the readers of the streams have, too. *)
Record GeneratorInterceptor := MkGenerator {
  gi_size : Z;
  gi_skipLastN : Z;
  gi_receiveLogs : gmap Z nat;
  gi_logs : list receiveLog;
}.

(** func (g *GeneratorInterceptorFactory) NewInterceptor(id string): 512 and 0
    if no option changes them *)
Definition Generator_NewInterceptor (size skipLastN : Z) : nres GeneratorInterceptor :=
  _ ← newReceiveLog size;
  Ok (MkGenerator size skipLastN ∅ []).

(** func (n *GeneratorInterceptor) BindRemoteStream, of a stream that supports
    NACKs: the registration, and the log the reader keeps *)
Definition Generator_BindRemoteStream (n : GeneratorInterceptor) (ssrc : Z) : nres (GeneratorInterceptor * nat) :=
  rl ← newReceiveLog (gi_size n);
  let p := length (gi_logs n) in
  Ok (MkGenerator (gi_size n) (gi_skipLastN n) (<[ssrc := p]> (gi_receiveLogs n)) (gi_logs n ++ [rl]), p).

(** The reader of a bound stream, for a packet whose header was read. *)
Definition Generator_read (n : GeneratorInterceptor) (p : nat) (seq : Z) : nres GeneratorInterceptor :=
  rl ← object (gi_logs n) p;
  rl ← log_add rl seq;
  Ok (MkGenerator (gi_size n) (gi_skipLastN n) (gi_receiveLogs n) (<[p := rl]> (gi_logs n))).

(** The cleanup is bound to the removal of local streams. *)
Definition Generator_UnbindLocalStream (n : GeneratorInterceptor) (ssrc : Z) : GeneratorInterceptor :=
  MkGenerator (gi_size n) (gi_skipLastN n) (delete ssrc (gi_receiveLogs n)) (gi_logs n).

(** One log of the ticker's loop: the NACK that is written, if any. *)
Definition make_nack (senderSSRC skipLastN ssrc : Z) (rl : receiveLog) : nres (list TransportLayerNack) :=
  missing ← missingSeqNumbers rl skipLastN;
  match missing with
  | [] => Ok []
  | _ => Ok [MkNack senderSSRC ssrc (NackPairsFromSequenceNumbers missing)]
  end.

(** A tick of GeneratorInterceptor.loop: [order] is the order in which the
    range over the map visits the streams. *)
Fixpoint Generator_tick (n : GeneratorInterceptor) (senderSSRC : Z) (order : list Z)
    : nres (list TransportLayerNack) :=
  match order with
  | [] => Ok []
  | ssrc :: order =>
      l ← match gi_receiveLogs n !! ssrc with
          | Some p => rl ← object (gi_logs n) p; make_nack senderSSRC (gi_skipLastN n) ssrc rl
          | None => Ok []
          end;
      r ← Generator_tick n senderSSRC order;
      Ok (l ++ r)
  end.
