(* ===== verification/NackProps.v ===== *)
(** * Negative acknowledgements: what is requested and what is resent

    The log of received numbers is compared with the set of the numbers that
    arrived, without wrap-around; the pairs of a NACK with the list of the
    missing numbers; the buffer of sent packets with the list of the packets
    that were sent. *)

From stdpp Require Import gmap.
From S2P Require Import Prelude Bytes Rtp RtcpFeedback RtcpCodec Nack.

(** ** Lists and 16-bit numbers *)

Lemma filter_ext_in {A} (P Q : A → Prop) `{∀ x, Decision (P x)} `{∀ x, Decision (Q x)} (l : list A) :
  (∀ x, x ∈ l → (P x ↔ Q x)) → filter P l = filter Q l.
Proof.
  induction l as [|x l IH]; intros Hl; [done|]. rewrite !filter_cons.
  assert (P x ↔ Q x) as Hx by (apply Hl; by left).
  rewrite IH by (intros y Hy; apply Hl; by right). repeat case_decide; tauto || done.
Qed.

Lemma filter_none {A} (P : A → Prop) `{∀ x, Decision (P x)} (l : list A) :
  (∀ x, x ∈ l → ¬ P x) → filter P l = [].
Proof.
  induction l as [|x l IH]; intros Hl; [done|]. rewrite filter_cons.
  case_decide as Hx; [by destruct (Hl x (list_elem_of_here x l))|].
  apply IH. intros y Hy. apply Hl. by right.
Qed.

Lemma u16_add_l x y : u16 (u16 x + y) = u16 (x + y).
Proof. unfold u16. by rewrite Z.add_mod_idemp_l. Qed.

Lemma u16_sub_u16 x y : u16 (u16 x - u16 y) = u16 (x - y).
Proof. unfold u16. by rewrite Zminus_mod_idemp_l, Zminus_mod_idemp_r. Qed.

Lemma u16_id x : 0 ≤ x < 2 ^ 16 → u16 x = x.
Proof. apply u16_small. Qed.

Lemma u16_bit i : 0 ≤ i < 16 → u16 (Z.shiftl 1 i) = 2 ^ i.
Proof. intros Hi. rewrite Z.shiftl_1_l. apply u16_id. split; [lia | apply Z.pow_lt_mono_r; lia]. Qed.

(** ** Pairs *)

(** The bits of a mask, in their order. *)
Definition bits_from (i n : Z) (b : Z) : list Z := filter (λ k, Z.testbit b k = true) (seqZ i n).

Lemma bits_from_cons i n b : 0 < n →
  bits_from i n b = (if Z.testbit b i then [i] else []) ++ bits_from (i + 1) (n - 1) b.
Proof.
  intros Hn. unfold bits_from. rewrite seqZ_cons by done.
  replace (Z.succ i) with (i + 1) by lia. replace (Z.pred n) with (n - 1) by lia.
  rewrite filter_cons. destruct (Z.testbit b i) eqn:H; by case_decide.
Qed.

Lemma bits_from_0 i n : bits_from i n 0 = [].
Proof. apply filter_none. intros k _. by rewrite Z.bits_0. Qed.

Lemma land_bit b i : 0 ≤ i < 16 → (Z.land b (u16 (Z.shiftl 1 i)) =? 0) = negb (Z.testbit b i).
Proof.
  intros Hi. rewrite u16_bit by done.
  destruct (Z.eqb_spec (Z.land b (2 ^ i)) 0) as [H|H]; destruct (Z.testbit b i) eqn:Ht; try done; exfalso.
  - apply (f_equal (λ z, Z.testbit z i)) in H. rewrite Z.land_spec, Z.pow2_bits_true, Ht, Z.bits_0 in H by lia. done.
  - apply H. apply Z.bits_inj'. intros k Hk. rewrite Z.land_spec, Z.bits_0.
    destruct (decide (k = i)) as [->|Hne]; [by rewrite Ht|]. by rewrite Z.pow2_bits_false, andb_false_r.
Qed.

Lemma bits_ldiff b i n k : 0 ≤ k < i → bits_from i n (Z.ldiff b (2 ^ k)) = bits_from i n b.
Proof.
  intros Hk. apply filter_ext_in. intros j Hj. apply elem_of_seqZ in Hj.
  by rewrite Z.ldiff_spec, Z.pow2_bits_false, andb_true_r by lia.
Qed.

(** No bits but those of [i, i + fuel). *)
Definition mask_in (i n b : Z) : Prop := ∀ k, 0 ≤ k → Z.testbit b k = true → i ≤ k < i + n.

Lemma mask_zero i b : mask_in i 0 b → b = 0.
Proof.
  intros H. apply Z.bits_inj'. intros k Hk. rewrite Z.bits_0. destruct (Z.testbit b k) eqn:E; [|done].
  specialize (H k Hk E). lia.
Qed.

Lemma nack_range_bits fuel : ∀ id b i, 0 ≤ i → i + Z.of_nat fuel ≤ 16 → mask_in i (Z.of_nat fuel) b →
  nack_range fuel id b i = Ok (map (λ k, u16 (id + k + 1)) (bits_from i (Z.of_nat fuel) b)).
Proof.
  induction fuel as [|fuel IH]; intros id b i Hi Hf Hm.
  - rewrite (mask_zero i b Hm). done.
  - cbn [nack_range]. destruct (Z.eqb_spec b 0) as [->|Hb]; [by rewrite bits_from_0|].
    rewrite bits_from_cons, land_bit by lia. rewrite (u16_id (i + 1)) by lia.
    replace (Z.of_nat (S fuel) - 1) with (Z.of_nat fuel) by lia.
    destruct (Z.testbit b i) eqn:Ht; cbn [negb].
    + rewrite u16_bit by lia.
      assert (mask_in (i + 1) (Z.of_nat fuel) (Z.ldiff b (2 ^ i))) as Hm'.
      { intros k Hk. rewrite Z.ldiff_spec, andb_true_iff, negb_true_iff. intros [H1 H2].
        specialize (Hm k Hk H1). destruct (decide (k = i)) as [->|]; [|lia].
        by rewrite Z.pow2_bits_true in H2. }
      rewrite IH by (done || lia).
      rewrite bind_Ok, bits_ldiff by lia. simpl. by rewrite u16_add_l.
    + rewrite IH; [done | lia | lia |]. intros k Hk Hk'. specialize (Hm k Hk Hk').
      destruct (decide (k = i)) as [->|]; [congruence | lia].
Qed.

(** The numbers of a pair. *)
Lemma PacketList_bits n : mask_in 0 16 (LostPackets n) →
  PacketList n = Ok (PacketID n :: map (λ k, u16 (PacketID n + k + 1)) (bits_from 0 16 (LostPackets n))).
Proof. intros H. unfold PacketList. by rewrite (nack_range_bits 16). Qed.

(** A bit above all others is the last one. *)
Lemma bits_snoc b k : 0 ≤ k < 16 → mask_in 0 k b →
  bits_from 0 16 (Z.lor b (u16 (Z.shiftl 1 k))) = bits_from 0 16 b ++ [k] ∧
  mask_in 0 (k + 1) (Z.lor b (u16 (Z.shiftl 1 k))).
Proof.
  intros Hk Hm. rewrite u16_bit by done. split.
  - unfold bits_from. replace 16 with (k + (1 + (15 - k))) by lia. rewrite !seqZ_app by lia.
    rewrite !filter_app, <- !app_assoc. f_equal.
    + apply filter_ext_in. intros j Hj. apply elem_of_seqZ in Hj.
      by rewrite Z.lor_spec, Z.pow2_bits_false, orb_false_r by lia.
    + rewrite (filter_none (λ j, Z.testbit b j = true) (seqZ (0 + k) 1)),
        (filter_none (λ j, Z.testbit b j = true)),
        (filter_none (λ j, Z.testbit (Z.lor _ _) j = true) (seqZ (0 + k + 1) _)).
      * rewrite app_nil_r. change (seqZ (0 + k) 1) with [0 + k]. rewrite filter_cons.
        case_decide as Hd; [done|]. exfalso. apply Hd. rewrite Z.lor_spec, Z.pow2_bits_true, orb_true_r by lia. done.
      * intros j Hj. apply elem_of_seqZ in Hj. rewrite Z.lor_spec, Z.pow2_bits_false, orb_false_r by lia.
        intros Ht. specialize (Hm j ltac:(lia) Ht). lia.
      * intros j Hj Ht. apply elem_of_seqZ in Hj. specialize (Hm j ltac:(lia) Ht). lia.
      * intros j Hj Ht. apply elem_of_seqZ in Hj. specialize (Hm j ltac:(lia) Ht). lia.
  - intros j Hj. rewrite Z.lor_spec, orb_true_iff. intros [Ht|Ht].
    + specialize (Hm j Hj Ht). lia.
    + destruct (decide (j = k)); [lia|]. by rewrite Z.pow2_bits_false in Ht.
Qed.

(** Strictly ascending numbers above [x]. *)
Fixpoint ascending (x : Z) (l : list Z) : Prop :=
  match l with
  | [] => True
  | y :: l => x < y ∧ ascending y l
  end.

Lemma nack_seqs_cons n l r : mask_in 0 16 (LostPackets n) → nack_seqs l = Ok r →
  nack_seqs (n :: l) =
  Ok ((PacketID n :: map (λ k, u16 (PacketID n + k + 1)) (bits_from 0 16 (LostPackets n))) ++ r).
Proof. intros Hm Hr. simpl. by rewrite PacketList_bits, Hr. Qed.

(** The pair that is being built starts at [x] and holds numbers up to [x + k]. *)
Lemma nack_pairs_spec l : ∀ x lost k, 0 ≤ k ≤ 16 → mask_in 0 k lost → ascending (x + k) l →
  Forall (λ y, y < x + 2 ^ 16) l →
  nack_seqs (nack_pairs (MkNackPair (u16 x) lost) (map u16 l)) =
  Ok ((u16 x :: map (λ k, u16 (u16 x + k + 1)) (bits_from 0 16 lost)) ++ map u16 l).
Proof.
  induction l as [|y l IH]; intros x lost k Hk Hm Ha Hs; cbn [map nack_pairs].
  - rewrite (nack_seqs_cons _ [] []); [done | | done]. intros j Hj Ht. specialize (Hm j Hj Ht). lia.
  - cbn [ascending] in Ha. destruct Ha as [Hy Ha]. inversion Hs as [|? ? Hsy Hsl]; subst. cbn [PacketID LostPackets].
    rewrite u16_sub_u16, (u16_id (y - x)) by lia. destruct (Z.ltb_spec 16 (y - x)) as [Hd|Hd].
    + rewrite (nack_seqs_cons _ _ (map u16 (y :: l))); [done | intros j Hj Ht; specialize (Hm j Hj Ht); lia |].
      rewrite (IH y 0 0); [by rewrite bits_from_0 | lia | intros j Hj; by rewrite Z.bits_0 | by rewrite Z.add_0_r |].
      eapply Forall_impl; [exact Hsl|]. simpl. lia.
    + rewrite (u16_id (y - x - 1)) by lia.
      assert (mask_in 0 (y - x - 1) lost) as Hm' by (intros j Hj Ht; specialize (Hm j Hj Ht); lia).
      destruct (bits_snoc lost (y - x - 1) ltac:(lia) Hm') as [Hb Hmm].
      rewrite (IH x _ (y - x)); [| lia | | by replace (x + (y - x)) with y by lia | done].
      2: { by replace (y - x) with (y - x - 1 + 1) at 1 by lia. }
      rewrite Hb, map_app, <- !app_comm_cons, <- app_assoc. simpl.
      rewrite <- Z.add_assoc, u16_add_l. by replace (x + (y - x - 1 + 1)) with y by lia.
Qed.

Lemma nack_pairs_exact x l : ascending x l → Forall (λ y, y < x + 2 ^ 16) l →
  nack_seqs (NackPairsFromSequenceNumbers (map u16 (x :: l))) = Ok (map u16 (x :: l)).
Proof.
  intros Ha Hs. simpl. rewrite (nack_pairs_spec l x 0 0); [by rewrite bits_from_0 | lia | | | done].
  - intros k Hk. by rewrite Z.bits_0.
  - by rewrite Z.add_0_r.
Qed.

(** ** The log of received numbers *)

Record log_wf (s : receiveLog) : Prop := {
  lw_size : ∃ e, 6 ≤ e < 16 ∧ rl_size s = 2 ^ e;
  lw_words : (Z.to_nat (rl_size s / 64) <= length (rl_packets s))%nat;
}.

(** The bit of the number [y], which is not wrapped around. *)
Definition has (s : receiveLog) (y : Z) : bool :=
  let pos := y mod rl_size s in
  Z.testbit (nth (Z.to_nat (pos / 64)) (rl_packets s) 0) (pos mod 64).

Lemma allowed_size_pow lo hi size : 0 ≤ lo → allowed_size lo hi size = true → ∃ e, lo ≤ e < hi ∧ size = 2 ^ e.
Proof.
  intros Hlo H. unfold allowed_size in H. rewrite existsb_exists in H. destruct H as (e & He & Hs).
  apply Z.eqb_eq in Hs. rewrite Z.shiftl_1_l in Hs. apply list_elem_of_In, elem_of_seqZ in He.
  exists e. split; [lia | done].
Qed.

(** Sizes divide the number of sequence numbers. *)
Lemma mod_u16 e size y : 0 ≤ e < 16 → size = 2 ^ e → u16 y mod size = y mod size.
Proof.
  intros He ->. unfold u16. apply Z.mod_mod_divide.
  exists (2 ^ (16 - e)). rewrite <- Z.pow_add_r by lia. f_equal. lia.
Qed.

Lemma log_size s : log_wf s → 64 ≤ rl_size s ≤ 2 ^ 15 ∧ rl_size s mod 64 = 0.
Proof.
  intros [(e & He & ->) _]. replace e with (6 + (e - 6)) by lia. rewrite Z.pow_add_r by lia.
  assert (1 ≤ 2 ^ (e - 6) ≤ 2 ^ 9) by (split; [apply (Z.pow_le_mono_r 2 0); lia | apply Z.pow_le_mono_r; lia]).
  change (2 ^ 6) with 64. split; [lia|]. rewrite Z.mul_comm. apply Z.mod_mul. lia.
Qed.

Lemma log_pos s y : log_wf s →
  u16 y mod rl_size s = y mod rl_size s ∧ (Z.to_nat (y mod rl_size s / 64) < length (rl_packets s))%nat.
Proof.
  intros Hs. destruct (log_size s Hs) as [H1 H2]. destruct Hs as [(e & He & Hsz) Hw]. split.
  - apply (mod_u16 e); [lia | done].
  - eapply Nat.lt_le_trans; [|exact Hw]. pose proof (Z.mod_pos_bound y (rl_size s)).
    apply Z2Nat.inj_lt; [apply Z.div_pos; lia | apply Z.div_pos; lia |].
    apply Z.div_lt_upper_bound; [lia|]. pose proof (Z.div_mod (rl_size s) 64). lia.
Qed.

Lemma log_word_nth s y : log_wf s →
  log_word s (u16 y) = Ok (nth (Z.to_nat (y mod rl_size s / 64)) (rl_packets s) 0).
Proof.
  intros Hs. destruct (log_pos s y Hs) as [Hp Hl]. unfold log_word. rewrite Hp. destruct (lookup_lt_is_Some_2 _ _ Hl) as [w Hw].
  by rewrite Hw, (nth_lookup_Some _ _ _ _ Hw).
Qed.

Lemma getReceived_has s y : log_wf s → getReceived s (u16 y) = Ok (has s y).
Proof.
  intros Hs. unfold getReceived. rewrite log_word_nth, bind_Ok by done. destruct (log_pos s y Hs) as [-> _].
  f_equal. unfold has. cbv zeta. generalize (nth (Z.to_nat (y mod rl_size s / 64)) (rl_packets s) 0). intros w.
  pose proof (Z.mod_pos_bound (y mod rl_size s) 64 ltac:(lia)) as Hp.
  revert Hp. generalize (y mod rl_size s mod 64). intros i Hi. rewrite Z.shiftl_1_l.
  destruct (Z.eqb_spec (Z.land w (2 ^ i)) 0) as [H|H]; destruct (Z.testbit w i) eqn:Ht; try done; exfalso.
  - apply (f_equal (λ z, Z.testbit z i)) in H. rewrite Z.land_spec, Z.pow2_bits_true, Ht, Z.bits_0 in H by lia. done.
  - apply H. apply Z.bits_inj'. intros k Hk. rewrite Z.land_spec, Z.bits_0.
    destruct (decide (k = i)) as [->|Hne]; [by rewrite Ht|]. by rewrite Z.pow2_bits_false, andb_false_r.
Qed.

(** The fields that a change of one bit keeps. *)
Definition same_log (s s' : receiveLog) : Prop :=
  rl_size s' = rl_size s ∧ rl_end s' = rl_end s ∧ rl_started s' = rl_started s ∧
  lastConsecutive s' = lastConsecutive s.

Lemma log_update s y w : log_wf s →
  let s' := set_log_word s (u16 y) w in
  log_wf s' ∧ same_log s s' ∧
  ∀ z, has s' z = if decide (y mod rl_size s / 64 = z mod rl_size s / 64)
                  then Z.testbit w (z mod rl_size s mod 64) else has s z.
Proof.
  intros Hs s'. destruct (log_pos s y Hs) as [Hp Hl]. subst s'. unfold set_log_word. rewrite Hp. split.
  { destruct Hs as [He Hw]. split; simpl; [done | by rewrite length_insert]. }
  split; [done|]. intros z. unfold has. simpl. destruct (log_size s Hs) as [Hz _].
  pose proof (Z.mod_pos_bound y (rl_size s)). pose proof (Z.mod_pos_bound z (rl_size s)).
  case_decide as Hd.
  - rewrite <- Hd. by rewrite (nth_lookup_Some _ _ _ w) by (by apply list_lookup_insert_eq).
  - rewrite !nth_lookup. rewrite list_lookup_insert_ne; [done|].
    intros He. apply Hd. apply Z2Nat.inj in He; [done | apply Z.div_pos; lia..].
Qed.

Lemma same_residue a b m : 0 < m → a / 64 = b / 64 → a mod 64 = b mod 64 → a = b.
Proof. intros _ H1 H2. pose proof (Z.div_mod a 64). pose proof (Z.div_mod b 64). lia. Qed.

Lemma setReceived_has s y : log_wf s → ∃ s', setReceived s (u16 y) = Ok s' ∧ log_wf s' ∧ same_log s s' ∧
  ∀ z, has s' z = bool_decide (y mod rl_size s = z mod rl_size s) || has s z.
Proof.
  intros Hs. unfold setReceived. rewrite log_word_nth, bind_Ok by done. destruct (log_pos s y Hs) as [-> _].
  eexists. split; [done|].
  match goal with |- context [set_log_word s _ ?w] => destruct (log_update s y w Hs) as (H1 & H2 & H3) end.
  split; [done|]. split; [done|]. intros z. rewrite H3. pose proof (Z.mod_pos_bound (y mod rl_size s) 64 ltac:(lia)).
  case_decide as Hd.
  - rewrite Z.lor_spec, Z.shiftl_1_l, Hd. fold (has s z). rewrite orb_comm. f_equal.
    case_bool_decide as He; [by rewrite <- He, Z.pow2_bits_true by lia|].
    apply Z.pow2_bits_false. intros Hm. apply He. eapply (same_residue _ _ 64); [lia | done | done].
  - rewrite bool_decide_false; [done|]. intros He. apply Hd. by rewrite He.
Qed.

Lemma delReceived_has s y : log_wf s → ∃ s', delReceived s (u16 y) = Ok s' ∧ log_wf s' ∧ same_log s s' ∧
  ∀ z, has s' z = negb (bool_decide (y mod rl_size s = z mod rl_size s)) && has s z.
Proof.
  intros Hs. unfold delReceived. rewrite log_word_nth, bind_Ok by done. destruct (log_pos s y Hs) as [-> _].
  eexists. split; [done|].
  match goal with |- context [set_log_word s _ ?w] => destruct (log_update s y w Hs) as (H1 & H2 & H3) end.
  split; [done|]. split; [done|]. intros z. rewrite H3. pose proof (Z.mod_pos_bound (y mod rl_size s) 64 ltac:(lia)).
  case_decide as Hd.
  - rewrite Z.ldiff_spec, Z.shiftl_1_l, Hd. fold (has s z). rewrite andb_comm. f_equal. f_equal.
    case_bool_decide as He; [by rewrite <- He, Z.pow2_bits_true by lia|].
    apply Z.pow2_bits_false. intros Hm. apply He. eapply (same_residue _ _ 64); [lia | done | done].
  - rewrite bool_decide_false; [done|]. intros He. apply Hd. by rewrite He.
Qed.

(** A loop over numbers that are not wrapped around. *)
Lemma for_u16_inv {S} (P : Z → S → Prop) (f : Z → S → nres S) fuel : ∀ a b s,
  a ≤ b → b - a < 2 ^ 16 → b - a ≤ Z.of_nat fuel → P a s →
  (∀ i s, a ≤ i < b → P i s → ∃ s', f (u16 i) s = Ok s' ∧ P (i + 1) s') →
  ∃ s', for_u16 fuel (u16 a) (u16 b) f s = Ok s' ∧ P b s'.
Proof.
  induction fuel as [|fuel IH]; intros a b s Hab Hw Hf Hs Hstep; cbn [for_u16].
  - replace b with a by lia. rewrite Z.eqb_refl. eauto.
  - destruct (Z.eqb_spec (u16 a) (u16 b)) as [He|He].
    + assert (a = b) as ->; [|by eauto]. unfold u16 in He.
      assert ((b - a) mod 2 ^ 16 = 0) as Hm by (rewrite Zminus_mod, He, Z.sub_diag; done).
      rewrite Z.mod_small in Hm by lia. lia.
    + assert (a ≠ b) by (intros ->; done). destruct (Hstep a s) as (s' & Hs1 & Hs2); [lia | done |].
      rewrite Hs1, bind_Ok, u16_add_l. apply (IH (a + 1) b s'); [lia.. | done |].
      intros i s2 Hi. apply Hstep. lia.
Qed.

(** Two numbers of one window are at the same place only if they are equal. *)
Lemma same_slot size a b : 0 < size → - size < a - b < size → a mod size = b mod size → a = b.
Proof.
  intros Hs Hd He. assert ((a - b) mod size = 0) as Hm by (rewrite Zminus_mod, He, Z.sub_diag; done).
  apply Z.mod_divide in Hm as [k Hk]; [|lia].
  assert (-1 < k) by nia. assert (k < 1) by nia. assert (k = 0) as -> by lia. lia.
Qed.

(** [s] holds the numbers [xs]: the last one is [E], those up to [L] that are
    still in the window were received, the first one was [F]. *)
Record log_rel (s : receiveLog) (size F E L : Z) (xs : list Z) : Prop := {
  lr_wf : log_wf s;
  lr_size : rl_size s = size;
  lr_started : rl_started s = true;
  lr_end : rl_end s = u16 E;
  lr_last : lastConsecutive s = u16 L;
  lr_bits : ∀ y, E - size < y ≤ E → has s y = bool_decide (y ∈ xs);
  lr_order : F ≤ L ≤ E ∧ E - size ≤ L;
  lr_all : ∀ y, E - size < y → F ≤ y ≤ L → y ∈ xs;
  lr_max : E ∈ xs ∧ ∀ y, y ∈ xs → y ≤ E;
}.

Lemma newReceiveLog_wf size s : newReceiveLog size = Ok s →
  log_wf s ∧ rl_size s = size ∧ rl_started s = false ∧ ∀ y, has s y = false.
Proof.
  unfold newReceiveLog. destruct (allowed_size 6 16 size) eqn:Ha; [|done]. simpl. intros [= <-].
  destruct (allowed_size_pow 6 16 size ltac:(lia) Ha) as (e & He & Hs). split; [|split; [done|split; [done|]]].
  - split; simpl; [eauto | by rewrite length_replicate].
  - intros y. unfold has. simpl. rewrite nth_lookup.
    destruct (replicate _ 0 !! _) eqn:H; simpl; [|apply Z.bits_0].
    apply lookup_replicate in H as [-> _]. apply Z.bits_0.
Qed.

Lemma log_rel_first size s x : newReceiveLog size = Ok s →
  ∃ s', log_add s (u16 x) = Ok s' ∧ log_rel s' size x x x [x].
Proof.
  intros Hs. destruct (newReceiveLog_wf size s Hs) as (Hw & Hsz & Hst & Hno).
  unfold log_add. rewrite Hst. cbn [negb]. destruct (setReceived_has s x Hw) as (s' & -> & Hw' & (H1 & H2 & H3 & H4) & Hh).
  rewrite bind_Ok. eexists. split; [done|]. pose proof (log_size s Hw) as [Hsz' _].
  destruct Hw' as [Hw1 Hw2]. split; simpl; try done; [by rewrite H1 | | lia | |].
  - intros y Hy. change (has s' y = bool_decide (y ∈ [x])). rewrite Hh, Hno, orb_false_r, Hsz.
    apply bool_decide_ext. rewrite list_elem_of_singleton. split; [|by intros ->].
    intros He. symmetry. apply (same_slot size); [lia | lia | done].
  - intros y Hy1 Hy2. apply list_elem_of_singleton. lia.
  - split; [by apply list_elem_of_singleton|]. intros y Hy%list_elem_of_singleton. lia.
Qed.

Lemma fix_loop_spec fuel : ∀ s E a, log_wf s → rl_end s = u16 E →
  a ≤ E + 1 → E + 1 - a < 2 ^ 16 → E + 1 - a ≤ Z.of_nat fuel →
  ∃ b, fix_loop fuel s (u16 a) = Ok (u16 b) ∧ a ≤ b ≤ E + 1 ∧ ∀ i, a ≤ i < b → has s i = true.
Proof.
  induction fuel as [|fuel IH]; intros s E a Hw He Ha Hb Hf; cbn [fix_loop]; rewrite He, u16_add_l.
  - replace a with (E + 1) by lia. rewrite Z.eqb_refl. exists (E + 1). split; [done|]. split; [lia|]. lia.
  - destruct (Z.eqb_spec (u16 a) (u16 (E + 1))) as [Hx|Hx].
    + exists a. split; [done|]. split; [lia|]. lia.
    + rewrite getReceived_has, bind_Ok by done. destruct (has s a) eqn:Hh.
      * assert (a ≠ E + 1) by (intros ->; done). rewrite u16_add_l.
        destruct (IH s E (a + 1) Hw He) as (b & Hb1 & Hb2 & Hb3); [lia..|].
        exists b. split; [done|]. split; [lia|]. intros i Hi. destruct (decide (i = a)) as [->|]; [done|].
        apply Hb3. lia.
      * exists a. split; [done|]. split; [lia|]. lia.
Qed.

Lemma fixLast_spec s E L : log_wf s → rl_end s = u16 E → lastConsecutive s = u16 L →
  L ≤ E → E - L < 2 ^ 16 →
  ∃ L', fixLastConsecutive s = Ok (set_lastConsecutive s (u16 L')) ∧ L ≤ L' ≤ E ∧
    ∀ i, L < i ≤ L' → has s i = true.
Proof.
  intros Hw He HL H1 H2. unfold fixLastConsecutive. rewrite HL, u16_add_l.
  destruct (fix_loop_spec loop_fuel s E (L + 1) Hw He) as (b & -> & Hb & Hi); [lia | lia | unfold loop_fuel; lia |].
  exists (b - 1). rewrite bind_Ok. split; [|split; [lia|]].
  - do 2 f_equal. unfold u16. by rewrite Zminus_mod_idemp_l.
  - intros i Hi'. apply Hi. lia.
Qed.

Lemma log_clear s size F E L xs x : log_rel s size F E L xs → E < x < E + 2 ^ 15 →
  ∃ s', for_u16 loop_fuel (u16 (E + 1)) (u16 x) (λ i s, delReceived s i) s = Ok s' ∧
    log_wf s' ∧ same_log s s' ∧ ∀ y, x - 1 - size < y ≤ x - 1 → has s' y = bool_decide (y ∈ xs).
Proof.
  intros HR Hx. pose proof (log_size s (lr_wf _ _ _ _ _ _ HR)) as [Hsz _]. rewrite (lr_size _ _ _ _ _ _ HR) in Hsz.
  apply (for_u16_inv (λ i s', log_wf s' ∧ same_log s s' ∧
    ∀ y, i - 1 - size < y ≤ i - 1 → has s' y = bool_decide (y ∈ xs))); [lia | lia | unfold loop_fuel; lia | |].
  - split; [apply HR|]. split; [done|]. intros y Hy. apply HR. lia.
  - intros i s1 Hi (Hw & Hs & Hb). destruct (delReceived_has s1 i Hw) as (s2 & -> & Hw2 & Hs2 & Hh).
    exists s2. split; [done|]. split; [done|]. unfold same_log in *.
    assert (rl_size s1 = size) as Hz by (destruct HR; intuition congruence). split; [intuition congruence|].
    intros y Hy. rewrite Hh, Hz. destruct (decide (y = i)) as [->|Hne].
    + rewrite bool_decide_true by done. symmetry. apply bool_decide_false.
      intros Hin. apply (lr_max _ _ _ _ _ _ HR) in Hin. lia.
    + rewrite bool_decide_false; [|intros He; apply Hne; symmetry; apply (same_slot size); [lia.. | done]].
      apply Hb. lia.
Qed.

(** What the change of lastConsecutive leaves: the bits below the new number
    [x], and everything up to the new [L] received. *)
Definition log_mid (s : receiveLog) (size F E L x : Z) (xs : list Z) : Prop :=
  log_wf s ∧ rl_size s = size ∧ rl_started s = true ∧ rl_end s = u16 E ∧ lastConsecutive s = u16 L ∧
  (∀ y, E - size < y ≤ E → y ≠ x → has s y = bool_decide (y ∈ xs)) ∧
  F ≤ L ≤ E ∧ E - size ≤ L ∧ (∀ y, E - size < y → F ≤ y ≤ L → y ∈ x :: xs).

Lemma log_finish s size F E L x xs : log_mid s size F E L x xs → E - size < x ≤ E →
  (E ∈ x :: xs) → (∀ y, y ∈ xs → y ≤ E) →
  ∃ s', setReceived s (u16 x) = Ok s' ∧ log_rel s' size F E L (x :: xs).
Proof.
  intros (Hw & Hz & Hst & He & HL & Hb & Ho & Ho' & Ha) Hx HE Hm. pose proof (log_size s Hw) as [Hsz _].
  destruct (setReceived_has s x Hw) as (s' & -> & Hw' & (H1 & H2 & H3 & H4) & Hh). exists s'. split; [done|].
  split; try done; try congruence.
  - intros y Hy. rewrite Hh, Hz. destruct (decide (y = x)) as [->|Hne].
    + rewrite bool_decide_true by done. simpl. symmetry. apply bool_decide_true. by left.
    + rewrite bool_decide_false by (intros Hr; apply Hne; symmetry; apply (same_slot size); [lia.. | done]).
      simpl. rewrite Hb by done. apply bool_decide_ext. rewrite elem_of_cons. split; [by right | by intros [->|?]].
  - split; [done|]. intros y [->|Hy]%elem_of_cons; [lia | by apply Hm].
Qed.

Lemma u16_eq a b : - 2 ^ 16 < a - b < 2 ^ 16 → (u16 a =? u16 b) = (a =? b).
Proof.
  intros Hd. destruct (Z.eqb_spec a b) as [->|Hne]; [apply Z.eqb_refl|]. apply Z.eqb_neq. intros He. apply Hne.
  apply (same_slot (2 ^ 16)); [lia | lia | done].
Qed.

Lemma u16_back a : 0 < a ≤ 2 ^ 15 → u16 (- a) = 2 ^ 16 - a.
Proof. intros Ha. unfold u16. symmetry. apply (Z.mod_unique _ _ (-1)); lia. Qed.

(** A number below the last one. *)
Lemma log_late s size F E L xs x : log_rel s size F E L xs → E - size < x < E →
  ∃ s1 L', (if u16 (lastConsecutive s + 1) =? u16 x
            then fixLastConsecutive (set_lastConsecutive s (u16 x)) else Ok s) = Ok s1 ∧
    log_mid s1 size F E L' x xs.
Proof.
  intros HR Hx. pose proof (log_size s (lr_wf _ _ _ _ _ _ HR)) as [Hsz _]. rewrite (lr_size _ _ _ _ _ _ HR) in Hsz.
  destruct HR as [Hw Hz Hst He HL Hb [Ho Ho'] Ha [HE Hm]].
  rewrite HL, u16_add_l, u16_eq by lia. destruct (Z.eqb_spec (L + 1) x) as [<-|Hne].
  - destruct (fixLast_spec (set_lastConsecutive s (u16 (L + 1))) E (L + 1)) as (L' & -> & HL' & Hi);
      [destruct Hw; by split | done | done | lia | lia |].
    exists (set_lastConsecutive (set_lastConsecutive s (u16 (L + 1))) (u16 L')), L'. split; [done|].
    unfold log_mid. split; [destruct Hw; by split|]. do 4 (split; [done|]).
    split; [intros y Hy _; by apply Hb|]. split; [lia|]. split; [lia|]. intros y Hy1 Hy2.
    destruct (Z.le_gt_cases y L); [right; apply Ha; lia|]. destruct (decide (y = L + 1)) as [->|]; [by left|].
    right. assert (has s y = true) as Hy by (apply Hi; lia). rewrite Hb in Hy by lia. by apply bool_decide_eq_true in Hy.
  - exists s, L. split; [done|]. do 5 (split; [done|]). split; [intros y Hy _; by apply Hb|].
    split; [lia|]. split; [lia|]. intros y Hy1 Hy2. right. by apply Ha.
Qed.

(** A number after the last one: the window moves. *)
Lemma log_ahead s size F E L xs x : log_rel s size F E L xs → E < x < E + 2 ^ 15 →
  ∃ s1 L',
    (s ← for_u16 loop_fuel (u16 (E + 1)) (u16 x) (λ i s, delReceived s i) s;
     let s := set_end s (u16 x) in
     if u16 (lastConsecutive s + 1) =? u16 x then Ok (set_lastConsecutive s (u16 x))
     else if rl_size s <? u16 (u16 x - lastConsecutive s) then
       fixLastConsecutive (set_lastConsecutive s (u16 (u16 x - rl_size s)))
     else Ok s) = Ok s1 ∧ log_mid s1 size F x L' x xs.
Proof.
  intros HR Hx. destruct (log_clear s size F E L xs x HR Hx) as (s1 & -> & Hw1 & (H1 & H2 & H3 & H4) & Hb1).
  pose proof (log_size s (lr_wf _ _ _ _ _ _ HR)) as [Hsz _]. rewrite (lr_size _ _ _ _ _ _ HR) in Hsz.
  destruct HR as [Hw Hz Hst He HL Hb [Ho Ho'] Ha [HE Hm]]. rewrite bind_Ok. cbv zeta.
  assert (log_wf (set_end s1 (u16 x))) as Hw2 by (destruct Hw1; by split).
  cbn [lastConsecutive rl_size set_end]. rewrite H4, HL, u16_add_l, u16_eq, u16_sub_u16, (u16_id (x - L)), H1, Hz by lia.
  assert (∀ y, x - size < y ≤ x → y ≠ x → has s1 y = bool_decide (y ∈ xs)) as Hb2
    by (intros y Hy Hne; apply Hb1; lia).
  destruct (Z.eqb_spec (L + 1) x) as [Hn|Hn]; [|destruct (Z.ltb_spec size (x - L)) as [Hd|Hd]].
  - exists (set_lastConsecutive (set_end s1 (u16 x)) (u16 x)), x. split; [done|]. split; [destruct Hw2; by split|].
    simpl. do 4 (split; [congruence|]). split; [done|]. split; [lia|]. split; [lia|]. intros y Hy1 Hy2.
    destruct (decide (y = x)) as [->|]; [by left|]. right. apply Ha; lia.
  - assert (u16 (u16 x - size) = u16 (x - size)) as -> by (unfold u16; by rewrite Zminus_mod_idemp_l).
    destruct (fixLast_spec (set_lastConsecutive (set_end s1 (u16 x)) (u16 (x - size))) x (x - size))
      as (L' & -> & HL' & Hi); [destruct Hw2; by split | done | done | lia | lia |].
    eexists _, L'. split; [done|]. split; [destruct Hw2; by split|]. simpl.
    do 4 (split; [congruence|]). split; [done|]. split; [lia|]. split; [lia|]. intros y Hy1 Hy2.
    destruct (decide (y = x)) as [->|]; [by left|]. right.
    assert (has s1 y = true) as Hy by (apply Hi; lia). rewrite Hb2 in Hy by lia. by apply bool_decide_eq_true in Hy.
  - eexists _, L. split; [done|]. split; [done|]. simpl. do 4 (split; [congruence|]). split; [done|].
    split; [lia|]. split; [lia|]. intros y Hy1 Hy2. right. apply Ha; lia.
Qed.

(** A number is added. *)
Lemma log_add_rel s size F E L xs x : log_rel s size F E L xs → E - size < x < E + 2 ^ 15 →
  ∃ s' L', log_add s (u16 x) = Ok s' ∧ log_rel s' size F (Z.max E x) L' (x :: xs).
Proof.
  intros HR Hx. pose proof (log_size s (lr_wf _ _ _ _ _ _ HR)) as [Hsz _]. rewrite (lr_size _ _ _ _ _ _ HR) in Hsz.
  destruct (lr_max _ _ _ _ _ _ HR) as [HE Hmax].
  unfold log_add. rewrite (lr_started _ _ _ _ _ _ HR), (lr_end _ _ _ _ _ _ HR). cbn [negb].
  rewrite u16_sub_u16, (u16_add_l E). unfold uint16SizeHalf. destruct (Z.lt_trichotomy x E) as [Hlt|[->|Hgt]].
  - rewrite Z.max_l by lia. replace (x - E) with (- (E - x)) by lia. rewrite u16_back by lia.
    rewrite (proj2 (Z.eqb_neq _ _)), (proj2 (Z.ltb_ge _ _)) by lia.
    destruct (log_late s size F E L xs x HR) as (s1 & L' & -> & Hmid); [lia|]. rewrite bind_Ok.
    destruct (log_finish s1 size F E L' x xs Hmid) as (s' & -> & HR'); [lia | by right | done |]. eauto.
  - rewrite Z.sub_diag, Z.max_id. simpl. exists s, L. split; [done|]. destruct HR. split; try done.
    + intros y Hy. rewrite lr_bits0 by done. apply bool_decide_ext. rewrite elem_of_cons.
      split; [by right | by intros [->|?]].
    + intros y Hy1 Hy2. right. by apply lr_all0.
    + split; [by left|]. intros y [->|Hy]%elem_of_cons; [lia | by apply Hmax].
  - rewrite Z.max_r, (u16_id (x - E)) by lia.
    rewrite (proj2 (Z.eqb_neq _ _)), (proj2 (Z.ltb_lt _ _)) by lia.
    destruct (log_ahead s size F E L xs x HR) as (s1 & L' & Hs1 & Hmid); [lia|].
    cbv zeta in *. rewrite Hs1, bind_Ok.
    destruct (log_finish s1 size F x L' x xs Hmid) as (s' & -> & HR'); [lia | by left | |eauto].
    intros y Hy. apply Hmax in Hy. lia.
Qed.

Lemma missing_rel s size F E L xs skip : log_rel s size F E L xs → size < 2 ^ 15 → 0 ≤ skip < 2 ^ 15 →
  missingSeqNumbers s skip =
  Ok (map u16 (filter (λ y, y ∉ xs) (seqZ (Z.max F (E - size) + 1) (E - skip - Z.max F (E - size))))).
Proof.
  intros HR Hs Hk. destruct HR as [Hw Hz Hst He HL Hb [Ho Ho'] Ha [HE Hm]].
  unfold missingSeqNumbers, uint16SizeHalf. rewrite He, HL.
  assert (u16 (u16 E - skip) = u16 (E - skip)) as -> by (unfold u16; by rewrite Zminus_mod_idemp_l).
  rewrite u16_sub_u16, !u16_add_l. set (m := Z.max F (E - size)).
  assert (∀ y : Z, y ∈ seqZ (m + 1) (Z.min L (E - skip) - m) → ¬ (y ∉ xs)) as Hrec.
  { intros y Hy%elem_of_seqZ Hn. apply Hn, Ha; lia. }
  destruct (Z.lt_ge_cases (E - skip) L) as [Hlt|Hge].
  - replace (E - skip - L) with (- (L - (E - skip))) by lia. rewrite u16_back by lia.
    rewrite (proj2 (Z.leb_le _ _)) by lia. rewrite filter_none; [done|].
    by replace (E - skip) with (Z.min L (E - skip)) by lia.
  - rewrite u16_id by lia. rewrite (proj2 (Z.leb_gt _ _)) by lia.
    destruct (for_u16_inv (λ i l, l = map u16 (filter (λ y, y ∉ xs) (seqZ (L + 1) (i - (L + 1)))))
      (λ i l, r ← getReceived s i; Ok (if r : bool then l else l ++ [i])) loop_fuel (L + 1) (E - skip + 1) [])
      as (l & -> & ->); [lia | lia | unfold loop_fuel; lia | by rewrite Z.sub_diag | |].
    + intros i l Hi ->. rewrite getReceived_has, bind_Ok, Hb by (done || lia). eexists. split; [done|].
      replace (i + 1 - (L + 1)) with ((i - (L + 1)) + 1) by lia. rewrite seqZ_app, filter_app, map_app by lia.
      replace (L + 1 + (i - (L + 1))) with i by lia. change (seqZ i 1) with [i]. rewrite filter_cons.
      case_bool_decide; case_decide; simpl; rewrite ?app_nil_r; tauto || done.
    + do 2 f_equal. replace (E - skip - m) with ((Z.min L (E - skip) - m) + (E - skip - L)) by lia.
      rewrite seqZ_app, filter_app, (filter_none _ _ Hrec) by lia. simpl.
      f_equal. f_equal; lia.
Qed.

(** The numbers arrive in any order, as long as each is in the window of the log
    or ahead of it by less than half of the numbers. *)
Fixpoint arrivals (size E : Z) (l : list Z) : Prop :=
  match l with
  | [] => True
  | x :: l => E - size < x < E + 2 ^ 15 ∧ arrivals size (Z.max E x) l
  end.

Fixpoint log_add_all (s : receiveLog) (l : list Z) : nres receiveLog :=
  match l with
  | [] => Ok s
  | x :: l => s ← log_add s x; log_add_all s l
  end.

Lemma log_add_all_rel l : ∀ s size F E L xs, log_rel s size F E L xs → arrivals size E l →
  ∃ s' L' xs', log_add_all s (map u16 l) = Ok s' ∧ log_rel s' size F (foldl Z.max E l) L' xs' ∧
    ∀ y, y ∈ xs' ↔ y ∈ xs ∨ y ∈ l.
Proof.
  induction l as [|x l IH]; intros s size F E L xs HR Ha; cbn [log_add_all map foldl].
  - exists s, L, xs. split; [done|]. split; [done|]. intros y. split; [by left|]. intros [?|Hy]; [done|]. by apply not_elem_of_nil in Hy.
  - destruct Ha as [Hx Ha]. destruct (log_add_rel s size F E L xs x HR Hx) as (s1 & L1 & -> & HR1).
    rewrite bind_Ok. destruct (IH _ _ _ _ _ _ HR1 Ha) as (s' & L' & xs' & H1 & H2 & H3).
    exists s', L', xs'. split; [done|]. split; [done|]. intros y. rewrite H3, !elem_of_cons. tauto.
Qed.

(** ** The size of a NACK *)

Lemma mask_u16 b : 0 ≤ b → mask_in 0 16 b → is_u16 b.
Proof.
  intros Hb Hm. split; [done|]. destruct (Z.lt_ge_cases b (2 ^ 16)) as [|Hge]; [done|]. exfalso.
  assert (Z.testbit b (Z.log2 b) = true) as Ht by (apply Z.bit_log2; lia).
  specialize (Hm _ (Z.log2_nonneg b) Ht). pose proof (Z.log2_le_pow2 b 16). lia.
Qed.

(** The pairs of ascending numbers are at least 17 apart, and fit their fields. *)
Lemma nack_pairs_size l : ∀ x lost k M, 0 ≤ k ≤ 16 → 0 ≤ lost → mask_in 0 k lost → ascending (x + k) l →
  Forall (λ y, y < x + 2 ^ 16) l → Forall (λ y, y ≤ M) l → x ≤ M →
  17 * Z.of_nat (length (nack_pairs (MkNackPair (u16 x) lost) (map u16 l))) ≤ 17 + (M - x) ∧
  Forall (λ n, is_u16 (PacketID n) ∧ is_u16 (LostPackets n)) (nack_pairs (MkNackPair (u16 x) lost) (map u16 l)).
Proof.
  induction l as [|y l IH]; intros x lost k M Hk H0 Hm Ha Hs HM Hx; cbn [map nack_pairs].
  - simpl. split; [lia|]. apply Forall_singleton. simpl. split; [apply u16_range|]. apply mask_u16; [done|].
    intros j Hj Ht. specialize (Hm j Hj Ht). lia.
  - cbn [ascending] in Ha. destruct Ha as [Hy Ha]. inversion Hs as [|? ? Hsy Hsl]; subst.
    inversion HM as [|? ? HMy HMl]; subst. cbn [PacketID LostPackets].
    rewrite u16_sub_u16, (u16_id (y - x)) by lia. destruct (Z.ltb_spec 16 (y - x)) as [Hd|Hd].
    + destruct (IH y 0 0 M) as [H1 H2]; [lia | lia | intros j Hj; by rewrite Z.bits_0 | by rewrite Z.add_0_r | | done | done |].
      { eapply Forall_impl; [exact Hsl|]. simpl. lia. }
      split; [cbn [length]; lia|]. apply Forall_cons. split; [|done]. simpl. split; [apply u16_range|].
      apply mask_u16; [done|]. intros j Hj Ht. specialize (Hm j Hj Ht). lia.
    + rewrite (u16_id (y - x - 1)) by lia.
      assert (mask_in 0 (y - x - 1) lost) as Hm' by (intros j Hj Ht; specialize (Hm j Hj Ht); lia).
      destruct (bits_snoc lost (y - x - 1) ltac:(lia) Hm') as [_ Hmm].
      apply (IH x _ (y - x) M); try done; try lia.
      * apply Z.lor_nonneg. split; [done|]. apply u16_range.
      * by replace (y - x) with (y - x - 1 + 1) at 1 by lia.
      * by replace (x + (y - x)) with y by lia.
Qed.

Lemma filter_seqZ_ascending (P : Z → Prop) `{∀ x, Decision (P x)} n : ∀ m, 
  ascending m (filter P (seqZ (m + 1) (Z.of_nat n))) ∧
  Forall (λ y, m < y ≤ m + Z.of_nat n) (filter P (seqZ (m + 1) (Z.of_nat n))).
Proof.
  induction n as [|n IH]; intros m; [by simpl|]. rewrite seqZ_cons, filter_cons by lia.
  replace (Z.pred (Z.of_nat (S n))) with (Z.of_nat n) by lia. replace (Z.succ (m + 1)) with ((m + 1) + 1) by lia.
  destruct (IH (m + 1)) as [H1 H2]. case_decide.
  - split; [split; [lia | done]|]. apply Forall_cons. split; [lia|]. eapply Forall_impl; [exact H2|]. simpl. lia.
  - split; [|eapply Forall_impl; [exact H2|]; simpl; lia].
    destruct (filter P _) as [|z l]; [done|]. simpl in *. inversion H2; subst. split; [lia | apply H1].
Qed.

(** The numbers between the first one and the last one that are still in the
    window, not among the last [skip], and did not arrive. *)
Definition missing (size F E skip : Z) (arrived : list Z) : list Z :=
  filter (λ y, y ∉ arrived) (seqZ (Z.max F (E - size) + 1) (E - skip - Z.max F (E - size))).

Lemma missing_ext size F E skip l l' : (∀ y, y ∈ l ↔ y ∈ l') → missing size F E skip l = missing size F E skip l'.
Proof. intros H. apply filter_ext_in. intros y _. by rewrite H. Qed.

Lemma missing_shape size F E skip l : 0 ≤ size → 0 ≤ skip → 
  let m := missing size F E skip l in
  ascending (Z.max F (E - size)) m ∧ Forall (λ y, Z.max F (E - size) < y ≤ E) m.
Proof.
  intros Hs Hk. unfold missing. set (b := Z.max F (E - size)).
  destruct (Z.le_gt_cases (E - skip - b) 0) as [Hn|Hn].
  - rewrite seqZ_nil by done. by split.
  - rewrite <- (Z2Nat.id (E - skip - b)) by lia.
    destruct (filter_seqZ_ascending (λ y, y ∉ l) (Z.to_nat (E - skip - b)) b) as [H1 H2].
    split; [done|]. eapply Forall_impl; [exact H2|]. simpl. lia.
Qed.

Lemma make_nack_missing s sender skip ssrc b E l :
  missingSeqNumbers s skip = Ok (map u16 l) → is_u32 sender → is_u32 ssrc →
  ascending b l → Forall (λ y, b < y ≤ E) l → 0 ≤ E - b ≤ 4096 →
  match l with
  | [] => make_nack sender skip ssrc s = Ok []
  | _ => ∃ n, make_nack sender skip ssrc s = Ok [n] ∧ tln_MediaSSRC n = ssrc ∧
           nack_seqs (Nacks n) = Ok (map u16 l) ∧ nack_ok n
  end.
Proof.
  intros Hm Hs1 Hs2 Ha Hb HE. unfold make_nack. rewrite Hm, bind_Ok. destruct l as [|x l]; [done|].
  cbn [map]. eexists. split; [done|]. split; [done|]. cbn [ascending] in Ha. destruct Ha as [Hx Ha].
  rewrite Forall_cons in Hb. destruct Hb as [Hbx Hb]. cbn [Nacks].
  assert (Forall (λ y, y < x + 2 ^ 16) l) as Hw by (eapply Forall_impl; [exact Hb|]; simpl; lia).
  split; [by apply nack_pairs_exact|]. split; [by split|]. cbn [Nacks NackPairsFromSequenceNumbers].
  destruct (nack_pairs_size l x 0 0 E) as [H1 H2];
    [lia | lia | intros j Hj; by rewrite Z.bits_0 | by rewrite Z.add_0_r | done | | lia |].
  { eapply Forall_impl; [exact Hb|]. simpl. lia. }
  split; [done | lia].
Qed.

(** The log of a stream and the NACK of a tick. *)
Lemma log_nack size s0 F l skip sender ssrc :
  newReceiveLog size = Ok s0 → size ≤ 4096 → 0 ≤ skip < 2 ^ 15 → arrivals size F l →
  is_u32 sender → is_u32 ssrc →
  ∃ s, log_add_all s0 (map u16 (F :: l)) = Ok s ∧
    match missing size F (foldl Z.max F l) skip (F :: l) with
    | [] => make_nack sender skip ssrc s = Ok []
    | m => ∃ n, make_nack sender skip ssrc s = Ok [n] ∧ tln_MediaSSRC n = ssrc ∧
             nack_seqs (Nacks n) = Ok (map u16 m) ∧ nack_ok n
    end.
Proof.
  intros Hs Hsz Hk Ha Hs1 Hs2. destruct (log_rel_first size s0 F Hs) as (s1 & Hs1' & HR1).
  destruct (log_add_all_rel l _ _ _ _ _ _ HR1 Ha) as (s & L & xs & Hs' & HR & Hxs).
  exists s. split; [cbn [map log_add_all]; by rewrite Hs1', bind_Ok|].
  pose proof (log_size s (lr_wf _ _ _ _ _ _ HR)) as [Hz _]. rewrite (lr_size _ _ _ _ _ _ HR) in Hz.
  pose proof (missing_rel _ _ _ _ _ _ skip HR ltac:(lia) Hk) as Hm. fold (missing size F (foldl Z.max F l) skip xs) in Hm.
  rewrite (missing_ext _ _ _ _ xs (F :: l)) in Hm.
  2: { intros y. rewrite Hxs, list_elem_of_singleton. symmetry. apply elem_of_cons. }
  destruct (missing_shape size F (foldl Z.max F l) skip (F :: l)) as [H1 H2]; [lia | lia |].
  pose proof (lr_order _ _ _ _ _ _ HR) as Ho.
  pose proof (make_nack_missing s sender skip ssrc _ _ _ Hm Hs1 Hs2 H1 H2 ltac:(lia)) as Hn.
  by destruct (missing size F (foldl Z.max F l) skip (F :: l)).
Qed.

(** C15. The NACKs a peer connection sends ask for exactly what is missing.
    Whatever the order in which the numbers of a stream arrive, with wrap-around
    any number of times, as long as each is in the log's window or less than
    2^15 ahead: the log never reads outside of its words, its loops end, and
    the NACK of a tick lists, in order and once each, the numbers of the window
    that did not arrive; no NACK is sent if there are none.  The NACK fits its
    wire format.  (The log of the server has 512 entries.) *)
Theorem nack_requests_missing size s0 F l skip sender ssrc :
  newReceiveLog size = Ok s0 → size ≤ 4096 → 0 ≤ skip < 2 ^ 15 → arrivals size F l →
  is_u32 sender → is_u32 ssrc →
  ∃ s, log_add_all s0 (map u16 (F :: l)) = Ok s ∧
    match missing size F (foldl Z.max F l) skip (F :: l) with
    | [] => make_nack sender skip ssrc s = Ok []
    | m => ∃ n, make_nack sender skip ssrc s = Ok [n] ∧ tln_MediaSSRC n = ssrc ∧
             nack_seqs (Nacks n) = Ok (map u16 m) ∧ nack_ok n
    end.
Proof. apply log_nack. Qed.

Lemma nack_requests_missing_witness :
  ∃ s, log_add_all (MkReceiveLog (replicate 8 0) 512 0 false 0) (map u16 [65534; 65537; 65535; 65540]) = Ok s ∧
    ∃ n, make_nack 1 0 7 s = Ok [n] ∧ nack_seqs (Nacks n) = Ok [0; 2; 3].
Proof.
  destruct (nack_requests_missing 512 (MkReceiveLog (replicate 8 0) 512 0 false 0) 65534 [65537; 65535; 65540] 0 1 7)
    as (s & Hs & H); [reflexivity | lia | lia | simpl; lia | by split | by split |].
  exists s. split; [exact Hs|]. destruct H as (n & H1 & _ & H2 & _). exists n. split; [exact H1 | exact H2].
Defined.

(** A number that is older than the window sets the bit of another number: after
    0 and 600, the arrival of 80 hides the loss of 592. *)
Lemma stale_number_hides_loss :
  ∃ s l, newReceiveLog 512 = Ok s ∧
    (s1 ← log_add_all s [0; 600]; missingSeqNumbers s1 0) = Ok (seqZ 89 511) ∧
    (s1 ← log_add_all s [0; 600; 80]; missingSeqNumbers s1 0) = Ok l ∧ (592 ∉ l) ∧ length l = 510%nat.
Proof.
  eexists _, _. split; [reflexivity|]. split; [vm_compute; reflexivity|]. split; [vm_compute; reflexivity|].
  split; [|reflexivity]. apply (bool_decide_unpack _). vm_compute. done.
Qed.
