(* ===== verification/Resend.v ===== *)
(** * Negative acknowledgements: what is resent

    The buffer of sent packets is a ring of counted references; it is compared
    with the list of the packets that were sent, by their numbers before the
    wrap-around. *)

From stdpp Require Import gmap.
From S2P Require Import Prelude Bytes Rtp RtcpFeedback Nack NackProps.

(** A packet that only the buffer refers to. *)
Definition kept (hp : pheap) (p : nat) (x : Header * list Z) : Prop :=
  hp !! p = Some (MkRetainable 1 (Some x.1) x.2).

Record sb_wf (st : sendBuffer * pheap) : Prop := {
  sw_size : ∃ e, 0 ≤ e < 16 ∧ sb_size st.1 = 2 ^ e;
  sw_len : length (sb_packets st.1) = Z.to_nat (sb_size st.1);
  sw_kept : ∀ i p, sb_packets st.1 !! i = Some (Some p) → ∃ x, kept st.2 p x;
  sw_inj : ∀ i j p, sb_packets st.1 !! i = Some (Some p) → sb_packets st.1 !! j = Some (Some p) → i = j;
}.

(** What stands at the place of the number [y]. *)
Definition holds (st : sendBuffer * pheap) (y : Z) (o : option (Header * list Z)) : Prop :=
  match sb_packets st.1 !! Z.to_nat (y mod sb_size st.1), o with
  | Some None, None => True
  | Some (Some p), Some x => kept st.2 p x ∧ SequenceNumber x.1 = u16 y
  | _, _ => False
  end.

Lemma sb_size_pos st : sb_wf st → 1 ≤ sb_size st.1 ≤ 2 ^ 15.
Proof.
  intros [(e & He & ->) _ _ _]. split; [apply (Z.pow_le_mono_r 2 0); lia | apply Z.pow_le_mono_r; lia].
Qed.

Lemma slot_spec st y : sb_wf st → u16 y mod sb_size st.1 = y mod sb_size st.1 ∧
  ∃ q, sb_packets st.1 !! Z.to_nat (y mod sb_size st.1) = Some q ∧ slot st.1 (u16 y) = Ok q.
Proof.
  intros Hw. pose proof (sb_size_pos st Hw) as Hz. destruct Hw as [(e & He & Hs) Hl _ _].
  assert (u16 y mod sb_size st.1 = y mod sb_size st.1) as Hm by (by apply (mod_u16 e)).
  split; [done|]. pose proof (Z.mod_pos_bound y (sb_size st.1)).
  destruct (lookup_lt_is_Some_2 (sb_packets st.1) (Z.to_nat (y mod sb_size st.1))) as [q Hq]; [lia|].
  exists q. split; [done|]. unfold slot. by rewrite Hm, Hq.
Qed.

Lemma place_inj size y z : 0 < size → Z.to_nat (y mod size) = Z.to_nat (z mod size) → y mod size = z mod size.
Proof. intros Hs H. pose proof (Z.mod_pos_bound y size). pose proof (Z.mod_pos_bound z size). lia. Qed.

(** [p] is in no slot. *)
Definition unused (st : sendBuffer * pheap) (p : nat) : Prop :=
  ∀ i, sb_packets st.1 !! i ≠ Some (Some p).

Lemma release_kept hp p x : kept hp p x → Release hp p = Ok (<[p := MkRetainable 0 None []]> hp).
Proof. intros H. unfold Release, deref. by rewrite H. Qed.

(** A slot is set: its packet is released, the others stay. *)
Lemma replace_slot_spec st y q : sb_wf st →
  (∀ p, q = Some p → unused st p ∧ ∃ x, kept st.2 p x) →
  ∃ st', replace_slot st (u16 y) q = Ok st' ∧ sb_wf st' ∧ sb_size st'.1 = sb_size st.1 ∧
    lastAdded st'.1 = lastAdded st.1 ∧ sb_started st'.1 = sb_started st.1 ∧
    sb_packets st'.1 !! Z.to_nat (y mod sb_size st.1) = Some q ∧
    (∀ z o, z mod sb_size st.1 ≠ y mod sb_size st.1 → holds st z o → holds st' z o) ∧
    (∀ p, unused st p → st'.2 !! p = st.2 !! p ∧ (q ≠ Some p → unused st' p)).
Proof.
  intros Hw Hq. pose proof (sb_size_pos st Hw) as Hz. destruct (slot_spec st y Hw) as (Hm & q0 & Hq0 & Hs).
  unfold replace_slot. rewrite Hs, bind_Ok. set (k := Z.to_nat (y mod sb_size st.1)) in *.
  set (hp' := match q0 with Some p => <[p := MkRetainable 0 None []]> st.2 | None => st.2 end).
  assert (match q0 with Some p => Release st.2 p | None => Ok st.2 end = Ok hp') as ->.
  { destruct q0 as [p|]; [|done]. destruct (sw_kept st Hw _ _ Hq0) as [x Hx]. by eapply release_kept. }
  rewrite bind_Ok. exists (set_slot st.1 (u16 y) q, hp'). split; [done|].
  assert (sb_packets (set_slot st.1 (u16 y) q) = <[k := q]> (sb_packets st.1)) as Hp by (unfold set_slot; simpl; by rewrite Hm).
  assert (k < length (sb_packets st.1))%nat as Hk by (by eapply lookup_lt_Some).
  assert (∀ p, (∀ i, i ≠ k → sb_packets st.1 !! i = Some (Some p) → hp' !! p = st.2 !! p) ∧
               (unused st p → hp' !! p = st.2 !! p)) as Hkeep.
  { intros p. subst hp'. destruct q0 as [p0|]; [|done]. split.
    - intros i Hi Hpi. rewrite lookup_insert_ne; [done|]. intros ->. apply Hi. by eapply (sw_inj st Hw).
    - intros Hu. rewrite lookup_insert_ne; [done|]. intros ->. by apply (Hu k). }
  split; [|do 3 (split; [done|])].
  - destruct Hw as [Hw1 Hw2 Hw3 Hw4]. split; cbn [fst snd]; rewrite ?Hp; [done | by rewrite length_insert | |].
    + intros i p. destruct (decide (i = k)) as [->|Hi].
      * rewrite list_lookup_insert_eq by done. intros [= ->]. destruct (Hq p eq_refl) as [Hu [x Hx]].
        exists x. unfold kept. by rewrite (proj2 (Hkeep p)).
      * rewrite list_lookup_insert_ne by done. intros Hi'. destruct (Hw3 _ _ Hi') as [x Hx]. exists x. unfold kept.
        by rewrite (proj1 (Hkeep p) i Hi).
    + intros i j p. destruct (decide (i = k)) as [->|Hi], (decide (j = k)) as [->|Hj]; try done;
        rewrite ?list_lookup_insert_eq, ?(list_lookup_insert_ne _ k i), ?(list_lookup_insert_ne _ k j) by done.
      * intros [= ->] Hj'. destruct (Hq p eq_refl) as [Hu _]. by destruct (Hu j).
      * intros Hi' [= ->]. destruct (Hq p eq_refl) as [Hu _]. by destruct (Hu i).
      * by apply Hw4.
  - simpl fst. rewrite Hp. split; [by apply list_lookup_insert_eq|]. split.
    + intros z o Hne. unfold holds. simpl fst. rewrite Hp. simpl sb_size.
      assert (Z.to_nat (z mod sb_size st.1) ≠ k) as Hzk by (intros He; apply Hne; apply place_inj; [lia | done]).
      rewrite list_lookup_insert_ne by done.
      destruct (sb_packets st.1 !! Z.to_nat (z mod sb_size st.1)) as [[p|]|] eqn:Hzl; [|done..].
      destruct o as [x|]; [|done]. intros [H1 H2]. split; [|done]. unfold kept. simpl.
      by rewrite (proj1 (Hkeep p) _ Hzk Hzl).
    + intros p Hu. split; [by apply Hkeep|]. intros Hqp i. simpl fst. rewrite Hp.
      destruct (decide (i = k)) as [->|Hi]; [rewrite list_lookup_insert_eq by done; congruence|].
      rewrite list_lookup_insert_ne by done. apply Hu.
Qed.

(** ** Sending *)

(** The packets that were sent with the numbers before the wrap-around, the
    last one first. *)
Abbreviation sent := (list (Z * (Header * list Z))).

Fixpoint sent_at (l : sent) (y : Z) : option (Header * list Z) :=
  match l with
  | [] => None
  | (z, x) :: l => if decide (z = y) then Some x else sent_at l y
  end.

Record sb_rel (st : sendBuffer * pheap) (size E : Z) (l : sent) : Prop := {
  sr_wf : sb_wf st;
  sr_size : sb_size st.1 = size;
  sr_started : sb_started st.1 = true;
  sr_last : lastAdded st.1 = u16 E;
  sr_holds : ∀ y, E - size < y ≤ E → holds st y (sent_at l y);
  sr_max : ∀ y, E < y → sent_at l y = None;
}.

Lemma alloc_packet st p r : sb_wf st → p ∉ dom st.2 →
  sb_wf (st.1, <[p := r]> st.2) ∧ unused (st.1, <[p := r]> st.2) p ∧
  ∀ y o, holds st y o → holds (st.1, <[p := r]> st.2) y o.
Proof.
  intros [H1 H2 H3 H4] Hp.
  assert (∀ q x, kept st.2 q x → kept (<[p := r]> st.2) q x) as Hk.
  { intros q x Hq. unfold kept. rewrite lookup_insert_ne; [done|]. intros ->. apply Hp. by eapply elem_of_dom_2. }
  split; [|split].
  - split; simpl; try done. intros i q Hi. destruct (H3 i q Hi) as [x Hx]. eauto.
  - intros i Hi. simpl in Hi. destruct (H3 i p Hi) as [x Hx]. apply Hp. by eapply elem_of_dom_2.
  - intros y o. unfold holds. simpl. repeat case_match; try done. intros [? ?]. auto.
Qed.

Lemma set_lastAdded_wf st seq : sb_wf st → sb_wf (set_lastAdded st.1 seq, st.2).
Proof. intros []. by split. Qed.

(** The slots between the last number and the new one are emptied. *)
Lemma sb_clear st size E l x p r : sb_wf st → sb_size st.1 = size → lastAdded st.1 = u16 E → 
  sb_started st.1 = true → (∀ y, E - size < y ≤ E → holds st y (sent_at l y)) → (∀ y, E < y → sent_at l y = None) →
  unused st p → st.2 !! p = Some r → E < x < E + 2 ^ 15 →
  ∃ st', for_u16 loop_fuel (u16 (E + 1)) (u16 x) (λ i st, replace_slot st i None) st = Ok st' ∧
    sb_wf st' ∧ sb_size st'.1 = size ∧ lastAdded st'.1 = u16 E ∧ sb_started st'.1 = true ∧
    unused st' p ∧ st'.2 !! p = Some r ∧ (∀ y, x - 1 - size < y ≤ x - 1 → holds st' y (sent_at l y)).
Proof.
  intros Hw Hz Hl Hs Hh Hm Hu Hp Hx. pose proof (sb_size_pos st Hw) as Hsz. rewrite Hz in Hsz.
  destruct (for_u16_inv (λ i st', sb_wf st' ∧ sb_size st'.1 = size ∧ lastAdded st'.1 = u16 E ∧
    sb_started st'.1 = true ∧ unused st' p ∧ st'.2 !! p = Some r ∧
    (∀ y, i - 1 - size < y ≤ i - 1 → holds st' y (sent_at l y)))
    (λ i st, replace_slot st i None) loop_fuel (E + 1) x st) as (st' & H1 & H2);
    [lia | lia | unfold loop_fuel; lia | | |by eauto].
  - do 6 (split; [done|]). intros y Hy. apply Hh. lia.
  - intros i s Hi (Iw & Iz & Il & Is & Iu & Ip & Ih).
    destruct (replace_slot_spec s i None Iw) as (s' & -> & Jw & Jz & Jl & Js & Jslot & Jh & Ju); [done|].
    exists s'. split; [done|]. destruct (Ju p Iu) as [Ju1 Ju2].
    split; [done|]. split; [congruence|]. split; [congruence|]. split; [congruence|]. split; [by apply Ju2|].
    split; [congruence|]. intros y Hy. destruct (decide (y = i)) as [->|Hne].
    + rewrite Hm by lia. unfold holds. by rewrite Jz, Jslot.
    + apply Jh; [|apply Ih; lia]. rewrite Iz. intros He. apply Hne. apply (same_slot size); [lia.. | done].
Qed.

Lemma sb_write_rel st size E l x h pl : sb_rel st size E l → E < x < E + 2 ^ 15 →
  SequenceNumber h = u16 x → (length pl <= 1460)%nat →
  ∃ st', local_write st h pl = Ok (st', (h, pl)) ∧ sb_rel st' size x ((x, (h, pl)) :: l).
Proof.
  intros [Hw Hz Hs Hl Hh Hm] Hx Hseq Hpl. pose proof (sb_size_pos st Hw) as Hsz. rewrite Hz in Hsz.
  unfold local_write, NewPacket. rewrite fail_if_false by (by apply Nat.ltb_ge). rewrite !bind_Ok. cbn [fst snd].
  set (p := fresh (dom st.2)). set (r := MkRetainable 1 (Some h) pl).
  destruct (alloc_packet st p r Hw) as (Aw & Au & Ah); [apply is_fresh|].
  set (s0 := (st.1, <[p := r]> st.2)) in *.
  assert (s0.2 !! p = Some r) as Hp by (simpl; apply lookup_insert_eq).
  unfold sb_add, packet_seq, deref. rewrite Hp, bind_Ok. cbn [rp_header r]. rewrite bind_Ok, Hseq.
  cbn [fst s0]. rewrite Hs, Hl, u16_sub_u16, u16_add_l, (u16_id (x - E)) by lia. cbn [negb]. unfold uint16SizeHalf.
  rewrite (proj2 (Z.eqb_neq _ _)), (proj2 (Z.ltb_lt _ _)) by lia. fold s0.
  destruct (sb_clear s0 size E l x p r) as (s1 & -> & Bw & Bz & Bl & Bs & Bu & Bp & Bh); try done.
  { intros y Hy. apply Ah, Hh, Hy. }
  rewrite bind_Ok.
  destruct (replace_slot_spec s1 x (Some p) Bw) as (s2 & -> & Cw & Cz & Cl & Cs & Cslot & Ch & Cu).
  { intros q [= <-]. split; [done|]. by exists (h, pl). }
  rewrite !bind_Ok. eexists. split; [done|]. split; simpl; try done.
  - by apply set_lastAdded_wf.
  - congruence.
  - intros y Hy. change (holds s2 y (sent_at ((x, (h, pl)) :: l) y)). cbn [sent_at].
    destruct (decide (x = y)) as [<-|Hne].
    + unfold holds. rewrite Cz, Cslot. unfold kept. destruct (Cu p Bu) as [-> _]. done.
    + apply Ch; [|apply Bh; lia]. rewrite Bz. intros He. apply Hne. symmetry. apply (same_slot size); [lia.. | done].
  - intros y Hy. rewrite decide_False by lia. apply Hm. lia.
Qed.

Lemma sb_first size sb hp x h pl : newSendBuffer size = Ok sb → SequenceNumber h = u16 x → (length pl <= 1460)%nat →
  ∃ st', local_write (sb, hp) h pl = Ok (st', (h, pl)) ∧ sb_rel st' size x [(x, (h, pl))].
Proof.
  intros Hsb Hseq Hpl. unfold newSendBuffer in Hsb. destruct (allowed_size 0 16 size) eqn:Ha; [|done].
  simpl in Hsb. injection Hsb as <-. destruct (allowed_size_pow 0 16 size ltac:(lia) Ha) as (e & He & Hz).
  set (sb := MkSendBuffer (replicate (Z.to_nat size) None) size 0 false).
  assert (sb_wf (sb, hp)) as Hw.
  { split; simpl; [eauto | by rewrite length_replicate | |].
    - intros i p [[=] _]%lookup_replicate.
    - intros i j p [[=] _]%lookup_replicate. }
  unfold local_write, NewPacket. rewrite fail_if_false by (by apply Nat.ltb_ge). rewrite !bind_Ok. cbn [fst snd].
  set (p := fresh (dom hp)). set (r := MkRetainable 1 (Some h) pl).
  destruct (alloc_packet (sb, hp) p r Hw) as (Aw & Au & Ah); [apply is_fresh|]. cbn [fst snd] in *.
  destruct (replace_slot_spec _ x (Some p) Aw) as (s2 & Hs2 & Cw & Cz & Cl & Cs & Cslot & Ch & Cu).
  { intros q [= <-]. split; [done|]. exists (h, pl). apply lookup_insert_eq. }
  destruct (slot_spec _ x Aw) as (Hm & q & Hq & Hslot). cbn [fst] in *.
  assert (q = None) as -> by (by apply lookup_replicate in Hq as [? _]).
  unfold replace_slot in Hs2. cbn [fst snd] in *. rewrite Hslot, !bind_Ok in Hs2. injection Hs2 as <-.
  unfold sb_add, packet_seq, deref. cbn [fst snd]. rewrite lookup_insert_eq, !bind_Ok. cbn [rp_header r].
  rewrite bind_Ok, Hseq. cbn [negb sb_started sb]. rewrite Hslot, !bind_Ok. eexists. split; [done|].
  pose proof (sb_size_pos _ Aw) as Hsz. cbn [fst sb_size sb] in Hsz.
  split; try done.
  - exact (set_lastAdded_wf _ (u16 x) Cw).
  - intros y Hy. cbn [sent_at]. change (sb_size sb) with size in *.
    destruct (decide (x = y)) as [<-|Hne].
    + unfold holds. cbn [fst snd set_lastAdded sb_packets sb_size set_slot sb] in *. rewrite Cslot.
      split; [apply lookup_insert_eq | done].
    + change (holds (set_slot sb (u16 x) (Some p), <[p := r]> hp) y None).
      apply Ch; [intros Hr; apply Hne; symmetry; apply (same_slot size); [lia.. | done]|].
      apply Ah. unfold holds. cbn [fst sb sb_packets sb_size].
      rewrite lookup_replicate_2; [done|].
      pose proof (Z.mod_pos_bound y size). lia.
  - intros y Hy. cbn [sent_at]. by rewrite decide_False by lia.
Qed.

(** ** Resending *)

Lemma resend_one_rel st size E l y : sb_rel st size E l → - 2 ^ 15 ≤ E - y < 2 ^ 15 →
  resend_one st (u16 y) =
  Ok (st, match sent_at l y with
          | Some x => if decide (E - size < y) then [x] else []
          | None => []
          end).
Proof.
  intros [Hw Hz Hs Hl Hh Hm] Hy. pose proof (sb_size_pos st Hw) as Hsz. rewrite Hz in Hsz.
  unfold resend_one, sb_get, uint16SizeHalf. rewrite Hl, Hz, u16_sub_u16.
  destruct (Z.lt_ge_cases E y) as [Hlt|Hge].
  { replace (E - y) with (- (y - E)) by lia. rewrite u16_back by lia. rewrite (proj2 (Z.leb_le _ _)) by lia.
    rewrite bind_Ok, Hm by done. by destruct st. }
  rewrite u16_id, (proj2 (Z.leb_gt (2 ^ 15) _)) by lia.
  destruct (Z.leb_spec size (E - y)) as [Ho|Ho].
  { rewrite bind_Ok. destruct st, (sent_at l y); [|done]. by rewrite decide_False by lia. }
  destruct (slot_spec st y Hw) as (_ & q & Hq & ->). rewrite bind_Ok.
  specialize (Hh y ltac:(lia)). unfold holds in Hh. rewrite Hq in Hh.
  destruct q as [p|], (sent_at l y) as [[h pl]|]; try done; [|by rewrite bind_Ok; destruct st].
  rewrite decide_True by lia. destruct Hh as [Hk Hn]. unfold kept in Hk. cbn [fst snd] in *.
  unfold packet_seq, Retain, Release, deref. rewrite Hk, !bind_Ok. cbn [rp_header rp_count rp_payload].
  rewrite bind_Ok, Hn, Z.eqb_refl. cbn [negb fail_if Z.eqb]. rewrite !bind_Ok. cbn [fst snd].
  rewrite !lookup_insert_eq, !bind_Ok. cbn [rp_header rp_count rp_payload]. simpl (1 + 1 - 1).
  rewrite insert_insert_eq. simpl. rewrite insert_id by done. by destruct st.
Qed.

(** What the ring still has of the numbers asked for. *)
Definition resent (size E : Z) (l : sent) (ys : list Z) : list (Header * list Z) :=
  flat_map (λ y, match sent_at l y with
                 | Some x => if decide (E - size < y) then [x] else []
                 | None => []
                 end) ys.

Lemma resend_seqs_rel st size E l ys : sb_rel st size E l → Forall (λ y, - 2 ^ 15 ≤ E - y < 2 ^ 15) ys →
  resend_seqs st (map u16 ys) = Ok (st, resent size E l ys).
Proof.
  intros HR. induction 1 as [|y ys Hy _ IH]; [done|]. cbn [map resend_seqs].
  rewrite (resend_one_rel st size E l y HR Hy), bind_Ok. cbn [fst snd]. by rewrite IH, bind_Ok.
Qed.

(** The packets are written in the order of their numbers. *)
Fixpoint in_order (E : Z) (ps : sent) : Prop :=
  match ps with
  | [] => True
  | (x, (h, pl)) :: ps =>
      E < x < E + 2 ^ 15 ∧ SequenceNumber h = u16 x ∧ (length pl <= 1460)%nat ∧ in_order x ps
  end.

Fixpoint write_all (st : sendBuffer * pheap) (ps : list (Header * list Z))
    : nres ((sendBuffer * pheap) * list (Header * list Z)) :=
  match ps with
  | [] => Ok (st, [])
  | (h, pl) :: ps =>
      r ← local_write st h pl;
      r' ← write_all r.1 ps;
      Ok (r'.1, r.2 :: r'.2)
  end.

(** The last of the numbers. *)
Definition last_number (E : Z) (ps : sent) : Z := foldl (λ _ p, p.1) E ps.

Lemma write_all_rel ps : ∀ st size E l, sb_rel st size E l → in_order E ps →
  ∃ st', write_all st (map snd ps) = Ok (st', map snd ps) ∧
    sb_rel st' size (last_number E ps) (rev ps ++ l).
Proof.
  induction ps as [|[x [h pl]] ps IH]; intros st size E l HR Ho; cbn [map write_all snd]; [by eauto|].
  destruct Ho as (Hx & Hseq & Hpl & Ho).
  destruct (sb_write_rel st size E l x h pl HR Hx Hseq Hpl) as (s1 & -> & HR1). rewrite bind_Ok. cbn [fst snd].
  destruct (IH _ _ _ _ HR1 Ho) as (s2 & -> & HR2). rewrite bind_Ok. exists s2. split; [done|].
  simpl. by rewrite <- app_assoc.
Qed.

(** The ring after the packets were written, and the answer to a NACK. *)
Lemma write_resend size sb hp x h pl ps ys :
  newSendBuffer size = Ok sb → SequenceNumber h = u16 x → (length pl <= 1460)%nat → in_order x ps →
  Forall (λ y, - 2 ^ 15 ≤ last_number x ps - y < 2 ^ 15) ys →
  ∃ st, write_all (sb, hp) ((h, pl) :: map snd ps) = Ok (st, (h, pl) :: map snd ps) ∧
    resend_seqs st (map u16 ys) = Ok (st, resent size (last_number x ps) (rev ps ++ [(x, (h, pl))]) ys).
Proof.
  intros Hsb Hseq Hpl Ho Hys. destruct (sb_first size sb hp x h pl Hsb Hseq Hpl) as (s1 & Hs1 & HR1).
  destruct (write_all_rel ps _ _ _ _ HR1 Ho) as (st & Hst & HR). exists st. split.
  - cbn [write_all]. rewrite Hs1, bind_Ok. cbn [fst snd]. by rewrite Hst.
  - exact (resend_seqs_rel st size _ _ ys HR Hys).
Qed.

(** C19. A NACK is answered with exactly the packets it asks for, as long as the
    ring still has them.  After any number of packets of at most 1460 bytes
    written in the order of their numbers (with gaps below 2^15, and with
    wrap-around any number of times), each handed on unchanged to the next
    writer, a NACK for numbers within 2^15 of the last one makes the responder
    write, in the order of the NACK, the packets it lists that are among the last
    [size] numbers, with the header and the payload they were sent with, and
    nothing else; the references it takes are given back. *)
Theorem resend_exact size sb hp x h pl ps p streams buffers n ys :
  newSendBuffer size = Ok sb → SequenceNumber h = u16 x → (length pl <= 1460)%nat → in_order x ps →
  streams !! tln_MediaSSRC n = Some (MkLocalStream p) → (p < length buffers)%nat → nack_seqs (Nacks n) = Ok (map u16 ys) →
  Forall (λ y, - 2 ^ 15 ≤ last_number x ps - y < 2 ^ 15) ys →
  ∃ st, write_all (sb, hp) ((h, pl) :: map snd ps) = Ok (st, (h, pl) :: map snd ps) ∧
    let responder := MkResponder size streams (<[p := st.1]> buffers) st.2 in
    resendPackets responder n = Ok (responder, resent size (last_number x ps) (rev ps ++ [(x, (h, pl))]) ys).
Proof.
  intros Hsb Hseq Hpl Ho Hp Hlt Hn Hys. destruct (write_resend size sb hp x h pl ps ys Hsb Hseq Hpl Ho Hys) as (st & Hst & Hr).
  exists st. split; [done|]. cbn. unfold resendPackets, object. cbn [ri_streams ri_buffers ri_heap ri_size]. rewrite Hp, Hn, bind_Ok.
  cbn [ls_sendBuffer]. rewrite list_lookup_insert_eq, bind_Ok by done. replace (st.1, st.2) with st by (by destruct st).
  rewrite Hr, bind_Ok. cbn [fst snd]. by rewrite list_insert_insert_eq.
Qed.

(** A header with a sequence number. *)
Definition numbered (seq : Z) : Header := MkHeader 2 false false false 96 seq 0 7 [] 0 [].

Lemma resend_exact_witness :
  ∃ st n', write_all (MkSendBuffer (replicate 4 None) 4 0 false, ∅)
             [(numbered 65534, [1]); (numbered 65535, [2]); (numbered 1, [3]); (numbered 2, [4])] = Ok (st,
             [(numbered 65534, [1]); (numbered 65535, [2]); (numbered 1, [3]); (numbered 2, [4])]) ∧
    resendPackets (MkResponder 4 {[7 := MkLocalStream 0]} [st.1] st.2)
      (MkNack 1 7 [MkNackPair 65534 7]) = Ok (n', [(numbered 65535, [2]); (numbered 1, [3])]).
Proof.
  destruct (resend_exact 4 (MkSendBuffer (replicate 4 None) 4 0 false) ∅ 65534 (numbered 65534) [1]
    [(65535, (numbered 65535, [2])); (65537, (numbered 1, [3])); (65538, (numbered 2, [4]))] 0
    {[7 := MkLocalStream 0]} [MkSendBuffer [] 0 0 false]
    (MkNack 1 7 [MkNackPair 65534 7]) [65534; 65535; 65536; 65537]) as (st & Hw & Hr);
    [reflexivity | reflexivity | simpl; lia | | reflexivity | simpl; lia | reflexivity | |].
  - repeat split; simpl; lia.
  - repeat constructor; simpl; lia.
  - exists st. eexists. split; [exact Hw|]. exact Hr.
Defined.

(** A packet that is written late, with a number below the last one, takes
    the newer packets out of the buffer: after 10, 11, 12 the packet 12 is resent
    when it is asked for, also when 13 was written; if 9 is written before 13, it
    is not.  (Packets that a publisher sends again, as the server's own NACKs ask
    for, are written this way.) *)
Theorem late_packet_empties_buffer :
  ∃ st st' w w',
    write_all (MkSendBuffer (replicate 1024 None) 1024 0 false, ∅)
      (map (λ n, (numbered n, [n])) [10; 11; 12; 13]) = Ok (st, w) ∧
    write_all (MkSendBuffer (replicate 1024 None) 1024 0 false, ∅)
      (map (λ n, (numbered n, [n])) [10; 11; 12; 9; 13]) = Ok (st', w') ∧
    resend_one st 12 = Ok (st, [(numbered 12, [12])]) ∧
    resend_one st' 12 = Ok (st', []) ∧ resend_one st' 13 = Ok (st', [(numbered 13, [13])]).
Proof.
  eexists _, _, _, _. split; [vm_compute; reflexivity|]. split; [vm_compute; reflexivity|].
  split; [vm_compute; reflexivity|]. split; vm_compute; reflexivity.
Qed.
