(* ===== verification/Report.v ===== *)
(** * Sender and receiver reports

    pkg/report of pion/interceptor and internal/ntp, run by every peer
    connection of the server: what is kept of each stream that is sent or
    received, the packets and sender reports that update it, and the reports
    that are written every second.  The bits of the received packets are those
    of the receive log of pkg/nack, whose functions setReceived, delReceived and
    getReceived have the same bodies. *)

From S2P Require Import Prelude GoLib Bytes Float64 Rtp Rtcp RtcpPacket Nack.

(** ** receiverStream *)

(** [lastSenderReportTime] is [None] for the zero time. *)
Record receiverStream := MkReceiverStream {
  rs_ssrc : Z;
  receiverSSRC : Z;
  rs_clockRate : float64;
  rs_size : Z;
  rs_packets : list Z;
  rs_started : bool;
  seqnumCycles : Z;
  lastSeqnum : Z;
  lastReportSeqnum : Z;
  rs_lastRTPTimeRTP : Z;
  rs_lastRTPTimeTime : Z;
  rs_jitter : float64;
  lastSenderReport : Z;
  lastSenderReportTime : option Z;
  totalLost : Z;
}.

(** [random] is the value of rand.Uint32(). *)
Definition newReceiverStream (random ssrc clockRate : Z) : receiverStream :=
  MkReceiverStream ssrc random (f64_of_Z clockRate) 128 (replicate 128 0) false 0 0 0 0 0 f64_zero 0 None 0.

(** The bits, as a receive log. *)
Definition stream_log (s : receiverStream) : receiveLog := MkReceiveLog (rs_packets s) (rs_size s) 0 false 0.

Definition set_packets (s : receiverStream) (l : list Z) : receiverStream :=
  MkReceiverStream (rs_ssrc s) (receiverSSRC s) (rs_clockRate s) (rs_size s) l (rs_started s) (seqnumCycles s)
    (lastSeqnum s) (lastReportSeqnum s) (rs_lastRTPTimeRTP s) (rs_lastRTPTimeTime s) (rs_jitter s) (lastSenderReport s)
    (lastSenderReportTime s) (totalLost s).

Definition stream_setReceived (s : receiverStream) (seq : Z) : nres receiverStream :=
  l ← setReceived (stream_log s) seq;
  Ok (set_packets s (rl_packets l)).

Definition stream_delReceived (s : receiverStream) (seq : Z) : nres receiverStream :=
  l ← delReceived (stream_log s) seq;
  Ok (set_packets s (rl_packets l)).

Definition stream_getReceived (s : receiverStream) (seq : Z) : nres bool := getReceived (stream_log s) seq.

(** The first packet: [started], and the last numbers and times. *)
Definition start_stream (s : receiverStream) (now seq timestamp : Z) : receiverStream :=
  MkReceiverStream (rs_ssrc s) (receiverSSRC s) (rs_clockRate s) (rs_size s) (rs_packets s) true (seqnumCycles s)
    seq (u16 (seq - 1)) timestamp now (rs_jitter s) (lastSenderReport s) (lastSenderReportTime s) (totalLost s).

Definition set_last (s : receiverStream) (cycles seq : Z) : receiverStream :=
  MkReceiverStream (rs_ssrc s) (receiverSSRC s) (rs_clockRate s) (rs_size s) (rs_packets s) (rs_started s) cycles
    seq (lastReportSeqnum s) (rs_lastRTPTimeRTP s) (rs_lastRTPTimeTime s) (rs_jitter s) (lastSenderReport s)
    (lastSenderReportTime s) (totalLost s).

(** The jitter of RFC 3550, with the times of the packet. *)
Definition update_jitter (s : receiverStream) (now timestamp : Z) : receiverStream :=
  let D := f64_sub (f64_mul (Seconds (time_Sub now (rs_lastRTPTimeTime s))) (rs_clockRate s))
             (f64_sub (f64_of_Z timestamp) (f64_of_Z (rs_lastRTPTimeRTP s))) in
  let D := if f64_ltb D f64_zero then f64_opp D else D in
  let jitter := f64_add (rs_jitter s) (f64_div (f64_sub D (rs_jitter s)) (f64_of_Z 16)) in
  MkReceiverStream (rs_ssrc s) (receiverSSRC s) (rs_clockRate s) (rs_size s) (rs_packets s) (rs_started s)
    (seqnumCycles s) (lastSeqnum s) (lastReportSeqnum s) timestamp now jitter (lastSenderReport s)
    (lastSenderReportTime s) (totalLost s).

(** The differences of two uint16 fit an int32. *)
Definition receiver_processRTP (s : receiverStream) (now : Z) (h : Rtp.Header) : nres receiverStream :=
  let seq := Rtp.SequenceNumber h in
  if negb (rs_started s) then
    s ← stream_setReceived s seq;
    Ok (start_stream s now seq (Rtp.Timestamp h))
  else
    s ← stream_setReceived s seq;
    let diff := seq - lastSeqnum s in
    s ← (if (0 <? diff) || (diff <? -0x0FFF) then
           let cycles := if diff <? -0x0FFF then u16 (seqnumCycles s + 1) else seqnumCycles s in
           s ← for_u16 loop_fuel (u16 (lastSeqnum s + 1)) seq (λ i s, stream_delReceived s i) s;
           Ok (set_last s cycles seq)
         else Ok s);
    Ok (update_jitter s now (Rtp.Timestamp h)).

Definition processSenderReport (s : receiverStream) (now : Z) (sr : SenderReport) : receiverStream :=
  MkReceiverStream (rs_ssrc s) (receiverSSRC s) (rs_clockRate s) (rs_size s) (rs_packets s) (rs_started s)
    (seqnumCycles s) (lastSeqnum s) (lastReportSeqnum s) (rs_lastRTPTimeRTP s) (rs_lastRTPTimeTime s) (rs_jitter s)
    (u32 (Z.shiftr (NTPTime sr) 16)) (Some now) (totalLost s).

(** The anonymous function that counts the packets lost since the last
    report. *)
Definition lost_since_report (s : receiverStream) : nres Z :=
  if lastSeqnum s =? lastReportSeqnum s then Ok 0
  else
    for_u16 loop_fuel (u16 (lastReportSeqnum s + 1)) (lastSeqnum s)
      (λ i ret, r ← stream_getReceived s i; Ok (if (r : bool) then ret else u32 (ret + 1))) 0.

(** [stream.lastReportSeqnum = stream.lastSeqnum] and the new total *)
Definition set_reported (s : receiverStream) (total : Z) : receiverStream :=
  MkReceiverStream (rs_ssrc s) (receiverSSRC s) (rs_clockRate s) (rs_size s) (rs_packets s) (rs_started s)
    (seqnumCycles s) (lastSeqnum s) (lastSeqnum s) (rs_lastRTPTimeRTP s) (rs_lastRTPTimeTime s) (rs_jitter s)
    (lastSenderReport s) (lastSenderReportTime s) total.

Section reports.
Context `{FloatConversion}.

(** uint8(float64(totalLostSinceReport*256) / float64(totalSinceReport)) *)
Definition fraction_lost (lost total : Z) : Z :=
  f64_to_uint 8 (f64_div (f64_of_Z (u32 (lost * 256))) (f64_of_Z total)).

(** The function of the field Delay. *)
Definition report_delay (s : receiverStream) (now : Z) : Z :=
  match lastSenderReportTime s with
  | None => 0
  | Some t => f64_to_uint 32 (f64_mul (Seconds (time_Sub now t)) (f64_of_Z 65536))
  end.

Definition receiver_generateReport (s : receiverStream) (now : Z) : nres (receiverStream * ReceiverReport) :=
  let totalSinceReport := u16 (lastSeqnum s - lastReportSeqnum s) in
  lost ← lost_since_report s;
  let total := u32 (totalLost s + lost) in
  let lost := if 0xFFFFFF <? lost then 0xFFFFFF else lost in
  let total := if 0xFFFFFF <? total then 0xFFFFFF else total in
  let report := MkReceptionReport (rs_ssrc s) (fraction_lost lost totalSinceReport) total
    (Z.lor (u32 (Z.shiftl (seqnumCycles s) 16)) (lastSeqnum s)) (f64_to_uint 32 (rs_jitter s))
    (lastSenderReport s) (report_delay s now) in
  Ok (set_reported s total, MkReceiverReport (receiverSSRC s) [report] []).

(** ** senderStream *)

Record senderStream := MkSenderStream {
  ss_ssrc : Z;
  ss_clockRate : float64;
  ss_lastRTPTimeRTP : Z;
  ss_lastRTPTimeTime : Z;
  ss_packetCount : Z;
  ss_octetCount : Z;
}.

(** The zero time is year 1, far outside of what a duration can reach: its
    distance to any present time is the largest duration. *)
Definition zero_time : Z := -62135596800 * 1000000000.

Definition newSenderStream (ssrc clockRate : Z) : senderStream :=
  MkSenderStream ssrc (f64_of_Z clockRate) 0 zero_time 0 0.

Definition sender_processRTP (s : senderStream) (now : Z) (h : Rtp.Header) (payload : list Z) : senderStream :=
  MkSenderStream (ss_ssrc s) (ss_clockRate s) (Rtp.Timestamp h) now (u32 (ss_packetCount s + 1))
    (u32 (ss_octetCount s + u32 (Z.of_nat (length payload)))).

(** func ToNTP(t time.Time) uint64: UnixNano wraps around at 64 bits. *)
Definition ToNTP (t : Z) : Z :=
  let s := f64_add (f64_div (f64_of_Z (to_int64 t)) (f64_of_Z 1000000000)) (f64_of_Z 2208988800) in
  let integerPart := f64_to_uint 32 s in
  let fractionalPart := f64_to_uint 32 (f64_mul (f64_sub s (f64_of_Z integerPart)) (f64_of_Z 0xFFFFFFFF)) in
  Z.lor (Z.shiftl integerPart 32) fractionalPart.

Definition sender_generateReport (s : senderStream) (now : Z) : SenderReport :=
  MkSenderReport (ss_ssrc s) (ToNTP now)
    (u32 (ss_lastRTPTimeRTP s + f64_to_uint 32 (f64_mul (Seconds (time_Sub now (ss_lastRTPTimeTime s))) (ss_clockRate s))))
    (ss_packetCount s) (ss_octetCount s) [] [].
End reports.
