(* ===== verification/ReportProps.v ===== *)
(** * Sender and receiver reports: properties

    A receiver stream implements the account of the numbers that arrived: its
    reports tell the highest number, how many of the numbers since the last
    report are missing, and how many are missing in all. *)

From S2P Require Import Prelude GoLib Bytes Float64 Rtp Rtcp RtcpPacket RtcpCodec Nack NackProps Report.

(** ** The bits *)

(** The stream [s] after a change of its bits. *)
Definition same_bits (s s' : receiverStream) : Prop := s' = set_packets s (rs_packets s').

Definition stream_has (s : receiverStream) (y : Z) : bool := has (stream_log s) y.

Lemma stream_set s y : log_wf (stream_log s) → rs_size s = 128 → ∃ s', stream_setReceived s (u16 y) = Ok s' ∧
  same_bits s s' ∧ log_wf (stream_log s') ∧ ∀ z, stream_has s' z = bool_decide (y mod 128 = z mod 128) || stream_has s z.
Proof.
  intros Hw Hs. destruct (setReceived_has (stream_log s) y Hw) as (l & E & Hl & (H1 & _) & Hh).
  unfold stream_setReceived. rewrite E, bind_Ok. eexists. split; [done|]. split; [done|]. split.
  - destruct Hl as [Ha Hb]. rewrite H1 in *. by split.
  - intros z. specialize (Hh z). simpl in Hh. rewrite Hs in Hh. unfold stream_has. rewrite <- Hh. unfold has. simpl. by rewrite H1.
Qed.

Lemma stream_del s y : log_wf (stream_log s) → rs_size s = 128 → ∃ s', stream_delReceived s (u16 y) = Ok s' ∧
  same_bits s s' ∧ log_wf (stream_log s') ∧ ∀ z, stream_has s' z = negb (bool_decide (y mod 128 = z mod 128)) && stream_has s z.
Proof.
  intros Hw Hs. destruct (delReceived_has (stream_log s) y Hw) as (l & E & Hl & (H1 & _) & Hh).
  unfold stream_delReceived. rewrite E, bind_Ok. eexists. split; [done|]. split; [done|]. split.
  - destruct Hl as [Ha Hb]. rewrite H1 in *. by split.
  - intros z. specialize (Hh z). simpl in Hh. rewrite Hs in Hh. unfold stream_has. rewrite <- Hh. unfold has. simpl. by rewrite H1.
Qed.

(** ** The account *)

(** The numbers are counted on past 2^16: the highest one that arrived, the
    highest one at the last report, those that arrived and how many were
    missing in the reports so far. *)
Record account := MkAccount {
  ac_highest : Z;
  ac_reported : Z;
  ac_arrived : list Z;
  ac_lost : Z;
}.

(** The numbers between the last report and the highest one that did not
    arrive. *)
Definition missing_since (a : account) : list Z :=
  filter (λ y, y ∉ ac_arrived a) (seqZ (ac_reported a + 1) (ac_highest a - ac_reported a - 1)).

Definition arrive (a : account) (x : Z) : account :=
  MkAccount (Z.max (ac_highest a) x) (ac_reported a) (x :: ac_arrived a) (ac_lost a).

(** The count of what is lost stays at the largest number of 24 bits. *)
Definition after_report (a : account) : account :=
  MkAccount (ac_highest a) (ac_highest a) (ac_arrived a)
    (Z.min 0xFFFFFF (ac_lost a + Z.of_nat (length (missing_since a)))).

(** The number can be told from the ones of other cycles, and is within the
    window. *)
Definition in_step (a : account) (x : Z) : bool :=
  (0 <=? x) && (ac_highest a - 128 <? x) && (x <=? ac_highest a + 128) && (ac_highest a / 2 ^ 16 <=? x / 2 ^ 16).

(** ** Refinement *)

Record stream_rel (s : receiverStream) (a : account) : Prop := {
  sr_wf : log_wf (stream_log s);
  sr_size : rs_size s = 128;
  sr_started : rs_started s = true;
  sr_last : lastSeqnum s = u16 (ac_highest a);
  sr_cycles : seqnumCycles s = u16 (ac_highest a / 2 ^ 16);
  sr_reported : lastReportSeqnum s = u16 (ac_reported a);
  sr_bits : ∀ y, ac_highest a - 128 < y ≤ ac_highest a → stream_has s y = bool_decide (y ∈ ac_arrived a);
  sr_max : ∀ y, y ∈ ac_arrived a → y ≤ ac_highest a;
  sr_lost : totalLost s = ac_lost a;
  sr_range : 0 ≤ ac_lost a ≤ 0xFFFFFF ∧ ac_reported a ≤ ac_highest a;
}.

(** Clearing the numbers that were jumped over. *)
Lemma clear_between s e x : log_wf (stream_log s) → rs_size s = 128 → e < x ≤ e + 128 → ∃ s',
  for_u16 loop_fuel (u16 (e + 1)) (u16 x) (λ i s, stream_delReceived s i) s = Ok s' ∧ same_bits s s' ∧ log_wf (stream_log s') ∧
  ∀ z, x - 128 < z ≤ x → stream_has s' z = negb (bool_decide (e < z < x)) && stream_has s z.
Proof.
  intros Hw Hs Hx.
  destruct (for_u16_inv (λ i s', same_bits s s' ∧ log_wf (stream_log s') ∧
    ∀ z, x - 128 < z ≤ x → stream_has s' z = negb (bool_decide (e < z < i)) && stream_has s z)
    (λ i s, stream_delReceived s i) loop_fuel (e + 1) x s) as (s' & E & H); [lia | lia | unfold loop_fuel; lia | | |].
  - split; [by destruct s|]. split; [done|]. intros z _. rewrite bool_decide_false by lia. done.
  - intros i s1 Hi (Hb & Hw1 & Hh). assert (rs_size s1 = 128) as Hs1 by (rewrite Hb; done).
    destruct (stream_del s1 i Hw1 Hs1) as (s2 & E2 & Hb2 & Hw2 & Hh2). exists s2. split; [done|].
    split; [rewrite Hb2, Hb; done|]. split; [done|]. intros z Hz. rewrite Hh2, Hh by done.
    destruct (decide (z = i)) as [->|Hne].
    + rewrite (bool_decide_true (i mod 128 = i mod 128)), (bool_decide_true (e < i < i + 1)) by lia. done.
    + rewrite (bool_decide_false (i mod 128 = z mod 128)) by (intros He; apply Hne; symmetry; apply (same_slot 128); lia).
      cbn [negb andb]. f_equal. f_equal. apply bool_decide_ext. lia.
  - exists s'. by split.
Qed.

Lemma in_step_spec a x : in_step a x = true → 0 ≤ x ∧ ac_highest a - 128 < x ≤ ac_highest a + 128 ∧
  ac_highest a / 2 ^ 16 ≤ x / 2 ^ 16.
Proof. unfold in_step. rewrite !andb_true_iff. lia. Qed.

(** The sign of the difference of the 16-bit numbers tells a late number from a
    new one, and a wrap. *)
Lemma diff_spec e x : 0 ≤ x → e - 128 < x ≤ e + 128 → e / 2 ^ 16 ≤ x / 2 ^ 16 →
  let diff := u16 x - u16 e in
  (0 <? diff) || (diff <? -0x0FFF) = bool_decide (e < x) ∧
  (e < x → (if diff <? -0x0FFF then u16 (u16 (e / 2 ^ 16) + 1) else u16 (e / 2 ^ 16)) = u16 (x / 2 ^ 16)).
Proof.
  intros Hx Hr Hc diff. unfold u16 in diff.
  pose proof (Z.div_mod e (2 ^ 16) ltac:(lia)) as He. pose proof (Z.div_mod x (2 ^ 16) ltac:(lia)) as Hx'.
  pose proof (Z.mod_pos_bound e (2 ^ 16) ltac:(lia)). pose proof (Z.mod_pos_bound x (2 ^ 16) ltac:(lia)).
  assert (x / 2 ^ 16 = e / 2 ^ 16 ∨ x / 2 ^ 16 = e / 2 ^ 16 + 1) as Hd by lia.
  split.
  - apply eq_true_iff_eq. rewrite bool_decide_eq_true, orb_true_iff, !Z.ltb_lt. lia.
  - intros Hlt. subst diff. destruct Hd as [Hd|Hd].
    + rewrite (proj2 (Z.ltb_ge _ _)) by lia. by rewrite Hd.
    + rewrite (proj2 (Z.ltb_lt _ _)) by lia. rewrite Hd. apply u16_add_l.
Qed.

Lemma processRTP_rel s a now h x : stream_rel s a → in_step a x = true → Rtp.SequenceNumber h = u16 x →
  ∃ s', receiver_processRTP s now h = Ok s' ∧ stream_rel s' (arrive a x).
Proof.
  intros HR (Hx0 & Hx & Hc)%in_step_spec Hseq. unfold receiver_processRTP. rewrite (sr_started s a HR), Hseq. cbn [negb].
  destruct (stream_set s x (sr_wf s a HR) (sr_size s a HR)) as (s1 & -> & Hb1 & Hw1 & Hh1). rewrite bind_Ok.
  assert (rs_size s1 = 128) as Hs1 by (rewrite Hb1; apply HR).
  assert (lastSeqnum s1 = u16 (ac_highest a)) as Hl1 by (rewrite Hb1; apply HR).
  assert (seqnumCycles s1 = u16 (ac_highest a / 2 ^ 16)) as Hc1 by (rewrite Hb1; apply HR).
  destruct (diff_spec (ac_highest a) x Hx0 Hx Hc) as [Hd Hcyc]. rewrite Hl1, Hd, Hc1.
  destruct (bool_decide_reflect (ac_highest a < x)) as [Hlt|Hge].
  - rewrite (u16_add_l (ac_highest a) 1). destruct (clear_between s1 (ac_highest a) x Hw1 Hs1 ltac:(lia)) as (s2 & -> & Hb2 & Hw2 & Hh2).
    rewrite !bind_Ok, (Hcyc Hlt). eexists. split; [done|]. rewrite Hb1 in Hb2.
    split; cbn [arrive ac_highest ac_reported ac_arrived ac_lost]; rewrite ?Z.max_r by lia; try done;
      try (rewrite Hb2; by apply HR).
    + intros y Hy. change (stream_has s2 y = bool_decide (y ∈ x :: ac_arrived a)). rewrite Hh2, Hh1 by lia.
      destruct (decide (y = x)) as [->|Hne].
      * rewrite (bool_decide_false (_ < x < x)), !bool_decide_true by (try lia; by left || done). done.
      * rewrite (bool_decide_false (x mod 128 = y mod 128)) by (intros He; apply Hne; symmetry; apply (same_slot 128); lia).
        cbn [orb]. rewrite (bool_decide_ext (y ∈ x :: ac_arrived a) (y ∈ ac_arrived a)) by (rewrite elem_of_cons; tauto).
        destruct (decide (ac_highest a < y)) as [Hn|Hn].
        -- rewrite bool_decide_true by lia. symmetry. apply bool_decide_false. intros Hin%(sr_max s a HR). lia.
        -- rewrite bool_decide_false by lia. cbn [negb andb]. apply HR. lia.
    + intros y [->|Hy]%elem_of_cons; [lia|]. apply (sr_max s a HR) in Hy. lia.
    + destruct (sr_range s a HR). lia.
  - rewrite bind_Ok. eexists. split; [done|].
    split; cbn [arrive ac_highest ac_reported ac_arrived ac_lost]; rewrite ?Z.max_l by lia; try done;
      try (rewrite Hb1; by apply HR).
    + intros y Hy. change (stream_has s1 y = bool_decide (y ∈ x :: ac_arrived a)). rewrite Hh1, (sr_bits s a HR) by lia.
      destruct (decide (y = x)) as [->|Hne]; [by rewrite (bool_decide_true (x mod 128 = x mod 128)), (bool_decide_true (x ∈ x :: _)) by (done || left)|].
      rewrite bool_decide_false by (intros He; apply Hne; symmetry; apply (same_slot 128); lia).
      cbn [orb]. apply bool_decide_ext. rewrite elem_of_cons. tauto.
    + intros y [->|Hy]%elem_of_cons; [lia|]. by apply (sr_max s a HR).
    + exact (sr_range s a HR).
Qed.

(** The first packet starts the account. *)
Definition first_account (x : Z) : account := MkAccount x (x - 1) [x] 0.

Lemma first_rel random ssrc clockRate now h x : 0 ≤ x < 2 ^ 16 → Rtp.SequenceNumber h = x →
  ∃ s', receiver_processRTP (newReceiverStream random ssrc clockRate) now h = Ok s' ∧ stream_rel s' (first_account x) ∧
    rs_ssrc s' = ssrc ∧ receiverSSRC s' = random.
Proof.
  intros Hx Hseq. unfold receiver_processRTP. rewrite Hseq. set (s := newReceiverStream _ _ _).
  assert (log_wf (stream_log s)) as Hw by (split; [by exists 7 | by apply Nat.leb_le]).
  assert (∀ y, stream_has s y = false) as Hno.
  { intros y. unfold stream_has, has. cbn [stream_log rl_packets rl_size s newReceiverStream rs_packets].
    rewrite nth_lookup. destruct (replicate 128 0 !! _) eqn:E; simpl; [apply lookup_replicate in E as [-> _]|]; apply Z.bits_0. }
  destruct (stream_set s x Hw eq_refl) as (s1 & E1 & Hb & Hw1 & Hh). rewrite (u16_small x) in E1 by done.
  cbn [negb]. rewrite E1, bind_Ok. eexists. split; [done|]. split; [|by rewrite Hb].
  assert (x / 2 ^ 16 = 0) as Hd by (apply Z.div_small; lia).
  split; cbn [first_account ac_highest ac_reported ac_arrived ac_lost]; try done; try (rewrite Hb; done);
    rewrite ?Hd; try (rewrite Hb; done); [by rewrite u16_small | | | lia].
  - intros y Hy. change (stream_has s1 y = bool_decide (y ∈ [x])). rewrite Hh, Hno, orb_false_r.
    apply bool_decide_ext. rewrite list_elem_of_singleton. split; [intros He; symmetry; apply (same_slot 128); lia | by intros ->].
  - intros y ->%list_elem_of_singleton. done.
Qed.

(** The count of the numbers that are missing. *)
Lemma lost_spec s a : stream_rel s a → ac_highest a - ac_reported a ≤ 128 →
  lost_since_report s = Ok (Z.of_nat (length (missing_since a))).
Proof.
  intros HR Hn. unfold lost_since_report, missing_since. rewrite (sr_last s a HR), (sr_reported s a HR).
  destruct (sr_range s a HR) as [_ Hle]. set (E := ac_highest a) in *. set (R := ac_reported a) in *.
  destruct (decide (E = R)) as [->|Hne].
  { rewrite Z.eqb_refl. by rewrite (seqZ_nil _ (R - R - 1)) by lia. }
  rewrite u16_eq, (proj2 (Z.eqb_neq _ _)) by lia. rewrite u16_add_l.
  destruct (for_u16_inv (λ i ret, ret = Z.of_nat (length (filter (λ y, y ∉ ac_arrived a) (seqZ (R + 1) (i - R - 1)))))
    (λ i ret, r ← stream_getReceived s i; Ok (if (r : bool) then ret else u32 (ret + 1))) loop_fuel (R + 1) E 0)
    as (n & En & Hn'); [lia | lia | unfold loop_fuel; lia | by rewrite (seqZ_nil _ (R + 1 - R - 1)) by lia | |].
  - intros i ret Hi ->. unfold stream_getReceived. rewrite getReceived_has, bind_Ok by apply HR. eexists. split; [done|].
    fold (stream_has s i). rewrite (sr_bits s a HR) by lia.
    replace (i + 1 - R - 1) with ((i - R - 1) + 1) by lia. rewrite seqZ_app, filter_app, length_app by lia.
    replace (R + 1 + (i - R - 1)) with i by lia. rewrite (seqZ_cons i 1), (seqZ_nil _ (Z.pred 1)) by lia.
    assert (length (filter (λ y, y ∉ ac_arrived a) (seqZ (R + 1) (i - R - 1))) <= 128)%nat as Hsm.
    { etransitivity; [apply length_filter|]. rewrite length_seqZ. lia. }
    case_bool_decide; [rewrite filter_cons_False by tauto | rewrite filter_cons_True by done]; cbn [filter list_filter length];
      [|rewrite u32_small by (unfold is_u32; lia)]; simpl; lia.
  - by rewrite En, Hn'.
Qed.

Section reports.
Context `{FloatConversion}.

Lemma fraction_exact lost total : 0 ≤ lost < total → total < 2 ^ 16 → fraction_lost lost total = lost * 256 / total.
Proof.
  intros Hl Ht. unfold fraction_lost, f64_to_uint. rewrite u32_small by (unfold is_u32; lia).
  assert (0 ≤ lost * 256 / total < 256) as Hq by (split; [apply Z.div_pos; lia | apply Z.div_lt_upper_bound; lia]).
  destruct (decide (lost = 0)) as [->|Hne].
  - destruct (f64_of_Z_spec total) as (m & -> & _); [lia|]. rewrite Z.div_0_l by lia. done.
  - rewrite f64_quotient by lia. by rewrite (proj2 (Z.leb_le _ _)), (proj2 (Z.ltb_lt _ _)) by (lia || apply Hq).
Qed.

Lemma missing_few a : ac_reported a < ac_highest a → Z.of_nat (length (missing_since a)) < ac_highest a - ac_reported a.
Proof.
  intros Hlt. unfold missing_since. eapply Z.le_lt_trans; [apply inj_le, length_filter|]. rewrite length_seqZ. lia.
Qed.

(** What a report says of the account. *)
Definition describes (random ssrc : Z) (a : account) (rep : ReceiverReport) : Prop := ∃ r,
  rep = MkReceiverReport random [r] [] ∧ rr_SSRC r = ssrc ∧ LastSequenceNumber r = u32 (ac_highest a) ∧
  TotalLost r = ac_lost (after_report a) ∧
  (ac_reported a < ac_highest a →
    FractionLost r = Z.of_nat (length (missing_since a)) * 256 / (ac_highest a - ac_reported a)).

(** The fields that go into reports fit their widths. *)
Definition stream_fits (s : receiverStream) : Prop :=
  is_u32 (rs_ssrc s) ∧ is_u32 (receiverSSRC s) ∧ is_u32 (lastSenderReport s).

Lemma extended_number e : 0 ≤ e → Z.lor (u32 (Z.shiftl (u16 (e / 2 ^ 16)) 16)) (u16 e) = u32 e.
Proof.
  intros He. pose proof (u16_range (e / 2 ^ 16)) as Hr. pose proof (u16_range e) as Hr'. unfold is_u16 in *.
  rewrite u32_small by (unfold is_u32; rewrite Z.shiftl_mul_pow2; lia).
  rewrite Z.lor_comm, lor_shiftl_add by lia. unfold u16, u32. 
  rewrite (Z.mul_comm _ (2 ^ 16)). change (2 ^ 32) with (2 ^ 16 * 2 ^ 16). rewrite Z.rem_mul_r by lia. lia.
Qed.

Lemma report_rel s a now : stream_rel s a → 0 ≤ ac_highest a → ac_highest a - ac_reported a ≤ 128 → stream_fits s →
  ∃ s' rep, receiver_generateReport s now = Ok (s', rep) ∧ stream_rel s' (after_report a) ∧
    describes (receiverSSRC s) (rs_ssrc s) a rep ∧ wf rep ∧
    rs_ssrc s' = rs_ssrc s ∧ receiverSSRC s' = receiverSSRC s ∧ lastSenderReport s' = lastSenderReport s.
Proof.
  intros HR H0 Hn (Hf1 & Hf2 & Hf3). unfold receiver_generateReport. rewrite (lost_spec s a HR Hn), bind_Ok.
  destruct (sr_range s a HR) as [Ht Hle]. set (n := Z.of_nat (length (missing_since a))).
  assert (0 ≤ n < 256) as Hn256.
  { unfold n. destruct (decide (ac_reported a < ac_highest a)) as [Hlt|]; [pose proof (missing_few a Hlt); lia|].
    unfold missing_since. rewrite (seqZ_nil _ (_ - _ - 1)) by lia. simpl. lia. }
  rewrite (sr_lost s a HR), (u32_small (ac_lost a + n)) by (unfold is_u32; lia).
  rewrite (proj2 (Z.ltb_ge 0xFFFFFF n)) by lia.
  assert ((if 0xFFFFFF <? ac_lost a + n then 0xFFFFFF else ac_lost a + n) = ac_lost (after_report a)) as ->.
  { cbn [after_report ac_lost]. fold n. destruct (Z.ltb_spec 0xFFFFFF (ac_lost a + n)); lia. }
  assert (0 ≤ ac_lost (after_report a) ≤ 0xFFFFFF) as Hl by (cbn [after_report ac_lost]; lia).
  rewrite (sr_last s a HR), (sr_reported s a HR), (sr_cycles s a HR), u16_sub_u16, extended_number by done.
  rewrite u16_small by (unfold is_u16; lia).
  eexists _, _. split; [done|]. split; [|split; [|split; [|done]]].
  - split; cbn [after_report ac_highest ac_reported ac_arrived]; try (by apply HR); [done | lia].
  - eexists. split; [done|]. cbn. split_and!; [done..|]. intros Hlt. apply fraction_exact; [|lia].
    pose proof (missing_few a Hlt). lia.
  - split; [done|]. split; [|by split; [apply Nat.leb_le|]]. constructor; [|done].
    split_and!; cbn; try done; try apply u32_range; try lia.
    all: try (apply (f64_to_uint_fits 8); lia); try (apply (f64_to_uint_fits 32); lia).
    unfold report_delay. destruct (lastSenderReportTime s); [apply (f64_to_uint_fits 32); lia | unfold is_u32; lia].
Qed.

(** ** Runs *)

(** What happens to a receiver stream: a packet, whose number [x] is counted on
    past 2^16, a sender report, or the ticker. *)
Inductive stream_event :=
  | EvPacket (now : Z) (h : Rtp.Header) (x : Z)
  | EvSenderReport (now : Z) (sr : SenderReport)
  | EvTick (now : Z).

Fixpoint stream_run (s : receiverStream) (evs : list stream_event) : nres (list ReceiverReport) :=
  match evs with
  | [] => Ok []
  | EvPacket now h _ :: evs => s ← receiver_processRTP s now h; stream_run s evs
  | EvSenderReport now sr :: evs => stream_run (processSenderReport s now sr) evs
  | EvTick now :: evs =>
      r ← receiver_generateReport s now;
      l ← stream_run r.1 evs;
      Ok (r.2 :: l)
  end.

(** The accounts at the reports. *)
Fixpoint account_run (a : account) (evs : list stream_event) : list account :=
  match evs with
  | [] => []
  | EvPacket _ _ x :: evs => account_run (arrive a x) evs
  | EvSenderReport _ _ :: evs => account_run a evs
  | EvTick _ :: evs => a :: account_run (after_report a) evs
  end.

(** The packets are in step, and there are no more numbers between two reports
    than the window holds. *)
Fixpoint steady (a : account) (evs : list stream_event) : bool :=
  match evs with
  | [] => true
  | EvPacket _ h x :: evs => in_step a x && (Rtp.SequenceNumber h =? u16 x) && steady (arrive a x) evs
  | EvSenderReport _ _ :: evs => steady a evs
  | EvTick _ :: evs => (ac_highest a - ac_reported a <=? 128) && steady (after_report a) evs
  end.

(** The other fields of the stream are not touched by packets. *)
Lemma for_u16_bits (f : Z → receiverStream → nres receiverStream) fuel : (∀ i s s', f i s = Ok s' → same_bits s s') →
  ∀ i stop s s', for_u16 fuel i stop f s = Ok s' → same_bits s s'.
Proof.
  intros Hf. induction fuel as [|fuel IH]; intros i stop s s' E; cbn [for_u16] in E; destruct (i =? stop); try done;
    try (injection E as <-; by destruct s).
  apply bind_Ok_inv in E as (s1 & E1 & E). apply Hf in E1. apply IH in E. rewrite E, E1. done.
Qed.

Lemma set_bits s seq s' : stream_setReceived s seq = Ok s' → same_bits s s'.
Proof. unfold stream_setReceived. intros (l & _ & [= <-])%bind_Ok_inv. done. Qed.
Lemma del_bits s seq s' : stream_delReceived s seq = Ok s' → same_bits s s'.
Proof. unfold stream_delReceived. intros (l & _ & [= <-])%bind_Ok_inv. done. Qed.

Lemma processRTP_keeps s now h s' : receiver_processRTP s now h = Ok s' →
  rs_ssrc s' = rs_ssrc s ∧ receiverSSRC s' = receiverSSRC s ∧ lastSenderReport s' = lastSenderReport s.
Proof.
  unfold receiver_processRTP. destruct (negb _); intros (s1 & E1%set_bits & E)%bind_Ok_inv; rewrite E1 in E.
  - injection E as <-. done.
  - apply bind_Ok_inv in E as (s2 & E2 & [= <-]). cbn [update_jitter rs_ssrc receiverSSRC lastSenderReport].
    destruct (_ || _); [|by injection E2 as <-].
    apply bind_Ok_inv in E2 as (s3 & E3 & [= <-]). apply for_u16_bits in E3; [by rewrite E3|]. intros i u u'. apply del_bits.
Qed.

Lemma stream_run_rel evs : ∀ s a, stream_rel s a → 0 ≤ ac_highest a → stream_fits s → steady a evs = true →
  ∃ l, stream_run s evs = Ok l ∧ Forall2 (describes (receiverSSRC s) (rs_ssrc s)) (account_run a evs) l ∧ Forall wf l.
Proof.
  induction evs as [|[now h x|now sr|now] evs IH]; intros s a HR H0 Hf Hs; cbn [stream_run account_run steady] in *.
  - by exists [].
  - rewrite !andb_true_iff, Z.eqb_eq in Hs. destruct Hs as [[Hi Hseq] Hs].
    destruct (processRTP_rel s a now h x HR Hi Hseq) as (s' & E & HR'). rewrite E, bind_Ok.
    destruct (processRTP_keeps _ _ _ _ E) as (K1 & K2 & K3).
    destruct (IH s' _ HR') as (l & El & Hl); [cbn [arrive ac_highest]; lia | unfold stream_fits in *; by rewrite K1, K2, K3 | done |].
    rewrite K1, K2 in Hl. eauto.
  - apply (IH (processSenderReport s now sr) a); [| done | | done].
    + destruct HR. split; done.
    + destruct Hf as (? & ? & _). split_and!; [done..|]. apply u32_range.
  - rewrite andb_true_iff, Z.leb_le in Hs. destruct Hs as [Hn Hs].
    destruct (report_rel s a now HR H0 Hn Hf) as (s' & rep & -> & HR' & Hd & Hw & K1 & K2 & K3). rewrite bind_Ok. cbn [fst snd].
    destruct (IH s' _ HR') as (l & -> & Hl & Hwl); [done | unfold stream_fits in *; by rewrite K1, K2, K3 | done |].
    rewrite bind_Ok. rewrite K1, K2 in Hl. eexists. split; [done|]. split; by constructor.
Qed.
End reports.

(** C17. Every receiver report is exact, for a stream whose numbers are in step (each
    within 128 of the highest so far, none late from before a wrap-around) and
    with at most 128 new ones between two reports: each report gives the highest
    number that arrived with its cycles, the count of the numbers missing in all
    up to 24 bits and, if numbers were added since the last report, the share of
    them that is missing in 256ths, rounded down; and the report can be written. *)
Theorem receiver_reports_exact `{FloatConversion} random ssrc clockRate now h evs :
  is_u32 random → is_u32 ssrc → is_u16 (Rtp.SequenceNumber h) → steady (first_account (Rtp.SequenceNumber h)) evs = true →
  ∃ l, stream_run (newReceiverStream random ssrc clockRate) (EvPacket now h (Rtp.SequenceNumber h) :: evs) = Ok l ∧
    Forall2 (describes random ssrc) (account_run (first_account (Rtp.SequenceNumber h)) evs) l ∧ Forall wf l.
Proof.
  intros Hr Hs Hx Hst. cbn [stream_run].
  destruct (first_rel random ssrc clockRate now h _ Hx eq_refl) as (s' & E & HR & K1 & K2). rewrite E, bind_Ok.
  destruct (processRTP_keeps _ _ _ _ E) as (_ & _ & K3).
  assert (stream_fits s') as Hf.
  { unfold stream_fits. rewrite K1, K2, K3. split_and!; [done..|]. unfold is_u32. simpl. lia. }
  destruct (stream_run_rel evs s' _ HR) as (l & El & Hl & Hw); [unfold is_u16 in Hx; simpl; lia | done | done |].
  rewrite K1, K2 in Hl. eauto.
Qed.

Definition sample_header (seq ts : Z) : Rtp.Header := Rtp.MkHeader 2 false false false 96 seq ts 7 [] 0 [].
Definition sample_packet (x ms : Z) : stream_event := EvPacket (ms * 1000000) (sample_header (u16 x) (ms * 90)) x.

Definition sample_events : list stream_event :=
  [sample_packet 65535 20; sample_packet 65538 60; sample_packet 65537 61; EvTick 1000000000;
   EvSenderReport 1200000000 (MkSenderReport 7 (2 ^ 40) 0 0 0 [] []);
   sample_packet 65541 1500; EvTick 2000000000].

Lemma receiver_reports_exact_witness : ∃ l,
  @stream_run zero_conversion (newReceiverStream 5 7 90000) (EvPacket 0 (sample_header 65534 0) 65534 :: sample_events) = Ok l ∧
  map (λ rep, map (λ r, (LastSequenceNumber r, TotalLost r, FractionLost r)) (rcv_Reports rep)) l =
    [[(65538, 1, 51)]; [(65541, 3, 170)]].
Proof.
  destruct (@receiver_reports_exact zero_conversion 5 7 90000 0 (sample_header 65534 0) sample_events) as (l & E & H & _);
    [unfold is_u32; lia.. | unfold is_u16; simpl; lia | vm_compute; reflexivity |].
  exists l. split; [exact E|]. cbn [Rtp.SequenceNumber sample_header] in H.
  assert (account_run (first_account 65534) sample_events =
    [MkAccount 65538 65533 [65537; 65538; 65535; 65534] 0; MkAccount 65541 65538 [65541; 65537; 65538; 65535; 65534] 1]) as Ea
    by (vm_compute; reflexivity). rewrite Ea in H.
  inversion H as [|? ? ? ? (r1 & -> & _ & H1 & H2 & H3) H']; subst. inversion H' as [|? ? ? ? (r2 & -> & _ & H4 & H5 & H6) H'']; subst.
  inversion H''; subst. cbn [map rcv_Reports]. rewrite H1, H2, H3, H4, H5, H6 by (simpl; lia). vm_compute. reflexivity.
Defined.

(** ** Faults *)

Definition losses (rep : ReceiverReport) : list (Z * Z) :=
  map (λ r, (LastSequenceNumber r, TotalLost r)) (rcv_Reports rep).

Lemma clear_ends s e x : log_wf (stream_log s) → rs_size s = 128 → e ≤ x < e + 2 ^ 16 → ∃ s',
  for_u16 loop_fuel (u16 e) (u16 x) (λ i s, stream_delReceived s i) s = Ok s' ∧ same_bits s s' ∧ log_wf (stream_log s').
Proof.
  intros Hw Hs Hx. apply (for_u16_inv (λ _ s', same_bits s s' ∧ log_wf (stream_log s'))); [lia | lia | unfold loop_fuel; lia | |].
  - by destruct s.
  - intros i s1 Hi [Hb Hw1]. destruct (stream_del s1 i Hw1) as (s2 & E2 & Hb2 & Hw2 & _); [by rewrite Hb|].
    exists s2. split; [done|]. split; [by rewrite Hb2, Hb | done].
Qed.

(** A packet that was overtaken by the first ones of the next cycle counts as a
    jump forward of nearly 65536 numbers, and the one that comes next, although
    it is in order, as the first of another cycle. *)
Lemma overtaken_packet_miscounts s a now1 now2 h1 h2 x : stream_rel s a → let e := ac_highest a in
  0 ≤ x → e - 128 < x → x / 2 ^ 16 < e / 2 ^ 16 → Rtp.SequenceNumber h1 = u16 x → Rtp.SequenceNumber h2 = u16 (e + 1) →
  ∃ s1 s2, receiver_processRTP s now1 h1 = Ok s1 ∧ receiver_processRTP s1 now2 h2 = Ok s2 ∧
    lastSeqnum s2 = u16 (e + 1) ∧ seqnumCycles s2 = u16 ((e + 1) / 2 ^ 16 + 1).
Proof.
  intros HR e Hx He Hc H1 H2.
  pose proof (Z.div_mod e (2 ^ 16) ltac:(lia)) as Ed. pose proof (Z.div_mod x (2 ^ 16) ltac:(lia)) as Xd.
  pose proof (Z.mod_pos_bound e (2 ^ 16) ltac:(lia)) as Em. pose proof (Z.mod_pos_bound x (2 ^ 16) ltac:(lia)) as Xm.
  assert (e / 2 ^ 16 = x / 2 ^ 16 + 1) as Hq by lia.
  assert (u16 (e + 1) = u16 e + 1 ∧ (e + 1) / 2 ^ 16 = e / 2 ^ 16) as [Hu Hq1].
  { unfold u16. split; Z.div_mod_to_equations; lia. }
  unfold receiver_processRTP at 1. rewrite (sr_started s a HR), H1. cbn [negb].
  destruct (stream_set s x (sr_wf s a HR) (sr_size s a HR)) as (s1 & -> & Hb1 & Hw1 & _). rewrite bind_Ok.
  assert (lastSeqnum s1 = u16 e ∧ seqnumCycles s1 = u16 (e / 2 ^ 16) ∧ rs_size s1 = 128) as (L1 & C1 & S1).
  { rewrite Hb1. split_and!; apply HR. }
  rewrite L1, C1, (proj2 (Z.ltb_lt _ _)), (proj2 (Z.ltb_ge _ _)) by (unfold u16; lia). cbn [orb].
  rewrite u16_add_l. replace (u16 x) with (u16 (x + 2 ^ 16)) by (unfold u16; rewrite <- (Z.mod_add x 1) by lia; f_equal; lia).
  destruct (clear_ends s1 (e + 1) (x + 2 ^ 16) Hw1 S1) as (s2 & -> & Hb2 & Hw2); [lia|]. rewrite !bind_Ok. set (t := update_jitter _ _ _). exists t.
  unfold receiver_processRTP. rewrite H2.
  assert (rs_started t = true) as -> by (cbn; rewrite Hb2, Hb1; apply HR). cbn [negb].
  assert (rs_size t = 128) as S2 by (cbn; rewrite Hb2, Hb1; apply HR).
  destruct (stream_set t (e + 1) Hw2 S2) as (s3 & -> & Hb3 & Hw3 & _). rewrite bind_Ok.
  assert (lastSeqnum s3 = u16 x ∧ seqnumCycles s3 = u16 (e / 2 ^ 16) ∧ rs_size s3 = 128) as (L3 & C3 & S3).
  { rewrite Hb3. cbn. split_and!; [unfold u16; rewrite <- (Z.mod_add x 1) by lia; f_equal; lia | done | by rewrite Hb2, Hb1; apply HR]. }
  rewrite L3, C3, (proj2 (Z.ltb_ge _ _)), (proj2 (Z.ltb_lt _ _)) by (unfold u16 in *; lia). cbn [orb].
  rewrite (u16_add_l x 1). destruct (clear_ends s3 (x + 1) (e + 1) Hw3 S3) as (s4 & -> & Hb4 & _); [lia|].
  rewrite !bind_Ok. eexists. split; [done|]. split; [done|]. cbn. split; [done|]. rewrite u16_add_l, Hq1. done.
Qed.

(** The window is smaller than a second of video: of 300 packets between two
    reports one is lost, and none is reported. *)
Lemma losses_beyond_window :
  map losses <$> @stream_run zero_conversion (newReceiverStream 5 7 90000)
    (map (λ x, sample_packet x x) (seqZ 0 10 ++ seqZ 11 289) ++ [EvTick 1000000000]) = Ok [[(299, 0)]].
Proof. vm_compute. reflexivity. Qed.
