(* ===== verification/Interceptors.v ===== *)
(** * The interceptors of a peer connection

    The interface Interceptor of pion/interceptor with its chain, registry and
    attributes, and the five interceptors that RegisterDefaultInterceptors of
    pion/webrtc registers for every connection of the server: the NACK responder
    and generator, the receiver and sender reports and the transport-wide
    congestion control.  [Nack], [Report] and [Twcc] are what they do with a
    packet; this file is how packets get there.

    A reader or writer is a function, as in the source; binding a stream wraps
    it.  Functions run on the state of the interceptors of one connection and
    end in a value or an error; [Diverge] stands for a send on a channel nobody
    reads. *)

From stdpp Require Import gmap.
From S2P Require Import Prelude GoLib Bytes Float64 Rtp Rtcp RtcpFeedback RtcpPacket Nack Report Twcc.

(** ** State and monad *)

Inductive chain_err :=
  | ErrRtp (e : rtp_err)
  | ErrRtcp (e : rtcp_err)
  | ErrNack (e : nack_err)
  | ErrBase.                  (* of the reader or writer of the connection *)

(** The goroutine an interceptor starts in BindRTCPWriter: whether its channel
    close is closed, and whether the goroutine runs. *)
Record worker := MkWorker { wk_closed : bool; wk_running : bool }.

(** The NACKs whose goroutine did not run yet are pending. *)
Record responder_state := MkResponderState { rp_core : ResponderInterceptor; rp_pending : list TransportLayerNack }.
(** [g_ssrc] is the variable senderSSRC of the goroutine. *)
Record generator_state := MkGeneratorState { g_core : GeneratorInterceptor; g_ssrc : Z; g_worker : worker }.
(** The streams by their SSRC, as pointers to the objects, which the readers and
    writers of the streams have, too. *)
Record receiver_state := MkReceiverState { rc_streams : gmap Z nat; rc_objects : list receiverStream; rc_worker : worker }.
Record sender_state := MkSenderState { sn_streams : gmap Z nat; sn_objects : list senderStream; sn_worker : worker }.
(** [tw_ticker]: the goroutine has had its first packet and waits for its
    ticker, too. *)
Record twcc_state := MkTwccState { startTime : Z; tw_recorder : option Recorder; tw_ticker : bool; tw_worker : worker }.
(** The clock, in nanoseconds, the number of random numbers drawn, the packets
    of the stream that are still to arrive, with their times, the packets that
    were given to the writer of the connection and the feedback given to its
    RTCP writer. *)
Record outside := MkOutside {
  o_now : Z;
  o_rand : nat;
  o_in : list (Z * slice);
  o_sent : list (Rtp.Header * list Z);
  o_rtcp : list Packet;
}.

Record istate := MkIState {
  ic_responder : responder_state;
  ic_generator : generator_state;
  ic_receiver : receiver_state;
  ic_sender : sender_state;
  ic_twcc : twcc_state;
  ic_out : outside;
}.

Definition IM (A : Type) : Type := istate → istate * res chain_err A.

#[export] Instance im_ret : MRet IM := λ A a s, (s, Ok a).
#[export] Instance im_bind : MBind IM := λ A B f m s,
  let '(s', r) := m s in
  match r with
  | Ok a => f a s'
  | Err e => (s', Err e)
  | Panic => (s', Panic)
  | Diverge => (s', Diverge)
  end.

Definition iret {A} (a : A) : IM A := λ s, (s, Ok a).
Definition ithrow {A} (e : chain_err) : IM A := λ s, (s, Err e).
Definition iblock {A} : IM A := λ s, (s, Diverge).
Definition iget {A} (f : istate → A) : IM A := λ s, (s, Ok (f s)).
Definition iupd (f : istate → istate) : IM unit := λ s, (f s, Ok tt).

(** A computation of another package. *)
Definition lift {E A} (f : E → chain_err) (m : res E A) : IM A := λ s,
  (s, match m with
      | Ok a => Ok a
      | Err e => Err (f e)
      | Panic => Panic
      | Diverge => Diverge
      end).

Definition no_error {A} (e : Empty_set) : A := match e with end.

(** Updates of single fields. *)
Definition set_responder (x : responder_state) (s : istate) : istate :=
  MkIState x (ic_generator s) (ic_receiver s) (ic_sender s) (ic_twcc s) (ic_out s).
Definition set_generator (x : generator_state) (s : istate) : istate :=
  MkIState (ic_responder s) x (ic_receiver s) (ic_sender s) (ic_twcc s) (ic_out s).
Definition set_receiver (x : receiver_state) (s : istate) : istate :=
  MkIState (ic_responder s) (ic_generator s) x (ic_sender s) (ic_twcc s) (ic_out s).
Definition set_sender (x : sender_state) (s : istate) : istate :=
  MkIState (ic_responder s) (ic_generator s) (ic_receiver s) x (ic_twcc s) (ic_out s).
Definition set_twcc (x : twcc_state) (s : istate) : istate :=
  MkIState (ic_responder s) (ic_generator s) (ic_receiver s) (ic_sender s) x (ic_out s).
Definition set_out (x : outside) (s : istate) : istate :=
  MkIState (ic_responder s) (ic_generator s) (ic_receiver s) (ic_sender s) (ic_twcc s) x.

(** ** The interface *)

(** type StreamInfo: the fields the interceptors look at *)
Record StreamInfo := MkStreamInfo {
  si_SSRC : Z;
  si_ClockRate : Z;
  RTPHeaderExtensions : list (string * Z);      (* URI and ID *)
  RTCPFeedback : list (string * string);        (* Type and Parameter *)
}.

(** type Attributes: the two keys that are used.  A nil map is [None]. *)
Record Attributes := MkAttributes { rtpHeaderKey : option Rtp.Header; rtcpPacketsKey : option (list Packet) }.
Definition no_attributes : Attributes := MkAttributes None None.

(** Read(b, a) gives the bytes b[:n] and the attributes. *)
Definition Reader : Type := option Attributes → IM (slice * option Attributes).
(** Write(header, payload, attributes); nobody looks at the attributes. *)
Definition RTPWriter : Type := Rtp.Header → list Z → IM Z.
Definition RTCPWriter : Type := list Packet → IM Z.

Record Interceptor := MkInterceptor {
  BindRTCPReader : Reader → IM Reader;
  BindRTCPWriter : RTCPWriter → IM RTCPWriter;
  BindLocalStream : StreamInfo → RTPWriter → IM RTPWriter;
  UnbindLocalStream : StreamInfo → IM unit;
  BindRemoteStream : StreamInfo → Reader → IM Reader;
  UnbindRemoteStream : StreamInfo → IM unit;
  Close : IM unit;
}.

(** type NoOp: embedded by the interceptors, which override some of its
    methods *)
Definition NoOp : Interceptor := MkInterceptor iret iret (λ _, iret) (λ _, iret tt) (λ _, iret) (λ _, iret tt) (iret tt).

(** type Chain: every method of the children in order.  Close of an interceptor
    of this file returns nil. *)
Definition NewChain (l : list Interceptor) : Interceptor :=
  MkInterceptor
    (λ reader, foldl (λ m i, r ← m; BindRTCPReader i r) (iret reader) l)
    (λ writer, foldl (λ m i, w ← m; BindRTCPWriter i w) (iret writer) l)
    (λ info writer, foldl (λ m i, w ← m; BindLocalStream i info w) (iret writer) l)
    (λ info, foldl (λ m i, _ ← m; UnbindLocalStream i info) (iret tt) l)
    (λ info reader, foldl (λ m i, r ← m; BindRemoteStream i info r) (iret reader) l)
    (λ info, foldl (λ m i, _ ← m; UnbindRemoteStream i info) (iret tt) l)
    (foldl (λ m i, _ ← m; Close i) (iret tt) l).

(** The interceptors override methods of NoOp: the readers, the RTCP writer, the
    local and the remote streams. *)
Definition override_rtcp_reader (f : Reader → IM Reader) (i : Interceptor) : Interceptor :=
  MkInterceptor f (BindRTCPWriter i) (BindLocalStream i) (UnbindLocalStream i) (BindRemoteStream i) (UnbindRemoteStream i) (Close i).
Definition override_rtcp_writer (f : RTCPWriter → IM RTCPWriter) (i : Interceptor) : Interceptor :=
  MkInterceptor (BindRTCPReader i) f (BindLocalStream i) (UnbindLocalStream i) (BindRemoteStream i) (UnbindRemoteStream i) (Close i).
Definition override_local (f : StreamInfo → RTPWriter → IM RTPWriter) (i : Interceptor) : Interceptor :=
  MkInterceptor (BindRTCPReader i) (BindRTCPWriter i) f (UnbindLocalStream i) (BindRemoteStream i) (UnbindRemoteStream i) (Close i).
Definition override_unbind_local (f : StreamInfo → IM unit) (i : Interceptor) : Interceptor :=
  MkInterceptor (BindRTCPReader i) (BindRTCPWriter i) (BindLocalStream i) f (BindRemoteStream i) (UnbindRemoteStream i) (Close i).
Definition override_remote (f : StreamInfo → Reader → IM Reader) (i : Interceptor) : Interceptor :=
  MkInterceptor (BindRTCPReader i) (BindRTCPWriter i) (BindLocalStream i) (UnbindLocalStream i) f (UnbindRemoteStream i) (Close i).
Definition override_close (f : IM unit) (i : Interceptor) : Interceptor :=
  MkInterceptor (BindRTCPReader i) (BindRTCPWriter i) (BindLocalStream i) (UnbindLocalStream i) (BindRemoteStream i) (UnbindRemoteStream i) f.

(** The ends of the chain.  A read waits for the next packet; there is none when
    the connection is closed. *)
Definition net_read : Reader := λ a s,
  let o := ic_out s in
  match o_in o with
  | (t, raw) :: l => (set_out (MkOutside (Z.max (o_now o) t) (o_rand o) l (o_sent o) (o_rtcp o)) s, Ok (raw, a))
  | [] => (s, Err ErrBase)
  end.
Definition net_write : RTPWriter := λ h payload s,
  let o := ic_out s in
  (set_out (MkOutside (o_now o) (o_rand o) (o_in o) (o_sent o ++ [(h, payload)]) (o_rtcp o)) s, Ok (Z.of_nat (length payload))).
Definition net_write_rtcp : RTCPWriter := λ l s,
  let o := ic_out s in
  (set_out (MkOutside (o_now o) (o_rand o) (o_in o) (o_sent o) (o_rtcp o ++ l)) s, Ok 0).

(** func (a Attributes) GetRTPHeader(raw []byte): the header, with the attributes
    it leaves *)
Definition GetRTPHeader (a : Attributes) (raw : slice) : IM (Rtp.Header * Attributes) :=
  match rtpHeaderKey a with
  | Some h => iret (h, a)
  | None =>
      r ← lift ErrRtp (Rtp.Header_Unmarshal empty_header raw);
      iret (r.1, MkAttributes (Some r.1) (rtcpPacketsKey a))
  end.

(** func (a Attributes) GetRTCPPackets(raw []byte) ([]rtcp.Packet, error) *)
Definition GetRTCPPackets (a : Attributes) (raw : slice) : IM (list Packet * Attributes) :=
  match rtcpPacketsKey a with
  | Some l => iret (l, a)
  | None =>
      l ← lift ErrRtcp (Unmarshal raw);
      iret (l, MkAttributes (rtpHeaderKey a) (Some l))
  end.

(** A reader of RTP packets that looks at the header after the inner one. *)
Definition header_reader (inner : Reader) (f : Rtp.Header → IM unit) : Reader := λ a,
  r ← inner a;
  let attr := default no_attributes r.2 in
  h ← GetRTPHeader attr r.1;
  _ ← f h.1;
  iret (r.1, Some h.2).

(** A reader of RTCP packets that looks at them after the inner one. *)
Definition packets_reader (inner : Reader) (f : list Packet → IM unit) : Reader := λ a,
  r ← inner a;
  let attr := default no_attributes r.2 in
  l ← GetRTCPPackets attr r.1;
  _ ← f l.1;
  iret (r.1, Some l.2).

(** [for _, x := range l { f(x) }] *)
Fixpoint each {A} (f : A → IM unit) (l : list A) : IM unit :=
  match l with
  | [] => iret tt
  | x :: l => _ ← f x; each f l
  end.

Section interceptors.
Context `{FloatConversion}.
(** The n-th value of rand.Uint32(). *)
Context (rand : nat → Z).

Definition Uint32 : IM Z := λ s,
  (set_out (MkOutside (o_now (ic_out s)) (S (o_rand (ic_out s))) (o_in (ic_out s)) (o_sent (ic_out s)) (o_rtcp (ic_out s))) s,
   Ok (rand (o_rand (ic_out s)))).

Definition now : IM Z := iget (λ s, o_now (ic_out s)).

(** ** The NACK responder *)

Definition upd_responder {A} (f : ResponderInterceptor → IM (ResponderInterceptor * A)) : IM A :=
  s ← iget ic_responder;
  c ← f (rp_core s);
  s ← iget ic_responder;
  _ ← iupd (set_responder (MkResponderState c.1 (rp_pending s)));
  iret c.2.

(** [go n.resendPackets(nack)] *)
Definition resend_later (p : Packet) : IM unit :=
  match p with
  | PTransportLayerNack n =>
      s ← iget ic_responder;
      iupd (set_responder (MkResponderState (rp_core s) (rp_pending s ++ [n])))
  | _ => iret tt
  end.

(** The writer of a bound stream, whose buffer is [p]. *)
Definition responder_writer (p : nat) (writer : RTPWriter) : RTPWriter := λ h payload,
  _ ← upd_responder (λ c, c ← lift ErrNack (Responder_write c p h payload); iret (c, tt));
  writer h payload.

Definition responder_BindRTCPReader (reader : Reader) : IM Reader := iret (packets_reader reader (each resend_later)).

Definition responder_BindLocalStream (info : StreamInfo) (writer : RTPWriter) : IM RTPWriter :=
  if negb (streamSupportNack (RTCPFeedback info)) then iret writer
  else
    p ← upd_responder (λ c, lift ErrNack (Responder_BindLocalStream c (si_SSRC info)));
    iret (responder_writer p writer).

Definition responder_UnbindLocalStream (info : StreamInfo) : IM unit :=
  upd_responder (λ c, iret (Responder_UnbindLocalStream c (si_SSRC info), tt)).

Definition ResponderInterceptor_ : Interceptor :=
  override_rtcp_reader responder_BindRTCPReader
  (override_local responder_BindLocalStream
  (override_unbind_local responder_UnbindLocalStream NoOp)).

(** An error of a write is logged. *)
Definition write_logged (writer : RTPWriter) (p : Rtp.Header * list Z) : IM unit := λ s,
  let '(s', r) := writer p.1 p.2 s in
  (s', match r with
       | Ok _ | Err _ => Ok tt
       | Panic => Panic
       | Diverge => Diverge
       end).

(** The goroutine of the first NACK that is pending; the streams write to the
    writer of the connection. *)
Definition run_resend : IM unit :=
  s ← iget ic_responder;
  match rp_pending s with
  | [] => iret tt
  | n :: l =>
      _ ← iupd (set_responder (MkResponderState (rp_core s) l));
      w ← upd_responder (λ c, lift ErrNack (resendPackets c n));
      each (write_logged net_write) w
  end.

(** ** The NACK generator *)

Definition upd_generator {A} (f : GeneratorInterceptor → IM (GeneratorInterceptor * A)) : IM A :=
  s ← iget ic_generator;
  c ← f (g_core s);
  s ← iget ic_generator;
  _ ← iupd (set_generator (MkGeneratorState c.1 (g_ssrc s) (g_worker s)));
  iret c.2.

(** The random SSRC is drawn when the goroutine starts. *)
Definition generator_BindRTCPWriter (writer : RTCPWriter) : IM RTCPWriter :=
  s ← iget ic_generator;
  if wk_closed (g_worker s) then iret writer
  else
    ssrc ← Uint32;
    _ ← iupd (set_generator (MkGeneratorState (g_core s) ssrc (MkWorker false true)));
    iret writer.

(** What the reader of a stream, whose log is [p], does with a header. *)
Definition generator_sees (p : nat) (h : Rtp.Header) : IM unit :=
  upd_generator (λ c, c ← lift ErrNack (Generator_read c p (Rtp.SequenceNumber h)); iret (c, tt)).

Definition generator_BindRemoteStream (info : StreamInfo) (reader : Reader) : IM Reader :=
  if negb (streamSupportNack (RTCPFeedback info)) then iret reader
  else
    p ← upd_generator (λ c, lift ErrNack (Generator_BindRemoteStream c (si_SSRC info)));
    iret (header_reader reader (generator_sees p)).

Definition generator_UnbindLocalStream (info : StreamInfo) : IM unit :=
  upd_generator (λ c, iret (Generator_UnbindLocalStream c (si_SSRC info), tt)).

(** Close waits for the goroutine to end. *)
Definition generator_Close : IM unit :=
  s ← iget ic_generator;
  iupd (set_generator (MkGeneratorState (g_core s) (g_ssrc s) (MkWorker true false))).

Definition GeneratorInterceptor_ : Interceptor :=
  override_rtcp_writer generator_BindRTCPWriter
  (override_remote generator_BindRemoteStream
  (override_unbind_local generator_UnbindLocalStream
  (override_close generator_Close NoOp))).

(** What is written goes to the writer the goroutine was given, the one of the
    connection. *)
Definition write_rtcp (l : list Packet) : IM unit := _ ← net_write_rtcp l; iret tt.

(** A tick of the goroutine; [order] is the order in which the range over the
    map visits the streams. *)
Definition generator_tick (order : list Z) : IM unit :=
  s ← iget ic_generator;
  if wk_running (g_worker s) then
    l ← lift ErrNack (Generator_tick (g_core s) (g_ssrc s) order);
    write_rtcp (map PTransportLayerNack l)
  else iret tt.

(** ** Receiver reports *)

Definition upd_receiver (f : gmap Z nat → list receiverStream → IM (gmap Z nat * list receiverStream)) : IM unit :=
  s ← iget ic_receiver;
  m ← f (rc_streams s) (rc_objects s);
  s ← iget ic_receiver;
  iupd (set_receiver (MkReceiverState m.1 m.2 (rc_worker s))).

(** What the reader of a stream, whose object is [p], does with a header. *)
Definition receiver_sees (p : nat) (h : Rtp.Header) : IM unit :=
  t ← now;
  upd_receiver (λ m l,
    st ← lift ErrNack (object l p);
    st ← lift ErrNack (receiver_processRTP st t h);
    iret (m, <[p := st]> l)).

Definition see_sender_report (pkt : Packet) : IM unit :=
  match pkt with
  | PSenderReport sr =>
      t ← now;
      upd_receiver (λ m l,
        match m !! sr_SSRC sr with
        | None => iret (m, l)
        | Some p => st ← lift ErrNack (object l p); iret (m, <[p := processSenderReport st t sr]> l)
        end)
  | _ => iret tt
  end.

Definition receiver_BindRTCPWriter (writer : RTCPWriter) : IM RTCPWriter :=
  s ← iget ic_receiver;
  if wk_closed (rc_worker s) then iret writer
  else _ ← iupd (set_receiver (MkReceiverState (rc_streams s) (rc_objects s) (MkWorker false true))); iret writer.

Definition receiver_BindRemoteStream (info : StreamInfo) (reader : Reader) : IM Reader :=
  random ← Uint32;
  s ← iget ic_receiver;
  let p := length (rc_objects s) in
  _ ← upd_receiver (λ m l, iret (<[si_SSRC info := p]> m, l ++ [newReceiverStream random (si_SSRC info) (si_ClockRate info)]));
  iret (header_reader reader (receiver_sees p)).

Definition receiver_UnbindLocalStream (info : StreamInfo) : IM unit := upd_receiver (λ m l, iret (delete (si_SSRC info) m, l)).

Definition receiver_BindRTCPReader (reader : Reader) : IM Reader := iret (packets_reader reader (each see_sender_report)).

Definition receiver_Close : IM unit :=
  s ← iget ic_receiver;
  iupd (set_receiver (MkReceiverState (rc_streams s) (rc_objects s) (MkWorker true false))).

Definition ReceiverInterceptor_ : Interceptor :=
  override_rtcp_writer receiver_BindRTCPWriter
  (override_remote receiver_BindRemoteStream
  (override_unbind_local receiver_UnbindLocalStream
  (override_rtcp_reader receiver_BindRTCPReader
  (override_close receiver_Close NoOp)))).

Definition report_stream (t : Z) (ssrc : Z) : IM unit :=
  s ← iget ic_receiver;
  match rc_streams s !! ssrc with
  | None => iret tt
  | Some p =>
      st ← lift ErrNack (object (rc_objects s) p);
      r ← lift ErrNack (receiver_generateReport st t);
      _ ← iupd (set_receiver (MkReceiverState (rc_streams s) (<[p := r.1]> (rc_objects s)) (rc_worker s)));
      write_rtcp [PReceiverReport r.2]
  end.

Definition receiver_tick (order : list Z) : IM unit :=
  s ← iget ic_receiver;
  if wk_running (rc_worker s) then t ← now; each (report_stream t) order else iret tt.

(** ** Sender reports *)

(** The writer of a stream, whose object is [p]. *)
Definition sender_writer (p : nat) (writer : RTPWriter) : RTPWriter := λ h payload,
  t ← now;
  s ← iget ic_sender;
  st ← lift ErrNack (object (sn_objects s) p);
  _ ← iupd (set_sender (MkSenderState (sn_streams s) (<[p := sender_processRTP st t h payload]> (sn_objects s)) (sn_worker s)));
  writer h payload.

Definition sender_BindRTCPWriter (writer : RTCPWriter) : IM RTCPWriter :=
  s ← iget ic_sender;
  if wk_closed (sn_worker s) then iret writer
  else _ ← iupd (set_sender (MkSenderState (sn_streams s) (sn_objects s) (MkWorker false true))); iret writer.

Definition sender_BindLocalStream (info : StreamInfo) (writer : RTPWriter) : IM RTPWriter :=
  s ← iget ic_sender;
  let p := length (sn_objects s) in
  _ ← iupd (set_sender (MkSenderState (<[si_SSRC info := p]> (sn_streams s))
        (sn_objects s ++ [newSenderStream (si_SSRC info) (si_ClockRate info)]) (sn_worker s)));
  iret (sender_writer p writer).

Definition sender_Close : IM unit :=
  s ← iget ic_sender;
  iupd (set_sender (MkSenderState (sn_streams s) (sn_objects s) (MkWorker true false))).

Definition SenderInterceptor_ : Interceptor :=
  override_rtcp_writer sender_BindRTCPWriter
  (override_local sender_BindLocalStream
  (override_close sender_Close NoOp)).

Definition sender_tick (order : list Z) : IM unit :=
  s ← iget ic_sender;
  if wk_running (sn_worker s) then
    t ← now;
    each (λ ssrc, match sn_streams s !! ssrc with
                  | None => iret tt
                  | Some p =>
                      st ← lift ErrNack (object (sn_objects s) p);
                      write_rtcp [PSenderReport (sender_generateReport st t)]
                  end) order
  else iret tt.

(** ** Transport-wide congestion control *)

Definition transportCCURI : string := "http://www.ietf.org/id/draft-holmer-rmcat-transport-wide-cc-extensions-01".

(** The loop over the header extensions; 0 if none is the one. *)
Definition hdrExtID (info : StreamInfo) : Z :=
  match List.find (λ e, bool_decide (e.1 = transportCCURI)) (RTPHeaderExtensions info) with
  | Some e => u8 e.2
  | None => 0
  end.

(** func (t *TransportCCExtension) Unmarshal(rawData []byte) error *)
Definition TransportCC_Unmarshal (raw : list Z) : res rtp_err Z :=
  match raw with
  | b0 :: b1 :: _ => Ok (word16 b0 b1)
  | _ => Err errTooSmall
  end.

(** The goroutine takes the packet from the channel; if it does not run, the
    send waits for ever.  The first packet starts its ticker. *)
Definition send_packet (ssrc seq arrival : Z) : IM unit :=
  s ← iget ic_twcc;
  if wk_running (tw_worker s) then
    match tw_recorder s with
    | Some r => iupd (set_twcc (MkTwccState (startTime s) (Some (Record_ r ssrc seq arrival)) true (tw_worker s)))
    | None => iret tt
    end
  else iblock.

Definition twcc_sees (info : StreamInfo) (id : Z) (h : Rtp.Header) : IM unit :=
  match GetExtension h id with
  | None => iret tt
  | Some ext =>
      seq ← lift ErrRtp (TransportCC_Unmarshal ext);
      t ← now;
      s ← iget ic_twcc;
      send_packet (si_SSRC info) seq (Z.quot (time_Sub t (startTime s)) 1000)
  end.

Definition twcc_BindRTCPWriter (writer : RTCPWriter) : IM RTCPWriter :=
  ssrc ← Uint32;
  s ← iget ic_twcc;
  let s := MkTwccState (startTime s) (Some (NewRecorder ssrc)) (tw_ticker s) (tw_worker s) in
  _ ← iupd (set_twcc s);
  if wk_closed (tw_worker s) then iret writer
  else _ ← iupd (set_twcc (MkTwccState (startTime s) (tw_recorder s) (tw_ticker s) (MkWorker false true))); iret writer.

Definition twcc_BindRemoteStream (info : StreamInfo) (reader : Reader) : IM Reader :=
  if hdrExtID info =? 0 then iret reader
  else iret (header_reader reader (twcc_sees info (hdrExtID info))).

Definition twcc_Close : IM unit :=
  s ← iget ic_twcc;
  iupd (set_twcc (MkTwccState (startTime s) (tw_recorder s) (tw_ticker s) (MkWorker true false))).

Definition TwccInterceptor : Interceptor :=
  override_rtcp_writer twcc_BindRTCPWriter
  (override_remote twcc_BindRemoteStream
  (override_close twcc_Close NoOp)).

Definition twcc_tick : IM unit :=
  s ← iget ic_twcc;
  match tw_recorder s with
  | Some r =>
      if wk_running (tw_worker s) && tw_ticker s then
        b ← lift no_error (BuildFeedbackPacket r);
        _ ← iupd (set_twcc (MkTwccState (startTime s) (Some b.1) (tw_ticker s) (tw_worker s)));
        write_rtcp (map PTransportLayerCC b.2)
      else iret tt
  | None => iret tt
  end.

(** ** The registry *)

(** RegisterDefaultInterceptors and Registry.Build: the chain of a connection *)
Definition default_chain : Interceptor :=
  NewChain [ResponderInterceptor_; GeneratorInterceptor_; ReceiverInterceptor_; SenderInterceptor_; TwccInterceptor].

(** The state the five factories make at time [t], of a connection to which
    [packets] will come. *)
Definition new_interceptors (t : Z) (packets : list (Z * slice)) : res nack_err istate :=
  r ← Responder_NewInterceptor 1024;
  g ← Generator_NewInterceptor 512 0;
  let idle := MkWorker false false in
  Ok (MkIState (MkResponderState r []) (MkGeneratorState g 0 idle) (MkReceiverState ∅ [] idle) (MkSenderState ∅ [] idle)
        (MkTwccState t None false idle) (MkOutside t 0 packets [] [])).
End interceptors.
