(* ===== verification/InterceptorsProps.v ===== *)
(** * The interceptors of a peer connection: properties

    Binding a stream gives a reader that hands the header of every packet to the
    NACK generator, the receiver reports and the transport-wide congestion
    control, each of which sees every packet once and in order; what the three
    then write agrees with the packets that arrived. *)

From stdpp Require Import gmap.
From S2P Require Import Prelude GoLib Bytes Float64 Rtp Rtcp RtcpFeedback RtcpCongestion RtcpPacket RtcpCodec RtcpTcc Nack NackProps Report ReportProps Twcc TwccProps Interceptors.

(** ** The monad *)

Lemma ibind_Ok {A B} (m : IM A) (f : A → IM B) s s' a : m s = (s', Ok a) → (m ≫= f) s = f a s'.
Proof. unfold mbind, im_bind. by intros ->. Qed.

Lemma ibind_Err {A B} (m : IM A) (f : A → IM B) s s' e : m s = (s', Err e) → (m ≫= f) s = (s', Err e).
Proof. unfold mbind, im_bind. by intros ->. Qed.

Lemma ibind_Diverge {A B} (m : IM A) (f : A → IM B) s s' : m s = (s', Diverge) → (m ≫= f) s = (s', Diverge).
Proof. unfold mbind, im_bind. by intros ->. Qed.

(** The methods of the chain of the five interceptors. *)
Ltac unfold_chain :=
  cbv [default_chain NewChain BindRTCPReader BindRTCPWriter BindLocalStream UnbindLocalStream BindRemoteStream UnbindRemoteStream
    Close foldl ResponderInterceptor_ GeneratorInterceptor_ ReceiverInterceptor_ SenderInterceptor_ TwccInterceptor
    override_rtcp_reader override_rtcp_writer override_local override_unbind_local override_remote override_close NoOp responder_BindRTCPReader responder_BindLocalStream
    responder_UnbindLocalStream generator_BindRTCPWriter generator_BindRemoteStream generator_UnbindLocalStream generator_Close
    receiver_BindRTCPWriter receiver_BindRemoteStream receiver_UnbindLocalStream receiver_BindRTCPReader receiver_Close
    sender_BindRTCPWriter sender_BindLocalStream sender_Close twcc_BindRTCPWriter twcc_BindRemoteStream twcc_Close
    upd_generator upd_receiver Uint32 mbind im_bind iret iget iupd lift].

Section chain.
Context `{FloatConversion} (rand : nat → Z).

Abbreviation chain := (default_chain rand).

(** ** Binding *)

(** The reader a stream is given, around the one of the connection: the
    generator, whose log is [pl], is the innermost; then the reports, whose
    stream is [ps]. *)
Definition bound_reader (info : StreamInfo) (pl ps : nat) (base : Reader) : Reader :=
  let r := if streamSupportNack (RTCPFeedback info) then header_reader base (generator_sees pl) else base in
  let r := header_reader r (receiver_sees ps) in
  if hdrExtID info =? 0 then r else header_reader r (twcc_sees info (hdrExtID info)).

(** ** Readers *)

Definition with_header (a : option Attributes) (h : Rtp.Header) : option Attributes :=
  Some (MkAttributes (Some h) (rtcpPacketsKey (default no_attributes a))).

(** The first reader that looks at a packet reads its header, the others find it
    in the attributes. *)
Lemma header_reader_first inner f a s s1 s2 raw h n : inner a s = (s1, Ok (raw, a)) →
  rtpHeaderKey (default no_attributes a) = None → Rtp.Header_Unmarshal empty_header raw = Ok (h, n) → f h s1 = (s2, Ok tt) →
  header_reader inner f a s = (s2, Ok (raw, with_header a h)).
Proof.
  intros H1 H2 H3 H4. unfold header_reader. erewrite ibind_Ok by exact H1. unfold GetRTPHeader. cbn [fst snd]. rewrite H2.
  unfold mbind, im_bind, lift. rewrite H3. cbn. by rewrite H4.
Qed.

Lemma header_reader_again inner f a s s1 s2 raw a' h : inner a s = (s1, Ok (raw, with_header a' h)) → f h s1 = (s2, Ok tt) →
  header_reader inner f a s = (s2, Ok (raw, with_header a' h)).
Proof.
  intros H1 H2. unfold header_reader. erewrite ibind_Ok by exact H1. unfold mbind, im_bind. cbn. by rewrite H2.
Qed.

(** What the three interceptors hold of a stream, the packets still to come and
    the feedback written. *)
Record tracks (s : istate) (ssrc : Z) (pl ps : nat) (log : receiveLog) (st : receiverStream) (r : Recorder)
    (q : list (Z * slice)) (fb : list Packet) : Prop := {
  tr_log : gi_receiveLogs (g_core (ic_generator s)) !! ssrc = Some pl;
  tr_log_at : gi_logs (g_core (ic_generator s)) !! pl = Some log;
  tr_skip : gi_skipLastN (g_core (ic_generator s)) = 0;
  tr_stream : rc_streams (ic_receiver s) !! ssrc = Some ps;
  tr_stream_at : rc_objects (ic_receiver s) !! ps = Some st;
  tr_recorder : tw_recorder (ic_twcc s) = Some r;
  tr_generator_runs : wk_running (g_worker (ic_generator s)) = true;
  tr_receiver_runs : wk_running (rc_worker (ic_receiver s)) = true;
  tr_twcc_runs : wk_running (tw_worker (ic_twcc s)) = true;
  tr_ticker : receivedPackets r = [] ∨ tw_ticker (ic_twcc s) = true;
  tr_in : o_in (ic_out s) = q;
  tr_rtcp : o_rtcp (ic_out s) = fb;
}.

(** The parts of the state that packets do not change. *)
Definition same_setup (s s' : istate) : Prop :=
  g_ssrc (ic_generator s') = g_ssrc (ic_generator s) ∧ startTime (ic_twcc s') = startTime (ic_twcc s).

(** ** One packet *)

Section stream.
Context (info : StreamInfo) (pl ps : nat).
Abbreviation ssrc := (si_SSRC info).

Lemma net_read_spec s log st r t raw q fb a : tracks s ssrc pl ps log st r ((t, raw) :: q) fb → ∃ s',
  net_read a s = (s', Ok (raw, a)) ∧ tracks s' ssrc pl ps log st r q fb ∧ same_setup s s' ∧ o_now (ic_out s') = Z.max (o_now (ic_out s)) t.
Proof.
  intros []. unfold net_read. rewrite tr_in0. eexists. split; [done|]. split; [by split|]. done.
Qed.

Lemma generator_sees_spec s log log' st r q fb h : tracks s ssrc pl ps log st r q fb → log_add log (Rtp.SequenceNumber h) = Ok log' → ∃ s',
  generator_sees pl h s = (s', Ok tt) ∧ tracks s' ssrc pl ps log' st r q fb ∧ same_setup s s' ∧ ic_out s' = ic_out s.
Proof.
  intros [] Hl. unfold generator_sees, upd_generator, mbind, im_bind, lift, iget, iupd, Generator_read, object. cbn.
  rewrite tr_log_at0. cbn. rewrite Hl. cbn. eexists. split; [done|]. split; [|done]. split; try done.
  apply list_lookup_insert_eq. by eapply lookup_lt_Some.
Qed.

Lemma receiver_sees_spec s log st st' r q fb h : tracks s ssrc pl ps log st r q fb →
  receiver_processRTP st (o_now (ic_out s)) h = Ok st' → ∃ s',
  receiver_sees ps h s = (s', Ok tt) ∧ tracks s' ssrc pl ps log st' r q fb ∧ same_setup s s' ∧ ic_out s' = ic_out s.
Proof.
  intros [] Hp. unfold receiver_sees, upd_receiver, now, mbind, im_bind, lift, iget, iupd, object. cbn.
  rewrite tr_stream_at0. cbn. rewrite Hp. cbn. eexists. split; [done|]. split; [|done]. split; try done.
  apply list_lookup_insert_eq. by eapply lookup_lt_Some.
Qed.

Lemma twcc_sees_spec s log st r q fb h y : tracks s ssrc pl ps log st r q fb → is_u16 y →
  GetExtension h (hdrExtID info) = Some (be16 y) → ∃ s',
  twcc_sees info (hdrExtID info) h s = (s', Ok tt) ∧ same_setup s s' ∧ ic_out s' = ic_out s ∧
  tracks s' ssrc pl ps log st (Record_ r ssrc y (Z.quot (time_Sub (o_now (ic_out s)) (startTime (ic_twcc s))) 1000)) q fb.
Proof.
  intros [] Hy He. unfold twcc_sees. rewrite He. unfold be16, TransportCC_Unmarshal. rewrite word16_be16 by done.
  unfold send_packet, now, mbind, im_bind, lift, iget, iupd. rewrite tr_twcc_runs0, tr_recorder0.
  eexists. split; [done|]. split; [done|]. split; [done|]. split; try done. by right.
Qed.

(** ** A stream of packets *)

(** A packet that arrives: its header, and its numbers counted on past 2^16, the
    one of the stream and the one of the connection. *)
Record arrival := MkArrival { a_time : Z; a_raw : slice; a_header : Rtp.Header; a_seq : Z; a_tcc : Z }.

Definition readable (a : arrival) : Prop :=
  (∃ n, Rtp.Header_Unmarshal empty_header (a_raw a) = Ok (a_header a, n)) ∧
  Rtp.SequenceNumber (a_header a) = u16 (a_seq a) ∧
  GetExtension (a_header a) (hdrExtID info) = Some (be16 (u16 (a_tcc a))).

Definition queue (l : list arrival) : list (Z * slice) := map (λ a, (a_time a, a_raw a)) l.

Fixpoint timely (t : Z) (l : list arrival) : Prop :=
  match l with
  | [] => True
  | a :: l => t ≤ a_time a ∧ timely (a_time a) l
  end.

Fixpoint receive_all (st : receiverStream) (l : list arrival) : nres receiverStream :=
  match l with
  | [] => Ok st
  | a :: l => st ← receiver_processRTP st (a_time a) (a_header a); receive_all st l
  end.

(** The numbers of the connection with their times, in microseconds. *)
Definition tcc_arrivals (start : Z) (l : list arrival) : list (Z * Z) :=
  map (λ a, (a_tcc a, Z.quot (time_Sub (a_time a) start) 1000)) l.

(** The loop that reads a track. *)
Fixpoint read_loop (n : nat) (reader : Reader) : IM unit :=
  match n with
  | O => iret tt
  | S n => _ ← reader None; read_loop n reader
  end.

Context (Hnack : streamSupportNack (RTCPFeedback info) = true) (Hext : hdrExtID info ≠ 0).

Lemma read_one s log log' st st' r a q fb : tracks s ssrc pl ps log st r ((a_time a, a_raw a) :: q) fb →
  readable a → o_now (ic_out s) ≤ a_time a → log_add log (u16 (a_seq a)) = Ok log' →
  receiver_processRTP st (a_time a) (a_header a) = Ok st' → ∃ s',
  bound_reader info pl ps net_read None s = (s', Ok (a_raw a, with_header None (a_header a))) ∧ same_setup s s' ∧
  o_now (ic_out s') = a_time a ∧
  tracks s' ssrc pl ps log' st' (Record_ r ssrc (u16 (a_tcc a)) (Z.quot (time_Sub (a_time a) (startTime (ic_twcc s))) 1000)) q fb.
Proof.
  intros HT ((n & Hh) & Hseq & He) Ht Hlog Hst. unfold bound_reader. rewrite Hnack, (proj2 (Z.eqb_neq _ _) Hext).
  destruct (net_read_spec s log st r (a_time a) (a_raw a) q fb None HT) as (s1 & E1 & T1 & [K1 K1'] & N1).
  rewrite Z.max_r in N1 by done. rewrite <- Hseq in Hlog.
  destruct (generator_sees_spec s1 log log' st r q fb (a_header a) T1 Hlog) as (s2 & E2 & T2 & [K2 K2'] & O2).
  rewrite <- N1, <- O2 in Hst.
  destruct (receiver_sees_spec s2 log' st st' r q fb (a_header a) T2 Hst) as (s3 & E3 & T3 & [K3 K3'] & O3).
  destruct (twcc_sees_spec s3 log' st' r q fb (a_header a) (u16 (a_tcc a)) T3 ltac:(apply u16_range) He)
    as (s4 & E4 & [K4 K4'] & O4 & T4).
  rewrite O3, O2, N1, K3', K2', K1' in T4. exists s4. split; [|split; [|by rewrite O4, O3, O2]].
  - eapply header_reader_again; [|exact E4]. eapply header_reader_again; [|exact E3]. by eapply header_reader_first.
  - unfold same_setup. split; congruence.
Qed.

Lemma read_all l : ∀ s log log' st st' r fb, tracks s ssrc pl ps log st r (queue l) fb → Forall readable l → timely (o_now (ic_out s)) l →
  log_add_all log (map u16 (map a_seq l)) = Ok log' → receive_all st l = Ok st' → ∃ s',
  read_loop (length l) (bound_reader info pl ps net_read) s = (s', Ok tt) ∧ same_setup s s' ∧
  tracks s' ssrc pl ps log' st' (record_all r ssrc (tcc_arrivals (startTime (ic_twcc s)) l)) [] fb.
Proof.
  induction l as [|a l IH]; intros s log log' st st' r fb HT Hr Ho Hlog Hst; cbn [log_add_all receive_all map] in *.
  - simplify_eq. by exists s.
  - apply Forall_cons in Hr as [Ha Hr]. destruct Ho as [Ht Ho].
    apply bind_Ok_inv in Hlog as (log1 & Hlog1 & Hlog), Hst as (st1 & Hst1 & Hst).
    destruct (read_one s log log1 st st1 r a (queue l) fb HT Ha Ht Hlog1 Hst1) as (s1 & E1 & [K1 K1'] & N1 & T1).
    rewrite <- N1 in Ho. destruct (IH s1 _ _ _ _ _ _ T1 Hr Ho Hlog Hst) as (s' & E & [K K'] & T).
    cbn [length read_loop]. erewrite ibind_Ok by exact E1. exists s'. split; [done|]. rewrite K1' in T, K'.
    split; [split; congruence|]. exact T.
Qed.

(** ** The ticks *)

Lemma generator_tick_spec s log st r q fb l : tracks s ssrc pl ps log st r q fb →
  make_nack (g_ssrc (ic_generator s)) 0 ssrc log = Ok l → ∃ s',
  generator_tick [ssrc] s = (s', Ok tt) ∧ tracks s' ssrc pl ps log st r q (fb ++ map PTransportLayerNack l) ∧ same_setup s s' ∧
  o_now (ic_out s') = o_now (ic_out s).
Proof.
  intros [] Hl. unfold generator_tick, mbind, im_bind, iget, lift. rewrite tr_generator_runs0. unfold Generator_tick, object.
  rewrite tr_log0, tr_log_at0, bind_Ok, tr_skip0, Hl. cbn. rewrite app_nil_r. eexists. split; [done|]. split; [|done]. split; try done. cbn. by rewrite tr_rtcp0.
Qed.

Lemma receiver_tick_spec s log st st' r q fb rep : tracks s ssrc pl ps log st r q fb →
  receiver_generateReport st (o_now (ic_out s)) = Ok (st', rep) → ∃ s',
  receiver_tick [ssrc] s = (s', Ok tt) ∧ tracks s' ssrc pl ps log st' r q (fb ++ [PReceiverReport rep]) ∧ same_setup s s' ∧
  o_now (ic_out s') = o_now (ic_out s).
Proof.
  intros [] Hl. unfold receiver_tick, mbind, im_bind, iget. rewrite tr_receiver_runs0. cbn.
  unfold report_stream, mbind, im_bind, iget, lift, object. rewrite tr_stream0, tr_stream_at0, Hl. cbn. eexists. split; [done|]. split; [|done].
  split; try done; cbn; [apply list_lookup_insert_eq; by eapply lookup_lt_Some | by rewrite tr_rtcp0].
Qed.

Lemma twcc_tick_spec s log st r r' q fb l : tracks s ssrc pl ps log st r q fb → receivedPackets r ≠ [] →
  BuildFeedbackPacket r = Ok (r', l) → receivedPackets r' = [] → ∃ s',
  twcc_tick s = (s', Ok tt) ∧ tracks s' ssrc pl ps log st r' q (fb ++ map PTransportLayerCC l).
Proof.
  intros [] Hr Hl Hr'. destruct tr_ticker0 as [|Ht]; [done|]. unfold twcc_tick, mbind, im_bind, iget, lift.
  rewrite tr_recorder0, tr_twcc_runs0, Ht, Hl. cbn. eexists. split; [done|]. split; try done; [by left | cbn; by rewrite tr_rtcp0].
Qed.

(** ** A connection *)

(** A stream is bound and read, and then the tickers of the three interceptors
    fire. *)
Definition one_round (n : nat) : IM unit :=
  _ ← BindRTCPWriter chain net_write_rtcp;
  r ← BindRemoteStream chain info net_read;
  _ ← read_loop n r;
  _ ← generator_tick [ssrc];
  _ ← receiver_tick [ssrc];
  twcc_tick.

Definition fresh_log : receiveLog := MkReceiveLog (replicate 8 0) 512 0 false 0.

Lemma bind_writer_spec t q : ∃ s s1,
  new_interceptors t q = Ok s ∧ BindRTCPWriter chain net_write_rtcp s = (s1, Ok net_write_rtcp) ∧
  ic_generator s1 = MkGeneratorState (MkGenerator 512 0 ∅ []) (rand 0) (MkWorker false true) ∧
  ic_receiver s1 = MkReceiverState ∅ [] (MkWorker false true) ∧
  ic_twcc s1 = MkTwccState t (Some (NewRecorder (rand 1))) false (MkWorker false true) ∧
  ic_out s1 = MkOutside t 2 q [] [].
Proof.
  eexists _, _. split; [reflexivity|]. unfold_chain. cbn. split; [reflexivity|]. done.
Qed.

Lemma bind_remote_spec s log : let g := g_core (ic_generator s) in let r := ic_receiver s in
  newReceiveLog (gi_size g) = Ok log → ∃ s',
  BindRemoteStream chain info net_read s = (s', Ok (bound_reader info (length (gi_logs g)) (length (rc_objects r)) net_read)) ∧
  ic_generator s' = MkGeneratorState (MkGenerator (gi_size g) (gi_skipLastN g) (<[ssrc := length (gi_logs g)]> (gi_receiveLogs g))
    (gi_logs g ++ [log])) (g_ssrc (ic_generator s)) (g_worker (ic_generator s)) ∧
  ic_receiver s' = MkReceiverState (<[ssrc := length (rc_objects r)]> (rc_streams r))
    (rc_objects r ++ [newReceiverStream (rand (o_rand (ic_out s))) ssrc (si_ClockRate info)]) (rc_worker r) ∧
  ic_twcc s' = ic_twcc s ∧ o_now (ic_out s') = o_now (ic_out s) ∧ o_in (ic_out s') = o_in (ic_out s) ∧ o_rtcp (ic_out s') = o_rtcp (ic_out s).
Proof.
  intros g r Hlog. unfold bound_reader. unfold_chain. unfold Generator_BindRemoteStream.
  rewrite Hnack, (proj2 (Z.eqb_neq _ _) Hext). cbn. fold g. rewrite Hlog. cbn. eexists. split; [reflexivity|]. done.
Qed.

Lemma open_spec t q : ∃ s s1 s2,
  new_interceptors t q = Ok s ∧ BindRTCPWriter chain net_write_rtcp s = (s1, Ok net_write_rtcp) ∧
  BindRemoteStream chain info net_read s1 = (s2, Ok (bound_reader info 0 0 net_read)) ∧
  o_now (ic_out s2) = t ∧ startTime (ic_twcc s2) = t ∧ g_ssrc (ic_generator s2) = rand 0 ∧
  tracks s2 ssrc 0 0 fresh_log (newReceiverStream (rand 2) ssrc (si_ClockRate info)) (NewRecorder (rand 1)) q [].
Proof.
  destruct (bind_writer_spec t q) as (s & s1 & E & E1 & G1 & R1 & T1 & O1).
  destruct (bind_remote_spec s1 fresh_log) as (s2 & E2 & G2 & R2 & T2 & N2 & I2 & F2); [by rewrite G1|].
  exists s, s1, s2. rewrite G1, R1, O1 in *. cbn in *. split_and!; try done; [by rewrite T2, T1 | by rewrite G2 |].
  split; rewrite ?G2, ?R2, ?T2, ?T1; try done; cbn; [apply lookup_insert_eq.. | by left].
Qed.

End stream.

(** ** What the receiver stream knows after the packets *)

Fixpoint in_steps (a : account) (l : list Z) : bool :=
  match l with
  | [] => true
  | x :: l => in_step a x && in_steps (arrive a x) l
  end.

Lemma arrive_all l : ∀ a, let b := foldl arrive a l in
  ac_highest b = foldl Z.max (ac_highest a) l ∧ ac_reported b = ac_reported a ∧ ac_lost b = ac_lost a ∧
  ∀ y, y ∈ ac_arrived b ↔ y ∈ ac_arrived a ∨ y ∈ l.
Proof.
  induction l as [|x l IH]; intros a; cbn [foldl]; [split_and!; try done; intros y; rewrite elem_of_nil; tauto|].
  destruct (IH (arrive a x)) as (H1 & H2 & H3 & H4). split_and!; [done..|]. intros y. rewrite H4.
  cbn [arrive ac_arrived]. rewrite !elem_of_cons. tauto.
Qed.

Lemma in_steps_arrivals l : ∀ a, in_steps a l = true → arrivals 512 (ac_highest a) l.
Proof.
  induction l as [|x l IH]; intros a Hl; cbn [in_steps arrivals] in *; [done|].
  apply andb_true_iff in Hl as [(_ & Hx & _)%in_step_spec Hl]. split; [lia|]. exact (IH (arrive a x) Hl).
Qed.

Lemma receive_all_rel info l : ∀ st a, stream_rel st a → Forall (readable info) l → in_steps a (map a_seq l) = true → ∃ st',
  receive_all st l = Ok st' ∧ stream_rel st' (foldl arrive a (map a_seq l)) ∧
  rs_ssrc st' = rs_ssrc st ∧ receiverSSRC st' = receiverSSRC st ∧ lastSenderReport st' = lastSenderReport st.
Proof.
  induction l as [|p l IH]; intros st a HR Hr Hl; cbn [receive_all map foldl in_steps] in *; [by exists st|].
  apply Forall_cons in Hr as [(_ & Hseq & _) Hr]. apply andb_true_iff in Hl as [Hx Hl].
  destruct (processRTP_rel st a (a_time p) (a_header p) (a_seq p) HR Hx Hseq) as (st1 & E1 & HR1).
  destruct (processRTP_keeps _ _ _ _ E1) as (K1 & K2 & K3). rewrite E1, bind_Ok.
  destruct (IH st1 _ HR1 Hr Hl) as (st' & E & HR' & K1' & K2' & K3'). exists st'. split_and!; [done | done | congruence..].
Qed.

(** The numbers from [F] on, below [E], that did not arrive: what the log and
    the account of the stream call missing is the same. *)
Definition lost (F E : Z) (arrived : list Z) : list Z := filter (λ y, y ∉ arrived) (seqZ F (E - F)).

Lemma foldl_max_ge l : ∀ x, x ≤ foldl Z.max x l.
Proof. induction l as [|y l IH]; intros x; cbn [foldl]; [lia | specialize (IH (Z.max x y)); lia]. Qed.

Lemma foldl_max_in l : ∀ x, foldl Z.max x l ∈ x :: l.
Proof.
  induction l as [|y l IH]; intros x; cbn [foldl]; [by left|]. specialize (IH (Z.max x y)).
  apply elem_of_cons in IH as [->|IH]; [|by right; right]. destruct (Z.max_spec x y) as [[_ ->]|[_ ->]]; [by right; left | by left].
Qed.

Lemma lost_missing F l : let E := foldl Z.max F l in E - F ≤ 127 → missing 512 F E 0 (F :: l) = lost F E (F :: l).
Proof.
  intros E HE. pose proof (foldl_max_ge l F) as Hge. fold E in Hge. unfold missing, lost. rewrite Z.max_l by lia.
  rewrite Z.sub_0_r. destruct (decide (E = F)) as [->|Hne]; [by rewrite Z.sub_diag|].
  replace (seqZ F (E - F)) with (F :: seqZ (F + 1) (E - F - 1)) by (symmetry; rewrite seqZ_cons by lia; f_equal; f_equal; lia).
  rewrite filter_cons_False by (intros Hn; apply Hn; by left).
  replace (seqZ (F + 1) (E - F)) with (seqZ (F + 1) (E - F - 1) ++ [E]).
  2: { replace (E - F) with (E - F - 1 + 1) at 2 by lia. rewrite seqZ_app by lia. f_equal. change (seqZ ?a 1) with [a]. f_equal. lia. }
  rewrite filter_app, (filter_cons_False _ E), app_nil_r; [done|]. intros Hn. apply Hn, foldl_max_in.
Qed.

Lemma lost_since F l : let a := foldl arrive (first_account F) l in missing_since a = lost F (foldl Z.max F l) (F :: l).
Proof.
  intros a. destruct (arrive_all l (first_account F)) as (H1 & H2 & _ & H4). fold a in H1, H2, H4.
  unfold missing_since, lost. rewrite H1, H2. cbn [first_account ac_highest ac_reported].
  replace (F - 1 + 1) with F by lia. replace (foldl Z.max F l - (F - 1) - 1) with (foldl Z.max F l - F) by lia.
  apply filter_ext_in. intros y _. rewrite H4. cbn [first_account ac_arrived]. by rewrite list_elem_of_singleton, elem_of_cons.
Qed.
(** The NACKs ask for the numbers [gone] and no other. *)
Definition asks_for (nacks : list TransportLayerNack) (ssrc : Z) (gone : list Z) : Prop :=
  match gone with
  | [] => nacks = []
  | _ => ∃ n, nacks = [n] ∧ tln_MediaSSRC n = ssrc ∧ nack_seqs (Nacks n) = Ok (map u16 gone)
  end.

(** The state once the packets were read. *)
Lemma reads_spec info t first rest :
  let l := first :: rest in let F := a_seq first in let E := foldl Z.max F (map a_seq rest) in
  streamSupportNack (RTCPFeedback info) = true → hdrExtID info ≠ 0 → is_u32 (si_SSRC info) → (∀ n, is_u32 (rand n)) →
  Forall (readable info) l → timely t l →
  is_u16 F → in_steps (first_account F) (map a_seq rest) = true → E - F ≤ 127 →
  ∃ s s1 s2 s3 log st nacks, new_interceptors t (queue l) = Ok s ∧ BindRTCPWriter chain net_write_rtcp s = (s1, Ok net_write_rtcp) ∧
    BindRemoteStream chain info net_read s1 = (s2, Ok (bound_reader info 0 0 net_read)) ∧
    read_loop (length l) (bound_reader info 0 0 net_read) s2 = (s3, Ok tt) ∧
    tracks s3 (si_SSRC info) 0 0 log st (record_all (NewRecorder (rand 1)) (si_SSRC info) (tcc_arrivals t l)) [] [] ∧
    make_nack (g_ssrc (ic_generator s3)) 0 (si_SSRC info) log = Ok nacks ∧ asks_for nacks (si_SSRC info) (lost F E (map a_seq l)) ∧
    stream_rel st (foldl arrive (first_account F) (map a_seq rest)) ∧
    stream_fits st ∧ rs_ssrc st = si_SSRC info ∧ receiverSSRC st = rand 2.
Proof.
  intros l F E Hnack Hext Hssrc Hrand Hread Hord HF Hsteps HE.
  destruct (open_spec info Hnack Hext t (queue l)) as (s & s1 & s2 & E0 & E1 & E2 & N2 & T2 & G2 & HT2).
  destruct (log_nack 512 fresh_log F (map a_seq rest) 0 (rand 0) (si_SSRC info)) as (log & Elog & Hn);
    [reflexivity | lia | lia | by apply (in_steps_arrivals _ (first_account F)) | done | done |].
  pose proof Hread as [(_ & Hseq & _) Hread']%Forall_cons.
  destruct (first_rel (rand 2) (si_SSRC info) (si_ClockRate info) (a_time first) (a_header first) F) as (st1 & Est1 & HR1 & K1 & K2);
    [exact HF | rewrite Hseq; by apply u16_small |].
  destruct (receive_all_rel info rest st1 _ HR1 Hread' Hsteps) as (st & Est & HR & K1' & K2' & K3').
  destruct (processRTP_keeps _ _ _ _ Est1) as (_ & _ & K3).
  destruct (read_all info 0 0 Hnack Hext l s2 fresh_log log (newReceiverStream (rand 2) (si_SSRC info) (si_ClockRate info)) st _ _ HT2 Hread)
    as (s3 & E3 & [G3 _] & HT3); [by rewrite N2 | exact Elog | cbn [receive_all l]; by rewrite Est1, bind_Ok|].
  rewrite T2 in HT3. rewrite lost_missing in Hn by exact HE. unfold asks_for. change (map a_seq l) with (F :: map a_seq rest). fold E in Hn.
  assert (∃ nacks, make_nack (rand 0) 0 (si_SSRC info) log = Ok nacks ∧ asks_for nacks (si_SSRC info) (lost F E (map a_seq l))) as (nk & Enk & Hnk).
  { unfold asks_for. change (map a_seq l) with (F :: map a_seq rest). destruct (lost _ _ _) as [|x g]; [by exists []|].
    destruct Hn as (n & -> & H1 & H2 & _). by exists [n]; split; [|exists n]. }
  exists s, s1, s2, s3, log, st, nk. rewrite G3, G2, K1', K2', K1. split_and!; try done.
  unfold stream_fits. rewrite K1', K1, K2', K2, K3', K3. by split_and!.
Qed.

(** C13. The three kinds of feedback a connection sends about a stream agree with the
    packets that arrived and so with each other.  A stream with NACK and the
    transport-wide extension is bound in the chain of the default interceptors
    and its packets, at least two and each with a transport-wide number, are read
    in the order in which they arrive; then the tickers fire.  Every read
    succeeds, and what is written is: a NACK for exactly the numbers that were
    lost, none if there are none; a receiver report with the highest number, the
    count of the lost ones and their share; and a feedback that lists exactly the
    numbers of the connection that arrived.  The numbers of the round span at
    most 128, and none is late from before a wrap-around; the transport-wide ones
    span less than 16000 and keep to their cycle, and neighbours arrive less than
    8.19 seconds apart. *)
Theorem interceptors_agree info t first rest listing :
  let l := first :: rest in let F := a_seq first in let E := foldl Z.max F (map a_seq rest) in
  let gone := lost F E (map a_seq l) in
  streamSupportNack (RTCPFeedback info) = true → hdrExtID info ≠ 0 → is_u32 (si_SSRC info) → (∀ n, is_u32 (rand n)) →
  Forall (readable info) l → timely t l →
  is_u16 F → in_steps (first_account F) (map a_seq rest) = true → E - F ≤ 127 →
  recognized 0 (tcc_arrivals t l) = true → sorted_listing (latest (tcc_arrivals t l)) listing → one_feedback listing →
  ∃ s s' nacks r cc, new_interceptors t (queue l) = Ok s ∧ one_round info (length l) s = (s', Ok tt) ∧
    o_rtcp (ic_out s') = map PTransportLayerNack nacks ++ [PReceiverReport (MkReceiverReport (rand 2) [r] []); PTransportLayerCC cc] ∧
    asks_for nacks (si_SSRC info) gone ∧
    rr_SSRC r = si_SSRC info ∧ LastSequenceNumber r = E ∧ TotalLost r = Z.of_nat (length gone) ∧
    FractionLost r = Z.of_nat (length gone) * 256 / (E - F + 1) ∧
    tcc_MediaSSRC cc = si_SSRC info ∧ map fst (reported (tcc_read cc)) = map (λ p, u16 (pi_sequenceNumber p)) listing.
Proof.
  intros l F E gone Hnack Hext Hssrc Hrand Hread Hord HF Hsteps HE Hrec Hlist Hone.
  destruct (reads_spec info t first rest Hnack Hext Hssrc Hrand Hread Hord HF Hsteps HE)
    as (s & s1 & s2 & s3 & log & st & nk & E0 & E1 & E2 & E3 & HT3 & Enk & Hnk & HR & Hfits & K1 & K2).
  destruct (generator_tick_spec info 0 0 s3 log st _ _ _ nk HT3 Enk) as (s4 & E4 & HT4 & _ & _).
  destruct (arrive_all (map a_seq rest) (first_account F)) as (A1 & A2 & A3 & _). fold F in HR. set (acc := foldl arrive _ _) in *.
  cbn [first_account ac_highest ac_reported ac_lost] in A1, A2, A3. fold E in A1.
  pose proof (foldl_max_ge (map a_seq rest) F) as HFE. fold E in HFE. unfold is_u16 in HF.
  destruct (report_rel st acc (o_now (ic_out s4)) HR) as (st' & rep & Erep & _ & (r & -> & R1 & R2 & R3 & R4) & _);
    [lia | lia | done |].
  destruct (receiver_tick_spec info 0 0 s4 log st st' _ _ _ _ HT4 Erep) as (s5 & E5 & HT5 & _ & _).
  destruct (record_build (rand 1) (si_SSRC info) (tcc_arrivals t l) listing (Hrand 1%nat) Hssrc Hrec Hlist Hone)
    as (cc & Ecc & Elist & _ & _ & C2 & C3 & _).
  assert (listing ≠ []) as Hne by (by destruct listing). rewrite <- Elist in Hne.
  destruct (twcc_tick_spec info 0 0 s5 log st' _ _ _ _ _ HT5 Hne Ecc eq_refl) as (s6 & E6 & HT6).
  exists s, s6, nk, r, cc. split; [done|]. split.
  { unfold one_round. erewrite ibind_Ok by exact E1. erewrite ibind_Ok by exact E2. erewrite ibind_Ok by exact E3.
    erewrite ibind_Ok by exact E4. erewrite ibind_Ok by exact E5. exact E6. }
  pose proof (lost_since F (map a_seq rest)) as Hls. fold acc in Hls. change (missing_since acc = gone) in Hls.
  split; [rewrite (tr_rtcp _ _ _ _ _ _ _ _ _ HT6), K2, <- app_assoc; done|]. split; [done|].
  rewrite R1, R2, R3, K1, A1. cbn [after_report ac_lost]. rewrite Hls, A3, C2, C3. split_and!; [done | | | | done | done].
  - apply u32_small. unfold is_u32. lia.
  - pose proof (missing_few acc ltac:(lia)) as Hfew. rewrite Hls in Hfew. lia.
  - rewrite R4, Hls, A1, A2 by lia. f_equal. lia.
Qed.
End chain.

(** ** A sample *)

(** A packet of the stream 7 with the two numbers; the extension has the ID 3. *)
Definition sample_raw (x y ms : Z) : list Z :=
  [0x90; 96] ++ be16 x ++ be32 (90 * ms) ++ be32 7 ++ [0xBE; 0xDE; 0; 1; 0x31] ++ be16 y ++ [0].
Definition sample_arrival (x y ms : Z) : arrival :=
  let raw := of_bytes (sample_raw (u16 x) (u16 y) ms) in
  MkArrival (ms * 1000000) raw
    (match Rtp.Header_Unmarshal empty_header raw with Ok r => r.1 | _ => empty_header end) x y.

Definition sample_info : StreamInfo := MkStreamInfo 7 90000 [(transportCCURI, 3)] [("nack"%string, String.EmptyString)].
Definition sample_rest : list arrival := [sample_arrival 65535 11 20; sample_arrival 65538 14 60; sample_arrival 65537 13 61].

Lemma interceptors_agree_witness : ∃ s s' n r cc,
  new_interceptors 0 (queue (sample_arrival 65534 10 0 :: sample_rest)) = Ok s ∧
  one_round (H:=zero_conversion) (λ _, 5) sample_info 4 s = (s', Ok tt) ∧
  o_rtcp (ic_out s') = [PTransportLayerNack n; PReceiverReport (MkReceiverReport 5 [r] []); PTransportLayerCC cc] ∧
  nack_seqs (Nacks n) = Ok [0] ∧ TotalLost r = 1 ∧ FractionLost r = 51 ∧ map fst (reported (tcc_read cc)) = [10; 11; 13; 14].
Proof.
  destruct (@interceptors_agree zero_conversion (λ _, 5) sample_info 0 (sample_arrival 65534 10 0) sample_rest
    [MkPktInfo 10 0; MkPktInfo 11 20000; MkPktInfo 13 61000; MkPktInfo 14 60000])
    as (s & s' & nk & r & cc & E1 & E2 & E3 & H1 & _ & _ & H2 & H3 & _ & H4); try reflexivity.
  - vm_compute. done.
  - unfold is_u32. simpl. lia.
  - intros _. unfold is_u32. lia.
  - repeat constructor; try (eexists; vm_compute; reflexivity).
  - simpl. lia.
  - unfold is_u16. simpl. lia.
  - simpl. lia.
  - apply check_listing; [repeat constructor; unfold before; simpl; lia | vm_compute; reflexivity | vm_compute; reflexivity].
  - split; [simpl; lia|]. split; [repeat constructor; unfold is_time; simpl; lia|]. split; [repeat constructor; simpl; lia | reflexivity].
  - destruct H1 as (n & -> & _ & H1). exists s, s', n, r, cc. split_and!; [exact E1 | exact E2 | exact E3 | exact H1 | exact H2 | exact H3 | exact H4].
Defined.

(** ** Errors and faults *)

Section faults.
Context `{FloatConversion} (rand : nat → Z).

(** A packet whose header cannot be read is an error of the read and changes
    nothing in the interceptors. *)
Lemma malformed_packet_ignored info pl ps s t raw q e : o_in (ic_out s) = (t, raw) :: q →
  Rtp.Header_Unmarshal empty_header raw = Err e → ∃ o, bound_reader info pl ps net_read None s = (set_out o s, Err (ErrRtp e)).
Proof.
  intros Hq He. unfold bound_reader. set (s1 := set_out (MkOutside (Z.max (o_now (ic_out s)) t) (o_rand (ic_out s)) q (o_sent (ic_out s)) (o_rtcp (ic_out s))) s).
  assert (net_read None s = (s1, Ok (raw, None))) as Hr by (unfold net_read; by rewrite Hq).
  assert (∀ f, header_reader net_read f None s = (s1, Err (ErrRtp e))) as Hf.
  { intros f. unfold header_reader. erewrite ibind_Ok by exact Hr. unfold GetRTPHeader, mbind, im_bind, lift. cbn. by rewrite He. }
  assert (∀ r f, r None s = (s1, Err (ErrRtp e)) → header_reader r f None s = (s1, Err (ErrRtp e))) as Hg.
  { intros r f Hrr. unfold header_reader. by erewrite ibind_Err by exact Hrr. }
  eexists. destruct (streamSupportNack _), (hdrExtID info =? 0); eauto.
Qed.

(** Removing a remote stream cleans up nothing: the stream goes on being
    reported and its missing numbers being asked for. *)
Lemma removed_stream_stays info s : UnbindRemoteStream (default_chain rand) info s = (s, Ok tt).
Proof. reflexivity. Qed.

(** Removing a local stream, instead, cleans up the remote stream of the same
    SSRC. *)
Lemma removed_local_stream info s : ∃ s', UnbindLocalStream (default_chain rand) info s = (s', Ok tt) ∧
  gi_receiveLogs (g_core (ic_generator s')) = delete (si_SSRC info) (gi_receiveLogs (g_core (ic_generator s))) ∧
  rc_streams (ic_receiver s') = delete (si_SSRC info) (rc_streams (ic_receiver s)) ∧
  sn_streams (ic_sender s') = sn_streams (ic_sender s).
Proof. unfold_chain. cbn. eexists. split; [reflexivity|]. done. Qed.

(** Once the chain is closed, the read of a packet of the congestion control
    never returns: the goroutine that takes packets from the channel has
    ended. *)
Lemma read_after_close_hangs info pl ps s log log' st st' r a q fb : tracks s (si_SSRC info) pl ps log st r ((a_time a, a_raw a) :: q) fb →
  streamSupportNack (RTCPFeedback info) = true → hdrExtID info ≠ 0 → readable info a → o_now (ic_out s) ≤ a_time a →
  log_add log (u16 (a_seq a)) = Ok log' → receiver_processRTP st (a_time a) (a_header a) = Ok st' →
  ∃ s1 s2, Close (default_chain rand) s = (s1, Ok tt) ∧ bound_reader info pl ps net_read None s1 = (s2, Diverge).
Proof.
  intros [] Hnack Hext ((n & Hh) & Hseq & He) Ht Hlog Hst. unfold_chain. cbn. eexists _, _. split; [reflexivity|].
  unfold bound_reader. rewrite Hnack, (proj2 (Z.eqb_neq _ _) Hext).
  unfold header_reader, net_read, GetRTPHeader, generator_sees, receiver_sees, twcc_sees, send_packet, now.
  cbv [upd_generator upd_receiver mbind im_bind iret iget iupd lift Generator_read object]. cbn.
  rewrite tr_in0. cbn. rewrite Hh. cbn. rewrite tr_log_at0. cbn. rewrite Hseq, Hlog. cbn. rewrite tr_stream_at0, Z.max_r, Hst by done. cbn.
  rewrite He. unfold TransportCC_Unmarshal, be16. cbn. reflexivity.
Qed.
End faults.
