(* ===== verification/InterceptorsSend.v ===== *)
(** * The interceptors of a peer connection: the sending side

    The packets of a stream that is sent go through the sender reports, which
    count them, and the NACK responder, which keeps them, to the connection; a
    NACK that is received makes the responder send again what it asks for. *)

From stdpp Require Import gmap.
From S2P Require Import Prelude GoLib Bytes Float64 Rtp Rtcp RtcpFeedback RtcpPacket RtcpCodec Nack NackProps Resend Report Interceptors InterceptorsProps.

Section sending.
Context `{FloatConversion} (rand : nat → Z) (info : StreamInfo).
Abbreviation chain := (default_chain rand).
Abbreviation ssrc := (si_SSRC info).

(** The writer a stream is given: the sender reports, whose stream is [ps], are
    the outermost. *)
Definition bound_writer (pb ps : nat) (base : RTPWriter) : RTPWriter :=
  sender_writer ps (if streamSupportNack (RTCPFeedback info) then responder_writer pb base else base).

(** What the two interceptors hold of a stream: the buffer with the packets it
    points to, the counters; and what has happened outside. *)
Record sends (s : istate) (pb ps : nat) (st : sendBuffer * pheap) (ob : senderStream) (q : list (Z * slice))
    (out : list (Rtp.Header * list Z)) (fb : list Packet) : Prop := {
  sd_stream : ri_streams (rp_core (ic_responder s)) !! ssrc = Some (MkLocalStream pb);
  sd_buffer : ri_buffers (rp_core (ic_responder s)) !! pb = Some st.1;
  sd_heap : ri_heap (rp_core (ic_responder s)) = st.2;
  sd_pending : rp_pending (ic_responder s) = [];
  sd_object : sn_streams (ic_sender s) !! ssrc = Some ps;
  sd_object_at : sn_objects (ic_sender s) !! ps = Some ob;
  sd_runs : wk_running (sn_worker (ic_sender s)) = true;
  sd_in : o_in (ic_out s) = q;
  sd_sent : o_sent (ic_out s) = out;
  sd_rtcp : o_rtcp (ic_out s) = fb;
}.

Context (Hnack : streamSupportNack (RTCPFeedback info) = true) (pb ps : nat).

Lemma write_one s st st' ob q out fb h payload : sends s pb ps st ob q out fb →
  local_write st h payload = Ok (st', (h, payload)) → ∃ s' n, bound_writer pb ps net_write h payload s = (s', Ok n) ∧
  sends s' pb ps st' (sender_processRTP ob (o_now (ic_out s)) h payload) q (out ++ [(h, payload)]) fb.
Proof.
  intros [] Hw. unfold bound_writer. rewrite Hnack. destruct st as [b hp]. cbn [fst snd] in *.
  cbv [sender_writer responder_writer now upd_responder Responder_write mbind im_bind lift iget iupd iret object]. cbn.
  rewrite sd_object_at0. cbn. rewrite sd_buffer0. cbn. rewrite sd_heap0, Hw. cbn.
  eexists _, _. split; [reflexivity|].
  split; try done; cbn; [apply list_lookup_insert_eq; by eapply lookup_lt_Some.. | by rewrite sd_sent0].
Qed.
(** The counters of a stream after [n] packets with [bytes] bytes of payload. *)
Definition counts (ob : senderStream) (n bytes : Z) : Prop :=
  ss_ssrc ob = ssrc ∧ ss_packetCount ob = u32 n ∧ ss_octetCount ob = u32 bytes.

Definition payload_bytes (l : list (Rtp.Header * list Z)) : Z := foldr (λ p n, Z.of_nat (length p.2) + n) 0 l.

Lemma counts_packet ob n bytes now h payload : counts ob n bytes →
  counts (sender_processRTP ob now h payload) (n + 1) (bytes + Z.of_nat (length payload)).
Proof.
  intros (H1 & H2 & H3). split_and!; cbn [sender_processRTP ss_ssrc ss_packetCount ss_octetCount]; [done | |];
    rewrite ?H2, ?H3; unfold u32; [by rewrite Zplus_mod_idemp_l | by rewrite Zplus_mod_idemp_l, Zplus_mod_idemp_r].
Qed.

Fixpoint write_loop (w : RTPWriter) (l : list (Rtp.Header * list Z)) : IM unit :=
  match l with
  | [] => iret tt
  | (h, payload) :: l => _ ← w h payload; write_loop w l
  end.

Lemma write_many l : ∀ s st st' ob q out fb n bytes, sends s pb ps st ob q out fb → write_all st l = Ok (st', l) →
  counts ob n bytes → ∃ s' ob', write_loop (bound_writer pb ps net_write) l s = (s', Ok tt) ∧
  sends s' pb ps st' ob' q (out ++ l) fb ∧ counts ob' (n + Z.of_nat (length l)) (bytes + payload_bytes l).
Proof.
  induction l as [|[h payload] l IH]; intros s st st' ob q out fb n bytes HS Hw Hc; cbn [write_all write_loop] in *.
  - injection Hw as <-. exists s, ob. rewrite app_nil_r, !Z.add_0_r. done.
  - apply bind_Ok_inv in Hw as ([st1 p] & Hw1 & ([st2 r] & Hw2 & Hw)%bind_Ok_inv). simplify_eq/=.
    destruct (write_one s st st1 ob q out fb h payload HS Hw1) as (s1 & k & E1 & HS1).
    destruct (IH s1 _ _ _ _ _ _ _ _ HS1 Hw2 (counts_packet ob n bytes _ h payload Hc)) as (s' & ob' & E & HS' & Hc').
    exists s', ob'. erewrite ibind_Ok by exact E1. split; [done|]. rewrite <- app_assoc in HS'. split; [done|].
    cbn [length payload_bytes foldr snd]. fold (payload_bytes l). rewrite Nat2Z.inj_succ.
    by replace (n + Z.succ (Z.of_nat (length l))) with (n + 1 + Z.of_nat (length l)) by lia; rewrite Z.add_assoc.
Qed.

(** A datagram with a NACK leaves it for a goroutine; the receiver reports look
    at it, too, and find no sender report. *)
Definition bound_rtcp_reader (base : Reader) : Reader :=
  packets_reader (packets_reader base (each resend_later)) (each see_sender_report).

Lemma bind_rtcp_spec base s : BindRTCPReader chain base s = (s, Ok (bound_rtcp_reader base)).
Proof. reflexivity. Qed.

Lemma write_each w : ∀ s, each (write_logged net_write) w s =
  (set_out (let o := ic_out s in MkOutside (o_now o) (o_rand o) (o_in o) (o_sent o ++ w) (o_rtcp o)) s, Ok tt).
Proof.
  induction w as [|[h payload] w IH]; intros s; cbn [each].
  - rewrite app_nil_r. by destruct s as [? ? ? ? ? []].
  - unfold mbind, im_bind. cbn. rewrite IH. cbn. by rewrite <- app_assoc.
Qed.

Lemma answer_nack s st ob t raw out fb n ys w : sends s pb ps st ob [(t, raw)] out fb →
  Unmarshal raw = Ok [PTransportLayerNack n] → tln_MediaSSRC n = ssrc → nack_seqs (Nacks n) = Ok (map u16 ys) →
  resend_seqs st (map u16 ys) = Ok (st, w) → ∃ s1 r s2, bound_rtcp_reader net_read None s = (s1, Ok r) ∧
  run_resend s1 = (s2, Ok tt) ∧ sends s2 pb ps st ob [] (out ++ w) fb.
Proof.
  intros [] Hu Hm Hn Hr. destruct st as [b hp]. cbn [fst snd] in *.
  cbv [bound_rtcp_reader packets_reader net_read GetRTCPPackets each resend_later see_sender_report mbind im_bind iret iget iupd lift].
  rewrite sd_in0. cbn. rewrite Hu. cbn. eexists _, _, _. split; [reflexivity|].
  cbv [run_resend upd_responder mbind im_bind iret iget iupd lift]. cbn. rewrite sd_pending0. cbn.
  unfold resendPackets, object. rewrite Hm, sd_stream0, Hn, bind_Ok. cbn [ls_sendBuffer]. rewrite sd_buffer0, bind_Ok, sd_heap0, Hr, bind_Ok.
  cbn [fst snd]. rewrite write_each. split; [reflexivity|]. split; try done; cbn; [|by rewrite sd_sent0].
  apply list_lookup_insert_eq. by eapply lookup_lt_Some.
Qed.

Lemma sender_tick_spec s st ob q out fb : sends s pb ps st ob q out fb → ∃ s',
  sender_tick [ssrc] s = (s', Ok tt) ∧ sends s' pb ps st ob q out (fb ++ [PSenderReport (sender_generateReport ob (o_now (ic_out s)))]).
Proof.
  intros []. cbv [sender_tick now each mbind im_bind iret iget lift object]. rewrite sd_runs0. cbn. rewrite sd_object0, sd_object_at0. cbn.
  eexists. split; [reflexivity|]. split; try done. cbn. by rewrite sd_rtcp0.
Qed.

(** ** A connection *)

(** A stream is bound and its packets are written, a datagram is read, the
    goroutine of the NACK in it runs, and the ticker of the sender reports
    fires. *)
Definition send_round (l : list (Rtp.Header * list Z)) : IM unit :=
  _ ← BindRTCPWriter chain net_write_rtcp;
  rtcp ← BindRTCPReader chain net_read;
  w ← BindLocalStream chain info net_write;
  _ ← write_loop w l;
  _ ← rtcp None;
  _ ← run_resend;
  sender_tick [ssrc].

Definition fresh_buffer : sendBuffer := MkSendBuffer (replicate 1024 None) 1024 0 false.
End sending.

Section sending_round.
Context `{FloatConversion} (rand : nat → Z) (info : StreamInfo) (Hnack : streamSupportNack (RTCPFeedback info) = true).
Abbreviation chain := (default_chain rand).

Lemma open_writer_spec t q : ∃ s s1 s2,
  new_interceptors t q = Ok s ∧ BindRTCPWriter chain net_write_rtcp s = (s1, Ok net_write_rtcp) ∧
  BindLocalStream chain info net_write s1 = (s2, Ok (bound_writer info 0 0 net_write)) ∧
  sends info s2 0 0 (fresh_buffer, ∅) (newSenderStream (si_SSRC info) (si_ClockRate info)) q [] [].
Proof.
  eexists _, _, _. split; [reflexivity|]. unfold bound_writer. unfold_chain. cbn. rewrite Hnack. cbn.
  split; [reflexivity|]. split; [reflexivity|]. split; try done; cbn; apply lookup_insert_eq.
Qed.

End sending_round.

