(* ===== verification/Ice.v ===== *)
(** * ICE candidates

    pion/ice: candidates, their text form, priorities and those of pairs
    (candidate_base.go, the four kinds of candidates, candidatetype.go,
    networktype.go, tcptype.go, candidatepair.go), and pion/webrtc
    icecandidate.go, icecandidatetype.go and iceprotocol.go, through which
    candidates come in and go out.  The random ids of candidates, which nothing
    here depends on, and their sockets are left out. *)

From Stdlib Require Import Ascii.
From S2P Require Import Prelude GoLib Bytes Sdp.

(** ** IP addresses and checksums

    net.ParseIP and To4, as of Go 1.19, and crc32.ChecksumIEEE.  An IP address is
    the list of its 16 bytes. *)

(** *** Numbers at the head of a string *)

Definition big : Z := 0xFFFFFF.

Definition hex_digit_value (c : ascii) : option Z :=
  if is_digit c then Some (byte c - 48)
  else if (97 <=? byte c) && (byte c <=? 102) then Some (byte c - 87)
  else if (65 <=? byte c) && (byte c <=? 70) then Some (byte c - 55)
  else None.
Definition dec_digit_value (c : ascii) : option Z := if is_digit c then Some (byte c - 48) else None.

(** dtoi and xtoi: the number, how many characters it has, what is left. *)
Fixpoint stoi (base : Z) (digit : ascii → option Z) (n : Z) (i : nat) (s : string) : option (Z * nat * string) :=
  let fin := if decide (i = O) then None else Some (n, i, s) in
  match s with
  | EmptyString => fin
  | String c s' =>
      match digit c with
      | Some d => let n := n * base + d in if big <=? n then None else stoi base digit n (S i) s'
      | None => fin
      end
  end.
Definition dtoi (s : string) : option (Z * nat * string) := stoi 10 dec_digit_value 0 0 s.
Definition xtoi (s : string) : option (Z * nat * string) := stoi 16 hex_digit_value 0 0 s.

(** *** Addresses *)

Abbreviation IP := (list Z).

Definition v4InV6Prefix : list Z := [0; 0; 0; 0; 0; 0; 0; 0; 0; 0; 0xff; 0xff].

(** One byte of an IPv4 address; a leading zero is not allowed. *)
Definition octet (s : string) : option (Z * string) :=
  match dtoi s with
  | Some (n, c, rest) =>
      if 0xFF <? n then None
      else if (1 <? c)%nat && has_prefix "0" s then None
      else Some (n, rest)
  | None => None
  end.

Fixpoint octets (k : nat) (s : string) : option (list Z * string) :=
  match k with
  | O => Some ([], s)
  | S k =>
      match s with
      | String c s' =>
          if Ascii.eqb c "." then
            match octet s' with
            | Some (n, rest) =>
                match octets k rest with
                | Some (l, rest') => Some (n :: l, rest')
                | None => None
                end
            | None => None
            end
          else None
      | EmptyString => None
      end
  end.

Definition parseIPv4 (s : string) : option IP :=
  match octet s with
  | Some (n, rest) =>
      match octets 3 rest with
      | Some (l, EmptyString) => Some (v4InV6Prefix ++ n :: l)
      | _ => None
      end
  | None => None
  end.

(** The loop over the groups of an IPv6 address; [k] groups fit in behind
    [ip], and [ellipsis] is where :: stands. *)
Fixpoint groups (k : nat) (ip : list Z) (ellipsis : option nat) (s : string) : option (list Z * option nat * string) :=
  match k with
  | O => Some (ip, ellipsis, s)
  | S k =>
      match xtoi s with
      | None => None
      | Some (n, _, rest) =>
          if 0xFFFF <? n then None
          else if has_prefix "." rest then
            if decide (ellipsis = None ∧ length ip ≠ 12%nat) then None
            else if (16 <? length ip + 4)%nat then None
            else match parseIPv4 s with
                 | Some ip4 => Some (ip ++ drop 12 ip4, ellipsis, EmptyString)
                 | None => None
                 end
          else
            let ip := ip ++ [n / 256; n mod 256] in
            match rest with
            | EmptyString => Some (ip, ellipsis, EmptyString)
            | String c s1 =>
                if negb (Ascii.eqb c ":") || bool_decide (s1 = EmptyString) then None
                else if has_prefix ":" s1 then
                  if decide (ellipsis = None) then
                    let s2 := str_drop 1 s1 in
                    if decide (s2 = EmptyString) then Some (ip, Some (length ip), EmptyString)
                    else groups k ip (Some (length ip)) s2
                  else None
                else groups k ip ellipsis s1
            end
      end
  end.

Definition parseIPv6 (s : string) : option IP :=
  let lead := has_prefix "::" s in
  let s := if lead then str_drop 2 s else s in
  if lead && bool_decide (s = EmptyString) then Some (replicate 16 0)
  else
    match groups 8 [] (if lead then Some O else None) s with
    | Some (ip, ellipsis, EmptyString) =>
        if (length ip <? 16)%nat then
          match ellipsis with
          | Some e => Some (take e ip ++ replicate (16 - length ip) 0 ++ drop e ip)
          | None => None
          end
        else if decide (ellipsis = None) then Some ip else None
    | _ => None
    end.

(** The first dot or colon decides. *)
Fixpoint first_sep (s : string) : option ascii :=
  match s with
  | EmptyString => None
  | String c s => if Ascii.eqb c "." || Ascii.eqb c ":" then Some c else first_sep s
  end.

Definition ParseIP (s : string) : option IP :=
  match first_sep s with
  | Some c => if Ascii.eqb c "." then parseIPv4 s else parseIPv6 s
  | None => None
  end.

(** ip.To4() != nil *)
Definition is_v4 (ip : IP) : bool := bool_decide (take 12 ip = v4InV6Prefix).

Example ip_examples :
  ParseIP "10.0.0.1" = Some (v4InV6Prefix ++ [10; 0; 0; 1]) ∧ ParseIP "10.0.0.01" = None ∧
  ParseIP "10.0.0" = None ∧ ParseIP "1.2.3.256" = None ∧ ParseIP "host.local" = None ∧
  ParseIP "::" = Some (replicate 16 0) ∧ ParseIP "fe80::1" = Some (0xfe :: 0x80 :: replicate 13 0 ++ [1]) ∧
  ParseIP "::ffff:1.2.3.4" = ParseIP "1.2.3.4" ∧ ParseIP "1:2:3:4:5:6:7" = None ∧
  ParseIP "1:2:3:4:5:6:7::" = Some [0; 1; 0; 2; 0; 3; 0; 4; 0; 5; 0; 6; 0; 7; 0; 0] ∧
  ParseIP "1:2:3:4:5:6:7::8" = None ∧ ParseIP "1::2::3" = None ∧ ParseIP "1:2:" = None ∧ ParseIP "fe80::1%0" = None.
Proof. vm_compute. split_and!; reflexivity. Qed.

(** *** crc32.ChecksumIEEE *)

Definition crc_bit (crc : Z) : Z :=
  if Z.odd crc then Z.lxor (Z.shiftr crc 1) 0xEDB88320 else Z.shiftr crc 1.
Definition crc_byte (crc b : Z) : Z := Nat.iter 8 crc_bit (Z.lxor crc b).

Fixpoint crc_update (crc : Z) (s : string) : Z :=
  match s with
  | EmptyString => crc
  | String c s => crc_update (crc_byte crc (byte c)) s
  end.
Definition ChecksumIEEE (s : string) : Z := Z.lxor (crc_update 0xFFFFFFFF s) 0xFFFFFFFF.

Example crc_example : ChecksumIEEE "123456789" = 0xCBF43926.
Proof. reflexivity. Qed.

(** ** Types *)

Inductive CandidateType :=
  | CandidateTypeUnspecified
  | CandidateTypeHost
  | CandidateTypeServerReflexive
  | CandidateTypePeerReflexive
  | CandidateTypeRelay.

#[export] Instance CandidateType_eq_dec : EqDecision CandidateType.
Proof. solve_decision. Defined.

Definition CandidateType_String (c : CandidateType) : string :=
  match c with
  | CandidateTypeHost => "host"
  | CandidateTypeServerReflexive => "srflx"
  | CandidateTypePeerReflexive => "prflx"
  | CandidateTypeRelay => "relay"
  | CandidateTypeUnspecified => "Unknown candidate type"
  end.

Definition Preference (c : CandidateType) : Z :=
  match c with
  | CandidateTypeHost => 126
  | CandidateTypePeerReflexive => 110
  | CandidateTypeServerReflexive => 100
  | CandidateTypeRelay | CandidateTypeUnspecified => 0
  end.

Inductive NetworkType := NetworkTypeUDP4 | NetworkTypeUDP6 | NetworkTypeTCP4 | NetworkTypeTCP6.

#[export] Instance NetworkType_eq_dec : EqDecision NetworkType.
Proof. solve_decision. Defined.

Definition NetworkType_String (t : NetworkType) : string :=
  match t with
  | NetworkTypeUDP4 => "udp4"
  | NetworkTypeUDP6 => "udp6"
  | NetworkTypeTCP4 => "tcp4"
  | NetworkTypeTCP6 => "tcp6"
  end.

Definition IsTCP (t : NetworkType) : bool :=
  match t with NetworkTypeTCP4 | NetworkTypeTCP6 => true | _ => false end.

Definition NetworkShort (t : NetworkType) : string :=
  match t with
  | NetworkTypeUDP4 | NetworkTypeUDP6 => "udp"
  | NetworkTypeTCP4 | NetworkTypeTCP6 => "tcp"
  end.

Inductive TCPType := TCPTypeUnspecified | TCPTypeActive | TCPTypePassive | TCPTypeSimultaneousOpen.

#[export] Instance TCPType_eq_dec : EqDecision TCPType.
Proof. solve_decision. Defined.

Definition NewTCPType (value : string) : TCPType :=
  let v := to_lower value in
  if decide (v = "active") then TCPTypeActive
  else if decide (v = "passive") then TCPTypePassive
  else if decide (v = "so") then TCPTypeSimultaneousOpen
  else TCPTypeUnspecified.

Definition TCPType_String (t : TCPType) : string :=
  match t with
  | TCPTypeUnspecified => EmptyString
  | TCPTypeActive => "active"
  | TCPTypePassive => "passive"
  | TCPTypeSimultaneousOpen => "so"
  end.

Inductive ice_err :=
  | errAttributeTooShortICECandidate
  | errParseComponent
  | errParsePriority
  | errParsePort
  | errParseRelatedAddr
  | errParseTypType
  | ErrUnknownCandidateTyp
  | ErrAddressParseFailed
  | ErrDetermineNetworkType
  | errICECandidateTypeUnknown
  | errICEProtocolUnknown.

#[export] Instance ice_err_eq_dec : EqDecision ice_err.
Proof. solve_decision. Defined.

Abbreviation ires := (res ice_err).

Definition determineNetworkType (network : string) (ip : IP) : ires NetworkType :=
  let ipv4 := is_v4 ip in
  if has_prefix "udp" (to_lower network) then Ok (if ipv4 then NetworkTypeUDP4 else NetworkTypeUDP6)
  else if has_prefix "tcp" (to_lower network) then Ok (if ipv4 then NetworkTypeTCP4 else NetworkTypeTCP6)
  else Err ErrDetermineNetworkType.

(** net.Addr *)
Inductive netaddr := UDPAddr (ip : IP) (port : Z) | TCPAddr (ip : IP) (port : Z).

Definition createAddr (network : NetworkType) (ip : IP) (port : Z) : netaddr :=
  if IsTCP network then TCPAddr ip port else UDPAddr ip port.

Record CandidateRelatedAddress := MkRelated { r_Address : string; r_Port : Z }.

(** type candidateBase; [c_network] is the field of CandidateHost, empty for the
    other kinds. *)
Record Candidate := MkCand {
  c_network : string;
  networkType : NetworkType;
  candidateType : CandidateType;
  component : Z;
  address : string;
  port : Z;
  relatedAddress : option CandidateRelatedAddress;
  tcpType : TCPType;
  resolvedAddr : option netaddr;
  foundationOverride : string;
  priorityOverride : Z;
}.

(** ** New candidates *)

(** Ends in .local *)
Definition is_mdns (addr : string) : bool :=
  let n := string_len addr in
  (6 <=? n)%nat && bool_decide (str_drop (n - 6) addr = ".local").

Definition NewCandidateHost (network addr : string) (port component priority : Z) (foundation : string) (tcp : TCPType)
    : ires Candidate :=
  let mk nt resolved :=
    MkCand network nt CandidateTypeHost component addr port None tcp resolved foundation priority in
  if negb (is_mdns addr) then
    match ParseIP addr with
    | None => Err ErrAddressParseFailed
    | Some ip =>
        nt ← determineNetworkType network ip;
        Ok (mk nt (Some (createAddr nt ip port)))
    end
  else Ok (mk NetworkTypeUDP4 None).

(** The three other constructors differ in the type and in the resolved
    address. *)
Definition new_related (typ : CandidateType) (addr_of : NetworkType → IP → Z → netaddr)
    (network addr : string) (port component priority : Z) (foundation relAddr : string) (relPort : Z) : ires Candidate :=
  match ParseIP addr with
  | None => Err ErrAddressParseFailed
  | Some ip =>
      nt ← determineNetworkType network ip;
      Ok (MkCand EmptyString nt typ component addr port (Some (MkRelated relAddr relPort)) TCPTypeUnspecified
            (Some (addr_of nt ip port)) foundation priority)
  end.

Definition NewCandidateServerReflexive := new_related CandidateTypeServerReflexive (λ _, UDPAddr).
Definition NewCandidatePeerReflexive := new_related CandidateTypePeerReflexive createAddr.
Definition NewCandidateRelay := new_related CandidateTypeRelay (λ _, UDPAddr).

(** ** Foundation and priority *)

Definition Foundation (c : Candidate) : string :=
  if decide (foundationOverride c = EmptyString) then
    itoa (ChecksumIEEE (CandidateType_String (candidateType c) +:+ address c +:+ NetworkType_String (networkType c)))
  else foundationOverride c.

Definition defaultLocalPreference : Z := 65535.

Definition directionPref (c : Candidate) : Z :=
  match candidateType c with
  | CandidateTypeHost | CandidateTypeRelay =>
      match tcpType c with
      | TCPTypeActive => 6
      | TCPTypePassive => 4
      | TCPTypeSimultaneousOpen => 2
      | TCPTypeUnspecified => 0
      end
  | CandidateTypePeerReflexive | CandidateTypeServerReflexive =>
      match tcpType c with
      | TCPTypeSimultaneousOpen => 6
      | TCPTypeActive => 4
      | TCPTypePassive => 2
      | TCPTypeUnspecified => 0
      end
  | CandidateTypeUnspecified => 0
  end.

Definition LocalPreference (c : Candidate) : Z :=
  if IsTCP (networkType c) then to_uint16 (2 ^ 13 * directionPref c + 8191) else defaultLocalPreference.

(** 256-c.Component() is a subtraction of uint16 values. *)
Definition Priority (c : Candidate) : Z :=
  if negb (priorityOverride c =? 0) then priorityOverride c
  else to_uint32 (2 ^ 24 * Preference (candidateType c) + 2 ^ 8 * LocalPreference c + to_uint16 (256 - component c)).

(** ** The text of a candidate *)

Definition Cand_Marshal (c : Candidate) : string :=
  let val := Foundation c in
  let val := if decide (val = " ") then EmptyString else val in
  let val := val +:+ " " +:+ itoa (component c) +:+ " " +:+ NetworkShort (networkType c) +:+ " " +:+ itoa (Priority c) +:+ " " +:+
    address c +:+ " " +:+ itoa (port c) +:+ " typ " +:+ CandidateType_String (candidateType c) in
  let val := if decide (tcpType c = TCPTypeUnspecified) then val
             else val +:+ " tcptype " +:+ TCPType_String (tcpType c) in
  match relatedAddress c with
  | Some r =>
      if decide (r_Address r ≠ EmptyString ∧ r_Port r ≠ 0) then
        val +:+ " raddr " +:+ r_Address r +:+ " rport " +:+ itoa (r_Port r)
      else val
  | None => val
  end.

(** What follows the type: the related address and port, the TCP type. *)
Definition candidate_rest (split : list string) : ires (string * Z * TCPType) :=
  match split with
  | [] => Ok (EmptyString, 0, TCPTypeUnspecified)
  | k :: split =>
      if decide (k = "raddr") then
        match split with
        | a :: _ :: p :: _ =>
            match parse_uint 16 p with
            | Some p => Ok (a, p, TCPTypeUnspecified)
            | None => Err errParsePort
            end
        | _ => Err errParseRelatedAddr
        end
      else if decide (k = "tcptype") then
        match split with
        | t :: _ => Ok (EmptyString, 0, NewTCPType t)
        | [] => Err errParseTypType
        end
      else Ok (EmptyString, 0, TCPTypeUnspecified)
  end.

Definition or_ice {A} (o : option A) (e : ice_err) : ires A := match o with Some a => Ok a | None => Err e end.

Definition UnmarshalCandidate (raw : string) : ires Candidate :=
  let split := str_fields raw in
  let split := if has_prefix " " raw then " " :: split else split in
  match split with
  | foundation :: rawComponent :: protocol :: priorityRaw :: addr :: rawPort :: _ :: typ :: rest =>
      component ← or_ice (parse_uint 16 rawComponent) errParseComponent;
      priority ← or_ice (parse_uint 32 priorityRaw) errParsePriority;
      port ← or_ice (parse_uint 16 rawPort) errParsePort;
      r ← candidate_rest rest;
      let '(relatedAddress, relatedPort, tcp) := r in
      if decide (typ = "host") then NewCandidateHost protocol addr port component priority foundation tcp
      else if decide (typ = "srflx") then
        NewCandidateServerReflexive protocol addr port component priority foundation relatedAddress relatedPort
      else if decide (typ = "prflx") then
        NewCandidatePeerReflexive protocol addr port component priority foundation relatedAddress relatedPort
      else if decide (typ = "relay") then
        NewCandidateRelay protocol addr port component priority foundation relatedAddress relatedPort
      else Err ErrUnknownCandidateTyp
  | _ => Err errAttributeTooShortICECandidate
  end.

(** ** Pairs *)

Record CandidatePair := MkPair { iceRoleControlling : bool; Remote : Candidate; Local : Candidate }.

Definition pair_priority (p : CandidatePair) : Z :=
  let '(g, d) := if iceRoleControlling p then (Priority (Local p), Priority (Remote p))
                 else (Priority (Remote p), Priority (Local p)) in
  to_uint64 ((2 ^ 32 - 1) * (if g <? d then g else d) + 2 * (if d <? g then g else d) + (if d <? g then 1 else 0)).

(** ** pion/webrtc *)

Inductive ICEProtocol := ICEProtocolUDP | ICEProtocolTCP.

Definition NewICEProtocol (raw : string) : ires ICEProtocol :=
  if EqualFold "udp" raw then Ok ICEProtocolUDP
  else if EqualFold "tcp" raw then Ok ICEProtocolTCP
  else Err errICEProtocolUnknown.

Definition ICEProtocol_String (t : ICEProtocol) : string :=
  match t with ICEProtocolUDP => "udp" | ICEProtocolTCP => "tcp" end.

Inductive ICECandidateType := ICECandidateTypeHost | ICECandidateTypeSrflx | ICECandidateTypePrflx | ICECandidateTypeRelay.

Definition convertTypeFromICE (t : CandidateType) : ires ICECandidateType :=
  match t with
  | CandidateTypeHost => Ok ICECandidateTypeHost
  | CandidateTypeServerReflexive => Ok ICECandidateTypeSrflx
  | CandidateTypePeerReflexive => Ok ICECandidateTypePrflx
  | CandidateTypeRelay => Ok ICECandidateTypeRelay
  | CandidateTypeUnspecified => Err errICECandidateTypeUnknown
  end.

Record ICECandidate := MkCandidate {
  ic_Foundation : string;
  ic_Priority : Z;
  ic_Address : string;
  ic_Protocol : ICEProtocol;
  ic_Port : Z;
  ic_Typ : ICECandidateType;
  ic_Component : Z;
  ic_RelatedAddress : string;
  ic_RelatedPort : Z;
  ic_TCPType : string;
}.

Record ICECandidateInit := MkCandidateInit {
  ci_candidate : string;
  ci_sdpMid : option string;
  ci_sdpMLineIndex : option Z;
  ci_usernameFragment : option string;
}.

Definition newICECandidateFromICE (i : Candidate) : ires ICECandidate :=
  typ ← convertTypeFromICE (candidateType i);
  protocol ← NewICEProtocol (NetworkShort (networkType i));
  let rel := default (MkRelated EmptyString 0) (relatedAddress i) in
  Ok (MkCandidate (Foundation i) (Priority i) (address i) protocol (to_uint16 (port i)) typ (component i)
        (r_Address rel) (to_uint16 (r_Port rel)) (TCPType_String (tcpType i))).

Definition toICE (c : ICECandidate) : ires Candidate :=
  let network := ICEProtocol_String (ic_Protocol c) in
  match ic_Typ c with
  | ICECandidateTypeHost =>
      NewCandidateHost network (ic_Address c) (ic_Port c) (ic_Component c) (ic_Priority c) (ic_Foundation c) (NewTCPType (ic_TCPType c))
  | ICECandidateTypeSrflx =>
      NewCandidateServerReflexive network (ic_Address c) (ic_Port c) (ic_Component c) (ic_Priority c) (ic_Foundation c)
        (ic_RelatedAddress c) (ic_RelatedPort c)
  | ICECandidateTypePrflx =>
      NewCandidatePeerReflexive network (ic_Address c) (ic_Port c) (ic_Component c) (ic_Priority c) (ic_Foundation c)
        (ic_RelatedAddress c) (ic_RelatedPort c)
  | ICECandidateTypeRelay =>
      NewCandidateRelay network (ic_Address c) (ic_Port c) (ic_Component c) (ic_Priority c) (ic_Foundation c)
        (ic_RelatedAddress c) (ic_RelatedPort c)
  end.

Definition ToJSON (c : ICECandidate) : ICECandidateInit :=
  let candidateStr := match toICE c with Ok candidate => Cand_Marshal candidate | _ => EmptyString end in
  MkCandidateInit ("candidate:" +:+ candidateStr) (Some EmptyString) (Some 0) None.

(** What AddICECandidate and ICETransport.AddRemoteCandidate make of a text: it
    is discarded, the ICE agent is given a candidate (or nil), or there is an
    error. *)
Inductive remote_ice := DiscardCandidate | GiveAgent (c : option Candidate).

Definition remote_candidate (text : string) : ires remote_ice :=
  let candidateValue := TrimPrefix text "candidate:" in
  if decide (candidateValue = EmptyString) then Ok (GiveAgent None)
  else
    match UnmarshalCandidate candidateValue with
    | Err e =>
        if decide (e = ErrUnknownCandidateTyp ∨ e = ErrDetermineNetworkType) then Ok DiscardCandidate else Err e
    | m =>
        candidate ← m;
        c ← newICECandidateFromICE candidate;
        c ← toICE c;
        Ok (GiveAgent (Some c))
    end.

Definition sample_text : string := "candidate:1 1 UDP 2130706431 10.0.0.2 5000 typ host".
Example sample_read : remote_candidate sample_text =
  Ok (GiveAgent (Some (MkCand "udp" NetworkTypeUDP4 CandidateTypeHost 1 "10.0.0.2" 5000 None TCPTypeUnspecified
              (Some (UDPAddr (v4InV6Prefix ++ [10; 0; 0; 2]) 5000)) "1" 2130706431))).
Proof. reflexivity. Qed.
