(* ===== verification/IceProps.v ===== *)
(** * ICE candidates: properties

    The text of a candidate is read back as the candidate, a candidate that
    passes through pion/webrtc comes out as it went in, and the order of the
    priorities. *)

From Stdlib Require Import Ascii.
From S2P Require Import Prelude GoLib Text Bytes Sdp Ice.

(** ** Words *)

Definition no_space_char (c : ascii) : bool := negb (is_space c).
Definition word (s : string) : Prop := s ≠ EmptyString ∧ all_chars no_space_char s = true.

#[export] Instance word_dec s : Decision (word s).
Proof. unfold word. apply _. Defined.

Lemma fields_word s : ∀ cur t, all_chars no_space_char s = true →
  fields_func_aux is_space cur (s +:+ t) = fields_func_aux is_space (cur +:+ s) t.
Proof.
  induction s as [|c s IH]; intros cur t; simpl; [by rewrite string_app_nil_r|].
  rewrite andb_true_iff. intros [Hc Hs]. unfold no_space_char in Hc. apply negb_true_iff in Hc. rewrite Hc, IH by done.
  by rewrite <- string_app_assoc.
Qed.

(** The fields of words with single spaces between them. *)
Lemma fields_join l : Forall word l → str_fields (str_join " " l) = l.
Proof.
  unfold str_fields, fields_func. induction 1 as [|s l [Hne Hs] Hl IH]; [done|]. destruct l as [|s' l].
  - cbn [str_join]. rewrite <- (string_app_nil_r s) at 1. rewrite fields_word by done. simpl. by rewrite decide_False.
  - change (str_join " " (s :: s' :: l)) with (s +:+ String " " (str_join " " (s' :: l))).
    rewrite fields_word by done. cbn [fields_func_aux]. change (is_space " ") with true. cbv iota.
    rewrite decide_False by done. cbn [app]. by rewrite IH.
Qed.
Lemma fields_space s : str_fields (String " " s) = str_fields s.
Proof. done. Qed.

Lemma word_head s : word s → has_prefix " " s = false.
Proof.
  destruct s as [|c s]; [by intros []|]. intros [_ Hc]. cbn [has_prefix all_chars] in *. apply andb_true_iff in Hc as [Hc _].
  destruct (Ascii.eqb_spec " " c) as [<-|]; [discriminate Hc | done].
Qed.
Lemma word_head_app s t : word s → has_prefix " " (s +:+ t) = false.
Proof. intros Hs. pose proof (word_head s Hs). destruct s as [|c s]; [by destruct Hs|]. done. Qed.

Lemma digits_word s : s ≠ EmptyString → all_chars is_digit s = true → word s.
Proof.
  intros Hne Hd. split; [done|]. eapply all_chars_impl; [|exact Hd]. intros c Hc.
  unfold no_space_char, is_space, is_digit in *. lia.
Qed.

Lemma itoa_nat z : 0 ≤ z → word (itoa z) ∧ atoi_digits 0 (itoa z) = Some z.
Proof.
  intros Hz. destruct (itoa_digits z) as (s & E & Hne & Hd & Ha). rewrite (proj2 (Z.ltb_ge _ _)) in E by lia.
  change (itoa z = s) in E. rewrite E, Ha, Z.abs_eq by lia. split; [by apply digits_word | done].
Qed.
Lemma parse_uint_printed bits z : 0 ≤ z < 2 ^ bits → parse_uint bits (itoa z) = Some z.
Proof.
  intros Hz. destruct (itoa_nat z) as [[Hne _] Ha]; [lia|]. unfold parse_uint. rewrite decide_False, Ha by done.
  by rewrite (proj2 (Z.ltb_lt _ _)) by lia.
Qed.

(** ** Priorities *)

Definition u16_ok (z : Z) : Prop := 0 ≤ z < 2 ^ 16.
Definition u32_ok (z : Z) : Prop := 0 ≤ z < 2 ^ 32.

Lemma local_preference_bounds c : 8191 ≤ LocalPreference c ≤ 65535.
Proof.
  unfold LocalPreference, to_uint16, defaultLocalPreference. case_match; [|lia].
  assert (0 ≤ directionPref c ≤ 6) by (unfold directionPref; repeat case_match; lia). rewrite Z.mod_small; lia.
Qed.
Lemma preference_bounds t : 0 ≤ Preference t ≤ 126.
Proof. destruct t; simpl; lia. Qed.

(** The sum does not overflow and is not 0. *)
Lemma priority_computed c : priorityOverride c = 0 →
  Priority c = 2 ^ 24 * Preference (candidateType c) + 2 ^ 8 * LocalPreference c + to_uint16 (256 - component c).
Proof.
  intros H0. unfold Priority. rewrite H0. simpl. unfold to_uint32. apply Z.mod_small.
  pose proof (local_preference_bounds c). pose proof (preference_bounds (candidateType c)).
  pose proof (Z.mod_pos_bound (256 - component c) (2 ^ 16)). unfold to_uint16. lia.
Qed.
Lemma priority_bounds c : u32_ok (priorityOverride c) → 0 < Priority c < 2 ^ 32.
Proof.
  intros Hc. destruct (Z.eq_dec (priorityOverride c) 0) as [E|E].
  - rewrite priority_computed by done. pose proof (local_preference_bounds c). pose proof (preference_bounds (candidateType c)).
    pose proof (Z.mod_pos_bound (256 - component c) (2 ^ 16)). unfold to_uint16. lia.
  - unfold Priority. rewrite (proj2 (Z.eqb_neq _ _)) by done. unfold u32_ok in Hc. simpl. lia.
Qed.

(** Of two candidates whose priorities are computed, for components up to 256,
    the one whose type is preferred has the higher priority, whatever their
    networks. *)
Lemma priority_order c1 c2 : priorityOverride c1 = 0 → priorityOverride c2 = 0 →
  1 ≤ component c1 ≤ 256 → 1 ≤ component c2 ≤ 256 →
  Preference (candidateType c2) < Preference (candidateType c1) → Priority c2 < Priority c1.
Proof.
  intros H1 H2 C1 C2 Hp. rewrite !priority_computed by done. unfold to_uint16. rewrite !Z.mod_small by lia.
  pose proof (local_preference_bounds c1). pose proof (local_preference_bounds c2). lia.
Qed.

(** Both agents give a pair the same priority, without an overflow, and a pair
    of better candidates has a higher one. *)
Lemma pair_priority_exact ctl r l : 0 ≤ Priority r < 2 ^ 32 → 0 ≤ Priority l < 2 ^ 32 →
  pair_priority (MkPair ctl r l) = (2 ^ 32 - 1) * (Priority r `min` Priority l) + 2 * (Priority r `max` Priority l) +
    (if ctl then Z.b2z (Priority r <? Priority l) else Z.b2z (Priority l <? Priority r)).
Proof.
  intros Hr Hl. unfold pair_priority, to_uint64. cbn [iceRoleControlling Local Remote].
  destruct ctl; destruct (Z.ltb_spec (Priority r) (Priority l)), (Z.ltb_spec (Priority l) (Priority r)); simpl;
    rewrite ?Z.min_l, ?Z.max_r, ?Z.min_r, ?Z.max_l by lia; rewrite Z.mod_small; nia.
Qed.

Lemma pair_priority_agrees l r : 0 ≤ Priority r < 2 ^ 32 → 0 ≤ Priority l < 2 ^ 32 →
  pair_priority (MkPair true r l) = pair_priority (MkPair false l r).
Proof. intros Hr Hl. rewrite !pair_priority_exact by done. by rewrite Z.min_comm, Z.max_comm. Qed.

(** ** Well-formed candidates *)

(** The arguments of a constructor are within their types, and the strings are
    words. *)
Record fields_ok (foundation addr : string) (port component priority : Z) : Prop := {
  fo_foundation : foundation = EmptyString ∨ foundation = " " ∨ word foundation;
  fo_address : word addr;
  fo_port : u16_ok port;
  fo_component : u16_ok component;
  fo_priority : u32_ok priority;
}.

Inductive made : Candidate → Prop :=
  | made_host network addr port component priority foundation tcp c :
      fields_ok foundation addr port component priority →
      NewCandidateHost network addr port component priority foundation tcp = Ok c → made c
  | made_related typ addr_of network addr port component priority foundation relAddr relPort c :
      fields_ok foundation addr port component priority →
      (relAddr = EmptyString ∨ word relAddr) → u16_ok relPort →
      (typ, addr_of) = (CandidateTypeServerReflexive, λ _, UDPAddr) ∨ (typ, addr_of) = (CandidateTypePeerReflexive, createAddr) ∨
      (typ, addr_of) = (CandidateTypeRelay, λ _, UDPAddr) →
      new_related typ addr_of network addr port component priority foundation relAddr relPort = Ok c → made c.

(** What is read back: the foundation and the priority that were computed are
    given, the network is udp or tcp, and a related address without a port is
    dropped. *)
Definition canonical_as (f : string) (c : Candidate) : Candidate :=
  MkCand (if decide (candidateType c = CandidateTypeHost) then NetworkShort (networkType c) else EmptyString)
    (networkType c) (candidateType c) (component c) (address c) (port c)
    (match relatedAddress c with
     | Some r => Some (if decide (r_Address r ≠ EmptyString ∧ r_Port r ≠ 0) then r else MkRelated EmptyString 0)
     | None => None
     end)
    (tcpType c) (resolvedAddr c) f (Priority c).
Definition canonical (c : Candidate) : Candidate := canonical_as (Foundation c) c.

(** Words of the text behind the foundation. *)
Definition cand_words (c : Candidate) : list string :=
  [itoa (component c); NetworkShort (networkType c); itoa (Priority c); address c; itoa (port c); "typ";
   CandidateType_String (candidateType c)] ++
  (if decide (tcpType c = TCPTypeUnspecified) then [] else ["tcptype"; TCPType_String (tcpType c)]) ++
  match relatedAddress c with
  | Some r => if decide (r_Address r ≠ EmptyString ∧ r_Port r ≠ 0) then ["raddr"; r_Address r; "rport"; itoa (r_Port r)] else []
  | None => []
  end.

Lemma marshal_words c :
  Cand_Marshal c = (if decide (Foundation c = " ") then EmptyString else Foundation c) +:+ " " +:+ str_join " " (cand_words c).
Proof.
  unfold Cand_Marshal, cand_words. set (f := if decide (Foundation c = " ") then _ else _).
  destruct (decide (tcpType c = _)); (destruct (relatedAddress c) as [r|]; [destruct (decide (r_Address r ≠ _ ∧ _))|]);
    cbn [app str_join]; rewrite <- ?string_app_assoc; reflexivity.
Qed.

Lemma determine_short network ip nt : determineNetworkType network ip = Ok nt → determineNetworkType (NetworkShort nt) ip = Ok nt.
Proof. unfold determineNetworkType. by destruct (has_prefix _ _), (has_prefix "tcp" _), (is_v4 ip); intros [= <-]. Qed.

Lemma foundation_words c : (foundationOverride c = EmptyString ∨ foundationOverride c = " " ∨ word (foundationOverride c)) →
  Foundation c = " " ∨ word (Foundation c).
Proof.
  intros Hf. unfold Foundation. case_decide as E; [right|tauto].
  set (s := _ +:+ _). destruct (itoa_digits (ChecksumIEEE s)) as (d & -> & Hne & Hd & _).
  pose proof (digits_word d Hne Hd) as [? Hs]. case_match; [|done]. split; [done|]. simpl. done.
Qed.

(** ** Reading back *)

(** The fields of a text whose foundation may be missing. *)
Definition cand_split (raw : string) : list string :=
  let split := str_fields raw in if has_prefix " " raw then " " :: split else split.

Lemma split_text f l : f = " " ∨ word f → Forall word l →
  cand_split ((if decide (f = " ") then EmptyString else f) +:+ " " +:+ str_join " " l) = f :: l.
Proof.
  intros Hf Hl. unfold cand_split. case_decide as E.
  - subst f. change (has_prefix " " (EmptyString +:+ " " +:+ ?t)) with true. cbv iota.
    change (EmptyString +:+ " " +:+ ?t) with (String " " t). by rewrite fields_space, fields_join.
  - destruct Hf as [?|Hf]; [done|]. rewrite word_head_app by done. destruct l as [|s l].
    + unfold str_fields, fields_func. rewrite fields_word by apply Hf. simpl. rewrite decide_False by apply Hf. done.
    + change (f +:+ " " +:+ str_join " " (s :: l)) with (str_join " " (f :: s :: l)). apply fields_join. by constructor.
Qed.

(** A candidate given by a foundation and its other fields. *)
Definition made_as (f : string) (c : Candidate) : ires Candidate :=
  let net := NetworkShort (networkType c) in
  let rel := match relatedAddress c with
             | Some r => if decide (r_Address r ≠ EmptyString ∧ r_Port r ≠ 0) then r else MkRelated EmptyString 0
             | None => MkRelated EmptyString 0
             end in
  match candidateType c with
  | CandidateTypeHost => NewCandidateHost net (address c) (port c) (component c) (Priority c) f (tcpType c)
  | CandidateTypeServerReflexive =>
      NewCandidateServerReflexive net (address c) (port c) (component c) (Priority c) f (r_Address rel) (r_Port rel)
  | CandidateTypePeerReflexive =>
      NewCandidatePeerReflexive net (address c) (port c) (component c) (Priority c) f (r_Address rel) (r_Port rel)
  | CandidateTypeRelay =>
      NewCandidateRelay net (address c) (port c) (component c) (Priority c) f (r_Address rel) (r_Port rel)
  | CandidateTypeUnspecified => Err ErrUnknownCandidateTyp
  end.

(** What holds of every candidate that was made. *)
Record cand_ok (c : Candidate) : Prop := {
  co_foundation : Foundation c = " " ∨ word (Foundation c);
  co_address : word (address c);
  co_port : u16_ok (port c);
  co_component : u16_ok (component c);
  co_priority : 0 < Priority c < 2 ^ 32;
  co_typed : match relatedAddress c with
             | None => candidateType c = CandidateTypeHost
             | Some r => (candidateType c ≠ CandidateTypeHost ∧ candidateType c ≠ CandidateTypeUnspecified) ∧ tcpType c = TCPTypeUnspecified ∧
                 (r_Address r = EmptyString ∨ word (r_Address r)) ∧ u16_ok (r_Port r)
             end;
  co_made : ∀ f, made_as f c = Ok (canonical_as f c);
}.

Lemma made_ok c : made c → cand_ok c.
Proof.
  intros [network addr prt comp prio f tcp c' [Hf Ha Hp Hc Hq] E
         |typ addr_of network addr prt comp prio f ra rp c' [Hf Ha Hp Hc Hq] Hra Hrp Ht E].
  - unfold NewCandidateHost in E. destruct (is_mdns addr) eqn:Em; simpl in E.
    + injection E as <-. split; try done; [by apply foundation_words | by apply priority_bounds |].
      intros f'. unfold made_as, NewCandidateHost. simpl. by rewrite Em.
    + destruct (ParseIP addr) as [ip|] eqn:Eip; [|done]. destruct (determineNetworkType network ip) as [nt| | |] eqn:En; try done.
      injection E as <-. split; try done; [by apply foundation_words | by apply priority_bounds |].
      intros f'. unfold made_as, NewCandidateHost. simpl. rewrite Em, Eip, (determine_short _ _ _ En). done.
  - unfold new_related in E. destruct (ParseIP addr) as [ip|] eqn:Eip; [|done].
    destruct (determineNetworkType network ip) as [nt| | |] eqn:En; try done. injection E as <-.
    split; try done; [by apply foundation_words | by apply priority_bounds | |];
      destruct Ht as [[= -> ->]|[[= -> ->]|[= -> ->]]]; try done; intros f';
      unfold made_as, canonical_as, NewCandidateServerReflexive, NewCandidatePeerReflexive, NewCandidateRelay, new_related;
      cbn [candidateType address networkType relatedAddress r_Address r_Port]; rewrite Eip, (determine_short _ _ _ En); cbn; by case_decide.
Qed.

Lemma cand_words_ok c : cand_ok c → Forall word (cand_words c).
Proof.
  intros [Hf Ha Hp Hc Hq Ht _]. unfold cand_words, u16_ok in *. apply Forall_app. split; [|apply Forall_app; split].
  - rewrite !Forall_cons, Forall_nil. split_and!; [apply itoa_nat; lia | by destruct (networkType c) | apply itoa_nat; lia | exact Ha
      | apply itoa_nat; lia | done | | done].
    destruct (relatedAddress c); [destruct Ht as [[_ ?] _]; by destruct (candidateType c) | by rewrite Ht].
  - case_decide as E; [constructor|]. rewrite !Forall_cons, Forall_nil. split_and!; [done | | done]. revert E. by destruct (tcpType c).
  - destruct (relatedAddress c) as [r|]; [|constructor]. case_decide as E; [|constructor]. destruct Ht as (_ & _ & [?|Hw] & Hr); [tauto|].
    rewrite !Forall_cons, Forall_nil. split_and!; [done | exact Hw | done | apply itoa_nat; lia | done].
Qed.

(** Words that follow the text and do not look like a part of it. *)
Definition inert (extra : list string) : Prop :=
  match extra with
  | [] => True
  | k :: _ => k ≠ "raddr" ∧ k ≠ "tcptype"
  end.

Lemma rest_reads c extra : cand_ok c → inert extra →
  candidate_rest (drop 7 (cand_words c) ++ extra) = Ok
    (match relatedAddress c with
     | Some r => if decide (r_Address r ≠ EmptyString ∧ r_Port r ≠ 0) then (r_Address r, r_Port r) else (EmptyString, 0)
     | None => (EmptyString, 0)
     end, tcpType c).
Proof.
  intros [_ _ _ _ _ Ht _] Hi. unfold cand_words. cbn [app drop].
  assert (candidate_rest extra = Ok (EmptyString, 0, TCPTypeUnspecified)) as He.
  { destruct extra as [|k l]; [done|]. unfold candidate_rest. destruct Hi. by rewrite !decide_False. }
  destruct (relatedAddress c) as [r|].
  - destruct Ht as (_ & -> & _ & Hr). rewrite (decide_True (P := TCPTypeUnspecified = _)) by done.
    case_decide; cbn [app drop]; [|exact He]. unfold candidate_rest. rewrite decide_True by done. by rewrite parse_uint_printed.
  - rewrite app_nil_r. destruct (tcpType c); [exact He | done..].
Qed.

(** What is made of the words. *)
Lemma unmarshal_words c raw f extra : cand_ok c → inert extra → cand_split raw = f :: cand_words c ++ extra →
  UnmarshalCandidate raw = Ok (canonical_as f c).
Proof.
  intros Hok Hi E. unfold UnmarshalCandidate. fold (cand_split raw). rewrite E. pose proof (rest_reads c extra Hok Hi) as Hr.
  destruct Hok as [Hf Ha Hp Hc Hq Ht Hm]. unfold cand_words in *. cbn [app drop] in *. change (drop 0 ?l) with l in Hr.
  rewrite !parse_uint_printed by (unfold u16_ok in *; lia). cbn [or_ice mbind res_bind]. rewrite Hr. cbn [mbind res_bind].
  rewrite <- Hm. unfold made_as. destruct (relatedAddress c) as [r|].
  - destruct (decide (r_Address r ≠ _ ∧ _)); destruct (candidateType c); try reflexivity; by destruct Ht as [[] _].
  - by rewrite Ht.
Qed.

Lemma marshal_read c : made c → UnmarshalCandidate (Cand_Marshal c) = Ok (canonical c).
Proof.
  intros Hok%made_ok. rewrite marshal_words. apply (unmarshal_words c _ _ []); [done | done |].
  rewrite app_nil_r. apply split_text; [apply Hok | by apply cand_words_ok].
Qed.

(** C10. The text of a candidate made by any of the constructors is read back as that
    candidate, with the foundation and the priority that were computed for it,
    the network of a host candidate shortened, and a related address without an
    address or a port emptied; also without a foundation. *)
Theorem candidate_roundtrip c : made c → UnmarshalCandidate (Cand_Marshal c) = Ok (canonical c).
Proof. apply marshal_read. Qed.

Definition sample_candidate : Candidate :=
  MkCand EmptyString NetworkTypeUDP4 CandidateTypeServerReflexive 1 "1.2.3.4" 5000 (Some (MkRelated "10.0.0.2" 4000)) TCPTypeUnspecified
    (Some (UDPAddr (v4InV6Prefix ++ [1; 2; 3; 4]) 5000)) EmptyString 0.

Lemma sample_candidate_made : made sample_candidate.
Proof.
  apply (made_related CandidateTypeServerReflexive (λ _, UDPAddr) "UDP" "1.2.3.4" 5000 1 0 EmptyString "10.0.0.2" 4000).
  - split; [by left | done | unfold u16_ok; lia | unfold u16_ok; lia | unfold u32_ok; lia].
  - by right.
  - unfold u16_ok. lia.
  - by left.
  - reflexivity.
Qed.

Lemma candidate_roundtrip_witness :
  Cand_Marshal sample_candidate = "3484169186 1 udp 1694498815 1.2.3.4 5000 typ srflx raddr 10.0.0.2 rport 4000" ∧
  UnmarshalCandidate "3484169186 1 udp 1694498815 1.2.3.4 5000 typ srflx raddr 10.0.0.2 rport 4000" = Ok (canonical sample_candidate).
Proof. split; [vm_compute; reflexivity|]. apply (candidate_roundtrip sample_candidate sample_candidate_made). Defined.

(** ** Through pion/webrtc *)

Lemma tcptype_known t : NewTCPType (TCPType_String t) = t.
Proof. by destruct t. Qed.

(** The conversions to and from the type of pion/webrtc do not fail; what comes
    out is given by the fields of the candidate. *)
Definition remade (c : Candidate) : Candidate :=
  MkCand (if decide (candidateType c = CandidateTypeHost) then NetworkShort (networkType c) else EmptyString)
    (networkType c) (candidateType c) (component c) (address c) (port c) (relatedAddress c)
    (tcpType c) (resolvedAddr c) (Foundation c) (Priority c).

Lemma converted c : made c → ∃ i, newICECandidateFromICE c = Ok i ∧ toICE i = Ok (remade c).
Proof.
  intros [network addr prt comp prio f tcp c' [Hf Ha Hp Hc Hq] E
         |typ addr_of network addr prt comp prio f ra rp c' [Hf Ha Hp Hc Hq] Hra Hrp Ht E].
  - unfold NewCandidateHost in E. destruct (is_mdns addr) eqn:Em; simpl in E.
    + injection E as <-. eexists. split; [reflexivity|]. unfold toICE, NewCandidateHost, to_uint16. simpl.
      by rewrite Em, tcptype_known, Z.mod_small.
    + destruct (ParseIP addr) as [ip|] eqn:Eip; [|done]. destruct (determineNetworkType network ip) as [nt| | |] eqn:En; try done.
      injection E as <-. unfold newICECandidateFromICE. destruct (NewICEProtocol (NetworkShort nt)) as [pro| | |] eqn:Epro; try by destruct nt.
      eexists. split; [cbn; by rewrite Epro|]. assert (ICEProtocol_String pro = NetworkShort nt) as Hpro by (destruct nt; injection Epro as <-; done).
      unfold toICE, NewCandidateHost, to_uint16. simpl. rewrite Em, Hpro, Eip, (determine_short _ _ _ En), tcptype_known.
      cbn. by rewrite Z.mod_small.
  - unfold new_related in E. destruct (ParseIP addr) as [ip|] eqn:Eip; [|done].
    destruct (determineNetworkType network ip) as [nt| | |] eqn:En; try done. injection E as <-.
    destruct (NewICEProtocol (NetworkShort nt)) as [pro| | |] eqn:Epro; try by destruct nt.
    assert (ICEProtocol_String pro = NetworkShort nt) as Hpro by (destruct nt; injection Epro as <-; done).
    destruct Ht as [[= -> ->]|[[= -> ->]|[= -> ->]]]; unfold newICECandidateFromICE; cbn [candidateType convertTypeFromICE mbind res_bind networkType];
      rewrite Epro; (eexists; split; [reflexivity|]);
      unfold toICE, NewCandidateServerReflexive, NewCandidatePeerReflexive, NewCandidateRelay, new_related, to_uint16;
      cbn [ic_Typ ic_Protocol ic_Address]; rewrite Hpro; cbn [address]; rewrite Eip, (determine_short _ _ _ En); cbn; by rewrite !Z.mod_small.
Qed.

(** Every candidate that UnmarshalCandidate returns was made by a constructor
    from words. *)
Lemma fields_words s : ∀ cur, all_chars no_space_char cur = true → Forall word (fields_func_aux is_space cur s).
Proof.
  induction s as [|c s IH]; intros cur Hcur; simpl.
  - case_decide; [constructor|]. by repeat constructor.
  - destruct (is_space c) eqn:Ec.
    + apply Forall_app. split; [|by apply IH]. case_decide; [constructor|]. by repeat constructor.
    + apply IH. rewrite all_chars_app, Hcur. simpl. unfold no_space_char. by rewrite Ec.
Qed.

Lemma parse_uint_range bits s n : 0 ≤ bits → parse_uint bits s = Some n → 0 ≤ n < 2 ^ bits.
Proof.
  intros Hb. unfold parse_uint. case_decide; [done|]. destruct (atoi_digits 0 s) as [k|] eqn:E; [|done].
  destruct (Z.ltb_spec k (2 ^ bits)); [|done]. intros [= <-]. split; [|done].
  assert (∀ s acc k, 0 ≤ acc → atoi_digits acc s = Some k → 0 ≤ k) as Hd.
  { clear. induction s as [|c s IH]; intros acc k Hacc; simpl; [by intros [= <-]|]. destruct (is_digit c) eqn:Ed; [|done].
    apply IH. unfold is_digit in Ed. lia. }
  by eapply Hd, E.
Qed.

Lemma or_err_ok {A} (o : option A) e a : or_ice o e = Ok a → o = Some a.
Proof. by destruct o; intros [= <-]. Qed.

(** The words a candidate is read from. *)
Lemma cand_split_words raw : match cand_split raw with
  | f :: l => (f = " " ∨ word f) ∧ Forall word l
  | [] => True
  end.
Proof.
  unfold cand_split. assert (Forall word (str_fields raw)) as Hw by by apply fields_words.
  destruct (has_prefix " " raw); [split; [by left | done]|]. destruct Hw; [done|]. auto.
Qed.

Lemma rest_made l r : Forall word l → candidate_rest l = Ok r → (r.1.1 = EmptyString ∨ word r.1.1) ∧ u16_ok r.1.2.
Proof.
  intros Hl. unfold candidate_rest. destruct Hl as [|k l _ Hl]; [intros [= <-]; split; [by left | done]|].
  case_decide; [|case_decide; [destruct Hl; [done|]|]; intros [= <-]; (split; [by left | done])].
  destruct Hl as [|a l Ha Hl]; [done|]. destruct Hl as [|b l _ Hl]; [done|]. destruct Hl as [|p l _ _]; [done|].
  destruct (parse_uint 16 p) as [n|] eqn:E; [|done]. intros [= <-]. split; [by right|]. by apply (parse_uint_range 16) in E.
Qed.

Lemma unmarshal_made raw c : UnmarshalCandidate raw = Ok c → made c.
Proof.
  pose proof (cand_split_words raw) as Hw. unfold UnmarshalCandidate. fold (cand_split raw).
  destruct (cand_split raw) as [|f [|rc [|pro [|pr [|addr [|rp [|kw [|typ rest]]]]]]]]; try done. destruct Hw as [Hf Hw].
  rewrite !Forall_cons in Hw. destruct Hw as (_ & _ & _ & Ha & _ & _ & _ & Hrest).
  intros (comp & Ec%or_err_ok & E)%bind_Ok_inv. apply bind_Ok_inv in E as (prio & Eq%or_err_ok & E).
  apply bind_Ok_inv in E as (prt & Ep%or_err_ok & E). apply bind_Ok_inv in E as ([[ra rpt] tcp] & Er & E).
  apply (rest_made _ _ Hrest) in Er as [Hra Hrp]. simpl in Hra, Hrp.
  assert (fields_ok f addr prt comp prio) as Hok.
  { split; [tauto | done | by apply (parse_uint_range 16) in Ep | by apply (parse_uint_range 16) in Ec | by apply (parse_uint_range 32) in Eq]. }
  repeat case_decide; [by eapply made_host |..|done]; eapply made_related; try done; auto.
Qed.

(** A text that is read gives the agent that candidate, with the address, port,
    type and priority of the text: the conversions in between lose nothing.
    Texts of an unknown type or network are passed over, and all others are
    refused. *)
Lemma remote_candidate_exact text :
  remote_candidate text =
    let v := TrimPrefix text "candidate:" in
    if decide (v = EmptyString) then Ok (GiveAgent None)
    else match UnmarshalCandidate v with
         | Ok c => Ok (GiveAgent (Some (remade c)))
         | Err e => if decide (e = ErrUnknownCandidateTyp ∨ e = ErrDetermineNetworkType) then Ok DiscardCandidate else Err e
         | Panic => Panic
         | Diverge => Diverge
         end.
Proof.
  unfold remote_candidate. cbv zeta. case_decide; [done|]. destruct (UnmarshalCandidate _) as [c|e| |] eqn:E; try done.
  destruct (converted c (unmarshal_made _ _ E)) as (i & Ei & Et). cbn [mbind res_bind]. rewrite Ei. cbn [mbind res_bind]. by rewrite Et.
Qed.

(** A candidate of the other end, sent as its text. *)
Lemma remade_canonical f c : made c → f ≠ EmptyString → remade (canonical_as f c) = canonical_as f c.
Proof.
  intros Hok%made_ok Hf. destruct Hok as [_ _ _ _ Hq _ _]. unfold remade, canonical_as.
  cbn [candidateType networkType component address port relatedAddress tcpType resolvedAddr]. f_equal.
  - unfold Foundation. cbn [foundationOverride]. by rewrite decide_False.
  - unfold Priority at 1. cbn [priorityOverride]. rewrite (proj2 (Z.eqb_neq _ _)); [done | lia].
Qed.

Lemma candidate_exchanged c : made c → remote_candidate ("candidate:" +:+ Cand_Marshal c) = Ok (GiveAgent (Some (canonical c))).
Proof.
  intros Hc. rewrite remote_candidate_exact. cbv zeta.
  replace (TrimPrefix ("candidate:" +:+ Cand_Marshal c) "candidate:") with (Cand_Marshal c) by (unfold TrimPrefix; by rewrite has_prefix_app, str_drop_app).
  pose proof (marshal_read c Hc) as E. rewrite decide_False by (intros E0; by rewrite E0 in E). rewrite E. unfold canonical. rewrite remade_canonical; [done | done |].
  destruct (co_foundation c (made_ok c Hc)) as [->|[? _]]; done.
Qed.

(** The text of a candidate with something before its foundation and words after
    it, as it is found in the printed form of a map. *)
Lemma join_app l l' : l ≠ [] → l' ≠ [] → str_join " " (l ++ l') = str_join " " l +:+ " " +:+ str_join " " l'.
Proof.
  intros Hl Hl'. induction l as [|s [|s' l] IH]; [done | |].
  - destruct l'; [done|]. done.
  - change (str_join " " ((s :: s' :: l) ++ l')) with (s +:+ " " +:+ str_join " " ((s' :: l) ++ l')).
    rewrite IH by done. change (str_join " " (s :: s' :: l)) with (s +:+ " " +:+ str_join " " (s' :: l)). by rewrite <- !string_app_assoc.
Qed.

Lemma wrapped_candidate c pre extra : made c → word pre → has_prefix "candidate:" pre = false → (10 <= string_len pre)%nat →
  Forall word extra → extra ≠ [] → inert extra →
  remote_candidate (pre +:+ Cand_Marshal c +:+ " " +:+ str_join " " extra) =
    Ok (GiveAgent (Some (canonical_as (pre +:+ if decide (Foundation c = " ") then EmptyString else Foundation c) c))).
Proof.
  intros Hc [Hne Hpre] Hpx Hlen Hx Hxne Hi. set (f := if decide (Foundation c = " ") then _ else _). pose proof (made_ok c Hc) as Hok.
  assert (word (pre +:+ f)) as Hf.
  { split; [by destruct pre|]. rewrite all_chars_app, Hpre. unfold f. case_decide; [done|]. by destruct (co_foundation c Hok) as [|[_ ->]]. }
  rewrite remote_candidate_exact, marshal_words. fold f.
  assert (pre +:+ (f +:+ " " +:+ str_join " " (cand_words c)) +:+ " " +:+ str_join " " extra =
    (pre +:+ f) +:+ " " +:+ str_join " " (cand_words c ++ extra)) as ->
    by (rewrite join_app by done; by rewrite <- !string_app_assoc).
  set (raw := _ +:+ " " +:+ _). assert (TrimPrefix raw "candidate:" = raw) as ->.
  { unfold TrimPrefix, raw. rewrite <- string_app_assoc. rewrite prefix_long by exact Hlen. by rewrite Hpx. }
  assert (UnmarshalCandidate raw = Ok (canonical_as (pre +:+ f) c)) as E.
  { apply (unmarshal_words c _ _ extra); [done | done |].
    pose proof (split_text (pre +:+ f) (cand_words c ++ extra) (or_intror Hf)) as Hs. rewrite decide_False in Hs.
    - apply Hs. apply Forall_app. split; [by apply cand_words_ok | done].
    - intros E. rewrite E in Hf. by destruct Hf. }
  cbv zeta. rewrite decide_False by (intros E0; by rewrite E0 in E). rewrite E. by rewrite remade_canonical by (done || apply Hf).
Qed.

(** A TCP candidate whose address is an mDNS name becomes a UDP candidate. *)
Lemma tcp_mdns_becomes_udp :
  ∃ c, remote_candidate "candidate:1 1 tcp 1518280447 host.local 9 typ host tcptype passive" = Ok (GiveAgent (Some c)) ∧ c_network c = "udp".
Proof. eexists. split; reflexivity. Qed.
