(* ===== verification/MediaEngine.v ===== *)
(** * Codecs and their negotiation

    pion/webrtc mediaengine.go: the codecs and header extensions a connection
    offers and those that a remote description leaves of them, with the search
    for a codec (rtpcodec.go), the format parameters it compares
    (internal/fmtp), the codecs of a transceiver (rtptransceiver.go) and, of
    sdp.go, how codecs and extensions are written to and read from a media
    description; of pion/sdp, util.go, extmap.go, direction.go and the parts of
    jsep.go for that.  Strings are ASCII.

    Go visits the members of a map in any order: the order is an argument. *)

From Stdlib Require Import Ascii.
From S2P Require Import Prelude GoLib Bytes Sdp.

(** ** Data *)

(** webrtc.RTPCodecParameters; the statsID, which is only reported, is left
    out. *)
Record RTPCodecParameters := MkCodec {
  MimeType : string;
  ClockRate : Z;
  Channels : Z;
  SDPFmtpLine : string;
  RTCPFeedback : list (string * string);
  PayloadType : Z;
}.
Definition codec_zero : RTPCodecParameters := MkCodec "" 0 0 "" [] 0.

Definition set_PayloadType (pt : Z) (c : RTPCodecParameters) : RTPCodecParameters :=
  MkCodec (MimeType c) (ClockRate c) (Channels c) (SDPFmtpLine c) (RTCPFeedback c) pt.
Definition set_RTCPFeedback (l : list (string * string)) (c : RTPCodecParameters) : RTPCodecParameters :=
  MkCodec (MimeType c) (ClockRate c) (Channels c) (SDPFmtpLine c) l (PayloadType c).

Inductive RTPCodecType := RTPCodecTypeUnknown | RTPCodecTypeAudio | RTPCodecTypeVideo.

#[export] Instance RTPCodecType_eq_dec : EqDecision RTPCodecType.
Proof. solve_decision. Defined.

Inductive RTPTransceiverDirection :=
  | RTPTransceiverDirectionSendrecv
  | RTPTransceiverDirectionSendonly
  | RTPTransceiverDirectionRecvonly
  | RTPTransceiverDirectionInactive.

#[export] Instance RTPTransceiverDirection_eq_dec : EqDecision RTPTransceiverDirection.
Proof. solve_decision. Defined.

Definition haveRTPTransceiverDirectionIntersection (haystack needle : list RTPTransceiverDirection) : bool :=
  existsb (λ n, existsb (λ h, bool_decide (n = h)) haystack) needle.

Inductive me_err :=
  | errExtractCodecRtpmap
  | errExtractCodecFmtp
  | errExtractCodecRtcpFb
  | errPayloadTypeNotFound
  | errSyntaxError
  | errDirectionString
  | errParseUint  (* of strconv *)
  | errParseURL  (* of net/url *)
  | ErrUnknownType
  | ErrRegisterHeaderExtensionInvalidDirection
  | ErrCodecNotFound
  | errRTPTransceiverCodecUnsupported.

Abbreviation mres := (res me_err).

(** ** Format parameters *)

Inductive FMTP :=
  | h264FMTP (parameters : gmap string string)
  | genericFMTP (mimeType : string) (parameters : gmap string string).

(** The loop of Parse: a later value of a key replaces an earlier one. *)
Fixpoint parse_params (l : list string) (m : gmap string string) : gmap string string :=
  match l with
  | [] => m
  | p :: l =>
      let pp := str_cut "="%char (TrimSpace p) in
      let value := match pp.2 with Some v => v | None => EmptyString end in
      parse_params l (<[to_lower pp.1 := value]> m)
  end.

(** func Parse(mimetype, line string) FMTP *)
Definition Parse (mimetype line : string) : FMTP :=
  let parameters := parse_params (str_split line ";"%char) ∅ in
  if EqualFold mimetype "video/h264" then h264FMTP parameters
  else genericFMTP mimetype parameters.

Definition hex_digit (c : ascii) : option Z :=
  let b := byte c in
  if (48 <=? b) && (b <=? 57) then Some (b - 48)
  else if (97 <=? b) && (b <=? 102) then Some (b - 87)
  else if (65 <=? b) && (b <=? 70) then Some (b - 55)
  else None.

(** hex.DecodeString: [None] is an error. *)
Fixpoint DecodeString (s : string) : option (list Z) :=
  match s with
  | EmptyString => Some []
  | String _ EmptyString => None
  | String a (String b s) =>
      match hex_digit a, hex_digit b with
      | Some x, Some y =>
          match DecodeString s with
          | Some l => Some (16 * x + y :: l)
          | None => None
          end
      | _, _ => None
      end
  end.

(** func profileLevelIDMatches(a, b string) bool *)
Definition profileLevelIDMatches (a b : string) : bool :=
  match DecodeString a, DecodeString b with
  | Some (a0 :: a1 :: _), Some (b0 :: b1 :: _) => (a0 =? b0) && (a1 =? b1)
  | _, _ => false
  end.

(** One of the two loops of the generic Match. *)
Definition agrees (m m' : gmap string string) : bool :=
  forallb (λ kv, match m' !! kv.1 with
                 | Some v' => EqualFold v' kv.2
                 | None => true
                 end) (map_to_list m).

(** func (g *genericFMTP) Match(b FMTP) bool, func (h *h264FMTP) Match(b FMTP) bool *)
Definition Match (f g : FMTP) : bool :=
  match f, g with
  | genericFMTP mt m, genericFMTP mt' m' =>
      if negb (EqualFold mt mt') then false else agrees m m' && agrees m' m
  | h264FMTP m, h264FMTP m' =>
      match m !! "packetization-mode"%string, m' !! "packetization-mode"%string with
      | Some a, Some b =>
          if negb (bool_decide (a = b)) then false
          else match m !! "profile-level-id"%string, m' !! "profile-level-id"%string with
               | Some x, Some y => profileLevelIDMatches x y
               | _, _ => false
               end
      | _, _ => false
      end
  | _, _ => false
  end.

(** ** The search for a codec *)

Inductive codecMatchType := codecMatchNone | codecMatchPartial | codecMatchExact.

#[export] Instance codecMatchType_eq_dec : EqDecision codecMatchType.
Proof. solve_decision. Defined.

(** func codecParametersFuzzySearch(needle RTPCodecParameters, haystack []RTPCodecParameters) *)
Definition codecParametersFuzzySearch (needle : RTPCodecParameters) (haystack : list RTPCodecParameters)
    : RTPCodecParameters * codecMatchType :=
  let needleFmtp := Parse (MimeType needle) (SDPFmtpLine needle) in
  match List.find (λ c, Match needleFmtp (Parse (MimeType c) (SDPFmtpLine c))) haystack with
  | Some c => (c, codecMatchExact)
  | None =>
      match List.find (λ c, EqualFold (MimeType c) (MimeType needle)) haystack with
      | Some c => (c, codecMatchPartial)
      | None => (codec_zero, codecMatchNone)
      end
  end.

(** func (f) Parameter(key string) (string, bool), of both kinds. *)
Definition FMTP_Parameter (f : FMTP) (key : string) : option string :=
  match f with h264FMTP m | genericFMTP _ m => m !! key end.

(** ** Codecs of a description (pion/sdp util.go) *)

Record SdpCodec := MkSdpCodec {
  sc_PayloadType : Z;
  sc_Name : string;
  sc_ClockRate : Z;
  sc_EncodingParameters : string;
  sc_Fmtp : string;
  sc_RTCPFeedback : list string;
}.
Definition sdp_codec_zero : SdpCodec := MkSdpCodec 0 "" 0 "" "" [].

(** The payload type behind the colon. *)
Definition attr_payload (s : string) : option Z :=
  match str_split s ":" with
  | [_; pt] => parse_uint 8 pt
  | _ => None
  end.

Definition parseRtpmap (rtpmap : string) : mres SdpCodec :=
  match str_split rtpmap " " with
  | [a; b] =>
      match attr_payload a with
      | None => Err errExtractCodecRtpmap
      | Some pt =>
          match str_split b "/" with
          | name :: rate :: more =>
              match parse_uint 32 rate with
              | Some rate => Ok (MkSdpCodec pt name rate (match more with e :: _ => e | [] => "" end) "" [])
              | None => Err errExtractCodecRtpmap
              end
          | name :: [] => Ok (MkSdpCodec pt name 0 "" "" [])
          | [] => Panic  (* Split gives one piece at least *)
          end
      end
  | _ => Err errExtractCodecRtpmap
  end.

Definition parseFmtp (fmtp : string) : mres SdpCodec :=
  match str_split fmtp " " with
  | [a; formatParams] =>
      match attr_payload a with
      | Some pt => Ok (MkSdpCodec pt "" 0 "" formatParams [])
      | None => Err errExtractCodecFmtp
      end
  | _ => Err errExtractCodecFmtp
  end.

Definition parseRtcpFb (rtcpFb : string) : mres SdpCodec :=
  match str_cut " " rtcpFb with
  | (a, Some fb) =>
      match attr_payload a with
      | Some pt => Ok (MkSdpCodec pt "" 0 "" "" [fb])
      | None => Err errExtractCodecRtcpFb
      end
  | _ => Err errExtractCodecRtcpFb
  end.

Definition or_string (a b : string) : string := if decide (a = EmptyString) then b else a.
Definition or_num (a b : Z) : Z := if a =? 0 then b else a.

Definition mergeCodecs (codec : SdpCodec) (codecs : gmap Z SdpCodec) : gmap Z SdpCodec :=
  let saved := default sdp_codec_zero (codecs !! sc_PayloadType codec) in
  let saved := MkSdpCodec (or_num (sc_PayloadType saved) (sc_PayloadType codec)) (or_string (sc_Name saved) (sc_Name codec))
    (or_num (sc_ClockRate saved) (sc_ClockRate codec)) (or_string (sc_EncodingParameters saved) (sc_EncodingParameters codec))
    (or_string (sc_Fmtp saved) (sc_Fmtp codec)) (sc_RTCPFeedback saved ++ sc_RTCPFeedback codec) in
  <[sc_PayloadType saved := saved]> codecs.

(** One attribute; one that cannot be read is passed over. *)
Definition merge_attr (codecs : gmap Z SdpCodec) (a : Attribute) : gmap Z SdpCodec :=
  let attr := Attribute_String a in
  let merge r := match r with Ok codec => mergeCodecs codec codecs | _ => codecs end in
  if has_prefix "rtpmap:" attr then merge (parseRtpmap attr)
  else if has_prefix "fmtp:" attr then merge (parseFmtp attr)
  else if has_prefix "rtcp-fb:" attr then merge (parseRtcpFb attr)
  else codecs.

Definition buildCodecMap (medias : list MediaDescription) : gmap Z SdpCodec :=
  foldl (λ codecs m, foldl merge_attr codecs (md_Attributes m)) ∅ medias.

Definition GetCodecForPayloadType (medias : list MediaDescription) (payloadType : Z) : mres SdpCodec :=
  match buildCodecMap medias !! payloadType with
  | Some codec => Ok codec
  | None => Err errPayloadTypeNotFound
  end.

(** ** Header extensions of a description (pion/sdp extmap.go, direction.go) *)

Inductive Direction := DirectionSendRecv | DirectionSendOnly | DirectionRecvOnly | DirectionInactive.

Definition NewDirection (raw : string) : mres Direction :=
  if decide (raw = "sendrecv") then Ok DirectionSendRecv
  else if decide (raw = "sendonly") then Ok DirectionSendOnly
  else if decide (raw = "recvonly") then Ok DirectionRecvOnly
  else if decide (raw = "inactive") then Ok DirectionInactive
  else Err errDirectionString.

(** The zero value, which is none of the four, is [None]. *)
Definition Direction_String (t : option Direction) : string :=
  match t with
  | Some DirectionSendRecv => "sendrecv"
  | Some DirectionSendOnly => "sendonly"
  | Some DirectionRecvOnly => "recvonly"
  | Some DirectionInactive => "inactive"
  | None => EmptyString
  end.

Section extmap.
Context `{NetUrl}.

Record ExtMap := MkExtMap {
  em_Value : Z;
  em_Direction : option Direction;
  em_URI : option URL;
  em_ExtAttr : option string;
}.

(** Unmarshal into a new ExtMap. *)
Definition ExtMap_Unmarshal (raw : string) : mres ExtMap :=
  match str_cut ":" raw with
  | (_, Some part) =>
      match str_fields part with
      | f0 :: f1 :: fields =>
          let valdir := str_split f0 "/" in
          match atoi (hd EmptyString valdir) with
          | None => Err errSyntaxError
          | Some value =>
              if (value <? 1) || (246 <? value) then Err errSyntaxError
              else
                direction ← (match valdir with
                             | [_; d] => d ← NewDirection d; Ok (Some d)
                             | _ => Ok None
                             end);
                match url_Parse f1 with
                | None => Err errParseURL
                | Some uri => Ok (MkExtMap value direction (Some uri) (match fields with [a] => Some a | _ => None end))
                end
          end
      | _ => Err errSyntaxError
      end
  | _ => Err errSyntaxError
  end.

Definition ExtMap_string (e : ExtMap) : string :=
  let output := itoa (em_Value e) in
  let dirstring := Direction_String (em_Direction e) in
  let output := if decide (dirstring = EmptyString) then output else output +:+ "/" +:+ dirstring in
  let output := match em_URI e with Some u => output +:+ " " +:+ URL_String u | None => output end in
  match em_ExtAttr e with Some a => output +:+ " " +:+ a | None => output end.

Definition ExtMap_Marshal (e : ExtMap) : string := "extmap" +:+ ":" +:+ ExtMap_string e.
End extmap.

(** ** Between codecs and media descriptions (pion/webrtc sdp.go) *)

(** feedback of one rtcp-fb line *)
Definition feedback_of (raw : string) : string * string :=
  match str_split raw " " with
  | [t; p] => (t, p)
  | t :: _ => (t, EmptyString)
  | [] => (EmptyString, EmptyString)
  end.

(** The loop over the formats; payload type 0 needs no rtpmap. *)
Fixpoint codecs_of_formats (m : MediaDescription) (formats : list string) : mres (list RTPCodecParameters) :=
  match formats with
  | [] => Ok []
  | payloadStr :: formats =>
      match parse_uint 8 payloadStr with
      | None => Err errParseUint
      | Some payloadType =>
          match GetCodecForPayloadType [m] payloadType with
          | Ok codec =>
              let channels := default 0 (parse_uint 16 (sc_EncodingParameters codec)) in
              out ← codecs_of_formats m formats;
              Ok (MkCodec (mn_Media (md_MediaName m) +:+ "/" +:+ sc_Name codec) (sc_ClockRate codec) channels (sc_Fmtp codec)
                    (map feedback_of (sc_RTCPFeedback codec)) payloadType :: out)
          | Err e => if payloadType =? 0 then codecs_of_formats m formats else Err e
          | Panic => Panic
          | Diverge => Diverge
          end
      end
  end.

Definition codecsFromMediaDescription (m : MediaDescription) : mres (list RTPCodecParameters) :=
  codecs_of_formats m (Formats (md_MediaName m)).

Fixpoint extensions_of `{NetUrl} (l : list Attribute) (out : gmap string Z) : mres (gmap string Z) :=
  match l with
  | [] => Ok out
  | a :: l =>
      if decide (Key a = "extmap") then
        e ← ExtMap_Unmarshal (Attribute_String a);
        match em_URI e with
        | Some uri => extensions_of l (<[URL_String uri := em_Value e]> out)
        | None => Panic
        end
      else extensions_of l out
  end.

Definition rtpExtensionsFromMediaDescription `{NetUrl} (m : MediaDescription) : mres (gmap string Z) :=
  extensions_of (md_Attributes m) ∅.

(** *** Writing (pion/sdp jsep.go and addTransceiverSDP) *)

Definition WithAttribute (a : Attribute) (d : MediaDescription) : MediaDescription :=
  MkMediaDesc (md_MediaName d) (MediaTitle d) (md_ConnectionInformation d) (md_Bandwidth d) (md_EncryptionKey d) (md_Attributes d ++ [a]).
Definition WithPropertyAttribute (key : string) : MediaDescription → MediaDescription := WithAttribute (NewPropertyAttribute key).
Definition WithValueAttribute (key value : string) : MediaDescription → MediaDescription := WithAttribute (NewAttribute key value).
Definition WithExtMap `{NetUrl} (e : ExtMap) : MediaDescription → MediaDescription := WithPropertyAttribute (ExtMap_Marshal e).

Definition add_format (f : string) (d : MediaDescription) : MediaDescription :=
  let n := md_MediaName d in
  MkMediaDesc (MkMediaName (mn_Media n) (Port n) (Protos n) (Formats n ++ [f])) (MediaTitle d) (md_ConnectionInformation d)
    (md_Bandwidth d) (md_EncryptionKey d) (md_Attributes d).

Definition NewJSEPMediaDescription (codecType : string) : MediaDescription :=
  MkMediaDesc (MkMediaName codecType (MkPort 9 None) ["UDP"; "TLS"; "RTP"; "SAVPF"] []) None
    (Some (MkConnection "IN" "IP4" (Some (MkAddress "0.0.0.0" None None)))) [] None [].

Definition WithCodec (payloadType : Z) (name : string) (clockrate channels : Z) (fmtp : string) (d : MediaDescription) : MediaDescription :=
  let d := add_format (itoa payloadType) d in
  let rtpmap := itoa payloadType +:+ " " +:+ name +:+ "/" +:+ itoa clockrate in
  let rtpmap := if 0 <? channels then rtpmap +:+ "/" +:+ itoa channels else rtpmap in
  let d := WithValueAttribute "rtpmap" rtpmap d in
  if decide (fmtp = EmptyString) then d else WithValueAttribute "fmtp" (itoa payloadType +:+ " " +:+ fmtp) d.

Definition codec_name (c : RTPCodecParameters) : string := TrimPrefix (TrimPrefix (MimeType c) "audio/") "video/".

(** One round of the loop of addTransceiverSDP over the codecs. *)
Definition write_codec (media : MediaDescription) (codec : RTPCodecParameters) : MediaDescription :=
  let media := WithCodec (PayloadType codec) (codec_name codec) (ClockRate codec) (Channels codec) (SDPFmtpLine codec) media in
  foldl (λ media fb, WithValueAttribute "rtcp-fb" (itoa (PayloadType codec) +:+ " " +:+ fb.1 +:+ " " +:+ fb.2) media)
    media (RTCPFeedback codec).
Definition write_codecs (codecs : list RTPCodecParameters) (media : MediaDescription) : MediaDescription :=
  foldl write_codec media codecs.

(** ** The media engine *)

Record mediaEngineHeaderExtension := MkExt {
  ext_uri : string;
  isAudio : bool;
  isVideo : bool;
  allowedDirections : list RTPTransceiverDirection;
}.

(** A nil map is [None]. *)
Record MediaEngine := MkEngine {
  negotiatedVideo : bool;
  negotiatedAudio : bool;
  videoCodecs : list RTPCodecParameters;
  audioCodecs : list RTPCodecParameters;
  negotiatedVideoCodecs : list RTPCodecParameters;
  negotiatedAudioCodecs : list RTPCodecParameters;
  headerExtensions : list mediaEngineHeaderExtension;
  negotiatedHeaderExtensions : option (gmap Z mediaEngineHeaderExtension);
}.
Definition engine_zero : MediaEngine := MkEngine false false [] [] [] [] [] None.

Definition set_codecs (v a : list RTPCodecParameters) (m : MediaEngine) : MediaEngine :=
  MkEngine (negotiatedVideo m) (negotiatedAudio m) v a (negotiatedVideoCodecs m) (negotiatedAudioCodecs m)
    (headerExtensions m) (negotiatedHeaderExtensions m).
Definition set_negotiated (v a : bool) (m : MediaEngine) : MediaEngine :=
  MkEngine v a (videoCodecs m) (audioCodecs m) (negotiatedVideoCodecs m) (negotiatedAudioCodecs m)
    (headerExtensions m) (negotiatedHeaderExtensions m).
Definition set_negotiated_codecs (v a : list RTPCodecParameters) (m : MediaEngine) : MediaEngine :=
  MkEngine (negotiatedVideo m) (negotiatedAudio m) (videoCodecs m) (audioCodecs m) v a
    (headerExtensions m) (negotiatedHeaderExtensions m).
Definition set_headerExtensions (l : list mediaEngineHeaderExtension) (n : option (gmap Z mediaEngineHeaderExtension)) (m : MediaEngine) : MediaEngine :=
  MkEngine (negotiatedVideo m) (negotiatedAudio m) (videoCodecs m) (audioCodecs m) (negotiatedVideoCodecs m) (negotiatedAudioCodecs m) l n.

(** *** Registration *)

Definition addCodec (codecs : list RTPCodecParameters) (codec : RTPCodecParameters) : list RTPCodecParameters :=
  if existsb (λ c, bool_decide (MimeType c = MimeType codec) && (PayloadType c =? PayloadType codec)) codecs then codecs
  else codecs ++ [codec].

Definition RegisterCodec (m : MediaEngine) (codec : RTPCodecParameters) (typ : RTPCodecType) : MediaEngine * option me_err :=
  match typ with
  | RTPCodecTypeAudio => (set_codecs (videoCodecs m) (addCodec (audioCodecs m) codec) m, None)
  | RTPCodecTypeVideo => (set_codecs (addCodec (videoCodecs m) codec) (audioCodecs m) m, None)
  | RTPCodecTypeUnknown => (m, Some ErrUnknownType)
  end.

(** for _, codec := range codecs { if err := m.RegisterCodec(codec, typ) ... } *)
Fixpoint register_codecs (m : MediaEngine) (codecs : list RTPCodecParameters) (typ : RTPCodecType) : MediaEngine * option me_err :=
  match codecs with
  | [] => (m, None)
  | codec :: codecs =>
      match RegisterCodec m codec typ with
      | (m, None) => register_codecs m codecs typ
      | r => r
      end
  end.

(** The last extension with the URI is changed, or a new one added. *)
Definition index_of_uri (uri : string) (l : list mediaEngineHeaderExtension) : option nat :=
  list.foldl (λ o ie, if decide (ext_uri ie.2 = uri) then Some ie.1 else o) None (imap (λ i e, (i, e)) l).

Definition RegisterHeaderExtension (m : MediaEngine) (uri : string) (typ : RTPCodecType) (allowed : list RTPTransceiverDirection)
    : MediaEngine * option me_err :=
  let neg := Some (default ∅ (negotiatedHeaderExtensions m)) in
  let m := set_headerExtensions (headerExtensions m) neg m in
  let allowed := match allowed with
                 | [] => [RTPTransceiverDirectionRecvonly; RTPTransceiverDirectionSendonly]
                 | _ => allowed
                 end in
  if existsb (λ d, bool_decide (d ≠ RTPTransceiverDirectionRecvonly ∧ d ≠ RTPTransceiverDirectionSendonly)) allowed
  then (m, Some ErrRegisterHeaderExtensionInvalidDirection)
  else
    let exts := headerExtensions m in
    let '(exts, i) := match index_of_uri uri exts with
                      | Some i => (exts, i)
                      | None => (exts ++ [MkExt EmptyString false false []], length exts)
                      end in
    let exts := alter (λ e, MkExt uri (isAudio e || bool_decide (typ = RTPCodecTypeAudio))
                                  (isVideo e || bool_decide (typ = RTPCodecTypeVideo)) allowed) i exts in
    (set_headerExtensions exts neg m, None).

Definition add_feedback (fb : string * string) (c : RTPCodecParameters) : RTPCodecParameters :=
  set_RTCPFeedback (RTCPFeedback c ++ [fb]) c.
Definition RegisterFeedback (m : MediaEngine) (fb : string * string) (typ : RTPCodecType) : MediaEngine :=
  match typ with
  | RTPCodecTypeVideo => set_codecs (map (add_feedback fb) (videoCodecs m)) (audioCodecs m) m
  | RTPCodecTypeAudio => set_codecs (videoCodecs m) (map (add_feedback fb) (audioCodecs m)) m
  | RTPCodecTypeUnknown => m
  end.

(** What RegisterDefaultInterceptors registers with the engine: ConfigureNack and
    ConfigureTWCCSender (the constructors of the interceptors do not fail). *)
Definition TransportCCURI : string := "http://www.ietf.org/id/draft-holmer-rmcat-transport-wide-cc-extensions-01".
Definition ConfigureNack (m : MediaEngine) : MediaEngine :=
  let m := RegisterFeedback m ("nack", "") RTPCodecTypeVideo in
  RegisterFeedback m ("nack", "pli") RTPCodecTypeVideo.
Definition ConfigureTWCCSender (m : MediaEngine) : MediaEngine * option me_err :=
  let m := RegisterFeedback m ("transport-cc", "") RTPCodecTypeVideo in
  match RegisterHeaderExtension m TransportCCURI RTPCodecTypeVideo [] with
  | (m, None) =>
      let m := RegisterFeedback m ("transport-cc", "") RTPCodecTypeAudio in
      RegisterHeaderExtension m TransportCCURI RTPCodecTypeAudio []
  | r => r
  end.
Definition engine_interceptors (m : MediaEngine) : MediaEngine * option me_err := ConfigureTWCCSender (ConfigureNack m).

Definition engine_copy (m : MediaEngine) : MediaEngine :=
  MkEngine false false (videoCodecs m) (audioCodecs m) [] [] (headerExtensions m)
    (match headerExtensions m with [] => None | _ => Some ∅ end).

(** *** Codecs *)

Definition findCodecByPayload (codecs : list RTPCodecParameters) (payloadType : Z) : option RTPCodecParameters :=
  List.find (λ c, PayloadType c =? payloadType) codecs.

Definition when {A} (b : bool) (o : option A) : option A := if b then o else None.

Definition getCodecByPayload (m : MediaEngine) (payloadType : Z) : mres (RTPCodecParameters * RTPCodecType) :=
  match when (negotiatedVideo m) (findCodecByPayload (negotiatedVideoCodecs m) payloadType) with
  | Some codec => Ok (codec, RTPCodecTypeVideo)
  | None =>
      match when (negotiatedAudio m) (findCodecByPayload (negotiatedAudioCodecs m) payloadType) with
      | Some codec => Ok (codec, RTPCodecTypeAudio)
      | None =>
          match when (negb (negotiatedVideo m)) (findCodecByPayload (videoCodecs m) payloadType) with
          | Some codec => Ok (codec, RTPCodecTypeVideo)
          | None =>
              match when (negb (negotiatedAudio m)) (findCodecByPayload (audioCodecs m) payloadType) with
              | Some codec => Ok (codec, RTPCodecTypeAudio)
              | None => Err ErrCodecNotFound
              end
          end
      end
  end.

Definition getCodecsByKind (m : MediaEngine) (typ : RTPCodecType) : list RTPCodecParameters :=
  match typ with
  | RTPCodecTypeVideo => if negotiatedVideo m then negotiatedVideoCodecs m else videoCodecs m
  | RTPCodecTypeAudio => if negotiatedAudio m then negotiatedAudioCodecs m else audioCodecs m
  | RTPCodecTypeUnknown => []
  end.

(** Of a transceiver of the kind [kind] with the preferences [codecs]. *)
Definition SetCodecPreferences (m : MediaEngine) (kind : RTPCodecType) (codecs : list RTPCodecParameters) : mres (list RTPCodecParameters) :=
  if existsb (λ c, match (codecParametersFuzzySearch c (getCodecsByKind m kind)).2 with codecMatchNone => true | _ => false end) codecs
  then Err errRTPTransceiverCodecUnsupported else Ok codecs.

Definition getCodecs (m : MediaEngine) (kind : RTPCodecType) (codecs : list RTPCodecParameters) : list RTPCodecParameters :=
  match codecs with
  | [] => getCodecsByKind m kind
  | _ =>
      omap (λ codec,
        match codecParametersFuzzySearch codec (getCodecsByKind m kind) with
        | (_, codecMatchNone) => None
        | (c, _) => Some (if PayloadType codec =? 0 then set_PayloadType (PayloadType c) codec else codec)
        end) codecs
  end.

(** *** Negotiation *)

Definition apt_match (payloadType : Z) (exactMatches partialMatches : list RTPCodecParameters) : codecMatchType :=
  if existsb (λ c, PayloadType c =? payloadType) exactMatches then codecMatchExact
  else if existsb (λ c, PayloadType c =? payloadType) partialMatches then codecMatchPartial
  else codecMatchNone.

Definition matchRemoteCodec (m : MediaEngine) (remoteCodec : RTPCodecParameters) (typ : RTPCodecType)
    (exactMatches partialMatches : list RTPCodecParameters) : mres codecMatchType :=
  let codecs := match typ with RTPCodecTypeAudio => audioCodecs m | _ => videoCodecs m end in
  let matchType := (codecParametersFuzzySearch remoteCodec codecs).2 in
  match FMTP_Parameter (Parse (MimeType remoteCodec) (SDPFmtpLine remoteCodec)) "apt" with
  | Some apt =>
      match parse_uint 8 apt with
      | None => Err errParseUint
      | Some payloadType =>
          match apt_match payloadType exactMatches partialMatches, matchType with
          | codecMatchNone, _ => Ok codecMatchNone
          | codecMatchPartial, codecMatchExact => Ok codecMatchPartial
          | _, _ => Ok matchType
          end
      end
  | None => Ok matchType
  end.

Fixpoint match_codecs (m : MediaEngine) (typ : RTPCodecType) (codecs exactMatches partialMatches : list RTPCodecParameters)
    : mres (list RTPCodecParameters * list RTPCodecParameters) :=
  match codecs with
  | [] => Ok (exactMatches, partialMatches)
  | codec :: codecs =>
      matchType ← matchRemoteCodec m codec typ exactMatches partialMatches;
      match matchType with
      | codecMatchExact => match_codecs m typ codecs (exactMatches ++ [codec]) partialMatches
      | codecMatchPartial => match_codecs m typ codecs exactMatches (partialMatches ++ [codec])
      | codecMatchNone => match_codecs m typ codecs exactMatches partialMatches
      end
  end.

Definition pushCodecs (m : MediaEngine) (codecs : list RTPCodecParameters) (typ : RTPCodecType) : MediaEngine :=
  match typ with
  | RTPCodecTypeAudio => set_negotiated_codecs (negotiatedVideoCodecs m) (foldl addCodec (negotiatedAudioCodecs m) codecs) m
  | RTPCodecTypeVideo => set_negotiated_codecs (foldl addCodec (negotiatedVideoCodecs m) codecs) (negotiatedAudioCodecs m) m
  | RTPCodecTypeUnknown => m
  end.

Definition updateHeaderExtension (m : MediaEngine) (id : Z) (extension : string) (typ : RTPCodecType) : MediaEngine :=
  match negotiatedHeaderExtensions m with
  | None => m
  | Some neg =>
      let upd neg e :=
        if decide (ext_uri e = extension) then
          let h := default (MkExt extension false false (allowedDirections e)) (neg !! id) in
          let h := if isAudio e && bool_decide (typ = RTPCodecTypeAudio) then MkExt (ext_uri h) true (isVideo h) (allowedDirections h)
                   else if isVideo e && bool_decide (typ = RTPCodecTypeVideo) then MkExt (ext_uri h) (isAudio h) true (allowedDirections h)
                   else h in
          <[id := h]> neg
        else neg in
      set_headerExtensions (headerExtensions m) (Some (foldl upd neg (headerExtensions m))) m
  end.

(** The kind of a section that is negotiated now, if it is. *)
Definition section_kind (m : MediaEngine) (media : MediaDescription) : option (RTPCodecType * MediaEngine) :=
  let name := mn_Media (md_MediaName media) in
  if negb (negotiatedAudio m) && EqualFold name "audio" then Some (RTPCodecTypeAudio, set_negotiated (negotiatedVideo m) true m)
  else if negb (negotiatedVideo m) && EqualFold name "video" then Some (RTPCodecTypeVideo, set_negotiated true (negotiatedAudio m) m)
  else None.

Section negotiation.
Context `{NetUrl}.
(** The order in which the extensions are visited, when so many sections are
    left. *)
Context (order : nat → list string → list string).

Definition update_extensions (m : MediaEngine) (n : nat) (extensions : gmap string Z) (typ : RTPCodecType) : MediaEngine :=
  foldl (λ m extension, match extensions !! extension with
                        | Some id => updateHeaderExtension m id extension typ
                        | None => m
                        end) m (order n (elements (dom extensions))).

Definition negotiate_media (m : MediaEngine) (n : nat) (media : MediaDescription) : MediaEngine * mres unit :=
  match section_kind m media with
  | None => (m, Ok tt)
  | Some (typ, m) =>
      match (codecs ← codecsFromMediaDescription media; match_codecs m typ codecs [] []) with
      | Ok ([], []) => (m, Ok tt)
      | Ok (exactMatches, partialMatches) =>
          let m := pushCodecs m (match exactMatches with [] => partialMatches | _ => exactMatches end) typ in
          match rtpExtensionsFromMediaDescription media with
          | Ok extensions => (update_extensions m n extensions typ, Ok tt)
          | Err e => (m, Err e)
          | Panic => (m, Panic)
          | Diverge => (m, Diverge)
          end
      | Err e => (m, Err e)
      | Panic => (m, Panic)
      | Diverge => (m, Diverge)
      end
  end.

Fixpoint negotiate_medias (m : MediaEngine) (medias : list MediaDescription) : MediaEngine * mres unit :=
  match medias with
  | [] => (m, Ok tt)
  | media :: medias =>
      match negotiate_media m (length medias) media with
      | (m, Ok _) => negotiate_medias m medias
      | r => r
      end
  end.

Definition updateFromRemoteDescription (m : MediaEngine) (desc : SessionDescription) : MediaEngine * mres unit :=
  negotiate_medias m (MediaDescriptions desc).
End negotiation.

(** *** Header extensions *)

Section extensions.
(** The order in which the ids are visited. *)
Context (order : list Z → list Z).

Definition negotiated (m : MediaEngine) : gmap Z mediaEngineHeaderExtension := default ∅ (negotiatedHeaderExtensions m).

(** The members of a map, in the order of the visit. *)
Definition visit (m : gmap Z mediaEngineHeaderExtension) : list (Z * mediaEngineHeaderExtension) :=
  omap (λ id, pair id <$> m !! id) (order (elements (dom m))).

Definition getHeaderExtensionID (m : MediaEngine) (uri : string) : Z * bool * bool :=
  match List.find (λ ie, bool_decide (uri = ext_uri ie.2)) (visit (negotiated m)) with
  | Some (id, h) => (id, isAudio h, isVideo h)
  | None => (0, false, false)
  end.

Record RTPParameters := MkParameters {
  HeaderExtensions : list (Z * string);  (* ID and URI *)
  Codecs : list RTPCodecParameters;
}.

Definition of_kind (typ : RTPCodecType) (e : mediaEngineHeaderExtension) : bool :=
  isAudio e && bool_decide (typ = RTPCodecTypeAudio) || isVideo e && bool_decide (typ = RTPCodecTypeVideo).

Definition usable (typ : RTPCodecType) (directions : list RTPTransceiverDirection) (m : gmap Z mediaEngineHeaderExtension) : list (Z * string) :=
  omap (λ ie, if haveRTPTransceiverDirectionIntersection (allowedDirections ie.2) directions && of_kind typ ie.2
              then Some (ie.1, ext_uri ie.2) else None) (visit m).

(** An extension keeps the id it was negotiated with, or gets the first id from 1
    to 14 that is free; without one it is left out. *)
Definition assign_id (m : MediaEngine) (ids : gmap Z mediaEngineHeaderExtension) (e : mediaEngineHeaderExtension)
    : gmap Z mediaEngineHeaderExtension :=
  match List.find (λ ie, bool_decide (ext_uri ie.2 = ext_uri e)) (visit (negotiated m)) with
  | Some (id, _) => <[id := e]> ids
  | None =>
      match List.find (λ id, bool_decide (ids !! id = None ∧ negotiated m !! id = None)) (seqZ 1 14) with
      | Some id => <[id := e]> ids
      | None => ids
      end
  end.

Definition getRTPParametersByKind (m : MediaEngine) (typ : RTPCodecType) (directions : list RTPTransceiverDirection) : RTPParameters :=
  let foundCodecs := getCodecsByKind m typ in
  if negotiatedVideo m && bool_decide (typ = RTPCodecTypeVideo) || negotiatedAudio m && bool_decide (typ = RTPCodecTypeAudio)
  then MkParameters (usable typ directions (negotiated m)) foundCodecs
  else MkParameters (usable typ directions (foldl (assign_id m) ∅ (headerExtensions m))) foundCodecs.

Definition getRTPParametersByPayloadType (m : MediaEngine) (payloadType : Z) : mres RTPParameters :=
  r ← getCodecByPayload m payloadType;
  Ok (MkParameters (omap (λ ie, if of_kind r.2 ie.2 then Some (ie.1, ext_uri ie.2) else None) (visit (negotiated m))) [r.1]).
End extensions.
