(* ===== verification/MediaEngineProps.v ===== *)
(** * The negotiation of codecs

    Codecs that are written to a media description are read from it as they were
    written ([codecs_roundtrip]); what a remote description leaves of the codecs
    of an engine ([section_negotiated], [engine_good]); which descriptions are
    refused; the ids of header extensions. *)

From Stdlib Require Import Ascii.
From S2P Require Import Prelude GoLib Text Bytes Sdp SdpProps Ice IceProps MediaEngine.

(** ** Writing codecs *)

Definition encoding (c : RTPCodecParameters) : string :=
  if 0 <? Channels c then itoa (Channels c) else EmptyString.

(** The attributes of a codec. *)
Definition rtpmap_attr (c : RTPCodecParameters) : Attribute :=
  MkAttribute "rtpmap" (itoa (PayloadType c) +:+ " " +:+ codec_name c +:+ "/" +:+ itoa (ClockRate c) +:+
    (if 0 <? Channels c then "/" +:+ itoa (Channels c) else EmptyString)).
Definition fmtp_attr (c : RTPCodecParameters) : list Attribute :=
  if decide (SDPFmtpLine c = EmptyString) then [] else [MkAttribute "fmtp" (itoa (PayloadType c) +:+ " " +:+ SDPFmtpLine c)].
Definition fb_attr (pt : Z) (fb : string * string) : Attribute :=
  MkAttribute "rtcp-fb" (itoa pt +:+ " " +:+ fb.1 +:+ " " +:+ fb.2).
Definition codec_attrs (c : RTPCodecParameters) : list Attribute :=
  rtpmap_attr c :: fmtp_attr c ++ map (fb_attr (PayloadType c)) (RTCPFeedback c).

Lemma write_feedback pt l d :
  foldl (λ media fb, WithValueAttribute "rtcp-fb" (itoa pt +:+ " " +:+ fb.1 +:+ " " +:+ fb.2) media) d l =
  MkMediaDesc (md_MediaName d) (MediaTitle d) (md_ConnectionInformation d) (md_Bandwidth d) (md_EncryptionKey d)
    (md_Attributes d ++ map (fb_attr pt) l).
Proof.
  revert d. induction l as [|fb l IH]; intros d; simpl; [rewrite app_nil_r; by destruct d|]. rewrite IH. simpl.
  by rewrite <- app_assoc.
Qed.

(** A section with more formats and attributes. *)
Definition extend (d : MediaDescription) (formats : list string) (attrs : list Attribute) : MediaDescription :=
  let n := md_MediaName d in
  MkMediaDesc (MkMediaName (mn_Media n) (Port n) (Protos n) (Formats n ++ formats)) (MediaTitle d) (md_ConnectionInformation d)
    (md_Bandwidth d) (md_EncryptionKey d) (md_Attributes d ++ attrs).

Lemma write_codec_eq d c : write_codec d c = extend d [itoa (PayloadType c)] (codec_attrs c).
Proof.
  unfold write_codec. rewrite write_feedback. unfold WithCodec, codec_attrs, fmtp_attr, extend.
  assert (itoa (PayloadType c) +:+ " " +:+ codec_name c +:+ "/" +:+ itoa (ClockRate c) +:+
      (if 0 <? Channels c then "/" +:+ itoa (Channels c) else EmptyString) =
    if 0 <? Channels c then (itoa (PayloadType c) +:+ " " +:+ codec_name c +:+ "/" +:+ itoa (ClockRate c)) +:+ "/" +:+ itoa (Channels c)
    else itoa (PayloadType c) +:+ " " +:+ codec_name c +:+ "/" +:+ itoa (ClockRate c)) as E
    by (destruct (0 <? Channels c); [by rewrite <- !string_app_assoc | by rewrite !string_app_nil_r]).
  unfold rtpmap_attr. rewrite E. case_decide; simpl; f_equal; by rewrite <- !app_assoc.
Qed.

Lemma write_codecs_eq cs d : write_codecs cs d = extend d (map (λ c, itoa (PayloadType c)) cs) (concat (map codec_attrs cs)).
Proof.
  revert d. induction cs as [|c cs IH]; intros d.
  - unfold extend. simpl. rewrite !app_nil_r. by destruct d as [[]].
  - unfold write_codecs in *. cbn [foldl]. rewrite IH, write_codec_eq. unfold extend. simpl. f_equal; [f_equal|]; rewrite <- app_assoc; reflexivity.
Qed.

(** ** Reading codecs *)

Definition free_of (sep : ascii) (s : string) : Prop := all_chars (not_char sep) s = true.

Lemma itoa_free sep z : 0 ≤ z → is_digit sep = false → free_of sep (itoa z).
Proof.
  intros Hz Hs. destruct (itoa_digits z) as (d & E & _ & Hd & _). rewrite (proj2 (Z.ltb_ge _ _)) in E by lia.
  change (itoa z = d) in E. rewrite E. eapply all_chars_impl; [|exact Hd]. intros c Hc. unfold not_char.
  by rewrite digit_not.
Qed.

Lemma free_app sep s t : free_of sep s → free_of sep t → free_of sep (s +:+ t).
Proof. unfold free_of. rewrite all_chars_app. by intros -> ->. Qed.

Lemma split_free sep s : free_of sep s → str_split s sep = [s].
Proof. intros Hs. unfold str_split. by rewrite split_aux_end. Qed.
Lemma split_cons sep s t : free_of sep s → str_split (s +:+ String sep t) sep = s :: str_split t sep.
Proof. intros Hs. unfold str_split. by rewrite split_aux_app. Qed.

(** Numbers and what is put together of strings without the separator. *)
Ltac free := first [done | apply itoa_free; [lia | done] | apply free_app; free].

(** The codecs of a section of the kind [media] that survive. *)
Record codec_ok (media : string) (c : RTPCodecParameters) : Prop := {
  ok_mime : MimeType c = media +:+ "/" +:+ codec_name c;
  ok_name : free_of " " (codec_name c) ∧ free_of "/" (codec_name c);
  ok_rate : 0 ≤ ClockRate c < 2 ^ 32;
  ok_channels : 0 ≤ Channels c < 2 ^ 16;
  ok_fmtp : free_of " " (SDPFmtpLine c);
  ok_feedback : Forall (λ fb, free_of " " fb.1 ∧ free_of " " fb.2) (RTCPFeedback c);
  ok_payload : 0 ≤ PayloadType c < 2 ^ 8;
}.

Lemma payload_read key pt : free_of ":" key → 0 ≤ pt < 2 ^ 8 → attr_payload (key +:+ ":" +:+ itoa pt) = Some pt.
Proof.
  intros Hk Hp. unfold attr_payload. change (":" +:+ itoa pt) with (String ":" (itoa pt)).
  rewrite split_cons, split_free by free. by apply parse_uint_printed.
Qed.

(** The string of an attribute with a payload type and a rest. *)
Lemma attr_string key pt rest : Attribute_String (MkAttribute key (itoa pt +:+ " " +:+ rest)) = (key +:+ ":" +:+ itoa pt) +:+ String " " rest.
Proof.
  unfold Attribute_String. cbn [Key Value]. rewrite decide_False; [by rewrite <- !string_app_assoc|].
  by destruct (itoa pt).
Qed.

Section attributes.
Context (media : string) (c : RTPCodecParameters) (Hc : codec_ok media c).

Lemma rtpmap_read : parseRtpmap (Attribute_String (rtpmap_attr c)) =
  Ok (MkSdpCodec (PayloadType c) (codec_name c) (ClockRate c) (encoding c) "" []).
Proof.
  destruct Hc as [_ [Hn1 Hn2] Hr Hch _ _ Hp]. unfold rtpmap_attr. rewrite attr_string. unfold parseRtpmap.
  set (enc := if 0 <? Channels c then _ else _).
  assert (free_of " " enc) as Henc by (unfold enc; destruct (0 <? Channels c); free).
  rewrite split_cons by free. rewrite split_free by free.
  rewrite payload_read by done. change ("/" +:+ ?x) with (String "/" x). rewrite split_cons by done.
  unfold enc, encoding. destruct (0 <? Channels c) eqn:Ec.
  - change ("/" +:+ ?x) with (String "/" x). rewrite split_cons, split_free by free.
    by rewrite parse_uint_printed.
  - rewrite string_app_nil_r, split_free by free. by rewrite parse_uint_printed.
Qed.

Lemma fmtp_read : parseFmtp (Attribute_String (MkAttribute "fmtp" (itoa (PayloadType c) +:+ " " +:+ SDPFmtpLine c))) =
  Ok (MkSdpCodec (PayloadType c) "" 0 "" (SDPFmtpLine c) []).
Proof.
  destruct Hc as [_ _ _ _ Hf _ Hp]. rewrite attr_string. unfold parseFmtp.
  rewrite split_cons, split_free by free. by rewrite payload_read.
Qed.

Lemma fb_read fb : parseRtcpFb (Attribute_String (fb_attr (PayloadType c) fb)) =
  Ok (MkSdpCodec (PayloadType c) "" 0 "" "" [fb.1 +:+ " " +:+ fb.2]).
Proof.
  destruct Hc as [_ _ _ _ _ _ Hp]. unfold fb_attr. rewrite attr_string. unfold parseRtcpFb.
  rewrite cut_app by free. by rewrite payload_read.
Qed.

(** What a description says of the codec. *)
Definition sdp_codec (l : list (string * string)) (f : string) : SdpCodec :=
  MkSdpCodec (PayloadType c) (codec_name c) (ClockRate c) (encoding c) f (map (λ fb, fb.1 +:+ " " +:+ fb.2) l).

Lemma or_string_r x : or_string x EmptyString = x.
Proof. unfold or_string. by case_decide. Qed.
Lemma or_num_same x : or_num x x = x.
Proof. unfold or_num. by case_match. Qed.
Lemma or_num_r x : or_num x 0 = x.
Proof. unfold or_num. case_match; lia. Qed.

Lemma merge_rtpmap M : M !! PayloadType c = None → merge_attr M (rtpmap_attr c) = <[PayloadType c := sdp_codec [] ""]> M.
Proof.
  intros HM. unfold merge_attr. rewrite rtpmap_read. unfold rtpmap_attr. rewrite attr_string. cbn [has_prefix String.append].
  cbn. unfold mergeCodecs. cbn. by rewrite HM.
Qed.
Lemma merge_fmtp M : M !! PayloadType c = Some (sdp_codec [] "") → SDPFmtpLine c ≠ EmptyString →
  merge_attr M (MkAttribute "fmtp" (itoa (PayloadType c) +:+ " " +:+ SDPFmtpLine c)) = <[PayloadType c := sdp_codec [] (SDPFmtpLine c)]> M.
Proof.
  intros HM Hf. unfold merge_attr. rewrite fmtp_read, attr_string. cbn. unfold mergeCodecs. cbn. rewrite HM. cbn.
  by rewrite or_num_same, !or_string_r, or_num_r.
Qed.
Lemma merge_fb M l f fb : M !! PayloadType c = Some (sdp_codec l f) →
  merge_attr M (fb_attr (PayloadType c) fb) = <[PayloadType c := sdp_codec (l ++ [fb]) f]> M.
Proof.
  intros HM. unfold merge_attr. rewrite fb_read. unfold fb_attr. rewrite attr_string. cbn. unfold mergeCodecs. cbn. rewrite HM. cbn.
  rewrite or_num_same, !or_string_r, or_num_r. unfold sdp_codec. by rewrite map_app.
Qed.
Lemma merge_fbs fbs : ∀ M l f, M !! PayloadType c = Some (sdp_codec l f) →
  foldl merge_attr M (map (fb_attr (PayloadType c)) fbs) = <[PayloadType c := sdp_codec (l ++ fbs) f]> M.
Proof.
  induction fbs as [|fb fbs IH]; intros M l f HM; cbn [map foldl]; [rewrite app_nil_r; by rewrite insert_id|].
  rewrite (merge_fb M l f fb HM), (IH _ (l ++ [fb]) f) by apply lookup_insert_eq. by rewrite insert_insert_eq, <- app_assoc.
Qed.

Lemma merge_codec M : M !! PayloadType c = None →
  foldl merge_attr M (codec_attrs c) = <[PayloadType c := sdp_codec (RTCPFeedback c) (SDPFmtpLine c)]> M.
Proof.
  intros HM. unfold codec_attrs, fmtp_attr. cbn [foldl]. rewrite (merge_rtpmap M HM), foldl_app. case_decide as Hf.
  - cbn [foldl]. rewrite (merge_fbs _ _ [] "") by apply lookup_insert_eq. by rewrite insert_insert_eq, Hf.
  - cbn [foldl]. rewrite merge_fmtp by (done || apply lookup_insert_eq).
    rewrite insert_insert_eq, (merge_fbs _ _ [] (SDPFmtpLine c)) by apply lookup_insert_eq. by rewrite insert_insert_eq.
Qed.

(** The codec is made of it again. *)
Lemma codec_made : MkCodec (media +:+ "/" +:+ codec_name c) (ClockRate c) (default 0 (parse_uint 16 (encoding c))) (SDPFmtpLine c)
  (map feedback_of (map (λ fb, fb.1 +:+ " " +:+ fb.2) (RTCPFeedback c))) (PayloadType c) = c.
Proof.
  destruct Hc as [Hm _ _ Hch _ Hfb _]. rewrite <- Hm. rewrite map_map.
  assert (map (λ fb, feedback_of (fb.1 +:+ " " +:+ fb.2)) (RTCPFeedback c) = RTCPFeedback c) as ->.
  { clear -Hfb. induction Hfb as [|[t q] l [Ht Hq] _ IH]; simpl in *; [done|]. rewrite IH. f_equal. unfold feedback_of.
    change (" " +:+ q) with (String " " q). by rewrite split_cons, split_free. }
  assert (default 0 (parse_uint 16 (encoding c)) = Channels c) as ->; [|by destruct c].
  unfold encoding. destruct (0 <? Channels c) eqn:E; [by rewrite parse_uint_printed|]. simpl. lia.
Qed.
End attributes.

(** Attributes that say nothing of codecs. *)
Definition no_codec (a : Attribute) : bool :=
  negb (existsb (λ p, has_prefix p (Attribute_String a)) ["rtpmap:"; "fmtp:"; "rtcp-fb:"]).

Lemma merge_none l M : forallb no_codec l = true → foldl merge_attr M l = M.
Proof.
  revert M. induction l as [|a l IH]; intros M; cbn [forallb foldl]; [done|]. rewrite andb_true_iff. intros [Ha Hl].
  rewrite <- (IH M Hl) at 2. f_equal. unfold merge_attr. unfold no_codec in Ha. cbn [existsb] in Ha.
  rewrite !orb_false_r, negb_true_iff, !orb_false_iff in Ha. by destruct Ha as (-> & -> & ->).
Qed.

Lemma merge_codecs media cs : Forall (codec_ok media) cs → NoDup (map PayloadType cs) → ∀ M,
  (∀ c, c ∈ cs → M !! PayloadType c = None) →
  let R := foldl merge_attr M (concat (map codec_attrs cs)) in
  (∀ k, k ∉ map PayloadType cs → R !! k = M !! k) ∧
  ∀ c, c ∈ cs → R !! PayloadType c = Some (sdp_codec c (RTCPFeedback c) (SDPFmtpLine c)).
Proof.
  induction 1 as [|c cs Hc _ IH]; intros Hd M HM; [split; [done | intros c Hc; by apply not_elem_of_nil in Hc]|].
  cbn [map concat] in *. rewrite foldl_app. apply NoDup_cons in Hd as [Hn Hd].
  rewrite (merge_codec media c Hc) by (apply HM; left). set (M' := <[_ := _]> M).
  destruct (IH Hd M') as [H1 H2].
  { intros c' Hc'. unfold M'. rewrite lookup_insert_ne; [apply HM; by right|]. intros E. apply Hn. rewrite E.
    by apply list_elem_of_fmap_2. }
  split.
  - intros k Hk. apply not_elem_of_cons in Hk as [Hk1 Hk2]. rewrite H1 by done. unfold M'. by rewrite lookup_insert_ne.
  - intros c' [->|Hc']%elem_of_cons; [|by apply H2]. rewrite H1 by done. unfold M'. by rewrite lookup_insert_eq.
Qed.

(** The formats are looked up one by one. *)
Lemma formats_read m cs : Forall (codec_ok (mn_Media (md_MediaName m))) cs →
  (∀ c, c ∈ cs → buildCodecMap [m] !! PayloadType c = Some (sdp_codec c (RTCPFeedback c) (SDPFmtpLine c))) →
  codecs_of_formats m (map (λ c, itoa (PayloadType c)) cs) = Ok cs.
Proof.
  induction 1 as [|c cs Hc _ IH]; intros HM; cbn [map codecs_of_formats]; [done|].
  rewrite parse_uint_printed by apply Hc. unfold GetCodecForPayloadType. rewrite (HM c) by left.
  rewrite IH by (intros; apply HM; by right). exact (f_equal (λ x, Ok (x :: cs)) (codec_made _ c Hc)).
Qed.

(** Codecs survive a media description: what addTransceiverSDP writes of codecs
    with distinct payload types into a section, whatever other attributes the
    section has, codecsFromMediaDescription reads back, with names, rates,
    channels, parameters and feedback. *)
Lemma codecs_roundtrip cs d more :
  let media := mn_Media (md_MediaName d) in
  Formats (md_MediaName d) = [] → forallb no_codec (md_Attributes d) = true → forallb no_codec more = true →
  Forall (codec_ok media) cs → NoDup (map PayloadType cs) →
  codecsFromMediaDescription (extend (write_codecs cs d) [] more) = Ok cs.
Proof.
  intros media Hf Hd Hm Hok Hn. unfold codecsFromMediaDescription. rewrite write_codecs_eq.
  unfold extend. cbn [md_MediaName Formats mn_Media md_Attributes Port Protos MediaTitle md_ConnectionInformation md_Bandwidth md_EncryptionKey].
  rewrite Hf, app_nil_r. cbn [app]. apply formats_read; [exact Hok|]. intros c Hc. unfold buildCodecMap. cbn [foldl md_Attributes].
  rewrite !foldl_app, (merge_none more) by done. rewrite (merge_none (md_Attributes d)) by done.
  by apply (merge_codecs media cs Hok Hn).
Qed.

(** ** Codecs that match *)

Lemma fold_trans a b c : EqualFold a b = true → EqualFold b c = true → EqualFold a c = true.
Proof. unfold EqualFold. rewrite !bool_decide_eq_true. congruence. Qed.
Lemma fold_sym a b : EqualFold a b = true → EqualFold b a = true.
Proof. unfold EqualFold. rewrite !bool_decide_eq_true. congruence. Qed.

Lemma match_mime m1 l1 m2 l2 : Match (Parse m1 l1) (Parse m2 l2) = true → EqualFold m1 m2 = true.
Proof.
  unfold Parse. destruct (EqualFold m1 "video/h264") eqn:E1, (EqualFold m2 "video/h264") eqn:E2; try done.
  - intros _. exact (fold_trans _ _ _ E1 (fold_sym _ _ E2)).
  - simpl. by destruct (EqualFold m1 m2).
Qed.

(** A codec that is found has the MIME type of one in the list. *)
Definition fits (l : list RTPCodecParameters) (c : RTPCodecParameters) : Prop :=
  ∃ r, r ∈ l ∧ EqualFold (MimeType c) (MimeType r) = true.

Lemma search_fits c l : (codecParametersFuzzySearch c l).2 ≠ codecMatchNone → fits l c.
Proof.
  unfold codecParametersFuzzySearch.
  destruct (List.find (λ r, Match _ _) l) as [r|] eqn:E1.
  - intros _. apply List.find_some in E1 as [Hr HM]. exists r. split; [by apply list_elem_of_In | by eapply match_mime].
  - clear E1. destruct (List.find _ l) as [r|] eqn:E2; [|done]. intros _. apply List.find_some in E2 as [Hr HM].
    exists r. split; [by apply list_elem_of_In | by apply fold_sym].
Qed.

Definition codecs_for (m : MediaEngine) (typ : RTPCodecType) : list RTPCodecParameters :=
  match typ with RTPCodecTypeAudio => audioCodecs m | _ => videoCodecs m end.
Definition match_of (m : MediaEngine) (typ : RTPCodecType) (c : RTPCodecParameters) : codecMatchType :=
  (codecParametersFuzzySearch c (codecs_for m typ)).2.

Lemma remote_match m c typ ex pa t : matchRemoteCodec m c typ ex pa = Ok t → t ≠ codecMatchNone → match_of m typ c ≠ codecMatchNone.
Proof.
  unfold matchRemoteCodec, match_of. fold (codecs_for m typ). set (t' := (codecParametersFuzzySearch _ _).2).
  destruct (FMTP_Parameter _ _) as [apt|]; [|by intros [= <-]]. destruct (parse_uint 8 apt); [|done].
  destruct (apt_match _ _ _), t'; intros [= <-]; done.
Qed.

(** Whatever holds of the codecs that fit holds of those that are taken. *)
Lemma match_codecs_forall (P : RTPCodecParameters → Prop) m typ cs : ∀ ex pa r,
  (∀ c, c ∈ cs → match_of m typ c ≠ codecMatchNone → P c) → Forall P ex → Forall P pa →
  match_codecs m typ cs ex pa = Ok r → Forall P r.1 ∧ Forall P r.2.
Proof.
  induction cs as [|c cs IH]; intros ex pa r HP He Hp; cbn [match_codecs]; [by intros [= <-]|].
  destruct (matchRemoteCodec m c typ ex pa) as [t| | |] eqn:E; try done. cbn [mbind res_bind].
  pose proof (remote_match _ _ _ _ _ _ E) as Ht.
  assert (∀ c', c' ∈ cs → match_of m typ c' ≠ codecMatchNone → P c') as HP' by (intros; apply HP; [by right | done]).
  destruct t; apply IH; try done; apply Forall_app; (split; [done|]); repeat constructor; apply HP; (left || by apply Ht).
Qed.

(** A codec that is no retransmission of another one (apt=), or one of a kind that
    the engine does not have. *)
Definition apt_settled (m : MediaEngine) (typ : RTPCodecType) (c : RTPCodecParameters) : bool :=
  match FMTP_Parameter (Parse (MimeType c) (SDPFmtpLine c)) "apt" with
  | None => true
  | Some apt =>
      match parse_uint 8 apt, match_of m typ c with
      | Some _, codecMatchNone => true
      | _, _ => false
      end
  end.

Definition of_match (m : MediaEngine) (typ : RTPCodecType) (t : codecMatchType) (cs : list RTPCodecParameters) : list RTPCodecParameters :=
  filter (λ c, match_of m typ c = t) cs.

Lemma match_codecs_plain m typ cs : forallb (apt_settled m typ) cs = true → ∀ ex pa,
  match_codecs m typ cs ex pa = Ok (ex ++ of_match m typ codecMatchExact cs, pa ++ of_match m typ codecMatchPartial cs).
Proof.
  unfold of_match. induction cs as [|c cs IH]; intros Hc ex pa; cbn [match_codecs forallb] in *; [by rewrite !app_nil_r|].
  apply andb_true_iff in Hc as [Hc Hcs].
  assert (matchRemoteCodec m c typ ex pa = Ok (match_of m typ c)) as ->.
  { unfold matchRemoteCodec, apt_settled in *. fold (codecs_for m typ). fold (match_of m typ c).
    destruct (FMTP_Parameter _ _) as [apt|]; [|done]. destruct (parse_uint 8 apt); [|done].
    destruct (match_of m typ c); try done. by destruct (apt_match _ _ _). }
  cbn [mbind res_bind].
  rewrite !filter_cons. destruct (match_of m typ c) eqn:E; repeat (case_decide; [|try done]); try done; rewrite (IH Hcs); by rewrite <- ?app_assoc.
Qed.

(** ** What is negotiated *)

Definition codec_key (c : RTPCodecParameters) : string * Z := (MimeType c, PayloadType c).

Lemma addCodec_cases l c : addCodec l c = l ∧ codec_key c ∈ map codec_key l ∨ addCodec l c = l ++ [c] ∧ codec_key c ∉ map codec_key l.
Proof.
  unfold addCodec. destruct (existsb _ l) eqn:E; [left|right]; (split; [done|]).
  - apply existsb_exists in E as (r & Hr & Hk). rewrite andb_true_iff, bool_decide_eq_true, Z.eqb_eq in Hk. destruct Hk as [H1 H2].
    replace (codec_key c) with (codec_key r) by (unfold codec_key; congruence).
    by apply list_elem_of_fmap_2, list_elem_of_In.
  - intros (r & Hr & Hk)%list_elem_of_fmap. unfold codec_key in Hr. injection Hr as H1 H2.
    assert (existsb (λ r, bool_decide (MimeType r = MimeType c) && (PayloadType r =? PayloadType c)) l = true) as E'; [|congruence].
    apply existsb_exists. exists r. split; [by apply list_elem_of_In|]. rewrite bool_decide_eq_true_2 by done. by rewrite H2, Z.eqb_refl.
Qed.

Lemma addCodecs_forall (P : RTPCodecParameters → Prop) cs l : Forall P l → Forall P cs → Forall P (foldl addCodec l cs).
Proof.
  intros Hl Hcs. revert l Hl. induction Hcs as [|c cs Hc _ IH]; intros l Hl; cbn [foldl]; [done|]. apply IH.
  destruct (addCodec_cases l c) as [[-> _]|[-> _]]; [done|]. by apply Forall_app_2; [|constructor].
Qed.
Lemma addCodecs_uniq cs l : NoDup (map codec_key l) → NoDup (map codec_key (foldl addCodec l cs)).
Proof.
  revert l. induction cs as [|c cs IH]; intros l Hl; cbn [foldl]; [done|]. apply IH.
  destruct (addCodec_cases l c) as [[-> _]|[-> Hn]]; [done|]. rewrite map_app. apply NoDup_app. split; [done|].
  split; [|apply NoDup_singleton]. intros k Hk ->%list_elem_of_singleton. done.
Qed.
(** Codecs with distinct payload types are all added. *)
Lemma addCodecs_all cs : NoDup (map PayloadType cs) → foldl addCodec [] cs = cs.
Proof.
  assert (∀ l, NoDup (map PayloadType (l ++ cs)) → foldl addCodec l cs = l ++ cs) as H; [|apply (H [])].
  induction cs as [|c cs IH]; intros l Hd; cbn [foldl]; [by rewrite app_nil_r|].
  assert (addCodec l c = l ++ [c]) as ->; [|by rewrite IH; rewrite <- app_assoc].
  destruct (addCodec_cases l c) as [[_ Hk]|[-> _]]; [|done]. exfalso.
  apply list_elem_of_fmap in Hk as (r & Hr & Hl). unfold codec_key in Hr. injection Hr as _ Hp.
  rewrite map_app in Hd. apply NoDup_app in Hd as (_ & Hd & _). apply (Hd (PayloadType r)); [by apply list_elem_of_fmap_2|].
  rewrite <- Hp. simpl. left.
Qed.

(** The engine of a connection made from [m0], at any time: what was registered is
    kept, and what was negotiated fits it. *)
Record kind_good (registered negotiated : list RTPCodecParameters) (done : bool) : Prop := {
  kg_fresh : done = false → negotiated = [];
  kg_fits : Forall (λ c, fits registered c ∧ 0 ≤ PayloadType c < 2 ^ 8) negotiated;
  kg_uniq : NoDup (map codec_key negotiated);
}.
Record engine_good (m0 m : MediaEngine) : Prop := {
  eg_video : videoCodecs m = videoCodecs m0;
  eg_audio : audioCodecs m = audioCodecs m0;
  eg_exts : headerExtensions m = headerExtensions m0;
  eg_video_good : kind_good (videoCodecs m0) (negotiatedVideoCodecs m) (negotiatedVideo m);
  eg_audio_good : kind_good (audioCodecs m0) (negotiatedAudioCodecs m) (negotiatedAudio m);
}.

Lemma kind_good_new l : kind_good l [] false.
Proof. split; [done | constructor | constructor]. Qed.
Lemma engine_good_copy m : engine_good (engine_copy m) (engine_copy m).
Proof. split; try done; apply kind_good_new. Qed.

Lemma kind_good_push l n b cs : kind_good l n b → Forall (λ c, fits l c ∧ 0 ≤ PayloadType c < 2 ^ 8) cs → kind_good l (foldl addCodec n cs) true.
Proof. intros [_ H2 H3] Hcs. split; [done | by apply addCodecs_forall | by apply addCodecs_uniq]. Qed.

Lemma formats_payload m fs : ∀ cs, codecs_of_formats m fs = Ok cs → Forall (λ c, 0 ≤ PayloadType c < 2 ^ 8) cs.
Proof.
  induction fs as [|f fs IH]; intros cs; cbn [codecs_of_formats]; [intros [= <-]; constructor|].
  destruct (parse_uint 8 f) as [pt|] eqn:Ep; [|done]. apply parse_uint_range in Ep; [|done].
  destruct (GetCodecForPayloadType [m] pt); [|case_match; [apply IH | done] | done | done].
  destruct (codecs_of_formats m fs) as [out| | |]; try done. intros [= <-]. constructor; [done|]. by apply IH.
Qed.

Lemma extensions_kept m id ext typ : let m' := updateHeaderExtension m id ext typ in
  videoCodecs m' = videoCodecs m ∧ audioCodecs m' = audioCodecs m ∧ headerExtensions m' = headerExtensions m ∧
  negotiatedVideoCodecs m' = negotiatedVideoCodecs m ∧ negotiatedAudioCodecs m' = negotiatedAudioCodecs m ∧
  negotiatedVideo m' = negotiatedVideo m ∧ negotiatedAudio m' = negotiatedAudio m.
Proof. unfold updateHeaderExtension. by destruct (negotiatedHeaderExtensions m). Qed.

Lemma update_extensions_kept order m n exts typ : let m' := update_extensions order m n exts typ in
  videoCodecs m' = videoCodecs m ∧ audioCodecs m' = audioCodecs m ∧ headerExtensions m' = headerExtensions m ∧
  negotiatedVideoCodecs m' = negotiatedVideoCodecs m ∧ negotiatedAudioCodecs m' = negotiatedAudioCodecs m ∧
  negotiatedVideo m' = negotiatedVideo m ∧ negotiatedAudio m' = negotiatedAudio m.
Proof.
  unfold update_extensions. generalize (order n (elements (dom exts))). intros l. revert m.
  induction l as [|e l IH]; intros m; [done|]. cbn [foldl]. cbv zeta. destruct (exts !! e) as [id|]; [|apply IH].
  destruct (extensions_kept m id e typ) as (E1 & E2 & E3 & E4 & E5 & E6 & E7).
  destruct (IH (updateHeaderExtension m id e typ)) as (F1 & F2 & F3 & F4 & F5 & F6 & F7). split_and!; congruence.
Qed.

Lemma good_extensions m0 order m n exts typ : engine_good m0 m → engine_good m0 (update_extensions order m n exts typ).
Proof.
  intros [E1 E2 E3 G1 G2]. destruct (update_extensions_kept order m n exts typ) as (F1 & F2 & F3 & F4 & F5 & F6 & F7).
  split; [congruence.. | |]; [rewrite F4, F6 | rewrite F5, F7]; done.
Qed.

Lemma kind_good_start l n b : kind_good l n b → kind_good l n true.
Proof. intros [_ H2 H3]. by split. Qed.

(** A section that is negotiated. *)
Lemma section_kind_some m media typ m1 : section_kind m media = Some (typ, m1) →
  typ = RTPCodecTypeAudio ∧ negotiatedAudio m = false ∧ m1 = set_negotiated (negotiatedVideo m) true m ∨
  typ = RTPCodecTypeVideo ∧ negotiatedVideo m = false ∧ m1 = set_negotiated true (negotiatedAudio m) m.
Proof.
  unfold section_kind. destruct (negotiatedAudio m), (negotiatedVideo m), (EqualFold _ "audio"), (EqualFold _ "video"); simpl;
    intros [= <- <-]; auto.
Qed.

Lemma section_kind_good m0 m media typ m1 : section_kind m media = Some (typ, m1) → engine_good m0 m → engine_good m0 m1.
Proof.
  intros [(_ & _ & ->)|(_ & _ & ->)]%section_kind_some [E1 E2 E3 G1 G2]; (split; [done.. | |]); cbn; eauto using kind_good_start.
Qed.

Lemma pushCodecs_good m0 m cs typ : engine_good m0 m → (typ = RTPCodecTypeAudio → negotiatedAudio m = true) → (typ = RTPCodecTypeVideo → negotiatedVideo m = true) →
  Forall (λ c, fits (codecs_for m typ) c ∧ 0 ≤ PayloadType c < 2 ^ 8) cs → engine_good m0 (pushCodecs m cs typ).
Proof.
  intros [E1 E2 E3 G1 G2] Ha Hv Hcs. unfold pushCodecs, codecs_for in *. destruct typ; [done| |]; (split; [done.. | |]); cbn; try done.
  - rewrite Ha by done. rewrite E2 in Hcs. by eapply kind_good_push.
  - rewrite Hv by done. rewrite E1 in Hcs. by eapply kind_good_push.
Qed.

Section good.
Context `{NetUrl} (order : nat → list string → list string).

Lemma update_media_good m0 m n media : engine_good m0 m → engine_good m0 (negotiate_media order m n media).1.
Proof.
  intros Hg. unfold negotiate_media. destruct (section_kind m media) as [[typ m1]|] eqn:Ek; [|done].
  pose proof (section_kind_good _ _ _ _ _ Ek Hg) as Hg1.
  destruct (codecsFromMediaDescription media) as [cs|e| |] eqn:Ec; [|done..]. cbn [mbind res_bind].
  destruct (match_codecs m1 typ cs [] []) as [[ex pa]|e| |] eqn:Em; [|done..].
  set (l := match ex with [] => pa | _ => ex end).
  assert (engine_good m0 (pushCodecs m1 l typ)) as Hg2.
  { apply pushCodecs_good; [done | | |].
    - intros ->. by destruct (section_kind_some _ _ _ _ Ek) as [(_ & _ & ->)|(? & _)].
    - intros ->. by destruct (section_kind_some _ _ _ _ Ek) as [(? & _)|(_ & _ & ->)].
    - apply formats_payload in Ec.
      destruct (match_codecs_forall (λ c, fits (codecs_for m1 typ) c ∧ 0 ≤ PayloadType c < 2 ^ 8) m1 typ cs [] [] (ex, pa)) as [Hex Hpa];
        [| constructor | constructor | done | by destruct ex].
      intros c Hc Hm. split; [by apply search_fits|]. rewrite Forall_forall in Ec. by apply Ec. }
  destruct ex, pa; [done|..]; destruct (rtpExtensionsFromMediaDescription media); first [exact Hg2 | exact (good_extensions _ _ _ _ _ _ Hg2)].
Qed.

Lemma update_medias_good m0 medias : ∀ m, engine_good m0 m → engine_good m0 (negotiate_medias order m medias).1.
Proof.
  induction medias as [|media medias IH]; intros m Hg; cbn [negotiate_medias]; [done|].
  pose proof (update_media_good m0 m (length medias) media Hg) as Hg'. destruct (negotiate_media order m (length medias) media) as [m' []]; try done.
  by apply IH.
Qed.

Lemma update_good m0 m desc : engine_good m0 m → engine_good m0 (updateFromRemoteDescription order m desc).1.
Proof. apply update_medias_good. Qed.
End good.

(** ** A section, negotiated *)

Lemma match_of_started m v a typ : match_of (set_negotiated v a m) typ = match_of m typ.
Proof. by destruct typ. Qed.

Lemma of_match_distinct m typ t cs : NoDup (map PayloadType cs) → NoDup (map PayloadType (of_match m typ t cs)).
Proof.
  unfold of_match. induction cs as [|c cs IH]; [done|]. cbn [map]. intros [Hn Hd]%NoDup_cons. rewrite filter_cons.
  case_decide; [|by apply IH]. cbn [map]. apply NoDup_cons. split; [|by apply IH].
  intros (c' & E & Hc')%list_elem_of_fmap. apply list_elem_of_filter in Hc' as [_ Hc']. apply Hn. rewrite E. by apply list_elem_of_fmap_2.
Qed.

(** The codecs of the first section of its kind that match a registered codec
    exactly or, if there are none, those that match one by their name. *)
Definition chosen (m : MediaEngine) (typ : RTPCodecType) (cs : list RTPCodecParameters) : list RTPCodecParameters :=
  match of_match m typ codecMatchExact cs with [] => of_match m typ codecMatchPartial cs | l => l end.

Lemma chosen_distinct m typ cs : NoDup (map PayloadType cs) → NoDup (map PayloadType (chosen m typ cs)).
Proof.
  intros Hd. unfold chosen. pose proof (of_match_distinct m typ codecMatchExact cs Hd). pose proof (of_match_distinct m typ codecMatchPartial cs Hd).
  by destruct (of_match m typ codecMatchExact cs).
Qed.

Lemma chosen_pushed m typ m1 media cs : section_kind m media = Some (typ, m1) →
  negotiatedAudio m = false ∧ typ = RTPCodecTypeAudio ∧ negotiatedAudioCodecs m = [] ∨
  negotiatedVideo m = false ∧ typ = RTPCodecTypeVideo ∧ negotiatedVideoCodecs m = [] →
  NoDup (map PayloadType cs) → getCodecsByKind (pushCodecs m1 cs typ) typ = cs ∧ (cs = [] → getCodecsByKind m1 typ = cs).
Proof.
  intros Hk He Hd. destruct (section_kind_some _ _ _ _ Hk) as [(-> & _ & ->)|(-> & _ & ->)];
    (destruct He as [(_ & Ht & En)|(_ & Ht & En)]; [try discriminate Ht | try discriminate Ht]); cbn; rewrite En, addCodecs_all by done;
    (split; [done | by intros ->]).
Qed.

Lemma good_empty m0 m media typ m1 : engine_good m0 m → section_kind m media = Some (typ, m1) →
  negotiatedAudio m = false ∧ typ = RTPCodecTypeAudio ∧ negotiatedAudioCodecs m = [] ∨
  negotiatedVideo m = false ∧ typ = RTPCodecTypeVideo ∧ negotiatedVideoCodecs m = [].
Proof.
  intros [_ _ _ Gv Ga] [(-> & E & _)|(-> & E & _)]%section_kind_some; [left | right]; (split_and!; [done | done |]);
    [by apply (kg_fresh _ _ _ Ga) | by apply (kg_fresh _ _ _ Gv)].
Qed.

Lemma kinds_kept order m n exts typ : getCodecsByKind (update_extensions order m n exts typ) typ = getCodecsByKind m typ.
Proof.
  destruct (update_extensions_kept order m n exts typ) as (F1 & F2 & F3 & F4 & F5 & F6 & F7). unfold getCodecsByKind. destruct typ; [done | by rewrite F7, F5, F2 | by rewrite F6, F4, F1].
Qed.

(** C11. Codecs survive a media description and are negotiated: what
    addTransceiverSDP writes of codecs with distinct payload types of 8 bits,
    and with names, parameters and feedback without spaces, into a section whose
    other attributes are not about codecs, is read back; if the extmap lines can
    be read and the codecs that retransmit another one (apt=) are of a kind that
    the engine does not have, an engine that has not negotiated this kind of
    media then offers, with the payload types of the other side, exactly the
    codecs that match one of its own exactly or, if there are none, those that
    match one by name. *)
Theorem codecs_negotiated `{NetUrl} order m0 m n typ m1 cs d more exts :
  let media := extend (write_codecs cs d) [] more in let r := negotiate_media order m n media in
  Formats (md_MediaName d) = [] → forallb no_codec (md_Attributes d) = true → forallb no_codec more = true →
  Forall (codec_ok (mn_Media (md_MediaName d))) cs → NoDup (map PayloadType cs) → forallb (apt_settled m typ) cs = true →
  engine_good m0 m → section_kind m media = Some (typ, m1) → rtpExtensionsFromMediaDescription media = Ok exts →
  codecsFromMediaDescription media = Ok cs ∧ r.2 = Ok tt ∧ getCodecsByKind r.1 typ = chosen m typ cs.
Proof.
  intros media r Hf Hd Hm Hok Hn Hapt Hg Hk Hx. pose proof (codecs_roundtrip cs d more Hf Hd Hm Hok Hn) as Hc. fold media in Hc.
  split; [done|]. unfold r, negotiate_media. rewrite Hk, Hc. cbn [mbind res_bind].
  assert (match_of m1 typ = match_of m typ) as Em
    by (destruct (section_kind_some _ _ _ _ Hk) as [(_ & _ & ->)|(_ & _ & ->)]; by rewrite match_of_started).
  rewrite match_codecs_plain by (unfold apt_settled in *; by rewrite Em). cbn [app].
  pose proof (good_empty _ _ _ _ _ Hg Hk) as He. pose proof (chosen_distinct m typ cs Hn) as Hcd.
  destruct (chosen_pushed m typ m1 media (chosen m typ cs) Hk He Hcd) as [Hp1 Hp2].
  assert (∀ t, of_match m1 typ t cs = of_match m typ t cs) as Eq
    by (intros t; unfold of_match; by rewrite Em).
  rewrite !Eq. unfold chosen in *. destruct (of_match m typ codecMatchExact cs) as [|c l]; [destruct (of_match m typ codecMatchPartial cs) as [|c l]|];
    rewrite ?Hx; cbn [fst snd]; rewrite ?kinds_kept; auto.
Qed.

(** An engine with one codec, and the section of a browser, with retransmission. *)
Definition sample_engine : MediaEngine := engine_copy (RegisterCodec engine_zero (MkCodec "video/H264" 90000 0
  "level-asymmetry-allowed=1;packetization-mode=1;profile-level-id=42001f" [("nack", ""); ("ccm", "fir")] 102) RTPCodecTypeVideo).1.
Definition sample_codecs : list RTPCodecParameters := [
  MkCodec "video/VP8" 90000 0 "" [("nack", "pli")] 96;
  MkCodec "video/rtx" 90000 0 "apt=96" [] 97;
  MkCodec "video/H264" 90000 0 "packetization-mode=1;profile-level-id=420032" [("nack", "")] 108;
  MkCodec "video/rtx" 90000 0 "apt=108" [] 109;
  MkCodec "video/H264" 90000 0 "packetization-mode=0;profile-level-id=42001f" [] 127].

Lemma codecs_negotiated_witness :
  let media := extend (write_codecs sample_codecs (NewJSEPMediaDescription "video")) [] [MkAttribute "sendrecv" ""] in
  codecsFromMediaDescription media = Ok sample_codecs ∧ (@negotiate_media text_url (λ _ l, l) sample_engine 0 media).2 = Ok tt ∧
  getCodecsByKind (@negotiate_media text_url (λ _ l, l) sample_engine 0 media).1 RTPCodecTypeVideo =
    [MkCodec "video/H264" 90000 0 "packetization-mode=1;profile-level-id=420032" [("nack", "")] 108].
Proof.
  apply (@codecs_negotiated text_url (λ _ l, l) sample_engine sample_engine 0 RTPCodecTypeVideo (set_negotiated true false sample_engine) sample_codecs
    (NewJSEPMediaDescription "video") [MkAttribute "sendrecv" ""] ∅); try reflexivity.
  - repeat constructor; done.
  - apply (bool_decide_unpack _). vm_compute. exact I.
  - apply engine_good_copy.
Defined.

(** ** Descriptions that are refused *)

(** A payload type other than 0 for which no attribute of the section says
    anything. *)
Definition unmapped (media : MediaDescription) : Prop := ∃ f pt,
  f ∈ Formats (md_MediaName media) ∧ parse_uint 8 f = Some pt ∧ pt ≠ 0 ∧ buildCodecMap [media] !! pt = None.

Lemma unmapped_formats media fs : (∃ f pt, f ∈ fs ∧ parse_uint 8 f = Some pt ∧ pt ≠ 0 ∧ buildCodecMap [media] !! pt = None) →
  ∀ cs, codecs_of_formats media fs ≠ Ok cs.
Proof.
  intros (f & pt & Hf & Hp & H0 & Hb). induction fs as [|f' fs IH]; intros cs; [by apply not_elem_of_nil in Hf|].
  cbn [codecs_of_formats]. apply elem_of_cons in Hf as [<-|Hf].
  - rewrite Hp. unfold GetCodecForPayloadType. rewrite Hb. by rewrite (proj2 (Z.eqb_neq _ _)).
  - destruct (parse_uint 8 f'); [|done]. destruct (GetCodecForPayloadType [media] z); [|case_match; [by apply IH | done] | done | done].
    destruct (codecs_of_formats media fs) as [out| | |] eqn:E; try done. by destruct (IH Hf out).
Qed.

Section refused.
Context `{NetUrl} (order : nat → list string → list string).

Lemma unmapped_media m n media typ m1 : unmapped media → section_kind m media = Some (typ, m1) → (negotiate_media order m n media).2 ≠ Ok tt.
Proof.
  intros Hu Hk. unfold negotiate_media. rewrite Hk. pose proof (unmapped_formats media _ Hu) as Hc.
  unfold codecsFromMediaDescription. by destruct (codecs_of_formats _ _) as [cs| | |]; [destruct (Hc cs)|..].
Qed.

Definition named (kind : string) (media : MediaDescription) : bool := EqualFold (mn_Media (md_MediaName media)) kind.

Lemma push_flags m cs typ : negotiatedAudio (pushCodecs m cs typ) = negotiatedAudio m ∧ negotiatedVideo (pushCodecs m cs typ) = negotiatedVideo m.
Proof. by destruct typ. Qed.

(** A section of another kind leaves the kind to be negotiated. *)
Lemma update_other m n media : named "audio" media = false → negotiatedAudio (negotiate_media order m n media).1 = negotiatedAudio m.
Proof.
  intros Hn. unfold negotiate_media. destruct (section_kind m media) as [[typ m1]|] eqn:Hk; [|done].
  assert (negotiatedAudio m1 = negotiatedAudio m) as E1.
  { unfold section_kind in Hk. unfold named in Hn. rewrite Hn, andb_false_r in Hk. case_match; [|done]. by injection Hk as _ <-. }
  destruct (mbind _ _) as [[ex pa]|e| |]; [|done..]. set (l := match ex with [] => pa | _ => ex end).
  destruct (push_flags m1 l typ) as [E2 _]. destruct ex, pa; [done|..]; destruct (rtpExtensionsFromMediaDescription media) as [exts|e| |];
    cbn [fst]; first [exact (eq_trans E2 E1) | destruct (update_extensions_kept order (pushCodecs m1 l typ) n exts typ) as (_ & _ & _ & _ & _ & _ & E3); exact (eq_trans E3 (eq_trans E2 E1))].
Qed.

(** The first audio section decides. *)
Lemma unmapped_audio pre : ∀ m media post, unmapped media → named "audio" media = true → negotiatedAudio m = false →
  forallb (λ x, negb (named "audio" x)) pre = true → (negotiate_medias order m (pre ++ media :: post)).2 ≠ Ok tt.
Proof.
  induction pre as [|x pre IH]; intros m media post Hu Hn Ha Hpre; cbn [app negotiate_medias forallb] in *.
  - pose proof (λ m1, unmapped_media m (length post) media RTPCodecTypeAudio m1 Hu) as Hm. unfold section_kind, named in *.
    rewrite Ha, Hn in Hm. specialize (Hm _ eq_refl). destruct (negotiate_media order m (length post) media) as [m' [[]|e| |]]; done.
  - apply andb_true_iff in Hpre as [Hx%negb_true_iff Hpre]. pose proof (update_other m (length (pre ++ media :: post)) x Hx) as Ha'.
    destruct (negotiate_media order m _ x) as [m' [[]| | |]]; [|done..]. apply IH; [done | done | exact (eq_trans Ha' Ha) | done].
Qed.
End refused.

(** Parameters with a space in them, as some clients write them, are passed
    over. *)
Lemma spaced_parameters_lost pt a b : 0 ≤ pt → free_of " " a → free_of " " b →
  parseFmtp ("fmtp:" +:+ itoa pt +:+ " " +:+ a +:+ " " +:+ b) = Err errExtractCodecFmtp.
Proof.
  intros Hp Ha Hb. unfold parseFmtp.
  change ("fmtp:" +:+ itoa pt +:+ " " +:+ a +:+ " " +:+ b) with ("fmtp:" +:+ itoa pt +:+ String " " (a +:+ String " " b)).
  rewrite string_app_assoc. rewrite !split_cons, split_free by free. done.
Qed.

(** ** Header extensions *)

(** An extension with a valid id is read back. *)
Lemma extmap_roundtrip `{NetUrl} e u : 1 ≤ em_Value e ≤ 246 → em_URI e = Some u → word (URL_String u) → url_Parse (URL_String u) = Some u →
  match em_ExtAttr e with Some a => word a | None => True end → ExtMap_Unmarshal (ExtMap_Marshal e) = Ok e.
Proof.
  destruct e as [v dir uri att]. cbn. intros Hv -> Hw Hu Ha. unfold ExtMap_Marshal, ExtMap_Unmarshal, ExtMap_string. cbn [em_Value em_Direction em_URI em_ExtAttr].
  change (str_cut ":" ("extmap" +:+ ":" +:+ ?t)) with ("extmap", Some t). cbv iota.
  set (vd := if decide _ then itoa v else _).
  assert (str_split vd "/" = match dir with Some _ => [itoa v; Direction_String dir] | None => [itoa v] end ∧ word vd) as [Hs Hvd].
  { destruct (itoa_nat v) as [Hwv _]; [lia|]. unfold vd. destruct dir as [dir|]; [|split; [apply split_free; free | done]].
    rewrite decide_False by (by destruct dir). change ("/" +:+ ?x) with (String "/" x). split.
    - rewrite split_cons, split_free by (free || by destruct dir). done.
    - destruct Hwv as [H1 H2]. split; [by destruct (itoa v)|]. rewrite all_chars_app, H2. by destruct dir. }
  change (fields_func_aux is_space EmptyString ?x) with (str_fields x).
  assert (str_fields (match att with Some a => (vd +:+ " " +:+ URL_String u) +:+ " " +:+ a | None => vd +:+ " " +:+ URL_String u end) =
    vd :: URL_String u :: match att with Some a => [a] | None => [] end) as ->.
  { destruct att as [a|]; [rewrite <- !string_app_assoc; apply (fields_join [vd; URL_String u; a]) | apply (fields_join [vd; URL_String u])];
      repeat constructor; done || apply Hvd || apply Hw || apply Ha. }
  rewrite Hs. assert (atoi (itoa v) = Some v) as Hat by (apply atoi_itoa; lia).
  destruct dir as [dir|]; cbn [hd]; rewrite Hat, (proj2 (Z.ltb_ge v 1)), (proj2 (Z.ltb_ge 246 v)) by lia; cbn [orb];
    [destruct dir; cbn|]; cbn [mbind res_bind]; rewrite Hu; by destruct att.
Qed.

(** The ids that are offered are distinct; they are those that were negotiated
    before, or from 1 to 14. *)
Lemma visit_ids (order : list Z → list Z) (m : gmap Z mediaEngineHeaderExtension) : (∀ l, order l ≡ₚ l) →
  NoDup (visit order m).*1 ∧ ∀ ie, ie ∈ visit order m → m !! ie.1 = Some ie.2.
Proof.
  intros Ho. unfold visit. assert (NoDup (order (elements (dom m)))) as Hd by (rewrite Ho; apply NoDup_elements).
  induction (order (elements (dom m))) as [|id l IH]; [split; [constructor | intros ie Hie; by apply not_elem_of_nil in Hie]|].
  apply NoDup_cons in Hd as [Hn Hd]. destruct (IH Hd) as [H1 H2]. cbn. destruct (m !! id) as [e|] eqn:E; cbn; [|done]. split.
  - apply NoDup_cons. split; [|done]. intros ([id' e'] & Ei & Hin)%list_elem_of_fmap. cbn in Ei. subst id'. apply Hn.
    apply list_elem_of_omap in Hin as (id' & Hid & E'). destruct (m !! id'); [|done]. by injection E' as -> _.
  - intros ie [->|Hie]%elem_of_cons; [done | by apply H2].
Qed.

Lemma usable_ids order typ dirs (m : gmap Z mediaEngineHeaderExtension) : (∀ l, order l ≡ₚ l) →
  NoDup (usable order typ dirs m).*1 ∧ ∀ iu, iu ∈ usable order typ dirs m → is_Some (m !! iu.1).
Proof.
  intros Ho. destruct (visit_ids order m Ho) as [Hd Hin]. unfold usable. induction (visit order m) as [|[id e] l IH].
  - split; [constructor | intros iu Hiu; by apply not_elem_of_nil in Hiu].
  - cbn in Hd. apply NoDup_cons in Hd as [Hn Hd]. destruct IH as [H1 H2]; [done | intros; apply Hin; by right|]. cbn.
    destruct (haveRTPTransceiverDirectionIntersection (allowedDirections e) dirs && of_kind typ e); cbn; [|done]. split.
    + apply NoDup_cons. split; [|done]. intros ([id' u] & Ei & Hu)%list_elem_of_fmap. cbn in Ei. subst id'. apply Hn.
      apply list_elem_of_omap in Hu as ([id' e'] & He & E). case_match; [|done]. simplify_eq/=.
      apply list_elem_of_fmap. eexists (_, e'). by split.
    + intros iu [->|Hiu]%elem_of_cons; [|by apply H2]. eexists. exact (Hin (id, e) ltac:(left)).
Qed.

Lemma assigned_ids order m exts : (∀ l, order l ≡ₚ l) → ∀ ids id,
  is_Some (foldl (assign_id order m) ids exts !! id) → is_Some (ids !! id) ∨ is_Some (negotiated m !! id) ∨ 1 ≤ id ≤ 14.
Proof.
  intros Ho. induction exts as [|e exts IH]; intros ids id Hid; cbn [foldl] in Hid; [by left|].
  destruct (IH _ _ Hid) as [Ha|?]; [|by right]. unfold assign_id in Ha.
  assert (∀ k, is_Some (<[k := e]> ids !! id) → is_Some (ids !! id) ∨ k = id) as Hk
    by (intros k; rewrite lookup_insert; case_decide; auto).
  destruct (List.find _ (visit order (negotiated m))) as [[k h]|] eqn:Ef.
  - apply Hk in Ha as [?| <-]; [by left|]. apply List.find_some in Ef as [Hv%list_elem_of_In _].
    apply (visit_ids order _ Ho) in Hv. right. left. eauto.
  - destruct (List.find _ (seqZ 1 14)) as [k|] eqn:Es; [|by left]. apply Hk in Ha as [?| <-]; [by left|].
    apply List.find_some in Es as [Hs%list_elem_of_In _]. apply elem_of_seqZ in Hs. right. right. lia.
Qed.

Lemma offered_ids order m typ dirs : (∀ l, order l ≡ₚ l) →
  let l := HeaderExtensions (getRTPParametersByKind order m typ dirs) in
  NoDup l.*1 ∧ ∀ iu, iu ∈ l → is_Some (negotiated m !! iu.1) ∨ 1 ≤ iu.1 ≤ 14.
Proof.
  intros Ho. unfold getRTPParametersByKind. case_match; cbn [HeaderExtensions].
  - destruct (usable_ids order typ dirs (negotiated m) Ho) as [H1 H2]. split; [done|]. intros iu Hiu. left. by apply H2.
  - destruct (usable_ids order typ dirs (foldl (assign_id order m) ∅ (headerExtensions m)) Ho) as [H1 H2]. split; [done|].
    intros iu Hiu. apply H2 in Hiu. apply (assigned_ids order m _ Ho) in Hiu as [[? E]|?]; [by rewrite lookup_empty in E | done].
Qed.
