(* ===== verification/Signaling.v ===== *)
(** * The signalling of a peer connection

    pion/webrtc signalingstate.go and sdptype.go, and of peerconnection.go the
    part that keeps the descriptions: setDescription, the creation of offers and
    answers as far as it concerns the state, and the descriptions that are asked
    for.  The rest of SetLocalDescription and SetRemoteDescription (transceivers,
    transports) comes after it and is a parameter of the server. *)

From S2P Require Import Prelude GoLib.

(** ** Types *)

Inductive SDPType := SDPTypeOffer | SDPTypePranswer | SDPTypeAnswer | SDPTypeRollback | SDPTypeUnknown.

#[export] Instance SDPType_eq_dec : EqDecision SDPType.
Proof. solve_decision. Defined.

Definition NewSDPType (raw : string) : SDPType :=
  if decide (raw = "offer") then SDPTypeOffer
  else if decide (raw = "pranswer") then SDPTypePranswer
  else if decide (raw = "answer") then SDPTypeAnswer
  else if decide (raw = "rollback") then SDPTypeRollback
  else SDPTypeUnknown.

Definition SDPType_String (t : SDPType) : string :=
  match t with
  | SDPTypeOffer => "offer"
  | SDPTypePranswer => "pranswer"
  | SDPTypeAnswer => "answer"
  | SDPTypeRollback => "rollback"
  | SDPTypeUnknown => "unknown"
  end.

Inductive stateChangeOp := stateChangeOpSetLocal | stateChangeOpSetRemote.

#[export] Instance stateChangeOp_eq_dec : EqDecision stateChangeOp.
Proof. solve_decision. Defined.

Inductive SignalingState :=
  | SignalingStateStable
  | SignalingStateHaveLocalOffer
  | SignalingStateHaveRemoteOffer
  | SignalingStateHaveLocalPranswer
  | SignalingStateHaveRemotePranswer
  | SignalingStateClosed
  | SignalingStateUnknown.

#[export] Instance SignalingState_eq_dec : EqDecision SignalingState.
Proof. solve_decision. Defined.

Definition newSignalingState (raw : string) : SignalingState :=
  if decide (raw = "stable") then SignalingStateStable
  else if decide (raw = "have-local-offer") then SignalingStateHaveLocalOffer
  else if decide (raw = "have-remote-offer") then SignalingStateHaveRemoteOffer
  else if decide (raw = "have-local-pranswer") then SignalingStateHaveLocalPranswer
  else if decide (raw = "have-remote-pranswer") then SignalingStateHaveRemotePranswer
  else if decide (raw = "closed") then SignalingStateClosed
  else SignalingStateUnknown.

Definition SignalingState_String (t : SignalingState) : string :=
  match t with
  | SignalingStateStable => "stable"
  | SignalingStateHaveLocalOffer => "have-local-offer"
  | SignalingStateHaveRemoteOffer => "have-remote-offer"
  | SignalingStateHaveLocalPranswer => "have-local-pranswer"
  | SignalingStateHaveRemotePranswer => "have-remote-pranswer"
  | SignalingStateClosed => "closed"
  | SignalingStateUnknown => "unknown"
  end.

Inductive sig_err :=
  | ErrConnectionClosed
  | errPeerConnSDPTypeInvalidValue
  | errSDPDoesNotMatchOffer
  | errSDPDoesNotMatchAnswer
  | errSignalingStateCannotRollback
  | errSignalingStateProposedTransitionInvalid
  | ErrNoRemoteDescription
  | ErrIncorrectSignalingState.

(** ** Transitions *)

Definition checkNextSignalingState (cur next : SignalingState) (op : stateChangeOp) (sdpType : SDPType)
    : SignalingState * option sig_err :=
  if decide (sdpType = SDPTypeRollback ∧ cur = SignalingStateStable) then (cur, Some errSignalingStateCannotRollback)
  else
    let invalid := (cur, Some errSignalingStateProposedTransitionInvalid) in
    let to (s : SignalingState) := if decide (next = s) then (next, None) else invalid in
    match cur with
    | SignalingStateStable =>
        match op with
        | stateChangeOpSetLocal => if decide (sdpType = SDPTypeOffer) then to SignalingStateHaveLocalOffer else invalid
        | stateChangeOpSetRemote => if decide (sdpType = SDPTypeOffer) then to SignalingStateHaveRemoteOffer else invalid
        end
    | SignalingStateHaveLocalOffer =>
        if decide (op = stateChangeOpSetRemote) then
          match sdpType with
          | SDPTypeAnswer => to SignalingStateStable
          | SDPTypePranswer => to SignalingStateHaveRemotePranswer
          | _ => invalid
          end
        else invalid
    | SignalingStateHaveRemotePranswer =>
        if decide (op = stateChangeOpSetRemote ∧ sdpType = SDPTypeAnswer) then to SignalingStateStable else invalid
    | SignalingStateHaveRemoteOffer =>
        if decide (op = stateChangeOpSetLocal) then
          match sdpType with
          | SDPTypeAnswer => to SignalingStateStable
          | SDPTypePranswer => to SignalingStateHaveLocalPranswer
          | _ => invalid
          end
        else invalid
    | SignalingStateHaveLocalPranswer =>
        if decide (op = stateChangeOpSetLocal ∧ sdpType = SDPTypeAnswer) then to SignalingStateStable else invalid
    | _ => invalid
    end.

(** ** Descriptions *)

(** type SessionDescription, without its parsed form *)
Record sdesc := MkDesc { d_Type : SDPType; d_SDP : string }.

(** Of type PeerConnection. *)
Record signaling := MkSignaling {
  sg_state : SignalingState;
  isClosed : bool;
  currentLocalDescription : option sdesc;
  pendingLocalDescription : option sdesc;
  currentRemoteDescription : option sdesc;
  pendingRemoteDescription : option sdesc;
  lastOffer : string;
  lastAnswer : string;
}.

(** The state of a new connection. *)
Definition new_signaling : signaling := MkSignaling SignalingStateStable false None None None None EmptyString EmptyString.

Definition set_state (s : signaling) (st : SignalingState) : signaling :=
  MkSignaling st (isClosed s) (currentLocalDescription s) (pendingLocalDescription s) (currentRemoteDescription s)
    (pendingRemoteDescription s) (lastOffer s) (lastAnswer s).
Definition set_descs (s : signaling) (cl pl cr pr : option sdesc) : signaling :=
  MkSignaling (sg_state s) (isClosed s) cl pl cr pr (lastOffer s) (lastAnswer s).
Definition set_lastOffer (sdp : string) (s : signaling) : signaling :=
  MkSignaling (sg_state s) (isClosed s) (currentLocalDescription s) (pendingLocalDescription s) (currentRemoteDescription s)
    (pendingRemoteDescription s) sdp (lastAnswer s).
Definition set_lastAnswer (sdp : string) (s : signaling) : signaling :=
  MkSignaling (sg_state s) (isClosed s) (currentLocalDescription s) (pendingLocalDescription s) (currentRemoteDescription s)
    (pendingRemoteDescription s) (lastOffer s) sdp.

(** The inner function: the transition that is tried, and the descriptions it
    leaves.  A description of an unknown type does not get here, so that the
    last cases are those of a provisional answer. *)
Definition next_descs (s : signaling) (sd : sdesc) (op : stateChangeOp) : SignalingState * signaling :=
  let cl := currentLocalDescription s in let pl := pendingLocalDescription s in
  let cr := currentRemoteDescription s in let pr := pendingRemoteDescription s in
  match op, d_Type sd with
  | stateChangeOpSetLocal, SDPTypeOffer => (SignalingStateHaveLocalOffer, set_descs s cl (Some sd) cr pr)
  | stateChangeOpSetLocal, SDPTypeAnswer => (SignalingStateStable, set_descs s (Some sd) None pr None)
  | stateChangeOpSetLocal, SDPTypeRollback => (SignalingStateStable, set_descs s cl None cr pr)
  | stateChangeOpSetLocal, _ => (SignalingStateHaveLocalPranswer, set_descs s cl (Some sd) cr pr)
  | stateChangeOpSetRemote, SDPTypeOffer => (SignalingStateHaveRemoteOffer, set_descs s cl pl cr (Some sd))
  | stateChangeOpSetRemote, SDPTypeAnswer => (SignalingStateStable, set_descs s pl None (Some sd) None)
  | stateChangeOpSetRemote, SDPTypeRollback => (SignalingStateStable, set_descs s cl pl cr None)
  | stateChangeOpSetRemote, _ => (SignalingStateHaveRemotePranswer, set_descs s cl pl cr (Some sd))
  end.

(** A local description is the one that was created last. *)
Definition unmatched (s : signaling) (sd : sdesc) (op : stateChangeOp) : option sig_err :=
  match op, d_Type sd with
  | stateChangeOpSetLocal, SDPTypeOffer => if decide (d_SDP sd = lastOffer s) then None else Some errSDPDoesNotMatchOffer
  | stateChangeOpSetLocal, (SDPTypeAnswer | SDPTypePranswer) =>
      if decide (d_SDP sd = lastAnswer s) then None else Some errSDPDoesNotMatchAnswer
  | _, _ => None
  end.

(** func (pc *PeerConnection) setDescription(sd *SessionDescription, op
    stateChangeOp) error; its callbacks only tell that the state has changed *)
Definition setDescription (s : signaling) (sd : sdesc) (op : stateChangeOp) : signaling * option sig_err :=
  if isClosed s then (s, Some ErrConnectionClosed)
  else if decide (NewSDPType (SDPType_String (d_Type sd)) = SDPTypeUnknown) then (s, Some errPeerConnSDPTypeInvalidValue)
  else
    match unmatched s sd op with
    | Some e => (s, Some e)
    | None =>
        let '(next, s') := next_descs s sd op in
        match checkNextSignalingState (sg_state s) next op (d_Type sd) with
        | (st, None) => (set_state s' st, None)
        | (_, Some e) => (s, Some e)
        end
    end.

(** JSEP 5.4: SetLocalDescription takes an empty text for the last one created.
    [None] is an error. *)
Definition local_text (s : signaling) (sd : sdesc) : option string :=
  if decide (d_SDP sd = EmptyString) then
    match d_Type sd with
    | SDPTypeAnswer | SDPTypePranswer => Some (lastAnswer s)
    | SDPTypeOffer => Some (lastOffer s)
    | _ => None
    end
  else Some (d_SDP sd).

Definition RemoteDescription (s : signaling) : option sdesc :=
  match pendingRemoteDescription s with
  | Some d => Some d
  | None => currentRemoteDescription s
  end.

(** The checks of CreateOffer and of CreateAnswer. *)
Definition offer_refused (s : signaling) : option sig_err := if isClosed s then Some ErrConnectionClosed else None.

Definition answer_refused (s : signaling) : option sig_err :=
  match RemoteDescription s with
  | None => Some ErrNoRemoteDescription
  | Some _ =>
      if isClosed s then Some ErrConnectionClosed
      else if decide (sg_state s = SignalingStateHaveRemoteOffer ∨ sg_state s = SignalingStateHaveLocalPranswer) then None
      else Some ErrIncorrectSignalingState
  end.

(** Close, as far as the state is concerned. *)
Definition close_signaling (s : signaling) : signaling :=
  if isClosed s then s
  else MkSignaling SignalingStateClosed true (currentLocalDescription s) (pendingLocalDescription s) (currentRemoteDescription s)
         (pendingRemoteDescription s) (lastOffer s) (lastAnswer s).
