(* ===== verification/SignalingProps.v ===== *)
(** * The signalling of a peer connection: properties

    The state and the four descriptions of a connection implement the model of
    offers and answers of RFC 8829, except for three of its transitions that
    the library does not have; every other call is refused and changes nothing;
    and in every state a connection can reach the descriptions it keeps fit its
    state. *)

From S2P Require Import Prelude GoLib Signaling.

(** ** The transitions of the code *)

(** The transitions of checkNextSignalingState, without the state that is
    proposed. *)
Definition jsep (st : SignalingState) (op : stateChangeOp) (ty : SDPType) : option SignalingState :=
  match st, op, ty with
  | SignalingStateStable, stateChangeOpSetLocal, SDPTypeOffer => Some SignalingStateHaveLocalOffer
  | SignalingStateStable, stateChangeOpSetRemote, SDPTypeOffer => Some SignalingStateHaveRemoteOffer
  | SignalingStateHaveLocalOffer, stateChangeOpSetRemote, SDPTypeAnswer => Some SignalingStateStable
  | SignalingStateHaveLocalOffer, stateChangeOpSetRemote, SDPTypePranswer => Some SignalingStateHaveRemotePranswer
  | SignalingStateHaveRemotePranswer, stateChangeOpSetRemote, SDPTypeAnswer => Some SignalingStateStable
  | SignalingStateHaveRemoteOffer, stateChangeOpSetLocal, SDPTypeAnswer => Some SignalingStateStable
  | SignalingStateHaveRemoteOffer, stateChangeOpSetLocal, SDPTypePranswer => Some SignalingStateHaveLocalPranswer
  | SignalingStateHaveLocalPranswer, stateChangeOpSetLocal, SDPTypeAnswer => Some SignalingStateStable
  | _, _, _ => None
  end.

(** The transition that setDescription tries is the one of the table, if there
    is one. *)
Lemma check_next s sd op : d_Type sd ≠ SDPTypeUnknown →
  match jsep (sg_state s) op (d_Type sd) with
  | Some st => (next_descs s sd op).1 = st ∧ checkNextSignalingState (sg_state s) st op (d_Type sd) = (st, None)
  | None => ∃ e, checkNextSignalingState (sg_state s) (next_descs s sd op).1 op (d_Type sd) = (sg_state s, Some e)
  end.
Proof.
  intros Hty. unfold next_descs. destruct sd as [ty sdp]. cbn [d_Type] in *.
  destruct (sg_state s), op, ty; try done; cbn; eauto.
Qed.

Lemma type_known ty : NewSDPType (SDPType_String ty) = ty.
Proof. by destruct ty. Qed.

Lemma set_table s sd op s' e : setDescription s sd op = (s', e) ↔
  match (if isClosed s then None else jsep (sg_state s) op (d_Type sd)), unmatched s sd op with
  | Some st, None => e = None ∧ s' = set_state (next_descs s sd op).2 st
  | _, _ => s' = s ∧ e = (setDescription s sd op).2 ∧ e ≠ None
  end.
Proof.
  unfold setDescription. destruct (isClosed s) eqn:Hc; [split; [by intros [= <- <-] | by intros (-> & -> & _)]|].
  rewrite type_known. case_decide as Hty.
  { assert (jsep (sg_state s) op (d_Type sd) = None) as -> by (rewrite Hty; by destruct (sg_state s), op).
    split; [by intros [= <- <-] | by intros (-> & -> & _)]. }
  pose proof (check_next s sd op Hty) as Hn. destruct (next_descs s sd op) as [next s1]. cbn [fst snd] in *.
  destruct (jsep (sg_state s) op (d_Type sd)) as [st|].
  - destruct Hn as [-> Hn]. destruct (unmatched s sd op) as [e'|].
    + split; [by intros [= <- <-] | by intros (-> & -> & _)].
    + rewrite Hn. split; [by intros [= <- <-] | by intros [-> ->]].
  - destruct Hn as [e' Hn]. destruct (unmatched s sd op) as [e''|]; rewrite ?Hn;
      (split; [by intros [= <- <-] | by intros (-> & -> & _)]).
Qed.

(** ** The model of offers and answers

    RFC 8829, section 3.2 and 5.7: either side opens an exchange with an offer,
    which it may replace by another one; the other side gives any number of
    provisional answers and then the answer, which ends the exchange; a rollback
    ends it without a result.  Sides are given by the operation that sets their
    descriptions. *)

Inductive exchange :=
  | Idle
  | Offered (from : stateChangeOp) (offer : sdesc)
  | Answering (from : stateChangeOp) (offer pranswer : sdesc).

(** What was negotiated last, with the side that offered, and what is going on. *)
Record model := MkModel {
  agreed : option (stateChangeOp * sdesc * sdesc);
  ongoing : exchange;
}.

(** The offer that is open to [side], and what is negotiated when [side] answers. *)
Definition open_offer (x : exchange) (side : stateChangeOp) : option (stateChangeOp * sdesc) :=
  match x with
  | Idle => None
  | Offered from o | Answering from o _ => if decide (from = side) then None else Some (from, o)
  end.

Definition may_offer (x : exchange) (side : stateChangeOp) : bool :=
  match x with
  | Idle => true
  | Offered from _ => bool_decide (from = side)
  | Answering _ _ _ => false
  end.

Definition model_set (m : model) (side : stateChangeOp) (sd : sdesc) : option model :=
  match d_Type sd with
  | SDPTypeOffer => if may_offer (ongoing m) side then Some (MkModel (agreed m) (Offered side sd)) else None
  | SDPTypePranswer =>
      (λ o : stateChangeOp * sdesc, MkModel (agreed m) (Answering o.1 o.2 sd)) <$> open_offer (ongoing m) side
  | SDPTypeAnswer =>
      (λ o : stateChangeOp * sdesc, MkModel (Some (o.1, o.2, sd)) Idle) <$> open_offer (ongoing m) side
  | SDPTypeRollback => match ongoing m with Idle => None | _ => Some (MkModel (agreed m) Idle) end
  | SDPTypeUnknown => None
  end.

(** The transitions of the model that the library does not have: a rollback, the
    replacement of an offer, a provisional answer after another. *)
Definition unsupported (m : model) (sd : sdesc) : bool :=
  match d_Type sd, ongoing m with
  | SDPTypeRollback, _ => true
  | SDPTypeOffer, Offered _ _ => true
  | SDPTypePranswer, Answering _ _ _ => true
  | _, _ => false
  end.

(** How the connection keeps it: the state, the pending and the current
    descriptions. *)
Definition implements (s : signaling) (m : model) : Prop :=
  isClosed s = false ∧
  (sg_state s, pendingLocalDescription s, pendingRemoteDescription s) =
    match ongoing m with
    | Idle => (SignalingStateStable, None, None)
    | Offered stateChangeOpSetLocal o => (SignalingStateHaveLocalOffer, Some o, None)
    | Offered stateChangeOpSetRemote o => (SignalingStateHaveRemoteOffer, None, Some o)
    | Answering stateChangeOpSetLocal o a => (SignalingStateHaveRemotePranswer, Some o, Some a)
    | Answering stateChangeOpSetRemote o a => (SignalingStateHaveLocalPranswer, Some a, Some o)
    end ∧
  (currentLocalDescription s, currentRemoteDescription s) =
    match agreed m with
    | None => (None, None)
    | Some (stateChangeOpSetLocal, o, a) => (Some o, Some a)
    | Some (stateChangeOpSetRemote, o, a) => (Some a, Some o)
    end.

Lemma implements_new : implements new_signaling (MkModel None Idle).
Proof. by split_and!. Qed.

(** The code and the model take the same transitions. *)
Lemma jsep_model s m sd op : implements s m →
  match jsep (sg_state s) op (d_Type sd) with
  | Some st => unsupported m sd = false ∧ ∃ m', model_set m op sd = Some m' ∧ implements (set_state (next_descs s sd op).2 st) m'
  | None => model_set m op sd = None ∨ unsupported m sd = true
  end.
Proof.
  intros (Hc & Ho & Ha). destruct s as [st c cl pl cr pr lo la], m as [ag on], sd as [ty sdp].
  unfold implements, unsupported, model_set, next_descs, jsep in *.
  cbn [sg_state isClosed currentLocalDescription pendingLocalDescription currentRemoteDescription pendingRemoteDescription d_Type agreed ongoing] in *.
  subst c. destruct on as [|[] o|[] o a]; injection Ho as -> -> ->; destruct op, ty; cbn;
    first [by left | by right | split; [done|]; eexists; split; [reflexivity | by split_and!]].
Qed.

(** C35. The state machine of a connection implements the model of offers and
    answers of RFC 8829, step by step, starting with a new connection: of what
    the model allows, setDescription accepts everything but a rollback, the
    replacement of an offer and a second provisional answer, provided that a
    local description is the one created last, and the connection then keeps
    what the model has, the offer and the answer of the last exchange as the
    current descriptions of the sides they came from; what the model does not
    allow, and those three, are errors that change nothing. *)
Theorem signaling_implements :
  implements new_signaling (MkModel None Idle) ∧
  ∀ s m sd op, implements s m →
    match model_set m op sd with
    | Some m' =>
        if unsupported m sd || bool_decide (unmatched s sd op ≠ None)
        then ∃ e, setDescription s sd op = (s, Some e)
        else ∃ s', setDescription s sd op = (s', None) ∧ implements s' m'
    | None => ∃ e, setDescription s sd op = (s, Some e)
    end.
Proof.
  split; [apply implements_new|]. intros s m sd op Hi. pose proof (jsep_model s m sd op Hi) as Hj.
  destruct (setDescription s sd op) as [s' e] eqn:E. apply set_table in E. rewrite (proj1 Hi) in E.
  assert (s' = s ∧ e = (setDescription s sd op).2 ∧ e ≠ None → ∃ e', (s', e) = (s, Some e')) as Herr
    by (intros (-> & _ & He); destruct e; [by eexists | done]).
  destruct (jsep (sg_state s) op (d_Type sd)) as [st|].
  - destruct Hj as (-> & m' & -> & Hi'). cbn [orb]. destruct (unmatched s sd op) as [e'|].
    + rewrite bool_decide_true by done. by apply Herr.
    + rewrite bool_decide_false by (by intros []). destruct E as [-> ->]. eauto.
  - destruct (model_set m op sd) as [m'|]; [|by apply Herr].
    destruct Hj as [?| ->]; [done|]. by apply Herr.
Qed.

(** An offer of the client, and the server's answer. *)
Lemma signaling_implements_witness : ∃ s,
  implements (set_lastAnswer "a" s) (MkModel None (Offered stateChangeOpSetRemote (MkDesc SDPTypeOffer "o"))) ∧
  ∃ s', setDescription (set_lastAnswer "a" s) (MkDesc SDPTypeAnswer "a") stateChangeOpSetLocal = (s', None) ∧
    implements s' (MkModel (Some (stateChangeOpSetRemote, MkDesc SDPTypeOffer "o", MkDesc SDPTypeAnswer "a")) Idle).
Proof.
  destruct (proj2 signaling_implements _ _ (MkDesc SDPTypeOffer "o") stateChangeOpSetRemote (proj1 signaling_implements)) as (s & _ & Hs).
  exists s. assert (implements (set_lastAnswer "a" s) (MkModel None (Offered stateChangeOpSetRemote (MkDesc SDPTypeOffer "o")))) as Hi
    by exact Hs. split; [exact Hi|].
  exact (proj2 signaling_implements _ _ (MkDesc SDPTypeAnswer "a") stateChangeOpSetLocal Hi).
Defined.

(** ** Reachable states *)

(** What can happen to a connection: a description is accepted, an offer or an
    answer is created, the connection is closed. *)
Inductive sig_step : signaling → signaling → Prop :=
  | step_set s sd op s' : setDescription s sd op = (s', None) → sig_step s s'
  | step_offer s sdp : offer_refused s = None → sig_step s (set_lastOffer sdp s)
  | step_answer s sdp : answer_refused s = None → sig_step s (set_lastAnswer sdp s)
  | step_close s : sig_step s (close_signaling s).

Definition is_type (ty : SDPType) (o : option sdesc) : Prop := d_Type <$> o = Some ty.

(** The descriptions of the last exchange: an offer and its answer. *)
Definition negotiated (s : signaling) : Prop :=
  let cl := currentLocalDescription s in let cr := currentRemoteDescription s in
  cl = None ∧ cr = None ∨ is_type SDPTypeOffer cl ∧ is_type SDPTypeAnswer cr ∨ is_type SDPTypeAnswer cl ∧ is_type SDPTypeOffer cr.

(** The descriptions of the exchange that is going on. *)
Definition negotiating (s : signaling) : Prop :=
  let pl := pendingLocalDescription s in let pr := pendingRemoteDescription s in
  match sg_state s with
  | SignalingStateStable => pl = None ∧ pr = None
  | SignalingStateHaveLocalOffer => is_type SDPTypeOffer pl ∧ pr = None
  | SignalingStateHaveRemoteOffer => pl = None ∧ is_type SDPTypeOffer pr
  | SignalingStateHaveLocalPranswer => is_type SDPTypePranswer pl ∧ is_type SDPTypeOffer pr
  | SignalingStateHaveRemotePranswer => is_type SDPTypeOffer pl ∧ is_type SDPTypePranswer pr
  | SignalingStateClosed => True
  | SignalingStateUnknown => False
  end.

Record sig_ok (s : signaling) : Prop := {
  sk_closed : isClosed s = true ↔ sg_state s = SignalingStateClosed;
  sk_negotiated : negotiated s;
  sk_negotiating : negotiating s;
}.

Lemma sig_ok_new : sig_ok new_signaling.
Proof. split; [done | by left | done]. Qed.

Lemma sig_ok_set s sd op s' : sig_ok s → setDescription s sd op = (s', None) → sig_ok s'.
Proof.
  intros [Hc Hn Hp] E%set_table. destruct (isClosed s) eqn:Ec; [by destruct E as (_ & _ & ?)|].
  destruct (jsep (sg_state s) op (d_Type sd)) as [st|] eqn:Ej; [|by destruct E as (_ & _ & ?)].
  destruct (unmatched s sd op); [by destruct E as (_ & _ & ?)|]. destruct E as [_ ->].
  destruct s as [st0 c cl pl cr pr lo la], sd as [ty sdp]. unfold negotiated, negotiating in *.
  cbn [sg_state isClosed currentLocalDescription pendingLocalDescription currentRemoteDescription pendingRemoteDescription d_Type] in *.
  subst c. destruct st0, op, ty; try discriminate Ej; injection Ej as <-; cbn; (split; [done | |]);
    unfold negotiated, negotiating; cbn; try tauto; try (destruct Hp as [? ?]; subst; tauto || done);
    destruct Hp; first [by right; left | by right; right].
Qed.

Lemma sig_ok_step s s' : sig_ok s → sig_step s s' → sig_ok s'.
Proof.
  intros Hs Hst. destruct Hst as [s sd op s' E|s sdp E|s sdp E|s]; [by eapply sig_ok_set | by destruct Hs | by destruct Hs |].
  unfold close_signaling. destruct (isClosed s); [done|]. destruct Hs as [Hc Hn Hp]. by split.
Qed.

(** In every state a connection can reach, whatever descriptions it is given:
    it is closed exactly in the state closed; the current descriptions are none
    or an offer and its answer, one of them local and the other remote; there
    is no pending description in the stable state, and in the others the
    pending ones are those the state is named after. *)
Theorem signaling_consistent s : rtc sig_step new_signaling s → sig_ok s.
Proof.
  intros Hr. assert (∀ s1, rtc sig_step s1 s → sig_ok s1 → sig_ok s) as Hind.
  { clear Hr. intros s1. induction 1 as [|s1 s2 s3 Hst _ IH]; [done|]. intros Hs. eapply IH, sig_ok_step; eauto. }
  eapply Hind; [done | apply sig_ok_new].
Qed.

Definition sample_exchange : signaling :=
  let s := (setDescription new_signaling (MkDesc SDPTypeOffer "o") stateChangeOpSetRemote).1 in
  let s := set_lastAnswer "a" s in
  (setDescription s (MkDesc SDPTypeAnswer "a") stateChangeOpSetLocal).1.

Lemma signaling_consistent_witness : sig_ok sample_exchange ∧
  currentLocalDescription sample_exchange = Some (MkDesc SDPTypeAnswer "a").
Proof.
  split; [|reflexivity]. apply signaling_consistent.
  eapply rtc_l; [apply (step_set new_signaling (MkDesc SDPTypeOffer "o") stateChangeOpSetRemote); reflexivity|].
  eapply rtc_l; [apply (step_answer _ "a"); reflexivity|].
  eapply rtc_once. apply (step_set _ (MkDesc SDPTypeAnswer "a") stateChangeOpSetLocal). reflexivity.
Defined.

(** A description of type rollback is always refused, in the states in which
    the model has a rollback, too. *)
Lemma rollback_refused s sdp op : (setDescription s (MkDesc SDPTypeRollback sdp) op).2 ≠ None.
Proof.
  destruct (setDescription _ _ _) as [s' e] eqn:E. pose proof E as E'%set_table.
  assert (jsep (sg_state s) op SDPTypeRollback = None) as Hj by (by destruct (sg_state s), op).
  cbn [d_Type] in E'. rewrite Hj in E'. by destruct (isClosed s), E' as (_ & _ & ?).
Qed.
