(* ===== verification/Json.v ===== *)
(** * JSON messages: jsonparse.go and encoding/json

    Every message the server reads or writes is a JSON object.  Incoming bytes
    go through [CreateJSONParser] into a map, whose fields the handlers read
    with [GetValue] (the %v form of any value) and [GetIntValue] (a type
    assertion to float64).  Outgoing messages are Go maps and structs passed to
    json.Marshal.  Both directions of encoding/json are modelled for the values
    that occur, byte by byte, so that a message written by one server can be
    followed into the fields another server reads. *)

From Stdlib Require Import Ascii.
From S2P Require Import Prelude GoLib.

(** ** Values

    [GMap] is a map[string]interface{} (its keys in increasing order once it
    has been decoded), [GStruct] a struct value, whose fields are written in
    the order of their declaration. *)
Inductive goval :=
  | GNil
  | GBool (b : bool)
  | GStr (s : string)
  | GInt (z : Z)
  | GFloat (d : dec)
  | GSlice (l : list goval)
  | GMap (l : list (string * goval))
  | GStruct (l : list (string * goval)).

(** roommgr.go: type jsonparser map[string]interface{} *)
Abbreviation jsonparser := (gmap string goval).

(** ** Sorted keys *)

Fixpoint str_ltb (a b : string) : bool :=
  match a, b with
  | EmptyString, EmptyString => false
  | EmptyString, String _ _ => true
  | String _ _, EmptyString => false
  | String x a, String y b =>
      if byte x <? byte y then true else if byte y <? byte x then false else str_ltb a b
  end.

(** Map assignment into a list kept in key order. *)
Fixpoint kv_insert {A} (k : string) (v : A) (l : list (string * A)) : list (string * A) :=
  match l with
  | [] => [(k, v)]
  | (k', v') :: l' =>
      if decide (k = k') then (k, v) :: l'
      else if str_ltb k k' then (k, v) :: l
      else (k', v') :: kv_insert k v l'
  end.

Definition kv_sort {A} (l : list (string * A)) : list (string * A) :=
  foldl (λ acc '(k, v), kv_insert k v acc) [] l.

(** ** The %v verb *)

(** strconv's 'g' format with the shortest precision: %e from exponent 6 up
    and below -4, %f otherwise. *)
Definition zeros (n : Z) : string :=
  String.string_of_list_ascii (replicate (Z.to_nat n) "0"%char).

Definition fmt_exp (e : Z) : string :=
  (if e <? 0 then "-" else "+") +:+
  (if Z.abs e <? 10 then "0" else "") +:+ itoa (Z.abs e).

Definition fmt_float (d : dec) : string :=
  (if dneg d then "-" else "") +:+
  (if decide (ddig d = EmptyString) then "0"
   else
     let e := dexp d - 1 in
     let nd := Z.of_nat (string_len (ddig d)) in
     if (e <? -4) || (6 <=? e) then
       str_take 1 (ddig d) +:+
       (if nd <=? 1 then "" else "." +:+ str_drop 1 (ddig d)) +:+ "e" +:+ fmt_exp e
     else if dexp d <=? 0 then "0." +:+ zeros (- dexp d) +:+ ddig d
     else if nd <=? dexp d then ddig d +:+ zeros (dexp d - nd)
     else str_take (Z.to_nat (dexp d)) (ddig d) +:+ "." +:+
          str_drop (Z.to_nat (dexp d)) (ddig d)).

Fixpoint fmt_v (v : goval) : string :=
  match v with
  | GNil => "<nil>"
  | GBool b => if b then "true" else "false"
  | GStr s => s
  | GInt z => itoa z
  | GFloat d => fmt_float d
  | GSlice l => "[" +:+ str_join " " (map fmt_v l) +:+ "]"
  | GMap l => "map[" +:+ str_join " " (map (λ kv, kv.1 +:+ ":" +:+ fmt_v kv.2) l) +:+ "]"
  | GStruct l => "{" +:+ str_join " " (map (λ kv, fmt_v kv.2) l) +:+ "}"
  end.

(** ** UTF-8 *)

Definition in_range (lo hi : Z) (c : ascii) : bool := (lo <=? byte c) && (byte c <=? hi).
Definition is_cont (c : ascii) : bool := in_range 0x80 0xBF c.

(** utf8.DecodeRune: how many bytes the rune at the head of the string takes;
    [None] for an invalid or truncated encoding, which counts as one byte. *)
Definition rune_len (s : string) : option nat :=
  match s with
  | EmptyString => None
  | String c0 s1 =>
    if byte c0 <? 0x80 then Some 1%nat
    else match s1 with
    | EmptyString => None
    | String c1 s2 =>
      if in_range 0xC2 0xDF c0 then (if is_cont c1 then Some 2%nat else None)
      else match s2 with
      | EmptyString => None
      | String c2 s3 =>
        if in_range 0xE0 0xEF c0 then
          let lo := if byte c0 =? 0xE0 then 0xA0 else 0x80 in
          let hi := if byte c0 =? 0xED then 0x9F else 0xBF in
          if in_range lo hi c1 && is_cont c2 then Some 3%nat else None
        else match s3 with
        | EmptyString => None
        | String c3 _ =>
          if in_range 0xF0 0xF4 c0 then
            let lo := if byte c0 =? 0xF0 then 0x90 else 0x80 in
            let hi := if byte c0 =? 0xF4 then 0x8F else 0xBF in
            if in_range lo hi c1 && is_cont c2 && is_cont c3 then Some 4%nat else None
          else None
        end
      end
    end
  end.

(** U+FFFD in UTF-8. *)
Definition rune_error : string :=
  String (chr 0xEF) (String (chr 0xBF) (String (chr 0xBD) EmptyString)).

(** utf8.EncodeRune for the code points \u escapes can produce; a lone
    surrogate gives U+FFFD. *)
Definition encode_rune (r : Z) : string :=
  if r <? 0x80 then String (chr r) EmptyString
  else if r <? 0x800 then
    String (chr (0xC0 + r / 64)) (String (chr (0x80 + r mod 64)) EmptyString)
  else if (0xD800 <=? r) && (r <=? 0xDFFF) then rune_error
  else if r <? 0x10000 then
    String (chr (0xE0 + r / 4096))
      (String (chr (0x80 + (r / 64) mod 64)) (String (chr (0x80 + r mod 64)) EmptyString))
  else
    String (chr (0xF0 + r / 262144))
      (String (chr (0x80 + (r / 4096) mod 64))
        (String (chr (0x80 + (r / 64) mod 64)) (String (chr (0x80 + r mod 64)) EmptyString))).

(** ** json.Marshal *)

Definition hex_digit (n : Z) : ascii := if n <? 10 then chr (48 + n) else chr (87 + n).

Definition u_escape (r : Z) : string :=
  "\u" +:+ String (hex_digit (r / 4096)) (String (hex_digit ((r / 256) mod 16))
    (String (hex_digit ((r / 16) mod 16)) (String (hex_digit (r mod 16)) EmptyString))).

Definition dquote : ascii := chr 34.
Definition bslash : ascii := chr 92.

(** How encoding/json (with its HTML escaping) writes one ASCII byte. *)
Definition quote_ascii (c : ascii) : string :=
  if Ascii.eqb c dquote || Ascii.eqb c bslash then String bslash (String c EmptyString)
  else if byte c =? 10 then "\n"
  else if byte c =? 13 then "\r"
  else if byte c =? 9 then "\t"
  else if (byte c <? 32) || (byte c =? 60) || (byte c =? 62) || (byte c =? 38)
  then u_escape (byte c)
  else String c EmptyString.

(** One rune of the string being quoted: what is written, what is left. *)
Definition quote_step (s : string) : string * string :=
  match s with
  | EmptyString => (EmptyString, EmptyString)
  | String c s' =>
      if byte c <? 0x80 then (quote_ascii c, s')
      else match rune_len s with
           | None => ("\ufffd", s')
           | Some n =>
               let r := str_take n s in
               if decide (r = encode_rune 0x2028) then ("\u2028", str_drop n s)
               else if decide (r = encode_rune 0x2029) then ("\u2029", str_drop n s)
               else (r, str_drop n s)
           end
  end.

Fixpoint quote_body (fuel : nat) (s : string) : string :=
  match fuel, s with
  | _, EmptyString => EmptyString
  | O, _ => EmptyString
  | S fuel, _ => let '(o, s') := quote_step s in o +:+ quote_body fuel s'
  end.

Definition json_quote (s : string) : string :=
  String dquote EmptyString +:+ quote_body (string_len s) s +:+ String dquote EmptyString.

(** The float64 values of a message are never written back by the server, so
    only their integer form is needed here. *)
Fixpoint json_value (v : goval) : string :=
  match v with
  | GNil => "null"
  | GBool b => if b then "true" else "false"
  | GStr s => json_quote s
  | GInt z => itoa z
  | GFloat d => fmt_float d
  | GSlice l => "[" +:+ str_join "," (map json_value l) +:+ "]"
  | GMap l =>
      "{" +:+ str_join "," (map (λ kv, json_quote kv.1 +:+ ":" +:+ kv.2)
                              (kv_sort (map (λ kv, (kv.1, json_value kv.2)) l))) +:+ "}"
  | GStruct l =>
      "{" +:+ str_join "," (map (λ kv, json_quote kv.1 +:+ ":" +:+ json_value kv.2) l) +:+ "}"
  end.

(** json.Marshal(map[string]interface{}{...}) *)
Definition json_marshal (l : list (string * goval)) : string := json_value (GMap l).

(** ** json.Unmarshal *)

Definition is_ws (c : ascii) : bool :=
  (byte c =? 32) || (byte c =? 9) || (byte c =? 10) || (byte c =? 13).

Fixpoint skip_ws (s : string) : string :=
  match s with
  | String c s' => if is_ws c then skip_ws s' else s
  | EmptyString => s
  end.

Fixpoint take_digits (s : string) : string * string :=
  match s with
  | String c s' =>
      if is_digit c then let '(d, r) := take_digits s' in (String c d, r)
      else (EmptyString, s)
  | EmptyString => (EmptyString, EmptyString)
  end.

Fixpoint digits_Z (acc : Z) (s : string) : Z :=
  match s with
  | EmptyString => acc
  | String c s => digits_Z (10 * acc + (byte c - 48)) s
  end.

Definition hex_val (c : ascii) : option Z :=
  if is_digit c then Some (byte c - 48)
  else if in_range 97 102 c then Some (byte c - 87)
  else if in_range 65 70 c then Some (byte c - 55)
  else None.

Definition hex4 (s : string) : option (Z * string) :=
  match s with
  | String a (String b (String c (String d r))) =>
      match hex_val a, hex_val b, hex_val c, hex_val d with
      | Some a, Some b, Some c, Some d => Some (a * 4096 + b * 256 + c * 16 + d, r)
      | _, _, _, _ => None
      end
  | _ => None
  end.

(** After \u: a surrogate pair is one rune, anything else stands for itself. *)
Definition u_rune (s : string) : option (string * string) :=
  match hex4 s with
  | None => None
  | Some (r, rest) =>
      if (0xD800 <=? r) && (r <? 0xDC00) then
        match rest with
        | String c1 (String c2 rest2) =>
            if Ascii.eqb c1 bslash && Ascii.eqb c2 "u" then
              match hex4 rest2 with
              | Some (r2, rest3) =>
                  if (0xDC00 <=? r2) && (r2 <=? 0xDFFF) then
                    Some (encode_rune (0x10000 + (r - 0xD800) * 1024 + (r2 - 0xDC00)), rest3)
                  else Some (rune_error, rest)
              | None => Some (rune_error, rest)
              end
            else Some (rune_error, rest)
        | _ => Some (rune_error, rest)
        end
      else Some (encode_rune r, rest)
  end.

(** One character inside a JSON string: what it stands for, what is left. *)
Definition unquote_step (s : string) : option (string * string) :=
  match s with
  | EmptyString => None
  | String c s' =>
      if byte c <? 32 then None
      else if Ascii.eqb c bslash then
        match s' with
        | EmptyString => None
        | String e r =>
            if Ascii.eqb e dquote || Ascii.eqb e bslash || Ascii.eqb e "/"
            then Some (String e EmptyString, r)
            else if Ascii.eqb e "b" then Some (String (chr 8) EmptyString, r)
            else if Ascii.eqb e "f" then Some (String (chr 12) EmptyString, r)
            else if Ascii.eqb e "n" then Some (String (chr 10) EmptyString, r)
            else if Ascii.eqb e "r" then Some (String (chr 13) EmptyString, r)
            else if Ascii.eqb e "t" then Some (String (chr 9) EmptyString, r)
            else if Ascii.eqb e "u" then u_rune r
            else None
        end
      else if byte c <? 0x80 then Some (String c EmptyString, s')
      else match rune_len s with
           | Some n => Some (str_take n s, str_drop n s)
           | None => Some (rune_error, s')
           end
  end.

(** The rest of a string literal, after its opening quote. *)
Fixpoint unquote (fuel : nat) (s : string) : option (string * string) :=
  match fuel with
  | O => None
  | S fuel =>
      match s with
      | EmptyString => None
      | String c s' =>
          if Ascii.eqb c dquote then Some (EmptyString, s')
          else match unquote_step s with
               | None => None
               | Some (o, r) =>
                   match unquote fuel r with
                   | Some (o', r') => Some (o +:+ o', r')
                   | None => None
                   end
               end
      end
  end.

(** A number literal: -? (0 | [1-9][0-9]* ) (\.[0-9]+)? ([eE][+-]?[0-9]+)? *)
Definition scan_int (s : string) : option (string * string) :=
  match s with
  | String c s' =>
      if Ascii.eqb c "0" then Some ("0", s')
      else if is_digit c then Some (take_digits s) else None
  | EmptyString => None
  end.

Definition scan_frac (s : string) : option (string * string) :=
  match s with
  | String c s' =>
      if Ascii.eqb c "." then
        let '(d, r) := take_digits s' in
        if decide (d = EmptyString) then None else Some (d, r)
      else Some (EmptyString, s)
  | EmptyString => Some (EmptyString, s)
  end.

Definition scan_exp (s : string) : option (Z * string) :=
  match s with
  | String c s' =>
      if Ascii.eqb c "e" || Ascii.eqb c "E" then
        let '(sg, s2) :=
          match s' with
          | String "-" r => (-1, r)
          | String "+" r => (1, r)
          | _ => (1, s')
          end in
        let '(d, r) := take_digits s2 in
        if decide (d = EmptyString) then None else Some (sg * digits_Z 0 d, r)
      else Some (0, s)
  | EmptyString => Some (0, s)
  end.

Definition scan_number (s : string) : option (dec * string) :=
  let '(neg, s1) := match s with String "-" r => (true, r) | _ => (false, s) end in
  match scan_int s1 with
  | None => None
  | Some (int, s2) =>
      match scan_frac s2 with
      | None => None
      | Some (frac, s3) =>
          match scan_exp s3 with
          | None => None
          | Some (e, s4) => Some (mk_dec neg int frac e, s4)
          end
      end
  end.

Definition expect (c : ascii) (s : string) : option string :=
  match skip_ws s with
  | String c' s' => if Ascii.eqb c c' then Some s' else None
  | EmptyString => None
  end.

Section decoder.
Context `{GoRuntime}.

Fixpoint parse_value (fuel : nat) (s : string) : option (goval * string) :=
  match fuel with
  | O => None
  | S fuel =>
      let s := skip_ws s in
      match s with
      | EmptyString => None
      | String c r =>
          if Ascii.eqb c dquote then
            match unquote (S (string_len r)) r with
            | Some (x, r') => Some (GStr x, r')
            | None => None
            end
          else if Ascii.eqb c "{" then
            match expect "}" r with
            | Some r' => Some (GMap [], r')
            | None => parse_members fuel [] r
            end
          else if Ascii.eqb c "[" then
            match expect "]" r with
            | Some r' => Some (GSlice [], r')
            | None => parse_elems fuel [] r
            end
          else if has_prefix "true" s then Some (GBool true, str_drop 4 s)
          else if has_prefix "false" s then Some (GBool false, str_drop 5 s)
          else if has_prefix "null" s then Some (GNil, str_drop 4 s)
          else
            match scan_number s with
            | Some (d, r') =>
                match float64_of d with
                | Some f => Some (GFloat f, r')
                | None => None
                end
            | None => None
            end
      end
  end
with parse_members (fuel : nat) (acc : list (string * goval)) (s : string)
    : option (goval * string) :=
  match fuel with
  | O => None
  | S fuel =>
      match expect dquote s with
      | None => None
      | Some s1 =>
          match unquote (S (string_len s1)) s1 with
          | None => None
          | Some (k, s2) =>
              match expect ":" s2 with
              | None => None
              | Some s3 =>
                  match parse_value fuel s3 with
                  | None => None
                  | Some (v, s4) =>
                      let acc := kv_insert k v acc in
                      match expect "," s4 with
                      | Some s5 => parse_members fuel acc s5
                      | None =>
                          match expect "}" s4 with
                          | Some s5 => Some (GMap acc, s5)
                          | None => None
                          end
                      end
                  end
              end
          end
      end
  end
with parse_elems (fuel : nat) (acc : list goval) (s : string)
    : option (goval * string) :=
  match fuel with
  | O => None
  | S fuel =>
      match parse_value fuel s with
      | None => None
      | Some (v, s1) =>
          let acc := acc ++ [v] in
          match expect "," s1 with
          | Some s2 => parse_elems fuel acc s2
          | None =>
              match expect "]" s1 with
              | Some s2 => Some (GSlice acc, s2)
              | None => None
              end
          end
      end
  end.

(** json.Unmarshal(str, &m) for a map[string]interface{}: an object fills
    the map, null leaves a nil map, anything else is an error. *)
Definition json_unmarshal (str : string) : option (list (string * goval)) :=
  match parse_value (S (S (string_len str))) str with
  | Some (v, r) =>
      if decide (skip_ws r = EmptyString) then
        match v with
        | GMap l => Some l
        | GNil => Some []
        | _ => None
        end
      else None
  | None => None
  end.

(** jsonparse.go: CreateJSONParser *)
Definition CreateJSONParser (str : string) : option jsonparser :=
  match json_unmarshal str with
  | None => None
  | Some l => Some (list_to_map l)
  end.
End decoder.

(** ** jsonparse.go: the accessors *)

Definition GetValue (m : jsonparser) (key : string) : string :=
  match m !! key with
  | Some v => fmt_v v
  | None => EmptyString
  end.

(** v.(float64) panics on a value of another type. *)
Definition GetIntValue {S} (m : jsonparser) (key : string) : M S dec :=
  match m !! key with
  | Some (GFloat d) => mret d
  | Some _ => halt PTypeAssert
  | None => mret dec_zero
  end.

(** json.Marshal of a string followed by json.Unmarshal into a string: bytes
    that are not UTF-8 come back as U+FFFD. *)
Definition json_reencode (s : string) : string :=
  match unquote (S (string_len (quote_body (string_len s) s)))
          (quote_body (string_len s) s +:+ String dquote EmptyString) with
  | Some (x, _) => x
  | None => s
  end.
