(* ===== verification/Constants.v ===== *)
(** * Constants: definition.go

    The commands and field names of the signalling protocol, the error codes
    and descriptions of its replies, and the parameters of the cross-cluster
    reconnection. *)

From S2P Require Import Prelude.

Definition CLUSTER_RECONNECTION_INTERVAL : Z := 10.
Definition CLUSTER_RECONNECTION_MAXTIMES : Z := 3.
Definition CmdRoomCreated : string := "createroom".
Definition CmdHeartbeat : string := "heartbeat".
Definition CmdLogin : string := "login".
Definition CmdLogout : string := "logout".
Definition CmdPush : string := "publish".
Definition CmdStopPush : string := "stoppush".
Definition CmdSub : string := "sub".
Definition CmdStopSub : string := "stopsub".
Definition CmdOffer : string := "offer".
Definition CmdAnswer : string := "answer".
Definition CmdCandidate : string := "candidate".
Definition CmdPub : string := "pub".
Definition CmdUnpub : string := "unpub".
Definition CmdPodRegist : string := "pod_regist".
Definition CmdPodRegistNow : string := "regist_now".
Definition CmdPodReleasePublish : string := "unpush".
Definition CmdPodLeaveRoom : string := "leaveroom".
Definition CmdFakePublish : string := "fakepublish".
Definition CmdFakeUnpublish : string := "fakeunpublish".
Definition CmdFakeSubscribe : string := "fakesubscribe".
Definition CmdFakeOffer : string := "fakeoffer".
Definition CmdFakeAnswer : string := "fakeanswer".
Definition CmdFakeCandidate : string := "fakecandidate".
Definition LabelCmd : string := "cmd".
Definition LabelRoomId : string := "roomid".
Definition LabelClusterId : string := "clusterid".
Definition LabelPodId : string := "podid".
Definition LabelSessID : string := "userid".
Definition LabelUserName : string := "username".
Definition LabelSrcSessID : string := "remoteuserid".
Definition LabelPeerID : string := "peerid".
Definition LabelSDP : string := "sdp".
Definition LabelCode : string := "code".
Definition LabelDesc : string := "description".
Definition LabelSN : string := "sn".
Definition LabelTimestamp : string := "timestamp".
Definition LabelResource : string := "maxresource".
Definition CmdNotAvailable : string := "notavailable".
Definition CmdNotLogin : string := "notlogin".
Definition CmdNotFoundPublisher : string := "nopublisher".
Definition CodeNotAvailable : Z := 100.
Definition DescNotAvailable : string := "service is not available, please try again later".
Definition CodeNotLogin : Z := 101.
Definition DescNotLogin : string := "not login, please login first and try again".
Definition CodeNotFoundPublishUser : Z := 102.
Definition DescNotFoundPublishUser : string := "not found publish user".
Definition CodeNotFoundPublishPeer : Z := 103.
Definition DescNotFoundPublishPeer : string := "not found publish peer".
Definition CodeNotFoundSubscribePeer : Z := 104.
Definition DescNotFoundSubscribePeer : string := "not found subscribe peer".
Definition CodeCreatePeerError : Z := 105.
Definition DescCreatePeerError : string := "create peer failed".
