(* ===== verification/KeyframeFilter.v ===== *)
(** * The keyframe request filter: keyframerequestfilter.go

    A publisher answers the keyframe requests of its subscribers by a PLI sent
    to the browser.  The filter bounds their rate: a request is forwarded at
    once when the last PLI is at least [minInterval] old, otherwise it is
    remembered ([cached]) and a timer forwards it when the interval is over; a
    filter of an original publisher ([tick]) also sends a PLI every
    [maxInterval].

    The operations run under the filter's mutex from their first to their last
    statement, so each is one step on the record below.  The goroutines they
    start ([go filter.requestKeyframeNow()]) and the call of
    [sendRequestKeyframe] are effects, recorded in order.  The timer goroutine
    is counted in [goroutines].  A timer that runs out puts a tick into the
    buffer of its channel ([kf_fire]); the goroutine receives it at some later
    time ([kf_timerExpired]).  Reset sets a new deadline and leaves a tick
    that is in the buffer where it is (the module is compiled as Go 1.14). *)

From S2P Require Import Prelude GoLib.

(** A time.Timer that is never reset: running until an instant (in
    nanoseconds), or expired with its channel drained. *)
Inductive timer :=
  | TArmed (deadline : Z)
  | TExpired.

#[export] Instance timer_eq_dec : EqDecision timer.
Proof. solve_decision. Defined.

(** The timer of a filter, which is reset: when it runs out, if it is running,
    and whether its channel, a buffer of one, holds a tick that was not
    received. *)
Record ktimer := MkTimer {
  t_deadline : option Z;
  t_ticked : bool;
}.

#[export] Instance ktimer_eq_dec : EqDecision ktimer.
Proof. solve_decision. Defined.

Definition NewTimer (now d : Z) : ktimer := MkTimer (Some (now + d)) false.
Definition Timer_Reset (now d : Z) (t : ktimer) : ktimer := MkTimer (Some (now + d)) (t_ticked t).

(** The runtime puts a tick into the channel; the goroutine takes it out. *)
Definition Timer_fire (t : ktimer) : ktimer := MkTimer None true.
Definition Timer_receive (t : ktimer) : ktimer := MkTimer (t_deadline t) false.
Definition Timer_due (now : Z) (t : ktimer) : bool := from_option (λ d, d <=? now) false (t_deadline t).

Definition second : Z := 1000000000.

(** The fields [mutex] and [exitChan] are not kept: every operation is atomic,
    and the only send on [exitChan] is the one [Shutdown] waits for. *)
Record KeyframeFilter := MkFilter {
  minInterval : Z;
  maxInterval : Z;
  kf_goroutines : nat;              (* waitGroup: timer goroutines alive *)
  kf_timer : option ktimer;         (* nil or a timer *)
  kf_old : list ktimer;             (* timers replaced by a second start, whose
                                       goroutines still wait for a tick *)
  cached : bool;
  lasttime : Z;
  tick : bool;
  sendRequestKeyframe : bool;       (* false: nil *)
}.

Definition set_kf_timer (t : option ktimer) (f : KeyframeFilter) : KeyframeFilter :=
  MkFilter (minInterval f) (maxInterval f) (kf_goroutines f) t (kf_old f) (cached f) (lasttime f)
    (tick f) (sendRequestKeyframe f).
Definition set_kf_old (l : list ktimer) (f : KeyframeFilter) : KeyframeFilter :=
  MkFilter (minInterval f) (maxInterval f) (kf_goroutines f) (kf_timer f) l (cached f) (lasttime f)
    (tick f) (sendRequestKeyframe f).
Definition set_kf_goroutines (n : nat) (f : KeyframeFilter) : KeyframeFilter :=
  MkFilter (minInterval f) (maxInterval f) n (kf_timer f) (kf_old f) (cached f) (lasttime f)
    (tick f) (sendRequestKeyframe f).
Definition set_cached (b : bool) (f : KeyframeFilter) : KeyframeFilter :=
  MkFilter (minInterval f) (maxInterval f) (kf_goroutines f) (kf_timer f) (kf_old f) b (lasttime f)
    (tick f) (sendRequestKeyframe f).
Definition set_lasttime (t : Z) (f : KeyframeFilter) : KeyframeFilter :=
  MkFilter (minInterval f) (maxInterval f) (kf_goroutines f) (kf_timer f) (kf_old f) (cached f) t
    (tick f) (sendRequestKeyframe f).
Definition set_sendRequestKeyframe (b : bool) (f : KeyframeFilter) : KeyframeFilter :=
  MkFilter (minInterval f) (maxInterval f) (kf_goroutines f) (kf_timer f) (kf_old f) (cached f)
    (lasttime f) (tick f) b.

Inductive kfeff :=
  | GoRequestKeyframeNow            (* go filter.requestKeyframeNow() *)
  | CallSend.                       (* filter.sendRequestKeyframe() *)

(** The state of an operation: the filter, and the effects so far. *)
Definition kfst : Type := KeyframeFilter * list kfeff.

Definition kf_upd (g : KeyframeFilter → KeyframeFilter) : M kfst unit :=
  modify (λ st, (g st.1, st.2)).
Definition kf_emit (e : kfeff) : M kfst unit := modify (λ st, (st.1, st.2 ++ [e])).

Definition CreateKeyframeFilter (tick : bool) : KeyframeFilter := {|
  minInterval := second * 2;
  maxInterval := second * 30;
  kf_goroutines := 0;
  kf_timer := None;
  kf_old := [];
  cached := false;
  lasttime := 0;
  tick := tick;
  sendRequestKeyframe := false;
|}.

(** A timer that is there already stays with the goroutine that waits for it. *)
Definition startDelayTimer (now d : Z) : M kfst unit :=
  _ ← kf_upd (λ f, set_kf_old (kf_old f ++ option_list (kf_timer f)) f);
  _ ← kf_upd (set_kf_timer (Some (NewTimer now d)));
  kf_upd (λ f, set_kf_goroutines (S (kf_goroutines f)) f).

(** Startup(f), f not nil. *)
Definition kf_Startup (now : Z) : M kfst unit :=
  _ ← kf_upd (set_sendRequestKeyframe true);
  f ← gets fst;
  if tick f then startDelayTimer now (maxInterval f) else skip.

(** The single value sent on exitChan ends one timer goroutine;
    waitGroup.Wait() returns when none is left. *)
Definition kf_exit_and_wait : M kfst unit :=
  f ← gets fst;
  match kf_goroutines f with
  | O => skip
  | 1%nat => kf_upd (set_kf_goroutines 0)
  | S n => _ ← kf_upd (set_kf_goroutines n); halt (HChan CWaitFilter)
  end.

Definition kf_Shutdown : M kfst unit :=
  f ← gets fst;
  _ ← match kf_timer f with
      | Some _ =>
          _ ← kf_upd (set_sendRequestKeyframe false);
          _ ← kf_exit_and_wait;
          kf_upd (set_kf_timer None)
      | None => skip
      end;
  _ ← kf_upd (set_cached false);
  kf_upd (set_lasttime 0).

Definition refreshMaxIntervalTimer (now d : Z) : M kfst unit :=
  f ← gets fst;
  if negb (sendRequestKeyframe f) then skip
  else match kf_timer f with
       | None => startDelayTimer now d
       | Some t => kf_upd (set_kf_timer (Some (Timer_Reset now d t)))
       end.

Definition kf_TryRequestKeyframe (now : Z) : M kfst unit :=
  f ← gets fst;
  if negb (cached f) then
    let curr := now in
    if minInterval f <=? to_int64 (curr - lasttime f) then
      kf_emit GoRequestKeyframeNow
    else
      _ ← kf_upd (set_cached true);
      refreshMaxIntervalTimer now (to_int64 (minInterval f - curr + lasttime f))
  else skip.

Definition kf_requestKeyframeNow (now : Z) : M kfst unit :=
  let curr := now in
  f ← gets fst;
  _ ← (if sendRequestKeyframe f then kf_emit CallSend else halt PNilFunc);
  _ ← kf_upd (set_lasttime curr);
  _ ← (if cached f then kf_upd (set_cached false) else skip);
  if tick f then refreshMaxIntervalTimer now (maxInterval f) else skip.

(** The timers goroutines wait for: the filter's own, number 0, and the
    replaced ones. *)
Definition kf_get (i : nat) (f : KeyframeFilter) : option ktimer :=
  match i with
  | O => kf_timer f
  | S j => kf_old f !! j
  end.

(** A timer runs out. *)
Definition kf_due (now : Z) (i : nat) (f : KeyframeFilter) : bool :=
  from_option (Timer_due now) false (kf_get i f).

Definition kf_fire (i : nat) : M kfst unit :=
  kf_upd (λ f,
    match i with
    | O => set_kf_timer (Timer_fire <$> kf_timer f) f
    | S j => set_kf_old (alter Timer_fire j (kf_old f)) f
    end).

(** A timer goroutine can receive from timer.C (startDelayTimer's loop): there
    is a tick, and a goroutine that waits for it. *)
Definition kf_ticked (i : nat) (f : KeyframeFilter) : bool :=
  from_option t_ticked false (kf_get i f) &&
  match i with
  | O => (length (kf_old f) <? kf_goroutines f)%nat
  | S _ => true
  end.

(** It receives, and goes on to wait for the timer the filter has now. *)
Definition kf_timerExpired (i : nat) : M kfst unit :=
  _ ← kf_upd (λ f,
        match i with
        | O => set_kf_timer (Timer_receive <$> kf_timer f) f
        | S j => set_kf_old (delete j (kf_old f)) f
        end);
  kf_emit GoRequestKeyframeNow.

(** ** The filter as a system

    A filter with its pending [requestKeyframeNow] goroutines, the clock and
    the times of the requests sent so far, newest first. *)

Record kfsys := MkKfsys {
  k_filter : KeyframeFilter;
  k_now : Z;
  k_pending : nat;
  k_sent : list Z;
}.

Inductive kfact :=
  | AStartup
  | AShutdown
  | ATry                            (* TryRequestKeyframe *)
  | ARun                            (* a pending goroutine runs *)
  | AFire (i : nat)                 (* timer i runs out *)
  | ATimer (i : nat)                (* the goroutine that waits for timer i receives *)
  | ATime (t : Z).                  (* the clock advances *)

Definition kf_eff (e : kfeff) (k : kfsys) : kfsys :=
  match e with
  | GoRequestKeyframeNow =>
      MkKfsys (k_filter k) (k_now k) (S (k_pending k)) (k_sent k)
  | CallSend => MkKfsys (k_filter k) (k_now k) (k_pending k) (k_now k :: k_sent k)
  end.

Definition kf_exec (m : M kfst unit) (k : kfsys) : outcome kfsys unit :=
  match m (k_filter k, []) with
  | Ret _ (f, eff) =>
      Ret tt (foldl (flip kf_eff) (MkKfsys f (k_now k) (k_pending k) (k_sent k)) eff)
  | Stop r (f, _) => Stop r (MkKfsys f (k_now k) (k_pending k) (k_sent k))
  end.

(** [None]: the action is not possible in this state. *)
Definition kf_act (a : kfact) (k : kfsys) : option (outcome kfsys unit) :=
  match a with
  | AStartup => Some (kf_exec (kf_Startup (k_now k)) k)
  | AShutdown => Some (kf_exec kf_Shutdown k)
  | ATry => Some (kf_exec (kf_TryRequestKeyframe (k_now k)) k)
  | ARun =>
      match k_pending k with
      | O => None
      | S n => Some (kf_exec (kf_requestKeyframeNow (k_now k))
                       (MkKfsys (k_filter k) (k_now k) n (k_sent k)))
      end
  | AFire i =>
      if kf_due (k_now k) i (k_filter k) then Some (kf_exec (kf_fire i) k) else None
  | ATimer i =>
      if kf_ticked i (k_filter k) then Some (kf_exec (kf_timerExpired i) k) else None
  | ATime t =>
      if (k_now k <=? t) && (t <? 2 ^ 62)
      then Some (Ret tt (MkKfsys (k_filter k) t (k_pending k) (k_sent k))) else None
  end.

(** The state after a sequence of actions, if each was possible and none
    stopped. *)
Fixpoint kf_acts (l : list kfact) (k : kfsys) : option kfsys :=
  match l with
  | [] => Some k
  | a :: l =>
      match kf_act a k with
      | Some (Ret _ k') => kf_acts l k'
      | _ => None
      end
  end.

(** [kf_steps P k k']: actions lead from [k] to [k'], each satisfying [P] in
    the state it starts from. *)
Inductive kf_steps (P : kfact → kfsys → Prop) : kfsys → kfsys → Prop :=
  | kf_steps_refl k : kf_steps P k k
  | kf_steps_step k k' k'' a :
      kf_steps P k k' → P a k' → kf_act a k' = Some (Ret tt k'') → kf_steps P k k''.

(** A fresh filter at time [now]. *)
Definition kf_init (b : bool) (now : Z) : kfsys :=
  MkKfsys (CreateKeyframeFilter b) now 0 [].

(** After the start, no shutdown and no second start. *)
Definition kf_running (a : kfact) (k : kfsys) : Prop := a ≠ AStartup ∧ a ≠ AShutdown.

(** Besides, the goroutines are prompt: one that was started to send a request
    runs, and the timer goroutine receives a tick, before anything else
    happens. *)
Definition kf_prompt (a : kfact) (k : kfsys) : Prop :=
  kf_running a k ∧ (k_pending k = 0%nat ∨ a = ARun) ∧
  (kf_ticked 0 (k_filter k) = false ∨ a = ATimer 0).

(** The filter is started only when it is stopped (its timer is nil). *)
Definition kf_alternating (a : kfact) (k : kfsys) : Prop :=
  a = AStartup → kf_timer (k_filter k) = None.

(** Consecutive requests, newest first, at least [d] apart. *)
Fixpoint spaced (d : Z) (l : list Z) : Prop :=
  match l with
  | t1 :: (t2 :: _) as l' => t2 + d ≤ t1 ∧ spaced d l'
  | _ => True
  end.

(** *** Symbolic execution of one action *)

Ltac kf_inv :=
  repeat match goal with
  | H : Some _ = Some _ |- _ => injection H as H
  | H : Ret _ _ = Ret _ _ |- _ => injection H as H
  | H : None = Some _ |- _ => discriminate H
  | H : Stop _ _ = Ret _ _ |- _ => discriminate H
  end.

Ltac kf_unfold H :=
  cbv [kf_act kf_exec kf_Startup kf_Shutdown kf_TryRequestKeyframe kf_requestKeyframeNow
       kf_timerExpired kf_fire refreshMaxIntervalTimer startDelayTimer kf_exit_and_wait
       kf_upd kf_emit modify gets halt skip mbind M_bind mret M_ret] in H;
  simpl in H.

(** Case analysis on every test of a symbolic run in [H]. *)
Ltac kf_cases H :=
  repeat (match type of H with
          | context [match ?x with _ => _ end] =>
              lazymatch x with
              | context [match _ with _ => _ end] => fail
              | _ => destruct x eqn:?; simpl in H
              end
          end; kf_inv); kf_inv; subst; simpl in *.

(** *** The rate bound *)

(** The one timer of a filter that is started once has its goroutine. *)
Definition kf_single (f : KeyframeFilter) : Prop :=
  kf_old f = [] ∧ kf_goroutines f = match kf_timer f with Some _ => 1%nat | None => 0%nat end.

Record kf_rate_inv (k : kfsys) : Prop := {
  kri_min : minInterval (k_filter k) = second * 2;
  kri_max : maxInterval (k_filter k) = second * 30;
  kri_send : sendRequestKeyframe (k_filter k) = true;
  kri_single : kf_single (k_filter k);
  kri_now : 0 ≤ lasttime (k_filter k) ≤ k_now k ∧ k_now k < 2 ^ 62;
  kri_last : ∀ t l, k_sent k = t :: l → lasttime (k_filter k) = t;
  kri_spaced : spaced (second * 2) (k_sent k);
  kri_timer : ∀ d b, kf_timer (k_filter k) = Some (MkTimer (Some d) b) →
    k_sent k = [] ∨ lasttime (k_filter k) + second * 2 ≤ d;
  kri_tick : ∀ o, kf_timer (k_filter k) = Some (MkTimer o true) →
    o = None ∧ k_pending k = 0%nat ∧ (k_sent k = [] ∨ lasttime (k_filter k) + second * 2 ≤ k_now k);
  kri_pending : (k_pending k <= 1)%nat;
  kri_due : k_pending k = 1%nat →
    k_sent k = [] ∨ lasttime (k_filter k) + second * 2 ≤ k_now k;
  kri_idle : tick (k_filter k) = false → ∀ d b, kf_timer (k_filter k) = Some (MkTimer (Some d) b) →
    cached (k_filter k) = true ∧ k_pending k = 0%nat;
}.

Lemma kf_rate_try k k' :
  kf_rate_inv k → k_pending k = 0%nat → kf_ticked 0 (k_filter k) = false →
  kf_act ATry k = Some (Ret tt k') → kf_rate_inv k'.
Proof.
  intros [Hmin Hmax Hsend [Ho Hg] Hnow Hlast Hsp Htm Htk Hp Hdue Hidle] Hpe Hnt H.
  destruct k as [[mi ma g tm old ca la ti se] now pe sent]; simpl in *. subst.
  assert (Hs : second = 1000000000) by reflexivity.
  destruct tm as [[o []]|]; [done|..].
  all: kf_unfold H; kf_cases H; constructor; unfold NewTimer, Timer_Reset in *; simpl in *; try done; try lia; intros; simplify_eq/=;
    try (destruct (Hidle eq_refl _ _ eq_refl) as [-> _]; done);
    right; rewrite ?Z.leb_le, ?Z.leb_gt, ?to_int64_small in *; lia.
Qed.

Lemma spaced_cons t l :
  (∀ t' l', l = t' :: l' → t' + second * 2 ≤ t) → spaced (second * 2) l →
  spaced (second * 2) (t :: l).
Proof. destruct l as [|t' l']; intros H Hl; [done|]. split; [by eapply H | done]. Qed.

Lemma kf_rate_run k k' :
  kf_rate_inv k → kf_act ARun k = Some (Ret tt k') → kf_rate_inv k'.
Proof.
  intros [Hmin Hmax Hsend [Ho Hg] Hnow Hlast Hsp Htm Htk Hp Hdue Hidle] H.
  destruct k as [[mi ma g tm old ca la ti se] now pe sent]; simpl in *. subst.
  assert (Hs : second = 1000000000) by reflexivity.
  destruct pe as [|[|]]; [discriminate H | | lia].
  assert (spaced (second * 2) (now :: sent)) as Hsp'.
  { apply spaced_cons; [|done]. intros t' l' ->. rewrite <- (Hlast _ _ eq_refl).
    destruct (Hdue eq_refl); [done | lia]. }
  destruct tm as [[o []]|]; [by destruct (Htk _ eq_refl) as (_ & ? & _)|..].
  all: kf_unfold H; kf_cases H; constructor; unfold NewTimer, Timer_Reset in *; simpl in *; try done; try lia; intros; simplify_eq/=;
    try reflexivity; try (destruct (Hidle eq_refl _ _ eq_refl); done); right; lia.
Qed.

Lemma kf_rate_step a k k' :
  kf_rate_inv k → kf_prompt a k → kf_act a k = Some (Ret tt k') → kf_rate_inv k'.
Proof.
  intros Hi [[Hns Hnd] [Hpr Hpt]] H. destruct a; try done.
  - destruct Hpr, Hpt; try done. by eapply kf_rate_try.
  - by eapply kf_rate_run.
  - destruct Hpr as [Hpe|]; [|done].
    destruct Hi as [Hmin Hmax Hsend [Ho Hg] Hnow Hlast Hsp Htm Htk Hp Hdue Hidle].
    destruct k as [[mi ma g tm old ca la ti se] now pe sent]; simpl in *. subst.
    destruct i as [|i], tm as [[[d|] b]|]; try done. unfold kf_act, kf_due, Timer_due in H. simpl in H.
    kf_unfold H. kf_cases H; constructor; simpl in *; try done; try lia; intros; simplify_eq.
    injection H as <-. split_and!; [done..|]. destruct (Htm d b eq_refl); [by left | right; lia].
  - destruct Hpr as [Hpe|]; [|done].
    destruct Hi as [Hmin Hmax Hsend [Ho Hg] Hnow Hlast Hsp Htm Htk Hp Hdue Hidle].
    destruct k as [[mi ma g tm old ca la ti se] now pe sent]; simpl in *. subst.
    destruct i as [|i], tm as [[o []]|]; try done. destruct (Htk _ eq_refl) as (-> & _ & Ht).
    kf_unfold H. kf_cases H; constructor; simpl in *; try done; try lia; intros; by simplify_eq.
  - destruct Hpr as [Hpe|]; [|done].
    destruct Hi as [Hmin Hmax Hsend [Ho Hg] Hnow Hlast Hsp Htm Htk Hp Hdue Hidle].
    destruct k as [[mi ma g tm old ca la ti se] now pe sent]; simpl in *. subst.
    kf_unfold H. kf_cases H; constructor; simpl in *; try done; try lia; eauto.
    intros o E. destruct (Htk _ E) as (-> & _ & [|]); split_and!; auto. right. lia.
Qed.

Lemma kf_rate_init b now k :
  0 ≤ now < 2 ^ 62 → kf_act AStartup (kf_init b now) = Some (Ret tt k) → kf_rate_inv k.
Proof.
  intros Hn H. unfold kf_init, CreateKeyframeFilter in H. kf_unfold H.
  kf_cases H; constructor; simpl in *; try done; try lia; by left.
Qed.

(** *** No request is lost, and Shutdown returns *)

(** The timer goroutine is there, and its timer has ticked or runs out by [t]. *)
Definition kf_soon (t : Z) (f : KeyframeFilter) : Prop :=
  kf_goroutines f = 1%nat ∧
  ∃ o b, kf_timer f = Some (MkTimer o b) ∧ (b = true ∨ ∃ d, o = Some d ∧ d ≤ t).

Record kf_live_inv (k : kfsys) : Prop := {
  kli_min : minInterval (k_filter k) = second * 2;
  kli_now : second * 2 ≤ k_now k < 2 ^ 62;
  kli_last : 0 ≤ lasttime (k_filter k) ≤ k_now k;
  kli_stopped : sendRequestKeyframe (k_filter k) = false →
    lasttime (k_filter k) = 0 ∧ cached (k_filter k) = false;
  kli_single : kf_single (k_filter k);
  kli_cached : cached (k_filter k) = true →
    (0 < k_pending k)%nat ∨ kf_soon (lasttime (k_filter k) + second * 2) (k_filter k);
}.

Lemma kf_live_step a k k' :
  kf_live_inv k → kf_alternating a k → kf_act a k = Some (Ret tt k') → kf_live_inv k'.
Proof.
  intros [Hmin Hnow Hlast Hst [Ho Hg] Hc] Halt H. unfold kf_alternating in Halt.
  destruct k as [[mi ma g tm old ca la ti se] now pe sent]; simpl in *. subst.
  assert (Hs : second = 1000000000) by reflexivity. unfold kf_soon in Hc. simpl in Hc.
  destruct a as [| | | |i|i|t]; [kf_unfold H; specialize (Halt eq_refl); simpl in *; subst | kf_unfold H.. | | |kf_unfold H].
  all: try (destruct i; [destruct tm as [[o b]|]|]; try discriminate H; unfold kf_due, kf_ticked, Timer_due in H; kf_unfold H).
  all: kf_cases H; constructor; unfold kf_single, kf_soon, NewTimer, Timer_Reset, Timer_fire, Timer_receive in *; simpl in *;
    try done; try lia; intros; simplify_eq/=; eauto with lia.
  all: repeat match goal with Hb : negb ?b = _ |- _ => destruct b; try discriminate Hb; clear Hb end.
  all: try (destruct (Hst eq_refl); subst; rewrite Z.leb_gt, to_int64_small in *; lia).
  all: right; split; [reflexivity|]; eexists _, _; (split; [reflexivity|]).
  all: try by left.
  all: right; eexists; (split; [reflexivity|]); rewrite ?Z.leb_gt, ?to_int64_small in *; lia.
Qed.

Lemma kf_steps_inv (P : kfact → kfsys → Prop) (I : kfsys → Prop) k k' :
  (∀ a k1 k2, I k1 → P a k1 → kf_act a k1 = Some (Ret tt k2) → I k2) →
  kf_steps P k k' → I k → I k'.
Proof. intros Hstep Hs Hk. induction Hs; eauto. Qed.

Lemma kf_live_init b now :
  second * 2 ≤ now < 2 ^ 62 → kf_live_inv (kf_init b now).
Proof. intros Hn. constructor; simpl; try done; unfold second in *; lia. Qed.

(** A given sequence of actions as a run. *)
Fixpoint kf_path (P : kfact → kfsys → Prop) (l : list kfact) (k k' : kfsys) : Prop :=
  match l with
  | [] => k = k'
  | a :: l => P a k ∧ ∃ k1, kf_act a k = Some (Ret tt k1) ∧ kf_path P l k1 k'
  end.

Lemma kf_steps_left P k k1 k' a :
  P a k → kf_act a k = Some (Ret tt k1) → kf_steps P k1 k' → kf_steps P k k'.
Proof.
  intros HP Ha Hs. induction Hs as [|k1 k2 k3 b Hs IH HPb Hb].
  - eapply kf_steps_step; [apply kf_steps_refl | done | done].
  - eapply kf_steps_step; [by apply IH | done | done].
Qed.

Lemma kf_path_steps P l k k' : kf_path P l k k' → kf_steps P k k'.
Proof.
  revert k. induction l as [|a l IH]; intros k; simpl.
  - intros ->. constructor.
  - intros (HP & k1 & Ha & Hl). eapply kf_steps_left; eauto.
Qed.

(** *** Properties *)


(** Evaluate a given run. *)
Ltac kf_eval :=
  repeat first
    [ match goal with |- _ = _ => vm_compute; reflexivity end
    | match goal with |- ∃ _, _ => eexists end
    | split ].

(** A request at 5 s, sent at once; another one at 6 s, put off; the timer
    serves it at 7 s. *)
Definition kf_demo : list kfact := [ATry; ARun; ATime (6 * second); ATry].
Definition kf_demo_late : list kfact := kf_demo ++ [ATime (7 * second); AFire 0; ATimer 0; ARun].


(** No request is lost: in every interleaving of requests, goroutines, timer
    ticks, starts and stops in which a running filter is not started again, a
    request that was put off is still going to be served: a goroutine is about
    to send it, or the timer goroutine is there and its timer has a tick for it
    or runs out no later than two seconds after the last request. *)
Theorem kf_cached_is_served b now k :
  second * 2 ≤ now < 2 ^ 62 →
  kf_steps kf_alternating (kf_init b now) k →
  cached (k_filter k) = true →
  (0 < k_pending k)%nat ∨
  kf_soon (lasttime (k_filter k) + second * 2) (k_filter k).
Proof.
  intros Hn Hs Hc.
  apply kli_cached; [|done].
  eapply (kf_steps_inv kf_alternating); [intros; by eapply kf_live_step | done |].
  by apply kf_live_init.
Qed.

Lemma kf_cached_is_served_witness :
  ∃ k, kf_acts (AStartup :: kf_demo) (kf_init true (5 * second)) = Some k ∧
    cached (k_filter k) = true ∧
    ((0 < k_pending k)%nat ∨ kf_soon (lasttime (k_filter k) + second * 2) (k_filter k)).
Proof.
  eexists. split; [vm_compute; reflexivity|]. split; [reflexivity|].
  apply (kf_cached_is_served true (5 * second)); [by vm_compute | | reflexivity].
  apply (kf_path_steps _ (AStartup :: kf_demo)).
  kf_eval; by intros ?.
Defined.

(** Shutdown returns: in the same interleavings the one value it
    sends on exitChan meets the one timer goroutine there is, and no timer
    goroutine is left. *)
Theorem kf_shutdown_returns b now k :
  second * 2 ≤ now < 2 ^ 62 →
  kf_steps kf_alternating (kf_init b now) k →
  ∃ k', kf_act AShutdown k = Some (Ret tt k') ∧
    kf_goroutines (k_filter k') = 0%nat ∧ kf_timer (k_filter k') = None ∧
    cached (k_filter k') = false.
Proof.
  intros Hn Hs.
  assert (kf_live_inv k) as [_ _ _ _ [Ho Hg] _].
  { eapply (kf_steps_inv kf_alternating); [intros; by eapply kf_live_step | done |].
    by apply kf_live_init. }
  destruct k as [[mi ma g tm old ca la ti se] tnow pe sent]; simpl in *. subst.
  destruct tm; eexists; split; reflexivity || done.
Qed.

Lemma kf_shutdown_returns_witness :
  ∃ k k', kf_acts (AStartup :: kf_demo) (kf_init true (5 * second)) = Some k ∧
    kf_act AShutdown k = Some (Ret tt k') ∧
    kf_goroutines (k_filter k') = 0%nat ∧ kf_timer (k_filter k') = None ∧
    cached (k_filter k') = false.
Proof.
  eexists. edestruct (kf_shutdown_returns true (5 * second)) as (k' & Hk');
    [by vm_compute | | exists k'; split; [vm_compute; reflexivity | exact Hk']].
  apply (kf_path_steps _ (AStartup :: kf_demo)).
  kf_eval; by intros ?.
Defined.

(** The rate bound needs the goroutines to be prompt.  Two requests
    that arrive before the first goroutine has run are both forwarded, at the
    same instant, although each of them saw a clear interval. *)
Theorem kf_burst_sends_twice :
  ∃ k, kf_acts [AStartup; ATry; ATry; ARun; ARun] (kf_init true (5 * second)) = Some k ∧
    k_sent k = [5 * second; 5 * second].
Proof. eexists. split; vm_compute; reflexivity. Qed.

(** It also needs the timer goroutine to be prompt: Reset leaves the tick of a
    timer that has run out in the channel.  A request that comes between the
    end of the thirty seconds and the receipt of the tick is sent at once, and
    again when the tick is received. *)
Theorem kf_stale_tick_sends_twice :
  ∃ k, kf_acts [AStartup; ATime (35 * second); AFire 0; ATry; ARun; ATimer 0; ARun] (kf_init true (5 * second)) = Some k ∧
    k_sent k = [35 * second; 35 * second].
Proof. eexists. split; vm_compute; reflexivity. Qed.

(** A requestKeyframeNow goroutine that runs after Shutdown
    calls the nil function Shutdown has left in sendRequestKeyframe: the
    process panics. *)
Theorem kf_shutdown_race :
  ∃ k, kf_acts [AStartup; ATry; AShutdown] (kf_init true (5 * second)) = Some k ∧
    ∃ k', kf_act ARun k = Some (Stop PNilFunc k').
Proof. eexists. split; [vm_compute; reflexivity|]. eexists. vm_compute; reflexivity. Qed.
