(* ===== verification/World.v ===== *)
(** * The state of the server

    The objects of the program and the memory they live in.  Go pointers to
    peers, sessions, rooms and exchanges are locations of a heap, so that an
    object reached through two maps, or still referenced by a goroutine after
    its removal from a map, is one object.  The [parent] pointers are
    locations; [conf] is everywhere the same pointer, to [w_conf]; the single
    room manager is [w_mgr].

    The world also holds the mutexes, the goroutines that have been started and
    have not run yet ([w_tasks]), the clock, and the trace of what the process
    has sent to the outside ([w_out]).  Printing to stdout is not modelled.

    The library the server calls is a parameter: pion/webrtc ([WebRTC]); the
    session descriptions are read by the model of pion/sdp, and a connection has
    the states of [Signaling] and [MediaEngine].  It also has the log of the calls made on it: what
    else the library answers is any function of log and state. *)

From S2P Require Import Prelude GoLib Bytes Sdp Ice MediaEngine Signaling Json Constants KeyframeFilter.

(** ** Configuration (config.go) *)

Record Config := MkConfig {
  Version : Z;
  Turnip : string;
  Turnport : Z;
  Proxyaddr : string;
  Proxyport : Z;
  Localaddr : string;
  Mqttip : string;
  Mqttport : Z;
  Mqttuser : string;
  Mqttpwd : string;
  MqttTopic : string;
  Rmqurl : string;
  CenterRmqurl : string;
  Maxpull : Z;
  Clusterid : string;
  Uuid : string;
  ContainerID : string;
  sn : Z;  (* uint64 *)
}.

Definition set_Proxyaddr (g : string → string) (x : Config) : Config :=
  MkConfig (Version x) (Turnip x) (Turnport x) (g (Proxyaddr x)) (Proxyport x) (Localaddr x)
    (Mqttip x) (Mqttport x) (Mqttuser x) (Mqttpwd x) (MqttTopic x) (Rmqurl x)
    (CenterRmqurl x) (Maxpull x) (Clusterid x) (Uuid x) (ContainerID x) (sn x).
Definition set_Localaddr (g : string → string) (x : Config) : Config :=
  MkConfig (Version x) (Turnip x) (Turnport x) (Proxyaddr x) (Proxyport x) (g (Localaddr x))
    (Mqttip x) (Mqttport x) (Mqttuser x) (Mqttpwd x) (MqttTopic x) (Rmqurl x)
    (CenterRmqurl x) (Maxpull x) (Clusterid x) (Uuid x) (ContainerID x) (sn x).
Definition set_MqttTopic (g : string → string) (x : Config) : Config :=
  MkConfig (Version x) (Turnip x) (Turnport x) (Proxyaddr x) (Proxyport x) (Localaddr x)
    (Mqttip x) (Mqttport x) (Mqttuser x) (Mqttpwd x) (g (MqttTopic x)) (Rmqurl x)
    (CenterRmqurl x) (Maxpull x) (Clusterid x) (Uuid x) (ContainerID x) (sn x).
Definition set_Clusterid (g : string → string) (x : Config) : Config :=
  MkConfig (Version x) (Turnip x) (Turnport x) (Proxyaddr x) (Proxyport x) (Localaddr x)
    (Mqttip x) (Mqttport x) (Mqttuser x) (Mqttpwd x) (MqttTopic x) (Rmqurl x)
    (CenterRmqurl x) (Maxpull x) (g (Clusterid x)) (Uuid x) (ContainerID x) (sn x).
Definition set_Uuid (g : string → string) (x : Config) : Config :=
  MkConfig (Version x) (Turnip x) (Turnport x) (Proxyaddr x) (Proxyport x) (Localaddr x)
    (Mqttip x) (Mqttport x) (Mqttuser x) (Mqttpwd x) (MqttTopic x) (Rmqurl x)
    (CenterRmqurl x) (Maxpull x) (Clusterid x) (g (Uuid x)) (ContainerID x) (sn x).
Definition set_ContainerID (g : string → string) (x : Config) : Config :=
  MkConfig (Version x) (Turnip x) (Turnport x) (Proxyaddr x) (Proxyport x) (Localaddr x)
    (Mqttip x) (Mqttport x) (Mqttuser x) (Mqttpwd x) (MqttTopic x) (Rmqurl x)
    (CenterRmqurl x) (Maxpull x) (Clusterid x) (Uuid x) (g (ContainerID x)) (sn x).
Definition set_sn (g : Z → Z) (x : Config) : Config :=
  MkConfig (Version x) (Turnip x) (Turnport x) (Proxyaddr x) (Proxyport x) (Localaddr x)
    (Mqttip x) (Mqttport x) (Mqttuser x) (Mqttpwd x) (MqttTopic x) (Rmqurl x)
    (CenterRmqurl x) (Maxpull x) (Clusterid x) (Uuid x) (ContainerID x) (g (sn x)).

(** ** The WebRTC library *)

(** The calls made on a connection, oldest first. *)
Inductive pcop :=
  | OpSetLocal (ty sdp : string)
  | OpSetRemote (ty sdp : string)
  | OpAddICECandidate (candidate : string)
  | OpAddTrack (mime id stream : string)
  | OpCreateDataChannel (label : string) (ordered : bool) (maxRetransmits : Z)
  | OpCreateOffer
  | OpCreateAnswer.

(** A connection: the calls made on it, the state of its signalling and its media
    engine. *)
Record pcstate := MkState { st_sig : signaling; st_media : MediaEngine }.
Record pconn := MkPc { pc_id : nat; pc_log : list pcop; pc_state : pcstate }.
Definition pc_sig (pc : pconn) : signaling := st_sig (pc_state pc).
Definition pc_media (pc : pconn) : MediaEngine := st_media (pc_state pc).
Definition with_sig (s : signaling) (pc : pconn) : pcstate := MkState s (pc_media pc).

(** A media section of a parsed session description: m= name, attributes. *)
Record media := MkMedia { m_name : string; m_attrs : list (string * string) }.

(** The result of writing to a track or a connection. *)
Inductive write_result := WOk | WClosedPipe | WErr.

Inductive ICEConnectionState :=
  | ICENew | ICEChecking | ICEConnected | ICECompleted
  | ICEDisconnected | ICEFailed | ICEClosed.

#[export] Instance ICEConnectionState_eq_dec : EqDecision ICEConnectionState.
Proof. solve_decision. Defined.

(** What the library answers: [false], [None] and [WErr] are errors.  [wr_url] is
    the library net/url, which the parser of descriptions calls.  [wr_set_local]
    and [wr_set_remote] are what comes after setDescription has accepted the
    description and, for a remote one, the media engine its codecs;
    [wr_ext_order] is the order in which the header extensions of a section are
    visited then; [wr_populate] is populateLocalCandidates, on the text;
    [wr_ice_agent] says that the transport has its gatherer and agent. *)
Class WebRTC := {
  wr_new_pc : nat → bool;
  wr_create_offer : pconn → option string;
  wr_create_answer : pconn → option string;
  wr_set_local : pconn → string → string → bool;
  wr_set_remote : pconn → string → string → bool;
  wr_ext_order : pconn → nat → list string → list string;
  wr_ext_order_perm : ∀ pc n l, wr_ext_order pc n l ≡ₚ l;
  wr_populate : pconn → string → string;
  wr_ice_agent : pconn → bool;
  wr_add_track : pconn → string → bool;
  wr_create_dc : pconn → string → bool;
  wr_track_write : nat → string → write_result;
  #[global] wr_url :: NetUrl;
}.

(** ** peer (peer.go)

    [conf] is [w_conf].  [podid] is the argument the callbacks of the
    connection capture.  Of the channels and wait groups: [exitCh_closed] says
    whether exitCh is closed, [remoteSdpReceived] counts the goroutines that
    are ready to send on that channel, [readers] the goroutines that read a
    remote track.  A list.List pointer is an [option]. *)

Record peer := MkPeer {
  p_userid : string;
  p_remoteuserid : string;
  p_peerid : string;
  p_role : Z;
  p_isFake : bool;
  p_peerConnection : option pconn;
  p_videoTrack : bool;  (* nil: false *)
  p_videoSender : bool;
  p_audioTrack : bool;
  p_audioSender : bool;
  p_dataChannel : bool;
  p_filter : option KeyframeFilter;
  p_onSendMessageHandler : bool;
  p_publishersdp : option string;
  p_parent : nat;
  p_setedRemoteDesc : bool;
  p_candidateCaches : list string;
  p_isReady : bool;
  p_shouldNotify : bool;
  p_videoCodec : RTPCodecParameters;
  p_audioCodec : RTPCodecParameters;
  p_audiossrc : option (list Z);
  p_videossrc : option (list Z);
  p_appssrc : option (list Z);
  p_remoteSdpReceived : nat;
  p_exitCh_closed : bool;
  p_readers : nat;
  p_podid : string;
}.

Definition set_p_peerConnection (g : option pconn → option pconn) (x : peer) : peer :=
  MkPeer (p_userid x) (p_remoteuserid x) (p_peerid x) (p_role x) (p_isFake x) (g
    (p_peerConnection x)) (p_videoTrack x) (p_videoSender x) (p_audioTrack x)
    (p_audioSender x) (p_dataChannel x) (p_filter x) (p_onSendMessageHandler x)
    (p_publishersdp x) (p_parent x) (p_setedRemoteDesc x) (p_candidateCaches x)
    (p_isReady x) (p_shouldNotify x) (p_videoCodec x) (p_audioCodec x) (p_audiossrc x)
    (p_videossrc x) (p_appssrc x) (p_remoteSdpReceived x) (p_exitCh_closed x) (p_readers
    x) (p_podid x).
Definition set_p_videoTrack (g : bool → bool) (x : peer) : peer :=
  MkPeer (p_userid x) (p_remoteuserid x) (p_peerid x) (p_role x) (p_isFake x)
    (p_peerConnection x) (g (p_videoTrack x)) (p_videoSender x) (p_audioTrack x)
    (p_audioSender x) (p_dataChannel x) (p_filter x) (p_onSendMessageHandler x)
    (p_publishersdp x) (p_parent x) (p_setedRemoteDesc x) (p_candidateCaches x)
    (p_isReady x) (p_shouldNotify x) (p_videoCodec x) (p_audioCodec x) (p_audiossrc x)
    (p_videossrc x) (p_appssrc x) (p_remoteSdpReceived x) (p_exitCh_closed x) (p_readers
    x) (p_podid x).
Definition set_p_videoSender (g : bool → bool) (x : peer) : peer :=
  MkPeer (p_userid x) (p_remoteuserid x) (p_peerid x) (p_role x) (p_isFake x)
    (p_peerConnection x) (p_videoTrack x) (g (p_videoSender x)) (p_audioTrack x)
    (p_audioSender x) (p_dataChannel x) (p_filter x) (p_onSendMessageHandler x)
    (p_publishersdp x) (p_parent x) (p_setedRemoteDesc x) (p_candidateCaches x)
    (p_isReady x) (p_shouldNotify x) (p_videoCodec x) (p_audioCodec x) (p_audiossrc x)
    (p_videossrc x) (p_appssrc x) (p_remoteSdpReceived x) (p_exitCh_closed x) (p_readers
    x) (p_podid x).
Definition set_p_audioTrack (g : bool → bool) (x : peer) : peer :=
  MkPeer (p_userid x) (p_remoteuserid x) (p_peerid x) (p_role x) (p_isFake x)
    (p_peerConnection x) (p_videoTrack x) (p_videoSender x) (g (p_audioTrack x))
    (p_audioSender x) (p_dataChannel x) (p_filter x) (p_onSendMessageHandler x)
    (p_publishersdp x) (p_parent x) (p_setedRemoteDesc x) (p_candidateCaches x)
    (p_isReady x) (p_shouldNotify x) (p_videoCodec x) (p_audioCodec x) (p_audiossrc x)
    (p_videossrc x) (p_appssrc x) (p_remoteSdpReceived x) (p_exitCh_closed x) (p_readers
    x) (p_podid x).
Definition set_p_audioSender (g : bool → bool) (x : peer) : peer :=
  MkPeer (p_userid x) (p_remoteuserid x) (p_peerid x) (p_role x) (p_isFake x)
    (p_peerConnection x) (p_videoTrack x) (p_videoSender x) (p_audioTrack x) (g
    (p_audioSender x)) (p_dataChannel x) (p_filter x) (p_onSendMessageHandler x)
    (p_publishersdp x) (p_parent x) (p_setedRemoteDesc x) (p_candidateCaches x)
    (p_isReady x) (p_shouldNotify x) (p_videoCodec x) (p_audioCodec x) (p_audiossrc x)
    (p_videossrc x) (p_appssrc x) (p_remoteSdpReceived x) (p_exitCh_closed x) (p_readers
    x) (p_podid x).
Definition set_p_dataChannel (g : bool → bool) (x : peer) : peer :=
  MkPeer (p_userid x) (p_remoteuserid x) (p_peerid x) (p_role x) (p_isFake x)
    (p_peerConnection x) (p_videoTrack x) (p_videoSender x) (p_audioTrack x)
    (p_audioSender x) (g (p_dataChannel x)) (p_filter x) (p_onSendMessageHandler x)
    (p_publishersdp x) (p_parent x) (p_setedRemoteDesc x) (p_candidateCaches x)
    (p_isReady x) (p_shouldNotify x) (p_videoCodec x) (p_audioCodec x) (p_audiossrc x)
    (p_videossrc x) (p_appssrc x) (p_remoteSdpReceived x) (p_exitCh_closed x) (p_readers
    x) (p_podid x).
Definition set_p_filter (g : option KeyframeFilter → option KeyframeFilter) (x : peer) : peer :=
  MkPeer (p_userid x) (p_remoteuserid x) (p_peerid x) (p_role x) (p_isFake x)
    (p_peerConnection x) (p_videoTrack x) (p_videoSender x) (p_audioTrack x)
    (p_audioSender x) (p_dataChannel x) (g (p_filter x)) (p_onSendMessageHandler x)
    (p_publishersdp x) (p_parent x) (p_setedRemoteDesc x) (p_candidateCaches x)
    (p_isReady x) (p_shouldNotify x) (p_videoCodec x) (p_audioCodec x) (p_audiossrc x)
    (p_videossrc x) (p_appssrc x) (p_remoteSdpReceived x) (p_exitCh_closed x) (p_readers
    x) (p_podid x).
Definition set_p_onSendMessageHandler (g : bool → bool) (x : peer) : peer :=
  MkPeer (p_userid x) (p_remoteuserid x) (p_peerid x) (p_role x) (p_isFake x)
    (p_peerConnection x) (p_videoTrack x) (p_videoSender x) (p_audioTrack x)
    (p_audioSender x) (p_dataChannel x) (p_filter x) (g (p_onSendMessageHandler x))
    (p_publishersdp x) (p_parent x) (p_setedRemoteDesc x) (p_candidateCaches x)
    (p_isReady x) (p_shouldNotify x) (p_videoCodec x) (p_audioCodec x) (p_audiossrc x)
    (p_videossrc x) (p_appssrc x) (p_remoteSdpReceived x) (p_exitCh_closed x) (p_readers
    x) (p_podid x).
Definition set_p_setedRemoteDesc (g : bool → bool) (x : peer) : peer :=
  MkPeer (p_userid x) (p_remoteuserid x) (p_peerid x) (p_role x) (p_isFake x)
    (p_peerConnection x) (p_videoTrack x) (p_videoSender x) (p_audioTrack x)
    (p_audioSender x) (p_dataChannel x) (p_filter x) (p_onSendMessageHandler x)
    (p_publishersdp x) (p_parent x) (g (p_setedRemoteDesc x)) (p_candidateCaches x)
    (p_isReady x) (p_shouldNotify x) (p_videoCodec x) (p_audioCodec x) (p_audiossrc x)
    (p_videossrc x) (p_appssrc x) (p_remoteSdpReceived x) (p_exitCh_closed x) (p_readers
    x) (p_podid x).
Definition set_p_candidateCaches (g : list string → list string) (x : peer) : peer :=
  MkPeer (p_userid x) (p_remoteuserid x) (p_peerid x) (p_role x) (p_isFake x)
    (p_peerConnection x) (p_videoTrack x) (p_videoSender x) (p_audioTrack x)
    (p_audioSender x) (p_dataChannel x) (p_filter x) (p_onSendMessageHandler x)
    (p_publishersdp x) (p_parent x) (p_setedRemoteDesc x) (g (p_candidateCaches x))
    (p_isReady x) (p_shouldNotify x) (p_videoCodec x) (p_audioCodec x) (p_audiossrc x)
    (p_videossrc x) (p_appssrc x) (p_remoteSdpReceived x) (p_exitCh_closed x) (p_readers
    x) (p_podid x).
Definition set_p_isReady (g : bool → bool) (x : peer) : peer :=
  MkPeer (p_userid x) (p_remoteuserid x) (p_peerid x) (p_role x) (p_isFake x)
    (p_peerConnection x) (p_videoTrack x) (p_videoSender x) (p_audioTrack x)
    (p_audioSender x) (p_dataChannel x) (p_filter x) (p_onSendMessageHandler x)
    (p_publishersdp x) (p_parent x) (p_setedRemoteDesc x) (p_candidateCaches x) (g
    (p_isReady x)) (p_shouldNotify x) (p_videoCodec x) (p_audioCodec x) (p_audiossrc x)
    (p_videossrc x) (p_appssrc x) (p_remoteSdpReceived x) (p_exitCh_closed x) (p_readers
    x) (p_podid x).
Definition set_p_shouldNotify (g : bool → bool) (x : peer) : peer :=
  MkPeer (p_userid x) (p_remoteuserid x) (p_peerid x) (p_role x) (p_isFake x)
    (p_peerConnection x) (p_videoTrack x) (p_videoSender x) (p_audioTrack x)
    (p_audioSender x) (p_dataChannel x) (p_filter x) (p_onSendMessageHandler x)
    (p_publishersdp x) (p_parent x) (p_setedRemoteDesc x) (p_candidateCaches x)
    (p_isReady x) (g (p_shouldNotify x)) (p_videoCodec x) (p_audioCodec x) (p_audiossrc
    x) (p_videossrc x) (p_appssrc x) (p_remoteSdpReceived x) (p_exitCh_closed x)
    (p_readers x) (p_podid x).
Definition set_p_videoCodec (g : RTPCodecParameters → RTPCodecParameters) (x : peer) : peer :=
  MkPeer (p_userid x) (p_remoteuserid x) (p_peerid x) (p_role x) (p_isFake x)
    (p_peerConnection x) (p_videoTrack x) (p_videoSender x) (p_audioTrack x)
    (p_audioSender x) (p_dataChannel x) (p_filter x) (p_onSendMessageHandler x)
    (p_publishersdp x) (p_parent x) (p_setedRemoteDesc x) (p_candidateCaches x)
    (p_isReady x) (p_shouldNotify x) (g (p_videoCodec x)) (p_audioCodec x) (p_audiossrc
    x) (p_videossrc x) (p_appssrc x) (p_remoteSdpReceived x) (p_exitCh_closed x)
    (p_readers x) (p_podid x).
Definition set_p_audioCodec (g : RTPCodecParameters → RTPCodecParameters) (x : peer) : peer :=
  MkPeer (p_userid x) (p_remoteuserid x) (p_peerid x) (p_role x) (p_isFake x)
    (p_peerConnection x) (p_videoTrack x) (p_videoSender x) (p_audioTrack x)
    (p_audioSender x) (p_dataChannel x) (p_filter x) (p_onSendMessageHandler x)
    (p_publishersdp x) (p_parent x) (p_setedRemoteDesc x) (p_candidateCaches x)
    (p_isReady x) (p_shouldNotify x) (p_videoCodec x) (g (p_audioCodec x)) (p_audiossrc
    x) (p_videossrc x) (p_appssrc x) (p_remoteSdpReceived x) (p_exitCh_closed x)
    (p_readers x) (p_podid x).
Definition set_p_audiossrc (g : option (list Z) → option (list Z)) (x : peer) : peer :=
  MkPeer (p_userid x) (p_remoteuserid x) (p_peerid x) (p_role x) (p_isFake x)
    (p_peerConnection x) (p_videoTrack x) (p_videoSender x) (p_audioTrack x)
    (p_audioSender x) (p_dataChannel x) (p_filter x) (p_onSendMessageHandler x)
    (p_publishersdp x) (p_parent x) (p_setedRemoteDesc x) (p_candidateCaches x)
    (p_isReady x) (p_shouldNotify x) (p_videoCodec x) (p_audioCodec x) (g (p_audiossrc
    x)) (p_videossrc x) (p_appssrc x) (p_remoteSdpReceived x) (p_exitCh_closed x)
    (p_readers x) (p_podid x).
Definition set_p_videossrc (g : option (list Z) → option (list Z)) (x : peer) : peer :=
  MkPeer (p_userid x) (p_remoteuserid x) (p_peerid x) (p_role x) (p_isFake x)
    (p_peerConnection x) (p_videoTrack x) (p_videoSender x) (p_audioTrack x)
    (p_audioSender x) (p_dataChannel x) (p_filter x) (p_onSendMessageHandler x)
    (p_publishersdp x) (p_parent x) (p_setedRemoteDesc x) (p_candidateCaches x)
    (p_isReady x) (p_shouldNotify x) (p_videoCodec x) (p_audioCodec x) (p_audiossrc x)
    (g (p_videossrc x)) (p_appssrc x) (p_remoteSdpReceived x) (p_exitCh_closed x)
    (p_readers x) (p_podid x).
Definition set_p_appssrc (g : option (list Z) → option (list Z)) (x : peer) : peer :=
  MkPeer (p_userid x) (p_remoteuserid x) (p_peerid x) (p_role x) (p_isFake x)
    (p_peerConnection x) (p_videoTrack x) (p_videoSender x) (p_audioTrack x)
    (p_audioSender x) (p_dataChannel x) (p_filter x) (p_onSendMessageHandler x)
    (p_publishersdp x) (p_parent x) (p_setedRemoteDesc x) (p_candidateCaches x)
    (p_isReady x) (p_shouldNotify x) (p_videoCodec x) (p_audioCodec x) (p_audiossrc x)
    (p_videossrc x) (g (p_appssrc x)) (p_remoteSdpReceived x) (p_exitCh_closed x)
    (p_readers x) (p_podid x).
Definition set_p_remoteSdpReceived (g : nat → nat) (x : peer) : peer :=
  MkPeer (p_userid x) (p_remoteuserid x) (p_peerid x) (p_role x) (p_isFake x)
    (p_peerConnection x) (p_videoTrack x) (p_videoSender x) (p_audioTrack x)
    (p_audioSender x) (p_dataChannel x) (p_filter x) (p_onSendMessageHandler x)
    (p_publishersdp x) (p_parent x) (p_setedRemoteDesc x) (p_candidateCaches x)
    (p_isReady x) (p_shouldNotify x) (p_videoCodec x) (p_audioCodec x) (p_audiossrc x)
    (p_videossrc x) (p_appssrc x) (g (p_remoteSdpReceived x)) (p_exitCh_closed x)
    (p_readers x) (p_podid x).
Definition set_p_exitCh_closed (g : bool → bool) (x : peer) : peer :=
  MkPeer (p_userid x) (p_remoteuserid x) (p_peerid x) (p_role x) (p_isFake x)
    (p_peerConnection x) (p_videoTrack x) (p_videoSender x) (p_audioTrack x)
    (p_audioSender x) (p_dataChannel x) (p_filter x) (p_onSendMessageHandler x)
    (p_publishersdp x) (p_parent x) (p_setedRemoteDesc x) (p_candidateCaches x)
    (p_isReady x) (p_shouldNotify x) (p_videoCodec x) (p_audioCodec x) (p_audiossrc x)
    (p_videossrc x) (p_appssrc x) (p_remoteSdpReceived x) (g (p_exitCh_closed x))
    (p_readers x) (p_podid x).
Definition set_p_readers (g : nat → nat) (x : peer) : peer :=
  MkPeer (p_userid x) (p_remoteuserid x) (p_peerid x) (p_role x) (p_isFake x)
    (p_peerConnection x) (p_videoTrack x) (p_videoSender x) (p_audioTrack x)
    (p_audioSender x) (p_dataChannel x) (p_filter x) (p_onSendMessageHandler x)
    (p_publishersdp x) (p_parent x) (p_setedRemoteDesc x) (p_candidateCaches x)
    (p_isReady x) (p_shouldNotify x) (p_videoCodec x) (p_audioCodec x) (p_audiossrc x)
    (p_videossrc x) (p_appssrc x) (p_remoteSdpReceived x) (p_exitCh_closed x) (g
    (p_readers x)) (p_podid x).

(** ** session (session.go)

    [watchers] are the goroutines FakeSubscribe starts, which are the ones
    waitGroup counts; [exitSenders] the goroutines blocked on exitChan <- 0. *)
Record watcher := MkWatcher {
  wt_sid : string;
  wt_pid : string;
  wt_curtime : Z;                   (* uint32 *)
  wt_timer : timer;
}.

Record session := MkSession {
  s_userid : string;
  s_username : string;
  s_clusterid : string;
  s_podid : string;
  s_origin : bool;
  s_publishers : gmap string nat;
  s_subscribers : gmap string nat;
  s_onSendMessageHandler : bool;
  s_exitSenders : nat;
  s_watchers : list watcher;
  s_parent : nat;
  s_alivetime : Z;  (* seconds *)
}.

Definition set_s_clusterid (g : string → string) (x : session) : session :=
  MkSession (s_userid x) (s_username x) (g (s_clusterid x)) (s_podid x) (s_origin x)
    (s_publishers x) (s_subscribers x) (s_onSendMessageHandler x) (s_exitSenders x)
    (s_watchers x) (s_parent x) (s_alivetime x).
Definition set_s_podid (g : string → string) (x : session) : session :=
  MkSession (s_userid x) (s_username x) (s_clusterid x) (g (s_podid x)) (s_origin x)
    (s_publishers x) (s_subscribers x) (s_onSendMessageHandler x) (s_exitSenders x)
    (s_watchers x) (s_parent x) (s_alivetime x).
Definition set_s_origin (g : bool → bool) (x : session) : session :=
  MkSession (s_userid x) (s_username x) (s_clusterid x) (s_podid x) (g (s_origin x))
    (s_publishers x) (s_subscribers x) (s_onSendMessageHandler x) (s_exitSenders x)
    (s_watchers x) (s_parent x) (s_alivetime x).
Definition set_s_publishers (g : gmap string nat → gmap string nat) (x : session) : session :=
  MkSession (s_userid x) (s_username x) (s_clusterid x) (s_podid x) (s_origin x) (g
    (s_publishers x)) (s_subscribers x) (s_onSendMessageHandler x) (s_exitSenders x)
    (s_watchers x) (s_parent x) (s_alivetime x).
Definition set_s_subscribers (g : gmap string nat → gmap string nat) (x : session) : session :=
  MkSession (s_userid x) (s_username x) (s_clusterid x) (s_podid x) (s_origin x) (s_publishers
    x) (g (s_subscribers x)) (s_onSendMessageHandler x) (s_exitSenders x) (s_watchers x)
    (s_parent x) (s_alivetime x).
Definition set_s_exitSenders (g : nat → nat) (x : session) : session :=
  MkSession (s_userid x) (s_username x) (s_clusterid x) (s_podid x) (s_origin x) (s_publishers
    x) (s_subscribers x) (s_onSendMessageHandler x) (g (s_exitSenders x)) (s_watchers x)
    (s_parent x) (s_alivetime x).
Definition set_s_watchers (g : list watcher → list watcher) (x : session) : session :=
  MkSession (s_userid x) (s_username x) (s_clusterid x) (s_podid x) (s_origin x) (s_publishers
    x) (s_subscribers x) (s_onSendMessageHandler x) (s_exitSenders x) (g (s_watchers x))
    (s_parent x) (s_alivetime x).
Definition set_s_alivetime (g : Z → Z) (x : session) : session :=
  MkSession (s_userid x) (s_username x) (s_clusterid x) (s_podid x) (s_origin x) (s_publishers
    x) (s_subscribers x) (s_onSendMessageHandler x) (s_exitSenders x) (s_watchers x)
    (s_parent x) (g (s_alivetime x)).

(** ** room and roommgr (room.go, roommgr.go)

    [registrars] counts the goroutines running StartRegistToLB. *)

Record room := MkRoom {
  r_roomid : string;
  r_sessions : gmap string nat;
  r_onSendMessageHandler : bool;
}.

Definition set_r_sessions (g : gmap string nat → gmap string nat) (x : room) : room :=
  MkRoom (r_roomid x) (g (r_sessions x)) (r_onSendMessageHandler x).
Definition set_r_onSendMessageHandler (g : bool → bool) (x : room) : room :=
  MkRoom (r_roomid x) (r_sessions x) (g (r_onSendMessageHandler x)).

Record roommgr := MkRoomMgr {
  m_rooms : gmap string nat;
  m_regist : bool;
  m_registrars : nat;
  m_onSendMessageHandler : bool;
}.

Definition set_m_rooms (g : gmap string nat → gmap string nat) (x : roommgr) : roommgr :=
  MkRoomMgr (g (m_rooms x)) (m_regist x) (m_registrars x) (m_onSendMessageHandler x).
Definition set_m_regist (g : bool → bool) (x : roommgr) : roommgr :=
  MkRoomMgr (m_rooms x) (g (m_regist x)) (m_registrars x) (m_onSendMessageHandler x).
Definition set_m_registrars (g : nat → nat) (x : roommgr) : roommgr :=
  MkRoomMgr (m_rooms x) (m_regist x) (g (m_registrars x)) (m_onSendMessageHandler x).
Definition set_m_onSendMessageHandler (g : bool → bool) (x : roommgr) : roommgr :=
  MkRoomMgr (m_rooms x) (m_regist x) (m_registrars x) (g (m_onSendMessageHandler x)).

(** ** RabbitMQ and QueueExchange (rmq.go)

    An amqp connection or channel is known by a number.  [x_producer] and
    [x_receiver] say whether the goroutine of addProducer or addReceiver is
    alive; [q_timers] counts the goroutines of the retry timers. *)
Record PublishMsg := MkPublishMsg { excname : string; key : string; msg : string }.

Record QueueExchange := MkExchange {
  x_parent : option nat;
  x_conn : option nat;
  x_channel : option nat;
  x_queueName : string;
  x_routingKey : string;
  x_exchangeName : string;
  x_exchangeType : string;
  x_feature : string;
  x_msgChan : bool;  (* nil: false *)
  x_producer : bool;
  x_receiver : bool;
}.

Definition set_x_parent (g : option nat → option nat) (x : QueueExchange) : QueueExchange :=
  MkExchange (g (x_parent x)) (x_conn x) (x_channel x) (x_queueName x) (x_routingKey x)
    (x_exchangeName x) (x_exchangeType x) (x_feature x) (x_msgChan x) (x_producer x)
    (x_receiver x).
Definition set_x_channel (g : option nat → option nat) (x : QueueExchange) : QueueExchange :=
  MkExchange (x_parent x) (x_conn x) (g (x_channel x)) (x_queueName x) (x_routingKey x)
    (x_exchangeName x) (x_exchangeType x) (x_feature x) (x_msgChan x) (x_producer x)
    (x_receiver x).
Definition set_x_msgChan (g : bool → bool) (x : QueueExchange) : QueueExchange :=
  MkExchange (x_parent x) (x_conn x) (x_channel x) (x_queueName x) (x_routingKey x)
    (x_exchangeName x) (x_exchangeType x) (x_feature x) (g (x_msgChan x)) (x_producer x)
    (x_receiver x).
Definition set_x_producer (g : bool → bool) (x : QueueExchange) : QueueExchange :=
  MkExchange (x_parent x) (x_conn x) (x_channel x) (x_queueName x) (x_routingKey x)
    (x_exchangeName x) (x_exchangeType x) (x_feature x) (x_msgChan x) (g (x_producer x))
    (x_receiver x).
Definition set_x_receiver (g : bool → bool) (x : QueueExchange) : QueueExchange :=
  MkExchange (x_parent x) (x_conn x) (x_channel x) (x_queueName x) (x_routingKey x)
    (x_exchangeName x) (x_exchangeType x) (x_feature x) (x_msgChan x) (x_producer x) (g
    (x_receiver x)).

Record RabbitMQ := MkRabbitMQ {
  q_conn : option nat;
  q_url : string;
  q_exs : list nat;
  q_onReceivedMessageHandler : bool;
  q_timers : list timer;
  q_exitSenders : nat;
}.

Definition set_q_conn (g : option nat → option nat) (x : RabbitMQ) : RabbitMQ :=
  MkRabbitMQ (g (q_conn x)) (q_url x) (q_exs x) (q_onReceivedMessageHandler x) (q_timers x)
    (q_exitSenders x).
Definition set_q_exs (g : list nat → list nat) (x : RabbitMQ) : RabbitMQ :=
  MkRabbitMQ (q_conn x) (q_url x) (g (q_exs x)) (q_onReceivedMessageHandler x) (q_timers x)
    (q_exitSenders x).
Definition set_q_onReceivedMessageHandler (g : bool → bool) (x : RabbitMQ) : RabbitMQ :=
  MkRabbitMQ (q_conn x) (q_url x) (q_exs x) (g (q_onReceivedMessageHandler x)) (q_timers x)
    (q_exitSenders x).
Definition set_q_timers (g : list timer → list timer) (x : RabbitMQ) : RabbitMQ :=
  MkRabbitMQ (q_conn x) (q_url x) (q_exs x) (q_onReceivedMessageHandler x) (g (q_timers x))
    (q_exitSenders x).
Definition set_q_exitSenders (g : nat → nat) (x : RabbitMQ) : RabbitMQ :=
  MkRabbitMQ (q_conn x) (q_url x) (q_exs x) (q_onReceivedMessageHandler x) (q_timers x) (g
    (q_exitSenders x)).

(** The package variables of rmq.go, and the objects they point to. *)

Record rmqstate := MkRmq {
  exc_pub_dr : option nat;
  exc_proxy_bc : option nat;
  exc_cluster_bc : option nat;
  exc_cross_cluster_dr : option nat;
  exc_cross_cluster_bc : option nat;
  connected : bool;
  center_connected : bool;
  mq_exchanges : gmap nat QueueExchange;
  mq_objs : gmap nat RabbitMQ;
}.

Definition set_exc_pub_dr (g : option nat → option nat) (x : rmqstate) : rmqstate :=
  MkRmq (g (exc_pub_dr x)) (exc_proxy_bc x) (exc_cluster_bc x) (exc_cross_cluster_dr x)
    (exc_cross_cluster_bc x) (connected x) (center_connected x) (mq_exchanges x)
    (mq_objs x).
Definition set_exc_proxy_bc (g : option nat → option nat) (x : rmqstate) : rmqstate :=
  MkRmq (exc_pub_dr x) (g (exc_proxy_bc x)) (exc_cluster_bc x) (exc_cross_cluster_dr x)
    (exc_cross_cluster_bc x) (connected x) (center_connected x) (mq_exchanges x)
    (mq_objs x).
Definition set_exc_cluster_bc (g : option nat → option nat) (x : rmqstate) : rmqstate :=
  MkRmq (exc_pub_dr x) (exc_proxy_bc x) (g (exc_cluster_bc x)) (exc_cross_cluster_dr x)
    (exc_cross_cluster_bc x) (connected x) (center_connected x) (mq_exchanges x)
    (mq_objs x).
Definition set_exc_cross_cluster_dr (g : option nat → option nat) (x : rmqstate) : rmqstate :=
  MkRmq (exc_pub_dr x) (exc_proxy_bc x) (exc_cluster_bc x) (g (exc_cross_cluster_dr x))
    (exc_cross_cluster_bc x) (connected x) (center_connected x) (mq_exchanges x)
    (mq_objs x).
Definition set_exc_cross_cluster_bc (g : option nat → option nat) (x : rmqstate) : rmqstate :=
  MkRmq (exc_pub_dr x) (exc_proxy_bc x) (exc_cluster_bc x) (exc_cross_cluster_dr x) (g
    (exc_cross_cluster_bc x)) (connected x) (center_connected x) (mq_exchanges x)
    (mq_objs x).
Definition set_connected (g : bool → bool) (x : rmqstate) : rmqstate :=
  MkRmq (exc_pub_dr x) (exc_proxy_bc x) (exc_cluster_bc x) (exc_cross_cluster_dr x)
    (exc_cross_cluster_bc x) (g (connected x)) (center_connected x) (mq_exchanges x)
    (mq_objs x).
Definition set_center_connected (g : bool → bool) (x : rmqstate) : rmqstate :=
  MkRmq (exc_pub_dr x) (exc_proxy_bc x) (exc_cluster_bc x) (exc_cross_cluster_dr x)
    (exc_cross_cluster_bc x) (connected x) (g (center_connected x)) (mq_exchanges x)
    (mq_objs x).
Definition set_mq_exchanges (g : gmap nat QueueExchange → gmap nat QueueExchange) (x : rmqstate) : rmqstate :=
  MkRmq (exc_pub_dr x) (exc_proxy_bc x) (exc_cluster_bc x) (exc_cross_cluster_dr x)
    (exc_cross_cluster_bc x) (connected x) (center_connected x) (g (mq_exchanges x))
    (mq_objs x).
Definition set_mq_objs (g : gmap nat RabbitMQ → gmap nat RabbitMQ) (x : rmqstate) : rmqstate :=
  MkRmq (exc_pub_dr x) (exc_proxy_bc x) (exc_cluster_bc x) (exc_cross_cluster_dr x)
    (exc_cross_cluster_bc x) (connected x) (center_connected x) (mq_exchanges x) (g
    (mq_objs x)).

(** ** Goroutines and outputs *)

(** The function calls the program starts with [go]. *)
Inductive task :=
  | TReleaseRoom (rid : string)
  | TOnPublisherReady (r : nat) (sid name pid : string)
  | TOnPublisherPeerFailed (r : nat) (sid pid : string)
  | TOnPublisherPeerClosed (r : nat) (sid pid : string)
  | TOnSubscriberPeerDisconnected (r : nat) (sid ssid pid : string)
  | TOnSubscriberPeerFailed (r : nat) (sid ssid pid : string)
  | TOnSubscriberPeerClosed (r : nat) (sid ssid pid : string)
  | TReleaseSubscriberPeer (s : nat) (sid ssid pid : string)
  | THandleSubscriberLeaved (s : nat) (sid : string)
  | TCheckKeepAlive (s : nat)
  | TKickoutFromRoom (r : nat) (sid : string)
  | TRequestKeyframe (p : nat)
  | TRequestKeyframeNow (p : nat)
  | TFakePublisherReConnect (s : nat) (sid pid : string) (curtime : Z)
  | TCheckIceInfo (p : nat) (typ ip : string) (port : Z)
  | TMqConnect (q : nat)
  | TCenterRMQConnect (q : nat).

(** What leaves the process: a message to the MQTT broker or to an AMQP
    exchange, the declarations made there, a PLI, media written to a local track, text on a data channel,
    the end of a connection. *)
Inductive event :=
  | EvMqtt (topic msg : string)
  | EvAmqp (excname key msg : string)
  | EvExchangeDeclare (name kind : string) (durable autoDelete : bool)
  | EvQueueDeclare (name : string)
  | EvQueueBind (queue key exchange : string)
  | EvConsume (queue : string)
  | EvPli (p : nat) (ssrc : Z)
  | EvTrackWrite (p : nat) (video : bool) (data : string)
  | EvDataSend (p : nat) (data : string)
  | EvPcClose (pc : nat).

Inductive lockstate := LRead (n : nat) | LWrite.   (* a free mutex has no entry *)

(** Lock identifiers as keys of a map. *)
Definition lockid_code (l : lockid) : nat * nat :=
  match l with
  | LRooms => (0, 0)
  | LSessions r => (1, r)
  | LPubs s => (2, s)
  | LSubs s => (3, s)
  | LMq q => (4, q)
  end%nat.
Definition lockid_decode (c : nat * nat) : option lockid :=
  match c with
  | (0, _) => Some LRooms
  | (1, r) => Some (LSessions r)
  | (2, s) => Some (LPubs s)
  | (3, s) => Some (LSubs s)
  | (4, q) => Some (LMq q)
  | _ => None
  end%nat.
#[export] Program Instance lockid_countable : Countable lockid :=
  inj_countable lockid_code lockid_decode _.
Next Obligation. by intros []. Qed.

Record world := MkWorld {
  w_conf : Config;
  w_now : Z;  (* nanoseconds *)
  w_choice : nat;
  w_out : list event;
  w_tasks : list task;
  w_locks : gmap lockid lockstate;
  w_next : nat;
  w_mgr : roommgr;
  w_rooms : gmap nat room;
  w_sess : gmap nat session;
  w_peers : gmap nat peer;
  w_rmq : rmqstate;
}.

Definition set_w_conf (g : Config → Config) (x : world) : world :=
  MkWorld (g (w_conf x)) (w_now x) (w_choice x) (w_out x) (w_tasks x) (w_locks x) (w_next x)
    (w_mgr x) (w_rooms x) (w_sess x) (w_peers x) (w_rmq x).
Definition set_w_now (g : Z → Z) (x : world) : world :=
  MkWorld (w_conf x) (g (w_now x)) (w_choice x) (w_out x) (w_tasks x) (w_locks x) (w_next x)
    (w_mgr x) (w_rooms x) (w_sess x) (w_peers x) (w_rmq x).
Definition set_w_choice (g : nat → nat) (x : world) : world :=
  MkWorld (w_conf x) (w_now x) (g (w_choice x)) (w_out x) (w_tasks x) (w_locks x) (w_next x)
    (w_mgr x) (w_rooms x) (w_sess x) (w_peers x) (w_rmq x).
Definition set_w_out (g : list event → list event) (x : world) : world :=
  MkWorld (w_conf x) (w_now x) (w_choice x) (g (w_out x)) (w_tasks x) (w_locks x) (w_next x)
    (w_mgr x) (w_rooms x) (w_sess x) (w_peers x) (w_rmq x).
Definition set_w_tasks (g : list task → list task) (x : world) : world :=
  MkWorld (w_conf x) (w_now x) (w_choice x) (w_out x) (g (w_tasks x)) (w_locks x) (w_next x)
    (w_mgr x) (w_rooms x) (w_sess x) (w_peers x) (w_rmq x).
Definition set_w_locks (g : gmap lockid lockstate → gmap lockid lockstate) (x : world) : world :=
  MkWorld (w_conf x) (w_now x) (w_choice x) (w_out x) (w_tasks x) (g (w_locks x)) (w_next x)
    (w_mgr x) (w_rooms x) (w_sess x) (w_peers x) (w_rmq x).
Definition set_w_next (g : nat → nat) (x : world) : world :=
  MkWorld (w_conf x) (w_now x) (w_choice x) (w_out x) (w_tasks x) (w_locks x) (g (w_next x))
    (w_mgr x) (w_rooms x) (w_sess x) (w_peers x) (w_rmq x).
Definition set_w_mgr (g : roommgr → roommgr) (x : world) : world :=
  MkWorld (w_conf x) (w_now x) (w_choice x) (w_out x) (w_tasks x) (w_locks x) (w_next x) (g
    (w_mgr x)) (w_rooms x) (w_sess x) (w_peers x) (w_rmq x).
Definition set_w_rooms (g : gmap nat room → gmap nat room) (x : world) : world :=
  MkWorld (w_conf x) (w_now x) (w_choice x) (w_out x) (w_tasks x) (w_locks x) (w_next x)
    (w_mgr x) (g (w_rooms x)) (w_sess x) (w_peers x) (w_rmq x).
Definition set_w_sess (g : gmap nat session → gmap nat session) (x : world) : world :=
  MkWorld (w_conf x) (w_now x) (w_choice x) (w_out x) (w_tasks x) (w_locks x) (w_next x)
    (w_mgr x) (w_rooms x) (g (w_sess x)) (w_peers x) (w_rmq x).
Definition set_w_peers (g : gmap nat peer → gmap nat peer) (x : world) : world :=
  MkWorld (w_conf x) (w_now x) (w_choice x) (w_out x) (w_tasks x) (w_locks x) (w_next x)
    (w_mgr x) (w_rooms x) (w_sess x) (g (w_peers x)) (w_rmq x).
Definition set_w_rmq (g : rmqstate → rmqstate) (x : world) : world :=
  MkWorld (w_conf x) (w_now x) (w_choice x) (w_out x) (w_tasks x) (w_locks x) (w_next x)
    (w_mgr x) (w_rooms x) (w_sess x) (w_peers x) (g (w_rmq x)).

(** ** Operations every component uses *)

Definition MW : Type → Type := M world.

(** time.Now() *)
(** func (sd *SessionDescription) Unmarshal() of pion/webrtc: [None] is an error.
    The parser panics on some texts; it does not loop. *)
Definition media_section (m : MediaDescription) : media :=
  MkMedia (mn_Media (md_MediaName m)) (map (λ a, (Key a, Value a)) (md_Attributes m)).

Definition desc_Unmarshal `{WebRTC} (sdp : string) : MW (option (list media)) :=
  match SessionDescription_Unmarshal session_zero sdp with
  | Ok d => mret (Some (map media_section (MediaDescriptions d)))
  | Err _ => mret None
  | Panic | Diverge => halt PIndex
  end.

Definition now_nano : MW Z := gets w_now.
Definition now_unix : MW Z := gets (λ w, w_now w / second).

(** A choice left to the runtime or to a library: a number not used before. *)
Definition choose : MW nat :=
  n ← gets w_choice;
  _ ← modify (set_w_choice S);
  mret n.

Definition emit (e : event) : MW unit := modify (set_w_out (λ l, l ++ [e])).

(** go f() *)
Definition spawn (t : task) : MW unit := modify (set_w_tasks (λ l, l ++ [t])).

(** sync.RWMutex.  RUnlock of a mutex that is not read-locked, and Unlock of
    one that is not locked, are fatal errors of the runtime. *)
Definition Lock (l : lockid) : MW unit :=
  L ← gets w_locks;
  match L !! l with
  | None => modify (set_w_locks <[l := LWrite]>)
  | Some _ => halt (HLock l)
  end.

Definition Unlock (l : lockid) : MW unit :=
  L ← gets w_locks;
  match L !! l with
  | Some LWrite => modify (set_w_locks (delete l))
  | _ => halt (PMutex l)
  end.

Definition RLock (l : lockid) : MW unit :=
  L ← gets w_locks;
  match L !! l with
  | None => modify (set_w_locks <[l := LRead 0]>)
  | Some (LRead n) => modify (set_w_locks <[l := LRead (S n)]>)
  | Some LWrite => halt (HLock l)
  end.

Definition RUnlock (l : lockid) : MW unit :=
  L ← gets w_locks;
  match L !! l with
  | Some (LRead O) => modify (set_w_locks (delete l))
  | Some (LRead (S n)) => modify (set_w_locks <[l := LRead n]>)
  | _ => halt (PMutex l)
  end.

(** Reading and writing objects through their pointers. *)
Definition get_peer (p : nat) : MW peer := o ← gets (λ w, w_peers w !! p); from_some PDangling o.
Definition get_sess (s : nat) : MW session := o ← gets (λ w, w_sess w !! s); from_some PDangling o.
Definition get_room (r : nat) : MW room := o ← gets (λ w, w_rooms w !! r); from_some PDangling o.

Definition upd_peer (p : nat) (g : peer → peer) : MW unit := modify (set_w_peers (alter g p)).
Definition upd_sess (s : nat) (g : session → session) : MW unit := modify (set_w_sess (alter g s)).
Definition upd_room (r : nat) (g : room → room) : MW unit := modify (set_w_rooms (alter g r)).
Definition upd_mgr (g : roommgr → roommgr) : MW unit := modify (set_w_mgr g).

Definition alloc_peer (x : peer) : MW nat :=
  n ← gets w_next;
  _ ← modify (set_w_next S);
  _ ← modify (set_w_peers <[n := x]>);
  mret n.
Definition alloc_sess (x : session) : MW nat :=
  n ← gets w_next;
  _ ← modify (set_w_next S);
  _ ← modify (set_w_sess <[n := x]>);
  mret n.
Definition alloc_room (x : room) : MW nat :=
  n ← gets w_next;
  _ ← modify (set_w_next S);
  _ ← modify (set_w_rooms <[n := x]>);
  mret n.

Section range.
Context `{GoRuntime}.

(** for k, v := range m { body }: the keys in an order of the runtime's
    choosing; a key removed before it is reached is not visited, and the
    value is the one present when it is. *)
Definition range_map {A} (m : MW (gmap string A)) (body : string → A → MW unit) : MW unit :=
  n ← choose;
  m0 ← m;
  for_each (range_order n (elements (dom m0))) (λ k,
    m1 ← m;
    match m1 !! k with
    | Some v => body k v
    | None => skip
    end).

(** A range loop that returns from the function at the first key whose body
    answers [Some]. *)
Fixpoint find_first {A B} (m : MW (gmap string A)) (ks : list string)
    (body : string → A → MW (option B)) : MW (option B) :=
  match ks with
  | [] => mret None
  | k :: ks =>
      m1 ← m;
      r ← match m1 !! k with Some v => body k v | None => mret None end;
      match r with
      | Some b => mret (Some b)
      | None => find_first m ks body
      end
  end.

(** A range loop that appends to a list. *)
Fixpoint collect {A B} (m : MW (gmap string A)) (ks : list string)
    (body : string → A → MW B) : MW (list B) :=
  match ks with
  | [] => mret []
  | k :: ks =>
      m1 ← m;
      match m1 !! k with
      | Some v => b ← body k v; l ← collect m ks body; mret (b :: l)
      | None => collect m ks body
      end
  end.

Definition range_collect {A B} (m : MW (gmap string A)) (body : string → A → MW B)
    : MW (list B) :=
  n ← choose;
  m0 ← m;
  collect m (range_order n (elements (dom m0))) body.

Definition range_find {A B} (m : MW (gmap string A)) (body : string → A → MW (option B))
    : MW (option B) :=
  n ← choose;
  m0 ← m;
  find_first m (range_order n (elements (dom m0))) body.
End range.

(** The handler main installs with SetSendMessageHandler: mqtt.Publish.  A
    handler that has not been installed is a nil func. *)
Definition call_handler (installed : bool) (topic msg : string) : MW unit :=
  if installed then emit (EvMqtt topic msg) else halt PNilFunc.

(** config.go: (c *Config) GetSn, an atomic increment of a uint64. *)
Definition GetSn : MW Z :=
  c ← gets w_conf;
  let n := to_uint64 (sn c + 1) in
  _ ← modify (set_w_conf (set_sn (λ _, n)));
  mret n.
