(* ===== verification/Track.v ===== *)
(** * Tracks to subscribers

    track_local_static.go of pion/webrtc, the track that the server writes a
    publisher's packets to, with the errors it returns (internal/util). *)

From Stdlib Require Import Ascii String.
From stdpp Require Import strings gmap.
From S2P Require Import Prelude GoLib Bytes Rtp MediaEngine World.

#[local] Set Warnings "-register-all".

(** ** Errors *)

Inductive go_err :=
  | ErrClosedPipe  (* io.ErrClosedPipe *)
  | ErrUnsupportedCodec
  | ErrUnbindFailed
  | ErrRtp (e : rtp_err)
  | ErrWriter (n : nat)  (* another error of a writer *)
  | MultiError (l : list go_err).

(** func FlattenErrs(errs []error) error *)
Definition FlattenErrs (errs : list (option go_err)) : option go_err :=
  match omap id errs with
  | [] => None
  | l => Some (MultiError l)
  end.

(** errors.Is(err, io.ErrClosedPipe), with func (me multiError) Is(err error) bool *)
Fixpoint is_closed_pipe (e : go_err) : bool :=
  match e with
  | ErrClosedPipe => true
  | MultiError l => existsb is_closed_pipe l
  | _ => false
  end.

(** ** TrackLocalStaticRTP *)

Record trackBinding := MkBinding {
  tb_id : string;
  tb_ssrc : Z;
  tb_payloadType : Z;
  tb_writeStream : nat;  (* which writer *)
}.

Record TrackLocalStaticRTP := MkTrack {
  bindings : list trackBinding;
  codec : RTPCodecParameters;  (* of which the capability is used *)
  tr_id : string;
  tr_rid : string;
  tr_streamID : string;
}.

(** TrackLocalContext: what a peer connection hands over. *)
Record TrackLocalContext := MkContext {
  cx_id : string;
  cx_codecs : list RTPCodecParameters;
  cx_ssrc : Z;
  cx_writeStream : nat;
}.

Definition NewTrackLocalStaticRTP (c : RTPCodecParameters) (id streamID : string) : TrackLocalStaticRTP :=
  MkTrack [] c id EmptyString streamID.

Definition set_bindings (l : list trackBinding) (s : TrackLocalStaticRTP) : TrackLocalStaticRTP :=
  MkTrack l (codec s) (tr_id s) (tr_rid s) (tr_streamID s).

(** func (s *TrackLocalStaticRTP) Bind(t TrackLocalContext) (RTPCodecParameters, error) *)
Definition Bind (s : TrackLocalStaticRTP) (t : TrackLocalContext)
    : TrackLocalStaticRTP * (RTPCodecParameters * option go_err) :=
  let parameters := MkCodec (MimeType (codec s)) (ClockRate (codec s)) (Channels (codec s))
                      (SDPFmtpLine (codec s)) (RTCPFeedback (codec s)) 0 in
  match codecParametersFuzzySearch parameters (cx_codecs t) with
  | (_, codecMatchNone) => (s, (codec_zero, Some ErrUnsupportedCodec))
  | (c, _) =>
      (set_bindings (bindings s ++ [MkBinding (cx_id t) (cx_ssrc t) (MediaEngine.PayloadType c) (cx_writeStream t)]) s,
       (c, None))
  end.

(** The loop of Unbind: the first binding with the id is overwritten with the
    last one, and the last one is cut off. *)
Fixpoint find_binding (id : string) (l : list trackBinding) (i : nat) : option nat :=
  match l with
  | [] => None
  | b :: l => if bool_decide (tb_id b = id) then Some i else find_binding id l (S i)
  end.

Definition Unbind (s : TrackLocalStaticRTP) (t : TrackLocalContext) : TrackLocalStaticRTP * option go_err :=
  match find_binding (cx_id t) (bindings s) 0 with
  | Some i =>
      match last (bindings s) with
      | Some b =>
          (set_bindings (take (length (bindings s) - 1) (<[i := b]> (bindings s))) s, None)
      | None => (s, None)
      end
  | None => (s, Some ErrUnbindFailed)
  end.

(** func (s *TrackLocalStaticRTP) Kind() RTPCodecType: 1 is audio, 2 is video. *)
Definition Kind (s : TrackLocalStaticRTP) : Z :=
  if has_prefix "audio/" (MimeType (codec s)) then 1
  else if has_prefix "video/" (MimeType (codec s)) then 2
  else 0.

Definition set_dest (h : Header) (ssrc pt : Z) : Header :=
  MkHeader (Rtp.Version h) (Padding h) (HasExtension h) (Marker h) (u8 pt) (SequenceNumber h) (Timestamp h)
    (u32 ssrc) (CSRC h) (ExtensionProfile h) (Extensions h).

Section write.
(** The answers of the writers' WriteRTP: an error or nil. *)
Context (WriteRTP : nat → Header → list Z → option go_err).

(** The loop of writeRTP, which changes the header of the packet for each
    binding: what the writers get, and their answers. *)
Fixpoint write_bindings (h : Header) (payload : list Z) (l : list trackBinding)
    : list (nat * Header * list Z) * list (option go_err) :=
  match l with
  | [] => ([], [])
  | b :: l =>
      let h := set_dest h (tb_ssrc b) (tb_payloadType b) in
      let err := WriteRTP (tb_writeStream b) h payload in
      let r := write_bindings h payload l in
      ((tb_writeStream b, h, payload) :: r.1, err :: r.2)
  end.

(** func (s *TrackLocalStaticRTP) writeRTP(p *rtp.Packet) error *)
Definition writeRTP (s : TrackLocalStaticRTP) (p : Packet)
    : list (nat * Header * list Z) * option go_err :=
  let r := write_bindings (pHeader p) (Payload p) (bindings s) in
  (r.1, FlattenErrs r.2).

(** func (s *TrackLocalStaticRTP) WriteRTP(p *rtp.Packet) error: the packet of
    the pool is a copy of [p], so that the header of [p] itself stays. *)
Definition Track_WriteRTP (s : TrackLocalStaticRTP) (p : Packet)
    : list (nat * Header * list Z) * option go_err := writeRTP s p.

(** func (s *TrackLocalStaticRTP) Write(b []byte) (n int, err error): the
    packet of the pool is a zero one.  A panic of Unmarshal goes through. *)
Definition Write (s : TrackLocalStaticRTP) (b : slice)
    : res Empty_set (list (nat * Header * list Z) * (nat * option go_err)) :=
  match Packet_Unmarshal empty_packet b with
  | Ok p => let r := writeRTP s p in Ok (r.1, (s_len b, r.2))
  | Err e => Ok ([], (0%nat, Some (ErrRtp e)))
  | Panic => Panic
  | Diverge => Diverge
  end.
End write.
