(* ===== verification/TrackProps.v ===== *)
(** * Tracks: what subscribers get

    A packet that is written to a track goes to every binding, with the
    binding's SSRC and payload type and otherwise unchanged; bindings come and
    go one at a time; the track of the server is bound to the first H.264 codec
    that was negotiated. *)

From Stdlib Require Import Ascii String.
From stdpp Require Import strings gmap.
From S2P Require Import Prelude GoLib Bytes Rtp RtpProps MediaEngine World Track.

Lemma set_dest_twice h a b c d : set_dest (set_dest h a b) c d = set_dest h c d.
Proof. done. Qed.

Section write.
Context (WriteRTP : nat → Header → list Z → option go_err).

Lemma write_bindings_spec l : ∀ h h' payload, (∀ a b, set_dest h a b = set_dest h' a b) →
  write_bindings WriteRTP h payload l =
  (map (λ b, (tb_writeStream b, set_dest h' (tb_ssrc b) (tb_payloadType b), payload)) l,
   map (λ b, WriteRTP (tb_writeStream b) (set_dest h' (tb_ssrc b) (tb_payloadType b)) payload) l).
Proof.
  induction l as [|b l IH]; intros h h' payload Hh; cbn [write_bindings map]; [done|].
  rewrite (IH _ h') by (intros x y; by rewrite set_dest_twice, Hh). by rewrite Hh.
Qed.

Lemma FlattenErrs_None errs : FlattenErrs errs = None ↔ Forall (λ e, e = None) errs.
Proof.
  unfold FlattenErrs. induction errs as [|[e|] errs IH]; simpl.
  - split; [constructor | done].
  - split; [done|]. intros H. by inversion H.
  - rewrite IH. split; [by constructor|]. intros H. by inversion H.
Qed.

(** The header a binding's writer should get: the binding's payload type and
    SSRC (of 8 and 32 bits), everything else as it came. *)
Definition for_binding (tb : trackBinding) (h : Header) : Header :=
  {| Rtp.Version := Rtp.Version h; Padding := Padding h; HasExtension := HasExtension h; Marker := Marker h;
     Rtp.PayloadType := u8 (tb_payloadType tb); SequenceNumber := SequenceNumber h; Timestamp := Timestamp h;
     Rtp.SSRC := u32 (tb_ssrc tb); CSRC := CSRC h; ExtensionProfile := ExtensionProfile h;
     Extensions := Extensions h |}.

(** C23. What the server forwards is what the publisher sent, but for the padding:
    when the bytes of a well-formed packet are written to a track, every
    binding's writer gets the packet, in the order of the bindings, also when a
    writer before it fails, with the binding's SSRC and payload type and with the
    marker, sequence number, timestamp, sources, extensions, padding bit and
    payload of the publisher; the padding bytes are not passed on, although the
    bit stays.  All bytes count as written, and the error is nil exactly if no
    writer fails. *)
Theorem track_forwards s p b :
  packet_ok p → (s_len b <= s_cap b)%nat → s_bytes b = wire_packet p →
  ∃ errs,
    Write WriteRTP s b =
    Ok (map (λ tb, (tb_writeStream tb, for_binding tb (pHeader p), Payload p)) (bindings s),
        (s_len b, errs)) ∧
    (errs = None ↔
     ∀ tb, tb ∈ bindings s →
       WriteRTP (tb_writeStream tb) (for_binding tb (pHeader p)) (Payload p) = None).
Proof.
  intros Hp Hb H. unfold Write. rewrite (Packet_Unmarshal_wire p b Hp Hb H). unfold writeRTP. cbn [fst snd].
  rewrite (write_bindings_spec _ _ (pHeader p)) by done. cbn [fst snd].
  eexists. split; [done|].
  rewrite FlattenErrs_None, Forall_forall. split.
  - intros Ha tb Htb. apply Ha, list_elem_of_In, in_map_iff. exists tb. split; [done|]. by apply list_elem_of_In.
  - intros Ha e He%list_elem_of_In. apply in_map_iff in He as (tb & <- & Htb). by apply Ha, list_elem_of_In.
Qed.
End write.

Lemma track_forwards_witness :
  ∃ s b, bindings s = [MkBinding "a" 11 96 0; MkBinding "b" 12 97 1] ∧
    Write (λ w _ _, if decide (w = 0)%nat then Some ErrClosedPipe else None) s b =
    Ok ([(0%nat, for_binding (MkBinding "a" 11 96 0) (pHeader sample_rtp), Payload sample_rtp);
         (1%nat, for_binding (MkBinding "b" 12 97 1) (pHeader sample_rtp), Payload sample_rtp)],
        (s_len b, Some (MultiError [ErrClosedPipe]))).
Proof.
  set (s := set_bindings [MkBinding "a" 11 96 0; MkBinding "b" 12 97 1] (NewTrackLocalStaticRTP codec_zero "" "")).
  assert (s_len (of_bytes (wire_packet sample_rtp)) <= s_cap (of_bytes (wire_packet sample_rtp)))%nat as Hb by done.
  assert (s_bytes (of_bytes (wire_packet sample_rtp)) = wire_packet sample_rtp) as He by apply s_bytes_of_bytes.
  destruct (track_forwards (λ w _ _, if decide (w = 0)%nat then Some ErrClosedPipe else None) s sample_rtp
    (of_bytes (wire_packet sample_rtp)) sample_rtp_ok Hb He) as (errs & Hw & _).
  exists s, (of_bytes (wire_packet sample_rtp)). split; [reflexivity|]. rewrite Hw.
  vm_compute in Hw. injection Hw as <-. reflexivity.
Defined.

(** ** Bindings *)

Lemma find_binding_spec id l : ∀ i,
  match find_binding id l i with
  | Some j => ∃ k b, j = (i + k)%nat ∧ l !! k = Some b ∧ tb_id b = id
  | None => ∀ b, b ∈ l → tb_id b ≠ id
  end.
Proof.
  induction l as [|b l IH]; intros i; cbn [find_binding].
  - intros b Hb. by apply not_elem_of_nil in Hb.
  - case_bool_decide as Hb.
    + exists 0%nat, b. split; [lia|]. done.
    + specialize (IH (S i)). destruct (find_binding id l (S i)) as [j|].
      * destruct IH as (k & b' & -> & Hk & Hid). exists (S k), b'. split; [lia|]. done.
      * intros b' [->|Hb']%elem_of_cons; [done | by apply IH].
Qed.

(** Overwriting an element with the last one and cutting the last one off
    takes the element out. *)
Lemma swap_remove {A} (l : list A) i x y : l !! i = Some x → last l = Some y →
  x :: take (length l - 1) (<[i := y]> l) ≡ₚ l.
Proof.
  intros Hi Hy. destruct (list.last_Some l y) as [[l' ->] _]; [done|]. clear Hy.
  rewrite length_app. simpl. replace (length l' + 1 - 1)%nat with (length l') by lia.
  destruct (decide (i = length l')) as [->|Hne].
  - rewrite list_insert_id by (by rewrite lookup_app_r, Nat.sub_diag by lia).
    rewrite take_app_length. rewrite lookup_app_r, Nat.sub_diag in Hi by lia. simpl in Hi. injection Hi as <-.
    by rewrite Permutation_cons_append.
  - assert (i < length l')%nat as Hlt.
    { apply lookup_lt_Some in Hi. rewrite length_app in Hi. simpl in Hi. lia. }
    rewrite lookup_app_l in Hi by done. rewrite insert_app_l by done.
    rewrite take_app_le by (rewrite length_insert; lia). rewrite take_ge by (rewrite length_insert; lia).
    rewrite <- Permutation_cons_append, insert_take_drop by done.
    rewrite <- (take_drop_middle l' i x Hi) at 3. rewrite <- !Permutation_middle. apply perm_swap.
Qed.

(** Unbind takes out exactly one binding, one with the id of the context,
    and leaves the others (in another order); without such a binding it returns
    ErrUnbindFailed and changes nothing. *)
Theorem unbind_takes_one s t :
  match Unbind s t with
  | (s', None) => ∃ b, tb_id b = cx_id t ∧ bindings s ≡ₚ b :: bindings s'
  | (s', Some e) => e = ErrUnbindFailed ∧ s' = s ∧ ∀ b, b ∈ bindings s → tb_id b ≠ cx_id t
  end.
Proof.
  unfold Unbind. pose proof (find_binding_spec (cx_id t) (bindings s) 0) as Hf.
  destruct (find_binding (cx_id t) (bindings s) 0) as [j|]; [|done].
  destruct Hf as (k & b & -> & Hk & Hid). rewrite Nat.add_0_l.
  destruct (last (bindings s)) as [y|] eqn:Hy.
  - exists b. split; [done|]. simpl. symmetry. by apply swap_remove.
  - apply last_None in Hy. by rewrite Hy in Hk.
Qed.

(** ** The codec of a binding *)

Lemma EqualFold_sym a b : EqualFold a b = EqualFold b a.
Proof. unfold EqualFold. by apply bool_decide_ext. Qed.

Lemma EqualFold_trans a b c : EqualFold a b = true → EqualFold b c = EqualFold a c.
Proof. unfold EqualFold. intros H%bool_decide_eq_true. by rewrite H. Qed.

Lemma find_none {A} (f : A → bool) l : (∀ x, f x = false) → List.find f l = None.
Proof. intros H. induction l as [|x l IH]; simpl; [done|]. by rewrite H. Qed.

(** The server's video track, whose codec has the type video/H264 and no
    format parameters, is bound to the first H.264 codec that was negotiated,
    whatever its profile and packetization mode: without parameters of its own
    the exact search never succeeds.  If none was negotiated, Bind returns
    ErrUnsupportedCodec and no packet will be written. *)
Theorem h264_bind_first s t :
  EqualFold (MimeType (codec s)) "video/h264" = true → SDPFmtpLine (codec s) = EmptyString →
  Bind s t =
  match List.find (λ c, EqualFold (MimeType c) (MimeType (codec s))) (cx_codecs t) with
  | Some c =>
      (set_bindings (bindings s ++ [MkBinding (cx_id t) (cx_ssrc t) (MediaEngine.PayloadType c) (cx_writeStream t)]) s,
       (c, None))
  | None => (s, (codec_zero, Some ErrUnsupportedCodec))
  end.
Proof.
  intros Hm Hl. unfold Bind, codecParametersFuzzySearch. cbn [MimeType SDPFmtpLine]. rewrite Hl.
  rewrite find_none; [by destruct (List.find _ _)|].
  intros c. unfold Parse at 1. rewrite Hm. by destruct (Parse (MimeType c) (SDPFmtpLine c)).
Qed.

Lemma h264_bind_first_witness :
  (Bind (NewTrackLocalStaticRTP (MkCodec "video/H264" 0 0 "" [] 0) "video" "pion-v")
     (MkContext "x" [MkCodec "audio/opus" 48000 2 "" [] 111; MkCodec "video/h264" 90000 0 "packetization-mode=0" [] 125;
                     MkCodec "video/H264" 90000 0 "packetization-mode=1" [] 102] 9 4)).2 =
  (MkCodec "video/h264" 90000 0 "packetization-mode=0" [] 125, None).
Proof.
  rewrite (h264_bind_first (NewTrackLocalStaticRTP (MkCodec "video/H264" 0 0 "" [] 0) "video" "pion-v") _
    ltac:(vm_compute; reflexivity) ltac:(reflexivity)).
  vm_compute. reflexivity.
Defined.
