(* ===== verification/Rmq.v ===== *)
(** * RabbitMQ: rmq.go

    Two RabbitMQ objects connect the server to the broker of its cluster (the
    load balancer, the UDP proxy, the other pods of the cluster) and to the
    broker shared by the clusters.  Each exchange the server publishes to has a
    producer goroutine that takes messages from an unbuffered channel; each
    queue it reads has a receiver goroutine.  A connection that cannot be made
    or is lost is retried by a timer goroutine.

    A send on [msgChan] or [exitChan] needs the goroutine at the other end; it
    blocks forever on a nil channel or when that goroutine is gone. *)

From S2P Require Import Prelude GoLib Json Constants KeyframeFilter World.

(** What the amqp library answers to a call ([false]: an error). *)
Class Amqp := {
  am_dial : nat → bool;
  am_channel : nat → bool;
  am_exchange_declare : nat → bool;
  am_queue_declare : nat → bool;
  am_queue_bind : nat → bool;
  am_consume : nat → bool;
}.

(** ** Objects *)

Definition upd_rmq (g : rmqstate → rmqstate) : MW unit := modify (set_w_rmq g).

Definition get_ex (x : nat) : MW QueueExchange :=
  o ← gets (λ w, mq_exchanges (w_rmq w) !! x); from_some PDangling o.
Definition upd_ex (x : nat) (g : QueueExchange → QueueExchange) : MW unit :=
  upd_rmq (set_mq_exchanges (alter g x)).
Definition alloc_ex (e : QueueExchange) : MW nat :=
  n ← gets w_next;
  _ ← modify (set_w_next S);
  _ ← upd_rmq (set_mq_exchanges <[n := e]>);
  mret n.

Definition get_mq (q : nat) : MW RabbitMQ :=
  o ← gets (λ w, mq_objs (w_rmq w) !! q); from_some PDangling o.
Definition upd_mq (q : nat) (g : RabbitMQ → RabbitMQ) : MW unit :=
  upd_rmq (set_mq_objs (alter g q)).

(** CreateRabbitMQ, once the configuration has been read. *)
Definition CreateRabbitMQ (url : string) : MW nat :=
  n ← gets w_next;
  _ ← modify (set_w_next S);
  _ ← upd_rmq (set_mq_objs <[n := MkRabbitMQ None url [] false [] 0]>);
  mret n.

Definition CreateQueueExchange (conn : option nat) (exc excType queue key features : string)
    : QueueExchange := {|
  x_parent := None;
  x_conn := conn;
  x_channel := None;
  x_queueName := queue;
  x_routingKey := key;
  x_exchangeName := exc;
  x_exchangeType := excType;
  x_feature := features;
  x_msgChan := false;
  x_producer := false;
  x_receiver := false;
|}.

(** ** Publishing *)

(** ex.msgChan <- m, then the producer goroutine publishes it (an error of
    channel.Publish is only printed). *)
Definition send_msgChan (x : option nat) (m : PublishMsg) : MW unit :=
  x ← from_some PNilDeref x;
  ex ← get_ex x;
  if x_msgChan ex && x_producer ex then emit (EvAmqp (excname m) (key m) (msg m))
  else halt (HChan CMsgChan).

Definition PublishMessage2LB (msg : string) : MW unit :=
  r ← gets w_rmq;
  if negb (connected r) then skip
  else send_msgChan (exc_pub_dr r) (MkPublishMsg "WB_" "111" msg).

Definition PublishMessage2Pod (key msg : string) : MW unit :=
  r ← gets w_rmq;
  if negb (connected r) then skip
  else send_msgChan (exc_pub_dr r) (MkPublishMsg "WB_" key msg).

Definition BroadcastMessage2Proxy (msg : string) : MW unit :=
  r ← gets w_rmq;
  if negb (connected r) then skip
  else send_msgChan (exc_proxy_bc r) (MkPublishMsg "udpProxy" "broadcast" msg).

Definition BroadcastInterClusterMessage (msg : string) : MW unit :=
  r ← gets w_rmq;
  if negb (connected r) then skip
  else send_msgChan (exc_cluster_bc r)
         (MkPublishMsg "inter-cluster_broadcast" "inter-cluster" msg).

Definition PublishMessage2CrossClusterPod (key msg : string) : MW unit :=
  r ← gets w_rmq;
  if negb (connected r) then skip
  else send_msgChan (exc_cross_cluster_dr r) (MkPublishMsg "WB_" key msg).

Definition BroadcastCrossClusterMessage (msg : string) : MW unit :=
  r ← gets w_rmq;
  if negb (center_connected r) then skip
  else send_msgChan (exc_cross_cluster_bc r)
         (MkPublishMsg "cross-cluster_broadcast" "cross-cluster" msg).

(** ** Exchanges and queues *)

(** opts[0], opts[1]: durable and autoDelete. *)
Definition feature_opts (feature : string) : bool * bool :=
  let opts := (false, false) in
  let opts := if decide (feature = "d") then (true, false) else opts in
  if decide (feature = "ad") then (false, true) else opts.

Section amqp.
Context `{Amqp}.

Definition amqp_Channel (conn : nat) : MW (option nat) :=
  n ← choose; mret (if am_channel n then Some n else None).

Definition ExchangeDeclare (name kind : string) (durable autoDelete : bool) : MW bool :=
  n ← choose;
  _ ← emit (EvExchangeDeclare name kind durable autoDelete);
  mret (am_exchange_declare n).
Definition QueueDeclare (name : string) : MW bool :=
  n ← choose; _ ← emit (EvQueueDeclare name); mret (am_queue_declare n).
Definition QueueBind (name key exchange : string) : MW bool :=
  n ← choose; _ ← emit (EvQueueBind name key exchange); mret (am_queue_bind n).
Definition Consume (queue : string) : MW bool :=
  n ← choose; _ ← emit (EvConsume queue); mret (am_consume n).

(** The goroutine that waits on notifyClose and notifyConfirm, both nil, has
    no effect.  A failed conn.Channel() leaves a nil channel. *)
Definition addProducer (x : nat) : MW unit :=
  ex ← get_ex x;
  conn ← from_some PNilDeref (x_conn ex);
  ch ← amqp_Channel conn;
  _ ← upd_ex x (set_x_channel (λ _, ch));
  let opts := feature_opts (x_feature ex) in
  _ ← from_some PNilDeref ch;
  ok ← ExchangeDeclare (x_exchangeName ex) (x_exchangeType ex) opts.1 opts.2;
  if negb ok then skip else
  ok ← (if decide (x_queueName ex = "") then mret true else
          ok ← QueueDeclare (x_queueName ex);
          if negb ok then mret false
          else QueueBind (x_queueName ex) (x_routingKey ex) (x_exchangeName ex));
  if negb ok then skip else
  _ ← upd_ex x (set_x_msgChan (λ _, true));
  upd_ex x (set_x_producer (λ _, true)).

Definition RegisterProducer (q : nat) (exc excType queue key feature : string) : MW nat :=
  _ ← Lock (LMq q);
  r ← get_mq q;
  x ← alloc_ex (CreateQueueExchange (q_conn r) exc excType queue key feature);
  _ ← addProducer x;
  _ ← Unlock (LMq q);
  mret x.

(** An error of channel.Qos is only printed. *)
Definition addReceiver (x q : nat) : MW unit :=
  _ ← upd_ex x (set_x_parent (λ _, Some q));
  ex ← get_ex x;
  conn ← from_some PNilDeref (x_conn ex);
  ch ← amqp_Channel conn;
  _ ← upd_ex x (set_x_channel (λ _, ch));
  let opts := feature_opts (x_feature ex) in
  _ ← from_some PNilDeref ch;
  ok ← ExchangeDeclare (x_exchangeName ex) (x_exchangeType ex) opts.1 opts.2;
  if negb ok then skip else
  ok ← QueueDeclare (x_queueName ex);
  if negb ok then skip else
  ok ← QueueBind (x_queueName ex) (x_routingKey ex) (x_exchangeName ex);
  if negb ok then skip else
  ok ← Consume (x_queueName ex);
  if negb ok then skip else
  upd_ex x (set_x_receiver (λ _, true)).

Definition RegisterReceiver (q : nat) (exc excType queue key feature : string) : MW unit :=
  _ ← Lock (LMq q);
  r ← get_mq q;
  x ← alloc_ex (CreateQueueExchange (q_conn r) exc excType queue key feature);
  _ ← addReceiver x q;
  _ ← upd_mq q (set_q_exs (λ l, l ++ [x]));
  Unlock (LMq q).

(** ex.exitChan <- 0 needs the goroutine of the exchange, which returns. *)
Definition destroyEXC (x : nat) : MW unit :=
  _ ← upd_ex x (set_x_channel (λ _, None));
  ex ← get_ex x;
  if x_producer ex then upd_ex x (set_x_producer (λ _, false))
  else if x_receiver ex then upd_ex x (set_x_receiver (λ _, false))
  else halt (HChan CExitExc).

Definition destroy_opt (x : option nat) : MW unit :=
  match x with
  | Some x => destroyEXC x
  | None => skip
  end.

(** The end of Stop and CenterRMQStop: the receivers, then the connection. *)
Definition stop_receivers (q : nat) : MW unit :=
  r ← get_mq q;
  _ ← for_each (q_exs r) destroyEXC;
  _ ← upd_mq q (set_q_exs (λ _, []));
  _ ← from_some PNilDeref (q_conn r);
  upd_mq q (set_q_conn (λ _, None)).

Definition rmq_Stop (q : nat) : MW unit :=
  g ← gets w_rmq;
  _ ← destroy_opt (exc_pub_dr g);
  _ ← destroy_opt (exc_proxy_bc g);
  _ ← destroy_opt (exc_cluster_bc g);
  stop_receivers q.

Definition CenterRMQStop (q : nat) : MW unit :=
  g ← gets w_rmq;
  _ ← destroy_opt (exc_cross_cluster_dr g);
  _ ← destroy_opt (exc_cross_cluster_bc g);
  stop_receivers q.

(** ** Connection and retry *)

(** lanuchRetryTimer and CenterRMQConnectTimer: one more timer goroutine. *)
Definition lanuchRetryTimer (q : nat) (sec : Z) : MW unit :=
  t ← now_nano;
  upd_mq q (set_q_timers (λ l, l ++ [TArmed (t + sec * second)])).
Definition CenterRMQConnectTimer (q : nat) (sec : Z) : MW unit :=
  t ← now_nano;
  upd_mq q (set_q_timers (λ l, l ++ [TArmed (t + sec * second)])).

(** go { exitChan <- 0 }; waitGroup.Wait(): each value ends one timer
    goroutine; Wait returns when none is left. *)
Definition cancelRetryTimer (q : nat) : MW unit :=
  _ ← upd_mq q (set_q_exitSenders S);
  r ← get_mq q;
  let n := (q_exitSenders r `min` length (q_timers r))%nat in
  _ ← upd_mq q (set_q_exitSenders (λ k, (k - n)%nat));
  _ ← upd_mq q (set_q_timers (drop n));
  if decide (length (q_timers r) <= q_exitSenders r)%nat then skip
  else halt (HChan CWaitMq).

Definition mqConnect (q : nat) : MW bool :=
  n ← choose;
  _ ← upd_mq q (set_q_conn (λ _, if am_dial n then Some n else None));
  if negb (am_dial n) then
    _ ← cancelRetryTimer q;
    _ ← lanuchRetryTimer q 5;
    mret false
  else
    _ ← cancelRetryTimer q;
    c ← gets w_conf;
    x ← RegisterProducer q "WB_" "direct" "" "111" "d";
    _ ← upd_rmq (set_exc_pub_dr (λ _, Some x));
    _ ← RegisterReceiver q "WB_broadcast" "fanout" ("bc_ms_" +:+ Uuid c) "container_broadcast" "d";
    _ ← RegisterReceiver q "WB_" "direct" ("direct_ms_" +:+ Uuid c) (Uuid c) "d";
    x ← RegisterProducer q "udpProxy" "fanout" "" "broadcast" "ad";
    _ ← upd_rmq (set_exc_proxy_bc (λ _, Some x));
    x ← RegisterProducer q "inter-cluster_broadcast" "fanout" "" "inter-cluster" "ad";
    _ ← upd_rmq (set_exc_cluster_bc (λ _, Some x));
    _ ← RegisterReceiver q "inter-cluster_broadcast" "fanout" ("inter-cluster_" +:+ Uuid c)
          "inter-cluster" "ad";
    _ ← upd_rmq (set_connected (λ _, true));
    mret true.

Definition centerRMQConnect (q : nat) : MW bool :=
  n ← choose;
  _ ← upd_mq q (set_q_conn (λ _, if am_dial n then Some n else None));
  if negb (am_dial n) then
    _ ← cancelRetryTimer q;
    _ ← CenterRMQConnectTimer q 5;
    mret false
  else
    _ ← cancelRetryTimer q;
    c ← gets w_conf;
    x ← RegisterProducer q "WB_" "direct" "" "" "d";
    _ ← upd_rmq (set_exc_cross_cluster_dr (λ _, Some x));
    _ ← RegisterReceiver q "WB_" "direct" ("direct_ms_" +:+ Uuid c) (Uuid c) "d";
    x ← RegisterProducer q "cross-cluster_broadcast" "fanout" "" "cross-cluster" "ad";
    _ ← upd_rmq (set_exc_cross_cluster_bc (λ _, Some x));
    _ ← RegisterReceiver q "cross-cluster_broadcast" "fanout" ("cross-cluster_" +:+ Uuid c)
          "cross-cluster" "ad";
    _ ← upd_rmq (set_center_connected (λ _, true));
    mret true.

(** The goroutine of mqConnect that receives from NotifyClose: [err] tells a
    lost connection from a graceful close. *)
Definition on_conn_close (q : nat) (err : bool) : MW unit :=
  if err then
    _ ← upd_rmq (set_connected (λ _, false));
    _ ← rmq_Stop q;
    lanuchRetryTimer q 3
  else skip.

Definition on_center_close (q : nat) (err : bool) : MW unit :=
  if err then
    _ ← upd_rmq (set_center_connected (λ _, false));
    _ ← CenterRMQStop q;
    CenterRMQConnectTimer q 3
  else skip.

Definition InterClusterStartup (q : nat) : MW unit :=
  _ ← upd_rmq (set_exc_pub_dr (λ _, None));
  _ ← upd_rmq (set_exc_proxy_bc (λ _, None));
  _ ← upd_rmq (set_exc_cluster_bc (λ _, None));
  _ ← upd_rmq (set_connected (λ _, false));
  _ ← upd_mq q (set_q_onReceivedMessageHandler (λ _, true));
  lanuchRetryTimer q 0.

Definition CrossClusterStartup (q : nat) : MW unit :=
  _ ← upd_rmq (set_exc_cross_cluster_dr (λ _, None));
  _ ← upd_rmq (set_exc_cross_cluster_bc (λ _, None));
  _ ← upd_rmq (set_center_connected (λ _, false));
  _ ← upd_mq q (set_q_onReceivedMessageHandler (λ _, true));
  CenterRMQConnectTimer q 0.
End amqp.

(** The timer goroutine number [i] receives from timer.C and starts a
    connection attempt; it goes on waiting for exitChan. *)
Definition retry_timer_due (now : Z) (r : RabbitMQ) (i : nat) : bool :=
  match q_timers r !! i with
  | Some (TArmed d) => d <=? now
  | _ => false
  end.
Definition retry_timer_fire (q i : nat) (connect : task) : MW unit :=
  _ ← upd_mq q (set_q_timers <[i := TExpired]>);
  spawn connect.

(** It receives from exitChan and returns. *)
Definition retry_timer_exit (q i : nat) : MW unit :=
  _ ← upd_mq q (set_q_exitSenders pred);
  upd_mq q (set_q_timers (delete i)).
