(* ===== verification/Peer.v ===== *)
(** * Peers: peer.go

    A peer wraps one WebRTC connection: a publisher (role 1) receives the media
    of a browser or, when it is fake, of the pod that hosts the original
    publisher; a subscriber (role 2) forwards it to a browser or to another
    pod.  This file holds the constructors, the handlers of the signalling
    messages and the delivery of media; the callbacks of the connection that
    call back into the session are in Callbacks. *)

From Stdlib Require Import Ascii.
From S2P Require Import Prelude GoLib Bytes Sdp Ice MediaEngine Signaling Json Constants KeyframeFilter World Rmq.

(** ** Media codecs *)

Definition MimeTypeOpus : string := "audio/opus".
Definition MimeTypeH264 : string := "video/H264".

Definition opus_codec : RTPCodecParameters :=
  MkCodec MimeTypeOpus 48000 2 "minptime=10;useinbandfec=1" [] 111.

Definition videoRTCPFeedback : list (string * string) :=
  [("transport-cc", ""); ("ccm", "fir"); ("nack", ""); ("nack", "pli")].

Definition h264_codec : RTPCodecParameters :=
  MkCodec MimeTypeH264 90000 0
    "level-asymmetry-allowed=1;packetization-mode=1;profile-level-id=42001f"
    videoRTCPFeedback 102.

(** ** Small accessors *)

Definition peer_SetSendMessageHandler (p : nat) (f : bool) : MW unit :=
  upd_peer p (set_p_onSendMessageHandler (λ _, f)).

Definition IsReady (p : nat) : MW bool := pr ← get_peer p; mret (p_isReady pr).

Definition ShouldNotify (p : nat) : MW bool :=
  pr ← get_peer p;
  if p_shouldNotify pr then
    _ ← upd_peer p (set_p_shouldNotify (λ _, false));
    mret true
  else mret (p_shouldNotify pr).

Definition SetAudioCodec (p : nat) (codec : RTPCodecParameters) : MW unit :=
  upd_peer p (set_p_audioCodec (λ _, codec)).
Definition SetVideoCodec (p : nat) (codec : RTPCodecParameters) : MW unit :=
  upd_peer p (set_p_videoCodec (λ _, codec)).
Definition GetAudioCodec (p : nat) : MW RTPCodecParameters :=
  pr ← get_peer p; mret (p_audioCodec pr).
Definition GetVideoCodec (p : nat) : MW RTPCodecParameters :=
  pr ← get_peer p; mret (p_videoCodec pr).

(** A loop over a list.List; a nil list is dereferenced. *)
Definition isAudioSsrc (p : nat) (s : Z) : MW bool :=
  pr ← get_peer p;
  l ← from_some PNilDeref (p_audiossrc pr);
  mret (existsb (Z.eqb s) l).
Definition isVideoSsrc (p : nat) (s : Z) : MW bool :=
  pr ← get_peer p;
  l ← from_some PNilDeref (p_videossrc pr);
  mret (existsb (Z.eqb s) l).
Definition getVideoSsrc (p : nat) : MW Z :=
  pr ← get_peer p;
  l ← from_some PNilDeref (p_videossrc pr);
  mret (match l with e :: _ => e | [] => 0 end).

(** ** The keyframe filter of a peer *)

Definition sendPli (p : nat) : MW unit :=
  pr ← get_peer p;
  if negb (p_role pr =? 1) then skip
  else
    ssrc ← getVideoSsrc p;
    _ ← from_some PNilDeref (p_peerConnection pr);
    emit (EvPli p (to_uint32 ssrc)).

Definition run_kfeff (p : nat) (e : kfeff) : MW unit :=
  match e with
  | GoRequestKeyframeNow => spawn (TRequestKeyframeNow p)
  | CallSend => sendPli p
  end.

(** An operation of p.filter, with its effects. *)
Definition on_filter (p : nat) (m : M kfst unit) : MW unit :=
  pr ← get_peer p;
  f ← from_some PNilDeref (p_filter pr);
  match m (f, []) with
  | Ret _ (f', eff) =>
      _ ← upd_peer p (set_p_filter (λ _, Some f'));
      for_each eff (run_kfeff p)
  | Stop r (f', _) =>
      _ ← upd_peer p (set_p_filter (λ _, Some f'));
      halt r
  end.

Definition RequestKeyframe (p : nat) : MW unit :=
  pr ← get_peer p;
  match p_filter pr with
  | Some _ =>
      if p_isReady pr then t ← now_nano; on_filter p (kf_TryRequestKeyframe t) else skip
  | None => skip
  end.

Definition requestKeyframeNow (p : nat) : MW unit :=
  t ← now_nano; on_filter p (kf_requestKeyframeNow t).

Definition Destroy (p : nat) : MW unit :=
  pr ← get_peer p;
  _ ← match p_filter pr with
      | Some _ => on_filter p kf_Shutdown
      | None => skip
      end;
  _ ← (if p_exitCh_closed pr then halt PCloseClosed
       else upd_peer p (set_p_exitCh_closed (λ _, true)));
  match p_peerConnection pr with
  | Some pc =>
      _ ← emit (EvPcClose (pc_id pc));
      upd_peer p (set_p_peerConnection (λ _, None))
  | None => skip
  end.

(** ** Media delivery *)

(** buff[:n] *)
Definition slice_to (buff : string) (n : Z) : MW string :=
  if (0 <=? n) && (n <=? Z.of_nat (string_len buff))
  then mret (str_take (Z.to_nat n) buff) else halt PIndex.

Section peer.
Context `{GoRuntime, WebRTC, Amqp}.

(** track.Write(buff[:len]): io.ErrClosedPipe is tolerated. *)
Definition track_write (p : nat) (video : bool) (data : string) : MW unit :=
  n ← choose;
  match wr_track_write n data with
  | WOk => emit (EvTrackWrite p video data)
  | WClosedPipe => skip
  | WErr => halt PExplicit
  end.

Definition deliverAudioData (p : nat) (buff : string) (len : Z) : MW unit :=
  pr ← get_peer p;
  if p_audioSender pr then d ← slice_to buff len; track_write p false d else skip.

Definition deliverVideoData (p : nat) (buff : string) (len : Z) : MW unit :=
  pr ← get_peer p;
  if p_videoTrack pr then d ← slice_to buff len; track_write p true d else skip.

(** An error of SendText is only printed. *)
Definition deliverAppData (p : nat) (buff : string) (len : Z) : MW unit :=
  pr ← get_peer p;
  if p_dataChannel pr then emit (EvDataSend p buff) else skip.

(** ** Constructors *)

Definition initMediaCodec (m : MediaEngine) : MediaEngine * option me_err :=
  match register_codecs m [opus_codec] RTPCodecTypeAudio with
  | (m, None) => register_codecs m [h264_codec] RTPCodecTypeVideo
  | r => r
  end.

(** webrtc.RegisterDefaultInterceptors and api.NewPeerConnection, which copies
    the engine *)
Definition new_connection (m : MediaEngine) : MW (option pconn) :=
  match engine_interceptors m with
  | (_, Some _) => mret None
  | (m, None) =>
      k ← choose;
      if negb (wr_new_pc k) then mret None else mret (Some (MkPc k [] (MkState new_signaling (engine_copy m))))
  end.

(** The engine of every connection of the server. *)
Definition server_engine : MediaEngine := engine_copy (engine_interceptors (initMediaCodec engine_zero).1).1.

(** The registrations do not fail. *)
Lemma init_codecs : initMediaCodec engine_zero = ((initMediaCodec engine_zero).1, None).
Proof. vm_compute. reflexivity. Qed.
Lemma init_interceptors : engine_interceptors (initMediaCodec engine_zero).1 = ((engine_interceptors (initMediaCodec engine_zero).1).1, None).
Proof. vm_compute. reflexivity. Qed.

Lemma server_video : videoCodecs server_engine =
  [set_RTCPFeedback (videoRTCPFeedback ++ [("nack", ""); ("nack", "pli"); ("transport-cc", "")]) h264_codec].
Proof. vm_compute. reflexivity. Qed.
Lemma server_audio : audioCodecs server_engine = [set_RTCPFeedback [("transport-cc", "")] opus_codec].
Proof. vm_compute. reflexivity. Qed.

Definition CreatePublishPeer (s : nat) (sid pid podid : string) (isFake : bool)
    : MW (option nat) :=
  match initMediaCodec engine_zero with (_, Some _) => mret None | (m, None) =>
  pc ← new_connection m;
  match pc with
  | None => mret None
  | Some pc =>
      p ← alloc_peer {|
        p_userid := sid;
        p_remoteuserid := "";
        p_peerid := pid;
        p_role := 1;
        p_isFake := isFake;
        p_peerConnection := Some pc;
        p_videoTrack := false;
        p_videoSender := false;
        p_audioTrack := false;
        p_audioSender := false;
        p_dataChannel := false;
        p_filter := Some (CreateKeyframeFilter (negb isFake));
        p_onSendMessageHandler := false;
        p_publishersdp := None;
        p_parent := s;
        p_setedRemoteDesc := false;
        p_candidateCaches := [];
        p_isReady := false;
        p_shouldNotify := false;
        p_videoCodec := codec_zero;
        p_audioCodec := codec_zero;
        p_audiossrc := Some [];
        p_videossrc := Some [];
        p_appssrc := Some [];
        p_remoteSdpReceived := 0;
        p_exitCh_closed := false;
        p_readers := 0;
        p_podid := podid;
      |};
      mret (Some p)
  end end.

(** The result of initMediaCodec is ignored here. *)
Definition CreateSubscribePeer (s : nat) (sid ssid pid podid : string)
    (publisherSdp : option string) (acodec vcodec : RTPCodecParameters) (isFake : bool)
    : MW (option nat) :=
  pc ← new_connection (initMediaCodec engine_zero).1;
  match pc with
  | None => mret None
  | Some pc =>
      p ← alloc_peer {|
        p_userid := sid;
        p_remoteuserid := ssid;
        p_peerid := pid;
        p_role := 2;
        p_isFake := isFake;
        p_peerConnection := Some pc;
        p_videoTrack := false;
        p_videoSender := false;
        p_audioTrack := false;
        p_audioSender := false;
        p_dataChannel := false;
        p_filter := None;
        p_onSendMessageHandler := false;
        p_publishersdp := publisherSdp;
        p_parent := s;
        p_setedRemoteDesc := false;
        p_candidateCaches := [];
        p_isReady := false;
        p_shouldNotify := false;
        p_videoCodec := vcodec;
        p_audioCodec := acodec;
        p_audiossrc := None;
        p_videossrc := None;
        p_appssrc := None;
        p_remoteSdpReceived := 0;
        p_exitCh_closed := false;
        p_readers := 0;
        p_podid := podid;
      |};
      mret (Some p)
  end.

(** ** Calls on the connection *)

(** A method call on p.peerConnection: the answer and the state of the connection
    after it depend on the calls made before, and the call is added to the
    log. *)
Definition pc_step {A} (p : nat) (op : pcop) (f : pconn → pcstate * A) : MW A :=
  pr ← get_peer p;
  pc ← from_some PNilDeref (p_peerConnection pr);
  _ ← upd_peer p (set_p_peerConnection
                    (λ _, Some (MkPc (pc_id pc) (pc_log pc ++ [op]) (f pc).1)));
  mret (f pc).2.

Definition pc_call {A} (p : nat) (op : pcop) (answer : pconn → A) : MW A :=
  pc_step p op (λ pc, (pc_state pc, answer pc)).

Definition pc_read {A} (p : nat) (answer : pconn → A) : MW A :=
  pr ← get_peer p;
  pc ← from_some PNilDeref (p_peerConnection pr);
  mret (answer pc).

(** if err != nil { panic(err) } *)
Definition must (ok : bool) : MW unit := if ok then skip else halt PExplicit.

(** setDescription, and what follows it. *)
Definition describe_local (ty sdp : string) (pc : pconn) : pcstate * bool :=
  let r := setDescription (pc_sig pc) (MkDesc (NewSDPType ty) sdp) stateChangeOpSetLocal in
  (with_sig r.1 pc, match r.2 with None => wr_set_local pc ty sdp | Some _ => false end).

(** pc.api.mediaEngine.updateFromRemoteDescription(desc.parsed) *)
Definition remote_codecs (pc : pconn) (sdp : string) : MediaEngine * bool :=
  match SessionDescription_Unmarshal session_zero sdp with
  | Ok d =>
      let r := updateFromRemoteDescription (wr_ext_order pc) (pc_media pc) d in
      (r.1, match r.2 with Ok _ => true | _ => false end)
  | _ => (pc_media pc, false)
  end.

Definition describe_remote (ty sdp : string) (pc : pconn) : pcstate * bool :=
  let r := setDescription (pc_sig pc) (MkDesc (NewSDPType ty) sdp) stateChangeOpSetRemote in
  match r.2 with
  | Some _ => (with_sig r.1 pc, false)
  | None => let m := remote_codecs pc sdp in (MkState r.1 m.1, m.2 && wr_set_remote pc ty sdp)
  end.

(** Every error of these calls is a panic of the server. *)
Definition SetLocalDescription (p : nat) (ty sdp : string) : MW unit :=
  closed ← pc_read p (λ pc, isClosed (pc_sig pc));
  _ ← must (negb closed);
  text ← pc_read p (λ pc, local_text (pc_sig pc) (MkDesc (NewSDPType ty) sdp));
  sdp ← from_some PExplicit text;
  parsed ← desc_Unmarshal sdp;
  _ ← from_some PExplicit parsed;
  ok ← pc_step p (OpSetLocal ty sdp) (describe_local ty sdp);
  must ok.

Definition SetRemoteDescription (p : nat) (ty sdp : string) : MW unit :=
  closed ← pc_read p (λ pc, isClosed (pc_sig pc));
  _ ← must (negb closed);
  parsed ← desc_Unmarshal sdp;
  _ ← from_some PExplicit parsed;
  ok ← pc_step p (OpSetRemote ty sdp) (describe_remote ty sdp);
  must ok.

(** A candidate is given to the agent of a connection that has a remote
    description. *)
Definition takes_candidate (pc : pconn) (c : string) : bool :=
  bool_decide (is_Some (RemoteDescription (pc_sig pc))) &&
  match remote_candidate c with
  | Ok DiscardCandidate => true
  | Ok (GiveAgent _) => wr_ice_agent pc
  | _ => false
  end.

Definition AddICECandidate (p : nat) (c : string) : MW unit :=
  ok ← pc_call p (OpAddICECandidate c) (λ pc, takes_candidate pc c);
  must ok.

Definition CreateOffer (p : nat) : MW string :=
  o ← pc_step p OpCreateOffer (λ pc,
        match offer_refused (pc_sig pc), wr_create_offer pc with
        | None, Some sdp => (with_sig (set_lastOffer sdp (pc_sig pc)) pc, Some sdp)
        | _, _ => (pc_state pc, None)
        end);
  from_some PExplicit o.

Definition CreateAnswer (p : nat) : MW string :=
  o ← pc_step p OpCreateAnswer (λ pc,
        match answer_refused (pc_sig pc), wr_create_answer pc with
        | None, Some sdp => (with_sig (set_lastAnswer sdp (pc_sig pc)) pc, Some sdp)
        | _, _ => (pc_state pc, None)
        end);
  from_some PExplicit o.

(** The local descriptions are given with the candidates found so far. *)
Definition current_local (pc : pconn) : option string :=
  (λ d, wr_populate pc (d_SDP d)) <$> currentLocalDescription (pc_sig pc).
Definition local_description (pc : pconn) : option string :=
  match pendingLocalDescription (pc_sig pc) with
  | Some d => Some (wr_populate pc (d_SDP d))
  | None => current_local pc
  end.
Definition remote_description (pc : pconn) : option string := d_SDP <$> RemoteDescription (pc_sig pc).

(** webrtc.NewTrackLocalStaticRTP, whose error is always nil, and AddTrack *)
Definition add_track (p : nat) (mime id stream : string) : MW unit :=
  ok ← pc_call p (OpAddTrack mime id stream) (λ pc, wr_add_track pc mime);
  must ok.

(** The body of the loop over the media sections of the publisher's
    description, in HandleSubscribe and in HandleFakeSubscribe. *)
Definition sub_media (p : nat) (m : media) : MW unit :=
  if decide (m_name m = "video") then
    _ ← add_track p MimeTypeH264 "video" "pion-v";
    _ ← upd_peer p (set_p_videoTrack (λ _, true));
    upd_peer p (set_p_videoSender (λ _, true))
  else if decide (m_name m = "audio") then
    _ ← add_track p MimeTypeOpus "audio" "pion-a";
    _ ← upd_peer p (set_p_audioTrack (λ _, true));
    upd_peer p (set_p_audioSender (λ _, true))
  else if decide (m_name m = "application") then
    ok ← pc_call p (OpCreateDataChannel "whiteboard" true 5)
           (λ pc, wr_create_dc pc "whiteboard");
    _ ← must ok;
    upd_peer p (set_p_dataChannel (λ _, true))
  else skip.

(** p.publishersdp.Unmarshal(): a nil description is dereferenced, a bad one
    panics. *)
Definition publisher_media (p : nat) : MW (list media) :=
  pr ← get_peer p;
  sdp ← from_some PNilDeref (p_publishersdp pr);
  o ← desc_Unmarshal sdp;
  from_some PExplicit o.

(** ** Candidates *)

Definition HandleRemoteCandidate (p : nat) (j : jsonparser) : MW unit :=
  let strcandidate := GetValue j CmdCandidate in
  pr ← get_peer p;
  if negb (p_setedRemoteDesc pr) then
    upd_peer p (set_p_candidateCaches (λ l, l ++ [strcandidate]))
  else AddICECandidate p strcandidate.

Definition SetCachedCandidates (p : nat) : MW unit :=
  _ ← upd_peer p (set_p_setedRemoteDesc (λ _, true));
  pr ← get_peer p;
  for_each (p_candidateCaches pr) (AddICECandidate p).

(** ** SSRCs of a session description *)

(** strings.FieldsFunc(a.Value, ...) on ':' and ' ' *)
Definition ssrc_fields (v : string) : list string :=
  fields_func (λ c, Ascii.eqb c ":"%char || Ascii.eqb c " "%char) v.

(** One attribute: the ssrc it declares by a cname, if any. *)
Definition ssrc_attr (a : string * string) : MW (option Z) :=
  if decide (a.1 = "ssrc") then
    let array := ssrc_fields a.2 in
    name ← from_some PIndex (array !! 1%nat);
    if decide (name = "cname") then
      num ← from_some PIndex (array !! 0%nat);
      ssrc ← from_some PExplicit (atoi num);
      mret (Some ssrc)
    else mret None
  else mret None.

(** The attributes of a section: each ssrc found goes to the back of a
    list of the peer. *)
Definition push_ssrcs (p : nat) (push : (option (list Z) → option (list Z)) → peer → peer)
    (attrs : list (string * string)) : MW unit :=
  for_each attrs (λ a,
    o ← ssrc_attr a;
    match o with
    | Some ssrc => upd_peer p (push (fmap (λ l, l ++ [ssrc])))
    | None => skip
    end).

(** false: the error of Unmarshal. *)
Definition setSsrcFromSDP (p : nat) (sdp : string) : MW bool :=
  o ← desc_Unmarshal sdp;
  match o with
  | None => mret false
  | Some medias =>
      pr ← get_peer p;
      _ ← from_some PNilDeref (p_audiossrc pr);
      _ ← upd_peer p (set_p_audiossrc (λ _, Some []));
      _ ← from_some PNilDeref (p_videossrc pr);
      _ ← upd_peer p (set_p_videossrc (λ _, Some []));
      _ ← from_some PNilDeref (p_appssrc pr);
      _ ← upd_peer p (set_p_appssrc (λ _, Some []));
      _ ← for_each medias (λ value,
        if decide (m_name value = "audio") then
          push_ssrcs p set_p_audiossrc (m_attrs value)
        else if decide (m_name value = "video") then
          push_ssrcs p set_p_videossrc (m_attrs value)
        else if decide (m_name value = "Application") then
          push_ssrcs p set_p_appssrc (m_attrs value)
        else skip);
      mret true
  end.

(** ** Handlers of the signalling messages *)

Definition HandleSubscribe (p : nat) (j : jsonparser) : MW unit :=
  let userID := GetValue j LabelSessID in
  let remoteUserID := GetValue j LabelSrcSessID in
  let peerid := GetValue j LabelPeerID in
  medias ← publisher_media p;
  _ ← for_each medias (sub_media p);
  offer ← CreateOffer p;
  _ ← SetLocalDescription p "offer" offer;
  pr ← get_peer p;
  call_handler (p_onSendMessageHandler pr) userID
    (json_marshal [
      (LabelCmd, GStr CmdOffer);
      (LabelSessID, GStr userID);
      (LabelSrcSessID, GStr remoteUserID);
      (LabelPeerID, GStr peerid);
      (LabelSDP, GStr offer)]).

(** The offer is set, answered, and the candidates that came early are
    added. *)
Definition accept_offer (p : nat) (strSdp : string) : MW string :=
  let offer := json_reencode strSdp in
  ok ← setSsrcFromSDP p offer;
  _ ← must ok;
  _ ← SetRemoteDescription p "offer" offer;
  _ ← upd_peer p (set_p_remoteSdpReceived S);
  answer ← CreateAnswer p;
  _ ← SetLocalDescription p "answer" answer;
  _ ← SetCachedCandidates p;
  mret answer.

Definition HandleRemoteOffer (p : nat) (j : jsonparser) : MW unit :=
  let userID := GetValue j LabelSessID in
  let peerid := GetValue j LabelPeerID in
  let strSdp := GetValue j LabelSDP in
  answer ← accept_offer p strSdp;
  pr ← get_peer p;
  call_handler (p_onSendMessageHandler pr) userID
    (json_marshal [
      (LabelCmd, GStr CmdAnswer);
      (LabelSessID, GStr userID);
      (LabelPeerID, GStr peerid);
      (LabelSDP, GStr answer);
      (LabelCode, GInt 0)]).

Definition accept_answer (p : nat) (strsdp : string) : MW unit :=
  let answer := json_reencode strsdp in
  _ ← SetRemoteDescription p "answer" answer;
  _ ← upd_peer p (set_p_remoteSdpReceived S);
  SetCachedCandidates p.

Definition HandleRemoteAnswer (p : nat) (j : jsonparser) : MW unit :=
  let strsdp := GetValue j LabelSDP in
  accept_answer p strsdp.

(** p.parent.parent.roomid *)
Definition peer_roomid (p : nat) : MW string :=
  pr ← get_peer p;
  s ← get_sess (p_parent pr);
  r ← get_room (s_parent s);
  mret (r_roomid r).

Definition HandleFakeSubscribe (p : nat) (j : jsonparser) : MW unit :=
  let podid := GetValue j LabelPodId in
  let userID := GetValue j LabelSessID in
  let peerid := GetValue j LabelPeerID in
  medias ← publisher_media p;
  _ ← for_each medias (sub_media p);
  offer ← CreateOffer p;
  _ ← SetLocalDescription p "offer" offer;
  c ← gets w_conf;
  roomid ← peer_roomid p;
  PublishMessage2CrossClusterPod podid
    (json_marshal [
      (LabelCmd, GStr CmdFakeOffer);
      (LabelClusterId, GStr (Clusterid c));
      (LabelPodId, GStr (Uuid c));
      (LabelRoomId, GStr roomid);
      (LabelSessID, GStr userID);
      (LabelPeerID, GStr peerid);
      (LabelSDP, GStr offer)]).

Definition HandleFakeOffer (p : nat) (j : jsonparser) : MW unit :=
  let podid := GetValue j LabelPodId in
  let userID := GetValue j LabelSessID in
  let peerid := GetValue j LabelPeerID in
  let strSdp := GetValue j LabelSDP in
  answer ← accept_offer p strSdp;
  c ← gets w_conf;
  roomid ← peer_roomid p;
  PublishMessage2CrossClusterPod podid
    (json_marshal [
      (LabelCmd, GStr CmdFakeAnswer);
      (LabelClusterId, GStr (Clusterid c));
      (LabelPodId, GStr (Uuid c));
      (LabelRoomId, GStr roomid);
      (LabelSessID, GStr userID);
      (LabelSrcSessID, GStr userID);
      (LabelPeerID, GStr peerid);
      (LabelSDP, GStr answer)]).

Definition HandleFakeAnswer (p : nat) (j : jsonparser) : MW unit :=
  let strsdp := GetValue j LabelSDP in
  accept_answer p strsdp.

Definition peer_HandleMessage (p : nat) (j : jsonparser) : MW unit :=
  let command := GetValue j LabelCmd in
  if decide (command = CmdSub) then HandleSubscribe p j
  else if decide (command = CmdOffer) then HandleRemoteOffer p j
  else if decide (command = CmdAnswer) then HandleRemoteAnswer p j
  else if decide (command = CmdCandidate) then HandleRemoteCandidate p j
  else if decide (command = CmdFakeSubscribe) then HandleFakeSubscribe p j
  else if decide (command = CmdFakeOffer) then HandleFakeOffer p j
  else if decide (command = CmdFakeAnswer) then HandleFakeAnswer p j
  else if decide (command = CmdFakeCandidate) then HandleRemoteCandidate p j
  else skip.

(** ** ICE candidates of the server *)

Definition candidate_value (c : ICECandidateInit) : goval :=
  GStruct [
    ("candidate", GStr (ci_candidate c));
    ("sdpMid", from_option GStr GNil (ci_sdpMid c));
    ("sdpMLineIndex", from_option GInt GNil (ci_sdpMLineIndex c));
    ("usernameFragment", from_option GStr GNil (ci_usernameFragment c))].

Definition fCandiMsg (cmd clusterid podid roomid userid remoteUserid peerid : string)
    (isptype : Z) (candidate : ICECandidateInit) : goval :=
  GStruct [
    ("cmd", GStr cmd); ("clusterid", GStr clusterid); ("podid", GStr podid);
    ("roomid", GStr roomid); ("userid", GStr userid); ("remoteuserid", GStr remoteUserid);
    ("peerid", GStr peerid); ("isptype", GInt isptype);
    ("candidate", candidate_value candidate)].

Definition candiMsg (cmd userid remoteUserid peerid : string)
    (isptype : Z) (candidate : ICECandidateInit) : goval :=
  GStruct [
    ("cmd", GStr cmd); ("userid", GStr userid); ("remoteuserid", GStr remoteUserid);
    ("peerid", GStr peerid); ("isptype", GInt isptype);
    ("candidate", candidate_value candidate)].

(** What both OnICECandidate callbacks do first: nothing at the end of the
    gathering or for an address that is not the server's; otherwise the
    proxy's address replaces the candidate's. *)
Definition local_candidate (p : nat) (candi : option ICECandidate)
    : MW (option ICECandidateInit) :=
  match candi with
  | None => mret None
  | Some candi =>
      conf ← gets w_conf;
      if decide (Localaddr conf = ic_Address candi) then
        _ ← spawn (TCheckIceInfo p (ic_TCPType candi) (ic_Address candi) (ic_Port candi));
        let candi' :=
          if decide (Proxyaddr conf = "") then candi
          else MkCandidate (ic_Foundation candi) (ic_Priority candi) (Proxyaddr conf) (ic_Protocol candi)
                 (to_uint16 (Proxyport conf)) (ic_Typ candi) (ic_Component candi) (ic_RelatedAddress candi)
                 (ic_RelatedPort candi) (ic_TCPType candi) in
        mret (Some (ToJSON candi'))
      else mret None
  end.

Definition pub_OnICECandidate (p : nat) (candi : option ICECandidate) : MW unit :=
  c ← local_candidate p candi;
  match c with
  | None => skip
  | Some c =>
      pr ← get_peer p;
      if p_isFake pr then
        conf ← gets w_conf;
        roomid ← peer_roomid p;
        PublishMessage2CrossClusterPod (p_podid pr)
          (json_value (fCandiMsg CmdFakeCandidate (Clusterid conf) (Uuid conf) roomid
                         (p_userid pr) (p_userid pr) (p_peerid pr) 0 c))
      else
        call_handler (p_onSendMessageHandler pr) (p_userid pr)
          (json_value (candiMsg CmdCandidate (p_userid pr) "" (p_peerid pr) 0 c))
  end.

Definition sub_OnICECandidate (p : nat) (candi : option ICECandidate) : MW unit :=
  c ← local_candidate p candi;
  match c with
  | None => skip
  | Some c =>
      pr ← get_peer p;
      if p_isFake pr then
        conf ← gets w_conf;
        roomid ← peer_roomid p;
        PublishMessage2CrossClusterPod (p_podid pr)
          (json_value (fCandiMsg CmdFakeCandidate (Clusterid conf) (Uuid conf) roomid
                         (p_remoteuserid pr) (p_remoteuserid pr) (p_peerid pr) 0 c))
      else
        call_handler (p_onSendMessageHandler pr) (p_userid pr)
          (json_value (candiMsg CmdCandidate (p_userid pr) (p_remoteuserid pr)
                         (p_peerid pr) 0 c))
  end.

(** m.Attribute(key): the first attribute of that name. *)
Fixpoint media_attribute (attrs : list (string * string)) (key : string) : option string :=
  match attrs with
  | [] => None
  | (k, v) :: attrs => if decide (k = key) then Some v else media_attribute attrs key
  end.

(** The ice-ufrag of the first video section that has one. *)
Fixpoint video_ufrag (medias : list media) : string :=
  match medias with
  | [] => EmptyString
  | m :: medias =>
      if decide (m_name m = "video") then
        match media_attribute (m_attrs m) "ice-ufrag" with
        | Some ufrag => ufrag
        | None => video_ufrag medias
        end
      else video_ufrag medias
  end.

(** <-p.remoteSdpReceived waits for a goroutine that sends. *)
Definition CheckIceInfo (p : nat) (typ ip : string) (port : Z) : MW unit :=
  pr ← get_peer p;
  match p_remoteSdpReceived pr with
  | O => halt (HChan CRemoteSdp)
  | S n =>
      _ ← upd_peer p (set_p_remoteSdpReceived (λ _, n));
      lDesc ← pc_read p local_description;
      rDesc ← pc_read p remote_description;
      match lDesc, rDesc with
      | Some l, Some r =>
          ol ← desc_Unmarshal l;
          or ← desc_Unmarshal r;
          match ol, or with
          | Some lSdp, Some rSdp =>
              BroadcastMessage2Proxy (json_marshal [
                ("action", GStr "iceinfo");
                ("local_ice", GStr (video_ufrag lSdp));
                ("remote_ice", GStr (video_ufrag rSdp));
                ("protocol", GStr "udp");
                ("local_ip", GStr ip);
                ("local_port", GInt port)])
          | _, _ => halt PExplicit
          end
      | _, _ => skip
      end
  end.
End peer.
