(* ===== verification/Notify.v ===== *)
(** * Notifications: the notify... methods of roommgr, room and session

    Replies to clients go through the message handler (MQTT, one topic per
    user); notices to the load balancer and to the other clusters go through
    RabbitMQ. *)

From S2P Require Import Prelude GoLib Json Constants KeyframeFilter World Rmq.

(** The sessions of a room. *)
Definition room_sessions (r : nat) : MW (gmap string nat) :=
  x ← get_room r; mret (r_sessions x).

(** ** roommgr.go *)

Definition notifyServiceNotAvailable (cmd sid : string) : MW unit :=
  m ← gets w_mgr;
  call_handler (m_onSendMessageHandler m) sid (json_marshal [
    (LabelCmd, GStr cmd);
    (LabelSessID, GStr sid);
    (LabelCode, GInt CodeNotAvailable);
    (LabelDesc, GStr DescNotAvailable)]).

Definition roommgr_notifyNotLogin (command sid : string) : MW unit :=
  m ← gets w_mgr;
  call_handler (m_onSendMessageHandler m) sid (json_marshal [
    (LabelCmd, GStr command);
    (LabelSessID, GStr sid);
    (LabelCode, GInt CodeNotLogin);
    (LabelDesc, GStr DescNotLogin)]).

(** ** room.go *)

Definition room_notifyNotLogin (r : nat) (command sid : string) : MW unit :=
  x ← get_room r;
  call_handler (r_onSendMessageHandler x) sid (json_marshal [
    (LabelCmd, GStr command);
    (LabelSessID, GStr sid);
    (LabelCode, GInt CodeNotLogin);
    (LabelDesc, GStr DescNotLogin)]).

Definition notifyNotFoundPublishSession (r : nat) (command sid ssid : string) : MW unit :=
  x ← get_room r;
  call_handler (r_onSendMessageHandler x) sid (json_marshal [
    (LabelCmd, GStr command);
    (LabelSessID, GStr sid);
    (LabelCode, GInt CodeNotFoundPublishUser);
    (LabelDesc, GStr (DescNotFoundPublishUser +:+ ": " +:+ ssid))]).

Definition notifyLeaveRoom (r : nat) (sid : string) : MW unit :=
  c ← gets w_conf;
  x ← get_room r;
  n ← GetSn;
  t ← now_unix;
  PublishMessage2LB (json_marshal [
    (LabelCmd, GStr CmdPodLeaveRoom);
    (LabelClusterId, GStr (Clusterid c));
    (LabelPodId, GStr (Uuid c));
    (LabelRoomId, GStr (r_roomid x));
    (LabelSessID, GStr sid);
    (LabelSN, GInt n);
    (LabelTimestamp, GInt t)]).

(** ** session.go *)

Definition notifyNotFoundPublishPeer (s : nat) (command sid peerid : string) : MW unit :=
  x ← get_sess s;
  call_handler (s_onSendMessageHandler x) sid (json_marshal [
    (LabelCmd, GStr command);
    (LabelSessID, GStr sid);
    (LabelPeerID, GStr peerid);
    (LabelCode, GInt CodeNotFoundPublishPeer);
    (LabelDesc, GStr (DescNotFoundPublishPeer +:+ ": " +:+ s_userid x +:+ ":" +:+ peerid))]).

Definition notifyNotFoundSubscribePeer (s : nat) (command sid peerid : string) : MW unit :=
  x ← get_sess s;
  call_handler (s_onSendMessageHandler x) sid (json_marshal [
    (LabelCmd, GStr command);
    (LabelSessID, GStr sid);
    (LabelPeerID, GStr peerid);
    (LabelCode, GInt CodeNotFoundSubscribePeer);
    (LabelDesc, GStr (DescNotFoundSubscribePeer +:+ ": " +:+ s_userid x +:+ ":" +:+ peerid))]).

Definition notifyCreatePeerFailed (s : nat) (command sid peerid : string) : MW unit :=
  x ← get_sess s;
  call_handler (s_onSendMessageHandler x) sid (json_marshal [
    (LabelCmd, GStr command);
    (LabelSessID, GStr sid);
    (LabelPeerID, GStr peerid);
    (LabelCode, GInt CodeCreatePeerError);
    (LabelDesc, GStr (DescCreatePeerError +:+ ": " +:+ sid +:+ "<-" +:+ s_userid x
                        +:+ ":" +:+ peerid))]).

(** sess.parent.roomid *)
Definition sess_roomid (s : nat) : MW string :=
  x ← get_sess s; r ← get_room (s_parent x); mret (r_roomid r).

Definition notifyReleasePublish (s : nat) (pid : string) : MW unit :=
  c ← gets w_conf;
  x ← get_sess s;
  roomid ← sess_roomid s;
  n ← GetSn;
  t ← now_unix;
  PublishMessage2LB (json_marshal [
    (LabelCmd, GStr CmdPodReleasePublish);
    (LabelClusterId, GStr (Clusterid c));
    (LabelPodId, GStr (Uuid c));
    (LabelRoomId, GStr roomid);
    (LabelSessID, GStr (s_userid x));
    (LabelPeerID, GStr pid);
    (LabelSN, GInt n);
    (LabelTimestamp, GInt t)]).

(** ** Loops over the sessions of a room *)

Section notify.
Context `{GoRuntime}.

Definition notifyStopPush (r : nat) (origin : bool) (sid pid : string) : MW unit :=
  _ ← range_map (room_sessions r) (λ _ s,
    value ← get_sess s;
    if s_origin value then
      x ← get_room r;
      call_handler (r_onSendMessageHandler x) (s_userid value) (json_marshal [
        (LabelCmd, GStr CmdUnpub);
        (LabelRoomId, GStr (r_roomid x));
        (LabelSessID, GStr sid);
        (LabelPeerID, GStr pid)])
    else skip);
  if origin then
    c ← gets w_conf;
    x ← get_room r;
    BroadcastCrossClusterMessage (json_marshal [
      (LabelCmd, GStr CmdFakeUnpublish);
      (LabelClusterId, GStr (Clusterid c));
      (LabelPodId, GStr (Uuid c));
      (LabelRoomId, GStr (r_roomid x));
      (LabelSessID, GStr sid);
      (LabelPeerID, GStr pid)])
  else skip.
End notify.
