(* ===== verification/Session.v ===== *)
(** * Sessions: session.go

    A session is one user of a room: an original one, logged in on this pod, or
    a fake one, which stands for a user whose publisher lives on another pod.
    It owns the publishers of the user, keyed by peer id, and the subscribers
    of those publishers, keyed by the concatenation of the subscriber's id, the
    user's id and the peer id. *)

From S2P Require Import Prelude GoLib Json Constants KeyframeFilter MediaEngine World Rmq Peer Notify.

(** ** Access to the maps *)

Definition sess_pubs (s : nat) : MW (gmap string nat) :=
  x ← get_sess s; mret (s_publishers x).
Definition sess_subs (s : nat) : MW (gmap string nat) :=
  x ← get_sess s; mret (s_subscribers x).

Definition del_pub (s : nat) (k : string) : MW unit :=
  upd_sess s (set_s_publishers (delete k)).
Definition del_sub (s : nat) (k : string) : MW unit :=
  upd_sess s (set_s_subscribers (delete k)).
Definition put_pub (s : nat) (k : string) (p : nat) : MW unit :=
  upd_sess s (set_s_publishers <[k := p]>).
Definition put_sub (s : nat) (k : string) (p : nat) : MW unit :=
  upd_sess s (set_s_subscribers <[k := p]>).

(** ** Construction *)

Definition CreateSession (r : nat) (id name : string) (f : bool) : MW nat :=
  t ← now_unix;
  alloc_sess {|
    s_userid := id;
    s_username := name;
    s_clusterid := "";
    s_podid := "";
    s_origin := true;
    s_publishers := ∅;
    s_subscribers := ∅;
    s_onSendMessageHandler := f;
    s_exitSenders := 0;
    s_watchers := [];
    s_parent := r;
    s_alivetime := t;
  |}.

Definition SetFakeSession (s : nat) (clusterid podid : string) : MW unit :=
  _ ← upd_sess s (set_s_origin (λ _, false));
  _ ← upd_sess s (set_s_clusterid (λ _, clusterid));
  upd_sess s (set_s_podid (λ _, podid)).

Definition CheckKeepAlive (s : nat) : MW unit :=
  x ← get_sess s;
  if negb (s_origin x) then skip
  else
    t ← now_unix;
    if 60 <? t - s_alivetime x then spawn (TKickoutFromRoom (s_parent x) (s_userid x))
    else skip.

(** ** Cross-cluster subscription *)

(** go { exitChan <- 0 }; waitGroup.Wait(): each value ends one of the
    goroutines of FakeSubscribe; Wait returns when none is left. *)
Definition exit_and_wait (s : nat) : MW unit :=
  _ ← upd_sess s (set_s_exitSenders S);
  x ← get_sess s;
  let n := (s_exitSenders x `min` length (s_watchers x))%nat in
  _ ← upd_sess s (set_s_exitSenders (λ k, (k - n)%nat));
  _ ← upd_sess s (set_s_watchers (drop n));
  if decide (length (s_watchers x) <= s_exitSenders x)%nat then skip
  else halt (HChan CWaitSession).

Definition FakeSubscribe (s : nat) (sid pid : string) (curtime : Z) : MW unit :=
  c ← gets w_conf;
  x ← get_sess s;
  roomid ← sess_roomid s;
  _ ← PublishMessage2CrossClusterPod (s_podid x) (json_marshal [
        (LabelCmd, GStr CmdFakeSubscribe);
        (LabelClusterId, GStr (Clusterid c));
        (LabelPodId, GStr (Uuid c));
        (LabelRoomId, GStr roomid);
        (LabelSessID, GStr sid);
        (LabelSrcSessID, GStr sid);
        (LabelPeerID, GStr pid)]);
  t ← now_nano;
  upd_sess s (set_s_watchers (λ l,
    l ++ [MkWatcher sid pid curtime (TArmed (t + second * CLUSTER_RECONNECTION_INTERVAL))])).

Definition FakePublisherReConnect (s : nat) (sid pid : string) (curtime : Z) : MW unit :=
  x ← get_sess s;
  if s_origin x then skip
  else
    _ ← exit_and_wait s;
    FakeSubscribe s sid pid curtime.

(** A goroutine of FakeSubscribe receives from its timer. *)
Definition watcher_due (now : Z) (w : watcher) : bool :=
  match wt_timer w with
  | TArmed d => d <=? now
  | TExpired => false
  end.

Definition watcher_fire (s i : nat) : MW unit :=
  x ← get_sess s;
  match s_watchers x !! i with
  | None => skip
  | Some w =>
      ready ← match s_publishers x !! wt_pid w with
              | Some p => IsReady p
              | None => mret false
              end;
      if ready : bool then
        upd_sess s (set_s_watchers
          <[i := MkWatcher (wt_sid w) (wt_pid w) (wt_curtime w) TExpired]>)
      else if 0 <? wt_curtime w then
        let curtime := wt_curtime w - 1 in
        _ ← upd_sess s (set_s_watchers
              <[i := MkWatcher (wt_sid w) (wt_pid w) curtime TExpired]>);
        spawn (TFakePublisherReConnect s (wt_sid w) (wt_pid w) curtime)
      else
        upd_sess s (set_s_watchers
          <[i := MkWatcher (wt_sid w) (wt_pid w) (wt_curtime w) TExpired]>)
  end.

(** A goroutine of FakeSubscribe receives from exitChan and returns: a value
    sent when no goroutine was there waits for the next one. *)
Definition watcher_exit (s i : nat) : MW unit :=
  _ ← upd_sess s (set_s_exitSenders pred);
  upd_sess s (set_s_watchers (delete i)).

(** ** Release *)

Definition ReleaseSubscriberPeer (s : nat) (sid ssid pid : string) : MW unit :=
  _ ← Lock (LSubs s);
  subs ← sess_subs s;
  _ ← match subs !! (sid +:+ ssid +:+ pid) with
      | Some peer => _ ← Destroy peer; del_sub s (sid +:+ ssid +:+ pid)
      | None => skip
      end;
  Unlock (LSubs s).

Definition RequestPli (s : nat) (pid : string) : MW unit :=
  pubs ← sess_pubs s;
  match pubs !! pid with
  | Some peer => spawn (TRequestKeyframe peer)
  | None => skip
  end.

Section session.
Context `{GoRuntime, WebRTC, Amqp}.

(** if value.ShouldNotify() { sess.parent.notifyStopPush(...) } *)
Definition notify_if_needed (s value : nat) (pid : string) : MW unit :=
  b ← ShouldNotify value;
  if b : bool then
    x ← get_sess s;
    notifyStopPush (s_parent x) (s_origin x) (s_userid x) pid
  else skip.

Definition DoLeave (s : nat) : MW bool :=
  _ ← Lock (LPubs s);
  _ ← range_map (sess_pubs s) (λ _ value,
        pr ← get_peer value;
        _ ← notify_if_needed s value (p_peerid pr);
        Destroy value);
  _ ← upd_sess s (set_s_publishers (λ _, ∅));
  _ ← Unlock (LPubs s);
  _ ← Lock (LSubs s);
  _ ← range_map (sess_subs s) (λ _ value, Destroy value);
  _ ← upd_sess s (set_s_subscribers (λ _, ∅));
  _ ← Unlock (LSubs s);
  _ ← exit_and_wait s;
  x ← get_sess s;
  mret (s_origin x).

Definition ReleasePublisher (s : nat) (sid pid : string) : MW unit :=
  _ ← Lock (LPubs s);
  pubs ← sess_pubs s;
  _ ← match pubs !! pid with
      | Some peer =>
          _ ← notify_if_needed s peer pid;
          _ ← Destroy peer;
          del_pub s pid
      | None => skip
      end;
  _ ← Unlock (LPubs s);
  _ ← Lock (LSubs s);
  _ ← range_map (sess_subs s) (λ _ value,
        pr ← get_peer value;
        if decide (p_peerid pr = pid) then
          _ ← Destroy value;
          del_sub s (p_userid pr +:+ p_remoteuserid pr +:+ p_peerid pr)
        else skip);
  _ ← Unlock (LSubs s);
  notifyReleasePublish s pid.

Definition HandleSubscriberLeaved (s : nat) (sid : string) : MW unit :=
  _ ← RLock (LPubs s);
  lst ← range_collect (sess_pubs s) (λ _ value, pr ← get_peer value; mret (p_peerid pr));
  _ ← RUnlock (LPubs s);
  _ ← Lock (LSubs s);
  _ ← for_each lst (λ v,
        x ← get_sess s;
        let k := sid +:+ s_userid x +:+ v in
        match s_subscribers x !! k with
        | Some peer => _ ← Destroy peer; del_sub s k
        | None => skip
        end);
  Unlock (LSubs s).

(** ** Queries *)

(** hasPublisher: whether some publisher is ready, and which. *)
Definition first_ready (s : nat) : MW (option (string * string)) :=
  range_find (sess_pubs s) (λ _ publisher,
    ret ← IsReady publisher;
    if ret : bool then
      pr ← get_peer publisher; mret (Some (p_userid pr, p_peerid pr))
    else mret None).

Definition hasPublisher (s : nat) : MW (option (string * string)) :=
  _ ← RLock (LPubs s);
  r ← first_ready s;
  _ ← RUnlock (LPubs s);
  mret r.

Definition HasOriginPublisher (s : nat) : MW (option (string * string)) :=
  x ← get_sess s;
  if negb (s_origin x) then mret None
  else
    _ ← RLock (LPubs s);
    r ← first_ready s;
    _ ← RUnlock (LPubs s);
    mret r.

(** ** Messages *)

(** The replacement of a publisher, in CmdPush and in CmdFakeOffer. *)
Definition drop_publisher (s : nat) (peerid : string) : MW unit :=
  pubs ← sess_pubs s;
  match pubs !! peerid with
  | Some value =>
      _ ← Lock (LPubs s);
      _ ← notify_if_needed s value peerid;
      _ ← Destroy value;
      _ ← del_pub s peerid;
      Unlock (LPubs s)
  | None => skip
  end.

Definition session_push (s : nat) (userID peerid : string) : MW unit :=
  _ ← drop_publisher s peerid;
  peer ← CreatePublishPeer s userID peerid "" false;
  match peer with
  | None => skip
  | Some peer =>
      x ← get_sess s;
      _ ← peer_SetSendMessageHandler peer (s_onSendMessageHandler x);
      _ ← Lock (LPubs s);
      _ ← put_pub s peerid peer;
      _ ← Unlock (LPubs s);
      call_handler (s_onSendMessageHandler x) userID (json_marshal [
        (LabelCmd, GStr CmdPush);
        (LabelSessID, GStr userID);
        (LabelPeerID, GStr peerid);
        (LabelCode, GInt 0)])
  end.

(** The mutex taken by Lock is released by RUnlock. *)
Definition session_stoppush (s : nat) (userID peerid : string) : MW unit :=
  pubs ← sess_pubs s;
  match pubs !! peerid with
  | Some value =>
      _ ← Lock (LPubs s);
      _ ← notify_if_needed s value peerid;
      _ ← Destroy value;
      _ ← del_pub s peerid;
      _ ← RUnlock (LPubs s);
      x ← get_sess s;
      _ ← call_handler (s_onSendMessageHandler x) userID (json_marshal [
            (LabelCmd, GStr CmdStopPush);
            (LabelSessID, GStr userID);
            (LabelPeerID, GStr peerid);
            (LabelCode, GInt 0)]);
      notifyReleasePublish s peerid
  | None => skip
  end.

(** sess.publishers[peerid]: its current local description and its codecs,
    under the read lock. *)
Definition publisher_info (s value : nat)
    : MW (option string * RTPCodecParameters * RTPCodecParameters) :=
  _ ← RLock (LPubs s);
  sdp ← pc_read value current_local;
  acodec ← GetAudioCodec value;
  vcodec ← GetVideoCodec value;
  _ ← RUnlock (LPubs s);
  mret (sdp, acodec, vcodec).

Definition drop_subscriber (s : nat) (k : string) : MW unit :=
  subs ← sess_subs s;
  match subs !! k with
  | Some value =>
      _ ← Lock (LSubs s);
      _ ← Destroy value;
      _ ← del_sub s k;
      Unlock (LSubs s)
  | None => skip
  end.

Definition session_sub (s : nat) (j : jsonparser) (command userID remoteUserID peerid : string)
    : MW unit :=
  pubs ← sess_pubs s;
  match pubs !! peerid with
  | None => notifyNotFoundPublishPeer s command userID peerid
  | Some value =>
      '(sdp, acodec, vcodec) ← publisher_info s value;
      let k := userID +:+ remoteUserID +:+ peerid in
      _ ← drop_subscriber s k;
      peer ← CreateSubscribePeer s userID remoteUserID peerid "" sdp acodec vcodec false;
      match peer with
      | None => notifyCreatePeerFailed s command userID peerid
      | Some peer =>
          x ← get_sess s;
          _ ← peer_SetSendMessageHandler peer (s_onSendMessageHandler x);
          _ ← Lock (LSubs s);
          _ ← put_sub s k peer;
          _ ← Unlock (LSubs s);
          peer_HandleMessage peer j
      end
  end.

Definition session_stopsub (s : nat) (userID remoteUserID peerid : string) : MW unit :=
  _ ← RLock (LSubs s);
  subs ← sess_subs s;
  _ ← match subs !! (userID +:+ remoteUserID +:+ peerid) with
      | Some _ => spawn (TReleaseSubscriberPeer s userID remoteUserID peerid)
      | None => skip
      end;
  RUnlock (LSubs s).

Definition session_offer (s : nat) (j : jsonparser) (command userID peerid : string) : MW unit :=
  _ ← RLock (LSubs s);
  pubs ← sess_pubs s;
  _ ← match pubs !! peerid with
      | Some peer => peer_HandleMessage peer j
      | None => notifyNotFoundPublishPeer s command userID peerid
      end;
  RUnlock (LSubs s).

Definition session_answer (s : nat) (j : jsonparser)
    (command userID remoteUserID peerid : string) : MW unit :=
  _ ← RLock (LSubs s);
  subs ← sess_subs s;
  _ ← match subs !! (userID +:+ remoteUserID +:+ peerid) with
      | Some peer => peer_HandleMessage peer j
      | None => notifyNotFoundSubscribePeer s command userID peerid
      end;
  RUnlock (LSubs s).

Definition session_roomcreated (s : nat) (j : jsonparser) : MW unit :=
  let clusterid := GetValue j LabelClusterId in
  let podid := GetValue j LabelPodId in
  range_map (sess_pubs s) (λ _ peer,
    c ← gets w_conf;
    x ← get_sess s;
    roomid ← sess_roomid s;
    pr ← get_peer peer;
    let msg := json_marshal [
      (LabelCmd, GStr CmdFakePublish);
      (LabelClusterId, GStr (Clusterid c));
      (LabelPodId, GStr (Uuid c));
      (LabelRoomId, GStr roomid);
      (LabelSessID, GStr (p_userid pr));
      (LabelPeerID, GStr (p_peerid pr));
      (LabelUserName, GStr (s_username x))] in
    if decide (s_clusterid x = clusterid) then PublishMessage2Pod podid msg
    else PublishMessage2CrossClusterPod podid msg).

Definition session_fakesubscribe (s : nat) (j : jsonparser) (remoteUserID peerid : string)
    : MW unit :=
  let podid := GetValue j LabelPodId in
  pubs ← sess_pubs s;
  match pubs !! peerid with
  | None => skip
  | Some value =>
      '(sdp, acodec, vcodec) ← publisher_info s value;
      let k := podid +:+ remoteUserID +:+ peerid in
      _ ← drop_subscriber s k;
      peer ← CreateSubscribePeer s podid remoteUserID peerid podid sdp acodec vcodec true;
      match peer with
      | None => skip
      | Some peer =>
          x ← get_sess s;
          _ ← peer_SetSendMessageHandler peer (s_onSendMessageHandler x);
          _ ← Lock (LSubs s);
          _ ← put_sub s k peer;
          _ ← Unlock (LSubs s);
          peer_HandleMessage peer j
      end
  end.

Definition session_fakeoffer (s : nat) (j : jsonparser) (userID peerid : string) : MW unit :=
  let podid := GetValue j LabelPodId in
  _ ← drop_publisher s peerid;
  peer ← CreatePublishPeer s userID peerid podid true;
  match peer with
  | None => skip
  | Some peer =>
      x ← get_sess s;
      _ ← peer_SetSendMessageHandler peer (s_onSendMessageHandler x);
      _ ← Lock (LPubs s);
      _ ← put_pub s peerid peer;
      _ ← Unlock (LPubs s);
      peer_HandleMessage peer j
  end.

Definition session_fakeanswer (s : nat) (j : jsonparser) (remoteUserID peerid : string)
    : MW unit :=
  let podid := GetValue j LabelPodId in
  _ ← RLock (LSubs s);
  subs ← sess_subs s;
  _ ← match subs !! (podid +:+ remoteUserID +:+ peerid) with
      | Some peer => peer_HandleMessage peer j
      | None => skip
      end;
  RUnlock (LSubs s).

Definition session_fakecandidate (s : nat) (j : jsonparser) (remoteUserID peerid : string)
    : MW unit :=
  x ← get_sess s;
  if negb (s_origin x) then skip
  else session_fakeanswer s j remoteUserID peerid.

(** The branch of CmdCandidate is commented out in the source. *)
Definition session_HandleMessage (s : nat) (j : jsonparser) : MW unit :=
  let command := GetValue j LabelCmd in
  let userID := GetValue j LabelSessID in
  let remoteUserID := GetValue j LabelSrcSessID in
  let peerid := GetValue j LabelPeerID in
  if decide (command = CmdHeartbeat) then
    t ← now_unix; upd_sess s (set_s_alivetime (λ _, t))
  else if decide (command = CmdPush) then session_push s userID peerid
  else if decide (command = CmdStopPush) then session_stoppush s userID peerid
  else if decide (command = CmdSub) then
    session_sub s j command userID remoteUserID peerid
  else if decide (command = CmdStopSub) then session_stopsub s userID remoteUserID peerid
  else if decide (command = CmdOffer) then session_offer s j command userID peerid
  else if decide (command = CmdAnswer) then
    session_answer s j command userID remoteUserID peerid
  else if decide (command = CmdCandidate) then skip
  else if decide (command = CmdRoomCreated) then session_roomcreated s j
  else if decide (command = CmdFakePublish) then
    FakeSubscribe s userID peerid CLUSTER_RECONNECTION_MAXTIMES
  else if decide (command = CmdFakeSubscribe) then
    session_fakesubscribe s j remoteUserID peerid
  else if decide (command = CmdFakeOffer) then session_fakeoffer s j userID peerid
  else if decide (command = CmdFakeAnswer) then session_fakeanswer s j remoteUserID peerid
  else if decide (command = CmdFakeCandidate) then
    session_fakecandidate s j remoteUserID peerid
  else skip.

(** ** Events of the peers' connections *)

Definition OnIceReady (s : nat) (role : Z) (sid ssid pid : string) : MW unit :=
  if role =? 1 then
    _ ← RLock (LPubs s);
    pubs ← sess_pubs s;
    _ ← match pubs !! pid with
        | Some _ =>
            x ← get_sess s;
            _ ← spawn (TOnPublisherReady (s_parent x) sid (s_username x) pid);
            if s_origin x then
              c ← gets w_conf;
              roomid ← sess_roomid s;
              BroadcastCrossClusterMessage (json_marshal [
                (LabelCmd, GStr CmdFakePublish);
                (LabelClusterId, GStr (Clusterid c));
                (LabelPodId, GStr (Uuid c));
                (LabelRoomId, GStr roomid);
                (LabelSessID, GStr sid);
                (LabelPeerID, GStr pid);
                (LabelUserName, GStr (s_username x))])
            else skip
        | None => skip
        end;
    RUnlock (LPubs s)
  else if role =? 2 then
    pubs ← sess_pubs s;
    match pubs !! pid with
    | Some peer => spawn (TRequestKeyframe peer)
    | None => skip
    end
  else skip.

Definition OnIceDisconnected (s : nat) (role : Z) (sid ssid pid : string) : MW unit :=
  if role =? 1 then
    _ ← RLock (LPubs s);
    pubs ← sess_pubs s;
    _ ← match pubs !! pid with
        | Some value => notify_if_needed s value pid
        | None => skip
        end;
    RUnlock (LPubs s)
  else if role =? 2 then
    _ ← RLock (LSubs s);
    x ← get_sess s;
    _ ← match s_subscribers x !! pid with
        | Some _ => spawn (TOnSubscriberPeerDisconnected (s_parent x) sid ssid pid)
        | None => skip
        end;
    RUnlock (LSubs s)
  else skip.

Definition OnIceFailed (s : nat) (role : Z) (sid ssid pid : string) : MW unit :=
  if role =? 1 then
    _ ← RLock (LPubs s);
    x ← get_sess s;
    _ ← match s_publishers x !! pid with
        | Some _ => spawn (TOnPublisherPeerFailed (s_parent x) sid pid)
        | None => skip
        end;
    _ ← RUnlock (LPubs s);
    if negb (s_origin x) then FakePublisherReConnect s sid pid CLUSTER_RECONNECTION_MAXTIMES
    else skip
  else if role =? 2 then
    _ ← RLock (LSubs s);
    x ← get_sess s;
    _ ← match s_subscribers x !! pid with
        | Some _ => spawn (TOnSubscriberPeerFailed (s_parent x) sid ssid pid)
        | None => skip
        end;
    RUnlock (LSubs s)
  else skip.

Definition OnIceClosed (s : nat) (role : Z) (sid ssid pid : string) : MW unit :=
  if role =? 1 then
    _ ← RLock (LPubs s);
    x ← get_sess s;
    _ ← match s_publishers x !! pid with
        | Some _ => spawn (TOnPublisherPeerClosed (s_parent x) sid pid)
        | None => skip
        end;
    RUnlock (LPubs s)
  else if role =? 2 then
    _ ← RLock (LSubs s);
    x ← get_sess s;
    _ ← match s_subscribers x !! pid with
        | Some _ => spawn (TOnSubscriberPeerClosed (s_parent x) sid ssid pid)
        | None => skip
        end;
    RUnlock (LSubs s)
  else skip.

(** ** Codecs and data *)

Definition UpdateAudioCodec (s : nat) (codec : RTPCodecParameters) : MW unit :=
  _ ← RLock (LSubs s);
  _ ← range_map (sess_subs s) (λ _ sub, SetAudioCodec sub codec);
  RUnlock (LSubs s).

Definition UpdateVideoCodec (s : nat) (codec : RTPCodecParameters) : MW unit :=
  _ ← RLock (LSubs s);
  _ ← range_map (sess_subs s) (λ _ sub, SetVideoCodec sub codec);
  RUnlock (LSubs s).

Definition OnReceivedAudioData (s : nat) (buff : string) (len : Z) (peerid : string) : MW unit :=
  _ ← RLock (LSubs s);
  _ ← range_map (sess_subs s) (λ key value,
        if str_contains key peerid then deliverAudioData value buff len else skip);
  RUnlock (LSubs s).

Definition OnReceivedVideoData (s : nat) (buff : string) (len : Z) (peerid : string) : MW unit :=
  _ ← RLock (LSubs s);
  _ ← range_map (sess_subs s) (λ key value,
        if str_contains key peerid then deliverVideoData value buff len else skip);
  RUnlock (LSubs s).

Definition broadcast_to (fromSid fromPid buff : string) (len : Z) (value : nat) : MW unit :=
  pr ← get_peer value;
  if bool_decide (p_userid pr ≠ fromSid) || bool_decide (p_peerid pr ≠ fromPid)
  then deliverAppData value buff len else skip.

Definition BroadcastAppData (s : nat) (fromSid fromPid buff : string) (len : Z) : MW unit :=
  _ ← RLock (LPubs s);
  _ ← range_map (sess_pubs s) (λ _ value, broadcast_to fromSid fromPid buff len value);
  _ ← RUnlock (LPubs s);
  _ ← RLock (LSubs s);
  _ ← range_map (sess_subs s) (λ _ value, broadcast_to fromSid fromPid buff len value);
  RUnlock (LSubs s).
End session.
