(* ===== verification/Room.v ===== *)
(** * Rooms: room.go

    A room holds the sessions of its users and routes the signalling messages
    to them. *)

From S2P Require Import Prelude GoLib Json Constants KeyframeFilter World Rmq Peer Notify Session.

Definition CreateRoom (id : string) : MW nat :=
  alloc_room {| r_roomid := id; r_sessions := ∅; r_onSendMessageHandler := false |}.

Definition room_SetSendMessageHandler (r : nat) (f : bool) : MW unit :=
  upd_room r (set_r_onSendMessageHandler (λ _, f)).

Definition del_session (r : nat) (k : string) : MW unit :=
  upd_room r (set_r_sessions (delete k)).
Definition put_session (r : nat) (k : string) (s : nat) : MW unit :=
  upd_room r (set_r_sessions <[k := s]>).

(** A fixed string. *)
Definition GetUsedResourceInformation : string :=
  "{['roomid': '111','rs': 73],['roomid': '222','rs': 73],['roomid': '333','rs': 73]}".

(** Two empty methods. *)
Definition OnPublisherPeerDisconnected (r : nat) (sid pid : string) : MW unit := skip.
Definition OnSubscriberPeerDisconnected (r : nat) (sid ssid pid : string) : MW unit := skip.

Section room.
Context `{GoRuntime, WebRTC, Amqp}.

Definition DestroyRoom (r : nat) : MW unit :=
  _ ← Lock (LSessions r);
  _ ← range_map (room_sessions r) (λ _ value, _ ← DoLeave value; skip);
  _ ← upd_room r (set_r_sessions (λ _, ∅));
  Unlock (LSessions r).

Definition hasOriginSession (r : nat) : MW bool :=
  _ ← RLock (LSessions r);
  ret ← range_find (room_sessions r) (λ _ sess,
          x ← get_sess sess; mret (if s_origin x then Some tt else None));
  _ ← RUnlock (LSessions r);
  mret (match ret with Some _ => true | None => false end).

Definition KickoutFromRoom (r : nat) (sid : string) : MW unit :=
  _ ← Lock (LSessions r);
  sessions ← room_sessions r;
  _ ← match sessions !! sid with
      | Some sess =>
          isOrigin ← DoLeave sess;
          x ← get_sess sess;
          _ ← del_session r (s_userid x);
          if isOrigin : bool then notifyLeaveRoom r sid else skip
      | None => skip
      end;
  _ ← Unlock (LSessions r);
  _ ← RLock (LSessions r);
  _ ← range_map (room_sessions r) (λ _ sess, spawn (THandleSubscriberLeaved sess sid));
  _ ← RUnlock (LSessions r);
  origin ← hasOriginSession r;
  if negb origin then x ← get_room r; spawn (TReleaseRoom (r_roomid x)) else skip.

Definition OnPublisherReady (r : nat) (sid name pid : string) : MW unit :=
  range_map (room_sessions r) (λ _ s,
    value ← get_sess s;
    if negb (s_origin value) then skip
    else
      x ← get_room r;
      call_handler (r_onSendMessageHandler x) (s_userid value) (json_marshal [
        (LabelCmd, GStr CmdPub);
        (LabelRoomId, GStr (r_roomid x));
        (LabelSessID, GStr sid);
        (LabelUserName, GStr name);
        (LabelPeerID, GStr pid)])).

Definition OnPublisherPeerFailed (r : nat) (sid pid : string) : MW unit :=
  sessions ← room_sessions r;
  match sessions !! sid with
  | Some sess => ReleasePublisher sess sid pid
  | None => skip
  end.

Definition OnPublisherPeerClosed (r : nat) (sid pid : string) : MW unit :=
  sessions ← room_sessions r;
  match sessions !! sid with
  | Some sess => ReleasePublisher sess sid pid
  | None => skip
  end.

Definition OnSubscriberPeerFailed (r : nat) (sid ssid pid : string) : MW unit :=
  sessions ← room_sessions r;
  match sessions !! ssid with
  | Some sess => ReleaseSubscriberPeer sess sid ssid pid
  | None => skip
  end.

Definition OnSubscriberPeerClosed (r : nat) (sid ssid pid : string) : MW unit :=
  sessions ← room_sessions r;
  match sessions !! ssid with
  | Some sess => ReleaseSubscriberPeer sess sid ssid pid
  | None => skip
  end.

Definition OnCheckKeepalive (r : nat) : MW unit :=
  _ ← RLock (LSessions r);
  _ ← range_map (room_sessions r) (λ _ sess, spawn (TCheckKeepAlive sess));
  RUnlock (LSessions r).

Definition room_OnReceivedAppData (r : nat) (fromSid fromPid buff : string) (len : Z)
    : MW unit :=
  _ ← RLock (LSessions r);
  _ ← range_map (room_sessions r) (λ _ s, BroadcastAppData s fromSid fromPid buff len);
  RUnlock (LSessions r).

(** session.go: sess.OnReceivedAppData *)
Definition session_OnReceivedAppData (s : nat) (fromSid fromPid buff : string) (len : Z)
    : MW unit :=
  x ← get_sess s;
  room_OnReceivedAppData (s_parent x) fromSid fromPid buff len.

(** ** Messages *)

(** An existing session of the same user leaves first (CmdLogin and
    CmdFakePublish). *)
Definition leave_previous (r : nat) (userID : string) : MW unit :=
  sessions ← room_sessions r;
  match sessions !! userID with
  | Some old =>
      _ ← Lock (LSessions r);
      _ ← DoLeave old;
      _ ← del_session r userID;
      Unlock (LSessions r)
  | None => skip
  end.

Definition room_login (r : nat) (j : jsonparser) (userID : string) : MW unit :=
  let userName := GetValue j LabelUserName in
  _ ← leave_previous r userID;
  x ← get_room r;
  sess ← CreateSession r userID userName (r_onSendMessageHandler x);
  _ ← Lock (LSessions r);
  _ ← put_session r userID sess;
  _ ← Unlock (LSessions r);
  _ ← call_handler (r_onSendMessageHandler x) userID (json_marshal [
        (LabelCmd, GStr CmdLogin);
        (LabelSessID, GStr userID);
        (LabelCode, GInt 0)]);
  range_map (room_sessions r) (λ _ value,
    o ← hasPublisher value;
    match o with
    | Some (sid, pid) =>
        v ← get_sess value;
        call_handler (r_onSendMessageHandler x) userID (json_marshal [
          (LabelCmd, GStr CmdPub);
          (LabelRoomId, GStr (r_roomid x));
          (LabelSessID, GStr sid);
          (LabelUserName, GStr (s_username v));
          (LabelPeerID, GStr pid)])
    | None => skip
    end).

(** To the session of a user, or an error reply. *)
Definition forward_or (r : nat) (user : string) (j : jsonparser) (otherwise : MW unit)
    : MW unit :=
  sessions ← room_sessions r;
  match sessions !! user with
  | Some sess => session_HandleMessage sess j
  | None => otherwise
  end.

Definition room_roomcreated (r : nat) (j : jsonparser) : MW unit :=
  let userid := GetValue j LabelSessID in
  range_map (room_sessions r) (λ _ sess,
    o ← HasOriginPublisher sess;
    match o with
    | Some _ =>
        x ← get_sess sess;
        if decide (userid ≠ s_userid x) then session_HandleMessage sess j else skip
    | None => skip
    end).

Definition room_fakepublish (r : nat) (j : jsonparser) (userID : string) : MW unit :=
  let clusterid := GetValue j LabelClusterId in
  let podid := GetValue j LabelPodId in
  let userName := GetValue j LabelUserName in
  _ ← leave_previous r userID;
  origin ← hasOriginSession r;
  if negb origin then x ← get_room r; spawn (TReleaseRoom (r_roomid x))
  else
    x ← get_room r;
    sess ← CreateSession r userID userName (r_onSendMessageHandler x);
    _ ← SetFakeSession sess clusterid podid;
    _ ← Lock (LSessions r);
    _ ← put_session r userID sess;
    _ ← Unlock (LSessions r);
    session_HandleMessage sess j.

Definition room_fakeunpublish (r : nat) (j : jsonparser) (userID : string) : MW unit :=
  let podid := GetValue j LabelPodId in
  _ ← Lock (LSessions r);
  sessions ← room_sessions r;
  _ ← match sessions !! userID with
      | Some value =>
          x ← get_sess value;
          if decide (s_podid x = podid) then
            _ ← DoLeave value;
            del_session r userID
          else skip
      | None => skip
      end;
  Unlock (LSessions r).

Definition room_HandleMessage (r : nat) (j : jsonparser) : MW unit :=
  let command := GetValue j LabelCmd in
  let userID := GetValue j LabelSessID in
  if decide (command = CmdLogin) then room_login r j userID
  else if decide (command = CmdHeartbeat) then
    forward_or r userID j (room_notifyNotLogin r command userID)
  else if decide (command = CmdLogout) then KickoutFromRoom r userID
  else if decide (command = CmdPush ∨ command = CmdOffer ∨ command = CmdStopPush) then
    forward_or r userID j (room_notifyNotLogin r command userID)
  else if decide (command = CmdSub ∨ command = CmdStopSub ∨ command = CmdAnswer) then
    let remoteUserID := GetValue j LabelSrcSessID in
    forward_or r remoteUserID j
      (notifyNotFoundPublishSession r command userID remoteUserID)
  else if decide (command = CmdCandidate) then
    let remoteUserID := GetValue j LabelSrcSessID in
    let userID := if decide (remoteUserID = "") then userID else remoteUserID in
    forward_or r userID j skip
  else if decide (command = CmdRoomCreated) then room_roomcreated r j
  else if decide (command = CmdFakePublish) then room_fakepublish r j userID
  else if decide (command = CmdFakeUnpublish) then room_fakeunpublish r j userID
  else if decide (command = CmdFakeSubscribe) then
    let remoteUserID := GetValue j LabelSrcSessID in
    forward_or r remoteUserID j skip
  else if decide (command = CmdFakeOffer ∨ command = CmdFakeAnswer
                  ∨ command = CmdFakeCandidate) then
    forward_or r userID j skip
  else skip.
End room.
