(* ===== verification/RoomMgr.v ===== *)
(** * The room manager: roommgr.go

    The room manager receives every message of the MQTT and RabbitMQ clients,
    creates and releases rooms, and registers the pod with the load balancer.
    Until the registration succeeds every client message is refused. *)

From S2P Require Import Prelude GoLib Json Constants KeyframeFilter World Rmq Peer Notify Session.
From S2P Require Import Room.

Definition CreateRoomMgr : roommgr :=
  {| m_rooms := ∅; m_regist := false; m_registrars := 0; m_onSendMessageHandler := false |}.

Definition mgr_rooms : MW (gmap string nat) := gets (λ w, m_rooms (w_mgr w)).

(** go rm.StartRegistToLB() *)
Definition go_StartRegistToLB : MW unit := upd_mgr (set_m_registrars S).

(** One tick of a goroutine running StartRegistToLB: it returns once the pod
    is registered. *)
Definition StartRegistToLB_tick : MW unit :=
  m ← gets w_mgr;
  if m_regist m then upd_mgr (set_m_registrars pred)
  else
    c ← gets w_conf;
    n ← GetSn;
    t ← now_unix;
    PublishMessage2LB (json_marshal [
      (LabelCmd, GStr CmdPodRegist);
      (LabelClusterId, GStr (Clusterid c));
      (LabelPodId, GStr (Uuid c));
      (LabelResource, GInt (Maxpull c));
      (LabelSN, GInt n);
      (LabelTimestamp, GInt t)]).

(** rm.stopRegist <- 0 needs a goroutine in StartRegistToLB, which returns. *)
Definition send_stopRegist : MW unit :=
  m ← gets w_mgr;
  match m_registrars m with
  | O => halt (HChan CStopRegist)
  | S n => upd_mgr (set_m_registrars (λ _, n))
  end.

(** The answer of the load balancer (CmdPodRegist), in both states. *)
Definition handle_pod_regist (m : jsonparser) : MW unit :=
  code ← GetIntValue m LabelCode;
  if dec_is_zero code then
    let clusterid := GetValue m LabelClusterId in
    c ← gets w_conf;
    if decide (clusterid ≠ "") then
      _ ← modify (set_w_conf (set_Clusterid (λ _, clusterid)));
      _ ← upd_mgr (set_m_regist (λ _, true));
      send_stopRegist
    else if decide (Clusterid c = "") then skip
    else
      _ ← upd_mgr (set_m_regist (λ _, true));
      send_stopRegist
  else skip.

(** CmdPodRegistNow, in both states. *)
Definition handle_regist_now : MW unit :=
  m ← gets w_mgr;
  if m_regist m then
    _ ← upd_mgr (set_m_regist (λ _, false));
    go_StartRegistToLB
  else skip.

Section roommgr.
Context `{GoRuntime, WebRTC, Amqp}.

Definition ReleaseRoom (rid : string) : MW unit :=
  _ ← Lock LRooms;
  rooms ← mgr_rooms;
  _ ← match rooms !! rid with
      | Some r =>
          _ ← DestroyRoom r;
          upd_mgr (set_m_rooms (delete rid))
      | None => skip
      end;
  Unlock LRooms.

(** The room of a login is created if it is missing, and announced to the
    other clusters. *)
Definition create_room_for (m : jsonparser) (roomid : string) : MW unit :=
  r ← CreateRoom roomid;
  mgr ← gets w_mgr;
  _ ← room_SetSendMessageHandler r (m_onSendMessageHandler mgr);
  _ ← Lock LRooms;
  _ ← upd_mgr (set_m_rooms <[roomid := r]>);
  _ ← Unlock LRooms;
  let userid := GetValue m LabelSessID in
  c ← gets w_conf;
  n ← GetSn;
  t ← now_unix;
  BroadcastCrossClusterMessage (json_marshal [
    (LabelCmd, GStr CmdRoomCreated);
    (LabelClusterId, GStr (Clusterid c));
    (LabelPodId, GStr (Uuid c));
    (LabelRoomId, GStr roomid);
    (LabelSessID, GStr userid);
    (LabelSN, GInt n);
    (LabelTimestamp, GInt t)]).

Definition roommgr_login (m : jsonparser) (roomid : string) : MW unit :=
  rooms ← mgr_rooms;
  _ ← match rooms !! roomid with
      | Some _ => skip
      | None => create_room_for m roomid
      end;
  _ ← RLock LRooms;
  rooms ← mgr_rooms;
  _ ← RUnlock LRooms;
  r ← from_some PNilDeref (rooms !! roomid);
  room_HandleMessage r m.

(** To the room of a message, if there is one. *)
Definition to_room (m : jsonparser) (roomid : string) (otherwise : MW unit) : MW unit :=
  rooms ← mgr_rooms;
  match rooms !! roomid with
  | Some r => room_HandleMessage r m
  | None => otherwise
  end.

Definition client_command (command : string) : bool :=
  bool_decide (command = CmdHeartbeat ∨ command = CmdLogout ∨ command = CmdPush ∨
    command = CmdStopPush ∨ command = CmdSub ∨ command = CmdStopSub ∨
    command = CmdOffer ∨ command = CmdAnswer ∨ command = CmdCandidate).

(** The body of HandleMessage, on the fields of the message. *)
Definition handle_fields (m : jsonparser) : MW unit :=
  let command := GetValue m LabelCmd in
  let roomid := GetValue m LabelRoomId in
  mgr ← gets w_mgr;
  if negb (m_regist mgr) then
    if decide (command = CmdPodRegist) then handle_pod_regist m
    else if decide (command = CmdPodRegistNow) then handle_regist_now
    else notifyServiceNotAvailable command (GetValue m LabelSessID)
  else if decide (command = CmdLogin) then roommgr_login m roomid
  else if client_command command then
    to_room m roomid (roommgr_notifyNotLogin command (GetValue m LabelSessID))
  else if decide (command = CmdPodRegist) then handle_pod_regist m
  else if decide (command = CmdPodRegistNow) then handle_regist_now
  else if decide (command = CmdRoomCreated ∨ command = CmdFakePublish
                  ∨ command = CmdFakeUnpublish) then
    let podid := GetValue m LabelPodId in
    c ← gets w_conf;
    if decide (podid ≠ Uuid c) then to_room m roomid skip else skip
  else if decide (command = CmdFakeSubscribe ∨ command = CmdFakeOffer
                  ∨ command = CmdFakeAnswer ∨ command = CmdFakeCandidate) then
    to_room m roomid skip
  else skip.

(** A message that is not a JSON object is printed and then handled as a nil
    map. *)
Definition roommgr_HandleMessage (msg : string) : MW unit :=
  handle_fields (default ∅ (CreateJSONParser msg)).

(** The two tickers SetSendMessageHandler starts: a keep-alive check of every
    room each 20 s, and one that calls GetUsedResourceInformation and drops
    the result. *)
Definition keepalive_tick : MW unit :=
  _ ← RLock LRooms;
  _ ← range_map mgr_rooms (λ _ r, OnCheckKeepalive r);
  RUnlock LRooms.

Definition resource_tick : MW unit :=
  _ ← RLock LRooms;
  _ ← range_map mgr_rooms (λ _ r, let _ := GetUsedResourceInformation in skip);
  RUnlock LRooms.

Definition roommgr_SetSendMessageHandler : MW unit :=
  _ ← upd_mgr (set_m_onSendMessageHandler (λ _, true));
  c ← gets w_conf;
  if decide (string_len (MqttTopic c) = 36%nat) then go_StartRegistToLB
  else upd_mgr (set_m_regist (λ _, true)).
End roommgr.
