(* ===== verification/Callbacks.v ===== *)
(** * Callbacks of the connections: the closures peer.go installs

    CreatePublishPeer, CreateSubscribePeer and the subscription handlers
    register closures with the WebRTC library; the library calls them when a
    track or a data channel arrives, a packet or a message is received, or the
    ICE state changes. *)

From S2P Require Import Prelude GoLib Json Constants KeyframeFilter MediaEngine World Rmq Peer Notify Session.
From S2P Require Import Room.

(** The RTCP packets a subscriber's sender reads. *)
Inductive rtcp_packet := PictureLossIndication | SliceLossIndication | FullIntraRequest | OtherRTCP.

Section callbacks.
Context `{GoRuntime, WebRTC, Amqp}.

(** ** Publisher *)

(** OnTrack: an audio or video track announced in the description starts a
    reader; others are ignored. *)
Definition pub_OnTrack (p : nat) (ssrc : Z) (codec : RTPCodecParameters) : MW unit :=
  pr ← get_peer p;
  audio ← isAudioSsrc p ssrc;
  if audio : bool then
    _ ← upd_peer p (set_p_audioCodec (λ _, codec));
    _ ← UpdateAudioCodec (p_parent pr) codec;
    upd_peer p (set_p_readers S)
  else
    video ← isVideoSsrc p ssrc;
    if video : bool then
      _ ← upd_peer p (set_p_videoCodec (λ _, codec));
      _ ← UpdateVideoCodec (p_parent pr) codec;
      upd_peer p (set_p_readers S)
    else skip.

(** One round of a reader: a packet of [n] bytes in a buffer of 1500, or the
    end of the track.  Other read errors are not distinguished from data. *)
Definition audio_reader (p : nat) (buff : string) (n : Z) (eof : bool) : MW unit :=
  if eof then upd_peer p (set_p_readers pred)
  else
    pr ← get_peer p;
    OnReceivedAudioData (p_parent pr) buff n (p_peerid pr).

Definition video_reader (p : nat) (buff : string) (n : Z) (eof : bool) : MW unit :=
  if eof then upd_peer p (set_p_readers pred)
  else
    pr ← get_peer p;
    OnReceivedVideoData (p_parent pr) buff n (p_peerid pr).

Definition pub_OnDataChannel (p : nat) : MW unit :=
  upd_peer p (set_p_dataChannel (λ _, true)).

(** dataChannel.OnMessage, of publishers and of subscribers. *)
Definition OnDataMessage (p : nat) (data : string) : MW unit :=
  pr ← get_peer p;
  session_OnReceivedAppData (p_parent pr) (p_userid pr) (p_peerid pr) data
    (Z.of_nat (string_len data)).

Definition pub_OnICEConnectionStateChange (p : nat) (st : ICEConnectionState) : MW unit :=
  pr ← get_peer p;
  match p_peerConnection pr with
  | None => skip
  | Some _ =>
      match st with
      | ICEConnected =>
          _ ← upd_peer p (set_p_isReady (λ _, true));
          _ ← upd_peer p (set_p_shouldNotify (λ _, true));
          t ← now_nano;
          _ ← on_filter p (kf_Startup t);
          OnIceReady (p_parent pr) (p_role pr) (p_userid pr) (p_remoteuserid pr) (p_peerid pr)
      | ICEDisconnected =>
          _ ← upd_peer p (set_p_isReady (λ _, false));
          _ ← on_filter p kf_Shutdown;
          OnIceDisconnected (p_parent pr) (p_role pr) (p_userid pr) (p_remoteuserid pr)
            (p_peerid pr)
      | ICEFailed =>
          _ ← upd_peer p (set_p_isReady (λ _, false));
          _ ← on_filter p kf_Shutdown;
          OnIceFailed (p_parent pr) (p_role pr) (p_userid pr) (p_remoteuserid pr) (p_peerid pr)
      | ICEClosed =>
          _ ← upd_peer p (set_p_isReady (λ _, false));
          _ ← on_filter p kf_Shutdown;
          OnIceClosed (p_parent pr) (p_role pr) (p_userid pr) (p_remoteuserid pr) (p_peerid pr)
      | _ => skip
      end
  end.

(** ** Subscriber *)

Definition sub_OnICEConnectionStateChange (p : nat) (st : ICEConnectionState) : MW unit :=
  pr ← get_peer p;
  match p_peerConnection pr with
  | None => skip
  | Some _ =>
      match st with
      | ICEConnected =>
          _ ← upd_peer p (set_p_isReady (λ _, true));
          _ ← upd_peer p (set_p_shouldNotify (λ _, true));
          OnIceReady (p_parent pr) (p_role pr) (p_userid pr) (p_remoteuserid pr) (p_peerid pr)
      | ICEDisconnected => upd_peer p (set_p_isReady (λ _, false))
      | ICEFailed =>
          _ ← upd_peer p (set_p_isReady (λ _, false));
          OnIceFailed (p_parent pr) (p_role pr) (p_userid pr) (p_remoteuserid pr) (p_peerid pr)
      | ICEClosed =>
          _ ← upd_peer p (set_p_isReady (λ _, false));
          OnIceClosed (p_parent pr) (p_role pr) (p_userid pr) (p_remoteuserid pr) (p_peerid pr)
      | _ => skip
      end
  end.

(** The RTCP reader of a subscriber's video sender: a PLI, a SLI or a FIR
    asks the publisher for a keyframe; other packets are ignored. *)
Definition rtcp_reader (p : nat) (pkts : list rtcp_packet) : MW unit :=
  for_each pkts (λ pkt,
    pr ← get_peer p;
    match pkt with
    | PictureLossIndication | SliceLossIndication | FullIntraRequest =>
        RequestPli (p_parent pr) (p_peerid pr)
    | OtherRTCP => skip
    end).
End callbacks.
