(* ===== verification/Config.v ===== *)
(** * Configuration: config.go

    The configuration is read once, from the file conf/ms.conf and the
    environment, into the package variable [Gconf].  The file system, the
    environment variables, the UUID generator and the ini library are the
    parameters of [sysenv]. *)

From Stdlib Require Import Ascii.
From S2P Require Import Prelude GoLib Json Constants KeyframeFilter World.

Record sysenv := MkSysenv {
  ini_load : bool;                          (* ini.Load("./conf/ms.conf") succeeds *)
  ini_strict_map : Config → option Config;  (* iniFile.StrictMapTo(&conf) *)
  uuid_new : string;
  etc_hosts : option (list string);         (* the lines of /etc/hosts *)
  udp_local_addr : option string;           (* net.Dial("udp", ...).LocalAddr() *)
  interface_addrs : option (list string);   (* net.InterfaceAddrs() *)
  getenv : string → string;
}.

(** The package variable Gconf: nil until the configuration has been read. *)
Definition MC : Type → Type := M (option Config).

Fixpoint container_line (lines : list string) : string :=
  match lines with
  | [] => ""
  | line :: lines =>
      match str_fields line !! 1%nat with
      | Some name =>
          if str_contains name "mediaserver-deployment" then name else container_line lines
      | None => container_line lines
      end
  end.

Definition GetContainerID (e : sysenv) : string :=
  match etc_hosts e with
  | None => ""
  | Some lines => container_line lines
  end.

Definition str_head (l : list string) : string := default "" (head l).

Fixpoint first_non_loopback (addrs : list string) : string :=
  match addrs with
  | [] => ""
  | addr :: addrs =>
      let ip := str_head (str_split addr "/"%char) in
      if decide (ip = "127.0.0.1") then first_non_loopback addrs else ip
  end.

Definition GetLocalAddr (e : sysenv) : MC string :=
  addrs ← from_some PExplicit (interface_addrs e);
  mret (first_non_loopback addrs).

Definition GetLocalAddrV2 (e : sysenv) : MC string :=
  addr ← from_some PExplicit (udp_local_addr e);
  mret (str_head (str_split addr ":"%char)).

Definition initFromEnv (e : sysenv) (c : Config) : MC Config :=
  let c := set_Proxyaddr (λ _, getenv e "SLB_IP") c in
  let c := set_Clusterid (λ _, getenv e "TEST_CLUSTER_ID") c in
  let c := if decide (MqttTopic c = "") then set_MqttTopic (λ _, getenv e "MQTT_TOPIC") c
           else c in
  if decide (MqttTopic c = "") then halt PExplicit else mret c.

(** A zero Config. *)
Definition config_zero : Config :=
  MkConfig 0 "" 0 "" 0 "" "" 0 "" "" "" "" "" 0 "" "" "" 0.

Definition initConfig (e : sysenv) : MC (option Config) :=
  if negb (ini_load e) then mret None
  else
    let id := uuid_new e in
    let containerid := GetContainerID e in
    localaddr ← GetLocalAddrV2 e;
    let conf :=
      set_Localaddr (λ _, localaddr)
        (set_Uuid (λ _, id)
           (set_ContainerID (λ _, containerid) (set_sn (λ _, 0) config_zero))) in
    match ini_strict_map e conf with
    | None => mret None
    | Some conf => c ← initFromEnv e conf; mret (Some c)
    end.

(** The error result is always nil; the first result is nil when the file
    could not be read or mapped. *)
Definition GetConfig (e : sysenv) : MC (option Config) :=
  g ← gets id;
  match g with
  | Some c => mret (Some c)
  | None =>
      c ← initConfig e;
      _ ← modify (λ _, c);
      mret c
  end.
