(* ===== verification/Mqtt.v ===== *)
(** * The MQTT client: mqttclient.go

    The client, its options and its handlers.  The paho library is seen through
    what it answers: whether the connection and a subscription succeed.  In the
    trace of the server a message it publishes is [EvMqtt] (World,
    [call_handler]). *)

From S2P Require Import Prelude GoLib Json Constants KeyframeFilter World.

(** The client options Init sets. *)
Record ClientOptions := MkOptions {
  o_broker : string;
  o_clientID : string;
  o_username : string;
  o_password : string;
  o_connectRetryInterval : Z;
  o_connectRetry : bool;
  o_maxReconnectInterval : Z;
  o_keepAlive : Z;
  o_pingTimeout : Z;
  o_cleanSession : bool;
}.

(** mqttonnection: the client once Init has made it, whether a message handler
    is installed, and what the client was asked for: subscriptions (topic, QoS)
    and publications (topic, QoS, retained, payload). *)
Record mqttonnection := MkMqtt {
  c_client : option ClientOptions;
  c_onReceivedMessageHandler : bool;
  c_subscriptions : list (string * Z);
  c_published : list (string * Z * bool * string);
}.

Definition CreateMqtt : mqttonnection := MkMqtt None false [] [].

Definition mqtt_options (config : Config) : ClientOptions := {|
  o_broker := "tcp://" +:+ Mqttip config +:+ ":" +:+ itoa (Mqttport config);
  o_clientID := Uuid config;
  o_username := Mqttuser config;
  o_password := Mqttpwd config;
  o_connectRetryInterval := 2 * second;
  o_connectRetry := true;
  o_maxReconnectInterval := 5 * second;
  o_keepAlive := 30 * second;
  o_pingTimeout := 1 * second;
  o_cleanSession := true;
|}.

(** [config] is what GetConfig returns, whose error is always nil.  A connection
    error panics. *)
Definition mqtt_Init (config : option Config) (connect_ok : bool) : M mqttonnection unit :=
  config ← from_some PNilDeref config;
  _ ← modify (λ c : mqttonnection, MkMqtt (Some (mqtt_options config)) (c_onReceivedMessageHandler c)
                     (c_subscriptions c) (c_published c));
  if connect_ok then skip else halt PExplicit.

Definition OnReceivedMessage : M mqttonnection unit :=
  modify (λ c : mqttonnection, MkMqtt (c_client c) true (c_subscriptions c) (c_published c)).

(** On every connection the client subscribes to its topic with QoS 2. *)
Definition connectHandler (config : option Config) (subscribe_ok : bool) : M mqttonnection unit :=
  config ← from_some PNilDeref config;
  if subscribe_ok then
    modify (λ c : mqttonnection, MkMqtt (c_client c) (c_onReceivedMessageHandler c)
                   (c_subscriptions c ++ [(MqttTopic config, 2)]) (c_published c))
  else halt PExplicit.

Definition connectLostHandler : M mqttonnection unit := skip.

(** The default publish handler of Init: the payload the message handler is
    called with. *)
Definition mqtt_received (payload : string) : M mqttonnection string :=
  h ← (gets c_onReceivedMessageHandler : M mqttonnection bool);
  if (h : bool) then mret payload else halt PNilFunc.

(** The token of a publication is waited for; its error is not looked at. *)
Definition mqtt_Publish (topic msg : string) : M mqttonnection unit :=
  client ← gets c_client;
  _ ← (from_some PNilDeref client : M mqttonnection ClientOptions);
  modify (λ c : mqttonnection, MkMqtt (c_client c) (c_onReceivedMessageHandler c) (c_subscriptions c)
                 (c_published c ++ [(topic, 0, false, msg)])).
