(* ===== verification/Server.v ===== *)
(** * The running server: mediaserver.go and the goroutines

    [main] starts the components; from then on the process reacts to messages,
    timers and callbacks, and runs the goroutines they start.  A transition of
    the server is one goroutine body run to its end, or one external event
    handled to its end, so goroutines interleave in any order at this
    granularity.  A transition that would panic or block is not taken: what
    can make one stop is the subject of the theorems of Safety. *)

From S2P Require Import Prelude GoLib Ice Json Constants KeyframeFilter MediaEngine World Rmq Peer Notify Session.
From S2P Require Import Room RoomMgr Callbacks Config Mqtt.

(** The events that come from outside the program. *)
Inductive xevent :=
  | XMessage (msg : string)                               (* from MQTT *)
  | XDelivery (x : nat) (body : option string)            (* from the queue of exchange x *)
  | XTime (t : Z)                                         (* the clock advances *)
  | XPubIce (p : nat) (st : ICEConnectionState)
  | XSubIce (p : nat) (st : ICEConnectionState)
  | XPubCandidate (p : nat) (c : option ICECandidate)
  | XSubCandidate (p : nat) (c : option ICECandidate)
  | XPubTrack (p : nat) (ssrc : Z) (codec : RTPCodecParameters)
  | XAudio (p : nat) (buff : string) (n : Z) (eof : bool)
  | XVideo (p : nat) (buff : string) (n : Z) (eof : bool)
  | XPubDataChannel (p : nat)
  | XDataMessage (p : nat) (data : string)
  | XRtcp (p : nat) (pkts : list rtcp_packet)
  | XFilterFire (p i : nat)                               (* a timer of a filter runs out *)
  | XFilterTimer (p i : nat)                              (* its goroutine receives the tick *)
  | XWatcherTimer (s i : nat)
  | XWatcherExit (s i : nat)
  | XKeepalive
  | XResource
  | XRegistTick
  | XRetryTimer (q i : nat)
  | XCenterRetryTimer (q i : nat)
  | XRetryExit (q i : nat)
  | XConnClose (q : nat) (err : bool)
  | XCenterClose (q : nat) (err : bool).

Definition is_role (w : world) (p : nat) (role : Z) : bool :=
  match w_peers w !! p with
  | Some pr => p_role pr =? role
  | None => false
  end.

(** When an event can happen: the closures of a publisher (role 1) or of a
    subscriber (role 2) were installed on that peer, a timer has run out, a
    clock does not go back, the goroutine the event belongs to exists. *)
Definition event_ok (w : world) (e : xevent) : bool :=
  match e with
  | XMessage _ | XKeepalive | XResource => true
  | XDelivery x _ =>
      match mq_exchanges (w_rmq w) !! x with
      | Some ex => x_receiver ex
      | None => false
      end
  | XTime t => w_now w <=? t
  | XPubIce p _ | XPubCandidate p _ | XPubTrack p _ _ | XPubDataChannel p => is_role w p 1
  | XAudio p _ _ _ | XVideo p _ _ _ => is_role w p 1
  | XSubIce p _ | XSubCandidate p _ | XRtcp p _ => is_role w p 2
  | XDataMessage p _ => is_role w p 1 || is_role w p 2
  | XFilterFire p i =>
      match w_peers w !! p with
      | Some pr => from_option (kf_due (w_now w) i) false (p_filter pr)
      | None => false
      end
  | XFilterTimer p i =>
      match w_peers w !! p with
      | Some pr => from_option (kf_ticked i) false (p_filter pr)
      | None => false
      end
  | XWatcherTimer s i =>
      match w_sess w !! s with
      | Some x => from_option (watcher_due (w_now w)) false (s_watchers x !! i)
      | None => false
      end
  | XWatcherExit s i =>
      match w_sess w !! s with
      | Some x => (0 <? Z.of_nat (s_exitSenders x)) && bool_decide (is_Some (s_watchers x !! i))
      | None => false
      end
  | XRegistTick => (0 <? Z.of_nat (m_registrars (w_mgr w)))
  | XRetryTimer q i | XCenterRetryTimer q i =>
      match mq_objs (w_rmq w) !! q with
      | Some r => retry_timer_due (w_now w) r i
      | None => false
      end
  | XRetryExit q i =>
      match mq_objs (w_rmq w) !! q with
      | Some r => (0 <? Z.of_nat (q_exitSenders r)) && bool_decide (is_Some (q_timers r !! i))
      | None => false
      end
  | XConnClose q _ | XCenterClose q _ => bool_decide (is_Some (mq_objs (w_rmq w) !! q))
  end.

Section server.
Context `{GoRuntime, WebRTC, Amqp}.

(** One round of the receiver goroutine of addReceiver.  A queue whose channel
    was closed delivers messages without a body. *)
Definition receiver_message (x : nat) (body : option string) : MW unit :=
  ex ← get_ex x;
  match x_parent ex, body with
  | Some q, Some msg =>
      r ← get_mq q;
      if q_onReceivedMessageHandler r then roommgr_HandleMessage msg else halt PNilFunc
  | _, _ => skip
  end.

Definition run_task (t : task) : MW unit :=
  match t with
  | TReleaseRoom rid => ReleaseRoom rid
  | TOnPublisherReady r sid name pid => OnPublisherReady r sid name pid
  | TOnPublisherPeerFailed r sid pid => OnPublisherPeerFailed r sid pid
  | TOnPublisherPeerClosed r sid pid => OnPublisherPeerClosed r sid pid
  | TOnSubscriberPeerDisconnected r sid ssid pid => OnSubscriberPeerDisconnected r sid ssid pid
  | TOnSubscriberPeerFailed r sid ssid pid => OnSubscriberPeerFailed r sid ssid pid
  | TOnSubscriberPeerClosed r sid ssid pid => OnSubscriberPeerClosed r sid ssid pid
  | TReleaseSubscriberPeer s sid ssid pid => ReleaseSubscriberPeer s sid ssid pid
  | THandleSubscriberLeaved s sid => HandleSubscriberLeaved s sid
  | TCheckKeepAlive s => CheckKeepAlive s
  | TKickoutFromRoom r sid => KickoutFromRoom r sid
  | TRequestKeyframe p => RequestKeyframe p
  | TRequestKeyframeNow p => requestKeyframeNow p
  | TFakePublisherReConnect s sid pid curtime => FakePublisherReConnect s sid pid curtime
  | TCheckIceInfo p typ ip port => CheckIceInfo p typ ip port
  | TMqConnect q => _ ← mqConnect q; skip
  | TCenterRMQConnect q => _ ← centerRMQConnect q; skip
  end.

Definition run_event (e : xevent) : MW unit :=
  match e with
  | XMessage msg => roommgr_HandleMessage msg
  | XDelivery x body => receiver_message x body
  | XTime t => modify (set_w_now (λ _, t))
  | XPubIce p st => pub_OnICEConnectionStateChange p st
  | XSubIce p st => sub_OnICEConnectionStateChange p st
  | XPubCandidate p c => pub_OnICECandidate p c
  | XSubCandidate p c => sub_OnICECandidate p c
  | XPubTrack p ssrc codec => pub_OnTrack p ssrc codec
  | XAudio p buff n eof => audio_reader p buff n eof
  | XVideo p buff n eof => video_reader p buff n eof
  | XPubDataChannel p => pub_OnDataChannel p
  | XDataMessage p data => OnDataMessage p data
  | XRtcp p pkts => rtcp_reader p pkts
  | XFilterFire p i => on_filter p (kf_fire i)
  | XFilterTimer p i => on_filter p (kf_timerExpired i)
  | XWatcherTimer s i => watcher_fire s i
  | XWatcherExit s i => watcher_exit s i
  | XKeepalive => keepalive_tick
  | XResource => resource_tick
  | XRegistTick => StartRegistToLB_tick
  | XRetryTimer q i => retry_timer_fire q i (TMqConnect q)
  | XCenterRetryTimer q i => retry_timer_fire q i (TCenterRMQConnect q)
  | XRetryExit q i => retry_timer_exit q i
  | XConnClose q err => on_conn_close q err
  | XCenterClose q err => on_center_close q err
  end.

(** A goroutine leaves the pool of tasks when it starts to run. *)
Definition take_task (w : world) (l1 l2 : list task) : world := set_w_tasks (λ _, l1 ++ l2) w.

Inductive step : world → world → Prop :=
  | step_task w w' l1 t l2 :
      w_tasks w = l1 ++ t :: l2 →
      run_task t (take_task w l1 l2) = Ret tt w' →
      step w w'
  | step_event w w' e :
      event_ok w e = true →
      run_event e w = Ret tt w' →
      step w w'.

(** The state main builds before it starts the components. *)
Definition init_world (c : Config) (now : Z) : world := {|
  w_conf := c;
  w_now := now;
  w_choice := 0;
  w_out := [];
  w_tasks := [];
  w_locks := ∅;
  w_next := 0;
  w_mgr := CreateRoomMgr;
  w_rooms := ∅;
  w_sess := ∅;
  w_peers := ∅;
  w_rmq := MkRmq None None None None None false false ∅ ∅;
|}.

(** The two RabbitMQ clients; after them, and after the MQTT client, which
    shares no state with them, main installs the send handler. *)
Definition main_clients : MW unit :=
  c ← gets w_conf;
  rmq ← CreateRabbitMQ (Rmqurl c);
  _ ← InterClusterStartup rmq;
  crmq ← CreateRabbitMQ (CenterRmqurl c);
  CrossClusterStartup crmq.
Definition main_startup : MW unit :=
  _ ← main_clients;
  roommgr_SetSendMessageHandler.
Definition mqtt_startup (config : option Config) (connect_ok : bool) : M mqttonnection unit :=
  _ ← OnReceivedMessage;
  mqtt_Init config connect_ok.

(** main up to its wait, and the state it leaves or stops in: a nil
    configuration is dereferenced; Init reads it again. *)
Definition main (e : sysenv) (now : Z) (connect_ok : bool) : outcome (world * mqttonnection) unit :=
  match GetConfig e None with
  | Ret (Some c) conf =>
      match main_clients (init_world c now) with
      | Ret _ w =>
          match GetConfig e conf with
          | Ret c' _ =>
              match mqtt_startup c' connect_ok CreateMqtt with
              | Ret _ q =>
                  match roommgr_SetSendMessageHandler w with
                  | Ret _ w => Ret tt (w, q)
                  | Stop r w => Stop r (w, q)
                  end
              | Stop r q => Stop r (w, q)
              end
          | Stop r _ => Stop r (w, CreateMqtt)
          end
      | Stop r w => Stop r (w, CreateMqtt)
      end
  | Ret None _ => Stop PNilDeref (init_world config_zero now, CreateMqtt)
  | Stop r _ => Stop r (init_world config_zero now, CreateMqtt)
  end.

Inductive reachable (c : Config) (now : Z) : world → Prop :=
  | reach_init w :
      main_startup (init_world c now) = Ret tt w → reachable c now w
  | reach_step w w' :
      reachable c now w → step w w' → reachable c now w'.
End server.
