(* ===== verification/Demo.v ===== *)
(** * A concrete environment

    Simple instances of the parameters of the model (Go's map order, the WebRTC
    and AMQP libraries), and a server started in them.  They show that the
    hypotheses of the theorems can hold and let concrete runs be evaluated. *)

From S2P Require Import Prelude GoLib Bytes Sdp Json Constants KeyframeFilter MediaEngine World Rmq Peer Notify Session.
From S2P Require Import Room RoomMgr Callbacks Config Server.

(** Maps are visited in the order of their keys' encodings; every literal is
    exact. *)
#[export] Instance demo_go : GoRuntime := {|
  range_order _ l := l;
  range_order_perm _ l := Permutation_refl l;
  float64_of d := Some d;
  float64_of_exact d _ _ := eq_refl;
|}.

(** The lines of a description. *)
Definition sdp_lines (l : list string) : string := foldr (λ x r, x +:+ CRLF +:+ r) EmptyString l.

(** A description with two streams and a data channel. *)
Definition demo_sdp : string := sdp_lines [
  "v=0"; "o=- 1 1 IN IP4 a"; "s=-"; "t=0 0";
  "m=audio 9 RTP 0"; "a=ice-ufrag:ua"; "a=ssrc:1001 cname:x"; "a=ssrc:1001 msid:y";
  "m=video 9 RTP 0"; "a=ssrc:2002 cname:x"; "a=ice-ufrag:uv"; "m=application 9 RTP 0"].

(** A library in which every call succeeds, but the remote description BAD is
    refused; a URL is its text. *)
#[export] Instance demo_webrtc : WebRTC := {|
  wr_new_pc _ := true;
  wr_create_offer _ := Some demo_sdp;
  wr_create_answer _ := Some demo_sdp;
  wr_set_local _ _ _ := true;
  wr_set_remote _ _ sdp := negb (bool_decide (sdp = "BAD"));
  wr_ext_order _ _ l := l;
  wr_ext_order_perm _ _ _ := reflexivity _;
  wr_populate _ sdp := sdp;
  wr_ice_agent _ := true;
  wr_add_track _ _ := true;
  wr_create_dc _ _ := true;
  wr_track_write _ _ := WOk;
  wr_url := {| URL := string; url_Parse := Some; URL_String s := s |};
|}.

#[export] Instance demo_amqp : Amqp := {|
  am_dial _ := true;
  am_channel _ := true;
  am_exchange_declare _ := true;
  am_queue_declare _ := true;
  am_queue_bind _ := true;
  am_consume _ := true;
|}.

Definition demo_conf : Config :=
  MkConfig 1 "turn" 9900 "" 6666 "10.0.0.1" "mqtt" 1883 "admin" "admin" "topic"
    "rmq" "crmq" 100 "c1" "pod-1" "" 0.

(** ** Runs *)

(** A step of the server chosen by its caller: the goroutine number [i] of the
    pool, or an event, if it can happen. *)
Inductive act :=
  | ARun (i : nat)
  | AEv (e : xevent).

Definition do_act (a : act) : MW unit := λ w,
  match a with
  | ARun i =>
      match w_tasks w !! i with
      | Some t => run_task t (take_task w (take i (w_tasks w)) (drop (S i) (w_tasks w)))
      | None => Ret tt w
      end
  | AEv e => if event_ok w e then run_event e w else Ret tt w
  end.

Lemma do_act_reachable c now a w w' :
  reachable c now w → do_act a w = Ret tt w' → reachable c now w'.
Proof.
  intros Hr. destruct a as [i|e]; simpl.
  - destruct (w_tasks w !! i) as [t|] eqn:Ht; [|by intros [= <-]].
    intros Hrun. eapply reach_step; [done|]. eapply step_task; [|exact Hrun].
    by rewrite take_drop_middle.
  - destruct (event_ok w e) eqn:He; [|by intros [= <-]].
    intros Hrun. eapply reach_step; [done|]. by eapply step_event.
Qed.

(** main, then a sequence of steps. *)
Definition demo_run (l : list act) : outcome world unit :=
  (_ ← main_startup; for_each l do_act) (init_world demo_conf (1000 * second)).

(** The world after a run that does not stop; the first world otherwise. *)
Definition demo_world (l : list act) : world :=
  match demo_run l with
  | Ret _ w => w
  | Stop _ _ => init_world demo_conf (1000 * second)
  end.

Lemma demo_run_reachable l w :
  demo_run l = Ret tt w → reachable demo_conf (1000 * second) w.
Proof.
  unfold demo_run, mbind, M_bind.
  destruct (main_startup (init_world demo_conf (1000 * second))) as [[] w1|] eqn:Hm; [|done].
  assert (reachable demo_conf (1000 * second) w1) as Hr by by apply reach_init.
  clear Hm. revert w1 Hr. induction l as [|a l IH]; intros w1 Hr; simpl.
  - by intros [= <-].
  - unfold mbind, M_bind. destruct (do_act a w1) as [[] w2|] eqn:Ha; [|done].
    apply IH. by eapply do_act_reachable.
Qed.

Definition login_msg (room user : string) : string :=
  json_marshal [(LabelCmd, GStr CmdLogin); (LabelRoomId, GStr room); (LabelSessID, GStr user);
    (LabelUserName, GStr user)].
Definition peer_msg (cmd room user remote pid : string) : string :=
  json_marshal [(LabelCmd, GStr cmd); (LabelRoomId, GStr room); (LabelSessID, GStr user);
    (LabelSrcSessID, GStr remote); (LabelPeerID, GStr pid); (LabelSDP, GStr demo_sdp)].

(** Both brokers connect: two retry timers fire, their goroutines run. *)
Definition demo_connect : list act := [
  AEv (XRetryTimer 0 0); AEv (XCenterRetryTimer 1 0); ARun 0; ARun 0].

(** Two users log in and the first one publishes. *)
Definition demo_publish : list act := demo_connect ++ [
  AEv (XMessage (login_msg "room1" "alice"));
  AEv (XMessage (login_msg "room1" "bob"));
  AEv (XMessage (peer_msg CmdPush "room1" "alice" "" "p1"))].

(** The offer is answered and the connection comes up: the publisher is the
    peer 15 of the session 13 of the room 12; the second user is 14. *)
Definition demo_ready : list act := demo_publish ++ [
  AEv (XMessage (peer_msg CmdOffer "room1" "alice" "" "p1"));
  AEv (XPubIce 15 ICEConnected); ARun 0].

(** The second user subscribes to the first one's peer: the subscriber is the
    peer 16. *)
Definition demo_sub : list act := demo_ready ++ [
  AEv (XMessage (peer_msg CmdSub "room1" "bob" "alice" "p1"))].

(** The objects of a world, where they exist. *)
Definition the_sess (w : world) (s : nat) : session :=
  default (MkSession "" "" "" "" true ∅ ∅ true 0 [] 0 0) (w_sess w !! s).
Definition the_room (w : world) (r : nat) : room := default (MkRoom "" ∅ true) (w_rooms w !! r).
