(* ===== verification/Startup.v ===== *)
(** * The start of the process

    Reading the configuration, and what main leaves running. *)

From Stdlib Require Import Ascii.
From S2P Require Import Prelude GoLib Json Constants KeyframeFilter MediaEngine World Rmq Peer Notify Session.
From S2P Require Import Room RoomMgr Callbacks Config Mqtt Server Demo.

(** The environment gives a configuration: the file is there and fits, the
    host has an address, and an MQTT topic is set somewhere. *)
Definition configured (e : sysenv) (c : Config) : Prop :=
  ini_load e = true ∧ ∃ addr conf,
    udp_local_addr e = Some addr ∧
    ini_strict_map e (set_Localaddr (λ _, str_head (str_split addr ":"%char))
      (set_Uuid (λ _, uuid_new e)
         (set_ContainerID (λ _, GetContainerID e) (set_sn (λ _, 0) config_zero)))) = Some conf ∧
    initFromEnv e conf None = Ret c None.

(** GetConfig reads the configuration once. *)
Lemma GetConfig_once e c :
  configured e c → GetConfig e None = Ret (Some c) (Some c) ∧
    ∀ e', GetConfig e' (Some c) = Ret (Some c) (Some c).
Proof.
  intros (Hl & addr & conf & Ha & Hm & Hi). split; [|done].
  unfold GetConfig, initConfig, GetLocalAddrV2. rewrite Hl, Ha. simpl.
  unfold mbind, M_bind, gets, modify, mret, M_ret, id. simpl. unfold mret, M_ret. simpl.
  rewrite Hm. unfold mbind, M_bind. rewrite Hi. done.
Qed.

(** The state main leaves: the handler of messages is there, a retry timer of
    each client is about to fire, and the pod either registers at the load
    balancer, if its topic looks like a pod id, or counts as registered. *)
Definition started (c : Config) (now : Z) (w : world) : Prop :=
  w_conf w = c ∧ m_onSendMessageHandler (w_mgr w) = true ∧ m_rooms (w_mgr w) = ∅ ∧
  (if decide (string_len (MqttTopic c) = 36%nat)
   then m_regist (w_mgr w) = false ∧ m_registrars (w_mgr w) = 1%nat
   else m_regist (w_mgr w) = true ∧ m_registrars (w_mgr w) = 0%nat) ∧
  connected (w_rmq w) = false ∧ center_connected (w_rmq w) = false ∧
  (∃ q1 q2, q1 ≠ q2 ∧
     mq_objs (w_rmq w) !! q1 = Some (MkRabbitMQ None (Rmqurl c) [] true [TArmed now] 0) ∧
     mq_objs (w_rmq w) !! q2 = Some (MkRabbitMQ None (CenterRmqurl c) [] true [TArmed now] 0)).

(** The clients start in the initial state; the state they leave. *)
Definition clients_started `{Amqp} (c : Config) (now : Z) : world :=
  match main_clients (init_world c now) with Ret _ w | Stop _ w => w end.

Lemma main_with `{GoRuntime, WebRTC, Amqp} e c now ok :
  configured e c →
  main e now ok =
  match mqtt_startup (Some c) ok CreateMqtt, roommgr_SetSendMessageHandler (clients_started c now) with
  | Ret _ q, Ret _ w => Ret tt (w, q)
  | Ret _ q, Stop r w => Stop r (w, q)
  | Stop r q, _ => Stop r (clients_started c now, q)
  end.
Proof.
  intros Hc. destruct (GetConfig_once e c Hc) as [E E']. unfold main. rewrite E.
  unfold clients_started. destruct (main_clients (init_world c now)) as [[] w|r w] eqn:Hm; [|by vm_compute in Hm].
  rewrite E'. by destruct (mqtt_startup _ _ _).
Qed.

(** With a configuration the server starts: main reaches its wait, in a
    state of the running server, with the message handler installed, no room,
    both brokers about to be dialled, and the pod registering at the load
    balancer exactly when its MQTT topic has the length of a pod id; the MQTT
    client has its options and, before it connects, its message handler.  If
    MQTT refuses the connection, the process ends. *)
Theorem main_starts `{GoRuntime, WebRTC, Amqp} e c now :
  configured e c →
  (∃ w, main e now true = Ret tt (w, MkMqtt (Some (mqtt_options c)) true [] []) ∧
     started c now w ∧ reachable c now w) ∧
  ∃ w q, main e now false = Stop PExplicit (w, q).
Proof.
  intros Hc. rewrite !main_with with (c := c) by done. split; [|by eexists _, _].
  destruct (roommgr_SetSendMessageHandler (clients_started c now)) as [[] w|r w] eqn:Hs.
  2: { exfalso. revert Hs. unfold roommgr_SetSendMessageHandler, go_StartRegistToLB, upd_mgr, mbind, M_bind, gets.
    unfold modify at 1. by case_decide. }
  exists w. split; [done|]. split; [|by apply reach_init].
  revert Hs. unfold clients_started, main_clients, CreateRabbitMQ, InterClusterStartup, CrossClusterStartup,
    lanuchRetryTimer, CenterRMQConnectTimer, roommgr_SetSendMessageHandler, go_StartRegistToLB, upd_mgr, upd_mq,
    upd_rmq, now_nano, mbind, M_bind, gets, modify, mret, M_ret.
  unfold started. simpl. case_decide; intros [= <-]; simpl;
    (split_and!; [done.. | exists 0%nat, 1%nat]); rewrite ?Z.add_0_r; split_and!; done.
Qed.

(** The clients connect before main installs the send handler: a message that
    comes in between, other than the two of the registration, ends the process
    at the nil handler. *)
Theorem early_message_panics `{GoRuntime, WebRTC, Amqp} c now msg :
  GetValue (default ∅ (CreateJSONParser msg)) LabelCmd ≠ CmdPodRegist →
  GetValue (default ∅ (CreateJSONParser msg)) LabelCmd ≠ CmdPodRegistNow →
  roommgr_HandleMessage msg (clients_started c now) = Stop PNilFunc (clients_started c now).
Proof.
  intros H2 H3. assert (w_mgr (clients_started c now) = CreateRoomMgr) as Hm by reflexivity.
  generalize dependent (clients_started c now). intros w Hm.
  unfold roommgr_HandleMessage, handle_fields, mbind at 1, M_bind at 1, gets at 1. rewrite Hm. simpl.
  rewrite decide_False, decide_False by done.
  unfold notifyServiceNotAvailable, mbind, M_bind, gets. by rewrite Hm.
Qed.

(** Without a configuration file the process ends at a nil pointer: main
    tests only the error of GetConfig, which is always nil. *)
Theorem main_without_config `{GoRuntime, WebRTC, Amqp} e now :
  ini_load e = false → ∃ w, main e now true = Stop PNilDeref w.
Proof.
  intros Hl. unfold main, GetConfig, initConfig, mbind, M_bind, gets, modify, mret, M_ret, id.
  rewrite Hl. simpl. eauto.
Qed.

(** ** Witnesses *)

Definition demo_env (load : bool) : sysenv := {|
  ini_load := load;
  ini_strict_map c := Some (set_MqttTopic (λ _, "topic") c);
  uuid_new := "pod-1";
  etc_hosts := None;
  udp_local_addr := Some "10.0.0.1:5000";
  interface_addrs := None;
  getenv _ := EmptyString;
|}.
Definition demo_env_conf : Config :=
  match GetConfig (demo_env true) None with Ret (Some c) _ => c | _ => config_zero end.

Lemma main_starts_witness :
  (∃ w, main (demo_env true) 0 true = Ret tt (w, MkMqtt (Some (mqtt_options demo_env_conf)) true [] []) ∧
     started demo_env_conf 0 w ∧ reachable demo_env_conf 0 w) ∧
  ∃ w q, main (demo_env true) 0 false = Stop PExplicit (w, q).
Proof.
  apply (main_starts (demo_env true) demo_env_conf 0). split; [reflexivity|].
  eexists _, _. split_and!; [reflexivity | reflexivity | vm_compute; reflexivity].
Defined.
Lemma main_without_config_witness : ∃ w, main (demo_env false) 0 true = Stop PNilDeref w.
Proof. apply (main_without_config (demo_env false) 0). reflexivity. Defined.
