(* ===== verification/JsonProps.v ===== *)
(** * Messages survive the trip

    What json.Marshal writes of strings, integers, nil, lists, maps and structs,
    nested in any way, json.Unmarshal reads back: the recursion bound of the
    decoder is enough, integers become floats, structs become maps.  So a message
    that is written, CreateJSONParser reads back, and GetValue gives its fields:
    the pods exchange such messages. *)

From Stdlib Require Import Ascii DecimalString DecimalFacts DecimalZ.
From S2P Require Import Prelude GoLib Text Json Constants KeyframeFilter World Rmq Peer Notify Session.
From S2P Require Import Room RoomMgr Callbacks Server Demo.

(** ** One character *)

Definition ascii_char (c : ascii) : bool := byte c <? 0x80.
Fixpoint ascii_str (s : string) : bool :=
  match s with
  | EmptyString => true
  | String c s => ascii_char c && ascii_str s
  end.

(** A written character is read back, and does not look like the end of the
    literal. *)
Lemma unquote_quote_ascii c r :
  ascii_char c = true →
  unquote_step (quote_ascii c +:+ r) = Some (String c EmptyString, r) ∧
  match quote_ascii c with String h _ => Ascii.eqb h dquote = false | EmptyString => False end.
Proof. destruct c as [[] [] [] [] [] [] [] []]; intros Hc; try discriminate Hc; split; reflexivity. Qed.

Lemma quote_step_ascii c s : ascii_char c = true → quote_step (String c s) = (quote_ascii c, s).
Proof. unfold ascii_char. simpl. by intros ->. Qed.

(** ** A string literal *)

Lemma unquote_quote s : ∀ n fuel r,
  ascii_str s = true → (string_len s <= n)%nat → (string_len s < fuel)%nat →
  unquote fuel (quote_body n s +:+ String dquote r) = Some (s, r).
Proof.
  induction s as [|c s IH]; intros n fuel r Hs Hn Hf; (destruct fuel as [|fuel]; [simpl in Hf; lia|]).
  - by destruct n.
  - simpl in Hs, Hn, Hf. apply andb_true_iff in Hs as [Hc Hs]. destruct n as [|n]; [lia|].
    cbn [quote_body]. rewrite quote_step_ascii by done.
    rewrite <- string_app_assoc.
    destruct (unquote_quote_ascii c (quote_body n s +:+ String dquote r) Hc) as [E Hh].
    destruct (quote_ascii c) as [|h t] eqn:Eq; [done|]. cbn [String.append unquote] in *.
    rewrite Hh, E, (IH n fuel r) by (done || lia). done.
Qed.

Lemma quote_len s n : (string_len s <= n)%nat → ascii_str s = true →
  (string_len s <= string_len (quote_body n s))%nat.
Proof.
  revert n. induction s as [|c s IH]; intros n Hn Hs; simpl; [lia|].
  simpl in Hs, Hn. apply andb_true_iff in Hs as [Hc Hs]. destruct n as [|n]; [lia|].
  cbn [quote_body]. rewrite quote_step_ascii by done. rewrite string_len_app.
  destruct (unquote_quote_ascii c EmptyString Hc) as [_ Hh].
  destruct (quote_ascii c) as [|h t]; [done|]. specialize (IH n ltac:(lia) Hs). simpl. lia.
Qed.

(** The literal that json_quote writes, in front of anything. *)
Lemma json_quote_app s r :
  json_quote s +:+ r = String dquote (quote_body (string_len s) s +:+ String dquote r).
Proof. unfold json_quote. simpl. by rewrite <- string_app_assoc. Qed.

Lemma unquote_literal s r :
  ascii_str s = true →
  unquote (S (string_len (quote_body (string_len s) s +:+ String dquote r)))
    (quote_body (string_len s) s +:+ String dquote r) = Some (s, r).
Proof.
  intros Hs. apply unquote_quote; [done | done |]. rewrite string_len_app.
  pose proof (quote_len s (string_len s) ltac:(lia) Hs). simpl. lia.
Qed.

Lemma expect_here c s : is_ws c = false → expect c (String c s) = Some s.
Proof. intros Hc. unfold expect. simpl. by rewrite Hc, Ascii.eqb_refl. Qed.
Lemma expect_other c c' s : is_ws c' = false → Ascii.eqb c c' = false → expect c (String c' s) = None.
Proof. intros Hc Hn. unfold expect. simpl. by rewrite Hc, Hn. Qed.

(** ** Numbers *)

(** What may follow a value inside an object or a list. *)
Definition ends (r : string) : Prop :=
  match r with
  | EmptyString => True
  | String c _ => c = ","%char ∨ c = "}"%char ∨ c = "]"%char
  end.

Lemma take_digits_app s r : all_chars is_digit s = true → ends r → take_digits (s +:+ r) = (s, r).
Proof.
  intros Hs Hr. induction s as [|c s IH]; simpl in *.
  - destruct r as [|c r]; [done|]. by destruct Hr as [->|[->| ->]].
  - apply andb_true_iff in Hs as [Hc Hs]. by rewrite Hc, IH.
Qed.

(** A printed number has no leading zero. *)
Lemma itoa_head z : 0 < z → ∃ c s, itoa z = String c s ∧ Ascii.eqb c "0" = false ∧ is_digit c = true ∧ all_chars is_digit s = true.
Proof.
  intros Hz. destruct (itoa_digits z) as (d & E & _ & Hd & _). rewrite (proj2 (Z.ltb_ge _ _)) in E by lia.
  change (itoa z = d) in E. rewrite <- E in Hd. clear d E. pose proof (to_of (Z.to_int z)) as Hn. rewrite of_to in Hn.
  destruct (Z.to_int z) as [u|u] eqn:Eu; [|by destruct z]. injection Hn as Hn.
  assert (itoa z = NilZero.string_of_uint u) as E by (unfold itoa; by rewrite Eu). rewrite E in *.
  destruct u as [|u|u|u|u|u|u|u|u|u|u]; [exfalso; assert (z = 0) by (by rewrite <- (of_to z), Eu); lia | |..];
    try (eexists _, _; split; [reflexivity | split_and!; [done | done | by apply andb_true_iff in Hd as [_ Hd]]]).
  exfalso. unfold Decimal.unorm in Hn. cbn in Hn. destruct (Decimal.nzhead u) eqn:En; try discriminate Hn.
  - injection Hn as ->. assert (z = 0) by (by rewrite <- (of_to z), Eu). lia.
  - by eapply (nzhead_nonzero u), En.
Qed.

Lemma scan_int_itoa z r : 0 ≤ z → ends r → scan_int (itoa z +:+ r) = Some (itoa z, r).
Proof.
  intros Hz Hr. destruct (Z.eq_dec z 0) as [->|Hn]; [done|].
  destruct (itoa_head z) as (c & s & E & H0 & Hc & Hs); [lia|]. rewrite E. cbn [String.append scan_int]. rewrite H0, Hc.
  change (String c (s +:+ r)) with (String c s +:+ r). rewrite take_digits_app; [done | | done]. simpl. by rewrite Hc.
Qed.

Lemma scan_number_itoa z r : 0 ≤ z → ends r → scan_number (itoa z +:+ r) = Some (mk_dec false (itoa z) EmptyString 0, r).
Proof.
  intros Hz Hr. unfold scan_number.
  assert (match itoa z +:+ r with String "-" r => (true, r) | _ => (false, itoa z +:+ r) end = (false, itoa z +:+ r)) as ->.
  { destruct (Z.eq_dec z 0) as [->|Hn]; [done|]. destruct (itoa_head z) as (c & s & E & H0 & Hc & Hs); [lia|]. rewrite E. simpl.
    by destruct c as [[] [] [] [] [] [] [] []]. }
  rewrite scan_int_itoa by done. destruct r as [|c r]; [done|]. by destruct Hr as [->|[->| ->]].
Qed.

(** The decimal of a short literal is a float64. *)
Lemma strip_lead_len s : ∀ e, let x := strip_lead s e in
  (string_len x.1 <= string_len s)%nat ∧ e - Z.of_nat (string_len s) ≤ x.2 ≤ e.
Proof.
  induction s as [|c s IH]; intros e; simpl; [lia|].
  assert (∀ x : string * Z, x = (String c s, e) → (string_len x.1 <= S (string_len s))%nat ∧ e - Z.of_nat (S (string_len s)) ≤ x.2 ≤ e) as Hk
    by (intros x ->; simpl; lia).
  destruct c as [[] [] [] [] [] [] [] []]; try (apply Hk; reflexivity). specialize (IH (e - 1)). simpl in IH. lia.
Qed.
Lemma strip_trail_len s : (string_len (strip_trail s) <= string_len s)%nat.
Proof. induction s as [|c s IH]; simpl; [done|]. repeat case_decide; try case_match; simpl; lia. Qed.

Lemma float64_itoa `{GoRuntime} z : (string_len (itoa z) <= 15)%nat →
  float64_of (mk_dec false (itoa z) EmptyString 0) = Some (mk_dec false (itoa z) EmptyString 0).
Proof.
  intros Hl. apply float64_of_exact; unfold mk_dec; rewrite string_app_nil_r;
    pose proof (strip_lead_len (itoa z) (Z.of_nat (string_len (itoa z)) + 0)) as Hs; simpl in Hs;
    destruct (strip_lead _ _) as [ds e]; simpl in *; pose proof (strip_trail_len ds); [lia|].
  case_decide; lia.
Qed.

(** ** Maps with distinct keys *)

Lemma kv_insert_perm {A} k (v : A) l : k ∉ l.*1 → kv_insert k v l ≡ₚ (k, v) :: l.
Proof.
  induction l as [|[k' v'] l IH]; simpl; [done|]. rewrite not_elem_of_cons. intros [Hk Hl].
  case_decide; [done|]. case_match; [done|]. rewrite IH by done. apply Permutation_swap.
Qed.

Lemma kv_sort_acc {A} (l acc : list (string * A)) :
  NoDup (l.*1 ++ acc.*1) → foldl (λ acc '(k, v), kv_insert k v acc) acc l ≡ₚ l ++ acc.
Proof.
  revert acc. induction l as [|[k v] l IH]; intros acc Hd; simpl; [done|].
  simpl in Hd. apply NoDup_cons in Hd as [Hk Hd]. rewrite elem_of_app in Hk.
  assert (kv_insert k v acc ≡ₚ (k, v) :: acc) as Hp by (apply kv_insert_perm; tauto).
  rewrite IH.
  - rewrite Hp. by rewrite Permutation_middle.
  - rewrite (fmap_Permutation fst _ _ Hp). simpl. rewrite <- Permutation_middle.
    apply NoDup_cons. split; [rewrite elem_of_app; tauto | done].
Qed.
Lemma kv_sort_perm {A} (l : list (string * A)) : NoDup l.*1 → kv_sort l ≡ₚ l.
Proof. intros Hd. unfold kv_sort. rewrite kv_sort_acc; rewrite !app_nil_r; done. Qed.

(** The order depends on the keys only. *)
Lemma kv_insert_fmap {A B} (f : A → B) k v l :
  kv_insert k (f v) (map (λ kv, (kv.1, f kv.2)) l) = map (λ kv, (kv.1, f kv.2)) (kv_insert k v l).
Proof. induction l as [|[k' v'] l IH]; simpl; [done|]. case_decide; [done|]. case_match; [done|]. simpl. by rewrite IH. Qed.
Lemma kv_sort_fmap {A B} (f : A → B) l : kv_sort (map (λ kv, (kv.1, f kv.2)) l) = map (λ kv, (kv.1, f kv.2)) (kv_sort l).
Proof.
  unfold kv_sort. change (@nil (string * B)) with (map (λ kv : string * A, (kv.1, f kv.2)) []) at 1.
  generalize (@nil (string * A)). induction l as [|[k v] l IH]; intros acc; simpl; [done|]. by rewrite kv_insert_fmap, IH.
Qed.

(** ** Values *)

Section induction.
Context (P : goval → Prop).
Context (Hnil : P GNil) (Hbool : ∀ b, P (GBool b)) (Hstr : ∀ s, P (GStr s)) (Hint : ∀ z, P (GInt z)) (Hfloat : ∀ d, P (GFloat d)).
Context (Hslice : ∀ l, Forall P l → P (GSlice l)).
Context (Hmap : ∀ l, Forall (λ kv, P kv.2) l → P (GMap l)) (Hstruct : ∀ l, Forall (λ kv, P kv.2) l → P (GStruct l)).

Fixpoint goval_nested (v : goval) : P v :=
  match v with
  | GNil => Hnil
  | GBool b => Hbool b
  | GStr s => Hstr s
  | GInt z => Hint z
  | GFloat d => Hfloat d
  | GSlice l => Hslice l ((fix go l := match l return Forall P l with
      | [] => List.Forall_nil _ | v :: l => List.Forall_cons _ _ _ (goval_nested v) (go l) end) l)
  | GMap l => Hmap l ((fix go l := match l return Forall (λ kv, P kv.2) l with
      | [] => List.Forall_nil _ | kv :: l => List.Forall_cons _ _ _ (goval_nested kv.2) (go l) end) l)
  | GStruct l => Hstruct l ((fix go l := match l return Forall (λ kv, P kv.2) l with
      | [] => List.Forall_nil _ | kv :: l => List.Forall_cons _ _ _ (goval_nested kv.2) (go l) end) l)
  end.
End induction.

(** Values that survive: ASCII strings, integers up to 15 digits, maps whose keys
    are distinct. *)
Fixpoint plain (v : goval) : bool :=
  match v with
  | GNil | GBool _ => true
  | GStr s => ascii_str s
  | GInt z => (0 <=? z) && (string_len (itoa z) <=? 15)%nat
  | GFloat _ => false
  | GSlice l => forallb plain l
  | GMap l => bool_decide (NoDup l.*1) && forallb (λ kv, ascii_str kv.1 && plain kv.2) l
  | GStruct l => forallb (λ kv, ascii_str kv.1 && plain kv.2) l
  end.

(** What is read: the members of an object are put into a map in the order they
    were written in. *)
Fixpoint decoded (v : goval) : goval :=
  match v with
  | GInt z => GFloat (mk_dec false (itoa z) EmptyString 0)
  | GSlice l => GSlice (map decoded l)
  | GMap l => GMap (kv_sort (kv_sort (map (λ kv, (kv.1, decoded kv.2)) l)))
  | GStruct l => GMap (kv_sort (map (λ kv, (kv.1, decoded kv.2)) l))
  | _ => v
  end.

(** The fuel that a value needs. *)
Fixpoint cost (v : goval) : nat :=
  match v with
  | GSlice l => S (list_sum (map (λ v, S (cost v)) l))
  | GMap l | GStruct l => S (list_sum (map (λ kv, S (cost kv.2)) l))
  | _ => 1
  end.

(** ** Reading values *)

Definition members (l : list (string * goval)) : string :=
  str_join "," (map (λ kv, json_quote kv.1 +:+ ":" +:+ json_value kv.2) l).

(** A value starts with a character that is neither a space nor a bracket. *)
Lemma value_head v : plain v = true → ∃ c t, json_value v = String c t ∧ is_ws c = false ∧ Ascii.eqb "]" c = false.
Proof.
  destruct v as [|[]|s|z|d|l|l|l]; intros Hv; try (by eexists _, _; split; [reflexivity|]); [|done].
  simpl in Hv. apply andb_true_iff in Hv as [Hz _]. destruct (Z.eq_dec z 0) as [->|Hn]; [by eexists _, _; split; [reflexivity|]|].
  destruct (itoa_head z) as (c & s & E & H0 & Hc & Hs); [lia|]. exists c, s. split; [done|].
  by destruct c as [[] [] [] [] [] [] [] []].
Qed.

Section values.
Context `{GoRuntime}.

Lemma parse_string fuel s r :
  ascii_str s = true → parse_value (S fuel) (json_quote s +:+ r) = Some (GStr s, r).
Proof.
  intros Hs. rewrite json_quote_app. cbn [parse_value].
  replace (skip_ws _) with (String dquote (quote_body (string_len s) s +:+ String dquote r)) by done.
  cbn [parse_value]. change (Ascii.eqb dquote dquote) with true. cbv iota.
  by rewrite unquote_literal.
Qed.

Lemma parse_digit fuel c s : is_digit c = true →
  parse_value (S fuel) (String c s) =
    match scan_number (String c s) with
    | Some (d, r') => match float64_of d with Some f => Some (GFloat f, r') | None => None end
    | None => None
    end.
Proof. destruct c as [[] [] [] [] [] [] [] []]; intros Hc; try discriminate Hc; reflexivity. Qed.

Lemma parse_int fuel z r : plain (GInt z) = true → ends r →
  parse_value (S fuel) (itoa z +:+ r) = Some (decoded (GInt z), r).
Proof.
  intros Hv Hr. cbn [plain] in Hv. rewrite andb_true_iff, Z.leb_le, Nat.leb_le in Hv. destruct Hv as [Hz Hl].
  pose proof (scan_number_itoa z r Hz Hr) as Hs. pose proof (float64_itoa z Hl) as Hf.
  assert (∃ c s, itoa z = String c s ∧ is_digit c = true) as (c & s & E & Hc).
  { destruct (Z.eq_dec z 0) as [->|Hn]; [by eexists _, _|]. destruct (itoa_head z) as (c & s & E & _ & Hc & _); [lia | eauto]. }
  rewrite E in *. cbn [String.append] in *.
  cbn [decoded]. rewrite E, parse_digit, Hs, Hf; done.
Qed.

Definition reads (v : goval) : Prop :=
  ∀ fuel r, (cost v <= fuel)%nat → ends r → parse_value fuel (json_value v +:+ r) = Some (decoded v, r).

Lemma parse_members_all l : ∀ fuel acc r, l ≠ [] →
  Forall (λ kv, ascii_str kv.1 = true ∧ reads kv.2) l → (list_sum (map (λ kv, S (cost kv.2)) l) <= fuel)%nat →
  parse_members fuel acc (members l +:+ String "}" r) =
    Some (GMap (foldl (λ acc '(k, v), kv_insert k v acc) acc (map (λ kv, (kv.1, decoded kv.2)) l)), r).
Proof.
  induction l as [|[k v] l IH]; intros fuel acc r Hne Hl Hf; [done|].
  apply Forall_cons in Hl as [[Hk Hv] Hl]. simpl in Hf, Hk, Hv. destruct fuel as [|fuel]; [lia|].
  assert (∀ tail, ends tail → parse_members (S fuel) acc ((json_quote k +:+ ":" +:+ json_value v) +:+ tail) =
    match expect "," tail with
    | Some s5 => parse_members fuel (kv_insert k (decoded v) acc) s5
    | None => match expect "}" tail with
              | Some s5 => Some (GMap (kv_insert k (decoded v) acc), s5)
              | None => None
              end
    end) as Hone.
  { intros tail Ht. rewrite <- !string_app_assoc, json_quote_app.
    cbn [parse_members]. rewrite expect_here by done. rewrite unquote_literal by done.
    change (":" +:+ ?x) with (String ":" x). rewrite expect_here by done. rewrite Hv; [done | lia | done]. }
  destruct l as [|kv l].
  - unfold members. cbn [map str_join fst snd]. rewrite Hone by (simpl; auto). done.
  - replace (members ((k, v) :: kv :: l) +:+ String "}" r)
      with ((json_quote k +:+ ":" +:+ json_value v) +:+ String "," (members (kv :: l) +:+ String "}" r))
      by (unfold members; cbn [map str_join fst snd]; by rewrite <- !string_app_assoc).
    rewrite Hone by (simpl; auto). rewrite expect_here by done. rewrite IH; [done | done | done | simpl in *; lia].
Qed.

Lemma parse_elems_all l : ∀ fuel acc r, l ≠ [] → Forall reads l → (list_sum (map (λ v, S (cost v)) l) <= fuel)%nat →
  parse_elems fuel acc (str_join "," (map json_value l) +:+ String "]" r) = Some (GSlice (acc ++ map decoded l), r).
Proof.
  induction l as [|v l IH]; intros fuel acc r Hne Hl Hf; [done|]. apply Forall_cons in Hl as [Hv Hl].
  simpl in Hf. destruct fuel as [|fuel]; [lia|]. destruct l as [|v' l].
  - cbn [map str_join parse_elems]. rewrite Hv by (simpl; auto; lia). done.
  - replace (str_join "," (map json_value (v :: v' :: l)) +:+ String "]" r)
      with (json_value v +:+ String "," (str_join "," (map json_value (v' :: l)) +:+ String "]" r))
      by (cbn [map str_join]; by rewrite <- !string_app_assoc).
    cbn [parse_elems]. rewrite Hv by (simpl; auto; lia). rewrite expect_here by done.
    rewrite IH by (done || (simpl in *; lia)). by rewrite <- app_assoc.
Qed.

(** An object of members that are read. *)
Lemma parse_object l fuel r : Forall (λ kv, ascii_str kv.1 = true ∧ reads kv.2) l →
  (list_sum (map (λ kv, S (cost kv.2)) l) <= fuel)%nat →
  parse_value (S fuel) (("{" +:+ members l +:+ "}") +:+ r) = Some (GMap (kv_sort (map (λ kv, (kv.1, decoded kv.2)) l)), r).
Proof.
  intros Hl Hf. rewrite <- !string_app_assoc. change ("{" +:+ ?x) with (String "{" x). change ("}" +:+ r) with (String "}" r).
  cbn [parse_value]. change (skip_ws (String "{" ?x)) with (String "{" x). cbv iota.
  change (Ascii.eqb "{" dquote) with false. change (Ascii.eqb "{" "{") with true. cbv iota.
  destruct l as [|kv l]; [done|].
  assert (∃ t, members (kv :: l) +:+ String "}" r = String dquote t) as [t Ht].
  { unfold members. destruct l; cbn [map str_join]; rewrite <- !string_app_assoc, json_quote_app; eauto. }
  rewrite Ht, expect_other by done. rewrite <- Ht. by rewrite parse_members_all.
Qed.

Lemma plain_members l : forallb (λ kv, ascii_str kv.1 && plain kv.2) l = true →
  Forall (λ kv, plain kv.2 = true → reads kv.2) l → Forall (λ kv, ascii_str kv.1 = true ∧ reads kv.2) l.
Proof.
  induction 2 as [|kv l Hkv _ IH]; [constructor|]. simpl in *. rewrite !andb_true_iff in *. constructor; tauto.
Qed.

(** Every plain value is read back. *)
Lemma value_reads v : plain v = true → reads v.
Proof.
  induction v as [|b|s|z|d|l IH|l IH|l IH] using goval_nested; intros Hv [|fuel] r Hf Hr; try (simpl in Hf; lia).
  - done.
  - by destruct b.
  - by apply parse_string.
  - by apply parse_int.
  - done.
  - cbn [plain] in Hv. rewrite forallb_forall in Hv. cbn [json_value cost] in *. rewrite <- !string_app_assoc.
    change ("[" +:+ ?x) with (String "[" x). change ("]" +:+ r) with (String "]" r).
    cbn [parse_value]. change (skip_ws (String "[" ?x)) with (String "[" x). cbv iota.
    change (Ascii.eqb "[" dquote) with false. change (Ascii.eqb "[" "{") with false. change (Ascii.eqb "[" "[") with true. cbv iota.
    destruct l as [|v l]; [done|].
    assert (∃ c t, str_join "," (map json_value (v :: l)) +:+ String "]" r = String c t ∧ is_ws c = false ∧ Ascii.eqb "]" c = false)
      as (c & t & Ht & Hws & Hc).
    { destruct (value_head v) as (c & t & E & ? & ?); [apply Hv; by left|].
      destruct l; cbn [map str_join]; rewrite E; cbn [String.append]; eauto. }
    rewrite Ht, expect_other by done. rewrite <- Ht. rewrite parse_elems_all; [done | done | | lia].
    apply Forall_forall. intros x Hx. rewrite Forall_forall in IH. apply IH; [done|]. apply Hv. by apply list_elem_of_In.
  - cbn [plain] in Hv. apply andb_true_iff in Hv as [Hd%bool_decide_eq_true Hv].
    cbn [json_value cost decoded] in *. rewrite kv_sort_fmap, map_map. cbn [fst snd]. fold (members (kv_sort l)).
    pose proof (kv_sort_perm l Hd) as Hp.
    rewrite parse_object; [by rewrite <- kv_sort_fmap | |].
    + rewrite Hp. by apply plain_members.
    + assert (list_sum (map (λ kv, S (cost kv.2)) (kv_sort l)) = list_sum (map (λ kv, S (cost kv.2)) l)) as ->; [|lia].
      by rewrite Hp.
  - cbn [plain json_value cost decoded] in *. apply parse_object; [by apply plain_members | lia].
Qed.

Lemma plain_lens l : forallb (λ kv, ascii_str kv.1 && plain kv.2) l = true →
  Forall (λ kv, plain kv.2 = true → (cost kv.2 <= string_len (json_value kv.2))%nat) l →
  Forall (λ kv, (cost kv.2 <= string_len (json_value kv.2))%nat) l.
Proof.
  induction 2 as [|kv l Hkv _ IH]; [constructor|]. simpl in *. rewrite !andb_true_iff in *. constructor; tauto.
Qed.

(** The text of a value is at least as long as the fuel it needs. *)
Lemma members_len l : Forall (λ kv, (cost kv.2 <= string_len (json_value kv.2))%nat) l →
  (list_sum (map (λ kv, S (cost kv.2)) l) <= string_len (members l))%nat.
Proof.
  induction 1 as [|[k v] l Hv _ IH]; [done|]. unfold members in *.
  assert (cost v < string_len (json_quote k +:+ ":" +:+ json_value v))%nat as H1.
  { rewrite json_quote_app. cbn [string_len]. rewrite !string_len_app. simpl in *. cbn [string_len String.append]. rewrite ?string_len_app. cbn [string_len]. rewrite ?string_len_app. cbn [string_len]. lia. }
  set (m := λ kv : string * goval, json_quote kv.1 +:+ ":" +:+ json_value kv.2) in *. change (cost v < string_len (m (k, v)))%nat in H1.
  destruct l as [|kv l]; [change (S (cost v) + 0 <= string_len (m (k, v)))%nat; lia|].
  change (str_join "," (map m ((k, v) :: kv :: l))) with (m (k, v) +:+ "," +:+ str_join "," (map m (kv :: l))).
  rewrite !string_len_app. set (f := λ kv : string * goval, S (cost kv.2)) in *.
  change (S (cost v) + list_sum (map f (kv :: l)) <= string_len (m (k, v)) + (1 + string_len (str_join "," (map m (kv :: l)))))%nat. lia.
Qed.

Lemma cost_len v : plain v = true → (cost v <= string_len (json_value v))%nat.
Proof.
  induction v as [|b|s|z|d|l IH|l IH|l IH] using goval_nested; intros Hv.
  - simpl; lia.
  - destruct b; simpl; lia.
  - simpl. lia.
  - destruct (value_head (GInt z) Hv) as (c & t & E & _). rewrite E. simpl. lia.
  - done.
  - cbn [plain] in Hv. rewrite forallb_forall in Hv. cbn [cost json_value]. rewrite !string_len_app. simpl string_len at 1.
    enough (list_sum (map (λ v, S (cost v)) l) <= S (string_len (str_join "," (map json_value l))))%nat by (simpl; lia).
    assert (Forall (λ v, cost v <= string_len (json_value v))%nat l) as Hl.
    { apply Forall_forall. intros x Hx. rewrite Forall_forall in IH. apply IH; [done|]. apply Hv. by apply list_elem_of_In. }
    clear -Hl. induction Hl as [|v l Hv Hl IH]; [simpl; lia|]. destruct l; cbn [map str_join list_sum foldr] in *; [lia|].
    rewrite !string_len_app. simpl in *. lia.
  - cbn [plain] in Hv. apply andb_true_iff in Hv as [Hd%bool_decide_eq_true Hv].
    cbn [cost json_value]. rewrite kv_sort_fmap, map_map. cbn [fst snd]. fold (members (kv_sort l)). rewrite !string_len_app.
    pose proof (kv_sort_perm l Hd) as Hp.
    pose proof (members_len (kv_sort l)) as Hm. rewrite Hp in Hm at 1 2. specialize (Hm (plain_lens l Hv IH)). simpl. lia.
  - cbn [plain] in Hv. cbn [cost json_value]. fold (members l). rewrite !string_len_app.
    pose proof (members_len l (plain_lens l Hv IH)). simpl. lia.
Qed.

(** A message is read back: as a map or as a struct, every field is there with
    its value. *)
Lemma parse_message l :
  NoDup l.*1 → Forall (λ kv, ascii_str kv.1 = true ∧ plain kv.2 = true) l →
  ∃ m, CreateJSONParser (json_marshal l) = Some m ∧ CreateJSONParser (json_value (GStruct l)) = Some m ∧
    ∀ k, m !! k = decoded <$> (list_to_map l : gmap string goval) !! k.
Proof.
  intros Hd Hl. set (dl := map (λ kv, (kv.1, decoded kv.2)) l).
  assert (forallb (λ kv, ascii_str kv.1 && plain kv.2) l = true) as Hf.
  { clear -Hl. induction Hl as [|kv l [H1 H2] _ IH]; simpl; [done|]. by rewrite H1, H2. }
  assert (dl.*1 = l.*1) as Ek by (unfold dl; clear; induction l as [|[k v] l IH]; csimpl; [done | by f_equal]).
  assert (NoDup dl.*1) as Hd' by by rewrite Ek.
  assert (∀ v l', plain v = true → decoded v = GMap l' → CreateJSONParser (json_value v) = Some (list_to_map l')) as Hread.
  { intros v l' Hv Ev. unfold CreateJSONParser, json_unmarshal. rewrite <- (string_app_nil_r (json_value v)) at 2.
    rewrite (value_reads v Hv); [|pose proof (cost_len v Hv); lia | done]. by rewrite Ev. }
  exists (list_to_map dl). split_and!.
  - unfold json_marshal. rewrite (Hread (GMap l) (kv_sort (kv_sort dl))); [|simpl; by rewrite Hf, bool_decide_eq_true_2 | done].
    f_equal. pose proof (kv_sort_perm dl Hd') as Hp.
    assert (NoDup (kv_sort dl).*1) as Hd2 by by rewrite Hp.
    pose proof (kv_sort_perm _ Hd2) as Hp2.
    apply list_to_map_proper; [by rewrite Hp2 | by rewrite Hp2, Hp].
  - rewrite (Hread (GStruct l) (kv_sort dl)); [|done | done]. f_equal. pose proof (kv_sort_perm dl Hd') as Hp.
    apply list_to_map_proper; [by rewrite Hp | done].
  - intros k. unfold dl. clear. induction l as [|[k' v] l IH]; simpl; [done|]. rewrite !lookup_insert. by case_decide.
Qed.
End values.

(** ** Messages of strings *)

Definition strings (l : list (string * string)) : list (string * goval) :=
  (λ kv, (kv.1, GStr kv.2)) <$> l.

Lemma strings_keys l : (strings l).*1 = l.*1.
Proof. unfold strings. rewrite <- list_fmap_compose. by apply list_fmap_ext. Qed.

Lemma strings_lookup (l : list (string * string)) k :
  (list_to_map (strings l) : gmap string goval) !! k = GStr <$> (list_to_map l : gmap string string) !! k.
Proof.
  unfold strings. induction l as [|[k' v] l IH]; simpl; [by rewrite !lookup_empty|].
  rewrite !lookup_insert. case_decide; [done | exact IH].
Qed.

(** Reading what Marshal writes of strings. *)
Lemma parse_marshal `{GoRuntime} l :
  NoDup l.*1 → Forall (λ kv, ascii_str kv.1 = true ∧ ascii_str kv.2 = true) l →
  ∃ m, CreateJSONParser (json_marshal (strings l)) = Some m ∧
    ∀ k, GetValue m k = default EmptyString ((list_to_map l : gmap string string) !! k).
Proof.
  intros Hd Hl. destruct (parse_message (strings l)) as (m & Hm & _ & Hk).
  - by rewrite strings_keys.
  - unfold strings. by apply Forall_fmap.
  - exists m. split; [done|]. intros k. unfold GetValue. rewrite Hk, strings_lookup. by destruct (_ !! k).
Qed.

(** Going through an encoding once more changes nothing. *)
Lemma json_reencode_ascii s : ascii_str s = true → json_reencode s = s.
Proof.
  intros Hs. unfold json_reencode. rewrite unquote_quote; [done | done | done |].
  pose proof (quote_len s (string_len s) ltac:(lia) Hs). lia.
Qed.

(** C28. A message with distinct ASCII keys whose values are ASCII strings,
    non-negative integers of up to 15 digits, booleans, nil, lists, maps and
    structs of such values, written by json.Marshal as a map or as a struct, is
    read back by CreateJSONParser: GetValue gives the printed form of what is
    decoded for every key (an integer is a float64 then, an object a map), and
    the empty string for the others. *)
Theorem message_roundtrip `{GoRuntime} l :
  NoDup l.*1 → Forall (λ kv, ascii_str kv.1 = true ∧ plain kv.2 = true) l →
  ∃ m, CreateJSONParser (json_marshal l) = Some m ∧ CreateJSONParser (json_value (GStruct l)) = Some m ∧
    ∀ k, GetValue m k = default EmptyString (fmt_v ∘ decoded <$> (list_to_map l : gmap string goval) !! k).
Proof.
  intros Hd Hl. destruct (parse_message l Hd Hl) as (m & H1 & H2 & Hk). exists m. split_and!; [done..|].
  intros k. unfold GetValue. rewrite Hk. by destruct (_ !! k).
Qed.

(** The message with a candidate of this pod for another cluster. *)
Definition sample_message : list (string * goval) := [
  (LabelCmd, GStr CmdFakeCandidate); (LabelPodId, GStr "pod <2>"); (LabelPeerID, GStr "q\1"); ("isptype", GInt 120);
  ("candidate", GStruct [("candidate", GStr "candidate:1 1 udp 1 10.0.0.1 5000 typ host"); ("sdpMid", GStr EmptyString);
                         ("sdpMLineIndex", GInt 0); ("usernameFragment", GNil)])].

Lemma message_roundtrip_witness :
  ∃ m, CreateJSONParser (json_value (GStruct sample_message)) = Some m ∧
    GetValue m "isptype" = "120" ∧
    GetValue m "candidate" =
      "map[candidate:candidate:1 1 udp 1 10.0.0.1 5000 typ host sdpMLineIndex:0 sdpMid: usernameFragment:<nil>]".
Proof.
  destruct (message_roundtrip sample_message) as (m & _ & H2 & Hk).
  - apply (bool_decide_unpack (NoDup sample_message.*1)). vm_compute. exact I.
  - repeat constructor; vm_compute; reflexivity.
  - exists m. split; [exact H2|]. rewrite !Hk. split; vm_compute; reflexivity.
Defined.
