(* ===== verification/Invariant.v ===== *)
(** * The well-formedness of the server's memory

    [heap_ok] says how the objects are linked: a publisher in a session's map
    is stored under its own peer id, a subscriber under the concatenation the
    lookups use, both are open and point back to the session; a session in a
    room's map is stored under its user id and points back to the room; a room
    is stored under its room id; goroutines refer to existing objects.

    Most operations keep the links of every object that exists ([keeps]): for
    them [ntr] is a triple whose rules follow the structure of the program.
    The triples carry the set of mutexes held, and bound the ways a run can
    stop ([safe_stop]). *)

From S2P Require Import Prelude GoLib Json Constants KeyframeFilter World Rmq Peer Notify Session.

(** ** Stops

    What never happens: closing a closed channel, following a dangling
    pointer, waiting for a mutex the goroutine itself holds, releasing one it
    does not hold, waiting for the watchers of a session forever. *)
Definition safe_stop (r : stop) : Prop :=
  match r with
  | PCloseClosed | PDangling | PMutex _ | HLock _ | HChan CWaitSession => False
  | _ => True
  end.

(** ** The invariant *)

Definition pshape (pr : peer) : string * string * string * Z * nat * bool :=
  (p_userid pr, p_remoteuserid pr, p_peerid pr, p_role pr, p_parent pr, p_exitCh_closed pr).
Definition sshape (x : session) : string * nat * gmap string nat * gmap string nat :=
  (s_userid x, s_parent x, s_publishers x, s_subscribers x).
Definition rshape (x : room) : string * gmap string nat := (r_roomid x, r_sessions x).

Definition sub_key (pr : peer) : string := p_userid pr +:+ p_remoteuserid pr +:+ p_peerid pr.

Definition pub_slot (s : nat) (k : string) (pr : peer) : Prop :=
  p_parent pr = s ∧ p_role pr = 1 ∧ p_peerid pr = k.
Definition sub_slot (s : nat) (k : string) (pr : peer) : Prop :=
  p_parent pr = s ∧ p_role pr = 2 ∧ sub_key pr = k.

Definition role_ok (pr : peer) : Prop :=
  (p_role pr = 1 ∧ is_Some (p_filter pr) ∧ is_Some (p_audiossrc pr) ∧
   is_Some (p_videossrc pr) ∧ is_Some (p_appssrc pr)) ∨
  (p_role pr = 2 ∧ p_filter pr = None).

Definition peer_ok (w : world) (pr : peer) : Prop :=
  is_Some (w_sess w !! p_parent pr) ∧ role_ok pr ∧
  (p_exitCh_closed pr = true ↔ p_peerConnection pr = None).

Definition sess_ok (w : world) (x : session) : Prop :=
  is_Some (w_rooms w !! s_parent x) ∧ (length (s_watchers x) <= 1)%nat ∧
  (s_origin x = true → s_clusterid x = "" ∧ s_podid x = "").

Definition task_ok (w : world) (t : task) : Prop :=
  match t with
  | TReleaseRoom _ => True
  | TMqConnect q | TCenterRMQConnect q => is_Some (mq_objs (w_rmq w) !! q)
  | TOnPublisherReady r _ _ _ | TOnPublisherPeerFailed r _ _ | TOnPublisherPeerClosed r _ _
  | TOnSubscriberPeerDisconnected r _ _ _ | TOnSubscriberPeerFailed r _ _ _
  | TOnSubscriberPeerClosed r _ _ _ | TKickoutFromRoom r _ => is_Some (w_rooms w !! r)
  | TReleaseSubscriberPeer s _ _ _ | THandleSubscriberLeaved s _ | TCheckKeepAlive s
  | TFakePublisherReConnect s _ _ _ => is_Some (w_sess w !! s)
  | TRequestKeyframe p | TRequestKeyframeNow p | TCheckIceInfo p _ _ _ =>
      is_Some (w_peers w !! p)
  end.

(** The exchanges the package variables and the RabbitMQ objects point to; they
    exist, and so do the objects receivers belong to. *)
Definition rmq_ptr (g : rmqstate) (x : nat) : Prop :=
  exc_pub_dr g = Some x ∨ exc_proxy_bc g = Some x ∨ exc_cluster_bc g = Some x ∨
  exc_cross_cluster_dr g = Some x ∨ exc_cross_cluster_bc g = Some x ∨
  ∃ q r, mq_objs g !! q = Some r ∧ x ∈ q_exs r.
Definition rmq_ok (g : rmqstate) : Prop :=
  (∀ x, rmq_ptr g x → is_Some (mq_exchanges g !! x)) ∧
  (∀ x ex q, mq_exchanges g !! x = Some ex → x_parent ex = Some q → is_Some (mq_objs g !! q)).

(** Objects are only added. *)
Definition rmq_grows (g g' : rmqstate) : Prop :=
  (∀ q, is_Some (mq_objs g !! q) → is_Some (mq_objs g' !! q)) ∧
  (∀ x, is_Some (mq_exchanges g !! x) → is_Some (mq_exchanges g' !! x)).

(** The peers of [X] may be closed while a map still holds them: an operation
    that destroys peers and then empties the map passes through such states.
    Between two goroutines [X] is empty. *)
Record heap_ok (X : gset nat) (w : world) : Prop := {
  ho_next_p : ∀ p, is_Some (w_peers w !! p) → (p < w_next w)%nat;
  ho_next_s : ∀ s, is_Some (w_sess w !! s) → (s < w_next w)%nat;
  ho_next_r : ∀ r, is_Some (w_rooms w !! r) → (r < w_next w)%nat;
  ho_peer : ∀ p pr, w_peers w !! p = Some pr → peer_ok w pr;
  ho_sess : ∀ s x, w_sess w !! s = Some x → sess_ok w x;
  ho_pub : ∀ s x k p, w_sess w !! s = Some x → s_publishers x !! k = Some p →
    ∃ pr, w_peers w !! p = Some pr ∧ pub_slot s k pr ∧
      (p ∉ X → p_exitCh_closed pr = false);
  ho_sub : ∀ s x k p, w_sess w !! s = Some x → s_subscribers x !! k = Some p →
    ∃ pr, w_peers w !! p = Some pr ∧ sub_slot s k pr ∧
      (p ∉ X → p_exitCh_closed pr = false);
  ho_room : ∀ r x k s, w_rooms w !! r = Some x → r_sessions x !! k = Some s →
    ∃ y, w_sess w !! s = Some y ∧ s_userid y = k ∧ s_parent y = r;
  ho_mgr : ∀ k r, m_rooms (w_mgr w) !! k = Some r →
    ∃ x, w_rooms w !! r = Some x ∧ r_roomid x = k;
  ho_tasks : Forall (task_ok w) (w_tasks w);
  ho_rmq : rmq_ok (w_rmq w);
}.

Implicit Types X : gset nat.

Arguments ho_next_p {X} w _.
Arguments ho_next_s {X} w _.
Arguments ho_next_r {X} w _.
Arguments ho_peer {X} w _.
Arguments ho_sess {X} w _.
Arguments ho_pub {X} w _.
Arguments ho_sub {X} w _.
Arguments ho_room {X} w _.
Arguments ho_mgr {X} w _.
Arguments ho_tasks {X} w _.
Arguments ho_rmq {X} w _.

(** ** What most operations keep *)

Record keeps (w0 w : world) : Prop := {
  ke_p : ∀ p pr, w_peers w0 !! p = Some pr →
    ∃ pr', w_peers w !! p = Some pr' ∧ pshape pr' = pshape pr;
  ke_s : ∀ s x, w_sess w0 !! s = Some x →
    ∃ x', w_sess w !! s = Some x' ∧ sshape x' = sshape x;
  ke_r : ∀ r x, w_rooms w0 !! r = Some x →
    ∃ x', w_rooms w !! r = Some x' ∧ rshape x' = rshape x;
  ke_m : m_rooms (w_mgr w) = m_rooms (w_mgr w0);
  ke_q : rmq_grows (w_rmq w0) (w_rmq w);
}.

#[export] Instance keeps_preorder : PreOrder keeps.
Proof.
  split.
  - intros w. split; try split; eauto.
  - intros w1 w2 w3 [P1 S1 R1 M1 [Q1 X1]] [P2 S2 R2 M2 [Q2 X2]]. split.
    + intros p pr H. destruct (P1 _ _ H) as (pr' & H' & E').
      destruct (P2 _ _ H') as (? & ? & ?). eexists; split; [done | congruence].
    + intros p pr H. destruct (S1 _ _ H) as (pr' & H' & E').
      destruct (S2 _ _ H') as (? & ? & ?). eexists; split; [done | congruence].
    + intros p pr H. destruct (R1 _ _ H) as (pr' & H' & E').
      destruct (R2 _ _ H') as (? & ? & ?). eexists; split; [done | congruence].
    + congruence.
    + split; auto.
Qed.

(** Two worlds that agree on the objects, the tasks and the counter. *)
Record same_heap (w w' : world) : Prop := {
  sh_p : w_peers w' = w_peers w;
  sh_s : w_sess w' = w_sess w;
  sh_r : w_rooms w' = w_rooms w;
  sh_m : m_rooms (w_mgr w') = m_rooms (w_mgr w);
  sh_t : w_tasks w' = w_tasks w;
  sh_n : (w_next w <= w_next w')%nat;
  sh_q : w_rmq w' = w_rmq w;
}.

Lemma same_heap_ok {X} w w' : same_heap w w' → heap_ok X w → heap_ok X w'.
Proof.
  intros [Ep Es Er Em Et En Eq] [Np Ns Nr Hp Hs Hpub Hsub Hr Hm Ht Hq].
  split; rewrite ?Ep, ?Es, ?Er, ?Em, ?Et, ?Eq; try done.
  - intros p Hp'. specialize (Np p Hp'). lia.
  - intros p Hp'. specialize (Ns p Hp'). lia.
  - intros p Hp'. specialize (Nr p Hp'). lia.
  - intros p pr H. destruct (Hp _ _ H) as (? & ? & ?). split; [by rewrite Es | done].
  - intros s x H. destruct (Hs _ _ H) as (? & ? & ?). split; [by rewrite Er | done].
  - eapply Forall_impl; [exact Ht|]. intros []; simpl; by rewrite ?Ep, ?Es, ?Er, ?Eq.
Qed.

Lemma same_heap_keeps w w' : same_heap w w' → keeps w w'.
Proof.
  intros [Ep Es Er Em Et En Eq]. split; rewrite ?Ep, ?Es, ?Er, ?Em, ?Eq; try split; eauto.
Qed.

(** *** Validity is kept *)

Lemma keeps_task w w' t : keeps w w' → task_ok w t → task_ok w' t.
Proof.
  intros [P S R _ [Q _]]. destruct t; simpl; try done; try apply Q; intros [x Hx];
    (edestruct P as (? & -> & _); [done|done])
    || (edestruct S as (? & -> & _); [done|done])
    || (edestruct R as (? & -> & _); [done|done]).
Qed.

Lemma keeps_peer_ok w w' pr : keeps w w' → peer_ok w pr → peer_ok w' pr.
Proof.
  intros K ([x Hx] & Hr & Hc). destruct (ke_s _ _ K _ _ Hx) as (? & Hx' & _).
  split; [by rewrite Hx' | done].
Qed.

Lemma keeps_sess_ok w w' x : keeps w w' → sess_ok w x → sess_ok w' x.
Proof.
  intros K ([y Hy] & Hw). destruct (ke_r _ _ K _ _ Hy) as (? & Hy' & _).
  split; [by rewrite Hy' | done].
Qed.

Lemma pub_slot_shape s k pr pr' : pshape pr' = pshape pr → pub_slot s k pr → pub_slot s k pr'.
Proof. unfold pshape, pub_slot. intros [=] (? & ? & ?). repeat split; congruence. Qed.

Lemma sub_slot_shape s k pr pr' : pshape pr' = pshape pr → sub_slot s k pr → sub_slot s k pr'.
Proof.
  unfold pshape, sub_slot, sub_key. intros [=] (? & ? & ?).
  repeat split; congruence.
Qed.

(** ** Updates that keep the links *)

(** A lookup after [alter]: the new value and the old one. *)
Lemma lookup_alter_inv {A} (g : A → A) (m : gmap nat A) i j y :
  alter g i m !! j = Some y → ∃ x, m !! j = Some x ∧ y = if decide (i = j) then g x else x.
Proof.
  rewrite lookup_alter. destruct (decide (i = j)) as [->|]; [|by eauto].
  destruct (m !! j); simpl; [|done]. intros [= <-]. eauto.
Qed.

Lemma is_Some_alter {A} (g : A → A) (m : gmap nat A) i j :
  is_Some (alter g i m !! j) ↔ is_Some (m !! j).
Proof.
  rewrite lookup_alter. destruct (decide (i = j)) as [->|]; [|done].
  destruct (m !! j); simpl; split; intros [? ?]; by eauto.
Qed.

(** What an update of a peer must respect. *)
Definition peer_upd_ok (g : peer → peer) : Prop := ∀ pr,
  pshape (g pr) = pshape pr ∧ (role_ok pr → role_ok (g pr)) ∧
  (p_peerConnection (g pr) = None ↔ p_peerConnection pr = None).

Definition sess_upd_ok (g : session → session) : Prop := ∀ x,
  sshape (g x) = sshape x ∧
  ((length (s_watchers x) <= 1)%nat → (length (s_watchers (g x)) <= 1)%nat) ∧
  s_origin (g x) = s_origin x ∧ s_clusterid (g x) = s_clusterid x ∧ s_podid (g x) = s_podid x.

Lemma keeps_upd_peer w p g :
  (∀ pr, w_peers w !! p = Some pr → pshape (g pr) = pshape pr) →
  keeps w (set_w_peers (alter g p) w).
Proof.
  intros Hg. split; simpl; try (by split); eauto. intros q pr H. rewrite lookup_alter.
  destruct (decide (p = q)) as [->|]; [|by eauto]. rewrite H; simpl. eauto.
Qed.

Lemma heap_upd_peer {X} w p g :
  heap_ok X w →
  (∀ pr, w_peers w !! p = Some pr →
    pshape (g pr) = pshape pr ∧ (role_ok pr → role_ok (g pr)) ∧
    (p_peerConnection (g pr) = None ↔ p_peerConnection pr = None)) →
  heap_ok X (set_w_peers (alter g p) w).
Proof.
  intros Hok Hg.
  assert (keeps w (set_w_peers (alter g p) w)) as K by (apply keeps_upd_peer; intros; by apply Hg).
  destruct Hok as [Np Ns Nr Hp Hs Hpub Hsub Hr Hm Ht Hq].
  split; simpl; try done.
  - intros q. rewrite is_Some_alter. apply Np.
  - intros q y H. apply lookup_alter_inv in H as (x & Hx & ->).
    destruct (Hp _ _ Hx) as (Hpar & Hrole & Hc).
    destruct (decide (p = q)) as [->|]; [|by split].
    destruct (Hg _ Hx) as (Esh & Hrole' & Hpc). injection Esh as E1 E2 E3 E4 E5 E6.
    split; [|split]; [by rewrite E5 | auto | by rewrite E6, Hpc].
  - intros s x k q Hx Hk. destruct (Hpub _ _ _ _ Hx Hk) as (pr & Hpr & Hslot & Hop).
    destruct (ke_p _ _ K _ _ Hpr) as (pr' & Hpr' & E). exists pr'. split; [done|].
    split; [by eapply pub_slot_shape|]. injection E as _ _ _ _ _ ->. done.
  - intros s x k q Hx Hk. destruct (Hsub _ _ _ _ Hx Hk) as (pr & Hpr & Hslot & Hop).
    destruct (ke_p _ _ K _ _ Hpr) as (pr' & Hpr' & E). exists pr'. split; [done|].
    split; [by eapply sub_slot_shape|]. injection E as _ _ _ _ _ ->. done.
  - eapply Forall_impl; [exact Ht|]. intros t. by apply keeps_task.
Qed.

Lemma keeps_upd_sess w s g :
  (∀ x, w_sess w !! s = Some x → sshape (g x) = sshape x) →
  keeps w (set_w_sess (alter g s) w).
Proof.
  intros Hg. split; simpl; try (by split); eauto. intros q x H. rewrite lookup_alter.
  destruct (decide (s = q)) as [->|]; [|by eauto]. rewrite H; simpl. eauto.
Qed.

Lemma heap_upd_sess {X} w s g :
  heap_ok X w →
  (∀ x, w_sess w !! s = Some x → sshape (g x) = sshape x ∧ (sess_ok w x → sess_ok w (g x))) →
  heap_ok X (set_w_sess (alter g s) w).
Proof.
  intros Hok Hg.
  assert (keeps w (set_w_sess (alter g s) w)) as K by (apply keeps_upd_sess; intros; by apply Hg).
  destruct Hok as [Np Ns Nr Hp Hs Hpub Hsub Hr Hm Ht Hq].
  split; simpl; try done.
  - intros q. rewrite is_Some_alter. apply Ns.
  - intros q pr H. by eapply keeps_peer_ok, Hp.
  - intros q y H. apply lookup_alter_inv in H as (x & Hx & ->).
    eapply keeps_sess_ok; [done|]. destruct (decide (s = q)) as [->|]; [|by eapply Hs].
    apply Hg; [done|]. by eapply Hs.
  - intros q y k p H Hk. apply lookup_alter_inv in H as (x & Hx & ->).
    eapply Hpub; [done|]. destruct (decide (s = q)) as [->|]; [|done].
    destruct (Hg _ Hx) as [[=] _]. congruence.
  - intros q y k p H Hk. apply lookup_alter_inv in H as (x & Hx & ->).
    eapply Hsub; [done|]. destruct (decide (s = q)) as [->|]; [|done].
    destruct (Hg _ Hx) as [[=] _]. congruence.
  - intros r x k q H Hk. destruct (Hr _ _ _ _ H Hk) as (y & Hy & E1 & E2).
    destruct (ke_s _ _ K _ _ Hy) as (y' & Hy' & [=]).
    exists y'. split; [done|]. split; congruence.
  - eapply Forall_impl; [exact Ht|]. intros t. by apply keeps_task.
Qed.

Lemma keeps_upd_room w r g :
  (∀ x, w_rooms w !! r = Some x → rshape (g x) = rshape x) →
  keeps w (set_w_rooms (alter g r) w).
Proof.
  intros Hg. split; simpl; try (by split); eauto. intros q x H. rewrite lookup_alter.
  destruct (decide (r = q)) as [->|]; [|by eauto]. rewrite H; simpl. eauto.
Qed.

Lemma heap_upd_room {X} w r g :
  heap_ok X w → (∀ x, w_rooms w !! r = Some x → rshape (g x) = rshape x) →
  heap_ok X (set_w_rooms (alter g r) w).
Proof.
  intros Hok Hg.
  assert (keeps w (set_w_rooms (alter g r) w)) as K by by apply keeps_upd_room.
  destruct Hok as [Np Ns Nr Hp Hs Hpub Hsub Hr Hm Ht Hq].
  split; simpl; try done.
  - intros q. rewrite is_Some_alter. apply Nr.
  - intros q x H. by eapply keeps_sess_ok, Hs.
  - intros q y k s H Hk. apply lookup_alter_inv in H as (x & Hx & ->).
    eapply Hr; [done|]. destruct (decide (r = q)) as [->|]; [|done].
    specialize (Hg _ Hx). injection Hg as ? ?. congruence.
  - intros k q Hk. destruct (Hm _ _ Hk) as (x & Hx & E).
    destruct (ke_r _ _ K _ _ Hx) as (x' & Hx' & [=]). exists x'. split; [done | congruence].
  - eapply Forall_impl; [exact Ht|]. intros t. by apply keeps_task.
Qed.

Lemma heap_spawn {X} w t : heap_ok X w → task_ok w t → heap_ok X (set_w_tasks (λ l, l ++ [t]) w).
Proof.
  intros [Np Ns Nr Hp Hs Hpub Hsub Hr Hm Ht Hq] Hok. split; simpl; try done.
  apply Forall_app. split; [exact Ht|]. by constructor.
Qed.

Lemma keeps_tasks w g : keeps w (set_w_tasks g w).
Proof. split; simpl; try split; eauto. Qed.

(** ** Neutral operations

    [ntr X w0 L m L']: from any well-formed world that keeps the links of [w0]
    and where the mutexes [L] are held, [m] leads to a well-formed world that
    keeps the links of [w0] and where [L'] are held, or stops safely. *)
Definition ntr {A} (X : gset nat) (w0 : world) (L : gmap lockid lockstate) (m : MW A)
    (L' : gmap lockid lockstate) : Prop := ∀ w,
  heap_ok X w → keeps w0 w → w_locks w = L →
  wp m (λ _ w', heap_ok X w' ∧ keeps w0 w' ∧ w_locks w' = L') (λ r _, safe_stop r) w.

Lemma ntr_ret {X} {A} w0 L (a : A) : ntr X w0 L (mret a) L.
Proof. intros w H K E. by apply wp_ret. Qed.

Lemma ntr_skip {X} w0 L : ntr X w0 L skip L.
Proof. apply ntr_ret. Qed.

Lemma ntr_bind {X} {A B} w0 L L1 L2 (m : MW A) (k : A → MW B) :
  ntr X w0 L m L1 → (∀ a, ntr X w0 L1 (k a) L2) → ntr X w0 L (m ≫= k) L2.
Proof.
  intros Hm Hk w H K E. apply wp_bind. eapply wp_mono; [by apply Hm | | done].
  intros a w' (H' & K' & E'). by apply Hk.
Qed.

Lemma ntr_halt {X} {A} w0 L L' r : safe_stop r → ntr X w0 L (halt r : MW A) L'.
Proof. intros Hr w H K E. by apply wp_halt. Qed.

Lemma ntr_from_some {X} {A} w0 L r (o : option A) : safe_stop r → ntr X w0 L (from_some r o) L.
Proof. intros Hr. destruct o; [apply ntr_ret | by apply ntr_halt]. Qed.

Lemma ntr_gets {X} {A} w0 L (f : world → A) : ntr X w0 L (gets f) L.
Proof. intros w H K E. by apply wp_gets. Qed.

Lemma ntr_modify {X} w0 L g :
  (∀ w, heap_ok X w → keeps w0 w → heap_ok X (g w) ∧ keeps w (g w) ∧ w_locks (g w) = w_locks w) →
  ntr X w0 L (modify g) L.
Proof.
  intros Hg w H K E. apply wp_modify. destruct (Hg w H K) as (? & K' & ?).
  split; [done|]. split; [by etrans | congruence].
Qed.

(** A change outside the objects. *)
Lemma ntr_other {X} w0 L g :
  (∀ w, same_heap w (g w) ∧ w_locks (g w) = w_locks w) → ntr X w0 L (modify g) L.
Proof.
  intros Hg. apply ntr_modify. intros w H K. destruct (Hg w) as [Hs ?].
  split; [by eapply same_heap_ok|]. split; [by apply same_heap_keeps | done].
Qed.

Lemma ntr_emit {X} w0 L e : ntr X w0 L (emit e) L.
Proof. apply ntr_other. intros w. by repeat split. Qed.

Lemma ntr_choose {X} w0 L : ntr X w0 L choose L.
Proof.
  eapply ntr_bind; [apply ntr_gets|]. intros n.
  eapply ntr_bind; [|intros; apply ntr_ret]. apply ntr_other. intros w. by repeat split.
Qed.

(** Changes of the RabbitMQ state that only move between existing objects. *)
Definition rmq_upd_ok (g : rmqstate → rmqstate) : Prop :=
  ∀ r, rmq_grows r (g r) ∧ (rmq_ok r → rmq_ok (g r)).

Lemma heap_upd_rmq {X} w g :
  heap_ok X w → rmq_grows (w_rmq w) (g (w_rmq w)) → rmq_ok (g (w_rmq w)) →
  heap_ok X (set_w_rmq g w) ∧ keeps w (set_w_rmq g w).
Proof.
  intros Hok Hgr Hrok. assert (keeps w (set_w_rmq g w)) as K by (split; simpl; eauto).
  split; [|done]. destruct Hok as [Np Ns Nr Hp Hs Hpub Hsub Hr Hm Ht Hq].
  split; simpl; try done. eapply Forall_impl; [exact Ht|]. intros t. by apply keeps_task.
Qed.

Lemma ntr_upd_rmq {X} w0 L g : rmq_upd_ok g → ntr X w0 L (upd_rmq g) L.
Proof.
  intros Hg. apply ntr_modify. intros w H K. destruct (Hg (w_rmq w)) as [Hgr Hok].
  destruct (heap_upd_rmq w g H Hgr (Hok (ho_rmq _ H))). done.
Qed.

Lemma ntr_GetSn {X} w0 L : ntr X w0 L GetSn L.
Proof.
  eapply ntr_bind; [apply ntr_gets|]. intros n.
  eapply ntr_bind; [|intros; apply ntr_ret]. apply ntr_other. intros w. by repeat split.
Qed.

Lemma ntr_spawn {X} w0 L t : task_ok w0 t → ntr X w0 L (spawn t) L.
Proof.
  intros Ht. apply ntr_modify. intros w H K. split.
  - apply heap_spawn; [done|]. by eapply keeps_task.
  - split; [apply keeps_tasks | done].
Qed.

Lemma ntr_upd_peer {X} w0 L p g : peer_upd_ok g → ntr X w0 L (upd_peer p g) L.
Proof.
  intros Hg. apply ntr_modify. intros w H K. split; [|split; [|done]].
  - apply heap_upd_peer; [done|]. intros pr _. apply Hg.
  - apply keeps_upd_peer. intros pr _. apply Hg.
Qed.

Lemma ntr_upd_sess {X} w0 L s g : sess_upd_ok g → ntr X w0 L (upd_sess s g) L.
Proof.
  intros Hg. apply ntr_modify. intros w H K. split; [|split; [|done]].
  - apply heap_upd_sess; [done|]. intros x _. destruct (Hg x) as (E & Hw & E1 & E2 & E3).
    split; [done|]. intros (Hpar & Hwt & Ho). injection E as ? Epar ? ?.
    split; [by rewrite Epar|]. split; [auto|]. by rewrite E1, E2, E3.
  - apply keeps_upd_sess. intros x _. by destruct (Hg x).
Qed.

(** *** Reading objects *)

Lemma ntr_get_peer {X} {B} w0 L L' p pr0 (k : peer → MW B) :
  w_peers w0 !! p = Some pr0 →
  (∀ pr, pshape pr = pshape pr0 → role_ok pr →
     (p_exitCh_closed pr = true ↔ p_peerConnection pr = None) → ntr X w0 L (k pr) L') →
  ntr X w0 L (get_peer p ≫= k) L'.
Proof.
  intros H0 Hk w H K E. destruct (ke_p _ _ K _ _ H0) as (pr & Hpr & Esh).
  destruct (ho_peer _ H _ _ Hpr) as (_ & Hrole & Hc).
  unfold get_peer. apply wp_bind, wp_bind, wp_gets.
  apply wp_from_some; rewrite Hpr; [|done]. intros ? [= <-]. by apply Hk.
Qed.

Lemma ntr_get_sess {X} {B} w0 L L' s x0 (k : session → MW B) :
  w_sess w0 !! s = Some x0 →
  (∀ x, sshape x = sshape x0 → ntr X w0 L (k x) L') → ntr X w0 L (get_sess s ≫= k) L'.
Proof.
  intros H0 Hk w H K E. destruct (ke_s _ _ K _ _ H0) as (x & Hx & Esh).
  unfold get_sess. apply wp_bind, wp_bind, wp_gets.
  apply wp_from_some; rewrite Hx; [|done]. intros ? [= <-]. by apply Hk.
Qed.

Lemma ntr_get_room {X} {B} w0 L L' r x0 (k : room → MW B) :
  w_rooms w0 !! r = Some x0 →
  (∀ x, rshape x = rshape x0 → ntr X w0 L (k x) L') → ntr X w0 L (get_room r ≫= k) L'.
Proof.
  intros H0 Hk w H K E. destruct (ke_r _ _ K _ _ H0) as (x & Hx & Esh).
  unfold get_room. apply wp_bind, wp_bind, wp_gets.
  apply wp_from_some; rewrite Hx; [|done]. intros ? [= <-]. by apply Hk.
Qed.

(** *** Loops *)

Lemma ntr_for_each {X} {A} w0 L (l : list A) body :
  (∀ x, x ∈ l → ntr X w0 L (body x) L) → ntr X w0 L (for_each l body) L.
Proof.
  induction l as [|x l IH]; intros Hb; simpl; [apply ntr_skip|].
  eapply ntr_bind; [apply Hb; set_solver|]. intros _. apply IH. set_solver.
Qed.

(** The value of a map that is read through an object, fixed by the links. *)
Definition reads {A} (w0 : world) (m : MW (gmap string A)) (m0 : gmap string A) : Prop :=
  ∀ w, keeps w0 w → m w = Ret m0 w.

Lemma ntr_reads {X} {A B} w0 L L' (m : MW (gmap string A)) m0 (k : gmap string A → MW B) :
  reads w0 m m0 → ntr X w0 L (k m0) L' → ntr X w0 L (m ≫= k) L'.
Proof. intros Hm Hk w H K E. apply wp_bind. unfold wp at 1. rewrite Hm; [|done]. by apply Hk. Qed.

Section loops.
Context `{GoRuntime}.

Lemma ntr_range_map {X} {A} w0 L (m : MW (gmap string A)) m0 body :
  reads w0 m m0 → (∀ k v, m0 !! k = Some v → ntr X w0 L (body k v) L) →
  ntr X w0 L (range_map m body) L.
Proof.
  intros Hm Hb. eapply ntr_bind; [apply ntr_choose|]. intros n.
  eapply ntr_reads; [done|]. apply ntr_for_each. intros k _.
  eapply ntr_reads; [done|]. destruct (m0 !! k) eqn:E; [by apply Hb | apply ntr_skip].
Qed.

Lemma ntr_range_find {X} {A B} w0 L (m : MW (gmap string A)) m0 (body : string → A → MW (option B)) :
  reads w0 m m0 → (∀ k v, m0 !! k = Some v → ntr X w0 L (body k v) L) →
  ntr X w0 L (range_find m body) L.
Proof.
  intros Hm Hb. eapply ntr_bind; [apply ntr_choose|]. intros n.
  eapply ntr_reads; [done|].
  generalize (range_order n (elements (dom m0))) as ks. induction ks as [|k ks IH]; simpl.
  - apply ntr_ret.
  - eapply ntr_reads; [done|]. eapply ntr_bind.
    + destruct (m0 !! k) eqn:E; [by apply Hb | apply ntr_ret].
    + intros [b|]; [apply ntr_ret | done].
Qed.

Lemma ntr_range_collect {X} {A B} w0 L (m : MW (gmap string A)) m0 (body : string → A → MW B) :
  reads w0 m m0 → (∀ k v, m0 !! k = Some v → ntr X w0 L (body k v) L) →
  ntr X w0 L (range_collect m body) L.
Proof.
  intros Hm Hb. eapply ntr_bind; [apply ntr_choose|]. intros n.
  eapply ntr_reads; [done|].
  generalize (range_order n (elements (dom m0))) as ks. induction ks as [|k ks IH]; simpl.
  - apply ntr_ret.
  - eapply ntr_reads; [done|]. destruct (m0 !! k) eqn:E; [|done].
    eapply ntr_bind; [by apply Hb|]. intros b. eapply ntr_bind; [done|]. intros; apply ntr_ret.
Qed.
End loops.

Lemma reads_room_sessions w0 r x :
  w_rooms w0 !! r = Some x → reads w0 (room_sessions r) (r_sessions x).
Proof.
  intros Hx w K. destruct (ke_r _ _ K _ _ Hx) as (x' & Hx' & [=]).
  unfold room_sessions, get_room, mbind, M_bind, gets. rewrite Hx'. simpl. unfold mret, M_ret.
  congruence.
Qed.

Lemma reads_sess_pubs w0 s x :
  w_sess w0 !! s = Some x → reads w0 (sess_pubs s) (s_publishers x).
Proof.
  intros Hx w K. destruct (ke_s _ _ K _ _ Hx) as (x' & Hx' & [=]).
  unfold sess_pubs, get_sess, mbind, M_bind, gets. rewrite Hx'. simpl. unfold mret, M_ret.
  congruence.
Qed.

Lemma reads_sess_subs w0 s x :
  w_sess w0 !! s = Some x → reads w0 (sess_subs s) (s_subscribers x).
Proof.
  intros Hx w K. destruct (ke_s _ _ K _ _ Hx) as (x' & Hx' & [=]).
  unfold sess_subs, get_sess, mbind, M_bind, gets. rewrite Hx'. simpl. unfold mret, M_ret.
  congruence.
Qed.

(** *** Mutexes *)

Lemma ntr_Lock {X} w0 L l : L !! l = None → ntr X w0 L (Lock l) (<[l := LWrite]> L).
Proof.
  intros HL w H K E. unfold Lock. apply wp_bind, wp_gets. rewrite E, HL. apply wp_modify.
  split; [by eapply same_heap_ok, H|]. split; [|simpl; by rewrite E].
  etrans; [done|]. by apply same_heap_keeps.
Qed.

Lemma ntr_Unlock {X} w0 L l : L !! l = None → ntr X w0 (<[l := LWrite]> L) (Unlock l) L.
Proof.
  intros HL w H K E. unfold Unlock. apply wp_bind, wp_gets.
  rewrite E, lookup_insert_eq. apply wp_modify.
  split; [by eapply same_heap_ok, H|]. split; [|simpl; by rewrite E, delete_insert_id].
  etrans; [done|]. by apply same_heap_keeps.
Qed.

Lemma ntr_RLock {X} w0 L l : L !! l = None → ntr X w0 L (RLock l) (<[l := LRead 0]> L).
Proof.
  intros HL w H K E. unfold RLock. apply wp_bind, wp_gets. rewrite E, HL. apply wp_modify.
  split; [by eapply same_heap_ok, H|]. split; [|simpl; by rewrite E].
  etrans; [done|]. by apply same_heap_keeps.
Qed.

Lemma ntr_RUnlock {X} w0 L l : L !! l = None → ntr X w0 (<[l := LRead 0]> L) (RUnlock l) L.
Proof.
  intros HL w H K E. unfold RUnlock. apply wp_bind, wp_gets.
  rewrite E, lookup_insert_eq. apply wp_modify.
  split; [by eapply same_heap_ok, H|]. split; [|simpl; by rewrite E, delete_insert_id].
  etrans; [done|]. by apply same_heap_keeps.
Qed.

(** ** Automation

    [ntr_auto] follows the program: it opens binds, conditionals and matches,
    reads objects whose existence is a hypothesis, and closes the leaves with
    the lemmas of the [ntr] database. *)

Create HintDb ntr discriminated.
#[export] Hint Constants Opaque : ntr.
#[export] Hint Transparent MW : ntr.

#[export] Hint Resolve ntr_ret ntr_skip ntr_gets ntr_emit ntr_choose ntr_GetSn
  ntr_spawn : ntr.
#[export] Hint Resolve reads_room_sessions reads_sess_pubs reads_sess_subs : ntr.
#[export] Hint Extern 1 (ntr _ _ _ (halt _) _) => apply ntr_halt; exact I : ntr.
#[export] Hint Extern 1 (ntr _ _ _ (from_some _ _) _) => apply ntr_from_some; exact I : ntr.
#[export] Hint Extern 2 (peer_upd_ok _) =>
  let pr := fresh in intros pr; split_and!; [reflexivity | by (unfold role_ok; simpl) | done] : ntr.
#[export] Hint Extern 2 (sess_upd_ok _) =>
  let x := fresh in intros x; split_and!; (reflexivity || by simpl) : ntr.
#[export] Hint Resolve ntr_upd_peer ntr_upd_sess : ntr.
#[export] Hint Extern 3 (task_ok _ _) => simpl; eauto : ntr.

(** A mutex is free: it is not one of those held. *)
Ltac lock_free :=
  repeat (rewrite lookup_insert_ne by congruence); first [assumption | lazymatch goal with |- ∅ !! _ = None => apply lookup_empty end].

#[export] Hint Extern 1 (ntr _ _ _ (Lock _) _) => apply ntr_Lock; lock_free : ntr.
#[export] Hint Extern 1 (ntr _ _ _ (Unlock _) _) => apply ntr_Unlock; lock_free : ntr.
#[export] Hint Extern 1 (ntr _ _ _ (RLock _) _) => apply ntr_RLock; lock_free : ntr.
#[export] Hint Extern 1 (ntr _ _ _ (RUnlock _) _) => apply ntr_RUnlock; lock_free : ntr.

(** Equations between the links of two versions of an object. *)
Ltac shape_eqs H :=
  unfold pshape, sshape, rshape in H;
  lazymatch type of H with
  | (_, _, _, _, _, _) = _ =>
      let E1 := fresh "E" in let E2 := fresh "E" in let E3 := fresh "E" in
      let E4 := fresh "E" in let E5 := fresh "E" in let E6 := fresh "E" in
      injection H as E1 E2 E3 E4 E5 E6; rewrite ?E1, ?E2, ?E3, ?E4, ?E5, ?E6
  | (_, _, _, _) = _ =>
      let E1 := fresh "E" in let E2 := fresh "E" in let E3 := fresh "E" in
      let E4 := fresh "E" in
      injection H as E1 E2 E3 E4; rewrite ?E1, ?E2, ?E3, ?E4
  | (_, _) = _ =>
      let E1 := fresh "E" in let E2 := fresh "E" in
      injection H as E1 E2; rewrite ?E1, ?E2
  end.

Ltac ntr_auto :=
  lazymatch goal with
  | |- ntr _ _ _ (get_peer _ ≫= _) _ =>
      try (eapply ntr_get_peer; [eassumption|];
      let pr := fresh "pr" in let H := fresh "Hshape" in
      intros pr H ? ?; shape_eqs H; ntr_auto)
  | |- ntr _ _ _ (get_sess _ ≫= _) _ =>
      try (eapply ntr_get_sess; [eassumption|];
      let x := fresh "x" in let H := fresh "Hshape" in
      intros x H; shape_eqs H; ntr_auto)
  | |- ntr _ _ _ (get_room _ ≫= _) _ =>
      try (eapply ntr_get_room; [eassumption|];
      let x := fresh "x" in let H := fresh "Hshape" in
      intros x H; shape_eqs H; ntr_auto)
  | |- ntr _ _ _ (room_sessions _ ≫= _) _ => try (eapply ntr_reads; [by eauto with ntr|]; ntr_auto)
  | |- ntr _ _ _ (sess_pubs _ ≫= _) _ => try (eapply ntr_reads; [by eauto with ntr|]; ntr_auto)
  | |- ntr _ _ _ (sess_subs _ ≫= _) _ => try (eapply ntr_reads; [by eauto with ntr|]; ntr_auto)
  | |- ntr _ _ _ (_ ≫= _) _ => eapply ntr_bind; [ntr_auto | intros ?; ntr_auto]
  | |- ntr _ _ _ (range_map _ _) _ =>
      eapply ntr_range_map; [by eauto with ntr | intros ? ? ?; ntr_auto]
  | |- ntr _ _ _ (range_find _ _) _ =>
      eapply ntr_range_find; [by eauto with ntr | intros ? ? ?; ntr_auto]
  | |- ntr _ _ _ (range_collect _ _) _ =>
      eapply ntr_range_collect; [by eauto with ntr | intros ? ? ?; ntr_auto]
  | |- ntr _ _ _ (for_each _ _) _ => apply ntr_for_each; intros ? ?; ntr_auto
  | |- ntr _ _ _ (if ?b then _ else _) _ => destruct b eqn:?; ntr_auto
  | |- ntr _ _ _ (match ?x with _ => _ end) _ => destruct x eqn:?; ntr_auto
  | |- ntr _ _ _ (let _ := _ in _) _ => cbv zeta; ntr_auto
  | |- _ => try solve [eauto with ntr]
  end.
