(* ===== verification/PeerSafe.v ===== *)
(** * Peers and notifications keep the memory well formed

    Every handler of a peer, every notification and every publication is
    neutral ([ntr]): it keeps the links of all objects and stops only safely. *)

From S2P Require Import Prelude GoLib Json Constants KeyframeFilter MediaEngine World Rmq Peer Notify Session.
From S2P Require Import Invariant.

(** ** RabbitMQ and the message handler *)

Lemma ntr_publish X w0 L (ptr : rmqstate → option nat) (flag : rmqstate → bool) m :
  (∀ g x, ptr g = Some x → rmq_ptr g x) →
  ntr X w0 L (r ← gets w_rmq; if negb (flag r) then skip else send_msgChan (ptr r) m) L.
Proof.
  intros Hptr w H K E. apply wp_bind, wp_gets. destruct (flag (w_rmq w)); simpl; [|done].
  unfold send_msgChan. apply wp_bind, wp_from_some; [|done]. intros x Hx.
  destruct (proj1 (ho_rmq _ H) x (Hptr _ _ Hx)) as [ex Hex].
  unfold get_ex. apply wp_bind, wp_bind, wp_gets, wp_from_some; [|congruence].
  intros ex' _. destruct (x_msgChan ex' && x_producer ex'); [|done].
  by apply ntr_emit.
Qed.

Lemma ntr_PublishMessage2LB X w0 L msg : ntr X w0 L (PublishMessage2LB msg) L.
Proof. apply (ntr_publish X w0 L exc_pub_dr connected). by left. Qed.
Lemma ntr_PublishMessage2Pod X w0 L key msg : ntr X w0 L (PublishMessage2Pod key msg) L.
Proof. apply (ntr_publish X w0 L exc_pub_dr connected). by left. Qed.
Lemma ntr_BroadcastMessage2Proxy X w0 L msg : ntr X w0 L (BroadcastMessage2Proxy msg) L.
Proof. apply (ntr_publish X w0 L exc_proxy_bc connected). by right; left. Qed.
Lemma ntr_PublishMessage2CrossClusterPod X w0 L key msg :
  ntr X w0 L (PublishMessage2CrossClusterPod key msg) L.
Proof. apply (ntr_publish X w0 L exc_cross_cluster_dr connected). unfold rmq_ptr; tauto. Qed.
Lemma ntr_BroadcastCrossClusterMessage X w0 L msg :
  ntr X w0 L (BroadcastCrossClusterMessage msg) L.
Proof. apply (ntr_publish X w0 L exc_cross_cluster_bc center_connected). unfold rmq_ptr; tauto. Qed.

Lemma ntr_call_handler X w0 L b topic msg : ntr X w0 L (call_handler b topic msg) L.
Proof. unfold call_handler. ntr_auto. Qed.

Lemma ntr_now_unix X w0 L : ntr X w0 L now_unix L.
Proof. apply ntr_gets. Qed.
Lemma ntr_now_nano X w0 L : ntr X w0 L now_nano L.
Proof. apply ntr_gets. Qed.

#[export] Hint Resolve ntr_PublishMessage2LB ntr_PublishMessage2Pod ntr_BroadcastMessage2Proxy
  ntr_PublishMessage2CrossClusterPod ntr_BroadcastCrossClusterMessage ntr_call_handler
  ntr_now_unix ntr_now_nano : ntr.

(** ** The objects an object points to *)

(** A well-formed world and the room of a session, the session of a peer. *)
Lemma sess_room X w0 s x :
  heap_ok X w0 → w_sess w0 !! s = Some x → ∃ r, w_rooms w0 !! s_parent x = Some r.
Proof. intros H Hx. by destruct (ho_sess _ H _ _ Hx) as ([r Hr] & _); eauto. Qed.

Lemma peer_sess X w0 p pr :
  heap_ok X w0 → w_peers w0 !! p = Some pr → ∃ x, w_sess w0 !! p_parent pr = Some x.
Proof. intros H Hx. by destruct (ho_peer _ H _ _ Hx) as ([r Hr] & _); eauto. Qed.

(** ** Notifications *)

Section notify.
Context `{GoRuntime}.
Context (X : gset nat) (w0 : world) (L : gmap lockid lockstate) (Hok : heap_ok X w0).

Lemma ntr_notifyServiceNotAvailable cmd sid : ntr X w0 L (notifyServiceNotAvailable cmd sid) L.
Proof. unfold notifyServiceNotAvailable. ntr_auto. Qed.

Lemma ntr_roommgr_notifyNotLogin cmd sid : ntr X w0 L (roommgr_notifyNotLogin cmd sid) L.
Proof. unfold roommgr_notifyNotLogin. ntr_auto. Qed.

Lemma ntr_room_notifyNotLogin r x cmd sid :
  w_rooms w0 !! r = Some x → ntr X w0 L (room_notifyNotLogin r cmd sid) L.
Proof. intros Hr. unfold room_notifyNotLogin. ntr_auto. Qed.

Lemma ntr_notifyNotFoundPublishSession r x cmd sid ssid :
  w_rooms w0 !! r = Some x → ntr X w0 L (notifyNotFoundPublishSession r cmd sid ssid) L.
Proof. intros Hr. unfold notifyNotFoundPublishSession. ntr_auto. Qed.

Lemma ntr_notifyLeaveRoom r x sid :
  w_rooms w0 !! r = Some x → ntr X w0 L (notifyLeaveRoom r sid) L.
Proof. intros Hr. unfold notifyLeaveRoom. ntr_auto. Qed.

Lemma ntr_notifyNotFoundPublishPeer s x cmd sid pid :
  w_sess w0 !! s = Some x → ntr X w0 L (notifyNotFoundPublishPeer s cmd sid pid) L.
Proof. intros Hs. unfold notifyNotFoundPublishPeer. ntr_auto. Qed.

Lemma ntr_notifyNotFoundSubscribePeer s x cmd sid pid :
  w_sess w0 !! s = Some x → ntr X w0 L (notifyNotFoundSubscribePeer s cmd sid pid) L.
Proof. intros Hs. unfold notifyNotFoundSubscribePeer. ntr_auto. Qed.

Lemma ntr_notifyCreatePeerFailed s x cmd sid pid :
  w_sess w0 !! s = Some x → ntr X w0 L (notifyCreatePeerFailed s cmd sid pid) L.
Proof. intros Hs. unfold notifyCreatePeerFailed. ntr_auto. Qed.

Lemma ntr_sess_roomid s x : w_sess w0 !! s = Some x → ntr X w0 L (sess_roomid s) L.
Proof.
  intros Hs. destruct (sess_room _ _ _ _ Hok Hs) as [r Hr]. unfold sess_roomid. ntr_auto.
Qed.

Lemma ntr_notifyReleasePublish s x pid :
  w_sess w0 !! s = Some x → ntr X w0 L (notifyReleasePublish s pid) L.
Proof.
  intros Hs. unfold notifyReleasePublish. pose proof (ntr_sess_roomid s x Hs). ntr_auto.
Qed.

Lemma ntr_notifyStopPush r x b sid pid :
  w_rooms w0 !! r = Some x → ntr X w0 L (notifyStopPush r b sid pid) L.
Proof.
  intros Hr. unfold notifyStopPush. eapply ntr_bind.
  - eapply ntr_range_map; [by apply reads_room_sessions|]. intros k s Hs.
    destruct (ho_room _ Hok _ _ _ _ Hr Hs) as (y & Hy & _). ntr_auto.
  - intros _. ntr_auto.
Qed.
End notify.

#[export] Hint Resolve ntr_notifyServiceNotAvailable ntr_roommgr_notifyNotLogin
  ntr_room_notifyNotLogin ntr_notifyNotFoundPublishSession ntr_notifyLeaveRoom
  ntr_notifyNotFoundPublishPeer ntr_notifyNotFoundSubscribePeer ntr_notifyCreatePeerFailed
  ntr_sess_roomid ntr_notifyReleasePublish ntr_notifyStopPush : ntr.

(** ** Peers *)

(** The operations of the filter stop only on a nil func or on the wait
    group. *)
Definition kf_safe {A} (m : M kfst A) : Prop := ∀ st r st', m st = Stop r st' → safe_stop r.

Lemma kf_safe_bind {A B} (m : M kfst A) (k : A → M kfst B) :
  kf_safe m → (∀ a, kf_safe (k a)) → kf_safe (m ≫= k).
Proof.
  intros Hm Hk st r st'. unfold mbind, M_bind. specialize (Hm st). destruct (m st).
  - apply Hk.
  - intros [= <- _]. by eapply Hm.
Qed.
Lemma kf_safe_halt {A} r : safe_stop r → kf_safe (halt r : M kfst A).
Proof. intros Hr st r' st' [= <- _]. done. Qed.
Lemma kf_safe_ret {A} (m : M kfst A) (f : kfst → A) g : (∀ st, m st = Ret (f st) (g st)) → kf_safe m.
Proof. intros Hm st r st'. by rewrite Hm. Qed.

Ltac kf_safe_auto :=
  lazymatch goal with
  | |- kf_safe (_ ≫= _) => apply kf_safe_bind; [kf_safe_auto | intros ?; kf_safe_auto]
  | |- kf_safe (halt _) => by apply kf_safe_halt
  | |- kf_safe (gets ?f) => by apply (kf_safe_ret _ f id)
  | |- kf_safe (if ?b then _ else _) => destruct b; kf_safe_auto
  | |- kf_safe (match ?x with _ => _ end) => destruct x; kf_safe_auto
  | |- kf_safe (let _ := _ in _) => cbv zeta; kf_safe_auto
  | |- _ => eapply (kf_safe_ret _ (λ _, tt)); intros; reflexivity
  end.


Lemma role_ok_filter pr f : role_ok pr → p_filter pr = Some f → p_role pr = 1.
Proof. unfold role_ok. intros [(? & _)|(_ & E)] Hf; [done|]. rewrite E in Hf. done. Qed.

Section peer.
Context `{GoRuntime, WebRTC, Amqp}.
Context (X : gset nat) (w0 : world) (L : gmap lockid lockstate) (Hok : heap_ok X w0).
Context (p : nat) (pr0 : peer) (Hp : w_peers w0 !! p = Some pr0).

Lemma ntr_pc_step {A} op (f : pconn → pcstate * A) : ntr X w0 L (pc_step p op f) L.
Proof.
  intros w Hw K E. destruct (ke_p _ _ K _ _ Hp) as (pr & Hpr & Esh).
  unfold pc_step, get_peer. apply wp_bind, wp_bind, wp_gets, wp_from_some; [|congruence].
  intros pr' Hpr'. assert (pr' = pr) as -> by congruence.
  apply wp_bind, wp_from_some; [|done]. intros pc Hpc.
  apply wp_bind, wp_modify, wp_ret. split; [|split; [|done]].
  - apply heap_upd_peer; [done|]. intros pr'' Hpr''. assert (pr'' = pr) as -> by congruence.
    split_and!; [done | by unfold role_ok | simpl; by rewrite Hpc].
  - etrans; [done|]. by apply keeps_upd_peer.
Qed.

Lemma ntr_pc_call {A} op (answer : pconn → A) : ntr X w0 L (pc_call p op answer) L.
Proof. apply ntr_pc_step. Qed.

Lemma ntr_pc_read {A} (answer : pconn → A) : ntr X w0 L (pc_read p answer) L.
Proof. unfold pc_read. ntr_auto. Qed.

Lemma ntr_must b : ntr X w0 L (must b) L.
Proof. unfold must. ntr_auto. Qed.

Hint Resolve ntr_pc_step ntr_pc_call ntr_pc_read ntr_must : ntr.

Lemma ntr_desc_Unmarshal sdp : ntr X w0 L (desc_Unmarshal sdp) L.
Proof. unfold desc_Unmarshal. case_match; [apply ntr_ret.. | by apply ntr_halt | by apply ntr_halt]. Qed.
Hint Resolve ntr_desc_Unmarshal : ntr.

Lemma ntr_SetLocalDescription ty sdp : ntr X w0 L (SetLocalDescription p ty sdp) L.
Proof. unfold SetLocalDescription. ntr_auto. Qed.
Lemma ntr_SetRemoteDescription ty sdp : ntr X w0 L (SetRemoteDescription p ty sdp) L.
Proof. unfold SetRemoteDescription. ntr_auto. Qed.
Lemma ntr_AddICECandidate c : ntr X w0 L (AddICECandidate p c) L.
Proof. unfold AddICECandidate. ntr_auto. Qed.
Lemma ntr_CreateOffer : ntr X w0 L (CreateOffer p) L.
Proof. unfold CreateOffer. ntr_auto. Qed.
Lemma ntr_CreateAnswer : ntr X w0 L (CreateAnswer p) L.
Proof. unfold CreateAnswer. ntr_auto. Qed.
Lemma ntr_add_track mime id stream : ntr X w0 L (add_track p mime id stream) L.
Proof. unfold add_track. ntr_auto. Qed.

Hint Resolve ntr_SetLocalDescription ntr_SetRemoteDescription ntr_AddICECandidate
  ntr_CreateOffer ntr_CreateAnswer ntr_add_track : ntr.

Lemma ntr_sub_media m : ntr X w0 L (sub_media p m) L.
Proof. unfold sub_media. ntr_auto. Qed.
Lemma ntr_publisher_media : ntr X w0 L (publisher_media p) L.
Proof. unfold publisher_media. ntr_auto. Qed.
Lemma ntr_SetCachedCandidates : ntr X w0 L (SetCachedCandidates p) L.
Proof. unfold SetCachedCandidates. ntr_auto. Qed.
Lemma ntr_HandleRemoteCandidate j : ntr X w0 L (HandleRemoteCandidate p j) L.
Proof. unfold HandleRemoteCandidate. ntr_auto. Qed.
Lemma ntr_ssrc_attr a : ntr X w0 L (ssrc_attr a) L.
Proof. unfold ssrc_attr. ntr_auto. Qed.

Hint Resolve ntr_sub_media ntr_publisher_media ntr_SetCachedCandidates
  ntr_HandleRemoteCandidate ntr_ssrc_attr : ntr.

(** The three lists of ssrcs may be replaced. *)
Definition ssrc_push_ok (push : (option (list Z) → option (list Z)) → peer → peer) : Prop :=
  ∀ g, (∀ o, is_Some o → is_Some (g o)) → peer_upd_ok (push g).

Lemma ssrc_push_audio : ssrc_push_ok set_p_audiossrc.
Proof. intros g Hg pr. split_and!; [done | unfold role_ok; simpl; intuition auto | done]. Qed.
Lemma ssrc_push_video : ssrc_push_ok set_p_videossrc.
Proof. intros g Hg pr. split_and!; [done | unfold role_ok; simpl; intuition auto | done]. Qed.
Lemma ssrc_push_app : ssrc_push_ok set_p_appssrc.
Proof. intros g Hg pr. split_and!; [done | unfold role_ok; simpl; intuition auto | done]. Qed.

Lemma ntr_push_ssrcs push attrs : ssrc_push_ok push → ntr X w0 L (push_ssrcs p push attrs) L.
Proof.
  intros Hpush. unfold push_ssrcs. ntr_auto.
  apply ntr_upd_peer, Hpush. intros o [l ->]. by eexists.
Qed.

Lemma ntr_setSsrcFromSDP sdp : ntr X w0 L (setSsrcFromSDP p sdp) L.
Proof.
  unfold setSsrcFromSDP.
  assert (∀ attrs, ntr X w0 L (push_ssrcs p set_p_audiossrc attrs) L)
    by (intros; apply ntr_push_ssrcs, ssrc_push_audio).
  assert (∀ attrs, ntr X w0 L (push_ssrcs p set_p_videossrc attrs) L)
    by (intros; apply ntr_push_ssrcs, ssrc_push_video).
  assert (∀ attrs, ntr X w0 L (push_ssrcs p set_p_appssrc attrs) L)
    by (intros; apply ntr_push_ssrcs, ssrc_push_app).
  ntr_auto; apply ntr_upd_peer.
  - by apply ssrc_push_audio.
  - by apply ssrc_push_video.
  - by apply ssrc_push_app.
Qed.

Hint Resolve ntr_setSsrcFromSDP : ntr.

Lemma ntr_peer_roomid : ntr X w0 L (peer_roomid p) L.
Proof.
  destruct (peer_sess _ _ _ _ Hok Hp) as [x Hx]. destruct (sess_room _ _ _ _ Hok Hx) as [r Hr].
  unfold peer_roomid. ntr_auto.
Qed.

Lemma ntr_accept_offer sdp : ntr X w0 L (accept_offer p sdp) L.
Proof. unfold accept_offer. ntr_auto. Qed.
Lemma ntr_accept_answer sdp : ntr X w0 L (accept_answer p sdp) L.
Proof. unfold accept_answer. ntr_auto. Qed.

Hint Resolve ntr_peer_roomid ntr_accept_offer ntr_accept_answer : ntr.

Lemma ntr_HandleSubscribe j : ntr X w0 L (HandleSubscribe p j) L.
Proof. unfold HandleSubscribe. ntr_auto. Qed.
Lemma ntr_HandleFakeSubscribe j : ntr X w0 L (HandleFakeSubscribe p j) L.
Proof. unfold HandleFakeSubscribe. ntr_auto. Qed.
Lemma ntr_HandleRemoteOffer j : ntr X w0 L (HandleRemoteOffer p j) L.
Proof. unfold HandleRemoteOffer. ntr_auto. Qed.
Lemma ntr_HandleFakeOffer j : ntr X w0 L (HandleFakeOffer p j) L.
Proof. unfold HandleFakeOffer. ntr_auto. Qed.

Hint Resolve ntr_HandleSubscribe ntr_HandleFakeSubscribe ntr_HandleRemoteOffer
  ntr_HandleFakeOffer : ntr.

Lemma ntr_peer_HandleMessage j : ntr X w0 L (peer_HandleMessage p j) L.
Proof. unfold peer_HandleMessage, HandleRemoteAnswer, HandleFakeAnswer. ntr_auto. Qed.

Lemma ntr_ShouldNotify : ntr X w0 L (ShouldNotify p) L.
Proof. unfold ShouldNotify. ntr_auto. Qed.
Lemma ntr_IsReady : ntr X w0 L (IsReady p) L.
Proof. unfold IsReady. ntr_auto. Qed.
Lemma ntr_sendPli : ntr X w0 L (sendPli p) L.
Proof. unfold sendPli, getVideoSsrc. ntr_auto. Qed.

Lemma ntr_run_kfeff e : ntr X w0 L (run_kfeff p e) L.
Proof. destruct e; simpl; [apply ntr_spawn; simpl; eauto | apply ntr_sendPli]. Qed.

Lemma ntr_on_filter m :
  kf_safe m → ntr X w0 L (on_filter p m) L.
Proof.
  intros Hm w Hw K E. destruct (ke_p _ _ K _ _ Hp) as (pr & Hpr & Esh).
  destruct (ho_peer _ Hw _ _ Hpr) as (_ & Hrole & _).
  unfold on_filter, get_peer. apply wp_bind, wp_bind, wp_gets, wp_from_some; [|congruence].
  intros pr' Hpr'. assert (pr' = pr) as -> by congruence.
  apply wp_bind, wp_from_some; [|done]. intros f Hf.
  assert (∀ f', heap_ok X (set_w_peers (alter (set_p_filter (λ _, Some f')) p) w) ∧
                keeps w0 (set_w_peers (alter (set_p_filter (λ _, Some f')) p) w)) as Hupd.
  { intros f'. split.
    - apply heap_upd_peer; [done|]. intros pr'' Hpr''. assert (pr'' = pr) as -> by congruence.
      split_and!; [done | | done]. pose proof (role_ok_filter _ _ Hrole Hf).
      unfold role_ok; simpl. intros [(? & ? & ?)|(? & _)]; [by left | congruence].
    - etrans; [done|]. by apply keeps_upd_peer. }
  destruct (m (f, [])) as [? [f' eff]|r [f' eff]] eqn:Em.
  - apply wp_bind, wp_modify. destruct (Hupd f') as [Hw' K'].
    eapply ntr_for_each; [|done..]. intros e _. apply ntr_run_kfeff.
  - apply wp_bind, wp_modify, wp_halt. by eapply Hm.
Qed.

Lemma kf_safe_Startup t : kf_safe (kf_Startup t).
Proof. unfold kf_Startup, startDelayTimer. kf_safe_auto. Qed.
Lemma kf_safe_Shutdown : kf_safe kf_Shutdown.
Proof. unfold kf_Shutdown, kf_exit_and_wait. kf_safe_auto. Qed.
Lemma kf_safe_Try t : kf_safe (kf_TryRequestKeyframe t).
Proof. unfold kf_TryRequestKeyframe, refreshMaxIntervalTimer, startDelayTimer. kf_safe_auto. Qed.
Lemma kf_safe_Now t : kf_safe (kf_requestKeyframeNow t).
Proof. unfold kf_requestKeyframeNow, refreshMaxIntervalTimer, startDelayTimer. kf_safe_auto. Qed.
Lemma kf_safe_fire i : kf_safe (kf_fire i).
Proof. unfold kf_fire. kf_safe_auto. Qed.
Lemma kf_safe_timerExpired i : kf_safe (kf_timerExpired i).
Proof. unfold kf_timerExpired. kf_safe_auto. Qed.

Hint Resolve ntr_on_filter kf_safe_Startup kf_safe_Shutdown kf_safe_Try kf_safe_Now
  kf_safe_fire kf_safe_timerExpired ntr_ShouldNotify ntr_IsReady ntr_sendPli : ntr.

Lemma ntr_RequestKeyframe : ntr X w0 L (RequestKeyframe p) L.
Proof. unfold RequestKeyframe. ntr_auto. Qed.
Lemma ntr_requestKeyframeNow : ntr X w0 L (requestKeyframeNow p) L.
Proof. unfold requestKeyframeNow. ntr_auto. Qed.

Lemma ntr_CheckIceInfo typ ip port : ntr X w0 L (CheckIceInfo p typ ip port) L.
Proof. unfold CheckIceInfo. ntr_auto. Qed.
Lemma ntr_local_candidate c : ntr X w0 L (local_candidate p c) L.
Proof. unfold local_candidate. ntr_auto. Qed.
Hint Resolve ntr_local_candidate : ntr.
Lemma ntr_pub_OnICECandidate c : ntr X w0 L (pub_OnICECandidate p c) L.
Proof. unfold pub_OnICECandidate. ntr_auto. Qed.
Lemma ntr_sub_OnICECandidate c : ntr X w0 L (sub_OnICECandidate p c) L.
Proof. unfold sub_OnICECandidate. ntr_auto. Qed.

Lemma ntr_track_write b d : ntr X w0 L (track_write p b d) L.
Proof. unfold track_write. ntr_auto. Qed.
Lemma ntr_slice_to buff n : ntr X w0 L (slice_to buff n) L.
Proof. unfold slice_to. ntr_auto. Qed.
Hint Resolve ntr_track_write ntr_slice_to : ntr.
Lemma ntr_deliverAudioData buff n : ntr X w0 L (deliverAudioData p buff n) L.
Proof. unfold deliverAudioData. ntr_auto. Qed.
Lemma ntr_deliverVideoData buff n : ntr X w0 L (deliverVideoData p buff n) L.
Proof. unfold deliverVideoData. ntr_auto. Qed.
Lemma ntr_deliverAppData buff n : ntr X w0 L (deliverAppData p buff n) L.
Proof. unfold deliverAppData. ntr_auto. Qed.
Lemma ntr_isAudioSsrc n : ntr X w0 L (isAudioSsrc p n) L.
Proof. unfold isAudioSsrc. ntr_auto. Qed.
Lemma ntr_isVideoSsrc n : ntr X w0 L (isVideoSsrc p n) L.
Proof. unfold isVideoSsrc. ntr_auto. Qed.
Lemma ntr_GetAudioCodec : ntr X w0 L (GetAudioCodec p) L.
Proof. unfold GetAudioCodec. ntr_auto. Qed.
Lemma ntr_GetVideoCodec : ntr X w0 L (GetVideoCodec p) L.
Proof. unfold GetVideoCodec. ntr_auto. Qed.
Lemma ntr_SetAudioCodec c : ntr X w0 L (SetAudioCodec p c) L.
Proof. unfold SetAudioCodec. ntr_auto. Qed.
Lemma ntr_SetVideoCodec c : ntr X w0 L (SetVideoCodec p c) L.
Proof. unfold SetVideoCodec. ntr_auto. Qed.
Lemma ntr_peer_SetSendMessageHandler b : ntr X w0 L (peer_SetSendMessageHandler p b) L.
Proof. unfold peer_SetSendMessageHandler. ntr_auto. Qed.
End peer.

#[export] Hint Resolve ntr_pc_read ntr_peer_HandleMessage ntr_ShouldNotify ntr_IsReady
  ntr_on_filter kf_safe_Startup kf_safe_Shutdown kf_safe_Try kf_safe_Now kf_safe_fire kf_safe_timerExpired
  ntr_RequestKeyframe ntr_requestKeyframeNow ntr_CheckIceInfo ntr_pub_OnICECandidate
  ntr_sub_OnICECandidate ntr_deliverAudioData ntr_deliverVideoData ntr_deliverAppData
  ntr_isAudioSsrc ntr_isVideoSsrc ntr_GetAudioCodec ntr_GetVideoCodec ntr_SetAudioCodec
  ntr_SetVideoCodec ntr_peer_SetSendMessageHandler : ntr.
