(* ===== verification/Links.v ===== *)
(** * Changing the links: peers are destroyed, maps change

    The operations that destroy peers and change the maps of a session: the
    links between objects change, but every object keeps its identity and a
    closed peer stays closed ([grows]), and the memory is well formed again
    when they return.  The file ends with DoLeave, which closes every peer of
    a session. *)

From S2P Require Import Prelude GoLib Json Constants KeyframeFilter World Rmq Peer Notify Session.
From S2P Require Import Invariant PeerSafe.

(** ** Identity *)

Definition pident (pr : peer) : string * string * string * Z * nat :=
  (p_userid pr, p_remoteuserid pr, p_peerid pr, p_role pr, p_parent pr).
Definition sident (x : session) : string * nat := (s_userid x, s_parent x).

Record grows (w0 w : world) : Prop := {
  gr_p : ∀ p pr, w_peers w0 !! p = Some pr →
    ∃ pr', w_peers w !! p = Some pr' ∧ pident pr' = pident pr ∧
      (p_exitCh_closed pr = true → p_exitCh_closed pr' = true);
  gr_s : ∀ s x, w_sess w0 !! s = Some x →
    ∃ x', w_sess w !! s = Some x' ∧ sident x' = sident x;
  gr_r : ∀ r x, w_rooms w0 !! r = Some x →
    ∃ x', w_rooms w !! r = Some x' ∧ r_roomid x' = r_roomid x;
  gr_q : rmq_grows (w_rmq w0) (w_rmq w);
}.

#[export] Instance grows_preorder : PreOrder grows.
Proof.
  split.
  - intros w. split; try split; eauto.
  - intros w1 w2 w3 [P1 S1 R1 [Q1 X1]] [P2 S2 R2 [Q2 X2]]. split.
    + intros p pr H. destruct (P1 _ _ H) as (pr' & H' & E' & ?).
      destruct (P2 _ _ H') as (? & ? & ? & ?). eexists; split_and!; [done | congruence | auto].
    + intros p pr H. destruct (S1 _ _ H) as (pr' & H' & E').
      destruct (S2 _ _ H') as (? & ? & ?). eexists; split; [done | congruence].
    + intros p pr H. destruct (R1 _ _ H) as (pr' & H' & E').
      destruct (R2 _ _ H') as (? & ? & ?). eexists; split; [done | congruence].
    + split; auto.
Qed.

Lemma pshape_pident pr pr' : pshape pr' = pshape pr → pident pr' = pident pr.
Proof. unfold pshape, pident. intros [=]. congruence. Qed.

(** Everything is kept but that the peers of [Y] may have been closed. *)
Record keeps_but (Y : gset nat) (w0 w : world) : Prop := {
  kb_p : ∀ p pr, w_peers w0 !! p = Some pr →
    ∃ pr', w_peers w !! p = Some pr' ∧ pident pr' = pident pr ∧
      (p_exitCh_closed pr = true → p_exitCh_closed pr' = true) ∧
      (p ∉ Y → p_exitCh_closed pr' = p_exitCh_closed pr);
  kb_s : ∀ s x, w_sess w0 !! s = Some x →
    ∃ x', w_sess w !! s = Some x' ∧ sshape x' = sshape x;
  kb_r : ∀ r x, w_rooms w0 !! r = Some x →
    ∃ x', w_rooms w !! r = Some x' ∧ rshape x' = rshape x;
  kb_m : m_rooms (w_mgr w) = m_rooms (w_mgr w0);
  kb_q : rmq_grows (w_rmq w0) (w_rmq w);
}.

Lemma keeps_keeps_but Y w w' : keeps w w' → keeps_but Y w w'.
Proof.
  intros [P S R M Q]. split; try done. intros p pr Hp.
  destruct (P _ _ Hp) as (pr' & Hp' & E). exists pr'. split; [done|].
  split; [by apply pshape_pident|]. injection E as _ _ _ _ _ ->. done.
Qed.

Lemma keeps_but_trans Y1 Y2 Y w1 w2 w3 :
  Y1 ⊆ Y → Y2 ⊆ Y → keeps_but Y1 w1 w2 → keeps_but Y2 w2 w3 → keeps_but Y w1 w3.
Proof.
  intros HY1 HY2 [P1 S1 R1 M1 [Q1 X1]] [P2 S2 R2 M2 [Q2 X2]]. split.
  - intros p pr H. destruct (P1 _ _ H) as (pr' & H' & E' & M' & C').
    destruct (P2 _ _ H') as (pr'' & ? & ? & M'' & C''). exists pr''. split; [done|].
    split; [congruence|]. split; [auto|]. intros HY. rewrite C'', C'; set_solver.
  - intros p pr H. destruct (S1 _ _ H) as (pr' & H' & E').
    destruct (S2 _ _ H') as (? & ? & ?). eexists; split; [done | congruence].
  - intros p pr H. destruct (R1 _ _ H) as (pr' & H' & E').
    destruct (R2 _ _ H') as (? & ? & ?). eexists; split; [done | congruence].
  - congruence.
  - split; auto.
Qed.

Lemma keeps_but_grows Y w w' : keeps_but Y w w' → grows w w'.
Proof.
  intros [P S R M Q]. split; try done.
  - intros p pr Hp. destruct (P _ _ Hp) as (? & ? & ? & ? & _). eauto 6.
  - intros s x Hx. destruct (S _ _ Hx) as (y & Hy & E). exists y. split; [done|].
    unfold sshape in E. unfold sident. congruence.
  - intros r x Hx. destruct (R _ _ Hx) as (y & Hy & E). exists y. split; [done|].
    by injection E.
Qed.

Lemma keeps_grows w w' : keeps w w' → grows w w'.
Proof. intros K. by eapply keeps_but_grows, (keeps_keeps_but ∅). Qed.

Lemma grows_task w w' t : grows w w' → task_ok w t → task_ok w' t.
Proof.
  intros [P S R [Q _]]. destruct t; simpl; try done; try apply Q; intros [x Hx];
    (edestruct P as (? & -> & _); [done|done])
    || (edestruct S as (? & -> & _); [done|done])
    || (edestruct R as (? & -> & _); [done|done]).
Qed.

Lemma grows_peer_ok w w' pr : grows w w' → peer_ok w pr → peer_ok w' pr.
Proof.
  intros K ([x Hx] & Hr & Hc). destruct (gr_s _ _ K _ _ Hx) as (? & Hx' & _).
  split; [by rewrite Hx' | done].
Qed.

Lemma grows_sess_ok w w' x : grows w w' → sess_ok w x → sess_ok w' x.
Proof.
  intros K ([y Hy] & Hw). destruct (gr_r _ _ K _ _ Hy) as (? & Hy' & _).
  split; [by rewrite Hy' | done].
Qed.

(** ** Closing a peer *)

Lemma heap_close X w p g :
  heap_ok X w →
  (∀ pr, w_peers w !! p = Some pr →
    pident (g pr) = pident pr ∧ (role_ok pr → role_ok (g pr)) ∧
    p_exitCh_closed (g pr) = true ∧ p_peerConnection (g pr) = None) →
  heap_ok ({[p]} ∪ X) (set_w_peers (alter g p) w) ∧
  keeps_but {[p]} w (set_w_peers (alter g p) w).
Proof.
  intros Hok Hg.
  assert (keeps_but {[p]} w (set_w_peers (alter g p) w)) as K.
  { split; simpl; try (by split); eauto. intros q pr Hq. rewrite lookup_alter.
    destruct (decide (p = q)) as [->|]; [|by eauto]. rewrite Hq. simpl. eexists; split; [done|].
    destruct (Hg _ Hq) as (E & _ & C & _). split; [done|]. split; [done | set_solver]. }
  split; [|done]. pose proof (keeps_but_grows _ _ _ K) as G.
  destruct Hok as [Np Ns Nr Hp Hs Hpub Hsub Hr Hm Ht Hq].
  split; simpl; try done.
  - intros q. rewrite is_Some_alter. apply Np.
  - intros q y H. apply lookup_alter_inv in H as (x & Hx & ->).
    eapply grows_peer_ok; [done|]. destruct (Hp _ _ Hx) as (Hpar & Hrole & Hc).
    destruct (decide (p = q)) as [->|]; [|by split].
    destruct (Hg _ Hx) as (E & Hrole' & E1 & E2). injection E as _ _ _ _ E5.
    split; [by rewrite E5|]. split; [auto|]. by rewrite E1, E2.
  - intros s x k q Hx Hk. destruct (Hpub _ _ _ _ Hx Hk) as (pr & Hpr & Hslot & Hop).
    destruct (kb_p _ _ _ K _ _ Hpr) as (pr' & Hpr' & E & _ & C). exists pr'. split; [done|].
    injection E as E1 E2 E3 E4 E5. split; [unfold pub_slot in *; by rewrite E3, E4, E5|].
    intros [HX1 HX2]%not_elem_of_union. rewrite C; auto.
  - intros s x k q Hx Hk. destruct (Hsub _ _ _ _ Hx Hk) as (pr & Hpr & Hslot & Hop).
    destruct (kb_p _ _ _ K _ _ Hpr) as (pr' & Hpr' & E & _ & C). exists pr'. split; [done|].
    injection E as E1 E2 E3 E4 E5.
    split; [unfold sub_slot, sub_key in *; by rewrite E1, E2, E3, E4, E5|].
    intros [HX1 HX2]%not_elem_of_union. rewrite C; auto.
  - eapply Forall_impl; [exact Ht|]. intros t. by apply grows_task.
Qed.

Lemma heap_weaken X X' w : X ⊆ X' → heap_ok X w → heap_ok X' w.
Proof.
  intros HX [Np Ns Nr Hp Hs Hpub Hsub Hr Hm Ht Hq]. split; try done.
  - intros s x k q Hx Hk. destruct (Hpub _ _ _ _ Hx Hk) as (pr & Hpr & Hslot & Hop).
    exists pr. split_and!; [done..|]. set_solver.
  - intros s x k q Hx Hk. destruct (Hsub _ _ _ _ Hx Hk) as (pr & Hpr & Hslot & Hop).
    exists pr. split_and!; [done..|]. set_solver.
Qed.

Definition safe_exit (r : stop) (w : world) : Prop := safe_stop r.

Definition is_closed (w : world) (p : nat) : Prop :=
  ∃ pr, w_peers w !! p = Some pr ∧ p_exitCh_closed pr = true.

Lemma is_closed_but Y w w' p : keeps_but Y w w' → is_closed w p → is_closed w' p.
Proof.
  intros K (pr & Hp & Hc). destruct (kb_p _ _ _ K _ _ Hp) as (pr' & ? & _ & ? & _).
  exists pr'. auto.
Qed.

Lemma is_closed_grows w w' p : grows w w' → is_closed w p → is_closed w' p.
Proof.
  intros K (pr & Hp & Hc). destruct (gr_p _ _ K _ _ Hp) as (pr' & ? & _ & ?).
  exists pr'. auto.
Qed.

Lemma Destroy_wp X w p pr :
  heap_ok X w → w_peers w !! p = Some pr → p_exitCh_closed pr = false →
  wp (Destroy p)
    (λ _ w', heap_ok ({[p]} ∪ X) w' ∧ keeps_but {[p]} w w' ∧ w_locks w' = w_locks w ∧
       is_closed w' p)
    safe_exit w.
Proof.
  intros Hok Hp Hop. unfold Destroy, get_peer. apply wp_bind, wp_bind, wp_gets, wp_from_some;
    [|congruence]. intros pr' Hpr'. assert (pr' = pr) as -> by congruence.
  apply wp_bind. eapply (wp_mono _ (λ _ w1, heap_ok X w1 ∧ keeps w w1 ∧ w_locks w1 = w_locks w));
    [| |done].
  { destruct (p_filter pr) eqn:Ef; [|by apply wp_ret].
    eapply ntr_on_filter; eauto with ntr. done. }
  intros _ w1 (Hok1 & K1 & L1). rewrite Hop. apply wp_bind, wp_modify.
  destruct (ho_peer _ Hok _ _ Hp) as (_ & _ & Hc).
  destruct (p_peerConnection pr) as [pc|]; [|destruct Hc as [_ Hc]; rewrite Hc in Hop; done].
  apply wp_bind, wp_modify, wp_modify.
  set (g := λ x, set_p_peerConnection (λ _, None) (set_p_exitCh_closed (λ _, true) x)).
  assert (same_heap (set_w_peers (alter g p) w1)
    (set_w_peers (alter (set_p_peerConnection (λ _, None)) p)
       (set_w_out (λ l, l ++ [EvPcClose (pc_id pc)])
          (set_w_peers (alter (set_p_exitCh_closed (λ _, true)) p) w1)))) as Hsame.
  { split; simpl; by rewrite ?alter_alter_eq. }
  destruct (heap_close X w1 p g Hok1) as [Hok2 K2].
  { intros x Hx. by split_and!. }
  split; [by eapply same_heap_ok|]. split; [|split; [done|]]; cycle 1.
  { destruct (ke_p _ _ K1 _ _ Hp) as (pr1 & Hp1 & _). eexists. simpl.
    by rewrite alter_alter_eq, lookup_alter_eq, Hp1. }
  eapply (keeps_but_trans ∅ {[p]}); [set_solver..| by apply keeps_keeps_but |].
  eapply (keeps_but_trans {[p]} ∅); [set_solver..| exact K2 |].
  by apply keeps_keeps_but, same_heap_keeps.
Qed.

(** ** Changing the maps of a session *)

(** Entries are removed: the peers that may be closed shrink to [X'] when the
    others of [X] are publishers of [s] that are no longer in its map. *)
Lemma heap_del_pubs X X' w s x f :
  heap_ok X w → w_sess w !! s = Some x → f (s_publishers x) ⊆ s_publishers x →
  (∀ p, p ∈ X → p ∈ X' ∨ ∃ k, s_publishers x !! k = Some p ∧ f (s_publishers x) !! k = None) →
  heap_ok X' (set_w_sess (alter (set_s_publishers f) s) w) ∧
  grows w (set_w_sess (alter (set_s_publishers f) s) w).
Proof.
  intros Hok Hs Hsub' HX.
  assert (grows w (set_w_sess (alter (set_s_publishers f) s) w)) as G.
  { split; simpl; try (by split); eauto. intros q y Hy. rewrite lookup_alter.
    destruct (decide (s = q)) as [->|]; [|by eauto]. rewrite Hy. simpl. eauto. }
  split; [|done]. destruct Hok as [Np Ns Nr Hp Hss Hpub Hsub Hr Hm Ht Hq].
  split; simpl; try done.
  - intros q. rewrite is_Some_alter. apply Ns.
  - intros p pr Hpr. by eapply grows_peer_ok, Hp.
  - intros q y H. apply lookup_alter_inv in H as (z & Hz & ->).
    eapply grows_sess_ok; [done|]. destruct (Hss _ _ Hz). destruct (decide (s = q)); by split.
  - intros q y k p H Hk. apply lookup_alter_inv in H as (z & Hz & ->).
    assert (s_publishers z !! k = Some p ∧ (s = q → f (s_publishers x) !! k = Some p)) as [Hk' Hf].
    { destruct (decide (s = q)) as [->|]; [|done]. assert (z = x) as -> by congruence.
      split; [by eapply lookup_weaken | done]. }
    destruct (Hpub _ _ _ _ Hz Hk') as (pr & Hpr & (Ep & Er & Ek) & Hop). exists pr.
    split; [done|]. split; [done|]. intros HX'. apply Hop. intros HpX.
    destruct (HX _ HpX) as [|(k' & Hk1 & Hk2)]; [done|].
    destruct (Hpub _ _ _ _ Hs Hk1) as (pr' & Hpr' & (Ep' & Er' & Ek') & _).
    assert (pr' = pr) as -> by congruence. assert (k' = k) as -> by congruence.
    rewrite Hf in Hk2; congruence.
  - intros q y k p H Hk. apply lookup_alter_inv in H as (z & Hz & ->).
    assert (s_subscribers z !! k = Some p) as Hk' by by destruct (decide (s = q)).
    destruct (Hsub _ _ _ _ Hz Hk') as (pr & Hpr & (Ep & Er & Ek) & Hop). exists pr.
    split; [done|]. split; [done|]. intros HX'. apply Hop. intros HpX.
    destruct (HX _ HpX) as [|(k' & Hk1 & Hk2)]; [done|].
    destruct (Hpub _ _ _ _ Hs Hk1) as (pr' & Hpr' & (Ep' & Er' & Ek') & _). congruence.
  - intros r y k q H Hk. destruct (Hr _ _ _ _ H Hk) as (z & Hz & E1 & E2).
    destruct (gr_s _ _ G _ _ Hz) as (z' & Hz' & [= E3 E4]).
    exists z'. split; [done|]. split; congruence.
  - eapply Forall_impl; [exact Ht|]. intros t. by apply grows_task.
Qed.

Lemma heap_del_subs X X' w s x f :
  heap_ok X w → w_sess w !! s = Some x → f (s_subscribers x) ⊆ s_subscribers x →
  (∀ p, p ∈ X → p ∈ X' ∨ ∃ k, s_subscribers x !! k = Some p ∧ f (s_subscribers x) !! k = None) →
  heap_ok X' (set_w_sess (alter (set_s_subscribers f) s) w) ∧
  grows w (set_w_sess (alter (set_s_subscribers f) s) w).
Proof.
  intros Hok Hs Hsub' HX.
  assert (grows w (set_w_sess (alter (set_s_subscribers f) s) w)) as G.
  { split; simpl; try (by split); eauto. intros q y Hy. rewrite lookup_alter.
    destruct (decide (s = q)) as [->|]; [|by eauto]. rewrite Hy. simpl. eauto. }
  split; [|done]. destruct Hok as [Np Ns Nr Hp Hss Hpub Hsub Hr Hm Ht Hq].
  split; simpl; try done.
  - intros q. rewrite is_Some_alter. apply Ns.
  - intros p pr Hpr. by eapply grows_peer_ok, Hp.
  - intros q y H. apply lookup_alter_inv in H as (z & Hz & ->).
    eapply grows_sess_ok; [done|]. destruct (Hss _ _ Hz). destruct (decide (s = q)); by split.
  - intros q y k p H Hk. apply lookup_alter_inv in H as (z & Hz & ->).
    assert (s_publishers z !! k = Some p) as Hk' by by destruct (decide (s = q)).
    destruct (Hpub _ _ _ _ Hz Hk') as (pr & Hpr & (Ep & Er & Ek) & Hop). exists pr.
    split; [done|]. split; [done|]. intros HX'. apply Hop. intros HpX.
    destruct (HX _ HpX) as [|(k' & Hk1 & Hk2)]; [done|].
    destruct (Hsub _ _ _ _ Hs Hk1) as (pr' & Hpr' & (Ep' & Er' & Ek') & _). congruence.
  - intros q y k p H Hk. apply lookup_alter_inv in H as (z & Hz & ->).
    assert (s_subscribers z !! k = Some p ∧ (s = q → f (s_subscribers x) !! k = Some p)) as [Hk' Hf].
    { destruct (decide (s = q)) as [->|]; [|done]. assert (z = x) as -> by congruence.
      split; [by eapply lookup_weaken | done]. }
    destruct (Hsub _ _ _ _ Hz Hk') as (pr & Hpr & (Ep & Er & Ek) & Hop). exists pr.
    split; [done|]. split; [done|]. intros HX'. apply Hop. intros HpX.
    destruct (HX _ HpX) as [|(k' & Hk1 & Hk2)]; [done|].
    destruct (Hsub _ _ _ _ Hs Hk1) as (pr' & Hpr' & (Ep' & Er' & Ek') & _).
    assert (pr' = pr) as -> by congruence. assert (k' = k) as -> by congruence.
    rewrite Hf in Hk2; congruence.
  - intros r y k q H Hk. destruct (Hr _ _ _ _ H Hk) as (z & Hz & E1 & E2).
    destruct (gr_s _ _ G _ _ Hz) as (z' & Hz' & [= E3 E4]).
    exists z'. split; [done|]. split; congruence.
  - eapply Forall_impl; [exact Ht|]. intros t. by apply grows_task.
Qed.

Lemma heap_put_pub X w s k p pr :
  heap_ok X w → w_peers w !! p = Some pr → pub_slot s k pr → p_exitCh_closed pr = false →
  heap_ok X (set_w_sess (alter (set_s_publishers <[k := p]>) s) w) ∧
  grows w (set_w_sess (alter (set_s_publishers <[k := p]>) s) w).
Proof.
  intros Hok Hpr0 Hslot Hop0. set (g := set_s_publishers <[k := p]>).
  assert (grows w (set_w_sess (alter g s) w)) as G.
  { split; simpl; try (by split); eauto. intros q y Hy. rewrite lookup_alter.
    destruct (decide (s = q)) as [->|]; [|by eauto]. rewrite Hy. simpl. eauto. }
  split; [|done]. destruct Hok as [Np Ns Nr Hp Hss Hpub Hsub Hr Hm Ht Hq].
  split; simpl; try done.
  - intros q. rewrite is_Some_alter. apply Ns.
  - intros q pr' Hpr'. by eapply grows_peer_ok, Hp.
  - intros q y H. apply lookup_alter_inv in H as (z & Hz & ->).
    eapply grows_sess_ok; [done|]. destruct (Hss _ _ Hz). destruct (decide (s = q)); by split.
  - intros q y k' p' H Hk. apply lookup_alter_inv in H as (z & Hz & ->).
    destruct (decide (s = q)) as [->|]; [|by eapply Hpub].
    simpl in Hk. apply lookup_insert_Some in Hk as [[<- <-]|[? Hk]]; [by eauto | by eapply Hpub].
  - intros q y k' p' H Hk. apply lookup_alter_inv in H as (z & Hz & ->).
    eapply Hsub; [done|]. by destruct (decide (s = q)).
  - intros r y k' q H Hk. destruct (Hr _ _ _ _ H Hk) as (z & Hz & E1 & E2).
    destruct (gr_s _ _ G _ _ Hz) as (z' & Hz' & [= E3 E4]).
    exists z'. split; [done|]. split; congruence.
  - eapply Forall_impl; [exact Ht|]. intros t. by apply grows_task.
Qed.

Lemma heap_put_sub X w s k p pr :
  heap_ok X w → w_peers w !! p = Some pr → sub_slot s k pr → p_exitCh_closed pr = false →
  heap_ok X (set_w_sess (alter (set_s_subscribers <[k := p]>) s) w) ∧
  grows w (set_w_sess (alter (set_s_subscribers <[k := p]>) s) w).
Proof.
  intros Hok Hpr0 Hslot Hop0. set (g := set_s_subscribers <[k := p]>).
  assert (grows w (set_w_sess (alter g s) w)) as G.
  { split; simpl; try (by split); eauto. intros q y Hy. rewrite lookup_alter.
    destruct (decide (s = q)) as [->|]; [|by eauto]. rewrite Hy. simpl. eauto. }
  split; [|done]. destruct Hok as [Np Ns Nr Hp Hss Hpub Hsub Hr Hm Ht Hq].
  split; simpl; try done.
  - intros q. rewrite is_Some_alter. apply Ns.
  - intros q pr' Hpr'. by eapply grows_peer_ok, Hp.
  - intros q y H. apply lookup_alter_inv in H as (z & Hz & ->).
    eapply grows_sess_ok; [done|]. destruct (Hss _ _ Hz). destruct (decide (s = q)); by split.
  - intros q y k' p' H Hk. apply lookup_alter_inv in H as (z & Hz & ->).
    eapply Hpub; [done|]. by destruct (decide (s = q)).
  - intros q y k' p' H Hk. apply lookup_alter_inv in H as (z & Hz & ->).
    destruct (decide (s = q)) as [->|]; [|by eapply Hsub].
    simpl in Hk. apply lookup_insert_Some in Hk as [[<- <-]|[? Hk]]; [by eauto | by eapply Hsub].
  - intros r y k' q H Hk. destruct (Hr _ _ _ _ H Hk) as (z & Hz & E1 & E2).
    destruct (gr_s _ _ G _ _ Hz) as (z' & Hz' & [= E3 E4]).
    exists z'. split; [done|]. split; congruence.
  - eapply Forall_impl; [exact Ht|]. intros t. by apply grows_task.
Qed.

(** ** Structural operations

    [gtr w0 L m L'] is [ntr] for operations that may change the links: only
    the identities of the objects of [w0] are kept. *)
Definition gtr {A} (w0 : world) (L : gmap lockid lockstate) (m : MW A)
    (L' : gmap lockid lockstate) : Prop := ∀ w,
  heap_ok ∅ w → grows w0 w → w_locks w = L →
  wp m (λ _ w', heap_ok ∅ w' ∧ grows w0 w' ∧ w_locks w' = L') safe_exit w.

(** The operation is neutral in every world it can start from. *)
Lemma gtr_ntr {A} w0 L (m : MW A) L' :
  (∀ w, heap_ok ∅ w → grows w0 w → ntr ∅ w L m L') → gtr w0 L m L'.
Proof.
  intros Hm w Hok G E. eapply wp_mono; [by apply (Hm w Hok G) | | done].
  intros a w' (? & K & ?). split; [done|]. split; [|done]. etrans; [done|]. by apply keeps_grows.
Qed.

(** A proof about one run, from the world it starts in. *)
Lemma gtr_at {A} w0 L (m : MW A) L' :
  (∀ w, heap_ok ∅ w → grows w0 w → w_locks w = L →
     wp m (λ _ w', heap_ok ∅ w' ∧ grows w w' ∧ w_locks w' = L') safe_exit w) →
  gtr w0 L m L'.
Proof.
  intros Hm w Hok G E. eapply wp_mono; [by apply (Hm w Hok G E) | | done].
  intros a w' (? & ? & ?). split; [done|]. split; [by etrans | done].
Qed.

Lemma gtr_ret {A} w0 L (a : A) : gtr w0 L (mret a) L.
Proof. intros w Hok G E. by apply wp_ret. Qed.
Lemma gtr_skip w0 L : gtr w0 L skip L.
Proof. apply gtr_ret. Qed.

Lemma gtr_bind {A B} w0 L L1 L2 (m : MW A) (k : A → MW B) :
  gtr w0 L m L1 → (∀ a, gtr w0 L1 (k a) L2) → gtr w0 L (m ≫= k) L2.
Proof.
  intros Hm Hk w H K E. apply wp_bind. eapply wp_mono; [by apply Hm | | done].
  intros a w' (H' & K' & E'). by apply Hk.
Qed.

Lemma gtr_run {A} w L (m : MW A) L' :
  gtr w L m L' → heap_ok ∅ w → w_locks w = L →
  wp m (λ _ w', heap_ok ∅ w' ∧ grows w w' ∧ w_locks w' = L') safe_exit w.
Proof. intros Hm Hok E. by apply Hm. Qed.

Lemma gtr_get_sess {B} w0 L L' s x0 (k : session → MW B) :
  w_sess w0 !! s = Some x0 →
  (∀ x, sident x = sident x0 → gtr w0 L (k x) L') → gtr w0 L (get_sess s ≫= k) L'.
Proof.
  intros H0 Hk w H G E. destruct (gr_s _ _ G _ _ H0) as (x & Hx & Esh).
  unfold get_sess. apply wp_bind, wp_bind, wp_gets.
  apply wp_from_some; rewrite Hx; [|done]. intros ? [= <-]. by apply Hk.
Qed.

Lemma gtr_get_room {B} w0 L L' r x0 (k : room → MW B) :
  w_rooms w0 !! r = Some x0 →
  (∀ x, r_roomid x = r_roomid x0 → gtr w0 L (k x) L') → gtr w0 L (get_room r ≫= k) L'.
Proof.
  intros H0 Hk w H G E. destruct (gr_r _ _ G _ _ H0) as (x & Hx & Esh).
  unfold get_room. apply wp_bind, wp_bind, wp_gets.
  apply wp_from_some; rewrite Hx; [|done]. intros ? [= <-]. by apply Hk.
Qed.

Lemma gtr_for_each {A} w0 L (l : list A) body :
  (∀ x, x ∈ l → gtr w0 L (body x) L) → gtr w0 L (for_each l body) L.
Proof.
  induction l as [|x l IH]; intros Hb; simpl; [apply gtr_skip|].
  eapply gtr_bind; [apply Hb; set_solver|]. intros _. apply IH. set_solver.
Qed.

(** The mutexes. *)
Lemma gtr_Lock w0 L l : L !! l = None → gtr w0 L (Lock l) (<[l := LWrite]> L).
Proof. intros HL. apply gtr_ntr. intros. by apply ntr_Lock. Qed.
Lemma gtr_Unlock w0 L l : L !! l = None → gtr w0 (<[l := LWrite]> L) (Unlock l) L.
Proof. intros HL. apply gtr_ntr. intros. by apply ntr_Unlock. Qed.
Lemma gtr_RLock w0 L l : L !! l = None → gtr w0 L (RLock l) (<[l := LRead 0]> L).
Proof. intros HL. apply gtr_ntr. intros. by apply ntr_RLock. Qed.
Lemma gtr_RUnlock w0 L l : L !! l = None → gtr w0 (<[l := LRead 0]> L) (RUnlock l) L.
Proof. intros HL. apply gtr_ntr. intros. by apply ntr_RUnlock. Qed.

Section range.
Context `{GoRuntime}.

(** A loop over a map that the body may change. *)
Lemma gtr_range_map {A} w0 L (m : MW (gmap string A)) body :
  (∀ w, heap_ok ∅ w → grows w0 w → ∃ m1, m w = Ret m1 w) →
  (∀ k v w m1, heap_ok ∅ w → grows w0 w → w_locks w = L → m w = Ret m1 w → m1 !! k = Some v →
     wp (body k v) (λ _ w', heap_ok ∅ w' ∧ grows w w' ∧ w_locks w' = L) safe_exit w) →
  gtr w0 L (range_map m body) L.
Proof.
  intros Hm Hb. eapply gtr_bind; [apply gtr_ntr; intros; apply ntr_choose|]. intros n.
  assert (∀ B (k : gmap string A → MW B),
    (∀ w m1, heap_ok ∅ w → grows w0 w → w_locks w = L → m w = Ret m1 w →
       wp (k m1) (λ _ w', heap_ok ∅ w' ∧ grows w0 w' ∧ w_locks w' = L) safe_exit w) →
    gtr w0 L (m ≫= k) L) as Hread.
  { intros B k Hk w Hok G E. destruct (Hm w Hok G) as [m1 Hm1].
    apply wp_bind. unfold wp at 1. rewrite Hm1. by apply Hk. }
  apply Hread. intros w m1 Hok G E _. revert w Hok G E. apply gtr_for_each. intros k _.
  apply Hread. intros w m2 Hok G E Hm2. destruct (m2 !! k) as [v|] eqn:Hk; [|done].
  eapply wp_mono; [by eapply Hb | | done]. intros _ w' (? & ? & ?).
  split; [done|]. split; [by etrans | done].
Qed.
End range.

Lemma sess_pubs_run w s x : w_sess w !! s = Some x → sess_pubs s w = Ret (s_publishers x) w.
Proof.
  intros Hx. unfold sess_pubs, get_sess, mbind, M_bind, gets. by rewrite Hx.
Qed.
Lemma sess_subs_run w s x : w_sess w !! s = Some x → sess_subs s w = Ret (s_subscribers x) w.
Proof.
  intros Hx. unfold sess_subs, get_sess, mbind, M_bind, gets. by rewrite Hx.
Qed.

(** ** Destroying the peers of a session *)

Lemma wp_assoc {A B C} (m : MW A) (k1 : A → MW B) (k2 : B → MW C) Q E w :
  wp ((m ≫= k1) ≫= k2) Q E w → wp (m ≫= λ a, k1 a ≫= k2) Q E w.
Proof. unfold wp, mbind, M_bind. by destruct (m w). Qed.

Lemma wp_assoc3 {A B C D} (m : MW A) (k1 : A → MW B) (k2 : A → B → MW C) (k3 : C → MW D) Q E w :
  wp ((m ≫= λ a, k1 a ≫= k2 a) ≫= k3) Q E w →
  wp (m ≫= λ a, k1 a ≫= λ b, k2 a b ≫= k3) Q E w.
Proof.
  unfold wp, mbind, M_bind. destruct (m w) as [a w1|]; [|done]. by destruct (k1 a w1).
Qed.

Lemma destroy_pub_wp w s x k p :
  heap_ok ∅ w → w_sess w !! s = Some x → s_publishers x !! k = Some p →
  wp (_ ← Destroy p; del_pub s k)
    (λ _ w', heap_ok ∅ w' ∧ grows w w' ∧ w_locks w' = w_locks w) safe_exit w.
Proof.
  intros Hok Hs Hk. destruct (ho_pub _ Hok _ _ _ _ Hs Hk) as (pr & Hpr & _ & Hop).
  apply wp_bind. eapply wp_mono; [apply (Destroy_wp ∅ w p pr); auto; set_solver | | done].
  intros _ w1 (Hok1 & K1 & L1 & C1). apply wp_modify.
  destruct (kb_s _ _ _ K1 _ _ Hs) as (x1 & Hx1 & [= _ _ Epub _]).
  destruct (heap_del_pubs ({[p]} ∪ ∅) ∅ w1 s x1 (delete k)) as [Hok2 G2]; [done..| | |].
  - apply delete_subseteq.
  - intros q Hq. rewrite union_empty_r_L in Hq. apply elem_of_singleton in Hq as ->. right. exists k.
    rewrite Epub. by rewrite lookup_delete_eq.
  - split; [done|]. split; [|done]. etrans; [by eapply keeps_but_grows | done].
Qed.

Lemma destroy_sub_wp w s x k p :
  heap_ok ∅ w → w_sess w !! s = Some x → s_subscribers x !! k = Some p →
  wp (_ ← Destroy p; del_sub s k)
    (λ _ w', heap_ok ∅ w' ∧ grows w w' ∧ w_locks w' = w_locks w) safe_exit w.
Proof.
  intros Hok Hs Hk. destruct (ho_sub _ Hok _ _ _ _ Hs Hk) as (pr & Hpr & _ & Hop).
  apply wp_bind. eapply wp_mono; [apply (Destroy_wp ∅ w p pr); auto; set_solver | | done].
  intros _ w1 (Hok1 & K1 & L1 & C1). apply wp_modify.
  destruct (kb_s _ _ _ K1 _ _ Hs) as (x1 & Hx1 & [= _ _ _ Esub]).
  destruct (heap_del_subs ({[p]} ∪ ∅) ∅ w1 s x1 (delete k)) as [Hok2 G2]; [done..| | |].
  - apply delete_subseteq.
  - intros q Hq. rewrite union_empty_r_L in Hq. apply elem_of_singleton in Hq as ->. right. exists k.
    rewrite Esub. by rewrite lookup_delete_eq.
  - split; [done|]. split; [|done]. etrans; [by eapply keeps_but_grows | done].
Qed.

(** A loop that destroys every peer of a map. *)
Section destroy_all.
Context `{GoRuntime}.
Context (w : world) (m : MW (gmap string nat)) (m0 : gmap string nat).
Let Y : gset nat := map_img m0.
Context (Hm : ∀ w', keeps_but Y w w' → m w' = Ret m0 w').
Context (Hinj : ∀ k k' p, m0 !! k = Some p → m0 !! k' = Some p → k = k').
Context (Hopen : ∀ k p, m0 !! k = Some p →
  ∃ pr, w_peers w !! p = Some pr ∧ p_exitCh_closed pr = false).
Context (body : string → nat → MW unit).
Context (Hbody : ∀ k p pr w', m0 !! k = Some p → heap_ok Y w' → keeps_but Y w w' →
  w_peers w' !! p = Some pr → p_exitCh_closed pr = false →
  wp (body k p) (λ _ w'', heap_ok Y w'' ∧ keeps_but {[p]} w' w'' ∧ w_locks w'' = w_locks w' ∧
    is_closed w'' p) safe_exit w').

Lemma destroy_all_wp :
  heap_ok ∅ w →
  wp (range_map m body)
    (λ _ w', heap_ok Y w' ∧ keeps_but Y w w' ∧ w_locks w' = w_locks w ∧
       ∀ k p, m0 !! k = Some p → is_closed w' p) safe_exit w.
Proof.
  intros Hok. apply wp_bind, wp_bind, wp_gets, wp_bind, wp_modify, wp_ret.
  set (w1 := set_w_choice S w).
  assert (keeps_but Y w w1) as K1 by (by apply keeps_keeps_but, same_heap_keeps).
  apply wp_bind. unfold wp at 1. rewrite (Hm w1 K1).
  assert (∀ k p, m0 !! k = Some p → k ∈ range_order (w_choice w) (elements (dom m0))) as Hall.
  { intros k p Hk. rewrite range_order_perm. apply elem_of_elements, elem_of_dom. eauto. }
  assert (NoDup (range_order (w_choice w) (elements (dom m0)))) as Hnd.
  { eapply NoDup_Permutation_proper; [apply range_order_perm|]. apply NoDup_elements. }
  revert Hnd Hall. generalize (range_order (w_choice w) (elements (dom m0))) as ks.
  intros ks Hnd Hall.
  apply (wp_for_each ks _ (λ ks w', NoDup ks ∧ heap_ok Y w' ∧ keeps_but Y w w' ∧
    w_locks w' = w_locks w ∧
    (∀ k p, k ∈ ks → m0 !! k = Some p →
       ∃ pr, w_peers w' !! p = Some pr ∧ p_exitCh_closed pr = false) ∧
    (∀ k p, m0 !! k = Some p → k ∈ ks ∨ is_closed w' p))).
  - split_and!; [done | | done | done | |].
    + eapply heap_weaken; [apply empty_subseteq|]. by eapply same_heap_ok, Hok.
    + intros k p _ Hk. by eapply Hopen.
    + intros k p Hk. left. by eapply Hall.
  - intros k ks' w2 _ (Hnd2 & Hok2 & K2 & L2 & Hop2 & Hcl2).
    apply NoDup_cons in Hnd2 as [Hk Hnd2].
    apply wp_bind. unfold wp at 1. rewrite (Hm w2 K2).
    destruct (m0 !! k) as [p|] eqn:Ek.
    + destruct (Hop2 k p) as (pr & Hpr & Hcl); [set_solver | done |].
      eapply wp_mono; [by eapply Hbody | | done]. intros _ w3 (Hok3 & K3 & L3 & C3).
      assert ({[p]} ⊆ Y) as HY by (apply singleton_subseteq_l, elem_of_map_img; by exists k).
      split_and!; [done | done | by apply (keeps_but_trans Y {[p]} Y w w2 w3) | congruence | |].
      2:{ intros k' p' Ek'. destruct (Hcl2 _ _ Ek') as [[->|?]%elem_of_cons|?];
            [right; by simplify_eq | by left | right; by eapply is_closed_but]. }
      intros k' p' Hk' Ek'. destruct (Hop2 k' p') as (pr' & Hpr' & Hcl'); [set_solver | done |].
      destruct (kb_p _ _ _ K3 _ _ Hpr') as (pr3 & Hpr3 & _ & _ & C). exists pr3. split; [done|].
      rewrite C; [done|]. intros ->%elem_of_singleton. apply Hk. by rewrite (Hinj k k' p).
    + apply wp_ret. split_and!; try done.
      * intros k' p' Hk' Ek'. by apply (Hop2 k'); [set_solver|].
      * intros k' p' Ek'. destruct (Hcl2 _ _ Ek') as [[->|?]%elem_of_cons|?];
          [congruence | by left | by right].
  - intros w2 (_ & ? & ? & ? & _ & Hcl). split_and!; try done. intros k p Hk.
    destruct (Hcl _ _ Hk) as [[]%elem_of_nil|]; done.
Qed.
End destroy_all.

(** ** Leaving *)

Section leave.
Context `{GoRuntime, WebRTC, Amqp}.

Lemma ntr_notify_if_needed X w0 L s x value pr pid :
  heap_ok X w0 → w_sess w0 !! s = Some x → w_peers w0 !! value = Some pr →
  ntr X w0 L (notify_if_needed s value pid) L.
Proof.
  intros Hok Hs Hv. destruct (sess_room _ _ _ _ Hok Hs) as [r Hr].
  unfold notify_if_needed. ntr_auto.
Qed.

(** exitChan and waitGroup: one value is sent, at most one goroutine of
    FakeSubscribe is alive, so the wait ends and none is left. *)
Lemma exit_and_wait_wp X w s x :
  heap_ok X w → w_sess w !! s = Some x →
  wp (exit_and_wait s)
    (λ _ w', heap_ok X w' ∧ keeps w w' ∧ w_locks w' = w_locks w ∧
       ∃ x', w_sess w' !! s = Some x' ∧ s_watchers x' = []) safe_exit w.
Proof.
  intros Hok Hs. destruct (ho_sess _ Hok _ _ Hs) as (Hpar & Hw & Ho).
  unfold exit_and_wait, get_sess.
  apply wp_bind, wp_modify, wp_bind, wp_bind, wp_gets. simpl. rewrite lookup_alter_eq, Hs. simpl.
  apply wp_ret, wp_bind, wp_modify, wp_bind, wp_modify. simpl.
  rewrite decide_True by lia. apply wp_ret.
  set (g := λ y, set_s_watchers (drop (S (s_exitSenders x) `min` length (s_watchers x)))
     (set_s_exitSenders (λ k, (k - S (s_exitSenders x) `min` length (s_watchers x))%nat)
        (set_s_exitSenders S y))).
  match goal with |- heap_ok _ ?w' ∧ _ =>
    assert (same_heap (set_w_sess (alter g s) w) w') as Hsame
      by (split; simpl; by rewrite ?alter_alter_eq) end.
  split; [eapply same_heap_ok; [exact Hsame|] | split; [|split]].
  - apply heap_upd_sess; [done|]. intros y Hy. assert (y = x) as -> by congruence.
    split; [done|]. intros (? & Hw' & ?). split_and!; try done. simpl. rewrite length_drop. lia.
  - etrans; [|by apply same_heap_keeps]. by apply keeps_upd_sess.
  - done.
  - simpl. rewrite !lookup_alter_eq, Hs. simpl. eexists; split; [done|]. simpl.
    apply drop_ge. destruct (s_watchers x) as [|? [|]]; simpl in *; lia.
Qed.

(** The session part of the world, read after a neutral step. *)
Lemma keeps_sess w w' s x :
  keeps w w' → w_sess w !! s = Some x →
  ∃ x', w_sess w' !! s = Some x' ∧ sshape x' = sshape x.
Proof. intros K. apply (ke_s _ _ K). Qed.

(** The publishers of a session are destroyed and its map is emptied. *)
Lemma leave_pubs_wp w s x :
  heap_ok ∅ w → w_sess w !! s = Some x →
  wp (_ ← range_map (sess_pubs s) (λ _ value,
        pr ← get_peer value;
        _ ← notify_if_needed s value (p_peerid pr);
        Destroy value);
      upd_sess s (set_s_publishers (λ _, ∅)))
    (λ _ w', heap_ok ∅ w' ∧ grows w w' ∧ w_locks w' = w_locks w ∧
       (∀ k p, s_publishers x !! k = Some p → is_closed w' p) ∧
       ∃ x', w_sess w' !! s = Some x' ∧ s_publishers x' = ∅ ∧ s_subscribers x' = s_subscribers x)
    safe_exit w.
Proof.
  intros Hok Hs. apply wp_bind. eapply wp_mono; [eapply (destroy_all_wp w _ (s_publishers x)) | |done].
  - intros w' K. destruct (kb_s _ _ _ K _ _ Hs) as (x' & Hx' & [= _ _ <- _]). by apply sess_pubs_run.
  - intros k k' p Hk Hk'.
    destruct (ho_pub _ Hok _ _ _ _ Hs Hk) as (pr & Hpr & (_ & _ & Ek) & _).
    destruct (ho_pub _ Hok _ _ _ _ Hs Hk') as (pr' & Hpr' & (_ & _ & Ek') & _). congruence.
  - intros k p Hk. destruct (ho_pub _ Hok _ _ _ _ Hs Hk) as (pr & Hpr & _ & Hop).
    exists pr. split; [done|]. apply Hop. set_solver.
  - intros k p pr w1 Hk Hok1 K1 Hpr Hop.
    unfold get_peer. apply wp_bind, wp_bind, wp_gets, wp_from_some; [|congruence].
    intros pr' Hpr'. assert (pr' = pr) as -> by congruence.
    destruct (kb_s _ _ _ K1 _ _ Hs) as (x1 & Hx1 & _).
    apply wp_bind. eapply wp_mono; [by eapply (ntr_notify_if_needed _ w1) | | done].
    intros _ w2 (Hok2 & K2 & L2). destruct (ke_p _ _ K2 _ _ Hpr) as (pr2 & Hpr2 & Esh).
    eapply wp_mono; [eapply (Destroy_wp _ w2 p pr2); [done | done |] | | done].
    { injection Esh as _ _ _ _ _ ->. done. }
    intros _ w3 (Hok3 & K3 & L3 & C3). split_and!; [| | congruence | done].
    + eapply heap_weaken; [|done]. apply union_least; [|done].
      apply singleton_subseteq_l, elem_of_map_img. by exists k.
    + eapply (keeps_but_trans ∅ {[p]}); [set_solver..| by apply keeps_keeps_but | done].
  - done.
  - intros _ w1 (Hok1 & K1 & L1 & C1). apply wp_modify.
    destruct (kb_s _ _ _ K1 _ _ Hs) as (x1 & Hx1 & [= _ _ Epub Esub]).
    destruct (heap_del_pubs (map_img (s_publishers x)) ∅ w1 s x1 (λ _, ∅)) as [Hok2 G2];
      [done | done | apply map_empty_subseteq | | ].
    { intros p Hp. right. rewrite Epub. apply elem_of_map_img in Hp as [k Hk]. by exists k. }
    assert (grows w (set_w_sess (alter (set_s_publishers (λ _, ∅)) s) w1)) as G
      by (etrans; [by eapply keeps_but_grows | done]).
    split_and!; [done | done | done | |].
    + intros k p Hk. eapply is_closed_grows; [exact G2|]. by eapply C1.
    + simpl. rewrite lookup_alter_eq, Hx1. simpl. eexists; split; [done|]. done.
Qed.

Lemma leave_subs_wp w s x :
  heap_ok ∅ w → w_sess w !! s = Some x →
  wp (_ ← range_map (sess_subs s) (λ _ value, Destroy value);
      upd_sess s (set_s_subscribers (λ _, ∅)))
    (λ _ w', heap_ok ∅ w' ∧ grows w w' ∧ w_locks w' = w_locks w ∧
       (∀ k p, s_subscribers x !! k = Some p → is_closed w' p) ∧
       ∃ x', w_sess w' !! s = Some x' ∧ s_publishers x' = s_publishers x ∧ s_subscribers x' = ∅)
    safe_exit w.
Proof.
  intros Hok Hs. apply wp_bind. eapply wp_mono; [eapply (destroy_all_wp w _ (s_subscribers x)) | |done].
  - intros w' K. destruct (kb_s _ _ _ K _ _ Hs) as (x' & Hx' & [= _ _ _ <-]). by apply sess_subs_run.
  - intros k k' p Hk Hk'.
    destruct (ho_sub _ Hok _ _ _ _ Hs Hk) as (pr & Hpr & (_ & _ & Ek) & _).
    destruct (ho_sub _ Hok _ _ _ _ Hs Hk') as (pr' & Hpr' & (_ & _ & Ek') & _). congruence.
  - intros k p Hk. destruct (ho_sub _ Hok _ _ _ _ Hs Hk) as (pr & Hpr & _ & Hop).
    exists pr. split; [done|]. apply Hop. set_solver.
  - intros k p pr w1 Hk Hok1 K1 Hpr Hop.
    eapply wp_mono; [by eapply (Destroy_wp _ w1 p pr) | | done].
    intros _ w3 (Hok3 & K3 & L3 & C3). split_and!; [|done..].
    eapply heap_weaken; [|done]. apply union_least; [|done].
    apply singleton_subseteq_l, elem_of_map_img. by exists k.
  - done.
  - intros _ w1 (Hok1 & K1 & L1 & C1). apply wp_modify.
    destruct (kb_s _ _ _ K1 _ _ Hs) as (x1 & Hx1 & [= _ _ Epub Esub]).
    destruct (heap_del_subs (map_img (s_subscribers x)) ∅ w1 s x1 (λ _, ∅)) as [Hok2 G2];
      [done | done | apply map_empty_subseteq | | ].
    { intros p Hp. right. rewrite Esub. apply elem_of_map_img in Hp as [k Hk]. by exists k. }
    assert (grows w (set_w_sess (alter (set_s_subscribers (λ _, ∅)) s) w1)) as G
      by (etrans; [by eapply keeps_but_grows | done]).
    split_and!; [done | done | done | |].
    + intros k p Hk. eapply is_closed_grows; [exact G2|]. by eapply C1.
    + simpl. rewrite lookup_alter_eq, Hx1. simpl. eexists; split; [done|]. done.
Qed.

(** DoLeave closes every peer of the session and leaves it empty. *)
Lemma DoLeave_wp w s x :
  heap_ok ∅ w → w_sess w !! s = Some x →
  w_locks w !! LPubs s = None → w_locks w !! LSubs s = None →
  wp (DoLeave s)
    (λ _ w', heap_ok ∅ w' ∧ grows w w' ∧ w_locks w' = w_locks w ∧
       (∀ k p, s_publishers x !! k = Some p ∨ s_subscribers x !! k = Some p → is_closed w' p) ∧
       ∃ x', w_sess w' !! s = Some x' ∧ s_publishers x' = ∅ ∧ s_subscribers x' = ∅ ∧
         s_watchers x' = [])
    safe_exit w.
Proof.
  intros Hok Hs HLp HLs. unfold DoLeave.
  apply wp_bind. eapply wp_mono; [by apply (@ntr_Lock ∅ w (w_locks w) (LPubs s)) | | done].
  intros _ w1 (Hok1 & K1 & L1). destruct (keeps_sess _ _ _ _ K1 Hs) as (x1 & Hx1 & [= _ _ P1 S1]).
  apply wp_assoc, wp_bind. eapply wp_mono; [by apply (leave_pubs_wp w1 s x1) | | done].
  intros _ w2 (Hok2 & G2 & L2 & C2 & x2 & Hx2 & P2 & S2).
  rewrite L1 in L2. apply wp_bind.
  eapply wp_mono; [by apply (@ntr_Unlock ∅ w2 (w_locks w) (LPubs s) HLp) | | done].
  intros _ w3 (Hok3 & K3 & L3). destruct (keeps_sess _ _ _ _ K3 Hx2) as (x3 & Hx3 & [= _ _ P3 S3]).
  apply wp_bind. eapply wp_mono; [by apply (@ntr_Lock ∅ w3 (w_locks w) (LSubs s) HLs) | | done].
  intros _ w4 (Hok4 & K4 & L4). destruct (keeps_sess _ _ _ _ K4 Hx3) as (x4 & Hx4 & [= _ _ P4 S4]).
  apply wp_assoc, wp_bind. eapply wp_mono; [by apply (leave_subs_wp w4 s x4) | | done].
  intros _ w5 (Hok5 & G5 & L5 & C5 & x5 & Hx5 & P5 & S5).
  rewrite L4 in L5. apply wp_bind.
  eapply wp_mono; [by apply (@ntr_Unlock ∅ w5 (w_locks w) (LSubs s) HLs) | | done].
  intros _ w6 (Hok6 & K6 & L6). destruct (keeps_sess _ _ _ _ K6 Hx5) as (x6 & Hx6 & [= _ _ P6 S6]).
  apply wp_bind. eapply wp_mono; [by apply (exit_and_wait_wp ∅ w6 s x6) | | done].
  intros _ w7 (Hok7 & K7 & L7 & x7 & Hx7 & W7).
  destruct (keeps_sess _ _ _ _ K7 Hx6) as (x7' & Hx7' & [= _ _ P7 S7]).
  assert (x7' = x7) as -> by congruence.
  unfold get_sess. apply wp_bind, wp_bind, wp_gets, wp_from_some; [|congruence].
  intros x' _. apply wp_ret.
  assert (grows w5 w7) as G57 by (etrans; by apply keeps_grows).
  assert (grows w2 w7) as G27.
  { etrans; [by apply keeps_grows|]. etrans; [by apply keeps_grows|]. by etrans. }
  split_and!; [done | | congruence | |].
  - etrans; [by apply keeps_grows|]. by etrans.
  - intros k p [Hk|Hk].
    + eapply is_closed_grows; [exact G27|]. eapply C2. by rewrite P1.
    + eapply is_closed_grows; [exact G57|]. eapply (C5 k). congruence.
  - exists x7. split_and!; congruence.
Qed.
End leave.
