(* ===== verification/SessionSafe.v ===== *)
(** * The operations of a session keep the memory well formed

    The handlers of messages and of connection events that do not change the
    links are neutral ([ntr]); publishing, subscribing and releasing change
    them and are structural ([gtr]). *)

From S2P Require Import Prelude GoLib Json Constants KeyframeFilter MediaEngine World Rmq Peer Notify Session.
From S2P Require Import Invariant PeerSafe Links.

(** ** Neutral operations *)

Section neutral.
Context `{GoRuntime, WebRTC, Amqp}.
Context (X : gset nat) (w0 : world) (L : gmap lockid lockstate) (Hok : heap_ok X w0).
Context (s : nat) (x0 : session) (Hs : w_sess w0 !! s = Some x0).

(** The peers of the session. *)
Lemma pub_peer k p : s_publishers x0 !! k = Some p → ∃ pr, w_peers w0 !! p = Some pr.
Proof. intros Hk. destruct (ho_pub _ Hok _ _ _ _ Hs Hk) as (pr & ? & _). eauto. Qed.
Lemma sub_peer k p : s_subscribers x0 !! k = Some p → ∃ pr, w_peers w0 !! p = Some pr.
Proof. intros Hk. destruct (ho_sub _ Hok _ _ _ _ Hs Hk) as (pr & ? & _). eauto. Qed.

Lemma ntr_upd_watchers i v : ntr X w0 L (upd_sess s (set_s_watchers <[i := v]>)) L.
Proof.
  apply ntr_upd_sess. intros y. split_and!; try done. simpl. by rewrite length_insert.
Qed.
Hint Resolve ntr_upd_watchers : ntr.

Lemma ntr_watcher_fire i : ntr X w0 L (watcher_fire s i) L.
Proof.
  unfold watcher_fire. ntr_auto.
  destruct (pub_peer (wt_pid w) n) as [pr Hpr]; [congruence|]. ntr_auto.
Qed.

Lemma ntr_watcher_exit i : ntr X w0 L (watcher_exit s i) L.
Proof.
  unfold watcher_exit. eapply ntr_bind; [eauto with ntr|]. intros _.
  apply ntr_upd_sess. intros y. split_and!; try done. simpl.
  pose proof (length_delete_le (s_watchers y) i). lia.
Qed.

Lemma ntr_CheckKeepAlive : ntr X w0 L (CheckKeepAlive s) L.
Proof.
  destruct (sess_room _ _ _ _ Hok Hs) as [r Hr]. unfold CheckKeepAlive. ntr_auto.
Qed.

Lemma ntr_RequestPli pid : ntr X w0 L (RequestPli s pid) L.
Proof.
  unfold RequestPli. ntr_auto. destruct (pub_peer pid n) as [pr Hpr]; [done|]. ntr_auto.
Qed.

(** [ntr_auto] with the peers found in the session's maps. *)
Ltac ntr_sess :=
  repeat match goal with
  | Hk : s_publishers _ !! _ = Some _ |- _ =>
      let pr := fresh "pr" in let Hp := fresh "Hpr" in
      destruct (pub_peer _ _ ltac:(first [exact Hk | congruence])) as [pr Hp]; clear Hk
  | Hk : s_subscribers _ !! _ = Some _ |- _ =>
      let pr := fresh "pr" in let Hp := fresh "Hpr" in
      destruct (sub_peer _ _ ltac:(first [exact Hk | congruence])) as [pr Hp]; clear Hk
  | |- ntr _ _ _ _ _ => progress ntr_auto
  end.

Lemma ntr_first_ready L1 : ntr X w0 L1 (first_ready s) L1.
Proof. unfold first_ready. ntr_sess. Qed.
Hint Resolve ntr_first_ready : ntr.

Section unlocked.
Context (HLp : L !! LPubs s = None) (HLs : L !! LSubs s = None).

Lemma ntr_hasPublisher : ntr X w0 L (hasPublisher s) L.
Proof. unfold hasPublisher. ntr_sess. Qed.
Lemma ntr_HasOriginPublisher : ntr X w0 L (HasOriginPublisher s) L.
Proof. unfold HasOriginPublisher. ntr_sess. Qed.
Lemma ntr_publisher_info p pr :
  w_peers w0 !! p = Some pr → ntr X w0 L (publisher_info s p) L.
Proof. intros Hp. unfold publisher_info. ntr_sess. Qed.
Lemma ntr_session_stopsub u r p : ntr X w0 L (session_stopsub s u r p) L.
Proof. unfold session_stopsub. ntr_sess. Qed.
Lemma ntr_session_offer j c u p : ntr X w0 L (session_offer s j c u p) L.
Proof. unfold session_offer. ntr_sess. Qed.
Lemma ntr_session_answer j c u r p : ntr X w0 L (session_answer s j c u r p) L.
Proof. unfold session_answer. ntr_sess. Qed.
Lemma ntr_session_fakeanswer j r p : ntr X w0 L (session_fakeanswer s j r p) L.
Proof. unfold session_fakeanswer. ntr_sess. Qed.
Hint Resolve ntr_session_fakeanswer : ntr.
Lemma ntr_session_fakecandidate j r p : ntr X w0 L (session_fakecandidate s j r p) L.
Proof. unfold session_fakecandidate. ntr_sess. Qed.
Lemma ntr_session_roomcreated j : ntr X w0 L (session_roomcreated s j) L.
Proof. unfold session_roomcreated. ntr_sess. Qed.
Lemma ntr_OnIceReady role sid ssid pid : ntr X w0 L (OnIceReady s role sid ssid pid) L.
Proof.
  destruct (sess_room _ _ _ _ Hok Hs) as [r Hr]. unfold OnIceReady. ntr_sess.
Qed.
Lemma ntr_OnIceDisconnected role sid ssid pid :
  ntr X w0 L (OnIceDisconnected s role sid ssid pid) L.
Proof.
  destruct (sess_room _ _ _ _ Hok Hs) as [r Hr]. pose proof ntr_notify_if_needed.
  unfold OnIceDisconnected. ntr_sess; eauto with ntr.
Qed.
Lemma ntr_OnIceClosed role sid ssid pid : ntr X w0 L (OnIceClosed s role sid ssid pid) L.
Proof.
  destruct (sess_room _ _ _ _ Hok Hs) as [r Hr]. unfold OnIceClosed. ntr_sess.
Qed.
Lemma ntr_UpdateAudioCodec c : ntr X w0 L (UpdateAudioCodec s c) L.
Proof. unfold UpdateAudioCodec. ntr_sess. Qed.
Lemma ntr_UpdateVideoCodec c : ntr X w0 L (UpdateVideoCodec s c) L.
Proof. unfold UpdateVideoCodec. ntr_sess. Qed.
Lemma ntr_OnReceivedAudioData b n p : ntr X w0 L (OnReceivedAudioData s b n p) L.
Proof. unfold OnReceivedAudioData. ntr_sess. Qed.
Lemma ntr_OnReceivedVideoData b n p : ntr X w0 L (OnReceivedVideoData s b n p) L.
Proof. unfold OnReceivedVideoData. ntr_sess. Qed.
Lemma ntr_BroadcastAppData sid pid b n : ntr X w0 L (BroadcastAppData s sid pid b n) L.
Proof. unfold BroadcastAppData, broadcast_to. ntr_sess. Qed.
End unlocked.
End neutral.

(** ** The watchers of a fake session *)

Section watchers.
Context `{GoRuntime, WebRTC, Amqp}.

(** Publishing changes nothing but the trace. *)
Lemma PublishMessage2CrossClusterPod_wp X w k m :
  heap_ok X w →
  wp (PublishMessage2CrossClusterPod k m)
    (λ _ w', same_heap w w' ∧ w_locks w' = w_locks w) safe_exit w.
Proof.
  intros Hok. unfold PublishMessage2CrossClusterPod. apply wp_bind, wp_gets.
  destruct (connected (w_rmq w)); simpl; [|by apply wp_ret].
  unfold send_msgChan. apply wp_bind, wp_from_some; [|done]. intros x Hx.
  destruct (proj1 (ho_rmq _ Hok) x) as [ex Hex]; [unfold rmq_ptr; tauto|].
  unfold get_ex. apply wp_bind, wp_bind, wp_gets, wp_from_some; [|congruence].
  intros ex' _. destruct (x_msgChan ex' && x_producer ex'); [|by apply wp_halt].
  by apply wp_modify.
Qed.

Lemma FakeSubscribe_wp X w s x sid pid t :
  heap_ok X w → w_sess w !! s = Some x → s_watchers x = [] →
  wp (FakeSubscribe s sid pid t)
    (λ _ w', heap_ok X w' ∧ keeps w w' ∧ w_locks w' = w_locks w) safe_exit w.
Proof.
  intros Hok Hs Hw. destruct (sess_room _ _ _ _ Hok Hs) as [r Hr].
  unfold FakeSubscribe, sess_roomid, get_sess, get_room.
  apply wp_bind, wp_gets, wp_bind, wp_bind, wp_gets. rewrite Hs. apply wp_ret.
  apply wp_bind, wp_bind, wp_bind, wp_gets. rewrite Hs. apply wp_ret.
  apply wp_bind, wp_bind, wp_gets. rewrite Hr. apply wp_ret, wp_ret.
  apply wp_bind. eapply wp_mono; [by apply (PublishMessage2CrossClusterPod_wp X) | | done].
  intros _ w1 [Hsame L1]. apply wp_bind, wp_gets, wp_modify.
  assert (heap_ok X w1) as Hok1 by by eapply same_heap_ok.
  assert (w_sess w1 !! s = Some x) as Hs1 by by rewrite (sh_s _ _ Hsame).
  split; [|split; [|done]].
  - apply heap_upd_sess; [done|]. intros y Hy. assert (y = x) as -> by congruence.
    split; [done|]. intros (? & _ & ?). split_and!; try done. simpl. by rewrite Hw.
  - etrans; [by apply same_heap_keeps|]. by apply keeps_upd_sess.
Qed.

Lemma ntr_FakePublisherReConnect X w0 L s x0 sid pid t :
  w_sess w0 !! s = Some x0 → ntr X w0 L (FakePublisherReConnect s sid pid t) L.
Proof.
  intros Hs. unfold FakePublisherReConnect.
  eapply ntr_get_sess; [done|]. intros x _. destruct (s_origin x); [apply ntr_skip|].
  intros w1 Hok1 K1 HL1. destruct (keeps_sess _ _ _ _ K1 Hs) as (x1 & Hx1 & _).
  apply wp_bind. eapply wp_mono; [by apply (exit_and_wait_wp X w1 s x1) | | done].
  intros _ w2 (Hok2 & K2 & L2 & x2 & Hx2 & W2).
  eapply wp_mono; [by apply (FakeSubscribe_wp X w2 s x2) | | done].
  intros _ w3 (Hok3 & K3 & L3). split; [done|]. split; [|congruence].
  etrans; [done|]. by etrans.
Qed.

Lemma ntr_OnIceFailed X w0 L s x0 role sid ssid pid :
  heap_ok X w0 → w_sess w0 !! s = Some x0 → L !! LPubs s = None → L !! LSubs s = None →
  ntr X w0 L (OnIceFailed s role sid ssid pid) L.
Proof.
  intros Hok Hs HLp HLs. destruct (sess_room _ _ _ _ Hok Hs) as [r Hr].
  pose proof (λ L, ntr_FakePublisherReConnect X w0 L s x0) as Hre.
  unfold OnIceFailed. ntr_auto.
Qed.
End watchers.

(** ** New peers *)

Lemma heap_alloc_peer X w pr :
  heap_ok X w → peer_ok w pr →
  heap_ok X (set_w_peers <[w_next w := pr]> (set_w_next S w)) ∧
  keeps w (set_w_peers <[w_next w := pr]> (set_w_next S w)).
Proof.
  intros Hok Hpr. set (w' := set_w_peers _ _).
  assert (∀ p pr', w_peers w !! p = Some pr' → w_peers w' !! p = Some pr') as Hold.
  { intros p pr' Hp. subst w'. simpl. rewrite lookup_insert_ne; [done|].
    pose proof (ho_next_p _ Hok p (mk_is_Some _ _ Hp)). lia. }
  assert (keeps w w') as K by (split; simpl; try split; eauto).
  split; [|done]. destruct Hok as [Np Ns Nr Hp Hs Hpub Hsub Hr Hm Ht Hq].
  split; simpl; try done.
  - intros p [pr' [[<- _]|[_ Hp']]%lookup_insert_Some]; [lia|].
    pose proof (Np p (mk_is_Some _ _ Hp')). lia.
  - intros s Hs'. pose proof (Ns _ Hs'). lia.
  - intros r Hr'. pose proof (Nr _ Hr'). lia.
  - intros p pr' [[_ <-]|[_ Hp']]%lookup_insert_Some; [done | by eapply Hp].
  - intros s x k p Hx Hk. destruct (Hpub _ _ _ _ Hx Hk) as (pr' & ? & ? & ?).
    exists pr'. split_and!; auto.
  - intros s x k p Hx Hk. destruct (Hsub _ _ _ _ Hx Hk) as (pr' & ? & ? & ?).
    exists pr'. split_and!; auto.
  - eapply Forall_impl; [exact Ht|]. intros t. by apply keeps_task.
Qed.

Section create.
Context `{GoRuntime, WebRTC, Amqp}.

Lemma ntr_new_connection X w0 L m : ntr X w0 L (new_connection m) L.
Proof. unfold new_connection. destruct (engine_interceptors m) as [m' []]; ntr_auto. Qed.

(** The constructors return a new peer, open, ready to be put in the map of
    its session. *)
Lemma alloc_peer_wp X w pr (slot : peer → Prop) E :
  heap_ok X w → peer_ok w pr → slot pr → p_exitCh_closed pr = false →
  wp (p ← alloc_peer pr; mret (Some p))
    (λ o w', heap_ok X w' ∧ keeps w w' ∧ w_locks w' = w_locks w ∧
       match o with
       | Some p => ∃ pr', w_peers w' !! p = Some pr' ∧ slot pr' ∧ p_exitCh_closed pr' = false
       | None => True
       end) E w.
Proof.
  intros Hok Hpr Hslot Hop. apply wp_bind. unfold alloc_peer.
  apply wp_bind, wp_gets, wp_bind, wp_modify, wp_bind, wp_modify, wp_ret, wp_ret.
  destruct (heap_alloc_peer X w pr Hok Hpr). split_and!; try done.
  exists pr. simpl. by rewrite lookup_insert_eq.
Qed.

Lemma CreatePublishPeer_wp X w s x sid pid podid b :
  heap_ok X w → w_sess w !! s = Some x →
  wp (CreatePublishPeer s sid pid podid b)
    (λ o w', heap_ok X w' ∧ keeps w w' ∧ w_locks w' = w_locks w ∧
       match o with
       | Some p => ∃ pr, w_peers w' !! p = Some pr ∧ pub_slot s pid pr ∧ p_exitCh_closed pr = false
       | None => True
       end) safe_exit w.
Proof.
  intros Hok Hs. unfold CreatePublishPeer. destruct (initMediaCodec engine_zero) as [m []]; [by apply wp_ret|].
  apply wp_bind. eapply wp_mono; [by apply (ntr_new_connection X w (w_locks w)) | | done].
  intros pc w2 (Hok2 & K2 & L2). destruct pc as [pc|]; [|by apply wp_ret].
  destruct (keeps_sess _ _ _ _ K2 Hs) as (x2 & Hx2 & _).
  eapply wp_mono; [apply (alloc_peer_wp X w2 _ (pub_slot s pid)) | | done]; try done.
  - split; [by eexists|]. split; [|by split]. left. by eauto 10.
  - intros o w3 (? & ? & ? & ?). split_and!; [done | by etrans | congruence | done].
Qed.

Lemma CreateSubscribePeer_wp X w s x sid ssid pid podid sdp ac vc b :
  heap_ok X w → w_sess w !! s = Some x →
  wp (CreateSubscribePeer s sid ssid pid podid sdp ac vc b)
    (λ o w', heap_ok X w' ∧ keeps w w' ∧ w_locks w' = w_locks w ∧
       match o with
       | Some p => ∃ pr, w_peers w' !! p = Some pr ∧ sub_slot s (sid +:+ ssid +:+ pid) pr ∧
           p_exitCh_closed pr = false
       | None => True
       end) safe_exit w.
Proof.
  intros Hok Hs. unfold CreateSubscribePeer. generalize (initMediaCodec engine_zero).1. intros m.
  apply wp_bind. eapply wp_mono; [by apply (ntr_new_connection X w (w_locks w)) | | done].
  intros pc w2 (Hok2 & K2 & L2). destruct pc as [pc|]; [|by apply wp_ret].
  destruct (keeps_sess _ _ _ _ K2 Hs) as (x2 & Hx2 & _).
  eapply wp_mono; [apply (alloc_peer_wp X w2 _ (sub_slot s (sid +:+ ssid +:+ pid))) | | done];
    try done.
  - split; [by eexists|]. split; [|by split]. by right.
  - intros o w3 (? & ? & ? & ?). split_and!; [done | by etrans | congruence | done].
Qed.
End create.

(** ** Structural operations *)

(** The outcome of a structural operation from [w]. *)
Abbreviation ok_after w L := (λ _ w', heap_ok ∅ w' ∧ grows w w' ∧ w_locks w' = L).

Lemma gtr_then {A B} w L1 L2 (m : MW A) (k : A → MW B) :
  wp m (ok_after w L1) safe_exit w → (∀ a, gtr w L1 (k a) L2) →
  wp (m ≫= k) (ok_after w L2) safe_exit w.
Proof.
  intros Hm Hk. apply wp_bind. eapply wp_mono; [exact Hm | | done].
  intros a w' (? & ? & ?). by apply Hk.
Qed.

(** A neutral step, then a continuation that knows the links are kept. *)
Lemma ntr_then {A B} w L L1 (m : MW A) (k : A → MW B) Q :
  ntr ∅ w L m L1 → heap_ok ∅ w → w_locks w = L →
  (∀ a w', heap_ok ∅ w' → keeps w w' → w_locks w' = L1 → wp (k a) Q safe_exit w') →
  wp (m ≫= k) Q safe_exit w.
Proof.
  intros Hm Hok E Hk. apply wp_bind. eapply wp_mono; [by apply Hm | | done].
  intros a w' (? & ? & ?). by apply Hk.
Qed.

Lemma wp_sess_pubs {B} w s x (k : gmap string nat → MW B) Q E :
  w_sess w !! s = Some x → wp (k (s_publishers x)) Q E w → wp (sess_pubs s ≫= k) Q E w.
Proof. intros Hs Hk. apply wp_bind. unfold wp at 1. by rewrite (sess_pubs_run _ _ _ Hs). Qed.
Lemma wp_sess_subs {B} w s x (k : gmap string nat → MW B) Q E :
  w_sess w !! s = Some x → wp (k (s_subscribers x)) Q E w → wp (sess_subs s ≫= k) Q E w.
Proof. intros Hs Hk. apply wp_bind. unfold wp at 1. by rewrite (sess_subs_run _ _ _ Hs). Qed.
Lemma wp_get_sess {B} w s x (k : session → MW B) Q E :
  w_sess w !! s = Some x → wp (k x) Q E w → wp (get_sess s ≫= k) Q E w.
Proof.
  intros Hs Hk. unfold get_sess. apply wp_bind, wp_bind, wp_gets. by rewrite Hs.
Qed.
Lemma wp_get_peer {B} w p pr (k : peer → MW B) Q E :
  w_peers w !! p = Some pr → wp (k pr) Q E w → wp (get_peer p ≫= k) Q E w.
Proof.
  intros Hs Hk. unfold get_peer. apply wp_bind, wp_bind, wp_gets. by rewrite Hs.
Qed.

Lemma ok_after_trans {A} w w1 L (m : MW A) :
  grows w w1 → wp m (ok_after w1 L) safe_exit w1 → wp m (ok_after w L) safe_exit w1.
Proof.
  intros G Hm. eapply wp_mono; [exact Hm | | done]. intros a w' (? & ? & ?).
  split_and!; [done | by etrans | done].
Qed.

Section structural.
Context `{GoRuntime, WebRTC, Amqp}.
Context (w0 : world) (L : gmap lockid lockstate) (s : nat) (x0 : session).
Context (Hs0 : w_sess w0 !! s = Some x0).

(** The session still exists. *)
Lemma still_sess w : grows w0 w → ∃ x, w_sess w !! s = Some x ∧ sident x = sident x0.
Proof. intros G. by apply (gr_s _ _ G). Qed.

Lemma destroy_sub_at w x k :
  heap_ok ∅ w → w_sess w !! s = Some x → w_locks w = L →
  wp (match s_subscribers x !! k with Some p => _ ← Destroy p; del_sub s k | None => skip end)
    (ok_after w L) safe_exit w.
Proof.
  intros Hok Hx HL. destruct (s_subscribers x !! k) eqn:Hk; [|by apply wp_ret].
  rewrite <- HL. by eapply destroy_sub_wp.
Qed.
End structural.

Section release.
Context `{GoRuntime, WebRTC, Amqp}.
Context (w0 : world) (L : gmap lockid lockstate) (s : nat) (x0 : session).
Context (Hs0 : w_sess w0 !! s = Some x0).
Context (HLp : L !! LPubs s = None) (HLs : L !! LSubs s = None).

Lemma gtr_ReleaseSubscriberPeer sid ssid pid :
  gtr w0 L (ReleaseSubscriberPeer s sid ssid pid) L.
Proof.
  unfold ReleaseSubscriberPeer. eapply gtr_bind; [by apply gtr_Lock|]. intros _.
  apply gtr_at. intros w Hok G HL. destruct (still_sess _ _ _ Hs0 _ G) as (x & Hx & _).
  eapply wp_sess_subs; [done|]. eapply gtr_then; [by apply destroy_sub_at|].
  intros _. by apply gtr_Unlock.
Qed.

(** Destroying a publisher after the notice that it stops. *)
Lemma notify_destroy_wp w x k p :
  heap_ok ∅ w → w_sess w !! s = Some x → s_publishers x !! k = Some p →
  wp (_ ← notify_if_needed s p k; _ ← Destroy p; del_pub s k)
    (ok_after w (w_locks w)) safe_exit w.
Proof.
  intros Hok Hx Hk. destruct (ho_pub _ Hok _ _ _ _ Hx Hk) as (pr & Hpr & _).
  eapply ntr_then; [by eapply (ntr_notify_if_needed ∅ w (w_locks w)) | done | done |].
  intros _ w1 Hok1 K1 L1. destruct (keeps_sess _ _ _ _ K1 Hx) as (x1 & Hx1 & [= _ _ P1 _]).
  eapply ok_after_trans; [by apply keeps_grows|]. rewrite <- L1.
  eapply destroy_pub_wp; [done | done |]. by rewrite P1.
Qed.

Lemma gtr_drop_publisher k : gtr w0 L (drop_publisher s k) L.
Proof.
  apply gtr_at. intros w Hok G HL. destruct (still_sess _ _ _ Hs0 _ G) as (x & Hx & _).
  unfold drop_publisher. eapply wp_sess_pubs; [done|].
  destruct (s_publishers x !! k) as [p|] eqn:Hk; [|by apply wp_ret].
  eapply (ntr_then w L (<[LPubs s := LWrite]> L)); [by apply ntr_Lock | done | done |].
  intros _ w1 Hok1 K1 L1. destruct (keeps_sess _ _ _ _ K1 Hx) as (x1 & Hx1 & [= _ _ P1 _]).
  eapply ok_after_trans; [by apply keeps_grows|].
  apply wp_assoc3. eapply gtr_then.
  - apply notify_destroy_wp with (x := x1); [done | done |]. by rewrite P1.
  - intros _. rewrite L1. by apply gtr_Unlock.
Qed.

Lemma gtr_drop_subscriber k : gtr w0 L (drop_subscriber s k) L.
Proof.
  apply gtr_at. intros w Hok G HL. destruct (still_sess _ _ _ Hs0 _ G) as (x & Hx & _).
  unfold drop_subscriber. eapply wp_sess_subs; [done|].
  destruct (s_subscribers x !! k) as [p|] eqn:Hk; [|by apply wp_ret].
  eapply (ntr_then w L (<[LSubs s := LWrite]> L)); [by apply ntr_Lock | done | done |].
  intros _ w1 Hok1 K1 L1. destruct (keeps_sess _ _ _ _ K1 Hx) as (x1 & Hx1 & [= _ _ _ S1]).
  eapply ok_after_trans; [by apply keeps_grows|]. apply wp_assoc. eapply gtr_then.
  - apply destroy_sub_wp with (x := x1); [done | done |]. by rewrite S1.
  - intros _. rewrite L1. by apply gtr_Unlock.
Qed.

(** The end of ReleasePublisher: the subscribers of the publisher go. *)
Lemma gtr_release_subs pid :
  gtr w0 L
    (range_map (sess_subs s) (λ _ value,
        pr ← get_peer value;
        if decide (p_peerid pr = pid) then
          _ ← Destroy value;
          del_sub s (p_userid pr +:+ p_remoteuserid pr +:+ p_peerid pr)
        else skip)) L.
Proof.
  apply gtr_range_map.
  - intros w _ G. destruct (still_sess _ _ _ Hs0 _ G) as (x & Hx & _).
    eexists. by apply sess_subs_run.
  - intros k p w m1 Hok G HL Hm Hk. destruct (still_sess _ _ _ Hs0 _ G) as (x & Hx & _).
    rewrite (sess_subs_run _ _ _ Hx) in Hm. injection Hm as <-.
    destruct (ho_sub _ Hok _ _ _ _ Hx Hk) as (pr & Hpr & (_ & _ & Ek) & _).
    eapply wp_get_peer; [done|]. destruct (decide _); [|by apply wp_ret].
    unfold sub_key in Ek. rewrite Ek, <- HL. by eapply destroy_sub_wp.
Qed.
End release.

Section release2.
Context `{GoRuntime, WebRTC, Amqp}.
Context (w0 : world) (L : gmap lockid lockstate) (s : nat) (x0 : session).
Context (Hs0 : w_sess w0 !! s = Some x0).
Context (HLp : L !! LPubs s = None) (HLs : L !! LSubs s = None).

Lemma gtr_ReleasePublisher sid pid : gtr w0 L (ReleasePublisher s sid pid) L.
Proof.
  unfold ReleasePublisher. eapply gtr_bind; [by apply (gtr_Lock w0 L)|]. intros _.
  apply gtr_at. intros w Hok G HL. destruct (still_sess _ _ _ Hs0 _ G) as (x & Hx & _).
  eapply wp_sess_pubs; [done|]. eapply (gtr_then w (<[LPubs s := LWrite]> L)).
  { destruct (s_publishers x !! pid) eqn:Hk; [|by apply wp_ret].
    rewrite <- HL. by eapply notify_destroy_wp. }
  intros _. eapply gtr_bind; [by apply gtr_Unlock|]. intros _.
  eapply gtr_bind; [by apply gtr_Lock|]. intros _.
  eapply gtr_bind; [by eapply gtr_release_subs|]. intros _.
  eapply gtr_bind; [by apply gtr_Unlock|]. intros _.
  apply gtr_ntr. intros w1 Hok1 G1. destruct (gr_s _ _ G1 _ _ Hx) as (x1 & Hx1 & _).
  by eapply ntr_notifyReleasePublish.
Qed.

Lemma gtr_HandleSubscriberLeaved sid : gtr w0 L (HandleSubscriberLeaved s sid) L.
Proof.
  unfold HandleSubscriberLeaved. eapply gtr_bind; [by apply (gtr_RLock w0 L)|]. intros _.
  eapply gtr_bind.
  { apply gtr_ntr. intros w Hok G. destruct (still_sess _ _ _ Hs0 _ G) as (x & Hx & _).
    eapply ntr_range_collect; [by apply reads_sess_pubs|]. intros k p Hk.
    destruct (ho_pub _ Hok _ _ _ _ Hx Hk) as (pr & Hpr & _). ntr_auto. }
  intros lst. eapply gtr_bind; [by apply gtr_RUnlock|]. intros _.
  eapply gtr_bind; [by apply gtr_Lock|]. intros _.
  eapply gtr_bind; [|intros _; by apply gtr_Unlock].
  apply gtr_for_each. intros v _. apply gtr_at. intros w Hok G HL.
  destruct (still_sess _ _ _ Hs0 _ G) as (x & Hx & _).
  eapply wp_get_sess; [done|]. by apply destroy_sub_at.
Qed.

End release2.

(** ** Publishing and subscribing *)

Section insert.
Context `{GoRuntime, WebRTC, Amqp}.
Context (L : gmap lockid lockstate) (s : nat).

(** A new peer is put in the map of its session under the mutex [l], then
    [rest] runs.  [slot] is the place the peer was made for, [put] the update
    of the map. *)
Context (l : lockid) (HL0 : L !! l = None) (slot : peer → Prop) (put : nat → world → world).
Context (slot_shape : ∀ pr pr', pshape pr' = pshape pr → slot pr → slot pr').
Context (put_ok : ∀ w p pr, heap_ok ∅ w → w_peers w !! p = Some pr → slot pr →
  p_exitCh_closed pr = false →
  (heap_ok ∅ (put p w) ∧ grows w (put p w)) ∧ w_locks (put p w) = w_locks w ∧
  w_peers (put p w) = w_peers w).
Context (otherwise : MW unit) (rest : nat → session → MW unit).
Context (Hother : ∀ w x, w_sess w !! s = Some x → gtr w L otherwise L).
Context (Hrest : ∀ w p pr x y, heap_ok ∅ w → w_peers w !! p = Some pr → w_sess w !! s = Some x →
  gtr w L (rest p y) L).

Lemma insert_peer_wp w x o :
  heap_ok ∅ w → w_sess w !! s = Some x → w_locks w = L →
  match o with
  | Some p => ∃ pr, w_peers w !! p = Some pr ∧ slot pr ∧ p_exitCh_closed pr = false
  | None => True
  end →
  wp (match o with
      | None => otherwise
      | Some peer =>
          x ← get_sess s;
          _ ← peer_SetSendMessageHandler peer (s_onSendMessageHandler x);
          _ ← Lock l;
          _ ← modify (put peer);
          _ ← Unlock l;
          rest peer x
      end) (ok_after w L) safe_exit w.
Proof.
  intros Hok Hx HL Ho. destruct o as [p|]; [|by eapply gtr_run; [by eapply Hother|..]].
  destruct Ho as (pr & Hpr & Hslot & Hop). eapply wp_get_sess; [done|].
  eapply (ntr_then w L L); [by eapply ntr_peer_SetSendMessageHandler | done | done |].
  intros _ w1 Hok1 K1 L1. eapply ok_after_trans; [by apply keeps_grows|].
  destruct (ke_p _ _ K1 _ _ Hpr) as (pr1 & Hpr1 & E1).
  eapply (ntr_then w1 L (<[l := LWrite]> L)); [by apply ntr_Lock | done | done |].
  intros _ w2 Hok2 K2 L2. eapply ok_after_trans; [by apply keeps_grows|].
  destruct (ke_p _ _ K2 _ _ Hpr1) as (pr2 & Hpr2 & E2).
  destruct (keeps_sess _ _ _ _ K1 Hx) as (x1 & Hx1 & _).
  destruct (keeps_sess _ _ _ _ K2 Hx1) as (x2 & Hx2 & _).
  destruct (put_ok w2 p pr2) as ([Hok3 G3] & L3 & P3); [done | done | | |].
  { eapply slot_shape; [|exact Hslot]. congruence. }
  { rewrite E1 in E2. by injection E2 as _ _ _ _ _ ->. }
  apply wp_bind, wp_modify. eapply ok_after_trans; [exact G3|].
  eapply (ntr_then _ (<[l := LWrite]> L) L); [by apply ntr_Unlock | done | congruence |].
  intros _ w4 Hok4 K4 L4. eapply ok_after_trans; [by apply keeps_grows|].
  destruct (gr_s _ _ G3 _ _ Hx2) as (x3 & Hx3 & _). rewrite <- P3 in Hpr2.
  destruct (ke_p _ _ K4 p pr2 Hpr2) as (pr4 & Hpr4 & _).
  destruct (keeps_sess _ _ _ _ K4 Hx3) as (x4 & Hx4 & _).
  by eapply gtr_run; [by eapply Hrest|..].
Qed.
End insert.

Section publish.
Context `{GoRuntime, WebRTC, Amqp}.
Context (w0 : world) (L : gmap lockid lockstate) (s : nat) (x0 : session).
Context (Hs0 : w_sess w0 !! s = Some x0).
Context (HLp : L !! LPubs s = None) (HLs : L !! LSubs s = None).

Lemma insert_pub_wp w x k o (otherwise : MW unit) (rest : nat → session → MW unit) :
  (∀ w x, w_sess w !! s = Some x → gtr w L otherwise L) →
  (∀ w p pr x y, heap_ok ∅ w → w_peers w !! p = Some pr → w_sess w !! s = Some x →
     gtr w L (rest p y) L) →
  heap_ok ∅ w → w_sess w !! s = Some x → w_locks w = L →
  match o with
  | Some p => ∃ pr, w_peers w !! p = Some pr ∧ pub_slot s k pr ∧ p_exitCh_closed pr = false
  | None => True
  end →
  wp (match o with
      | None => otherwise
      | Some peer =>
          x ← get_sess s;
          _ ← peer_SetSendMessageHandler peer (s_onSendMessageHandler x);
          _ ← Lock (LPubs s);
          _ ← put_pub s k peer;
          _ ← Unlock (LPubs s);
          rest peer x
      end) (ok_after w L) safe_exit w.
Proof.
  intros Hother Hrest. eapply (insert_peer_wp L s (LPubs s) HLp (pub_slot s k)); try done.
  - intros pr pr'. apply pub_slot_shape.
  - intros. split; [|done]. by eapply heap_put_pub.
Qed.

Lemma insert_sub_wp w x k o (otherwise : MW unit) (rest : nat → session → MW unit) :
  (∀ w x, w_sess w !! s = Some x → gtr w L otherwise L) →
  (∀ w p pr x y, heap_ok ∅ w → w_peers w !! p = Some pr → w_sess w !! s = Some x →
     gtr w L (rest p y) L) →
  heap_ok ∅ w → w_sess w !! s = Some x → w_locks w = L →
  match o with
  | Some p => ∃ pr, w_peers w !! p = Some pr ∧ sub_slot s k pr ∧ p_exitCh_closed pr = false
  | None => True
  end →
  wp (match o with
      | None => otherwise
      | Some peer =>
          x ← get_sess s;
          _ ← peer_SetSendMessageHandler peer (s_onSendMessageHandler x);
          _ ← Lock (LSubs s);
          _ ← put_sub s k peer;
          _ ← Unlock (LSubs s);
          rest peer x
      end) (ok_after w L) safe_exit w.
Proof.
  intros Hother Hrest. eapply (insert_peer_wp L s (LSubs s) HLs (sub_slot s k)); try done.
  - intros pr pr'. apply sub_slot_shape.
  - intros. split; [|done]. by eapply heap_put_sub.
Qed.

(** The message goes to the new peer. *)
Lemma gtr_peer_HandleMessage w p pr j :
  w_peers w !! p = Some pr → gtr w L (peer_HandleMessage p j) L.
Proof.
  intros Hp. apply gtr_ntr. intros w1 Hok1 G1. destruct (gr_p _ _ G1 _ _ Hp) as (pr1 & Hp1 & _).
  by eapply ntr_peer_HandleMessage.
Qed.

Lemma gtr_session_push u k : gtr w0 L (session_push s u k) L.
Proof.
  unfold session_push. eapply gtr_bind; [by eapply gtr_drop_publisher|]. intros _.
  apply gtr_at. intros w Hok G HL. destruct (still_sess _ _ _ Hs0 _ G) as (x & Hx & _).
  apply wp_bind. eapply wp_mono; [by eapply (CreatePublishPeer_wp ∅ w) | | done].
  intros o w1 (Hok1 & K1 & L1 & Ho). destruct (keeps_sess _ _ _ _ K1 Hx) as (x1 & Hx1 & _).
  eapply ok_after_trans; [by apply keeps_grows|].
  apply (insert_pub_wp w1 x1 k o skip); [| | done | done | congruence | done].
  - intros. apply gtr_skip.
  - intros. apply gtr_ntr. intros. eauto with ntr.
Qed.

Lemma gtr_session_fakeoffer j u k : gtr w0 L (session_fakeoffer s j u k) L.
Proof.
  unfold session_fakeoffer. eapply gtr_bind; [by eapply gtr_drop_publisher|]. intros _.
  apply gtr_at. intros w Hok G HL. destruct (still_sess _ _ _ Hs0 _ G) as (x & Hx & _).
  apply wp_bind. eapply wp_mono; [by eapply (CreatePublishPeer_wp ∅ w) | | done].
  intros o w1 (Hok1 & K1 & L1 & Ho). destruct (keeps_sess _ _ _ _ K1 Hx) as (x1 & Hx1 & _).
  eapply ok_after_trans; [by apply keeps_grows|].
  apply (insert_pub_wp w1 x1 k o skip); [| | done | done | congruence | done].
  - intros. apply gtr_skip.
  - intros. by eapply gtr_peer_HandleMessage.
Qed.

(** The common part of a subscription: [other] answers a failure. *)
Lemma subscribe_wp w x p pr u r k podid fake j (other : MW unit) :
  heap_ok ∅ w → w_sess w !! s = Some x → w_locks w = L → w_peers w !! p = Some pr →
  (∀ w x, w_sess w !! s = Some x → gtr w L other L) →
  wp ('(sdp, acodec, vcodec) ← publisher_info s p;
      let key := u +:+ r +:+ k in
      _ ← drop_subscriber s key;
      peer ← CreateSubscribePeer s u r k podid sdp acodec vcodec fake;
      match peer with
      | None => other
      | Some peer =>
          x ← get_sess s;
          _ ← peer_SetSendMessageHandler peer (s_onSendMessageHandler x);
          _ ← Lock (LSubs s);
          _ ← put_sub s key peer;
          _ ← Unlock (LSubs s);
          peer_HandleMessage peer j
      end) (ok_after w L) safe_exit w.
Proof.
  intros Hok Hx HL Hp Hother.
  eapply (ntr_then w L L); [by eapply ntr_publisher_info | done | done |].
  intros [[sdp ac] vc] w1 Hok1 K1 L1. eapply ok_after_trans; [by apply keeps_grows|].
  destruct (keeps_sess _ _ _ _ K1 Hx) as (x1 & Hx1 & _). cbv zeta.
  eapply gtr_then; [eapply gtr_run; [by eapply gtr_drop_subscriber|done|done]|]. intros _.
  apply gtr_at. intros w2 Hok2 G2 L2. destruct (gr_s _ _ G2 _ _ Hx1) as (x2 & Hx2 & _).
  apply wp_bind. eapply wp_mono; [by eapply (CreateSubscribePeer_wp ∅ w2) | | done].
  intros o w3 (Hok3 & K3 & L3 & Ho). destruct (keeps_sess _ _ _ _ K3 Hx2) as (x3 & Hx3 & _).
  eapply ok_after_trans; [by apply keeps_grows|].
  apply (insert_sub_wp w3 x3 (u +:+ r +:+ k) o other); [done | | done | done | congruence | done].
  intros. by eapply gtr_peer_HandleMessage.
Qed.

Lemma gtr_session_sub j c u r k : gtr w0 L (session_sub s j c u r k) L.
Proof.
  unfold session_sub. apply gtr_at. intros w Hok G HL.
  destruct (still_sess _ _ _ Hs0 _ G) as (x & Hx & _). eapply wp_sess_pubs; [done|].
  destruct (s_publishers x !! k) as [p|] eqn:Hk.
  - destruct (ho_pub _ Hok _ _ _ _ Hx Hk) as (pr & Hpr & _).
    eapply subscribe_wp; [done..|]. intros w1 x1 Hx1. apply gtr_ntr. intros w2 Hok2 G2.
    destruct (gr_s _ _ G2 _ _ Hx1) as (x2 & Hx2 & _). eauto with ntr.
  - eapply gtr_run; [apply gtr_ntr|done|done]. intros w2 Hok2 G2.
    destruct (gr_s _ _ G2 _ _ Hx) as (x2 & Hx2 & _). eauto with ntr.
Qed.

Lemma gtr_session_fakesubscribe j r k : gtr w0 L (session_fakesubscribe s j r k) L.
Proof.
  unfold session_fakesubscribe. apply gtr_at. intros w Hok G HL.
  destruct (still_sess _ _ _ Hs0 _ G) as (x & Hx & _). eapply wp_sess_pubs; [done|].
  destruct (s_publishers x !! k) as [p|] eqn:Hk; [|by apply wp_ret].
  destruct (ho_pub _ Hok _ _ _ _ Hx Hk) as (pr & Hpr & _).
  eapply subscribe_wp; [done..|]. intros. apply gtr_skip.
Qed.
End publish.

(** ** Messages *)

Section messages.
Context `{GoRuntime, WebRTC, Amqp}.
Context (w0 : world) (L : gmap lockid lockstate) (s : nat) (x0 : session).
Context (Hs0 : w_sess w0 !! s = Some x0).
Context (HLp : L !! LPubs s = None) (HLs : L !! LSubs s = None).

(** A neutral operation of the session. *)
Lemma gtr_sess_ntr {A} (m : MW A) L' :
  (∀ w x, heap_ok ∅ w → w_sess w !! s = Some x → ntr ∅ w L m L') → gtr w0 L m L'.
Proof.
  intros Hm. apply gtr_ntr. intros w Hok G. destruct (still_sess _ _ _ Hs0 _ G) as (x & Hx & _).
  by eapply Hm.
Qed.

(** Every command but StopPush and FakePublish, which are below. *)
Lemma gtr_session_HandleMessage j :
  GetValue j LabelCmd ≠ CmdStopPush → GetValue j LabelCmd ≠ CmdFakePublish →
  gtr w0 L (session_HandleMessage s j) L.
Proof.
  intros Hsp Hfp. unfold session_HandleMessage.
  destruct (decide (_ = CmdHeartbeat)).
  { apply gtr_sess_ntr. intros. ntr_auto. }
  destruct (decide (_ = CmdPush)); [by eapply gtr_session_push|].
  destruct (decide (_ = CmdStopPush)); [done|].
  destruct (decide (_ = CmdSub)); [by eapply gtr_session_sub|].
  destruct (decide (_ = CmdStopSub)).
  { apply gtr_sess_ntr. intros. by eapply ntr_session_stopsub. }
  destruct (decide (_ = CmdOffer)).
  { apply gtr_sess_ntr. intros. by eapply ntr_session_offer. }
  destruct (decide (_ = CmdAnswer)).
  { apply gtr_sess_ntr. intros. by eapply ntr_session_answer. }
  destruct (decide (_ = CmdCandidate)); [apply gtr_skip|].
  destruct (decide (_ = CmdRoomCreated)).
  { apply gtr_sess_ntr. intros. by eapply ntr_session_roomcreated. }
  destruct (decide (_ = CmdFakePublish)); [done|].
  destruct (decide (_ = CmdFakeSubscribe)); [by eapply gtr_session_fakesubscribe|].
  destruct (decide (_ = CmdFakeOffer)); [by eapply gtr_session_fakeoffer|].
  destruct (decide (_ = CmdFakeAnswer)).
  { apply gtr_sess_ntr. intros. by eapply ntr_session_fakeanswer. }
  destruct (decide (_ = CmdFakeCandidate)); [|apply gtr_skip].
  apply gtr_sess_ntr. intros. by eapply ntr_session_fakecandidate.
Qed.
End messages.

(** FakePublish reaches a session only when it has just been made. *)
Lemma session_fakepublish_wp `{GoRuntime, WebRTC, Amqp} w s x j :
  GetValue j LabelCmd = CmdFakePublish →
  heap_ok ∅ w → w_sess w !! s = Some x → s_watchers x = [] →
  wp (session_HandleMessage s j) (ok_after w (w_locks w)) safe_exit w.
Proof.
  intros Hc Hok Hs Hw. unfold session_HandleMessage. rewrite Hc. simpl.
  eapply wp_mono; [by apply (FakeSubscribe_wp ∅ w s x) | | done].
  intros _ w' (? & ? & ?). split_and!; [done | by apply keeps_grows | done].
Qed.

(** StopPush of an existing publisher never returns: the mutex taken by Lock
    is released by RUnlock, a fatal error. *)
Lemma session_stoppush_wp `{GoRuntime, WebRTC, Amqp} w s x u k :
  heap_ok ∅ w → w_sess w !! s = Some x → w_locks w !! LPubs s = None →
  wp (session_stoppush s u k)
    (λ _ w', s_publishers x !! k = None ∧ w' = w)
    (λ r _, is_Some (s_publishers x !! k) ∧ (safe_stop r ∨ r = PMutex (LPubs s))) w.
Proof.
  intros Hok Hs HL. unfold session_stoppush. eapply wp_sess_pubs; [done|].
  destruct (s_publishers x !! k) as [p|] eqn:Hk; [|by apply wp_ret].
  set (E := λ r (_ : world), is_Some (Some p) ∧ (safe_stop r ∨ r = PMutex (LPubs s))).
  assert (∀ r w', safe_exit r w' → E r w') as HE by (intros r w' Hr; split; [done | by left]).
  apply wp_bind. eapply wp_mono; [by apply (@ntr_Lock ∅ w (w_locks w) (LPubs s)) | | done].
  intros _ w1 (Hok1 & K1 & L1). destruct (keeps_sess _ _ _ _ K1 Hs) as (x1 & Hx1 & [= _ _ P1 _]).
  apply wp_assoc3, wp_bind. eapply wp_mono;
    [apply notify_destroy_wp with (x := x1); [done | done | by rewrite P1] | | done].
  intros _ w2 (Hok2 & G2 & L2). rewrite L1 in L2.
  apply wp_bind. unfold RUnlock. apply wp_bind, wp_gets. rewrite L2, lookup_insert_eq.
  apply wp_halt. split; [done | by right].
Qed.
