(* ===== verification/RoomSafe.v ===== *)
(** * Rooms and the room manager keep the memory well formed *)

From S2P Require Import Prelude GoLib Json Constants KeyframeFilter MediaEngine World Rmq Peer Notify Session.
From S2P Require Import Room RoomMgr Invariant PeerSafe Links SessionSafe.

(** No mutex of a session is held. *)
Definition sess_free (L : gmap lockid lockstate) : Prop :=
  ∀ s, L !! LPubs s = None ∧ L !! LSubs s = None.

Lemma sess_free_empty : sess_free ∅.
Proof. intros s. by rewrite !lookup_empty. Qed.
Lemma sess_free_sessions L r v : sess_free L → sess_free (<[LSessions r := v]> L).
Proof. intros HL s. destruct (HL s). by rewrite !lookup_insert_ne by done. Qed.
Lemma sess_free_rooms L v : sess_free L → sess_free (<[LRooms := v]> L).
Proof. intros HL s. destruct (HL s). by rewrite !lookup_insert_ne by done. Qed.

(** ** Changing the map of a room *)

Lemma heap_upd_sessions w r x f :
  heap_ok ∅ w → w_rooms w !! r = Some x →
  (∀ k s, f (r_sessions x) !! k = Some s → r_sessions x !! k = Some s ∨
     ∃ y, w_sess w !! s = Some y ∧ s_userid y = k ∧ s_parent y = r) →
  heap_ok ∅ (set_w_rooms (alter (set_r_sessions f) r) w) ∧
  grows w (set_w_rooms (alter (set_r_sessions f) r) w).
Proof.
  intros Hok Hx Hf.
  assert (grows w (set_w_rooms (alter (set_r_sessions f) r) w)) as G.
  { split; simpl; try (by split); eauto. intros q y Hy. rewrite lookup_alter.
    destruct (decide (r = q)) as [->|]; [|by eauto]. rewrite Hy. simpl. eauto. }
  split; [|done]. destruct Hok as [Np Ns Nr Hp Hss Hpub Hsub Hr Hm Ht Hq].
  split; simpl; try done.
  - intros q. rewrite is_Some_alter. apply Nr.
  - intros s y Hy. by eapply grows_sess_ok, Hss.
  - intros q y k s H Hk. apply lookup_alter_inv in H as (z & Hz & ->).
    destruct (decide (r = q)) as [->|]; [|by eapply Hr].
    assert (z = x) as -> by congruence. destruct (Hf k s Hk); [by eapply Hr | done].
  - intros k q Hk. destruct (Hm _ _ Hk) as (y & Hy & E).
    destruct (gr_r _ _ G _ _ Hy) as (y' & Hy' & E'). exists y'. split; [done | congruence].
  - eapply Forall_impl; [exact Ht|]. intros t. by apply grows_task.
Qed.

Lemma heap_upd_mgr w g :
  heap_ok ∅ w →
  (∀ k r, m_rooms (g (w_mgr w)) !! k = Some r → m_rooms (w_mgr w) !! k = Some r ∨
     ∃ x, w_rooms w !! r = Some x ∧ r_roomid x = k) →
  heap_ok ∅ (set_w_mgr g w) ∧ grows w (set_w_mgr g w).
Proof.
  intros [Np Ns Nr Hp Hss Hpub Hsub Hr Hm Ht Hq] Hf. split.
  - split; simpl; try done. intros k r Hk. destruct (Hf _ _ Hk); [by apply Hm | done].
  - split; simpl; try split; eauto.
Qed.

(** ** New sessions and rooms *)

Lemma heap_alloc_sess w x :
  heap_ok ∅ w → sess_ok w x → s_publishers x = ∅ → s_subscribers x = ∅ →
  heap_ok ∅ (set_w_sess <[w_next w := x]> (set_w_next S w)) ∧
  grows w (set_w_sess <[w_next w := x]> (set_w_next S w)).
Proof.
  intros Hok Hx Ep Es. set (w' := set_w_sess _ _).
  assert (∀ s y, w_sess w !! s = Some y → w_sess w' !! s = Some y) as Hold.
  { intros s y Hs. subst w'. simpl. rewrite lookup_insert_ne; [done|].
    pose proof (ho_next_s _ Hok s (mk_is_Some _ _ Hs)). lia. }
  assert (grows w w') as G by (split; simpl; try split; eauto).
  split; [|done]. destruct Hok as [Np Ns Nr Hp Hs Hpub Hsub Hr Hm Ht Hq].
  split; simpl; try done.
  - intros p Hp'. pose proof (Np _ Hp'). lia.
  - intros s [y [[<- _]|[_ Hs']]%lookup_insert_Some]; [lia|].
    pose proof (Ns s (mk_is_Some _ _ Hs')). lia.
  - intros r Hr'. pose proof (Nr _ Hr'). lia.
  - intros p pr Hpr. by eapply grows_peer_ok, Hp.
  - intros s y [[_ <-]|[_ Hy]]%lookup_insert_Some; [done | by eapply Hs].
  - intros s y k p [[_ <-]|[_ Hy]]%lookup_insert_Some Hk; [|by eapply Hpub].
    by rewrite Ep in Hk.
  - intros s y k p [[_ <-]|[_ Hy]]%lookup_insert_Some Hk; [|by eapply Hsub].
    by rewrite Es in Hk.
  - intros r y k s Hy Hk. destruct (Hr _ _ _ _ Hy Hk) as (z & ? & ? & ?). eauto 6.
  - eapply Forall_impl; [exact Ht|]. intros t. by apply grows_task.
Qed.

Lemma heap_alloc_room w x :
  heap_ok ∅ w → r_sessions x = ∅ →
  heap_ok ∅ (set_w_rooms <[w_next w := x]> (set_w_next S w)) ∧
  grows w (set_w_rooms <[w_next w := x]> (set_w_next S w)).
Proof.
  intros Hok Ex. set (w' := set_w_rooms _ _).
  assert (∀ s y, w_rooms w !! s = Some y → w_rooms w' !! s = Some y) as Hold.
  { intros s y Hs. subst w'. simpl. rewrite lookup_insert_ne; [done|].
    pose proof (ho_next_r _ Hok s (mk_is_Some _ _ Hs)). lia. }
  assert (grows w w') as G by (split; simpl; try split; eauto).
  split; [|done]. destruct Hok as [Np Ns Nr Hp Hs Hpub Hsub Hr Hm Ht Hq].
  split; simpl; try done.
  - intros p Hp'. pose proof (Np _ Hp'). lia.
  - intros s Hs'. pose proof (Ns _ Hs'). lia.
  - intros r [y [[<- _]|[_ Hs']]%lookup_insert_Some]; [lia|].
    pose proof (Nr r (mk_is_Some _ _ Hs')). lia.
  - intros s y Hy. by eapply grows_sess_ok, Hs.
  - intros r y k s [[_ <-]|[_ Hy]]%lookup_insert_Some Hk; [|by eapply Hr].
    by rewrite Ex in Hk.
  - intros k r Hk. destruct (Hm _ _ Hk) as (z & ? & ?). eauto.
  - eapply Forall_impl; [exact Ht|]. intros t. by apply grows_task.
Qed.

Lemma CreateSession_wp w r y id name f :
  heap_ok ∅ w → w_rooms w !! r = Some y →
  wp (CreateSession r id name f)
    (λ s w', ok_after w (w_locks w) s w' ∧
       ∃ x, w_sess w' !! s = Some x ∧ s_userid x = id ∧ s_parent x = r ∧ s_watchers x = [])
    safe_exit w.
Proof.
  intros Hok Hr. unfold CreateSession, alloc_sess.
  apply wp_bind, wp_gets, wp_bind, wp_gets, wp_bind, wp_modify, wp_bind, wp_modify, wp_ret.
  match goal with |- context [<[_ := ?x]>] => destruct (heap_alloc_sess w x) as [Hok' G];
    [done | by split; [eexists|split; [simpl; lia|]] | done..|] end.
  split; [done|]. eexists. simpl. by rewrite lookup_insert_eq.
Qed.

(** SetFakeSession makes the session a fake one. *)
Lemma SetFakeSession_wp w s x c p :
  heap_ok ∅ w → w_sess w !! s = Some x →
  wp (SetFakeSession s c p)
    (λ _ w', ok_after w (w_locks w) tt w' ∧
       ∃ x', w_sess w' !! s = Some x' ∧ sident x' = sident x ∧ s_watchers x' = s_watchers x)
    safe_exit w.
Proof.
  intros Hok Hs. unfold SetFakeSession. apply wp_bind, wp_modify, wp_bind, wp_modify, wp_modify.
  set (g := λ y, set_s_podid (λ _, p) (set_s_clusterid (λ _, c) (set_s_origin (λ _, false) y))).
  match goal with |- (heap_ok _ ?w' ∧ _) ∧ _ =>
    assert (same_heap (set_w_sess (alter g s) w) w') as Hsame
      by (split; simpl; by rewrite ?alter_alter_eq) end.
  split; [split_and!|].
  - eapply same_heap_ok; [exact Hsame|]. apply heap_upd_sess; [done|]. intros y Hy.
    split; [done|]. intros (? & ? & _). by split_and!.
  - etrans; [|apply keeps_grows; by apply same_heap_keeps].
    apply keeps_grows. by apply keeps_upd_sess.
  - done.
  - simpl. rewrite !lookup_alter_eq, Hs. simpl. eexists; by split_and!.
Qed.

(** ** Rooms *)

Lemma room_sessions_run w r x : w_rooms w !! r = Some x → room_sessions r w = Ret (r_sessions x) w.
Proof. intros Hx. unfold room_sessions, get_room, mbind, M_bind, gets. by rewrite Hx. Qed.
Lemma wp_room_sessions {B} w r x (k : gmap string nat → MW B) Q E :
  w_rooms w !! r = Some x → wp (k (r_sessions x)) Q E w → wp (room_sessions r ≫= k) Q E w.
Proof. intros Hs Hk. apply wp_bind. unfold wp at 1. by rewrite (room_sessions_run _ _ _ Hs). Qed.

Section rooms.
Context `{GoRuntime, WebRTC, Amqp}.

Lemma gtr_DoLeave w0 L s x :
  sess_free L → w_sess w0 !! s = Some x → gtr w0 L (DoLeave s) L.
Proof.
  intros HL Hs. apply gtr_at. intros w Hok G E. destruct (gr_s _ _ G _ _ Hs) as (y & Hy & _).
  destruct (HL s) as [H1' H2']. subst L. eapply wp_mono; [by apply (DoLeave_wp w s y) | | done].
  intros b w' (? & ? & ? & _). done.
Qed.

Context (w0 : world) (L : gmap lockid lockstate) (r : nat) (x0 : room).
Context (Hr0 : w_rooms w0 !! r = Some x0) (HL : sess_free L).

Lemma still_room w : grows w0 w → ∃ x, w_rooms w !! r = Some x ∧ r_roomid x = r_roomid x0.
Proof. intros G. by apply (gr_r _ _ G). Qed.

(** Loops over the sessions of the room. *)
Lemma gtr_over_sessions L1 body :
  (∀ k s w x, heap_ok ∅ w → grows w0 w → w_sess w !! s = Some x → gtr w L1 (body k s) L1) →
  gtr w0 L1 (range_map (room_sessions r) body) L1.
Proof.
  intros Hb. apply gtr_range_map.
  - intros w _ G. destruct (still_room _ G) as (x & Hx & _). eexists. by apply room_sessions_run.
  - intros k s w m1 Hok G HL1 Hm Hk. destruct (still_room _ G) as (x & Hx & _).
    rewrite (room_sessions_run _ _ _ Hx) in Hm. injection Hm as <-.
    destruct (ho_room _ Hok _ _ _ _ Hx Hk) as (y & Hy & _). by eapply gtr_run; [by eapply Hb|..].
Qed.

(** The session of a user, if it is in the room. *)
Lemma gtr_room_sessions {B} L1 L2 (k : gmap string nat → MW B) :
  (∀ w x, heap_ok ∅ w → grows w0 w → w_locks w = L1 → w_rooms w !! r = Some x →
     wp (k (r_sessions x)) (ok_after w L2) safe_exit w) →
  gtr w0 L1 (room_sessions r ≫= k) L2.
Proof.
  intros Hk. apply gtr_at. intros w Hok G HL1. destruct (still_room _ G) as (x & Hx & _).
  eapply wp_room_sessions; [done|]. by eapply Hk.
Qed.

Lemma gtr_del_session L1 k : gtr w0 L1 (del_session r k) L1.
Proof.
  apply gtr_at. intros w Hok G HL1. destruct (still_room _ G) as (x & Hx & _). apply wp_modify.
  destruct (heap_upd_sessions w r x (delete k)) as [? ?]; [done | done | | done].
  intros k' s [_ Hk]%lookup_delete_Some. by left.
Qed.

Lemma gtr_room_notify {A} (m : MW A) L1 :
  (∀ w x, heap_ok ∅ w → w_rooms w !! r = Some x → ntr ∅ w L1 m L1) → gtr w0 L1 m L1.
Proof.
  intros Hm. apply gtr_ntr. intros w Hok G. destruct (still_room _ G) as (x & Hx & _).
  by eapply Hm.
Qed.

Lemma gtr_spawn_sess L1 t : task_ok w0 t → gtr w0 L1 (spawn t) L1.
Proof. intros Ht. apply gtr_ntr. intros w Hok G. apply ntr_spawn. by eapply grows_task. Qed.
End rooms.

Section room_ops.
Context `{GoRuntime, WebRTC, Amqp}.
Context (w0 : world) (L : gmap lockid lockstate) (r : nat) (x0 : room).
Context (Hr0 : w_rooms w0 !! r = Some x0).
Context (HL : sess_free L) (HLr : L !! LSessions r = None).

Local Hint Resolve sess_free_sessions : core.

Lemma gtr_DestroyRoom : gtr w0 L (DestroyRoom r) L.
Proof.
  unfold DestroyRoom. eapply gtr_bind; [by apply gtr_Lock|]. intros _.
  eapply gtr_bind.
  { eapply gtr_over_sessions; [done|]. intros k s w x Hok G Hs.
    eapply gtr_bind; [by eapply gtr_DoLeave; eauto|]. intros _. apply gtr_skip. }
  intros _. eapply gtr_bind; [|intros _; by apply gtr_Unlock].
  apply gtr_at. intros w Hok G HL1. destruct (still_room _ _ _ Hr0 _ G) as (x & Hx & _).
  apply wp_modify. destruct (heap_upd_sessions w r x (λ _, ∅)) as [? ?]; [done | done | | done].
  intros k s Hk. by rewrite lookup_empty in Hk.
Qed.

Lemma gtr_hasOriginSession : gtr w0 L (hasOriginSession r) L.
Proof.
  eapply gtr_room_notify; [done|]. intros w x Hok Hx. unfold hasOriginSession. ntr_auto.
  destruct (ho_room _ Hok _ _ _ _ Hx ltac:(eassumption)) as (y & Hy & _). ntr_auto.
Qed.

Lemma gtr_KickoutFromRoom sid : gtr w0 L (KickoutFromRoom r sid) L.
Proof.
  unfold KickoutFromRoom. eapply gtr_bind; [by apply gtr_Lock|]. intros _.
  eapply gtr_room_sessions; [done|]. intros w x Hok G HL1 Hx.
  eapply (gtr_then w (<[LSessions r := LWrite]> L)).
  { destruct (r_sessions x !! sid) as [s|] eqn:Hk; [|by apply wp_ret].
    destruct (ho_room _ Hok _ _ _ _ Hx Hk) as (y & Hy & _).
    eapply gtr_run; [|done|done]. eapply gtr_bind; [by eapply gtr_DoLeave; eauto|]. intros o.
    eapply gtr_get_sess; [done|]. intros y' _.
    eapply gtr_bind; [by eapply gtr_del_session|]. intros _. destruct o; [|apply gtr_skip].
    eapply gtr_room_notify; [done|]. intros. eauto with ntr. }
  intros _. eapply gtr_bind; [by apply gtr_Unlock|]. intros _.
  eapply gtr_bind; [by apply gtr_RLock|]. intros _.
  eapply gtr_bind.
  { eapply gtr_over_sessions; [done|]. intros k s w1 y Hok1 G1 Hs.
    apply gtr_spawn_sess. simpl. eauto. }
  intros _. eapply gtr_bind; [by apply gtr_RUnlock|]. intros _.
  eapply gtr_bind.
  { eapply gtr_room_notify; [done|]. intros w1 x1 Hok1 Hx1. unfold hasOriginSession. ntr_auto.
    destruct (ho_room _ Hok1 _ _ _ _ Hx1 ltac:(eassumption)) as (y & Hy & _). ntr_auto. }
  intros o. destruct o; simpl; [apply gtr_skip|].
  eapply gtr_get_room; [done|]. intros x' _. by apply gtr_spawn_sess.
Qed.

Lemma ntr_OnPublisherReady w x sid name pid :
  heap_ok ∅ w → w_rooms w !! r = Some x → ntr ∅ w L (OnPublisherReady r sid name pid) L.
Proof.
  intros Hok Hx. unfold OnPublisherReady. eapply ntr_range_map; [by eauto with ntr|].
  intros k s Hk. destruct (ho_room _ Hok _ _ _ _ Hx Hk) as (y & Hy & _). ntr_auto.
Qed.

(** The four releases a failed or closed connection starts. *)
Lemma gtr_release_pub u sid pid :
  gtr w0 L (sessions ← room_sessions r;
            match sessions !! u with
            | Some sess => ReleasePublisher sess sid pid
            | None => skip
            end) L.
Proof.
  eapply gtr_room_sessions; [done|]. intros w x Hok G HL1 Hx.
  destruct (r_sessions x !! u) as [s|] eqn:Hk; [|by apply wp_ret].
  destruct (ho_room _ Hok _ _ _ _ Hx Hk) as (y & Hy & _). destruct (HL s).
  eapply gtr_run; [|done|done]. by eapply gtr_ReleasePublisher.
Qed.
Lemma gtr_release_sub u sid ssid pid :
  gtr w0 L (sessions ← room_sessions r;
            match sessions !! u with
            | Some sess => ReleaseSubscriberPeer sess sid ssid pid
            | None => skip
            end) L.
Proof.
  eapply gtr_room_sessions; [done|]. intros w x Hok G HL1 Hx.
  destruct (r_sessions x !! u) as [s|] eqn:Hk; [|by apply wp_ret].
  destruct (ho_room _ Hok _ _ _ _ Hx Hk) as (y & Hy & _). destruct (HL s).
  eapply gtr_run; [|done|done]. by eapply gtr_ReleaseSubscriberPeer.
Qed.

Lemma ntr_OnCheckKeepalive w x :
  heap_ok ∅ w → w_rooms w !! r = Some x → ntr ∅ w L (OnCheckKeepalive r) L.
Proof.
  intros Hok Hx. unfold OnCheckKeepalive. ntr_auto.
  destruct (ho_room _ Hok _ _ _ _ Hx ltac:(eassumption)) as (y & Hy & _). ntr_auto.
Qed.

Lemma ntr_room_OnReceivedAppData w x sid pid b n :
  heap_ok ∅ w → w_rooms w !! r = Some x →
  ntr ∅ w L (room_OnReceivedAppData r sid pid b n) L.
Proof.
  intros Hok Hx. unfold room_OnReceivedAppData. ntr_auto.
  destruct (ho_room _ Hok _ _ _ _ Hx ltac:(eassumption)) as (y & Hy & _).
  eapply ntr_BroadcastAppData; [done | done | |]; apply sess_free_sessions; done.
Qed.

Lemma gtr_leave_previous u : gtr w0 L (leave_previous r u) L.
Proof.
  eapply gtr_room_sessions; [done|]. intros w x Hok G HL1 Hx.
  destruct (r_sessions x !! u) as [s|] eqn:Hk; [|by apply wp_ret].
  destruct (ho_room _ Hok _ _ _ _ Hx Hk) as (y & Hy & _).
  eapply gtr_run; [|done|done]. eapply gtr_bind; [by apply gtr_Lock|]. intros _.
  eapply gtr_bind; [by eapply gtr_DoLeave; eauto|]. intros _.
  eapply gtr_bind; [by eapply gtr_del_session|]. intros _. by apply gtr_Unlock.
Qed.

(** A new session is put in the map of the room. *)
Lemma put_session_wp w x s y k :
  heap_ok ∅ w → w_rooms w !! r = Some x → w_locks w = L →
  w_sess w !! s = Some y → s_userid y = k → s_parent y = r →
  wp (_ ← Lock (LSessions r); _ ← put_session r k s; Unlock (LSessions r))
    (λ _ w', ok_after w L tt w' ∧ w_sess w' = w_sess w) safe_exit w.
Proof.
  intros Hok Hx HL1 Hy Hk Hp. apply wp_bind.
  unfold Lock, Unlock, put_session. apply wp_bind, wp_gets. rewrite HL1, HLr. apply wp_modify.
  set (w1 := set_w_locks _ w).
  assert (heap_ok ∅ w1) as Hok1 by by eapply same_heap_ok, Hok.
  destruct (heap_upd_sessions w1 r x <[k := s]>) as [Hok2 G2]; [done | done | |].
  { intros k' s' [[<- <-]|[_ Hk']]%lookup_insert_Some; [right|by left]. by exists y. }
  apply wp_bind, wp_modify, wp_bind, wp_gets. simpl. rewrite HL1, lookup_insert_eq.
  apply wp_modify. split; [|done]. split_and!.
  - eapply same_heap_ok, Hok2. by split.
  - etrans; [apply keeps_grows, same_heap_keeps; by instantiate (1 := w1)|].
    etrans; [exact G2|]. by apply keeps_grows, same_heap_keeps.
  - simpl. rewrite HL1. by apply delete_insert_id.
Qed.
End room_ops.

Section room_messages.
Context `{GoRuntime, WebRTC, Amqp}.
Context (w0 : world) (L : gmap lockid lockstate) (r : nat) (x0 : room).
Context (Hr0 : w_rooms w0 !! r = Some x0).
Context (HL : sess_free L) (HLr : L !! LSessions r = None).

Local Hint Resolve sess_free_sessions : core.

Lemma gtr_room_login j u : gtr w0 L (room_login r j u) L.
Proof.
  unfold room_login. eapply gtr_bind; [by eapply gtr_leave_previous|]. intros _.
  eapply gtr_get_room; [done|]. intros x _. apply gtr_at. intros w Hok G HL1.
  destruct (still_room _ _ _ Hr0 _ G) as (x1 & Hx1 & _). apply wp_bind.
  eapply wp_mono; [by eapply CreateSession_wp | | done].
  intros s w1 ((Hok1 & G1 & L1) & y & Hy & Eu & Ep & _).
  destruct (gr_r _ _ G1 _ _ Hx1) as (x2 & Hx2 & _).
  eapply ok_after_trans; [exact G1|]. apply wp_assoc3. eapply gtr_then.
  { eapply wp_mono; [eapply (put_session_wp L r); try done; congruence | | done].
    intros _ w2 [? _]. done. }
  intros _. eapply gtr_bind; [apply gtr_ntr; intros; eauto with ntr|]. intros _.
  eapply gtr_over_sessions; [done|]. intros k s' w2 y' Hok2 G2 Hs2. destruct (HL s').
  eapply gtr_bind; [eapply gtr_sess_ntr; [done|]; intros; by eapply ntr_hasPublisher|].
  intros [[]|]; [|apply gtr_skip]. eapply gtr_sess_ntr; [done|]. intros. ntr_auto.
Qed.

Lemma gtr_forward_or u j other :
  GetValue j LabelCmd ≠ CmdStopPush → GetValue j LabelCmd ≠ CmdFakePublish →
  (∀ w x, heap_ok ∅ w → w_rooms w !! r = Some x → ntr ∅ w L other L) →
  gtr w0 L (forward_or r u j other) L.
Proof.
  intros Hsp Hfp Hother. eapply gtr_room_sessions; [done|]. intros w x Hok G HL1 Hx.
  eapply gtr_run; [|done|done]. destruct (r_sessions x !! u) as [s|] eqn:Hk.
  - destruct (ho_room _ Hok _ _ _ _ Hx Hk) as (y & Hy & _). destruct (HL s).
    by eapply gtr_session_HandleMessage.
  - eapply gtr_room_notify; [exact Hx | done].
Qed.

Lemma gtr_room_roomcreated j :
  GetValue j LabelCmd = CmdRoomCreated → gtr w0 L (room_roomcreated r j) L.
Proof.
  intros Hc. unfold room_roomcreated. eapply gtr_over_sessions; [done|].
  intros k s w y Hok G Hs. destruct (HL s).
  eapply gtr_bind; [eapply gtr_sess_ntr; [done|]; intros; by eapply ntr_HasOriginPublisher|].
  intros [[]|]; [|apply gtr_skip]. eapply gtr_get_sess; [done|]. intros y' _.
  destruct (decide _); [|apply gtr_skip].
  eapply gtr_session_HandleMessage; [done | done | done | |]; rewrite Hc; done.
Qed.

Lemma gtr_room_fakepublish j u :
  GetValue j LabelCmd = CmdFakePublish → gtr w0 L (room_fakepublish r j u) L.
Proof.
  intros Hc. unfold room_fakepublish. eapply gtr_bind; [by eapply gtr_leave_previous|]. intros _.
  eapply gtr_bind; [by eapply gtr_hasOriginSession|]. intros o. destruct o; simpl; cycle 1.
  { eapply gtr_get_room; [done|]. intros. by apply gtr_spawn_sess. }
  eapply gtr_get_room; [done|]. intros x _. apply gtr_at. intros w Hok G HL1.
  destruct (still_room _ _ _ Hr0 _ G) as (x1 & Hx1 & _). apply wp_bind.
  eapply wp_mono; [by eapply CreateSession_wp | | done].
  intros s w1 ((Hok1 & G1 & L1) & y & Hy & Eu & Ep & Ew).
  destruct (gr_r _ _ G1 _ _ Hx1) as (x2 & Hx2 & _).
  eapply ok_after_trans; [exact G1|]. apply wp_bind.
  eapply wp_mono; [by eapply SetFakeSession_wp | | done].
  intros _ w2 ((Hok2 & G2 & L2) & y2 & Hy2 & [= Eu2 Ep2] & Ew2).
  destruct (gr_r _ _ G2 _ _ Hx2) as (x3 & Hx3 & _).
  eapply ok_after_trans; [exact G2|]. apply wp_assoc3, wp_bind.
  eapply wp_mono; [eapply (put_session_wp L r); try done; congruence | | done].
  intros _ w3 [(Hok3 & G3 & L3) E3]. eapply ok_after_trans; [exact G3|]. rewrite <- L3.
  eapply session_fakepublish_wp; [done | done | by rewrite E3 | congruence].
Qed.

Lemma gtr_room_fakeunpublish j u : gtr w0 L (room_fakeunpublish r j u) L.
Proof.
  unfold room_fakeunpublish. eapply gtr_bind; [by apply gtr_Lock|]. intros _.
  eapply gtr_room_sessions; [done|]. intros w x Hok G HL1 Hx.
  eapply (gtr_then w (<[LSessions r := LWrite]> L)); [|intros _; by apply gtr_Unlock].
  destruct (r_sessions x !! u) as [s|] eqn:Hk; [|by apply wp_ret].
  destruct (ho_room _ Hok _ _ _ _ Hx Hk) as (y & Hy & _).
  eapply gtr_run; [|done|done]. eapply gtr_get_sess; [done|]. intros y' _.
  destruct (decide _); [|apply gtr_skip].
  eapply gtr_bind; [by eapply gtr_DoLeave; eauto|]. intros _. by eapply gtr_del_session.
Qed.

Lemma gtr_room_HandleMessage j :
  GetValue j LabelCmd ≠ CmdStopPush → gtr w0 L (room_HandleMessage r j) L.
Proof.
  intros Hsp. unfold room_HandleMessage. cbv zeta.
  destruct (decide (_ = CmdLogin)) as [Ec|_]; [apply gtr_room_login|].
  destruct (decide (_ = CmdHeartbeat)) as [Ec|_].
  { apply gtr_forward_or; [done | by rewrite Ec | eauto with ntr]. }
  destruct (decide (_ = CmdLogout)) as [Ec|_]; [by eapply gtr_KickoutFromRoom|].
  destruct (decide (_ ∨ _)) as [Ec|_].
  { apply gtr_forward_or; [done | intros E; rewrite E in Ec; by destruct Ec as [?|[?|?]] | eauto with ntr]. }
  destruct (decide (_ ∨ _)) as [Ec|_].
  { apply gtr_forward_or; [done | intros E; rewrite E in Ec; by destruct Ec as [?|[?|?]] | eauto with ntr]. }
  destruct (decide (_ = CmdCandidate)) as [Ec|_].
  { apply gtr_forward_or; [done | by rewrite Ec | eauto with ntr]. }
  destruct (decide (_ = CmdRoomCreated)) as [Ec|_]; [by apply gtr_room_roomcreated|].
  destruct (decide (_ = CmdFakePublish)) as [Ec|Nfp]; [by apply gtr_room_fakepublish|].
  destruct (decide (_ = CmdFakeUnpublish)) as [Ec|_]; [apply gtr_room_fakeunpublish|].
  destruct (decide (_ = CmdFakeSubscribe)) as [Ec|_].
  { apply gtr_forward_or; [done | done | eauto with ntr]. }
  destruct (decide (_ ∨ _)) as [Ec|_]; [|apply gtr_skip].
  apply gtr_forward_or; [done | done | eauto with ntr].
Qed.
End room_messages.
