(* ===== verification/RoomMgrSafe.v ===== *)
(** * The room manager and the callbacks keep the memory well formed *)

From S2P Require Import Prelude GoLib Json Constants KeyframeFilter World Rmq Peer Notify Session.
From S2P Require Import Room RoomMgr Callbacks Invariant PeerSafe Links SessionSafe RoomSafe.

(** ** The room manager *)

Lemma ntr_upd_mgr X w0 L g :
  (∀ m, m_rooms (g m) = m_rooms m) → ntr X w0 L (upd_mgr g) L.
Proof. intros Hg. apply ntr_other. intros w. split; [|done]. split; simpl; try done. Qed.
#[export] Hint Extern 1 (ntr _ _ _ (upd_mgr _) _) => apply ntr_upd_mgr; reflexivity : ntr.

Lemma ntr_set_conf X w0 L g : ntr X w0 L (modify (set_w_conf g)) L.
Proof. apply ntr_other. intros w. by repeat split. Qed.
#[export] Hint Resolve ntr_set_conf : ntr.

Lemma ntr_GetIntValue X w0 L j k : ntr X w0 L (GetIntValue j k) L.
Proof. unfold GetIntValue. ntr_auto. Qed.
#[export] Hint Resolve ntr_GetIntValue : ntr.

Lemma ntr_send_stopRegist X w0 L : ntr X w0 L send_stopRegist L.
Proof. unfold send_stopRegist. ntr_auto. Qed.
#[export] Hint Resolve ntr_send_stopRegist : ntr.
Lemma ntr_handle_pod_regist X w0 L m : ntr X w0 L (handle_pod_regist m) L.
Proof. unfold handle_pod_regist. ntr_auto. Qed.
Lemma ntr_go_StartRegistToLB X w0 L : ntr X w0 L go_StartRegistToLB L.
Proof. unfold go_StartRegistToLB. ntr_auto. Qed.
#[export] Hint Resolve ntr_handle_pod_regist ntr_go_StartRegistToLB : ntr.
Lemma ntr_handle_regist_now X w0 L : ntr X w0 L handle_regist_now L.
Proof. unfold handle_regist_now. ntr_auto. Qed.
Lemma ntr_StartRegistToLB_tick X w0 L : ntr X w0 L StartRegistToLB_tick L.
Proof. unfold StartRegistToLB_tick. ntr_auto. Qed.
#[export] Hint Resolve ntr_handle_regist_now ntr_StartRegistToLB_tick : ntr.
Lemma ntr_roommgr_SetSendMessageHandler X w0 L : ntr X w0 L roommgr_SetSendMessageHandler L.
Proof. unfold roommgr_SetSendMessageHandler. ntr_auto. Qed.

Lemma reads_mgr_rooms w0 : reads w0 mgr_rooms (m_rooms (w_mgr w0)).
Proof. intros w K. unfold mgr_rooms, gets. by rewrite (ke_m _ _ K). Qed.
#[export] Hint Resolve reads_mgr_rooms : ntr.

Section roommgr.
Context `{GoRuntime, WebRTC, Amqp}.

(** A manager's message from a world where no mutex is held. *)
Lemma gtr_mgr_rooms {B} w0 L L' (k : gmap string nat → MW B) :
  (∀ w, heap_ok ∅ w → grows w0 w → gtr w L (k (m_rooms (w_mgr w))) L') →
  gtr w0 L (mgr_rooms ≫= k) L'.
Proof.
  intros Hk. apply gtr_at. intros w Hok G HL. apply wp_bind, wp_gets.
  by eapply gtr_run; [by apply Hk|..].
Qed.

Lemma gtr_from_some {A B} w0 L L' r (o : option A) (k : A → MW B) :
  safe_stop r → (∀ a, o = Some a → gtr w0 L (k a) L') → gtr w0 L (from_some r o ≫= k) L'.
Proof.
  intros Hr Hk w Hok G HL. apply wp_bind, wp_from_some; [|done]. intros a Ha. by apply Hk.
Qed.

Lemma gtr_ReleaseRoom w0 rid : gtr w0 ∅ (ReleaseRoom rid) ∅.
Proof.
  unfold ReleaseRoom. eapply gtr_bind; [by apply gtr_Lock|]. intros _.
  apply gtr_mgr_rooms. intros w Hok G.
  eapply gtr_bind; [|intros _; by apply gtr_Unlock].
  destruct (m_rooms (w_mgr w) !! rid) as [r|] eqn:Hk; [|apply gtr_skip].
  destruct (ho_mgr _ Hok _ _ Hk) as (x & Hx & _).
  eapply gtr_bind; [eapply gtr_DestroyRoom; [done | apply sess_free_rooms, sess_free_empty | lock_free]|].
  intros _. apply gtr_at. intros w1 Hok1 G1 L1. apply wp_modify.
  destruct (heap_upd_mgr w1 (set_m_rooms (delete rid))) as [? ?]; [done | | done].
  simpl. intros k q [_ Hq]%lookup_delete_Some. by left.
Qed.

Lemma gtr_create_room_for w0 m rid : gtr w0 ∅ (create_room_for m rid) ∅.
Proof.
  unfold create_room_for, CreateRoom, alloc_room. apply gtr_at. intros w Hok G L1.
  apply wp_bind, wp_bind, wp_gets, wp_bind, wp_modify, wp_bind, wp_modify, wp_ret.
  set (x := {| r_roomid := rid; r_sessions := ∅; r_onSendMessageHandler := false |}).
  destruct (heap_alloc_room w x) as [Hok1 G1]; [done | done |].
  set (w1 := set_w_rooms <[w_next w := x]> (set_w_next S w)) in *.
  eapply ok_after_trans; [exact G1|].
  assert (w_rooms w1 !! w_next w = Some x) as Hx by (simpl; by rewrite lookup_insert_eq).
  eapply gtr_run; [|exact Hok1 | done]. eapply gtr_bind; [apply gtr_ntr; intros; ntr_auto|].
  intros mgr. eapply gtr_bind.
  { apply gtr_ntr. intros w2 Hok2 G2. apply ntr_modify. intros w3 Hok3 K3.
    split; [by apply heap_upd_room|]. split; [by apply keeps_upd_room | done]. }
  intros _. eapply gtr_bind; [by apply gtr_Lock|]. intros _.
  eapply gtr_bind.
  { apply gtr_at. intros w2 Hok2 G2 L2. destruct (gr_r _ _ G2 _ _ Hx) as (x2 & Hx2 & E2).
    apply wp_modify. destruct (heap_upd_mgr w2 (set_m_rooms <[rid := w_next w]>)) as [? ?];
      [done | | done].
    simpl. intros k q [[<- <-]|[_ Hq]]%lookup_insert_Some; [right; by eauto | by left]. }
  intros _. eapply gtr_bind; [by apply gtr_Unlock|]. intros _.
  apply gtr_ntr. intros. ntr_auto.
Qed.

Lemma gtr_roommgr_login w0 m rid :
  GetValue m LabelCmd ≠ CmdStopPush → gtr w0 ∅ (roommgr_login m rid) ∅.
Proof.
  intros Hsp. unfold roommgr_login. apply gtr_mgr_rooms. intros w1 Hok1 G1.
  eapply gtr_bind.
  { destruct (_ !! rid); [apply gtr_skip | apply gtr_create_room_for]. }
  intros _. eapply gtr_bind; [by apply gtr_RLock|]. intros _.
  apply gtr_mgr_rooms. intros w2 Hok2 G2.
  eapply gtr_bind; [by apply gtr_RUnlock|]. intros _.
  apply gtr_from_some; [done|]. intros r Hk.
  destruct (ho_mgr _ Hok2 _ _ Hk) as (x & Hx & _).
  eapply gtr_room_HandleMessage; [done | apply sess_free_empty | lock_free | done].
Qed.

Lemma gtr_to_room w0 m rid other :
  GetValue m LabelCmd ≠ CmdStopPush → (∀ w, gtr w ∅ other ∅) → gtr w0 ∅ (to_room m rid other) ∅.
Proof.
  intros Hsp Hother. unfold to_room. apply gtr_mgr_rooms. intros w Hok G.
  destruct (_ !! rid) as [r|] eqn:Hk; [|done]. destruct (ho_mgr _ Hok _ _ Hk) as (x & Hx & _).
  eapply gtr_room_HandleMessage; [done | apply sess_free_empty | lock_free | done].
Qed.

Lemma gtr_handle_fields w0 m :
  GetValue m LabelCmd ≠ CmdStopPush → gtr w0 ∅ (handle_fields m) ∅.
Proof.
  intros Hsp. unfold handle_fields. cbv zeta.
  eapply gtr_bind; [apply gtr_ntr; intros; apply ntr_gets|]. intros mgr.
  destruct (negb _).
  { apply gtr_ntr. intros. pose proof ntr_notifyServiceNotAvailable. ntr_auto. }
  destruct (decide (_ = CmdLogin)); [by apply gtr_roommgr_login|].
  destruct (client_command _).
  { apply gtr_to_room; [done|]. intros. apply gtr_ntr. intros. eauto with ntr. }
  destruct (decide (_ = CmdPodRegist)); [apply gtr_ntr; intros; eauto with ntr|].
  destruct (decide (_ = CmdPodRegistNow)); [apply gtr_ntr; intros; eauto with ntr|].
  destruct (decide (_ ∨ _)).
  { eapply gtr_bind; [apply gtr_ntr; intros; apply ntr_gets|]. intros c.
    destruct (decide _); [|apply gtr_skip]. apply gtr_to_room; [done|]. intros. apply gtr_skip. }
  destruct (decide (_ ∨ _)); [|apply gtr_skip]. apply gtr_to_room; [done|]. intros. apply gtr_skip.
Qed.

(** StopPush: the only message whose handling can end in the fatal error of a
    mutex. *)
Lemma handle_fields_stoppush w m :
  GetValue m LabelCmd = CmdStopPush → heap_ok ∅ w → w_locks w = ∅ →
  wp (handle_fields m) (ok_after w ∅)
    (λ r _, safe_stop r ∨ ∃ s, r = PMutex (LPubs s)) w.
Proof.
  intros Hc Hok HL.
  assert (∀ m' : MW unit, ntr ∅ w ∅ m' ∅ →
    wp m' (ok_after w ∅) (λ r _, safe_stop r ∨ ∃ s, r = PMutex (LPubs s)) w) as Hn.
  { intros m' Hm'. eapply wp_mono; [by apply Hm' | |].
    - intros _ w' (? & ? & ?). split_and!; [done | by apply keeps_grows | done].
    - intros r w' Hr. by left. }
  unfold handle_fields. rewrite Hc. cbv zeta. apply wp_bind, wp_gets.
  destruct (negb _); [apply Hn; ntr_auto|]. simpl.
  unfold to_room. apply wp_bind, wp_gets.
  destruct (_ !! GetValue m LabelRoomId) as [r|] eqn:Hk; [|apply Hn; eauto with ntr].
  destruct (ho_mgr _ Hok _ _ Hk) as (x & Hx & _).
  unfold room_HandleMessage. rewrite Hc. cbv zeta. simpl. unfold forward_or.
  eapply wp_room_sessions; [done|].
  destruct (r_sessions x !! GetValue m LabelSessID) as [s|] eqn:Hs; [|apply Hn; eauto with ntr].
  destruct (ho_room _ Hok _ _ _ _ Hx Hs) as (y & Hy & _).
  unfold session_HandleMessage. rewrite Hc. cbv zeta. simpl.
  eapply wp_mono; [eapply session_stoppush_wp; [done | done | by rewrite HL] | |].
  - intros _ w' [_ ->]. by split_and!.
  - intros q w' [_ [?| ->]]; [by left | right; by eexists].
Qed.

Lemma gtr_over_rooms w0 L body :
  (∀ k r w x, heap_ok ∅ w → w_rooms w !! r = Some x → gtr w L (body k r) L) →
  gtr w0 L (range_map mgr_rooms body) L.
Proof.
  intros Hb. apply gtr_range_map; [by eexists|]. intros k r w m1 Hok G HL [= <-] Hk.
  destruct (ho_mgr _ Hok _ _ Hk) as (x & Hx & _). by eapply gtr_run; [by eapply Hb|..].
Qed.

Lemma gtr_keepalive_tick w0 : gtr w0 ∅ keepalive_tick ∅.
Proof.
  unfold keepalive_tick. eapply gtr_bind; [by apply gtr_RLock|]. intros _.
  eapply gtr_bind; [|intros _; by apply gtr_RUnlock].
  apply gtr_over_rooms. intros k r w x Hok Hx. eapply gtr_room_notify; [done|].
  intros w1 x1 Hok1 Hx1. eapply ntr_OnCheckKeepalive; [lock_free | done | done].
Qed.

Lemma gtr_resource_tick w0 : gtr w0 ∅ resource_tick ∅.
Proof.
  unfold resource_tick. eapply gtr_bind; [by apply gtr_RLock|]. intros _.
  eapply gtr_bind; [|intros _; by apply gtr_RUnlock].
  apply gtr_over_rooms. intros. apply gtr_skip.
Qed.
End roommgr.

(** ** Callbacks of the connections *)

#[export] Hint Resolve ntr_OnIceReady ntr_OnIceDisconnected ntr_OnIceFailed ntr_OnIceClosed
  ntr_UpdateAudioCodec ntr_UpdateVideoCodec ntr_OnReceivedAudioData ntr_OnReceivedVideoData
  ntr_RequestPli ntr_room_OnReceivedAppData : ntr.
#[export] Hint Extern 2 (_ !! _ = None) => lock_free : ntr.

Section callbacks.
Context `{GoRuntime, WebRTC, Amqp}.
Context (w0 : world) (p : nat) (pr0 : peer).
Context (Hok : heap_ok ∅ w0) (Hp : w_peers w0 !! p = Some pr0).

Lemma ntr_pub_OnTrack ssrc c : ntr ∅ w0 ∅ (pub_OnTrack p ssrc c) ∅.
Proof.
  destruct (peer_sess _ _ _ _ Hok Hp) as [x Hx]. unfold pub_OnTrack. ntr_auto.
Qed.
Lemma ntr_audio_reader b n e : ntr ∅ w0 ∅ (audio_reader p b n e) ∅.
Proof.
  destruct (peer_sess _ _ _ _ Hok Hp) as [x Hx]. unfold audio_reader. ntr_auto.
Qed.
Lemma ntr_video_reader b n e : ntr ∅ w0 ∅ (video_reader p b n e) ∅.
Proof.
  destruct (peer_sess _ _ _ _ Hok Hp) as [x Hx]. unfold video_reader. ntr_auto.
Qed.
Lemma ntr_pub_OnDataChannel : ntr ∅ w0 ∅ (pub_OnDataChannel p) ∅.
Proof. unfold pub_OnDataChannel. ntr_auto. Qed.
Lemma ntr_OnDataMessage d : ntr ∅ w0 ∅ (OnDataMessage p d) ∅.
Proof.
  destruct (peer_sess _ _ _ _ Hok Hp) as [x Hx]. destruct (sess_room _ _ _ _ Hok Hx) as [r Hr].
  unfold OnDataMessage, session_OnReceivedAppData. pose proof sess_free_empty. ntr_auto.
Qed.
Lemma ntr_pub_OnICEConnectionStateChange st :
  ntr ∅ w0 ∅ (pub_OnICEConnectionStateChange p st) ∅.
Proof.
  destruct (peer_sess _ _ _ _ Hok Hp) as [x Hx]. unfold pub_OnICEConnectionStateChange. ntr_auto.
Qed.
Lemma ntr_sub_OnICEConnectionStateChange st :
  ntr ∅ w0 ∅ (sub_OnICEConnectionStateChange p st) ∅.
Proof.
  destruct (peer_sess _ _ _ _ Hok Hp) as [x Hx]. unfold sub_OnICEConnectionStateChange. ntr_auto.
Qed.
Lemma ntr_rtcp_reader pkts : ntr ∅ w0 ∅ (rtcp_reader p pkts) ∅.
Proof.
  destruct (peer_sess _ _ _ _ Hok Hp) as [x Hx]. unfold rtcp_reader. ntr_auto.
Qed.
End callbacks.
