(* ===== verification/RmqSafe.v ===== *)
(** * RabbitMQ keeps the memory well formed

    The exchanges the package variables and the RabbitMQ objects point to
    exist, in every state of the connections: an exchange is made before it is
    stored, and none is ever freed. *)

From S2P Require Import Prelude GoLib Json Constants KeyframeFilter World Rmq Peer Notify Session.
From S2P Require Import Invariant PeerSafe.

Definition valid_ex (w : world) (x : nat) : Prop := is_Some (mq_exchanges (w_rmq w) !! x).
Definition valid_mq (w : world) (q : nat) : Prop := is_Some (mq_objs (w_rmq w) !! q).

Lemma keeps_valid_ex w w' x : keeps w w' → valid_ex w x → valid_ex w' x.
Proof. intros K. apply (ke_q _ _ K). Qed.
Lemma keeps_valid_mq w w' q : keeps w w' → valid_mq w q → valid_mq w' q.
Proof. intros K. apply (ke_q _ _ K). Qed.

(** ** Updates *)

Lemma rmq_upd_ex g x : (∀ e, x_parent (g e) = x_parent e) → rmq_upd_ok (set_mq_exchanges (alter g x)).
Proof.
  intros Hg r. split; [split; simpl; [done|]; intros y; by rewrite is_Some_alter|].
  intros [Hok Hpar]. split; simpl.
  - intros y Hy. rewrite is_Some_alter. by apply Hok.
  - intros y ex q (ex0 & Hex & ->)%lookup_alter_inv. case_decide; rewrite ?Hg; by apply (Hpar y).
Qed.

Lemma rmq_upd_mq g q : (∀ r, q_exs (g r) = q_exs r) → rmq_upd_ok (set_mq_objs (alter g q)).
Proof.
  intros Hg r. split; [split; simpl; [|done]; intros y; by rewrite is_Some_alter|].
  intros [Hok Hpar]. split; simpl; [|intros x ex q' Hex Hq; rewrite is_Some_alter; by eapply Hpar].
  intros y Hy. apply Hok. unfold rmq_ptr in *. simpl in Hy.
  destruct Hy as [?|[?|[?|[?|[?|(q' & z & Hz & Hin)]]]]]; [tauto..|].
  do 5 right. apply lookup_alter_inv in Hz as (z0 & Hz0 & ->). exists q', z0. split; [done|].
  destruct (decide (q = q')); [by rewrite Hg in Hin | done].
Qed.

(** The lists of receivers: cleared, or extended by a valid one. *)
Lemma ntr_upd_exs X w0 L q f :
  (∀ l y, y ∈ f l → y ∈ l ∨ valid_ex w0 y) → ntr X w0 L (upd_mq q (set_q_exs f)) L.
Proof.
  intros Hf. apply ntr_modify. intros w Hok K.
  destruct (@heap_upd_rmq X w (set_mq_objs (alter (set_q_exs f) q))) as [? ?]; [done | | | done].
  { split; simpl; [|done]. intros y. by rewrite is_Some_alter. }
  destruct (ho_rmq _ Hok) as [Hptr Hpar].
  split; simpl; [|intros x ex q' Hex Hq; rewrite is_Some_alter; by eapply Hpar].
  intros y Hy; unfold rmq_ptr in Hy; simpl in Hy.
  assert (rmq_ptr (w_rmq w) y ∨ valid_ex w y) as [Hp|Hv]; [|by apply Hptr|done].
  unfold rmq_ptr. destruct Hy as [?|[?|[?|[?|[?|(q' & z & Hz & Hin)]]]]]; [tauto..|].
  apply lookup_alter_inv in Hz as (z0 & Hz0 & ->). destruct (decide (q = q')); simpl in Hin.
  - destruct (Hf _ _ Hin); [|right; by eapply keeps_valid_ex]. left. do 5 right. by exists q', z0.
  - left. do 5 right. by exists q', z0.
Qed.

(** A package variable gets a valid exchange or nil. *)
Definition rmq_set_ok (set : (option nat → option nat) → rmqstate → rmqstate) : Prop :=
  ∀ o r, rmq_grows r (set (λ _, o) r) ∧
    ∀ y, rmq_ptr (set (λ _, o) r) y → rmq_ptr r y ∨ o = Some y.

Lemma ntr_set_exc X w0 L set o :
  rmq_set_ok set → (∀ r, mq_exchanges (set (λ _, o) r) = mq_exchanges r) →
  (∀ x, o = Some x → valid_ex w0 x) → ntr X w0 L (upd_rmq (set (λ _, o))) L.
Proof.
  intros Hset Hex Ho. apply ntr_modify. intros w Hok K. destruct (Hset o (w_rmq w)) as [Hgr Hp].
  destruct (@heap_upd_rmq X w (set (λ _, o))) as [? ?]; [done | done | | done].
  destruct (ho_rmq _ Hok) as [Hptr Hpar]. split; rewrite Hex.
  - intros y Hy. destruct (Hp y Hy) as [?|E]; [by apply Hptr|]. by eapply keeps_valid_ex; [|apply Ho].
  - intros x ex q He Hq. by apply Hgr, (Hpar x ex).
Qed.

Ltac rmq_set := intros o r; split; [by split | unfold rmq_ptr; simpl; tauto].
Lemma rmq_set_pub_dr : rmq_set_ok set_exc_pub_dr. Proof. rmq_set. Qed.
Lemma rmq_set_proxy_bc : rmq_set_ok set_exc_proxy_bc. Proof. rmq_set. Qed.
Lemma rmq_set_cluster_bc : rmq_set_ok set_exc_cluster_bc. Proof. rmq_set. Qed.
Lemma rmq_set_cross_cluster_dr : rmq_set_ok set_exc_cross_cluster_dr. Proof. rmq_set. Qed.
Lemma rmq_set_cross_cluster_bc : rmq_set_ok set_exc_cross_cluster_bc. Proof. rmq_set. Qed.

Lemma ntr_set_connected X w0 L f : ntr X w0 L (upd_rmq (set_connected f)) L.
Proof. apply ntr_upd_rmq. intros r. by split. Qed.
Lemma ntr_set_center_connected X w0 L f : ntr X w0 L (upd_rmq (set_center_connected f)) L.
Proof. apply ntr_upd_rmq. intros r. by split. Qed.

Lemma ntr_upd_ex X w0 L x g : (∀ e, x_parent (g e) = x_parent e) → ntr X w0 L (upd_ex x g) L.
Proof. intros Hg. by apply ntr_upd_rmq, rmq_upd_ex. Qed.
Lemma ntr_upd_mq X w0 L q g : (∀ r, q_exs (g r) = q_exs r) → ntr X w0 L (upd_mq q g) L.
Proof. intros Hg. by apply ntr_upd_rmq, rmq_upd_mq. Qed.


(** A receiver is given its parent. *)
Lemma ntr_set_parent X w0 L x q : valid_mq w0 q → ntr X w0 L (upd_ex x (set_x_parent (λ _, Some q))) L.
Proof.
  intros Hq. apply ntr_modify. intros w Hok K.
  destruct (@heap_upd_rmq X w (set_mq_exchanges (alter (set_x_parent (λ _, Some q)) x))) as [? ?]; [done | | | done].
  { split; simpl; [done|]. intros y. by rewrite is_Some_alter. }
  destruct (ho_rmq _ Hok) as [Hptr Hpar]. split; simpl.
  - intros y Hy. rewrite is_Some_alter. by apply Hptr.
  - intros y ex q' (ex0 & Hex & ->)%lookup_alter_inv. case_decide; [|by apply (Hpar y)].
    simpl. intros [= <-]. by eapply keeps_valid_mq.
Qed.

#[export] Hint Resolve ntr_set_connected ntr_set_center_connected : ntr.
#[export] Hint Extern 1 (ntr _ _ _ (upd_ex _ _) _) => apply ntr_upd_ex; reflexivity : ntr.
#[export] Hint Extern 1 (ntr _ _ _ (upd_mq _ _) _) => apply ntr_upd_mq; reflexivity : ntr.

(** ** Reading *)

Lemma ntr_get_ex {B} X w0 L L' x (k : QueueExchange → MW B) :
  valid_ex w0 x → (∀ ex, ntr X w0 L (k ex) L') → ntr X w0 L (get_ex x ≫= k) L'.
Proof.
  intros Hx Hk w Hok K HL. apply (keeps_valid_ex _ _ _ K) in Hx as [ex Hex].
  unfold get_ex. apply wp_bind, wp_bind, wp_gets, wp_from_some; [|congruence].
  intros ex' _. by apply Hk.
Qed.

Lemma ntr_get_mq {B} X w0 L L' q (k : RabbitMQ → MW B) :
  valid_mq w0 q →
  (∀ w r, heap_ok X w → keeps w0 w → mq_objs (w_rmq w) !! q = Some r → ntr X w L (k r) L') →
  ntr X w0 L (get_mq q ≫= k) L'.
Proof.
  intros Hq Hk w Hok K HL. apply (keeps_valid_mq _ _ _ K) in Hq as [r Hr].
  unfold get_mq. apply wp_bind, wp_bind, wp_gets, wp_from_some; [|congruence].
  intros r' Hr'. assert (r' = r) as -> by congruence.
  eapply wp_mono; [by apply (Hk w r) | | done].
  intros a w' (? & ? & ?). split_and!; [done | by etrans | done].
Qed.

Section amqp.
Context `{Amqp}.
Context (X : gset nat) (L : gmap lockid lockstate).

Lemma ntr_amqp_Channel w0 c : ntr X w0 L (amqp_Channel c) L.
Proof. unfold amqp_Channel. ntr_auto. Qed.
Lemma ntr_ExchangeDeclare w0 a b c d : ntr X w0 L (ExchangeDeclare a b c d) L.
Proof. unfold ExchangeDeclare. ntr_auto. Qed.
Lemma ntr_QueueDeclare w0 a : ntr X w0 L (QueueDeclare a) L.
Proof. unfold QueueDeclare. ntr_auto. Qed.
Lemma ntr_QueueBind w0 a b c : ntr X w0 L (QueueBind a b c) L.
Proof. unfold QueueBind. ntr_auto. Qed.
Lemma ntr_Consume w0 a : ntr X w0 L (Consume a) L.
Proof. unfold Consume. ntr_auto. Qed.
Hint Resolve ntr_amqp_Channel ntr_ExchangeDeclare ntr_QueueDeclare ntr_QueueBind ntr_Consume : ntr.

Lemma ntr_addProducer w0 x : valid_ex w0 x → ntr X w0 L (addProducer x) L.
Proof. intros Hx. unfold addProducer. apply ntr_get_ex; [done|]. intros ex. ntr_auto. Qed.
Lemma ntr_addReceiver w0 x q : valid_ex w0 x → valid_mq w0 q → ntr X w0 L (addReceiver x q) L.
Proof.
  intros Hx Hq. unfold addReceiver. eapply ntr_bind; [by apply ntr_set_parent|]. intros _.
  apply ntr_get_ex; [done|]. intros ex. ntr_auto.
Qed.

End amqp.

(** ** Operations that return an exchange *)

(** [ntr] for an operation whose result is a valid exchange. *)
Definition ntr_ex (X : gset nat) (w0 : world) (L : gmap lockid lockstate) (m : MW nat)
    (L' : gmap lockid lockstate) : Prop := ∀ w,
  heap_ok X w → keeps w0 w → w_locks w = L →
  wp m (λ x w', heap_ok X w' ∧ keeps w0 w' ∧ w_locks w' = L' ∧ valid_ex w' x)
    (λ r _, safe_stop r) w.

Section exchanges.
Context (X : gset nat).

Lemma ntr_ex_ret w0 L x : valid_ex w0 x → ntr_ex X w0 L (mret x) L.
Proof.
  intros Hx w Hok K HL. apply wp_ret. split_and!; try done. by eapply keeps_valid_ex.
Qed.

Lemma ntr_ex_bind {A} w0 L L1 L2 (m : MW A) (k : A → MW nat) :
  ntr X w0 L m L1 → (∀ a, ntr_ex X w0 L1 (k a) L2) → ntr_ex X w0 L (m ≫= k) L2.
Proof.
  intros Hm Hk w Hok K HL. apply wp_bind. eapply wp_mono; [by apply Hm | | done].
  intros a w1 (? & ? & ?). by apply Hk.
Qed.

Lemma ntr_ex_use w0 L L1 L2 (m : MW nat) (k : nat → MW nat) :
  ntr_ex X w0 L m L1 →
  (∀ w x, heap_ok X w → keeps w0 w → valid_ex w x → ntr_ex X w L1 (k x) L2) →
  ntr_ex X w0 L (m ≫= k) L2.
Proof.
  intros Hm Hk w Hok K HL. apply wp_bind. eapply wp_mono; [by apply Hm | | done].
  intros x w1 (Hok1 & K1 & L1' & Hx). eapply wp_mono; [by apply (Hk w1 x) | | done].
  intros a w' (? & ? & ? & ?). split_and!; [done | by etrans | done | done].
Qed.

Lemma ntr_use_ex {B} w0 L L1 L2 (m : MW nat) (k : nat → MW B) :
  ntr_ex X w0 L m L1 →
  (∀ w x, heap_ok X w → keeps w0 w → valid_ex w x → ntr X w L1 (k x) L2) →
  ntr X w0 L (m ≫= k) L2.
Proof.
  intros Hm Hk w Hok K HL. apply wp_bind. eapply wp_mono; [by apply Hm | | done].
  intros x w1 (Hok1 & K1 & L1' & Hx). eapply wp_mono; [by apply (Hk w1 x) | | done].
  intros a w' (? & ? & ?). split_and!; [done | by etrans | done].
Qed.

Lemma ntr_ex_get_mq w0 L L' q (k : RabbitMQ → MW nat) :
  valid_mq w0 q → (∀ r, ntr_ex X w0 L (k r) L') → ntr_ex X w0 L (get_mq q ≫= k) L'.
Proof.
  intros Hq Hk w Hok K HL. apply (keeps_valid_mq _ _ _ K) in Hq as [r Hr].
  unfold get_mq. apply wp_bind, wp_bind, wp_gets, wp_from_some; [|congruence].
  intros r' _. by apply Hk.
Qed.

(** A new exchange is valid. *)
Lemma ntr_alloc_ex w0 L e : x_parent e = None → ntr_ex X w0 L (alloc_ex e) L.
Proof.
  intros He w Hok K HL. unfold alloc_ex.
  apply wp_bind, wp_gets, wp_bind, wp_modify, wp_bind, wp_modify, wp_ret.
  set (w1 := set_w_next S w).
  assert (same_heap w w1) as Hsame by (split; simpl; try done; lia).
  assert (heap_ok X w1) as Hok1 by by eapply same_heap_ok.
  destruct (@heap_upd_rmq X w1 (set_mq_exchanges <[w_next w := e]>)) as [Hok2 K2]; [done | | |].
  - split; simpl; [done|]. intros y Hy. apply lookup_insert_is_Some'. by right.
  - destruct (ho_rmq _ Hok) as [Hptr Hpar]. split; simpl.
    + intros y Hy. apply lookup_insert_is_Some'. right. by apply Hptr.
    + intros y ex q [[_ <-]|[_ Hex]]%lookup_insert_Some; [congruence | by apply (Hpar y)].
  - split_and!; [done | | done |].
    + etrans; [done|]. etrans; [by apply same_heap_keeps | done].
    + unfold valid_ex. simpl. by rewrite lookup_insert_eq.
Qed.
End exchanges.

(** ** Connecting *)

Section connect.
Context `{Amqp}.
Context (X : gset nat) (L : gmap lockid lockstate) (q : nat) (HLq : L !! LMq q = None).

Lemma ntr_RegisterProducer w0 a b c d e :
  valid_mq w0 q → ntr_ex X w0 L (RegisterProducer q a b c d e) L.
Proof.
  intros Hq. unfold RegisterProducer. eapply ntr_ex_bind; [by apply ntr_Lock|]. intros _.
  apply ntr_ex_get_mq; [done|]. intros r. eapply ntr_ex_use; [by apply ntr_alloc_ex|].
  intros w x Hok K Hx. eapply ntr_ex_bind; [by apply ntr_addProducer|]. intros _.
  eapply ntr_ex_bind; [by apply ntr_Unlock|]. intros _. by apply ntr_ex_ret.
Qed.

Lemma ntr_RegisterReceiver w0 a b c d e :
  valid_mq w0 q → ntr X w0 L (RegisterReceiver q a b c d e) L.
Proof.
  intros Hq. unfold RegisterReceiver. eapply ntr_bind; [by apply ntr_Lock|]. intros _.
  eapply ntr_get_mq; [done|]. intros w r _ K _. eapply ntr_use_ex; [by apply ntr_alloc_ex|].
  intros w1 x Hok1 K1 Hx. eapply ntr_bind.
  { apply ntr_addReceiver; [done|]. eapply keeps_valid_mq; [|done]. by etrans. }
  intros _.
  eapply ntr_bind; [|intros _; by apply ntr_Unlock]. apply ntr_upd_exs.
  intros l y [?| ->%list_elem_of_singleton]%elem_of_app; [by left | by right].
Qed.

Lemma ntr_lanuchRetryTimer w0 n : ntr X w0 L (lanuchRetryTimer q n) L.
Proof. unfold lanuchRetryTimer. ntr_auto. Qed.
Lemma ntr_CenterRMQConnectTimer w0 n : ntr X w0 L (CenterRMQConnectTimer q n) L.
Proof. unfold CenterRMQConnectTimer. ntr_auto. Qed.
Lemma ntr_cancelRetryTimer w0 : valid_mq w0 q → ntr X w0 L (cancelRetryTimer q) L.
Proof.
  intros Hq. unfold cancelRetryTimer. eapply ntr_bind; [eauto with ntr|]. intros _.
  eapply ntr_get_mq; [done|]. intros w r _ K _. ntr_auto.
Qed.
Hint Resolve ntr_lanuchRetryTimer ntr_CenterRMQConnectTimer ntr_cancelRetryTimer : ntr.

(** A registration whose exchange is stored in a package variable. *)
Lemma ntr_store {B} w0 L' set a b c d e (k : unit → MW B) :
  rmq_set_ok set → (∀ o r, mq_exchanges (set (λ _, o) r) = mq_exchanges r) →
  valid_mq w0 q →
  (∀ w, valid_mq w q → ntr X w L (k tt) L') →
  ntr X w0 L (RegisterProducer q a b c d e ≫= λ x, upd_rmq (set (λ _, Some x)) ≫= k) L'.
Proof.
  intros Hset Hex Hq Hk. eapply ntr_use_ex; [by apply ntr_RegisterProducer|].
  intros w x Hok K Hx. eapply ntr_bind.
  - apply ntr_set_exc; [done | done |]. by intros ? [= <-].
  - intros []. apply Hk. by eapply keeps_valid_mq.
Qed.

Lemma ntr_mqConnect w0 : valid_mq w0 q → ntr X w0 L (mqConnect q) L.
Proof.
  intros Hq. unfold mqConnect. eapply ntr_bind; [apply ntr_choose|]. intros n.
  eapply ntr_bind; [eauto with ntr|]. intros _. destruct (negb _); [ntr_auto|].
  eapply ntr_bind; [by apply ntr_cancelRetryTimer|]. intros _.
  eapply ntr_bind; [apply ntr_gets|]. intros c.
  apply (ntr_store _ _ set_exc_pub_dr); [apply rmq_set_pub_dr | done | done |].
  intros w1 Hq1. eapply ntr_bind; [by apply ntr_RegisterReceiver|]. intros _.
  eapply ntr_bind; [by apply ntr_RegisterReceiver|]. intros _.
  apply (ntr_store _ _ set_exc_proxy_bc); [apply rmq_set_proxy_bc | done | done |].
  intros w2 Hq2. apply (ntr_store _ _ set_exc_cluster_bc); [apply rmq_set_cluster_bc | done | done |].
  intros w3 Hq3. eapply ntr_bind; [by apply ntr_RegisterReceiver|]. intros _. ntr_auto.
Qed.

Lemma ntr_centerRMQConnect w0 : valid_mq w0 q → ntr X w0 L (centerRMQConnect q) L.
Proof.
  intros Hq. unfold centerRMQConnect. eapply ntr_bind; [apply ntr_choose|]. intros n.
  eapply ntr_bind; [eauto with ntr|]. intros _. destruct (negb _); [ntr_auto|].
  eapply ntr_bind; [by apply ntr_cancelRetryTimer|]. intros _.
  eapply ntr_bind; [apply ntr_gets|]. intros c.
  apply (ntr_store _ _ set_exc_cross_cluster_dr); [apply rmq_set_cross_cluster_dr | done | done |].
  intros w1 Hq1. eapply ntr_bind; [by apply ntr_RegisterReceiver|]. intros _.
  apply (ntr_store _ _ set_exc_cross_cluster_bc); [apply rmq_set_cross_cluster_bc | done | done |].
  intros w2 Hq2. eapply ntr_bind; [by apply ntr_RegisterReceiver|]. intros _. ntr_auto.
Qed.

(** *** Disconnecting *)

Lemma ntr_destroyEXC w0 x : valid_ex w0 x → ntr X w0 L (destroyEXC x) L.
Proof.
  intros Hx. unfold destroyEXC. eapply ntr_bind; [eauto with ntr|]. intros _.
  apply ntr_get_ex; [done|]. intros ex. ntr_auto.
Qed.
Lemma ntr_destroy_opt w0 o :
  (∀ x, o = Some x → valid_ex w0 x) → ntr X w0 L (destroy_opt o) L.
Proof. destruct o; intros Ho; [by apply ntr_destroyEXC, Ho | apply ntr_skip]. Qed.

Lemma ntr_stop_receivers w0 : valid_mq w0 q → ntr X w0 L (stop_receivers q) L.
Proof.
  intros Hq. unfold stop_receivers. eapply ntr_get_mq; [done|]. intros w r Hok K Hr.
  eapply ntr_bind.
  { apply ntr_for_each. intros x Hx. apply ntr_destroyEXC. apply (ho_rmq _ Hok).
    do 5 right. by exists q, r. }
  intros _. eapply ntr_bind; [apply ntr_upd_exs; intros l y []%elem_of_nil|]. intros _. ntr_auto.
Qed.

Lemma ntr_gets_rmq {B} w0 L' (k : rmqstate → MW B) :
  (∀ w, heap_ok X w → keeps w0 w → ntr X w L (k (w_rmq w)) L') →
  ntr X w0 L (gets w_rmq ≫= k) L'.
Proof.
  intros Hk w Hok K HL. apply wp_bind, wp_gets. eapply wp_mono; [by apply (Hk w) | | done].
  intros a w' (? & ? & ?). split_and!; [done | by etrans | done].
Qed.

Lemma ntr_rmq_Stop w0 : valid_mq w0 q → ntr X w0 L (rmq_Stop q) L.
Proof.
  intros Hq. unfold rmq_Stop. apply ntr_gets_rmq. intros w Hok K.
  do 3 (eapply ntr_bind;
    [apply ntr_destroy_opt; intros x Hx; apply (ho_rmq _ Hok); unfold rmq_ptr; tauto|]; intros _).
  apply ntr_stop_receivers. by eapply keeps_valid_mq.
Qed.
Lemma ntr_CenterRMQStop w0 : valid_mq w0 q → ntr X w0 L (CenterRMQStop q) L.
Proof.
  intros Hq. unfold CenterRMQStop. apply ntr_gets_rmq. intros w Hok K.
  do 2 (eapply ntr_bind;
    [apply ntr_destroy_opt; intros x Hx; apply (ho_rmq _ Hok); unfold rmq_ptr; tauto|]; intros _).
  apply ntr_stop_receivers. by eapply keeps_valid_mq.
Qed.
Hint Resolve ntr_rmq_Stop ntr_CenterRMQStop : ntr.

Lemma ntr_on_conn_close w0 err : valid_mq w0 q → ntr X w0 L (on_conn_close q err) L.
Proof. intros Hq. unfold on_conn_close. ntr_auto. Qed.
Lemma ntr_on_center_close w0 err : valid_mq w0 q → ntr X w0 L (on_center_close q err) L.
Proof. intros Hq. unfold on_center_close. ntr_auto. Qed.

Lemma ntr_InterClusterStartup w0 : ntr X w0 L (InterClusterStartup q) L.
Proof.
  unfold InterClusterStartup.
  do 3 (eapply ntr_bind; [apply ntr_set_exc; [apply rmq_set_pub_dr || apply rmq_set_proxy_bc || apply rmq_set_cluster_bc | done | done]|]; intros _).
  ntr_auto.
Qed.
Lemma ntr_CrossClusterStartup w0 : ntr X w0 L (CrossClusterStartup q) L.
Proof.
  unfold CrossClusterStartup.
  do 2 (eapply ntr_bind; [apply ntr_set_exc; [apply rmq_set_cross_cluster_dr || apply rmq_set_cross_cluster_bc | done | done]|]; intros _).
  ntr_auto.
Qed.

Lemma ntr_retry_timer_fire w0 i t : task_ok w0 t → ntr X w0 L (retry_timer_fire q i t) L.
Proof. intros Ht. unfold retry_timer_fire. ntr_auto. Qed.
Lemma ntr_retry_timer_exit w0 i : ntr X w0 L (retry_timer_exit q i) L.
Proof. unfold retry_timer_exit. ntr_auto. Qed.
End connect.
