(* ===== verification/Safety.v ===== *)
(** * Safety of the running server

    Every reachable state of the server is well formed, and no goroutine or
    event handler closes a closed channel, follows a dangling pointer, blocks
    on a mutex it holds, releases one it does not hold (StopPush excepted), or
    waits forever for the watchers of a session. *)

From S2P Require Import Prelude GoLib Ice Json Constants KeyframeFilter World Rmq Peer Notify Session.
From S2P Require Import Room RoomMgr Callbacks Server Demo Invariant PeerSafe Links SessionSafe.
From S2P Require Import RoomSafe RoomMgrSafe RmqSafe.

Section safety.
Context `{GoRuntime, WebRTC, Amqp}.

(** A neutral operation, as a step of the server. *)
Lemma ntr_step {A} w (m : MW A) :
  heap_ok ∅ w → w_locks w = ∅ → ntr ∅ w ∅ m ∅ → wp m (ok_after w ∅) safe_exit w.
Proof.
  intros Hok HL Hm. eapply wp_mono; [by apply Hm | | done].
  intros a w' (? & ? & ?). split_and!; [done | by apply keeps_grows | done].
Qed.

Lemma gtr_step {A} w (m : MW A) :
  heap_ok ∅ w → w_locks w = ∅ → gtr w ∅ m ∅ → wp m (ok_after w ∅) safe_exit w.
Proof. intros Hok HL Hm. by eapply gtr_run. Qed.

Lemma run_task_ok w t :
  heap_ok ∅ w → w_locks w = ∅ → task_ok w t →
  wp (run_task t) (ok_after w ∅) safe_exit w.
Proof.
  intros Hok HL. destruct t; simpl; [|intros [x Hx]..].
  - intros _. apply gtr_step; [done..|]. apply gtr_ReleaseRoom.
  - apply ntr_step; [done..|]. by eapply ntr_OnPublisherReady.
  - apply gtr_step; [done..|]. by eapply gtr_release_pub; [|apply sess_free_empty].
  - apply gtr_step; [done..|]. by eapply gtr_release_pub; [|apply sess_free_empty].
  - by apply wp_ret.
  - apply gtr_step; [done..|]. by eapply gtr_release_sub; [|apply sess_free_empty].
  - apply gtr_step; [done..|]. by eapply gtr_release_sub; [|apply sess_free_empty].
  - apply gtr_step; [done..|]. by eapply gtr_ReleaseSubscriberPeer.
  - apply gtr_step; [done..|]. by eapply gtr_HandleSubscriberLeaved.
  - apply ntr_step; [done..|]. by eapply ntr_CheckKeepAlive.
  - apply gtr_step; [done..|]. by eapply gtr_KickoutFromRoom; [|apply sess_free_empty|].
  - apply ntr_step; [done..|]. by eapply ntr_RequestKeyframe.
  - apply ntr_step; [done..|]. by eapply ntr_requestKeyframeNow.
  - apply ntr_step; [done..|]. by eapply ntr_FakePublisherReConnect.
  - apply ntr_step; [done..|]. by eapply ntr_CheckIceInfo.
  - apply ntr_step; [done..|]. eapply ntr_bind; [|intros; apply ntr_skip].
    apply ntr_mqConnect; [done|]. by eexists.
  - apply ntr_step; [done..|]. eapply ntr_bind; [|intros; apply ntr_skip].
    apply ntr_centerRMQConnect; [done|]. by eexists.
Qed.

(** The command of a message, as the room manager reads it. *)
Definition command_of (msg : string) : string :=
  GetValue (default ∅ (CreateJSONParser msg)) LabelCmd.

(** The message an event hands to the room manager. *)
Definition message_of (e : xevent) : option string :=
  match e with
  | XMessage msg => Some msg
  | XDelivery _ body => body
  | _ => None
  end.

(** How an event may stop: safely, or by StopPush in the mutex of the
    publishers of a session. *)
Definition event_exit (e : xevent) (r : stop) : Prop :=
  safe_stop r ∨
  ∃ msg s, message_of e = Some msg ∧ command_of msg = CmdStopPush ∧ r = PMutex (LPubs s).

Lemma is_role_peer w p n : is_role w p n = true → ∃ pr, w_peers w !! p = Some pr.
Proof. unfold is_role. destruct (w_peers w !! p); [eauto | done]. Qed.

Lemma message_ok w e msg :
  heap_ok ∅ w → w_locks w = ∅ → message_of e = Some msg →
  wp (roommgr_HandleMessage msg) (ok_after w ∅) (λ r _, event_exit e r) w.
Proof.
  intros Hok HL He. unfold roommgr_HandleMessage.
  destruct (decide (command_of msg = CmdStopPush)) as [Ec|Ec].
  - eapply wp_mono; [by apply handle_fields_stoppush | done |].
    intros r w' [?|[s ->]]; [by left | right; by exists msg, s].
  - eapply wp_mono; [apply gtr_step; [done..|]; by apply gtr_handle_fields | done | by left].
Qed.

Lemma run_event_ok w e :
  heap_ok ∅ w → w_locks w = ∅ → event_ok w e = true →
  wp (run_event e) (ok_after w ∅) (λ r _, event_exit e r) w.
Proof.
  intros Hok HL He.
  assert (∀ m : MW unit, wp m (ok_after w ∅) safe_exit w →
    wp m (ok_after w ∅) (λ r _, event_exit e r) w) as Hs.
  { intros m Hm. eapply wp_mono; [exact Hm | done |]. intros r w' Hr. by left. }
  destruct e; simpl in He |- *.
  - by apply message_ok.
  - destruct (mq_exchanges (w_rmq w) !! x) as [ex|] eqn:Hex; [|done].
    unfold receiver_message, get_ex. apply wp_bind, wp_bind, wp_gets. rewrite Hex. apply wp_ret.
    destruct (x_parent ex) as [q|] eqn:Hp; [|by apply wp_ret]. destruct body as [msg|]; [|by apply wp_ret].
    destruct (proj2 (ho_rmq _ Hok) x ex q Hex Hp) as [r Hr].
    unfold get_mq. apply wp_bind, wp_bind, wp_gets. rewrite Hr. apply wp_ret.
    destruct (q_onReceivedMessageHandler r); [by apply message_ok|]. apply wp_halt. by left.
  - apply Hs, ntr_step; [done..|]. apply ntr_other. intros w'. by repeat split.
  - apply Hs, ntr_step; [done..|]. apply is_role_peer in He as [pr Hp].
    by eapply ntr_pub_OnICEConnectionStateChange.
  - apply Hs, ntr_step; [done..|]. apply is_role_peer in He as [pr Hp].
    by eapply ntr_sub_OnICEConnectionStateChange.
  - apply Hs, ntr_step; [done..|]. apply is_role_peer in He as [pr Hp].
    by eapply ntr_pub_OnICECandidate.
  - apply Hs, ntr_step; [done..|]. apply is_role_peer in He as [pr Hp].
    by eapply ntr_sub_OnICECandidate.
  - apply Hs, ntr_step; [done..|]. apply is_role_peer in He as [pr Hp].
    by eapply ntr_pub_OnTrack.
  - apply Hs, ntr_step; [done..|]. apply is_role_peer in He as [pr Hp].
    by eapply ntr_audio_reader.
  - apply Hs, ntr_step; [done..|]. apply is_role_peer in He as [pr Hp].
    by eapply ntr_video_reader.
  - apply Hs, ntr_step; [done..|]. by apply ntr_pub_OnDataChannel.
  - apply Hs, ntr_step; [done..|].
    apply orb_true_iff in He as [[pr Hp]%is_role_peer|[pr Hp]%is_role_peer]; by eapply ntr_OnDataMessage.
  - apply Hs, ntr_step; [done..|]. apply is_role_peer in He as [pr Hp].
    by eapply ntr_rtcp_reader.
  - apply Hs, ntr_step; [done..|]. destruct (w_peers w !! p) as [pr|] eqn:Hp; [|done].
    eauto with ntr.
  - apply Hs, ntr_step; [done..|]. destruct (w_peers w !! p) as [pr|] eqn:Hp; [|done].
    eauto with ntr.
  - apply Hs, ntr_step; [done..|]. destruct (w_sess w !! s) as [x|] eqn:Hx; [|done].
    by eapply ntr_watcher_fire.
  - apply Hs, ntr_step; [done..|]. apply ntr_watcher_exit.
  - apply Hs, gtr_step; [done..|]. apply gtr_keepalive_tick.
  - apply Hs, gtr_step; [done..|]. apply gtr_resource_tick.
  - apply Hs, ntr_step; [done..|]. apply ntr_StartRegistToLB_tick.
  - apply Hs, ntr_step; [done..|]. destruct (mq_objs (w_rmq w) !! q) eqn:Hq; [|done].
    apply ntr_retry_timer_fire. simpl. by rewrite Hq.
  - apply Hs, ntr_step; [done..|]. destruct (mq_objs (w_rmq w) !! q) eqn:Hq; [|done].
    apply ntr_retry_timer_fire. simpl. by rewrite Hq.
  - apply Hs, ntr_step; [done..|]. apply ntr_retry_timer_exit.
  - apply Hs, ntr_step; [done..|]. apply bool_decide_eq_true in He. by apply ntr_on_conn_close.
  - apply Hs, ntr_step; [done..|]. apply bool_decide_eq_true in He. by apply ntr_on_center_close.
Qed.

(** ** The initial state *)

Lemma heap_ok_init c now : heap_ok ∅ (init_world c now).
Proof.
  split; simpl; try done.
  - by intros p [? ?].
  - by intros p [? ?].
  - by intros p [? ?].
  - unfold rmq_ok, rmq_ptr. simpl. split; [|by intros x ex q].
    intros x [?|[?|[?|[?|[?|(q & r & Hq & _)]]]]]; done.
Qed.

Lemma ntr_CreateRabbitMQ w0 url : ntr ∅ w0 ∅ (CreateRabbitMQ url) ∅.
Proof.
  unfold CreateRabbitMQ. eapply ntr_bind; [apply ntr_gets|]. intros n.
  eapply ntr_bind; [apply ntr_other; intros w; split; [split; simpl; try done; lia | done]|].
  intros _. eapply ntr_bind; [|intros; apply ntr_ret]. apply ntr_modify. intros w Hok K.
  destruct (@heap_upd_rmq ∅ w (set_mq_objs <[n := MkRabbitMQ None url [] false [] 0]>))
    as [? ?]; [done | | | done].
  - split; simpl; [|done]. intros q Hq. apply lookup_insert_is_Some'. by right.
  - destruct (ho_rmq _ Hok) as [Hptr Hpar].
    split; simpl; [|intros x ex q He Hq; apply lookup_insert_is_Some'; right; by apply (Hpar x ex)].
    intros y Hy. apply Hptr. unfold rmq_ptr in *. simpl in Hy.
    destruct Hy as [?|[?|[?|[?|[?|(q & r & Hq & Hin)]]]]]; [tauto..|].
    apply lookup_insert_Some in Hq as [[_ <-]|[_ Hq]]; [by apply elem_of_nil in Hin|].
    do 5 right. by exists q, r.
Qed.

Lemma ntr_main_startup w0 : ntr ∅ w0 ∅ main_startup ∅.
Proof.
  unfold main_startup, main_clients. eapply ntr_bind; [|intros _; apply ntr_roommgr_SetSendMessageHandler].
  eapply ntr_bind; [apply ntr_gets|]. intros c.
  eapply ntr_bind; [apply ntr_CreateRabbitMQ|]. intros q.
  eapply ntr_bind; [apply ntr_InterClusterStartup|]. intros _.
  eapply ntr_bind; [apply ntr_CreateRabbitMQ|]. intros q'.
  apply ntr_CrossClusterStartup.
Qed.

Lemma take_task_ok w l1 t l2 :
  heap_ok ∅ w → w_tasks w = l1 ++ t :: l2 →
  heap_ok ∅ (take_task w l1 l2) ∧ task_ok (take_task w l1 l2) t.
Proof.
  intros Hok Ht. pose proof (ho_tasks _ Hok) as Hall. rewrite Ht in Hall.
  apply Forall_app in Hall as [H1' [H2' H3']%Forall_cons]. split; [|by destruct t].
  destruct Hok as [Np Ns Nr Hp Hs Hpub Hsub Hr Hm _ Hq]. split; simpl; try done.
  apply Forall_app. split; eapply Forall_impl; [exact H1' | | exact H3' |]; by intros [].
Qed.

Lemma reachable_ok c now w : reachable c now w → heap_ok ∅ w ∧ w_locks w = ∅.
Proof.
  induction 1 as [w Hm|w w' _ [Hok HL] Hst].
  - pose proof (ntr_main_startup (init_world c now) _ (heap_ok_init c now)
                  (reflexivity _) (eq_refl _)) as Hwp.
    apply (wp_run _ _ _ _ _ _ Hwp) in Hm as (? & _ & ?). done.
  - destruct Hst as [w w' l1 t l2 Ht Hrun|w w' e He Hrun].
    + destruct (take_task_ok _ _ _ _ Hok Ht) as [Hok' Ht'].
      pose proof (run_task_ok _ t Hok' HL Ht') as Hwp.
      apply (wp_run _ _ _ _ _ _ Hwp) in Hrun as (? & _ & ?). done.
    + pose proof (run_event_ok _ e Hok HL He) as Hwp.
      apply (wp_run _ _ _ _ _ _ Hwp) in Hrun as (? & _ & ?). done.
Qed.
End safety.

(** ** The theorems *)

(** C1. After main has installed the handlers, with handlers that run one at a time:
    in every state reached by handling messages, timers, callbacks and
    goroutines in any order, each run to its end before the next, the memory is
    well formed: the maps of sessions and rooms hold open peers and sessions
    under the keys the lookups use, every pointer of an object, of a goroutine
    and of the RabbitMQ variables refers to an object, a session has at most one
    watcher goroutine, and no mutex is left held.  (Push shows what handlers
    that overlap can do.) *)
Theorem server_invariant `{GoRuntime, WebRTC, Amqp} c now w :
  reachable c now w → heap_ok ∅ w ∧ w_locks w = ∅.
Proof. apply reachable_ok. Qed.

Lemma demo_ready_reachable : reachable demo_conf (1000 * second) (demo_world demo_ready).
Proof. apply (demo_run_reachable demo_ready). vm_compute. reflexivity. Qed.

Lemma server_invariant_witness :
  heap_ok ∅ (demo_world demo_ready) ∧ w_locks (demo_world demo_ready) = ∅.
Proof. exact (server_invariant _ _ _ demo_ready_reachable). Defined.

(** A goroutine of a reachable server that does not run to its end stops
    neither by closing a closed channel, nor at a dangling pointer, nor in a
    mutex, nor in the wait for the watchers of a session. *)
Theorem goroutine_stops `{GoRuntime, WebRTC, Amqp} c now w l1 t l2 r w' :
  reachable c now w → w_tasks w = l1 ++ t :: l2 →
  run_task t (take_task w l1 l2) = Stop r w' → safe_stop r.
Proof.
  intros Hr Ht Hrun. destruct (reachable_ok _ _ _ Hr) as [Hok HL].
  destruct (take_task_ok _ _ _ _ Hok Ht) as [Hok' Ht'].
  exact (wp_run_stop _ _ _ _ _ _ (run_task_ok _ t Hok' HL Ht') Hrun).
Qed.

(** A candidate of the server's own address, before the offer. *)
Definition demo_candidate : list act := demo_publish ++ [
  AEv (XPubCandidate 15 (Some (MkCandidate "1" 2130706431 "10.0.0.1" ICEProtocolUDP 5000 ICECandidateTypeHost 1 "" 0 "")))].

Lemma demo_candidate_reachable : reachable demo_conf (1000 * second) (demo_world demo_candidate).
Proof. apply (demo_run_reachable demo_candidate). vm_compute. reflexivity. Qed.

Lemma goroutine_stops_witness : safe_stop (HChan CRemoteSdp).
Proof.
  apply (goroutine_stops _ _ (demo_world demo_candidate) []
           (TCheckIceInfo 15 "" "10.0.0.1" 5000) [] (HChan CRemoteSdp)
           (set_w_tasks (λ _, []) (demo_world demo_candidate)) demo_candidate_reachable);
    vm_compute; reflexivity.
Defined.

(** C34. In those states the handling of an event, run by itself, does not stop by
    closing a closed channel, at a dangling pointer, in a mutex or in the wait
    for the watchers of a session; the only exception is a StopPush message,
    which ends in the mutex of a session's publishers. *)
Theorem event_stops `{GoRuntime, WebRTC, Amqp} c now w e r w' :
  reachable c now w → event_ok w e = true → run_event e w = Stop r w' → event_exit e r.
Proof.
  intros Hr He Hrun. destruct (reachable_ok _ _ _ Hr) as [Hok HL].
  exact (wp_run_stop _ _ _ _ _ _ (run_event_ok _ e Hok HL He) Hrun).
Qed.

Definition stoppush_msg : string := peer_msg CmdStopPush "room1" "alice" "" "p1".

Lemma event_stops_witness : event_exit (XMessage stoppush_msg) (PMutex (LPubs 13)).
Proof.
  destruct (run_event (XMessage stoppush_msg) (demo_world demo_ready)) as [a w|r w] eqn:E.
  - vm_compute in E. discriminate E.
  - assert (r = PMutex (LPubs 13)) as <- by (vm_compute in E; congruence).
    apply (event_stops _ _ (demo_world demo_ready) _ r w demo_ready_reachable);
      [reflexivity | exact E].
Defined.

(** A peer that has been closed stays closed in every later state, and no
    map of any session holds it: a closed connection is never used again. *)
Theorem closed_stays_closed `{GoRuntime, WebRTC, Amqp} c now w w' p :
  reachable c now w → step w w' → is_closed w p →
  is_closed w' p ∧
  ∀ s x k, w_sess w' !! s = Some x →
    s_publishers x !! k ≠ Some p ∧ s_subscribers x !! k ≠ Some p.
Proof.
  intros Hr Hst Hc. assert (reachable c now w') as Hr' by by eapply reach_step.
  destruct (reachable_ok _ _ _ Hr) as [Hok HL], (reachable_ok _ _ _ Hr') as [Hok' _].
  assert (is_closed w' p) as (pr & Hp & Hcl).
  { destruct Hst as [w w' l1 t l2 Ht Hrun|w w' e He Hrun].
    - destruct (take_task_ok _ _ _ _ Hok Ht) as [Hok1 Ht1].
      destruct (wp_run _ _ _ _ _ _ (run_task_ok _ t Hok1 HL Ht1) Hrun) as (_ & G & _).
      by apply (is_closed_grows _ _ _ G).
    - destruct (wp_run _ _ _ _ _ _ (run_event_ok _ e Hok HL He) Hrun) as (_ & G & _).
      by apply (is_closed_grows _ _ _ G). }
  split; [by exists pr|]. intros s x k Hx. split; intros Hk.
  - destruct (ho_pub _ Hok' _ _ _ _ Hx Hk) as (pr' & Hp' & _ & Hop).
    rewrite Hp in Hp'. injection Hp' as <-. rewrite Hop in Hcl; [done | set_solver].
  - destruct (ho_sub _ Hok' _ _ _ _ Hx Hk) as (pr' & Hp' & _ & Hop).
    rewrite Hp in Hp'. injection Hp' as <-. rewrite Hop in Hcl; [done | set_solver].
Qed.

(** Alice pushes the same peer again: the first connection is closed. *)
Definition demo_repush : list act := demo_ready ++ [
  AEv (XMessage (peer_msg CmdPush "room1" "alice" "" "p1"))].

Lemma closed_stays_closed_witness :
  is_closed (demo_world (demo_repush ++ [AEv XKeepalive])) 15 ∧
  ∀ s x k, w_sess (demo_world (demo_repush ++ [AEv XKeepalive])) !! s = Some x →
    s_publishers x !! k ≠ Some 15%nat ∧ s_subscribers x !! k ≠ Some 15%nat.
Proof.
  apply (closed_stays_closed demo_conf (1000 * second) (demo_world demo_repush)).
  - apply (demo_run_reachable demo_repush). vm_compute. reflexivity.
  - apply (step_event _ _ XKeepalive); vm_compute; reflexivity.
  - eexists. split; vm_compute; reflexivity.
Defined.

(** C38. A StopPush message for a publisher that exists is never answered: the
    handler does not return, whatever the state of the server. *)
Theorem stoppush_never_returns `{GoRuntime, WebRTC, Amqp} c now w msg m r rx s x p :
  reachable c now w → m_regist (w_mgr w) = true →
  CreateJSONParser msg = Some m → GetValue m LabelCmd = CmdStopPush →
  m_rooms (w_mgr w) !! GetValue m LabelRoomId = Some r → w_rooms w !! r = Some rx →
  r_sessions rx !! GetValue m LabelSessID = Some s → w_sess w !! s = Some x →
  s_publishers x !! GetValue m LabelPeerID = Some p →
  ∃ reason w', run_event (XMessage msg) w = Stop reason w'.
Proof.
  intros Hr Hreg Hm Hc Hroom Hrx Hs Hx Hp.
  destruct (reachable_ok _ _ _ Hr) as [Hok HL].
  assert (run_event (XMessage msg) w =
    session_stoppush s (GetValue m LabelSessID) (GetValue m LabelPeerID) w) as E.
  { simpl. unfold roommgr_HandleMessage, handle_fields. rewrite Hm. simpl. rewrite Hc.
    unfold mbind, M_bind, gets. rewrite Hreg. simpl.
    unfold to_room, mgr_rooms, mbind, M_bind, gets. rewrite Hroom.
    unfold room_HandleMessage. rewrite Hc. simpl. unfold forward_or, mbind, M_bind.
    rewrite (room_sessions_run _ _ _ Hrx), Hs. unfold session_HandleMessage. by rewrite Hc. }
  rewrite E. destruct (session_stoppush _ _ _ w) as [[] w'|reason w'] eqn:Hrun; [|eauto].
  pose proof (session_stoppush_wp w s x (GetValue m LabelSessID) (GetValue m LabelPeerID)
                Hok Hx ltac:(rewrite HL; apply lookup_empty)) as Hwp.
  destruct (wp_run _ _ _ _ _ _ Hwp Hrun). congruence.
Qed.

Lemma stoppush_never_returns_witness :
  ∃ reason w', run_event (XMessage stoppush_msg) (demo_world demo_ready) = Stop reason w'.
Proof.
  apply (stoppush_never_returns demo_conf (1000 * second) (demo_world demo_ready) stoppush_msg
           (default ∅ (CreateJSONParser stoppush_msg)) 12 (the_room (demo_world demo_ready) 12)
           13 (the_sess (demo_world demo_ready) 13) 15);
    [exact demo_ready_reachable | vm_compute; reflexivity..].
Defined.
