(* ===== verification/Outputs.v ===== *)
(** * What the loops send

    The loops over the members of a room and over the peers of a session send
    messages or media.  Go visits a map in any order; the theorems say which
    messages are sent, up to that order. *)

From S2P Require Import Prelude GoLib Json Constants KeyframeFilter World Rmq Peer Notify Session.
From S2P Require Import Room Callbacks Server Demo Invariant PeerSafe Links SessionSafe RoomSafe.
From S2P Require Import Safety.

(** ** Worlds that differ by what was sent *)

(** [w'] is [w] after the events [es] have been sent. *)
Definition outs (w : world) (es : list event) (w' : world) : Prop :=
  ∃ n, w' = set_w_choice (λ _, n) (set_w_out (λ l, l ++ es) w).

Lemma outs_nil w n : outs w [] (set_w_choice n w).
Proof. exists (n (w_choice w)). destruct w. unfold set_w_choice, set_w_out. simpl. by rewrite app_nil_r. Qed.

Lemma outs_refl w : outs w [] w.
Proof. exists (w_choice w). destruct w. unfold set_w_choice, set_w_out. simpl. by rewrite app_nil_r. Qed.

Lemma outs_emit w e : outs w [e] (set_w_out (λ l, l ++ [e]) w).
Proof. exists (w_choice w). by destruct w. Qed.

Lemma outs_trans w w1 w2 es1 es2 : outs w es1 w1 → outs w1 es2 w2 → outs w (es1 ++ es2) w2.
Proof.
  intros [n ->] [k ->]. exists k. destruct w. unfold set_w_choice, set_w_out. simpl.
  by rewrite app_assoc.
Qed.

(** The objects are the same. *)
Lemma outs_same w es w' :
  outs w es w' →
  w_peers w' = w_peers w ∧ w_sess w' = w_sess w ∧ w_rooms w' = w_rooms w ∧
  w_conf w' = w_conf w ∧ w_rmq w' = w_rmq w ∧ w_locks w' = w_locks w ∧ w_mgr w' = w_mgr w ∧
  w_out w' = w_out w ++ es.
Proof. intros [n ->]. by destruct w. Qed.

(** A run that returns and sends [es]. *)
Definition sends (m : MW unit) (w : world) (es : list event) : Prop :=
  ∃ w', m w = Ret tt w' ∧ outs w es w'.

Lemma sends_skip w : sends skip w [].
Proof. exists w. split; [done | apply outs_refl]. Qed.

Lemma sends_emit w e : sends (emit e) w [e].
Proof. eexists. split; [done | apply outs_emit]. Qed.

Lemma sends_seq w (m1 m2 : MW unit) es1 es2 :
  sends m1 w es1 → (∀ w1, outs w es1 w1 → sends m2 w1 es2) →
  sends (_ ← m1; m2) w (es1 ++ es2).
Proof.
  intros (w1 & E1 & O1) H2. destruct (H2 _ O1) as (w2 & E2 & O2). exists w2.
  unfold mbind, M_bind. rewrite E1. split; [done | by eapply outs_trans].
Qed.

(** A read-locked section. *)
Lemma sends_rlocked w l (m : MW unit) es :
  w_locks w !! l = None → sends m (set_w_locks <[l := LRead 0]> w) es →
  sends (_ ← RLock l; _ ← m; RUnlock l) w es.
Proof.
  intros HL (w2 & E2 & [n ->]).
  exists (set_w_choice (λ _, n) (set_w_out (λ l, l ++ es) w)). split; [|by exists n].
  unfold RLock, RUnlock, mbind, M_bind, gets. rewrite HL. unfold modify. rewrite E2. simpl.
  rewrite lookup_insert_eq. destruct w. unfold set_w_choice, set_w_out, set_w_locks. simpl in *.
  by rewrite delete_insert_id.
Qed.

Section loops.
Context `{GoRuntime}.

Lemma range_map_unfold w (m : MW (gmap string nat)) body :
  range_map m body w =
  (m0 ← m;
   for_each (range_order (w_choice w) (elements (dom m0))) (λ k,
     m1 ← m; match m1 !! k with Some v => body k v | None => skip end)) (set_w_choice S w).
Proof. done. Qed.

(** A loop whose body sends [es k v] for the entry [(k, v)]. *)
Lemma sends_range w (m : MW (gmap string nat)) m0 body (es : string → nat → list event) :
  (∀ w' l, outs w l w' → m w' = Ret m0 w') →
  (∀ w' l k v, outs w l w' → m0 !! k = Some v → sends (body k v) w' (es k v)) →
  ∃ l, sends (range_map m body) w l ∧ l ≡ₚ (map_to_list m0 ≫= λ kv, es kv.1 kv.2).
Proof.
  intros Hm Hb.
  set (f := λ k, from_option (es k) [] (m0 !! k)).
  assert (∀ ks w1 l1, outs w l1 w1 →
    sends (for_each ks (λ k, m1 ← m; match m1 !! k with Some v => body k v | None => skip end)) w1
      (ks ≫= f)) as Hloop.
  { induction ks as [|k ks IH]; intros w1 l1 O1; simpl; [apply sends_skip|].
    apply sends_seq; [|intros w2 O2; eapply IH; by eapply outs_trans].
    destruct (m0 !! k) as [v|] eqn:Hk.
    - destruct (Hb _ _ _ _ O1 Hk) as (w2 & E2 & O2). exists w2. unfold mbind, M_bind.
      rewrite (Hm _ _ O1), Hk. unfold f. by rewrite Hk.
    - exists w1. unfold mbind, M_bind. rewrite (Hm _ _ O1), Hk. split; [done|].
      unfold f. rewrite Hk. apply outs_refl. }
  assert (outs w [] (set_w_choice S w)) as O1 by apply outs_nil.
  exists (range_order (w_choice w) (elements (dom m0)) ≫= f). split.
  - destruct (Hloop (range_order (w_choice w) (elements (dom m0))) _ _ O1) as (w2 & E2 & O2).
    exists w2. split; [|exact (outs_trans _ _ _ _ _ O1 O2)].
    rewrite range_map_unfold. unfold mbind at 1, M_bind at 1. rewrite (Hm _ _ O1). exact E2.
  - rewrite range_order_perm.
    transitivity ((map_to_list m0).*1 ≫= f).
    + apply bind_Permutation. apply NoDup_Permutation.
      * apply NoDup_elements.
      * apply NoDup_fst_map_to_list.
      * intros k. rewrite elem_of_elements, elem_of_dom, list_elem_of_fmap. split.
        -- intros [v Hv]. exists (k, v). by rewrite elem_of_map_to_list.
        -- intros [[k' v] [-> Hv%elem_of_map_to_list]]. by eexists.
    + apply reflexive_eq. clear.
      assert (∀ l : list (string * nat), (∀ kv, kv ∈ l → m0 !! kv.1 = Some kv.2) →
        (l.*1 ≫= f) = l ≫= λ kv, es kv.1 kv.2) as Hl.
      { induction l as [|[k v] l IH]; intros Hin; [done|].
        rewrite fmap_cons, !bind_cons, IH by set_solver. unfold f. simpl.
        specialize (Hin (k, v)). simpl in Hin. by rewrite Hin by set_solver. }
      apply Hl. intros [k v] Hkv%elem_of_map_to_list. done.
Qed.
End loops.

(** ** Media *)

Section media.
Context `{GoRuntime, WebRTC, Amqp}.

(** Reading an object of a world that has only sent something. *)
Lemma outs_get_peer {B} w l w' p pr (k : peer → MW B) :
  outs w l w' → w_peers w !! p = Some pr → (get_peer p ≫= k) w' = k pr w'.
Proof.
  intros O Hp. destruct (outs_same _ _ _ O) as (E & _).
  unfold get_peer, mbind, M_bind, gets. by rewrite E, Hp.
Qed.
Lemma outs_get_sess {B} w l w' s x (k : session → MW B) :
  outs w l w' → w_sess w !! s = Some x → (get_sess s ≫= k) w' = k x w'.
Proof.
  intros O Hp. destruct (outs_same _ _ _ O) as (_ & E & _).
  unfold get_sess, mbind, M_bind, gets. by rewrite E, Hp.
Qed.
Lemma outs_get_room {B} w l w' r x (k : room → MW B) :
  outs w l w' → w_rooms w !! r = Some x → (get_room r ≫= k) w' = k x w'.
Proof.
  intros O Hp. destruct (outs_same _ _ _ O) as (_ & _ & E & _).
  unfold get_room, mbind, M_bind, gets. by rewrite E, Hp.
Qed.

Lemma outs_sess_pubs w l w' s x :
  outs w l w' → w_sess w !! s = Some x → sess_pubs s w' = Ret (s_publishers x) w'.
Proof. intros O Hx. destruct (outs_same _ _ _ O) as (_ & E & _). apply sess_pubs_run. by rewrite E. Qed.
Lemma outs_sess_subs w l w' s x :
  outs w l w' → w_sess w !! s = Some x → sess_subs s w' = Ret (s_subscribers x) w'.
Proof. intros O Hx. destruct (outs_same _ _ _ O) as (_ & E & _). apply sess_subs_run. by rewrite E. Qed.
Lemma outs_room_sessions w l w' r x :
  outs w l w' → w_rooms w !! r = Some x → room_sessions r w' = Ret (r_sessions x) w'.
Proof. intros O Hx. destruct (outs_same _ _ _ O) as (_ & _ & E & _). apply room_sessions_run. by rewrite E. Qed.

(** What one subscriber gets: the packet, if its key contains the publisher's
    peer id and it has a track of that kind. *)
Definition media_of (w : world) (video : bool) (pid data : string) (k : string) (p : nat)
    : list event :=
  match w_peers w !! p with
  | Some pr =>
      if str_contains k pid && (if video then p_videoTrack pr else p_audioSender pr)
      then [EvTrackWrite p video data] else []
  | None => []
  end.

Lemma sends_track_write w p v d :
  (∀ n, wr_track_write n d = WOk) → sends (track_write p v d) w [EvTrackWrite p v d].
Proof.
  intros Hok. unfold track_write. exists (set_w_out (λ l, l ++ [EvTrackWrite p v d]) (set_w_choice S w)).
  unfold choose, mbind, M_bind, gets, modify, mret, M_ret. rewrite Hok. split; [done|].
  exists (S (w_choice w)). by destruct w.
Qed.

Context (w : world) (s : nat) (x : session).
Context (Hok : heap_ok ∅ w) (Hs : w_sess w !! s = Some x) (HL : w_locks w !! LSubs s = None).
Context (buff : string) (n : Z) (Hn : 0 <= n <= Z.of_nat (string_len buff)).
Context (Hwr : ∀ k, wr_track_write k (str_take (Z.to_nat n) buff) = WOk).

Lemma slice_to_ok w' : slice_to buff n w' = Ret (str_take (Z.to_nat n) buff) w'.
Proof.
  unfold slice_to. destruct (0 <=? n) eqn:E1; [|lia]. destruct (n <=? _) eqn:E2; [|lia]. done.
Qed.

(** The loop of OnReceivedAudioData and OnReceivedVideoData. *)
Lemma sends_media (video : bool) (pid : string) (deliver : nat → MW unit) :
  (∀ p pr w', w_peers w' !! p = Some pr →
     sends (deliver p) w'
       (if if video then p_videoTrack pr else p_audioSender pr
        then [EvTrackWrite p video (str_take (Z.to_nat n) buff)] else [])) →
  ∃ l, sends (_ ← RLock (LSubs s);
              _ ← range_map (sess_subs s) (λ key value,
                    if str_contains key pid then deliver value else skip);
              RUnlock (LSubs s)) w l ∧
    l ≡ₚ (map_to_list (s_subscribers x) ≫= λ kv,
            media_of w video pid (str_take (Z.to_nat n) buff) kv.1 kv.2).
Proof.
  intros Hd. set (w1 := set_w_locks <[LSubs s := LRead 0]> w).
  destruct (sends_range w1 (sess_subs s) (s_subscribers x)
    (λ key value, if str_contains key pid then deliver value else skip)
    (media_of w video pid (str_take (Z.to_nat n) buff))) as (l & Hl & Hperm).
  - intros w' l O. by eapply outs_sess_subs.
  - intros w' l k p O Hk. destruct (ho_sub _ Hok _ _ _ _ Hs Hk) as (pr & Hpr & _).
    unfold media_of. rewrite Hpr. destruct (str_contains k pid); [|apply sends_skip].
    apply Hd. destruct (outs_same _ _ _ O) as (-> & _). done.
  - exists l. split; [by apply sends_rlocked | done].
Qed.

Lemma sends_deliverVideoData p pr w' :
  w_peers w' !! p = Some pr →
  sends (deliverVideoData p buff n) w'
    (if p_videoTrack pr then [EvTrackWrite p true (str_take (Z.to_nat n) buff)] else []).
Proof.
  intros Hp. unfold sends, deliverVideoData. rewrite (outs_get_peer w' [] w' p pr) by (done || apply outs_refl).
  destruct (p_videoTrack pr); [|apply sends_skip].
  unfold mbind, M_bind. rewrite slice_to_ok. by apply sends_track_write.
Qed.
Lemma sends_deliverAudioData p pr w' :
  w_peers w' !! p = Some pr →
  sends (deliverAudioData p buff n) w'
    (if p_audioSender pr then [EvTrackWrite p false (str_take (Z.to_nat n) buff)] else []).
Proof.
  intros Hp. unfold sends, deliverAudioData. rewrite (outs_get_peer w' [] w' p pr) by (done || apply outs_refl).
  destruct (p_audioSender pr); [|apply sends_skip].
  unfold mbind, M_bind. rewrite slice_to_ok. by apply sends_track_write.
Qed.
End media.

(** C6. A video packet that a publisher receives, if the tracks take it, is
    written, once, to every subscriber of the session whose key contains the
    publisher's peer id and that has a video track, and to nobody else; nothing
    else changes. *)
Theorem video_fanout `{GoRuntime, WebRTC} w s x buff n pid :
  (∀ k, wr_track_write k (str_take (Z.to_nat n) buff) = WOk) →
  heap_ok ∅ w → w_sess w !! s = Some x → w_locks w !! LSubs s = None →
  0 <= n <= Z.of_nat (string_len buff) →
  ∃ l, sends (OnReceivedVideoData s buff n pid) w l ∧
    l ≡ₚ (map_to_list (s_subscribers x) ≫= λ kv,
            media_of w true pid (str_take (Z.to_nat n) buff) kv.1 kv.2).
Proof.
  intros Hwr Hok Hs HL Hn. apply (sends_media w s x Hok Hs HL buff n true).
  intros p pr w' Hp. by apply sends_deliverVideoData.
Qed.

(** The same for audio packets and the subscribers with an audio sender. *)
Theorem audio_fanout `{GoRuntime, WebRTC} w s x buff n pid :
  (∀ k, wr_track_write k (str_take (Z.to_nat n) buff) = WOk) →
  heap_ok ∅ w → w_sess w !! s = Some x → w_locks w !! LSubs s = None →
  0 <= n <= Z.of_nat (string_len buff) →
  ∃ l, sends (OnReceivedAudioData s buff n pid) w l ∧
    l ≡ₚ (map_to_list (s_subscribers x) ≫= λ kv,
            media_of w false pid (str_take (Z.to_nat n) buff) kv.1 kv.2).
Proof.
  intros Hwr Hok Hs HL Hn. apply (sends_media w s x Hok Hs HL buff n false).
  intros p pr w' Hp. by apply sends_deliverAudioData.
Qed.

(** No subscriber of a publisher is left out: in a well-formed memory, a
    subscriber with a video track that was made for the peer id [pid] gets
    every packet of [pid], because its key ends with [pid]. *)
Theorem subscribers_served `{GoRuntime, WebRTC} w s x buff n pid k p pr :
  (∀ k, wr_track_write k (str_take (Z.to_nat n) buff) = WOk) →
  heap_ok ∅ w → w_sess w !! s = Some x → w_locks w !! LSubs s = None →
  0 <= n <= Z.of_nat (string_len buff) →
  s_subscribers x !! k = Some p → w_peers w !! p = Some pr →
  p_peerid pr = pid → p_videoTrack pr = true →
  ∃ l, sends (OnReceivedVideoData s buff n pid) w l ∧
    EvTrackWrite p true (str_take (Z.to_nat n) buff) ∈ l.
Proof.
  intros Hwr Hok Hs HL Hn Hk Hp Hpid Hv.
  destruct (sends_media w s x Hok Hs HL buff n true pid (λ p, deliverVideoData p buff n))
    as (l & Hl & Hperm).
  { intros p' pr' w' Hp'. by apply sends_deliverVideoData. }
  exists l. split; [done|]. rewrite Hperm. apply list_elem_of_bind. exists (k, p). simpl.
  split; [|by apply elem_of_map_to_list]. unfold media_of. rewrite Hp.
  destruct (ho_sub _ Hok _ _ _ _ Hs Hk) as (pr' & Hp' & (_ & _ & Ek) & _).
  assert (pr' = pr) as -> by congruence.
  rewrite <- Ek, <- Hpid. unfold sub_key. rewrite string_app_assoc, str_contains_app, Hv.
  by apply list_elem_of_singleton.
Qed.

Lemma demo_sub_ok : heap_ok ∅ (demo_world demo_sub).
Proof.
  apply (reachable_ok demo_conf (1000 * second)), (demo_run_reachable demo_sub).
  vm_compute. reflexivity.
Qed.

Lemma video_fanout_witness :
  ∃ l, sends (OnReceivedVideoData 13 "data" 4 "p1") (demo_world demo_sub) l ∧
    l ≡ₚ (map_to_list (s_subscribers (the_sess (demo_world demo_sub) 13)) ≫= λ kv,
            media_of (demo_world demo_sub) true "p1" "data" kv.1 kv.2).
Proof.
  apply (video_fanout (demo_world demo_sub) 13 (the_sess (demo_world demo_sub) 13) "data" 4 "p1");
    [reflexivity | exact demo_sub_ok | vm_compute; reflexivity.. | simpl; lia].
Defined.

Lemma audio_fanout_witness :
  ∃ l, sends (OnReceivedAudioData 13 "data" 4 "p1") (demo_world demo_sub) l ∧
    l ≡ₚ (map_to_list (s_subscribers (the_sess (demo_world demo_sub) 13)) ≫= λ kv,
            media_of (demo_world demo_sub) false "p1" "data" kv.1 kv.2).
Proof.
  apply (audio_fanout (demo_world demo_sub) 13 (the_sess (demo_world demo_sub) 13) "data" 4 "p1");
    [reflexivity | exact demo_sub_ok | vm_compute; reflexivity.. | simpl; lia].
Defined.

Lemma subscribers_served_witness :
  ∃ l, sends (OnReceivedVideoData 13 "data" 4 "p1") (demo_world demo_sub) l ∧
    EvTrackWrite 16 true "data" ∈ l.
Proof.
  destruct (w_peers (demo_world demo_sub) !! 16%nat) as [pr|] eqn:Hpr; [|vm_compute in Hpr; done].
  apply (subscribers_served (demo_world demo_sub) 13 (the_sess (demo_world demo_sub) 13)
           "data" 4 "p1" "bobalicep1" 16 pr);
    [reflexivity | exact demo_sub_ok | vm_compute; reflexivity | vm_compute; reflexivity
    | simpl; lia | vm_compute; reflexivity | exact Hpr | |];
    vm_compute in Hpr; injection Hpr as <-; reflexivity.
Defined.

(** A subscriber of the peer p12 also gets the packets of the peer p1. *)
Definition demo_misdelivery : list act := demo_ready ++ [
  AEv (XMessage (peer_msg CmdPush "room1" "alice" "" "p12"));
  AEv (XMessage (peer_msg CmdOffer "room1" "alice" "" "p12"));
  AEv (XMessage (peer_msg CmdSub "room1" "bob" "alice" "p12"));
  AEv (XVideo 15 "data" 4 false)].

(** The test on keys is too wide: in a run where the only subscriber has
    subscribed to the peer p12, a packet of the peer p1 of the same user is
    written to it, since the key bobalicep12 contains p1. *)
Theorem media_misdelivery :
  ∃ w pr, demo_run demo_misdelivery = Ret tt w ∧
    w_peers w !! 17%nat = Some pr ∧ p_peerid pr = "p12" ∧
    p_peerid <$> w_peers w !! 15%nat = Some "p1" ∧
    last (w_out w) = Some (EvTrackWrite 17 true "data").
Proof.
  destruct (w_peers (demo_world demo_misdelivery) !! 17%nat) as [pr|] eqn:E;
    [|vm_compute in E; discriminate E].
  exists (demo_world demo_misdelivery), pr. split_and!; [vm_compute; reflexivity | exact E | | |].
  - vm_compute in E. injection E as <-. reflexivity.
  - vm_compute. reflexivity.
  - vm_compute. reflexivity.
Qed.

(** ** Notices to the members of a room *)

(** A message to a user, if the session is an original one. *)
Definition notice_of (w : world) (msg : string) (s : nat) : list event :=
  match w_sess w !! s with
  | Some x => if s_origin x then [EvMqtt (s_userid x) msg] else []
  | None => []
  end.

(** The broadcast exchange of the clusters takes messages. *)
Definition center_ready (w : world) : Prop :=
  ∃ x ex, exc_cross_cluster_bc (w_rmq w) = Some x ∧ mq_exchanges (w_rmq w) !! x = Some ex ∧
    x_msgChan ex = true ∧ x_producer ex = true.

Definition broadcast_events (w : world) (msg : string) : list event :=
  if center_connected (w_rmq w) then [EvAmqp "cross-cluster_broadcast" "cross-cluster" msg]
  else [].

Lemma sends_BroadcastCrossClusterMessage w msg :
  (center_connected (w_rmq w) = true → center_ready w) →
  sends (BroadcastCrossClusterMessage msg) w (broadcast_events w msg).
Proof.
  intros Hr. unfold broadcast_events, BroadcastCrossClusterMessage, sends.
  unfold mbind, M_bind, gets.
  destruct (center_connected (w_rmq w)) eqn:Ec; simpl; [|apply sends_skip].
  destruct Hr as (x & ex & Hx & Hex & E1 & E2); [done|].
  unfold send_msgChan, get_ex, mbind, M_bind, gets. rewrite Hx. simpl. rewrite Hex. simpl.
  rewrite E1, E2. simpl. apply sends_emit.
Qed.

Section room_notices.
Context `{GoRuntime}.
Context (w : world) (r : nat) (rx : room).
Context (Hok : heap_ok ∅ w) (Hr : w_rooms w !! r = Some rx).
Context (Hh : r_onSendMessageHandler rx = true).

(** A loop that sends [msg] to every original member. *)
Lemma sends_to_members msg (body : string → nat → MW unit) :
  (∀ k s x w' l, outs w l w' → w_sess w !! s = Some x →
     sends (body k s) w' (if s_origin x then [EvMqtt (s_userid x) msg] else [])) →
  ∃ l, sends (range_map (room_sessions r) body) w l ∧
    l ≡ₚ (map_to_list (r_sessions rx) ≫= λ kv, notice_of w msg kv.2).
Proof.
  intros Hb. apply (sends_range w (room_sessions r) (r_sessions rx) body (λ _, notice_of w msg)).
  - intros w' l O. by eapply outs_room_sessions.
  - intros w' l k s O Hk. destruct (ho_room _ Hok _ _ _ _ Hr Hk) as (x & Hx & _).
    unfold notice_of. rewrite Hx. by eapply Hb.
Qed.
End room_notices.

(** When a publisher stops, every original member of the room, and no
    fake one, is told once that the peer is unpublished; if the session of the
    publisher is an original one the other clusters are told too, once, while
    the shared broker is connected.  Nothing else changes. *)
Theorem unpublish_notice `{GoRuntime} w r rx origin sid pid :
  heap_ok ∅ w → w_rooms w !! r = Some rx → r_onSendMessageHandler rx = true →
  (center_connected (w_rmq w) = true → center_ready w) →
  ∃ l, sends (notifyStopPush r origin sid pid) w
         (l ++ if origin then
                 broadcast_events w (json_marshal [
                   (LabelCmd, GStr CmdFakeUnpublish);
                   (LabelClusterId, GStr (Clusterid (w_conf w)));
                   (LabelPodId, GStr (Uuid (w_conf w)));
                   (LabelRoomId, GStr (r_roomid rx));
                   (LabelSessID, GStr sid);
                   (LabelPeerID, GStr pid)])
               else []) ∧
    l ≡ₚ (map_to_list (r_sessions rx) ≫= λ kv,
            notice_of w (json_marshal [
              (LabelCmd, GStr CmdUnpub); (LabelRoomId, GStr (r_roomid rx));
              (LabelSessID, GStr sid); (LabelPeerID, GStr pid)]) kv.2).
Proof.
  intros Hok Hr Hh Hc.
  edestruct (sends_to_members w r rx Hok Hr) as (l & Hl & Hperm); cycle 1.
  - exists l. split; [|exact Hperm]. apply sends_seq; [exact Hl|]. intros w1 O1.
    destruct origin; [|apply sends_skip].
    destruct (outs_same _ _ _ O1) as (_ & _ & _ & Ec & Eq & _).
    unfold sends, mbind at 1, M_bind at 1, gets at 1. rewrite Ec.
    rewrite (outs_get_room _ _ _ _ _ _ O1 Hr).
    unfold broadcast_events. rewrite <- Eq. apply sends_BroadcastCrossClusterMessage.
    unfold center_ready. by rewrite Eq.
  - intros k s x w' l' O Hx. unfold sends. rewrite (outs_get_sess _ _ _ _ _ _ O Hx).
    destruct (s_origin x); [|apply sends_skip].
    rewrite (outs_get_room _ _ _ _ _ _ O Hr), Hh. apply sends_emit.
Qed.

(** When the connection of a publisher comes up, every original member of
    the room, and no fake one, is told once about the new stream. *)
Theorem publish_notice `{GoRuntime} w r rx sid name pid :
  heap_ok ∅ w → w_rooms w !! r = Some rx → r_onSendMessageHandler rx = true →
  ∃ l, sends (OnPublisherReady r sid name pid) w l ∧
    l ≡ₚ (map_to_list (r_sessions rx) ≫= λ kv,
            notice_of w (json_marshal [
              (LabelCmd, GStr CmdPub); (LabelRoomId, GStr (r_roomid rx));
              (LabelSessID, GStr sid); (LabelUserName, GStr name);
              (LabelPeerID, GStr pid)]) kv.2).
Proof.
  intros Hok Hr Hh. apply (sends_to_members w r rx Hok Hr).
  intros k s x w' l' O Hx. unfold sends. rewrite (outs_get_sess _ _ _ _ _ _ O Hx).
  destruct (s_origin x); [|apply sends_skip]. simpl.
  rewrite (outs_get_room _ _ _ _ _ _ O Hr), Hh. apply sends_emit.
Qed.

Lemma unpublish_notice_witness :
  ∃ l, sends (notifyStopPush 12 true "alice" "p1") (demo_world demo_sub)
         (l ++ broadcast_events (demo_world demo_sub) (json_marshal [
                   (LabelCmd, GStr CmdFakeUnpublish); (LabelClusterId, GStr "c1");
                   (LabelPodId, GStr "pod-1"); (LabelRoomId, GStr "room1");
                   (LabelSessID, GStr "alice"); (LabelPeerID, GStr "p1")])) ∧
    l ≡ₚ (map_to_list (r_sessions (the_room (demo_world demo_sub) 12)) ≫= λ kv,
            notice_of (demo_world demo_sub) (json_marshal [
              (LabelCmd, GStr CmdUnpub); (LabelRoomId, GStr "room1");
              (LabelSessID, GStr "alice"); (LabelPeerID, GStr "p1")]) kv.2).
Proof.
  apply (unpublish_notice (demo_world demo_sub) 12 (the_room (demo_world demo_sub) 12) true
           "alice" "p1"); [exact demo_sub_ok | vm_compute; reflexivity.. |].
  intros _. eexists _, _. split_and!; vm_compute; reflexivity.
Defined.

Lemma publish_notice_witness :
  ∃ l, sends (OnPublisherReady 12 "alice" "alice" "p1") (demo_world demo_sub) l ∧
    l ≡ₚ (map_to_list (r_sessions (the_room (demo_world demo_sub) 12)) ≫= λ kv,
            notice_of (demo_world demo_sub) (json_marshal [
              (LabelCmd, GStr CmdPub); (LabelRoomId, GStr "room1");
              (LabelSessID, GStr "alice"); (LabelUserName, GStr "alice");
              (LabelPeerID, GStr "p1")]) kv.2).
Proof.
  apply (publish_notice (demo_world demo_sub) 12 (the_room (demo_world demo_sub) 12)
           "alice" "alice" "p1"); [exact demo_sub_ok | vm_compute; reflexivity..].
Defined.

(** ** Application data *)

(** What a peer gets: the data, if it has a data channel and is not the peer
    the data comes from. *)
Definition app_of (w : world) (fromSid fromPid buff : string) (p : nat) : list event :=
  match w_peers w !! p with
  | Some pr =>
      if (bool_decide (p_userid pr ≠ fromSid) || bool_decide (p_peerid pr ≠ fromPid))
         && p_dataChannel pr
      then [EvDataSend p buff] else []
  | None => []
  end.

Lemma sends_broadcast_to w fromSid fromPid buff len p pr :
  w_peers w !! p = Some pr →
  sends (broadcast_to fromSid fromPid buff len p) w (app_of w fromSid fromPid buff p).
Proof.
  intros Hp. unfold sends, broadcast_to, app_of.
  rewrite (outs_get_peer w [] w p pr) by (done || apply outs_refl). rewrite Hp.
  destruct (bool_decide _ || bool_decide _); simpl; [|apply sends_skip].
  unfold deliverAppData. rewrite (outs_get_peer w [] w p pr) by (done || apply outs_refl).
  destruct (p_dataChannel pr); [apply sends_emit | apply sends_skip].
Qed.

Lemma sends_broadcast_loop `{GoRuntime} w (m : MW (gmap string nat)) m0 sid pid buff len :
  (∀ w' l, outs w l w' → m w' = Ret m0 w') →
  (∀ k p, m0 !! k = Some p → is_Some (w_peers w !! p)) →
  ∃ l, sends (range_map m (λ _ value, broadcast_to sid pid buff len value)) w l ∧
    l ≡ₚ (map_to_list m0 ≫= λ kv, app_of w sid pid buff kv.2).
Proof.
  intros Hm Hp. apply (sends_range w m m0 _ (λ _, app_of w sid pid buff)); [done|].
  intros w' l k p O Hk. destruct (Hp _ _ Hk) as [pr Hpr].
  destruct (outs_same _ _ _ O) as (E & _).
  replace (app_of w sid pid buff p) with (app_of w' sid pid buff p) by (unfold app_of; by rewrite E).
  eapply sends_broadcast_to. by rewrite E.
Qed.

(** Application data received from a peer is sent, once, to every other
    publisher and subscriber of the session that has a data channel, and not
    back to the peer it came from. *)
Theorem app_data_broadcast `{GoRuntime} w s x fromSid fromPid buff len :
  heap_ok ∅ w → w_sess w !! s = Some x → w_locks w = ∅ →
  ∃ l, sends (BroadcastAppData s fromSid fromPid buff len) w l ∧
    l ≡ₚ (map_to_list (s_publishers x) ++ map_to_list (s_subscribers x)) ≫= λ kv,
           app_of w fromSid fromPid buff kv.2.
Proof.
  intros Hok Hs HL. set (w1 := set_w_locks <[LPubs s := LRead 0]> w).
  destruct (sends_broadcast_loop w1 (sess_pubs s) (s_publishers x) fromSid fromPid buff len)
    as (l1 & H1 & P1).
  { intros w' l O. by eapply outs_sess_pubs. }
  { intros k p Hk. destruct (ho_pub _ Hok _ _ _ _ Hs Hk) as (pr & Hpr & _). by eexists. }
  destruct (sends_rlocked w (LPubs s) _ l1 ltac:(by rewrite HL) H1) as (w2 & E2 & O2).
  destruct (outs_same _ _ _ O2) as (Ep & Es & _ & _ & _ & EL & _).
  set (w3 := set_w_locks <[LSubs s := LRead 0]> w2).
  destruct (sends_broadcast_loop w3 (sess_subs s) (s_subscribers x) fromSid fromPid buff len)
    as (l2 & H2 & P2).
  { intros w' l O. eapply outs_sess_subs; [done|]. simpl. by rewrite Es. }
  { intros k p Hk. simpl. rewrite Ep. destruct (ho_sub _ Hok _ _ _ _ Hs Hk) as (pr & Hpr & _).
    by eexists. }
  destruct (sends_rlocked w2 (LSubs s) _ l2 ltac:(by rewrite EL, HL) H2) as (w4 & E4 & O4).
  exists (l1 ++ l2). split.
  - exists w4. split; [|by eapply outs_trans]. unfold BroadcastAppData.
    unfold mbind, M_bind in E2, E4 |- *. destruct (RLock (LPubs s) w); [|done].
    destruct (range_map _ _ _); [|done]. rewrite E2. exact E4.
  - rewrite bind_app, P1, P2. apply reflexive_eq. f_equal.
    unfold app_of. simpl. by rewrite Ep.
Qed.

Lemma app_data_broadcast_witness :
  ∃ l, sends (BroadcastAppData 13 "alice" "p1" "hello" 5) (demo_world demo_sub) l ∧
    l ≡ₚ (map_to_list (s_publishers (the_sess (demo_world demo_sub) 13)) ++
          map_to_list (s_subscribers (the_sess (demo_world demo_sub) 13))) ≫= λ kv,
           app_of (demo_world demo_sub) "alice" "p1" "hello" kv.2.
Proof.
  apply (app_data_broadcast (demo_world demo_sub) 13 (the_sess (demo_world demo_sub) 13)
           "alice" "p1" "hello" 5); [exact demo_sub_ok | vm_compute; reflexivity..].
Defined.
