(* ===== verification/Dispatch.v ===== *)
(** * What the room manager does with a message

    Registration with the load balancer, the refusals, the broadcasts of this
    pod that come back, the login that creates a room. *)

From S2P Require Import Prelude GoLib Json Constants KeyframeFilter World Rmq Peer Notify Session.
From S2P Require Import Room RoomMgr Callbacks Server Demo Invariant PeerSafe Links SessionSafe.
From S2P Require Import RoomSafe RoomMgrSafe Safety Outputs.

(** The fields of a message, as HandleMessage sees them. *)
Definition fields `{GoRuntime} (msg : string) : jsonparser := default ∅ (CreateJSONParser msg).

(** C24. Once the send handler is installed, and until the load balancer has
    accepted the pod, every message but the two of the registration, well formed
    or not, is answered by one reply that the service is not available, and
    changes nothing. *)
Theorem unregistered_refuses `{GoRuntime, WebRTC} w msg :
  m_regist (w_mgr w) = false → m_onSendMessageHandler (w_mgr w) = true →
  GetValue (fields msg) LabelCmd ≠ CmdPodRegist →
  GetValue (fields msg) LabelCmd ≠ CmdPodRegistNow →
  sends (roommgr_HandleMessage msg) w
    [EvMqtt (GetValue (fields msg) LabelSessID) (json_marshal [
       (LabelCmd, GStr (GetValue (fields msg) LabelCmd));
       (LabelSessID, GStr (GetValue (fields msg) LabelSessID));
       (LabelCode, GInt CodeNotAvailable);
       (LabelDesc, GStr DescNotAvailable)])].
Proof.
  intros Hreg Hh H1 H2. unfold sends, roommgr_HandleMessage, handle_fields. fold (fields msg).
  unfold mbind at 1, M_bind at 1, gets at 1. rewrite Hreg. simpl.
  rewrite decide_False by done. rewrite decide_False by done.
  unfold notifyServiceNotAvailable, mbind, M_bind, gets. rewrite Hh. apply sends_emit.
Qed.

(** A pod of a cluster: its topic is a uuid, so it has to register. *)
Definition demo_unregistered : world :=
  set_w_mgr (λ _, MkRoomMgr ∅ false 1 true) (init_world demo_conf (1000 * second)).

Lemma unregistered_refuses_witness :
  sends (roommgr_HandleMessage (login_msg "room1" "alice")) demo_unregistered
    [EvMqtt "alice" (json_marshal [
       (LabelCmd, GStr CmdLogin); (LabelSessID, GStr "alice");
       (LabelCode, GInt CodeNotAvailable); (LabelDesc, GStr DescNotAvailable)])].
Proof.
  apply (unregistered_refuses demo_unregistered (login_msg "room1" "alice"));
    [reflexivity | reflexivity | |]; vm_compute; discriminate.
Defined.

(** A broadcast to the clusters comes back to the pod that sent it: the
    messages about rooms and publishers that carry this pod's id change
    nothing. *)
Theorem own_broadcast_ignored `{GoRuntime, WebRTC} w msg :
  m_regist (w_mgr w) = true →
  GetValue (fields msg) LabelCmd ∈ [CmdRoomCreated; CmdFakePublish; CmdFakeUnpublish] →
  GetValue (fields msg) LabelPodId = Uuid (w_conf w) →
  roommgr_HandleMessage msg w = Ret tt w.
Proof.
  intros Hreg Hc Hp. unfold roommgr_HandleMessage, handle_fields. fold (fields msg).
  unfold mbind at 1, M_bind at 1, gets at 1. rewrite Hreg. simpl.
  rewrite !elem_of_cons, elem_of_nil in Hc.
  destruct Hc as [->|[->|[->|[]]]]; simpl; unfold mbind, M_bind, gets; by rewrite decide_False by (intros Hn; exact (Hn Hp)).
Qed.

Definition own_msg : string :=
  json_marshal [(LabelCmd, GStr CmdFakePublish); (LabelPodId, GStr "pod-1");
    (LabelRoomId, GStr "room1"); (LabelSessID, GStr "alice"); (LabelPeerID, GStr "p1")].

Lemma own_broadcast_ignored_witness :
  roommgr_HandleMessage own_msg (demo_world demo_ready) = Ret tt (demo_world demo_ready).
Proof.
  apply (own_broadcast_ignored (demo_world demo_ready) own_msg);
    [vm_compute; reflexivity | | vm_compute; reflexivity].
  assert (GetValue (fields own_msg) LabelCmd = CmdFakePublish) as -> by (vm_compute; reflexivity).
  rewrite !elem_of_cons. right. left. reflexivity.
Defined.

(** A command for a room that does not exist is answered by one reply
    that the user is not logged in, and changes nothing. *)
Theorem no_room_reply `{GoRuntime, WebRTC} w msg :
  m_regist (w_mgr w) = true → m_onSendMessageHandler (w_mgr w) = true →
  client_command (GetValue (fields msg) LabelCmd) = true →
  m_rooms (w_mgr w) !! GetValue (fields msg) LabelRoomId = None →
  sends (roommgr_HandleMessage msg) w
    [EvMqtt (GetValue (fields msg) LabelSessID) (json_marshal [
       (LabelCmd, GStr (GetValue (fields msg) LabelCmd));
       (LabelSessID, GStr (GetValue (fields msg) LabelSessID));
       (LabelCode, GInt CodeNotLogin);
       (LabelDesc, GStr DescNotLogin)])].
Proof.
  intros Hreg Hh Hc Hr. unfold sends, roommgr_HandleMessage, handle_fields. fold (fields msg).
  unfold mbind at 1, M_bind at 1, gets at 1. rewrite Hreg. simpl.
  rewrite decide_False; [|intros E; rewrite E in Hc; vm_compute in Hc; discriminate].
  rewrite Hc. unfold to_room, mgr_rooms, mbind, M_bind, gets. rewrite Hr.
  unfold roommgr_notifyNotLogin, mbind, M_bind, gets. rewrite Hh. apply sends_emit.
Qed.

Lemma no_room_reply_witness :
  sends (roommgr_HandleMessage (peer_msg CmdSub "room9" "bob" "alice" "p1")) (demo_world demo_ready)
    [EvMqtt "bob" (json_marshal [
       (LabelCmd, GStr CmdSub); (LabelSessID, GStr "bob");
       (LabelCode, GInt CodeNotLogin); (LabelDesc, GStr DescNotLogin)])].
Proof.
  apply (no_room_reply (demo_world demo_ready) (peer_msg CmdSub "room9" "bob" "alice" "p1"));
    vm_compute; reflexivity.
Defined.

(** ** Registration *)

(** An accepting answer of the load balancer. *)
Definition accepted (m : jsonparser) (cid : string) : Prop :=
  GetValue m LabelCmd = CmdPodRegist ∧
  (m !! LabelCode = None ∨ ∃ d, m !! LabelCode = Some (GFloat d) ∧ dec_is_zero d = true) ∧
  GetValue m LabelClusterId = cid ∧ cid ≠ "".

Lemma accepted_code m cid :
  accepted m cid →
  ∃ d, dec_is_zero d = true ∧ ∀ w : world, GetIntValue m LabelCode w = Ret d w.
Proof.
  unfold GetIntValue. intros (_ & [->|(d & -> & Hd)] & _); [by exists dec_zero | by exists d].
Qed.

(** The accepting answer registers a pod that is registering: the pod
    takes the cluster id it is given, one registration goroutine ends, and the
    pod serves clients from then on; nothing is sent. *)
Theorem registration_completes `{GoRuntime, WebRTC} w msg cid n :
  m_regist (w_mgr w) = false → m_registrars (w_mgr w) = S n → accepted (fields msg) cid →
  ∃ w', roommgr_HandleMessage msg w = Ret tt w' ∧
    m_regist (w_mgr w') = true ∧ m_registrars (w_mgr w') = n ∧
    Clusterid (w_conf w') = cid ∧ w_out w' = w_out w ∧ m_rooms (w_mgr w') = m_rooms (w_mgr w).
Proof.
  intros Hreg Hn Ha. destruct (accepted_code _ _ Ha) as (d & Hd & E).
  destruct Ha as (Hc & _ & Hcid & Hne).
  unfold roommgr_HandleMessage, handle_fields. fold (fields msg).
  unfold mbind at 1, M_bind at 1, gets at 1. rewrite Hreg, Hc. simpl.
  unfold handle_pod_regist, mbind, M_bind, gets. rewrite E, Hd, Hcid.
  rewrite decide_True by done. unfold modify, upd_mgr.
  unfold send_stopRegist, mbind, M_bind, gets. simpl. rewrite Hn. eexists. split; [done|]. done.
Qed.

Definition accept_msg : string :=
  json_marshal [(LabelCmd, GStr CmdPodRegist); (LabelClusterId, GStr "c7"); (LabelCode, GInt 0)].

Lemma accept_msg_accepted : accepted (fields accept_msg) "c7".
Proof.
  split_and!; [vm_compute; reflexivity | right | vm_compute; reflexivity | discriminate].
  eexists. split; vm_compute; reflexivity.
Qed.

Lemma registration_completes_witness :
  ∃ w', roommgr_HandleMessage accept_msg demo_unregistered = Ret tt w' ∧
    m_regist (w_mgr w') = true ∧ m_registrars (w_mgr w') = 0%nat ∧
    Clusterid (w_conf w') = "c7" ∧ w_out w' = [] ∧ m_rooms (w_mgr w') = ∅.
Proof.
  apply (registration_completes demo_unregistered accept_msg "c7" 0);
    [reflexivity | reflexivity | exact accept_msg_accepted].
Defined.

(** A second accepting answer, when the pod is registered and no
    registration goroutine is left, blocks the goroutine that handles it for
    good: it sends on a channel nobody reads. *)
Theorem second_answer_blocks `{GoRuntime, WebRTC} w msg cid :
  m_regist (w_mgr w) = true → m_registrars (w_mgr w) = 0%nat → accepted (fields msg) cid →
  ∃ w', roommgr_HandleMessage msg w = Stop (HChan CStopRegist) w'.
Proof.
  intros Hreg Hn Ha. destruct (accepted_code _ _ Ha) as (d & Hd & E).
  destruct Ha as (Hc & _ & Hcid & Hne).
  unfold roommgr_HandleMessage, handle_fields. fold (fields msg).
  unfold mbind at 1, M_bind at 1, gets at 1. rewrite Hreg, Hc. simpl.
  unfold handle_pod_regist, mbind, M_bind, gets. rewrite E, Hd, Hcid.
  rewrite decide_True by done. unfold modify, upd_mgr.
  unfold send_stopRegist, mbind, M_bind, gets. simpl. rewrite Hn. eexists. done.
Qed.

Lemma second_answer_blocks_witness :
  ∃ w', roommgr_HandleMessage accept_msg (demo_world demo_ready) = Stop (HChan CStopRegist) w'.
Proof.
  apply (second_answer_blocks (demo_world demo_ready) accept_msg "c7");
    [vm_compute; reflexivity | vm_compute; reflexivity | exact accept_msg_accepted].
Defined.

(** ** Rooms *)

(** A range loop that only reads finds an entry iff there is one, whatever
    the order. *)
Lemma find_first_reads {A B} (w : world) (m : MW (gmap string A)) m0 ks
    (body : string → A → MW (option B)) (f : string → A → option B) :
  m w = Ret m0 w → (∀ k v, m0 !! k = Some v → body k v w = Ret (f k v) w) →
  ∃ o, find_first m ks body w = Ret o w ∧
    (is_Some o ↔ ∃ k v, k ∈ ks ∧ m0 !! k = Some v ∧ is_Some (f k v)).
Proof.
  intros Hm Hb. induction ks as [|k ks (o & Ho & IH)]; simpl.
  - exists None. split; [done|]. split; [by intros []|]. by intros (k & v & []%elem_of_nil & _).
  - unfold mbind, M_bind. rewrite Hm. destruct (m0 !! k) as [v|] eqn:Hk.
    + rewrite (Hb _ _ Hk). destruct (f k v) as [b|] eqn:Hf.
      * exists (Some b). split; [done|]. split; [|done]. intros _. exists k, v.
        rewrite Hf. split_and!; [by left | done | done].
      * exists o. split; [done|]. rewrite IH. split.
        -- intros (k' & v' & ? & ? & ?). exists k', v'. split_and!; [by right | done | done].
        -- intros (k' & v' & [->|?]%elem_of_cons & Hk' & Hf'); [|by exists k', v'].
           assert (v' = v) as -> by congruence. rewrite Hf in Hf'. by destruct Hf'.
    + exists o. split; [done|]. rewrite IH. split.
      * intros (k' & v' & ? & ? & ?). exists k', v'. split_and!; [by right | done | done].
      * intros (k' & v' & [->|?]%elem_of_cons & Hk' & Hf'); [congruence | by exists k', v'].
Qed.

Lemma range_find_unfold `{GoRuntime} {B} w (m : MW (gmap string nat))
    (body : string → nat → MW (option B)) :
  range_find m body w =
  (m0 ← m; find_first m (range_order (w_choice w) (elements (dom m0))) body) (set_w_choice S w).
Proof. done. Qed.

(** hasOriginSession answers whether a member of the room is an original
    session, whatever the order in which Go visits the members; it changes
    nothing. *)
Theorem hasOriginSession_spec `{GoRuntime} w r rx :
  heap_ok ∅ w → w_rooms w !! r = Some rx → w_locks w !! LSessions r = None →
  ∃ b w', hasOriginSession r w = Ret b w' ∧ outs w [] w' ∧
    (b = true ↔ ∃ k s x, r_sessions rx !! k = Some s ∧ w_sess w !! s = Some x ∧ s_origin x = true).
Proof.
  intros Hok Hr HL. set (w1 := set_w_choice S (set_w_locks <[LSessions r := LRead 0]> w)).
  destruct (find_first_reads w1 (room_sessions r) (r_sessions rx)
    (range_order (w_choice w) (elements (dom (r_sessions rx))))
    (λ _ sess, x ← get_sess sess; mret (if s_origin x then Some tt else None))
    (λ _ sess, x ← w_sess w !! sess; if s_origin x then Some tt else None)) as (o & Ho & Hiff).
  - by apply room_sessions_run.
  - intros k s Hk. destruct (ho_room _ Hok _ _ _ _ Hr Hk) as (x & Hx & _).
    unfold get_sess, mbind, M_bind, gets. simpl. by rewrite Hx.
  - exists (match o with Some _ => true | None => false end), (set_w_choice S w).
    split_and!; [|apply outs_nil|].
    + assert (RLock (LSessions r) w = Ret tt (set_w_locks <[LSessions r := LRead 0]> w)) as E1
        by (unfold RLock, mbind, M_bind, gets; by rewrite HL).
      assert (RUnlock (LSessions r) w1 = Ret tt (set_w_choice S w)) as E2.
      { unfold RUnlock, mbind, M_bind, gets. simpl. rewrite lookup_insert_eq.
        unfold modify. f_equal. destruct w. unfold set_w_choice, set_w_locks. simpl in *.
        by rewrite delete_insert_id. }
      assert (range_find (room_sessions r)
        (λ _ sess, x ← get_sess sess; mret (if s_origin x then Some tt else None))
        (set_w_locks <[LSessions r := LRead 0]> w) = Ret o w1) as E3.
      { rewrite range_find_unfold. rewrite (bind_ret _ _ _ _ _ (room_sessions_run w1 r rx Hr)).
        exact Ho. }
      unfold hasOriginSession. rewrite (bind_ret _ _ _ _ _ E1). cbv beta.
      rewrite (bind_ret _ _ _ _ _ E3). cbv beta. by rewrite (bind_ret _ _ _ _ _ E2).
    + transitivity (is_Some o); [destruct o as [[]|]; split; try done; by intros []|]. rewrite Hiff. split.
      * intros (k & s & _ & Hk & [u Hf]). destruct (w_sess w !! s) as [x|] eqn:Hx; [|done].
        simpl in Hf. exists k, s, x. split_and!; [done | done |]. by destruct (s_origin x).
      * intros (k & s & x & Hk & Hx & Ho'). exists k, s. split_and!.
        -- rewrite range_order_perm. apply elem_of_elements, elem_of_dom. by eexists.
        -- done.
        -- rewrite Hx. simpl. by rewrite Ho'.
Qed.

Lemma hasOriginSession_spec_witness :
  ∃ b w', hasOriginSession 12 (demo_world demo_ready) = Ret b w' ∧
    outs (demo_world demo_ready) [] w' ∧
    (b = true ↔ ∃ k s x, r_sessions (the_room (demo_world demo_ready) 12) !! k = Some s ∧
       w_sess (demo_world demo_ready) !! s = Some x ∧ s_origin x = true).
Proof.
  apply (hasOriginSession_spec (demo_world demo_ready) 12 (the_room (demo_world demo_ready) 12));
    [apply (reachable_ok _ _ _ demo_ready_reachable) | vm_compute; reflexivity..].
Defined.

(** ** Login *)

(** Rules for the steps of a run, on exact states. *)
Section steps.
Context (w : world) (Q : unit → world → Prop) (E : stop → world → Prop).

Lemma wp_sends m es : sends m w es → (∀ w', outs w es w' → Q tt w') → wp m Q E w.
Proof. intros (w' & E' & O) Hk. unfold wp. rewrite E'. by apply Hk. Qed.
Lemma wp_Lock_free l :
  w_locks w !! l = None → Q tt (set_w_locks <[l := LWrite]> w) → wp (Lock l) Q E w.
Proof. intros HL Hk. unfold Lock. apply wp_bind, wp_gets. by rewrite HL. Qed.
Lemma wp_Unlock_held l :
  w_locks w !! l = Some LWrite → Q tt (set_w_locks (delete l) w) → wp (Unlock l) Q E w.
Proof. intros HL Hk. unfold Unlock. apply wp_bind, wp_gets. by rewrite HL. Qed.
Lemma wp_RLock_free l :
  w_locks w !! l = None → Q tt (set_w_locks <[l := LRead 0]> w) → wp (RLock l) Q E w.
Proof. intros HL Hk. unfold RLock. apply wp_bind, wp_gets. by rewrite HL. Qed.
Lemma wp_RUnlock_held l :
  w_locks w !! l = Some (LRead 0) → Q tt (set_w_locks (delete l) w) → wp (RUnlock l) Q E w.
Proof. intros HL Hk. unfold RUnlock. apply wp_bind, wp_gets. by rewrite HL. Qed.
End steps.

Ltac wp_steps :=
  repeat lazymatch goal with
  | |- wp (_ ≫= _) _ _ _ => apply wp_bind
  | |- wp (gets _) _ _ _ => apply wp_gets
  | |- wp (modify _) _ _ _ => apply wp_modify
  | |- wp (mret _) _ _ _ => apply wp_ret
  end.

(** A session with no publisher. *)
Lemma hasPublisher_none `{GoRuntime} w s x :
  w_sess w !! s = Some x → s_publishers x = ∅ → w_locks w !! LPubs s = None →
  ∃ w', hasPublisher s w = Ret None w' ∧ outs w [] w'.
Proof.
  intros Hs Hp HL. set (w1 := set_w_locks <[LPubs s := LRead 0]> w).
  assert (RLock (LPubs s) w = Ret tt w1) as E1
    by (unfold RLock, mbind, M_bind, gets; by rewrite HL).
  assert (RUnlock (LPubs s) (set_w_choice S w1) = Ret tt (set_w_choice S w)) as E2.
  { unfold RUnlock, mbind, M_bind, gets. simpl. rewrite lookup_insert_eq.
    unfold modify. f_equal. destruct w. unfold w1, set_w_choice, set_w_locks. simpl in *.
    by rewrite delete_insert_id. }
  assert (first_ready s w1 = Ret None (set_w_choice S w1)) as E3.
  { unfold first_ready. rewrite range_find_unfold.
    rewrite (bind_ret _ _ _ _ _ (sess_pubs_run (set_w_choice S w1) s x Hs)), Hp.
    assert (range_order (w_choice w1) (elements (dom (∅ : gmap string nat))) = []) as ->; [|done].
    apply Permutation_nil_r. rewrite range_order_perm, dom_empty_L. by rewrite elements_empty. }
  exists (set_w_choice S w). split; [|apply outs_nil].
  unfold hasPublisher. rewrite (bind_ret _ _ _ _ _ E1). cbv beta.
  rewrite (bind_ret _ _ _ _ _ E3). cbv beta. by rewrite (bind_ret _ _ _ _ _ E2).
Qed.

(** The new room and the new session of a login. *)
Definition login_room (rid u : string) (s : nat) : room := MkRoom rid {[u := s]} true.
Definition login_session (u name : string) (r : nat) (t : Z) : session :=
  MkSession u name "" "" true ∅ ∅ true 0 [] r t.

(** The login of the first user of a room, in the room. *)
Lemma room_login_first `{GoRuntime, WebRTC} w r rid j u :
  w_rooms w !! r = Some (MkRoom rid ∅ true) → w_locks w = ∅ → w_sess w !! w_next w = None →
  wp (room_login r j u)
    (λ _ w', w_rooms w' !! r = Some (login_room rid u (w_next w)) ∧
       w_sess w' !! w_next w = Some (login_session u (GetValue j LabelUserName) r (w_now w / second)) ∧
       w_mgr w' = w_mgr w ∧ w_locks w' = ∅ ∧
       w_out w' = w_out w ++ [EvMqtt u (json_marshal [
         (LabelCmd, GStr CmdLogin); (LabelSessID, GStr u); (LabelCode, GInt 0)])])
    (λ _ _, False) w.
Proof.
  intros Hr HL Hs. unfold room_login.
  assert (leave_previous r u w = Ret tt w) as E1.
  { unfold leave_previous. rewrite (bind_ret _ _ _ _ _ (room_sessions_run w r _ Hr)). done. }
  apply wp_bind. unfold wp at 1. rewrite E1.
  unfold get_room. apply wp_bind, wp_bind, wp_gets. rewrite Hr. simpl. apply wp_ret.
  unfold CreateSession, alloc_sess, now_unix. wp_steps. simpl.
  apply wp_Lock_free; [simpl; rewrite HL; apply lookup_empty|].
  unfold put_session, upd_room. wp_steps. apply wp_Unlock_held; [simpl; apply lookup_insert_eq|].
  wp_steps. unfold call_handler, emit. wp_steps.
  match goal with |- wp _ _ _ ?w1 => set (w2 := w1) end.
  assert (w_rooms w2 !! r = Some (login_room rid u (w_next w))) as Hr2.
  { subst w2. simpl. rewrite lookup_alter_eq, Hr. simpl. f_equal. }
  assert (w_sess w2 !! w_next w =
    Some (login_session u (GetValue j LabelUserName) r (w_now w / second))) as Hs2.
  { subst w2. simpl. by rewrite lookup_insert_eq. }
  assert (w_locks w2 = ∅) as HL2.
  { subst w2. simpl. rewrite HL. by rewrite delete_insert_id. }
  assert (w_mgr w2 = w_mgr w ∧ w_out w2 = w_out w ++ [EvMqtt u (json_marshal [
         (LabelCmd, GStr CmdLogin); (LabelSessID, GStr u); (LabelCode, GInt 0)])]) as [Hm2 Ho2]
    by done.
  clearbody w2.
  eapply (wp_sends _ _ _ _ []).
  - edestruct (sends_range w2 (room_sessions r) {[u := w_next w]}) as (l & Hl & Hperm); cycle 2.
    + assert (l = []) as ->; [|exact Hl]. apply Permutation_nil_r. rewrite Hperm.
      rewrite map_to_list_singleton. simpl. by instantiate (1 := λ _ _, []).
    + intros w' l O. exact (outs_room_sessions _ _ _ _ _ O Hr2).
    + intros w' l k s O [<- <-]%lookup_singleton_Some.
      destruct (outs_same _ _ _ O) as (_ & Es & _ & _ & _ & EL & _).
      destruct (hasPublisher_none w' (w_next w) (login_session u (GetValue j LabelUserName) r (w_now w / second)))
        as (w3 & E3 & O3); [by rewrite Es | done | by rewrite EL, HL2 |].
      exists w3. split; [|exact O3]. by rewrite (bind_ret _ _ _ _ _ E3).
  - intros w' O. destruct (outs_same _ _ _ O) as (_ & -> & -> & _ & _ & -> & -> & ->).
    rewrite app_nil_r. by split_and!.
Qed.

(** The effect of a first login: the room [r] and the session [s] are new. *)
Record room_opened (w : world) (m : jsonparser) (r s : nat) (w' : world) : Prop := {
  ro_rooms : m_rooms (w_mgr w') = <[GetValue m LabelRoomId := r]> (m_rooms (w_mgr w));
  ro_room : w_rooms w' !! r =
    Some (login_room (GetValue m LabelRoomId) (GetValue m LabelSessID) s);
  ro_sess : w_sess w' !! s =
    Some (login_session (GetValue m LabelSessID) (GetValue m LabelUserName) r (w_now w / second));
  ro_locks : w_locks w' = ∅;
  ro_out : w_out w' = w_out w ++
    broadcast_events w (json_marshal [
      (LabelCmd, GStr CmdRoomCreated); (LabelClusterId, GStr (Clusterid (w_conf w)));
      (LabelPodId, GStr (Uuid (w_conf w))); (LabelRoomId, GStr (GetValue m LabelRoomId));
      (LabelSessID, GStr (GetValue m LabelSessID));
      (LabelSN, GInt (to_uint64 (sn (w_conf w) + 1)));
      (LabelTimestamp, GInt (w_now w / second))]) ++
    [EvMqtt (GetValue m LabelSessID) (json_marshal [
       (LabelCmd, GStr CmdLogin); (LabelSessID, GStr (GetValue m LabelSessID));
       (LabelCode, GInt 0)])];
}.

Lemma login_wp `{GoRuntime, WebRTC} w m :
  heap_ok ∅ w → w_locks w = ∅ → m_onSendMessageHandler (w_mgr w) = true →
  GetValue m LabelCmd = CmdLogin → m_rooms (w_mgr w) !! GetValue m LabelRoomId = None →
  (center_connected (w_rmq w) = true → center_ready w) →
  wp (roommgr_login m (GetValue m LabelRoomId)) (λ _ w', ∃ r s, room_opened w m r s w')
    (λ _ _, False) w.
Proof.
  intros Hok HL Hh Hc Hr Hcen. unfold roommgr_login. apply wp_bind, wp_gets. rewrite Hr.
  unfold create_room_for, CreateRoom, alloc_room, room_SetSendMessageHandler, upd_room, upd_mgr.
  wp_steps. apply wp_Lock_free; [simpl; rewrite HL; apply lookup_empty|].
  wp_steps. apply wp_Unlock_held; [simpl; apply lookup_insert_eq|].
  unfold GetSn, now_unix. wp_steps. simpl. rewrite Hh.
  match goal with |- wp _ _ _ ?w1 => set (w2 := w1) end.
  assert (w_rooms w2 !! w_next w = Some (MkRoom (GetValue m LabelRoomId) ∅ true)) as Hr2
    by (subst w2; simpl; by rewrite lookup_alter_eq, lookup_insert_eq).
  assert (w_locks w2 = ∅) as HL2 by (subst w2; simpl; rewrite HL; by rewrite delete_insert_id).
  eapply wp_sends; [by apply sends_BroadcastCrossClusterMessage|]. intros w3 O3.
  destruct (outs_same _ _ _ O3) as (_ & Es3 & Er3 & Ec3 & Eq3 & EL3 & Em3 & Eo3).
  assert (w_next w3 = S (w_next w) ∧ w_now w3 = w_now w) as [En3 Et3]
    by (destruct O3 as [c ->]; done).
  wp_steps. apply wp_RLock_free; [by rewrite EL3, HL2|]. unfold mgr_rooms. wp_steps.
  apply wp_RUnlock_held; [simpl; apply lookup_insert_eq|]. wp_steps.
  simpl. rewrite Em3. simpl. rewrite lookup_insert_eq.
  apply wp_from_some; [|done]. intros r [= <-].
  unfold room_HandleMessage. rewrite Hc. simpl.
  set (w4 := set_w_locks _ (set_w_locks _ w3)).
  assert (w_locks w4 = ∅) as HL4 by (subst w4; simpl; rewrite EL3, HL2; by rewrite delete_insert_id).
  eapply wp_mono; [eapply (room_login_first w4 (w_next w)) | | done].
  - subst w4. simpl. rewrite Er3. exact Hr2.
  - exact HL4.
  - subst w4. simpl. rewrite Es3, En3. destruct (w_sess w2 !! S (w_next w)) eqn:E; [|done].
    pose proof (ho_next_s _ Hok (S (w_next w)) (mk_is_Some _ _ E)). lia.
  - intros _ w' (? & Hs' & Hm' & HL' & Ho'). exists (w_next w), (w_next w4). split.
    + rewrite Hm'. subst w4. simpl. by rewrite Em3.
    + done.
    + rewrite Hs'. subst w4. simpl. by rewrite Et3.
    + done.
    + rewrite Ho'. subst w4. simpl. rewrite Eo3. by rewrite app_assoc.
Qed.

(** The first login in a room: the room is created under its id and holds
    one session, original, empty and just alive; the other clusters are told
    of the room, once, and the user gets one reply with code 0. *)
Theorem login_opens_room `{GoRuntime, WebRTC} w msg :
  heap_ok ∅ w → w_locks w = ∅ →
  m_regist (w_mgr w) = true → m_onSendMessageHandler (w_mgr w) = true →
  GetValue (fields msg) LabelCmd = CmdLogin →
  m_rooms (w_mgr w) !! GetValue (fields msg) LabelRoomId = None →
  (center_connected (w_rmq w) = true → center_ready w) →
  ∃ w' r s, roommgr_HandleMessage msg w = Ret tt w' ∧ room_opened w (fields msg) r s w'.
Proof.
  intros Hok HL Hreg Hh Hc Hr Hcen. pose proof (login_wp w _ Hok HL Hh Hc Hr Hcen) as Hwp.
  assert (roommgr_HandleMessage msg w = roommgr_login (fields msg) (GetValue (fields msg) LabelRoomId) w) as ->.
  { unfold roommgr_HandleMessage, handle_fields. fold (fields msg).
    unfold mbind at 1, M_bind at 1, gets at 1. by rewrite Hreg, Hc. }
  unfold wp in Hwp. destruct (roommgr_login _ _ w) as [[] w'|]; [|done].
  destruct Hwp as (r & s & Ho). by exists w', r, s.
Qed.

Lemma login_opens_room_witness :
  ∃ w' r s, roommgr_HandleMessage (login_msg "room2" "carol") (demo_world demo_ready) = Ret tt w' ∧
    room_opened (demo_world demo_ready) (fields (login_msg "room2" "carol")) r s w'.
Proof.
  apply (login_opens_room (demo_world demo_ready) (login_msg "room2" "carol"));
    [apply (reachable_ok _ _ _ demo_ready_reachable) | vm_compute; reflexivity.. |].
  intros _. eexists _, _. split_and!; vm_compute; reflexivity.
Defined.
