(* ===== verification/Leave.v ===== *)
(** * Releasing peers, sessions and rooms: the clean-up returns

    Safety shows that a goroutine that stops does not stop in a mutex, at a
    dangling pointer, at a closed channel or in the wait for a session's
    watchers.  What is left of the ways to stop is excluded here for the
    goroutines that release things, in a state where the handlers are
    installed, the exchanges of a connected broker have their producers and no
    keyframe filter was started twice ([calm]).  Together: they return. *)

From S2P Require Import Prelude GoLib Json Constants KeyframeFilter World Rmq Peer Notify Session.
From S2P Require Import Room RoomMgr Callbacks Server Demo Invariant PeerSafe Links SessionSafe.
From S2P Require Import RoomSafe RoomMgrSafe Safety Outputs Dispatch.

(** ** Calm states *)

(** The exchange behind a package variable has its producer goroutine. *)
Definition producing (E : gmap nat QueueExchange) (v : option nat) : Prop :=
  ∃ x ex, v = Some x ∧ E !! x = Some ex ∧
    x_msgChan ex = true ∧ x_producer ex = true.

(** A filter that is not running, or has the one goroutine Shutdown ends. *)
Definition filter_single (pr : peer) : Prop :=
  ∀ f, p_filter pr = Some f → kf_timer f = None ∨ (kf_goroutines f <= 1)%nat.

Record calm (w : world) : Prop := {
  calm_filter : ∀ p pr, w_peers w !! p = Some pr → filter_single pr;
  calm_room : ∀ r x, w_rooms w !! r = Some x → r_onSendMessageHandler x = true;
  calm_center : center_connected (w_rmq w) = true →
    producing (mq_exchanges (w_rmq w)) (exc_cross_cluster_bc (w_rmq w));
  calm_lb : connected (w_rmq w) = true →
    producing (mq_exchanges (w_rmq w)) (exc_pub_dr (w_rmq w));
}.

(** From a calm state, [m] ends in a calm state or stops in one of the ways
    Safety excludes. *)
Definition ctr {A} (m : MW A) : Prop :=
  ∀ w, calm w → wp m (λ _, calm) (λ r _, ¬ safe_stop r) w.

Create HintDb calm discriminated.
#[export] Hint Constants Opaque : calm.
#[export] Hint Transparent MW : calm.

(** ** Rules *)

Lemma ctr_ret {A} (a : A) : ctr (mret a).
Proof. intros w H. by apply wp_ret. Qed.

Lemma ctr_skip : ctr skip.
Proof. apply ctr_ret. Qed.

Lemma ctr_bind {A B} (m : MW A) (k : A → MW B) : ctr m → (∀ a, ctr (k a)) → ctr (m ≫= k).
Proof.
  intros Hm Hk w H. apply wp_bind. eapply wp_mono; [by apply Hm | | done].
  intros a w' H'. by apply Hk.
Qed.

Lemma ctr_gets {A} (f : world → A) : ctr (gets f).
Proof. intros w H. by apply wp_gets. Qed.

Lemma ctr_halt {A} r : ¬ safe_stop r → ctr (halt r : MW A).
Proof. intros Hr w H. by apply wp_halt. Qed.

Lemma ctr_from_some {A} r (o : option A) : ¬ safe_stop r → ctr (from_some r o).
Proof. intros Hr. destruct o; [apply ctr_ret | by apply ctr_halt]. Qed.

Lemma ctr_modify f : (∀ w, calm w → calm (f w)) → ctr (modify f).
Proof. intros Hf w H. by apply wp_modify, Hf. Qed.

Lemma ctr_for_each {A} (l : list A) (body : A → MW unit) :
  (∀ x, ctr (body x)) → ctr (for_each l body).
Proof.
  intros Hb. induction l; simpl; [apply ctr_skip|]. apply ctr_bind; [apply Hb | done].
Qed.

Lemma ctr_upd_sess s g : ctr (upd_sess s g).
Proof. apply ctr_modify. by intros w []. Qed.
Lemma ctr_upd_mgr g : ctr (upd_mgr g).
Proof. apply ctr_modify. by intros w []. Qed.
Lemma ctr_emit e : ctr (emit e).
Proof. apply ctr_modify. by intros w []. Qed.
Lemma ctr_spawn t : ctr (spawn t).
Proof. apply ctr_modify. by intros w []. Qed.
Lemma ctr_choose : ctr choose.
Proof.
  apply ctr_bind; [apply ctr_gets|]. intros n. apply ctr_bind; [|intros; apply ctr_ret].
  apply ctr_modify. by intros w [].
Qed.
Lemma ctr_GetSn : ctr GetSn.
Proof.
  apply ctr_bind; [apply ctr_gets|]. intros c. apply ctr_bind; [|intros; apply ctr_ret].
  apply ctr_modify. by intros w [].
Qed.

Lemma calm_upd_peer p g :
  (∀ pr, filter_single pr → filter_single (g pr)) →
  ∀ w, calm w → calm (set_w_peers (alter g p) w).
Proof.
  intros Hg w [H1 H2 H3 H4]. split; [|done..]. intros q pr. simpl.
  rewrite lookup_alter. case_decide as E; [|by apply H1].
  subst q. intros (pr0 & Hq & ->)%fmap_Some. by apply Hg, (H1 p).
Qed.
Lemma ctr_upd_peer p g : (∀ pr, filter_single pr → filter_single (g pr)) → ctr (upd_peer p g).
Proof. intros Hg. by apply ctr_modify, calm_upd_peer. Qed.

Lemma ctr_upd_room r g :
  (∀ x, r_onSendMessageHandler (g x) = r_onSendMessageHandler x) → ctr (upd_room r g).
Proof.
  intros Hg. apply ctr_modify. intros w [H1 H2 H3 H4]. split; [done| |done..].
  intros q x. simpl. rewrite lookup_alter. case_decide as E; [|by apply H2].
  subst q. intros (x0 & Hq & ->)%fmap_Some. rewrite Hg. by apply (H2 r).
Qed.

Lemma ctr_get_room {A} r (k : room → MW A) :
  (∀ x, r_onSendMessageHandler x = true → ctr (k x)) → ctr (get_room r ≫= k).
Proof.
  intros Hk w H. unfold get_room. apply wp_bind, wp_bind, wp_gets, wp_from_some; [|by intros _ []].
  intros x Hx. apply (Hk x); [|done]. by eapply calm_room.
Qed.

(** The locks: blocked or misused, they are among the stops Safety excludes. *)
Lemma ctr_lock_table f : ctr (modify (set_w_locks f)).
Proof. apply ctr_modify. by intros w []. Qed.
Ltac ctr_lock :=
  apply ctr_bind; [apply ctr_gets|]; intros ?; repeat case_match;
  first [apply ctr_lock_table | apply ctr_halt; simpl; tauto].
Lemma ctr_Lock l : ctr (Lock l).
Proof. ctr_lock. Qed.
Lemma ctr_Unlock l : ctr (Unlock l).
Proof. ctr_lock. Qed.
Lemma ctr_RLock l : ctr (RLock l).
Proof. ctr_lock. Qed.
Lemma ctr_RUnlock l : ctr (RUnlock l).
Proof. ctr_lock. Qed.

Lemma ctr_get_peer p : ctr (get_peer p).
Proof. apply ctr_bind; [apply ctr_gets | intros; apply ctr_from_some; simpl; tauto]. Qed.
Lemma ctr_get_sess s : ctr (get_sess s).
Proof. apply ctr_bind; [apply ctr_gets | intros; apply ctr_from_some; simpl; tauto]. Qed.

Lemma ctr_call_handler b topic msg : b = true → ctr (call_handler b topic msg).
Proof. intros ->. apply ctr_emit. Qed.

Lemma ctr_range_map `{GoRuntime} {A} (m : MW (gmap string A)) body :
  ctr m → (∀ k v, ctr (body k v)) → ctr (range_map m body).
Proof.
  intros Hm Hb. apply ctr_bind; [apply ctr_choose|]. intros n.
  apply ctr_bind; [done|]. intros m0. apply ctr_for_each. intros k.
  apply ctr_bind; [done|]. intros m1. destruct (m1 !! k); [apply Hb | apply ctr_skip].
Qed.

Lemma ctr_find_first {A B} (m : MW (gmap string A)) ks (body : string → A → MW (option B)) :
  ctr m → (∀ k v, ctr (body k v)) → ctr (find_first m ks body).
Proof.
  intros Hm Hb. induction ks as [|k ks IH]; simpl; [apply ctr_ret|].
  apply ctr_bind; [done|]. intros m1. apply ctr_bind.
  - destruct (m1 !! k); [apply Hb | apply ctr_ret].
  - intros [b|]; [apply ctr_ret | done].
Qed.
Lemma ctr_range_find `{GoRuntime} {A B} (m : MW (gmap string A)) (body : string → A → MW (option B)) :
  ctr m → (∀ k v, ctr (body k v)) → ctr (range_find m body).
Proof.
  intros Hm Hb. apply ctr_bind; [apply ctr_choose|]. intros n.
  apply ctr_bind; [done|]. intros m0. by apply ctr_find_first.
Qed.

Lemma ctr_collect {A B} (m : MW (gmap string A)) ks (body : string → A → MW B) :
  ctr m → (∀ k v, ctr (body k v)) → ctr (collect m ks body).
Proof.
  intros Hm Hb. induction ks as [|k ks IH]; simpl; [apply ctr_ret|].
  apply ctr_bind; [done|]. intros m1. destruct (m1 !! k); [|done].
  apply ctr_bind; [apply Hb|]. intros b. apply ctr_bind; [done|]. intros l. apply ctr_ret.
Qed.
Lemma ctr_range_collect `{GoRuntime} {A B} (m : MW (gmap string A)) (body : string → A → MW B) :
  ctr m → (∀ k v, ctr (body k v)) → ctr (range_collect m body).
Proof.
  intros Hm Hb. apply ctr_bind; [apply ctr_choose|]. intros n.
  apply ctr_bind; [done|]. intros m0. by apply ctr_collect.
Qed.

(** Publishing to a broker that is connected. *)
Lemma ctr_send (g : rmqstate → bool) (v : rmqstate → option nat) m :
  (∀ w, calm w → g (w_rmq w) = true → producing (mq_exchanges (w_rmq w)) (v (w_rmq w))) →
  ctr (r ← gets w_rmq; if negb (g r) then skip else send_msgChan (v r) m).
Proof.
  intros Hp w H. apply wp_bind, wp_gets. destruct (g (w_rmq w)) eqn:Eg; simpl; [|by apply wp_ret].
  destruct (Hp w H Eg) as (x & ex & -> & Hex & E1 & E2).
  unfold send_msgChan, get_ex. apply wp_bind, wp_ret, wp_bind, wp_bind, wp_gets.
  rewrite Hex. apply wp_ret. rewrite E1, E2. by apply ctr_emit.
Qed.
Lemma ctr_BroadcastCrossClusterMessage msg : ctr (BroadcastCrossClusterMessage msg).
Proof. apply (ctr_send center_connected exc_cross_cluster_bc). by intros w []. Qed.
Lemma ctr_PublishMessage2LB msg : ctr (PublishMessage2LB msg).
Proof. apply (ctr_send connected exc_pub_dr). by intros w []. Qed.

#[export] Hint Resolve ctr_ret ctr_skip ctr_gets ctr_upd_sess ctr_upd_mgr ctr_emit ctr_spawn
  ctr_choose ctr_GetSn ctr_Lock ctr_Unlock ctr_RLock ctr_RUnlock ctr_get_peer ctr_get_sess
  ctr_call_handler ctr_BroadcastCrossClusterMessage ctr_PublishMessage2LB : calm.

(** One step of a proof that an operation keeps the server calm. *)
Ltac ctr_step :=
  match goal with
  | |- ctr (get_room _ ≫= _) => apply ctr_get_room; intros
  | |- ctr (_ ≫= _) => apply ctr_bind; [|intros]
  | |- ctr (range_map _ _) => apply ctr_range_map; [|intros]
  | |- ctr (range_find _ _) => apply ctr_range_find; [|intros]
  | |- ctr (range_collect _ _) => apply ctr_range_collect; [|intros]
  | |- ctr (for_each _ _) => apply ctr_for_each; intros
  | |- ctr (match ?x with _ => _ end) => destruct x
  | |- ctr _ => solve [eauto with calm nocore]
  end.
Ltac ctr_auto := repeat ctr_step.

(** ** Peers *)

(** Shutdown of a filter with at most one goroutine returns. *)
Lemma kf_Shutdown_returns f :
  kf_timer f = None ∨ (kf_goroutines f <= 1)%nat →
  ∃ f', kf_Shutdown (f, []) = Ret tt (f', []) ∧ kf_timer f' = None.
Proof.
  intros Hf. destruct f as [mi ma n t c l ti se]. simpl in Hf.
  unfold kf_Shutdown, kf_exit_and_wait, kf_upd, mbind, M_bind, gets, modify, skip, mret, M_ret.
  destruct t as [t|]; simpl; [|by eauto].
  destruct n as [|[|n]]; simpl; [by eauto.. |]. destruct Hf; [done | lia].
Qed.

Lemma ctr_Destroy p : ctr (Destroy p).
Proof.
  intros w H. unfold Destroy. apply wp_bind. unfold get_peer at 1.
  apply wp_bind, wp_gets, wp_from_some; [|simpl; tauto]. intros pr Hp. apply wp_bind.
  eapply (wp_mono _ (λ _, calm)).
  - destruct (p_filter pr) as [f|] eqn:Ef; [|by apply wp_ret].
    unfold on_filter, get_peer. apply wp_bind, wp_bind, wp_gets. rewrite Hp. apply wp_ret, wp_bind.
    rewrite Ef. apply wp_ret.
    destruct (kf_Shutdown_returns f) as (f' & -> & Ht); [by eapply calm_filter|].
    apply (ctr_bind (upd_peer p _)); [|intros; apply ctr_skip | done].
    apply ctr_upd_peer. intros pr0 _ f0. simpl. intros [= <-]. by left.
  - intros _ w1 H1. revert w1 H1.
    change (ctr (_ ← (if p_exitCh_closed pr then halt PCloseClosed
                     else upd_peer p (set_p_exitCh_closed (λ _, true)));
                match p_peerConnection pr with
                | Some pc => _ ← emit (EvPcClose (pc_id pc));
                             upd_peer p (set_p_peerConnection (λ _, None))
                | None => skip
                end)).
    apply ctr_bind; [|intros].
    + destruct (p_exitCh_closed pr); [apply ctr_halt; simpl; tauto | by apply ctr_upd_peer].
    + ctr_auto. by apply ctr_upd_peer.
  - done.
Qed.

Lemma ctr_ShouldNotify p : ctr (ShouldNotify p).
Proof. unfold ShouldNotify. ctr_auto. by apply ctr_upd_peer. Qed.

#[export] Hint Resolve ctr_Destroy ctr_ShouldNotify : calm.

(** ** Sessions *)

Lemma ctr_room_sessions r : ctr (room_sessions r).
Proof. unfold room_sessions. ctr_auto. Qed.
Lemma ctr_sess_pubs s : ctr (sess_pubs s).
Proof. unfold sess_pubs. ctr_auto. Qed.
Lemma ctr_sess_subs s : ctr (sess_subs s).
Proof. unfold sess_subs. ctr_auto. Qed.
Lemma ctr_sess_roomid s : ctr (sess_roomid s).
Proof. unfold sess_roomid. ctr_auto. Qed.
#[export] Hint Resolve ctr_room_sessions ctr_sess_pubs ctr_sess_subs ctr_sess_roomid : calm.

Lemma ctr_del_pub s k : ctr (del_pub s k).
Proof. apply ctr_upd_sess. Qed.
Lemma ctr_del_sub s k : ctr (del_sub s k).
Proof. apply ctr_upd_sess. Qed.
#[export] Hint Resolve ctr_del_pub ctr_del_sub : calm.

Section clean_up.
Context `{GoRuntime, WebRTC, Amqp}.

Lemma ctr_notifyStopPush r b sid pid : ctr (notifyStopPush r b sid pid).
Proof. unfold notifyStopPush. ctr_auto. Qed.
#[local] Hint Resolve ctr_notifyStopPush : calm.

Lemma ctr_notify_if_needed s v pid : ctr (notify_if_needed s v pid).
Proof. unfold notify_if_needed. ctr_auto. Qed.
#[local] Hint Resolve ctr_notify_if_needed : calm.

Lemma ctr_exit_and_wait s : ctr (exit_and_wait s).
Proof. unfold exit_and_wait. ctr_auto. apply ctr_halt. simpl. tauto. Qed.
#[local] Hint Resolve ctr_exit_and_wait : calm.

Lemma ctr_DoLeave s : ctr (DoLeave s).
Proof. unfold DoLeave. ctr_auto. Qed.

Lemma ctr_ReleaseSubscriberPeer s sid ssid pid : ctr (ReleaseSubscriberPeer s sid ssid pid).
Proof. unfold ReleaseSubscriberPeer. ctr_auto. Qed.

Lemma ctr_ReleasePublisher s sid pid : ctr (ReleasePublisher s sid pid).
Proof. unfold ReleasePublisher, notifyReleasePublish, now_unix. ctr_auto. Qed.

Lemma ctr_HandleSubscriberLeaved s sid : ctr (HandleSubscriberLeaved s sid).
Proof. unfold HandleSubscriberLeaved. ctr_auto. Qed.

Lemma ctr_CheckKeepAlive s : ctr (CheckKeepAlive s).
Proof. unfold CheckKeepAlive, now_unix. ctr_auto. Qed.
#[local] Hint Resolve ctr_DoLeave ctr_ReleaseSubscriberPeer ctr_ReleasePublisher : calm.

(** ** Rooms *)

Lemma ctr_hasOriginSession r : ctr (hasOriginSession r).
Proof. unfold hasOriginSession. ctr_auto. Qed.
Lemma ctr_notifyLeaveRoom r sid : ctr (notifyLeaveRoom r sid).
Proof. unfold notifyLeaveRoom, now_unix. ctr_auto. Qed.
Lemma ctr_del_session r k : ctr (del_session r k).
Proof. by apply ctr_upd_room. Qed.
#[local] Hint Resolve ctr_hasOriginSession ctr_notifyLeaveRoom ctr_del_session : calm.

Lemma ctr_KickoutFromRoom r sid : ctr (KickoutFromRoom r sid).
Proof. unfold KickoutFromRoom. ctr_auto. Qed.

Lemma ctr_DestroyRoom r : ctr (DestroyRoom r).
Proof. unfold DestroyRoom. ctr_auto. by apply ctr_upd_room. Qed.
#[local] Hint Resolve ctr_DestroyRoom : calm.

Lemma ctr_ReleaseRoom rid : ctr (ReleaseRoom rid).
Proof. unfold ReleaseRoom, mgr_rooms. ctr_auto. Qed.

Lemma ctr_OnPublisherReady r sid name pid : ctr (OnPublisherReady r sid name pid).
Proof. unfold OnPublisherReady. ctr_auto. Qed.
End clean_up.

(** ** The theorems *)

(** The two halves of a run: one excludes some stops, the other the rest. *)
Lemma wp_returns {A} (m : MW A) (Q Q' : A → world → Prop) w :
  wp m Q (λ r _, safe_stop r) w → wp m Q' (λ r _, ¬ safe_stop r) w →
  ∃ a w', m w = Ret a w' ∧ Q a w' ∧ Q' a w'.
Proof. unfold wp. destruct (m w) as [a w'|r w']; [eauto | done]. Qed.

(** DoLeave returns, and what it leaves. *)
Definition session_closed (s : nat) (x : session) (w' : world) : Prop :=
  heap_ok ∅ w' ∧ w_locks w' = ∅ ∧
  (∀ k p, s_publishers x !! k = Some p ∨ s_subscribers x !! k = Some p → is_closed w' p) ∧
  ∃ x', w_sess w' !! s = Some x' ∧ s_publishers x' = ∅ ∧ s_subscribers x' = ∅ ∧
    s_watchers x' = [].

(** The goroutines that release peers, sessions and rooms, and those that tell
    members about it. *)
Definition cleanup_task (t : task) : bool :=
  match t with
  | TReleaseRoom _ | TOnPublisherReady _ _ _ _ | TOnPublisherPeerFailed _ _ _
  | TOnPublisherPeerClosed _ _ _ | TOnSubscriberPeerDisconnected _ _ _ _
  | TOnSubscriberPeerFailed _ _ _ _ | TOnSubscriberPeerClosed _ _ _ _
  | TReleaseSubscriberPeer _ _ _ _ | THandleSubscriberLeaved _ _ | TCheckKeepAlive _
  | TKickoutFromRoom _ _ => true
  | _ => false
  end.

Lemma ctr_cleanup_task `{GoRuntime, WebRTC, Amqp} t : cleanup_task t = true → ctr (run_task t).
Proof.
  destruct t; intros Ht; try done; simpl;
    eauto using ctr_ReleaseRoom, ctr_OnPublisherReady, ctr_ReleaseSubscriberPeer,
      ctr_HandleSubscriberLeaved, ctr_CheckKeepAlive, ctr_KickoutFromRoom, ctr_skip.
  all: unfold OnPublisherPeerFailed, OnPublisherPeerClosed, OnSubscriberPeerFailed,
         OnSubscriberPeerClosed;
    ctr_auto; auto using ctr_ReleasePublisher, ctr_ReleaseSubscriberPeer.
Qed.

(** C5. A session that leaves always gets away: in a calm state DoLeave
    returns; it has closed every publisher and every subscriber of the session
    once, left its maps empty and no watcher goroutine behind, and released
    its mutexes. *)
Theorem leave_closes_everything `{GoRuntime, WebRTC, Amqp} w s x :
  heap_ok ∅ w → calm w → w_sess w !! s = Some x → w_locks w = ∅ →
  ∃ b w', DoLeave s w = Ret b w' ∧ calm w' ∧ session_closed s x w'.
Proof.
  intros Hok Hc Hx HL. pose proof (DoLeave_wp w s x Hok Hx) as Hwp. rewrite HL in Hwp.
  specialize (Hwp (lookup_empty _) (lookup_empty _)).
  destruct (wp_returns _ _ _ _ Hwp (ctr_DoLeave s w Hc)) as (b & w' & E & (? & _ & ? & ? & ?) & ?).
  exists b, w'. split_and!; [done|done|by split_and!].
Qed.

(** ** Witnesses *)

(** Calm states are decided by evaluation. *)
Definition producingb (E : gmap nat QueueExchange) (v : option nat) : bool :=
  match v ≫= λ x, E !! x with
  | Some ex => x_msgChan ex && x_producer ex
  | None => false
  end.
Definition calmb (w : world) : bool :=
  forallb (λ q, match p_filter q.2 with
                | Some f => bool_decide (kf_timer f = None) || (kf_goroutines f <=? 1)%nat
                | None => true
                end) (map_to_list (w_peers w)) &&
  forallb (λ q, r_onSendMessageHandler q.2) (map_to_list (w_rooms w)) &&
  (negb (center_connected (w_rmq w)) ||
   producingb (mq_exchanges (w_rmq w)) (exc_cross_cluster_bc (w_rmq w))) &&
  (negb (connected (w_rmq w)) ||
   producingb (mq_exchanges (w_rmq w)) (exc_pub_dr (w_rmq w))).

Lemma producingb_spec E v : producingb E v = true → producing E v.
Proof.
  unfold producingb, producing. destruct v as [x|]; [|done]. simpl.
  destruct (E !! x) as [ex|] eqn:Ex; [|done].
  intros [? ?]%andb_true_iff. eauto 10.
Qed.

Lemma calmb_calm w : calmb w = true → calm w.
Proof.
  unfold calmb. rewrite !andb_true_iff, !forallb_forall. intros [[[H1 H2] H3] H4]. split.
  - intros p pr Hp f Hf. apply elem_of_map_to_list, list_elem_of_In, H1 in Hp. simpl in Hp.
    rewrite Hf in Hp. apply orb_true_iff in Hp as [?%bool_decide_eq_true|?%Nat.leb_le]; auto.
  - intros r x Hr. by apply elem_of_map_to_list, list_elem_of_In, H2 in Hr.
  - intros Hc. rewrite Hc in H3. by apply producingb_spec.
  - intros Hc. rewrite Hc in H4. by apply producingb_spec.
Qed.

Lemma demo_sub_reach : reachable demo_conf (1000 * second) (demo_world demo_sub).
Proof. apply (demo_run_reachable demo_sub). vm_compute. reflexivity. Qed.

Lemma leave_closes_everything_witness :
  ∃ b w', DoLeave 13 (demo_world demo_sub) = Ret b w' ∧ calm w' ∧
    session_closed 13 (the_sess (demo_world demo_sub) 13) w'.
Proof.
  apply (leave_closes_everything (demo_world demo_sub) 13 (the_sess (demo_world demo_sub) 13));
    [apply (reachable_ok _ _ _ demo_sub_reach) | apply calmb_calm; vm_compute; reflexivity
    | vm_compute; reflexivity..].
Defined.
