(* ===== verification/Settled.v ===== *)
(** * The connection of a peer between two messages

    What the signalling state of a peer's connection is when no handler is
    working on the peer ([settled]), and what each of the descriptions that the
    handlers set makes of it.  The invariant of Ready says that the connections
    of all peers are settled. *)

From S2P Require Import Prelude GoLib Signaling SignalingProps MediaEngine MediaEngineProps World Peer.

(** ** Settled connections *)

(** The last exchange: none so far, or the two descriptions with these types. *)
Definition exchanged (l r : SDPType) (s : signaling) : Prop :=
  currentLocalDescription s = None ∧ currentRemoteDescription s = None ∨
  is_type l (currentLocalDescription s) ∧ is_type r (currentRemoteDescription s).

(** A publisher answers an offer in the handler that gets it; a subscriber's
    offer waits for its answer. *)
Definition settled_state (role : Z) (s : signaling) : Prop :=
  role = 1 ∧ sg_state s = SignalingStateStable ∧ exchanged SDPTypeAnswer SDPTypeOffer s ∨
  role = 2 ∧ (sg_state s = SignalingStateStable ∨ sg_state s = SignalingStateHaveLocalOffer) ∧
    exchanged SDPTypeOffer SDPTypeAnswer s.

(** Candidates are no longer kept back only when there is a remote
    description. *)
Definition settled (pr : peer) (s : signaling) : Prop :=
  sig_ok s ∧ isClosed s = false ∧ settled_state (p_role pr) s ∧
  (p_setedRemoteDesc pr = true → is_Some (RemoteDescription s)).

(** A publisher has no description to offer, a subscriber no lists of ssrcs. *)
Definition role_data (pr : peer) : Prop :=
  p_role pr = 1 ∧ p_publishersdp pr = None ∨ p_role pr = 2 ∧ p_audiossrc pr = None.

(** What its connection is; its media engine has what the server registered, and
    what it negotiated fits that. *)
Definition conn_is (P : signaling → Prop) (pr : peer) : Prop := ∀ pc, p_peerConnection pr = Some pc →
  P (pc_sig pc) ∧ engine_good server_engine (pc_media pc).

Definition peer_good (pr : peer) : Prop :=
  p_onSendMessageHandler pr = true ∧ role_data pr ∧ conn_is (settled pr) pr.

(** A publisher while it answers: the offer is set. *)
Definition answering (pr : peer) : Prop :=
  p_onSendMessageHandler pr = true ∧ role_data pr ∧ p_role pr = 1 ∧
  conn_is (λ s, sig_ok s ∧ isClosed s = false ∧ sg_state s = SignalingStateHaveRemoteOffer ∧
                exchanged SDPTypeAnswer SDPTypeOffer s) pr.

(** A peer whose connection has a remote description. *)
Definition described (pr : peer) : Prop := peer_good pr ∧ conn_is (λ s, is_Some (RemoteDescription s)) pr.

Definition publisher (pr : peer) : Prop := peer_good pr ∧ p_role pr = 1.
Definition subscriber (pr : peer) : Prop := peer_good pr ∧ p_role pr = 2.

Lemma settled_new pr : p_role pr = 1 ∨ p_role pr = 2 → p_setedRemoteDesc pr = false → settled pr new_signaling.
Proof.
  intros Hr Hf. split_and!; [apply sig_ok_new | done | | by rewrite Hf].
  destruct Hr as [-> | ->]; [left | right]; (split_and!; [done | auto | by left]).
Qed.

(** ** Descriptions *)

(** The transitions of the table. *)
Lemma set_accepted s sd op s' : setDescription s sd op = (s', None) → ∃ st,
  isClosed s = false ∧ jsep (sg_state s) op (d_Type sd) = Some st ∧ s' = set_state (next_descs s sd op).2 st.
Proof.
  intros E%set_table. destruct (isClosed s); [by destruct E as (_ & _ & ?)|].
  destruct (jsep _ _ _) as [st|]; [|by destruct E as (_ & _ & ?)].
  destruct (unmatched s sd op); [by destruct E as (_ & _ & ?)|]. destruct E as [_ ->]. by exists st.
Qed.

Section descriptions.
Context (pr : peer) (s s' : signaling) (sdp : string).

Lemma set_remote_offer : settled pr s → p_role pr = 1 →
  setDescription s (MkDesc SDPTypeOffer sdp) stateChangeOpSetRemote = (s', None) →
  sig_ok s' ∧ isClosed s' = false ∧ sg_state s' = SignalingStateHaveRemoteOffer ∧ exchanged SDPTypeAnswer SDPTypeOffer s'.
Proof.
  intros (Hok & Ho & Hst & _) Hr E. pose proof (sig_ok_set _ _ _ _ Hok E) as Hok'.
  apply set_accepted in E as (st & _ & Hj & ->). destruct Hst as [(_ & Est & Hx) | (? & _)]; [|congruence].
  rewrite Est in Hj. injection Hj as <-. by split_and!.
Qed.

Lemma set_local_answer :
  sig_ok s → sg_state s = SignalingStateHaveRemoteOffer → p_role pr = 1 →
  setDescription s (MkDesc SDPTypeAnswer sdp) stateChangeOpSetLocal = (s', None) →
  settled pr s' ∧ is_Some (RemoteDescription s').
Proof.
  intros Hok Est Hr E. pose proof (sig_ok_set _ _ _ _ Hok E) as Hok'. destruct Hok as [_ _ Hp]. unfold negotiating in Hp.
  apply set_accepted in E as (st & Ho & Hj & ->). rewrite Est in *. injection Hj as <-.
  destruct Hp as [_ Hp]. unfold is_type in Hp. destruct (pendingRemoteDescription s) as [d|] eqn:Ed; [|done].
  cbn in *. rewrite Ed in *. split; [|by eexists]. split_and!; [done | done | | by eexists].
  left. split_and!; [done | done | right]. split; [reflexivity | exact Hp].
Qed.

Lemma set_local_offer : settled pr s → p_role pr = 2 →
  setDescription s (MkDesc SDPTypeOffer sdp) stateChangeOpSetLocal = (s', None) → settled pr s'.
Proof.
  intros (Hok & Ho & Hst & Hc) Hr E. pose proof (sig_ok_set _ _ _ _ Hok E) as Hok'.
  apply set_accepted in E as (st & _ & Hj & ->). destruct Hst as [(? & _) | (_ & Est & Hx)]; [congruence|].
  destruct Est as [Est|Est]; rewrite Est in Hj; [|done]. injection Hj as <-.
  split_and!; [done | done | | exact Hc]. right. split_and!; [done | by right | exact Hx].
Qed.

Lemma set_remote_answer : settled pr s →
  setDescription s (MkDesc SDPTypeAnswer sdp) stateChangeOpSetRemote = (s', None) →
  settled pr s' ∧ is_Some (RemoteDescription s').
Proof.
  intros (Hok & Ho & Hst & Hc) E. pose proof (sig_ok_set _ _ _ _ Hok E) as Hok'. destruct Hok as [_ _ Hp]. unfold negotiating in Hp.
  apply set_accepted in E as (st & _ & Hj & ->).
  destruct Hst as [(_ & Est & _) | (Hr & Est & _)]; [by rewrite Est in Hj|].
  destruct Est as [Est|Est]; rewrite Est in *; [done|]. injection Hj as <-. destruct Hp as [Hp _].
  cbn. split; [|by eexists]. split_and!; [done | done | | by eexists].
  right. split_and!; [done | by left | right]. split; [exact Hp | reflexivity].
Qed.
End descriptions.

(** The text of the last offer or answer is not looked at. *)
Lemma settled_lastOffer pr sdp s : settled pr s → settled pr (set_lastOffer sdp s).
Proof. intros ([] & ? & ? & ?). by split_and!. Qed.
Lemma settled_seted pr s b : settled pr s → is_Some (RemoteDescription s) → settled (set_p_setedRemoteDesc (λ _, b) pr) s.
Proof. intros (? & ? & ? & _) ?. by split_and!. Qed.
