(* ===== verification/Ready.v ===== *)
(** * What a running server has in place

    Invariants of the reachable states that need no view of the links between
    objects: every room, session and peer has its send handler, the connections
    of the peers are settled, the retries of a cross-cluster subscription are
    counted down from
    CLUSTER_RECONNECTION_MAXTIMES, and, when the calls of the amqp library
    succeed, the exchanges of a broker that is marked connected have their
    producer goroutines.  They are proved together, by one rule per operation
    ([itr]); as a consequence some ways to stop never occur. *)

From S2P Require Import Prelude GoLib Json Constants KeyframeFilter MediaEngine MediaEngineProps World Rmq Peer Notify Session.
From S2P Require Import Room RoomMgr Callbacks Server Demo Invariant Safety Leave Signaling Settled.

(** ** The invariant *)

(** The amqp library does what it is asked. *)
Definition amqp_works `{Amqp} : Prop :=
  ∀ n, am_channel n = true ∧ am_exchange_declare n = true ∧ am_queue_declare n = true ∧
    am_queue_bind n = true ∧ am_consume n = true.

(** The package variables of rmq.go that hold exchanges: the exchange name and
    the routing key each is given, and whether its producer has to be there:
    when the flag that guards it is set, or when [F] asks for it (while a
    client is connecting). *)
Definition slots (F : nat → bool) (q : rmqstate) : list (option nat * (string * string) * bool) := [
  (exc_pub_dr q, ("WB_", "111"), connected q || F 0%nat);
  (exc_proxy_bc q, ("udpProxy", "broadcast"), connected q || F 1%nat);
  (exc_cluster_bc q, ("inter-cluster_broadcast", "inter-cluster"), connected q || F 2%nat);
  (exc_cross_cluster_dr q, ("WB_", ""), center_connected q || F 3%nat);
  (exc_cross_cluster_bc q, ("cross-cluster_broadcast", "cross-cluster"),
     center_connected q || F 4%nat)].

(** The exchange of a variable is the one it was made for, a producer, and has
    its goroutine when the flag is set. *)
Definition ex_tag (ex : QueueExchange) : string * string * option nat :=
  (x_exchangeName ex, x_routingKey ex, x_parent ex).
Definition slot_ok (E : gmap nat QueueExchange)
    (sl : option nat * (string * string) * bool) : Prop :=
  (∀ x, sl.1.1 = Some x → ∃ ex, E !! x = Some ex ∧ ex_tag ex = (sl.1.2, None)) ∧
  (sl.2 = true → producing E sl.1.1).

Record brokers_up (F : nat → bool) (q : rmqstate) : Prop := {
  br_slots : Forall (slot_ok (mq_exchanges q)) (slots F q);
  br_exs : ∀ i r x, mq_objs q !! i = Some r → x ∈ q_exs r →
    ∃ ex, mq_exchanges q !! x = Some ex ∧ x_parent ex ≠ None;
}.
Definition brokers_ready (q : rmqstate) : Prop := brokers_up (λ _, false) q.

Lemma brokers_producing q : brokers_ready q →
  (connected q = true → producing (mq_exchanges q) (exc_pub_dr q) ∧
     producing (mq_exchanges q) (exc_proxy_bc q) ∧ producing (mq_exchanges q) (exc_cluster_bc q)) ∧
  (center_connected q = true → producing (mq_exchanges q) (exc_cross_cluster_dr q) ∧
     producing (mq_exchanges q) (exc_cross_cluster_bc q)).
Proof.
  intros [Hs _]. unfold slots in Hs. rewrite !Forall_cons in Hs.
  destruct Hs as ([_ ?] & [_ ?] & [_ ?] & [_ ?] & [_ ?] & _). simpl in *.
  split; intros E; rewrite E in *; simpl in *; auto.
Qed.

Definition watcher_bound (x : watcher) : Prop :=
  0 ≤ wt_curtime x ≤ CLUSTER_RECONNECTION_MAXTIMES.
Definition retry_bound (t : task) : Prop :=
  match t with
  | TFakePublisherReConnect _ _ _ n => 0 ≤ n < CLUSTER_RECONNECTION_MAXTIMES
  | _ => True
  end.

Definition sess_good (x : session) : Prop :=
  s_onSendMessageHandler x = true ∧ Forall watcher_bound (s_watchers x).

(** Both clients know what to call with a message. *)
Definition handled (q : rmqstate) : Prop :=
  ∀ i r, mq_objs q !! i = Some r → q_onReceivedMessageHandler r = true.

Create HintDb good discriminated.
#[export] Hint Constants Opaque : good.
#[export] Hint Transparent MW : good.

Section ready.
Context `{GoRuntime, WebRTC, Amqp}.

(** [P] is what holds of each peer; a handler that negotiates passes through
    states in which its own peer is not settled. *)
Record good_for {P : nat → peer → Prop} (w : world) : Prop := {
  g_mgr : m_onSendMessageHandler (w_mgr w) = true;
  g_room : ∀ r x, w_rooms w !! r = Some x → r_onSendMessageHandler x = true;
  g_sess : ∀ s x, w_sess w !! s = Some x → sess_good x;
  g_peer : ∀ p pr, w_peers w !! p = Some pr → P p pr;
  g_task : Forall retry_bound (w_tasks w);
  g_fresh : ∀ x ex, mq_exchanges (w_rmq w) !! x = Some ex → (x < w_next w)%nat;
  g_handled : handled (w_rmq w);
  g_ready : amqp_works → brokers_ready (w_rmq w);
}.
Definition good_at (p : nat) (Φ : peer → Prop) : world → Prop :=
  good_for (P := λ q, if decide (q = p) then Φ else peer_good).
Definition good : world → Prop := good_for (P := λ _, peer_good).

(** A run that stops does not stop in a nil handler, nor, while both brokers
    are connected, in a send to a producer. *)
Definition good_exit (r : stop) (w : world) : Prop :=
  r ≠ PNilFunc ∧
  (amqp_works → r = HChan CMsgChan → center_connected (w_rmq w) = false).

Definition itr {A} (m : MW A) : Prop := ∀ w, good w → wp m (λ _, good) good_exit w.

(** ** Rules *)

Lemma itr_ret {A} (a : A) : itr (mret a).
Proof. intros w Hg. by apply wp_ret. Qed.
Lemma itr_skip : itr skip.
Proof. apply itr_ret. Qed.
Lemma itr_bind {A B} (m : MW A) (k : A → MW B) : itr m → (∀ a, itr (k a)) → itr (m ≫= k).
Proof.
  intros Hm Hk w Hg. apply wp_bind. eapply wp_mono; [by apply Hm | | done].
  intros a w' Hg'. by apply Hk.
Qed.
Lemma itr_gets {A} (f : world → A) : itr (gets f).
Proof. intros w Hg. by apply wp_gets. Qed.

Definition plain_stop (r : stop) : Prop := r ≠ PNilFunc ∧ r ≠ HChan CMsgChan.
Lemma itr_halt {A} r : plain_stop r → itr (halt r : MW A).
Proof. intros [H1' H2'] w Hg. apply wp_halt. by split. Qed.
Lemma itr_from_some {A} r (o : option A) : plain_stop r → itr (from_some r o).
Proof. intros Hr. destruct o; [apply itr_ret | by apply itr_halt]. Qed.
Lemma itr_modify f : (∀ w, good w → good (f w)) → itr (modify f).
Proof. intros Hf w Hg. by apply wp_modify, Hf. Qed.
Lemma itr_for_each {A} (l : list A) (body : A → MW unit) :
  (∀ x, itr (body x)) → itr (for_each l body).
Proof. intros Hb. induction l; simpl; [apply itr_skip|]. apply itr_bind; [apply Hb | done]. Qed.

(** Reads that learn something from the invariant. *)
Lemma itr_get_room {A} r (k : room → MW A) :
  (∀ x, r_onSendMessageHandler x = true → itr (k x)) → itr (get_room r ≫= k).
Proof.
  intros Hk w Hg. unfold get_room. apply wp_bind, wp_bind, wp_gets, wp_from_some; [|by split].
  intros x Hx. apply (Hk x); [|done]. by eapply g_room.
Qed.
Lemma itr_get_sess {A} s (k : session → MW A) :
  (∀ x, s_onSendMessageHandler x = true → Forall watcher_bound (s_watchers x) → itr (k x)) →
  itr (get_sess s ≫= k).
Proof.
  intros Hk w Hg. unfold get_sess. apply wp_bind, wp_bind, wp_gets, wp_from_some; [|by split].
  intros x Hx. destruct (g_sess w Hg s x Hx). by apply (Hk x).
Qed.
Lemma itr_get_peer {A} p (k : peer → MW A) :
  (∀ pr, p_onSendMessageHandler pr = true → itr (k pr)) → itr (get_peer p ≫= k).
Proof.
  intros Hk w Hg. unfold get_peer. apply wp_bind, wp_bind, wp_gets, wp_from_some; [|by split].
  intros x Hx. apply (Hk x); [|done]. by apply (g_peer w Hg) in Hx as [? _].
Qed.
Lemma itr_get_mgr {A} (k : roommgr → MW A) :
  (∀ m, m_onSendMessageHandler m = true → itr (k m)) → itr (gets w_mgr ≫= k).
Proof. intros Hk w Hg. apply wp_bind, wp_gets, Hk; [by destruct Hg | done]. Qed.

(** Writes. *)
Lemma fresh_S {A} (m : gmap nat A) n :
  (∀ x y, m !! x = Some y → (x < n)%nat) → ∀ x y, m !! x = Some y → (x < S n)%nat.
Proof. intros Hm x y Hx. apply Hm in Hx. lia. Qed.
Ltac good_frame := intros w []; split; done.
Lemma itr_emit e : itr (emit e).
Proof. apply itr_modify. good_frame. Qed.
Lemma itr_choose : itr choose.
Proof.
  apply itr_bind; [apply itr_gets|]. intros n. apply itr_bind; [|intros; apply itr_ret].
  apply itr_modify. good_frame.
Qed.
Lemma itr_GetSn : itr GetSn.
Proof.
  apply itr_bind; [apply itr_gets|]. intros c. apply itr_bind; [|intros; apply itr_ret].
  apply itr_modify. good_frame.
Qed.
Lemma itr_set_conf g : itr (modify (set_w_conf g)).
Proof. apply itr_modify. good_frame. Qed.
Lemma itr_lock_table f : itr (modify (set_w_locks f)).
Proof. apply itr_modify. good_frame. Qed.
Lemma itr_upd_mgr g :
  (∀ m, m_onSendMessageHandler m = true → m_onSendMessageHandler (g m) = true) → itr (upd_mgr g).
Proof. intros Hg. apply itr_modify. intros w []. split; try done. by apply Hg. Qed.
Lemma itr_spawn t : retry_bound t → itr (spawn t).
Proof.
  intros Ht. apply itr_modify. intros w []. split; try done.
  simpl. apply Forall_app. split; [done|]. by apply Forall_singleton.
Qed.

(** An update through a pointer keeps what holds of every object. *)
Lemma alter_all {A} (P : A → Prop) (g : A → A) (m : gmap nat A) i :
  (∀ x, P x → P (g x)) → (∀ j x, m !! j = Some x → P x) →
  ∀ j x, alter g i m !! j = Some x → P x.
Proof.
  intros Hg Hm j x. rewrite lookup_alter. case_decide as E; [|by apply Hm].
  subst j. intros (y & Hy & ->)%fmap_Some. by eapply Hg, Hm.
Qed.
Lemma insert_all {A} (P : A → Prop) (m : gmap nat A) i y :
  P y → (∀ j x, m !! j = Some x → P x) → ∀ j x, <[i := y]> m !! j = Some x → P x.
Proof. intros Hy Hm j x [[_ ->]|[_ ?]]%lookup_insert_Some; eauto. Qed.

Lemma itr_upd_room r g :
  (∀ x, r_onSendMessageHandler x = true → r_onSendMessageHandler (g x) = true) →
  itr (upd_room r g).
Proof.
  intros Hg. apply itr_modify. intros w []. split; try done.
  by apply (alter_all (λ x, r_onSendMessageHandler x = true)).
Qed.
Lemma itr_upd_sess s g : (∀ x, sess_good x → sess_good (g x)) → itr (upd_sess s g).
Proof.
  intros Hg. apply itr_modify. intros w []. split; try done. by apply (alter_all sess_good).
Qed.
Lemma itr_upd_peer p g :
  (∀ x, peer_good x → peer_good (g x)) → itr (upd_peer p g).
Proof.
  intros Hg. apply itr_modify. intros w []. split; try done. by apply (alter_all peer_good).
Qed.

(** A new peer has no handler until peer_SetSendMessageHandler gives it one. *)
Definition almost (p : nat) (w : world) : Prop :=
  good (set_w_peers (alter (set_p_onSendMessageHandler (λ _, true)) p) w).

Lemma alloc_peer_almost x w : peer_good (set_p_onSendMessageHandler (λ _, true) x) →
  good w → wp (alloc_peer x) almost good_exit w.
Proof.
  intros Hx [G1 G2 G3 G4 G5 G6 G7 G8]. unfold alloc_peer.
  apply wp_bind, wp_gets, wp_bind, wp_modify, wp_bind, wp_modify, wp_ret.
  split; try done; [|by apply fresh_S]. intros j y. simpl. rewrite lookup_alter. case_decide as E.
  - subst j. rewrite lookup_insert_eq. by intros [= <-].
  - rewrite lookup_insert_ne by done. apply G4.
Qed.

(** The constructors answer None or a peer that still needs its handler. *)
Definition made (o : option nat) (w : world) : Prop :=
  match o with None => good w | Some p => almost p w end.

Lemma itr_made (m : MW (option nat)) s none (k : nat → session → MW unit) :
  (∀ w, good w → wp m made good_exit w) → itr none →
  (∀ p x, s_onSendMessageHandler x = true → itr (k p x)) →
  itr (o ← m;
       match o with
       | None => none
       | Some p => x ← get_sess s; _ ← peer_SetSendMessageHandler p (s_onSendMessageHandler x); k p x
       end).
Proof.
  intros Hm Hn Hk w Hg. apply wp_bind. eapply wp_mono; [by apply Hm | | done].
  intros [p|] w' Hw'; [|by apply Hn].
  unfold get_sess. apply wp_bind, wp_bind, wp_gets, wp_from_some; [|by split].
  intros x Hx. assert (s_onSendMessageHandler x = true) as Ex by (by eapply (g_sess _ Hw')).
  apply wp_bind, wp_modify. rewrite Ex. apply Hk; done.
Qed.
Lemma itr_alloc_sess x : sess_good x → itr (alloc_sess x).
Proof.
  intros Hx. apply itr_bind; [apply itr_gets|]. intros n. apply itr_bind; [|intros _; apply itr_bind].
  - apply itr_modify. intros w []. split; try done. by apply fresh_S.
  - apply itr_modify. intros w []. split; try done. by apply (insert_all sess_good).
  - intros. apply itr_ret.
Qed.

Lemma itr_CreateRoom (k : nat → roommgr → MW unit) id :
  (∀ r m, itr (k r m)) →
  itr (r ← CreateRoom id; m ← gets w_mgr;
       _ ← room_SetSendMessageHandler r (m_onSendMessageHandler m); k r m).
Proof.
  intros Hk w [G1 G2 G3 G4 G5 G6 G7 G8]. unfold CreateRoom, alloc_room, room_SetSendMessageHandler, upd_room.
  apply wp_bind, wp_bind, wp_gets, wp_bind, wp_modify, wp_bind, wp_modify, wp_ret.
  apply wp_bind, wp_gets, wp_bind, wp_modify. apply Hk. split; try done; [|by apply fresh_S].
  intros j y. simpl. rewrite lookup_alter. case_decide as E.
  - subst j. rewrite lookup_insert_eq. intros [= <-]. done.
  - rewrite lookup_insert_ne by done. apply G2.
Qed.

(** Locks. *)
Ltac itr_lock :=
  apply itr_bind; [apply itr_gets|]; intros ?; repeat case_match;
  first [apply itr_lock_table | apply itr_halt; by split].
Lemma itr_Lock l : itr (Lock l).
Proof. itr_lock. Qed.
Lemma itr_Unlock l : itr (Unlock l).
Proof. itr_lock. Qed.
Lemma itr_RLock l : itr (RLock l).
Proof. itr_lock. Qed.
Lemma itr_RUnlock l : itr (RUnlock l).
Proof. itr_lock. Qed.

(** Loops over maps. *)
Lemma itr_range_map {A} (m : MW (gmap string A)) body :
  itr m → (∀ k v, itr (body k v)) → itr (range_map m body).
Proof.
  intros Hm Hb. apply itr_bind; [apply itr_choose|]. intros n.
  apply itr_bind; [done|]. intros m0. apply itr_for_each. intros k.
  apply itr_bind; [done|]. intros m1. destruct (m1 !! k); [apply Hb | apply itr_skip].
Qed.
Lemma itr_range_find {A B} (m : MW (gmap string A)) (body : string → A → MW (option B)) :
  itr m → (∀ k v, itr (body k v)) → itr (range_find m body).
Proof.
  intros Hm Hb. apply itr_bind; [apply itr_choose|]. intros n.
  apply itr_bind; [done|]. intros m0. induction (range_order n _) as [|k ks IH]; simpl; [apply itr_ret|].
  apply itr_bind; [done|]. intros m1. apply itr_bind.
  - destruct (m1 !! k); [apply Hb | apply itr_ret].
  - intros [b|]; [apply itr_ret | done].
Qed.
Lemma itr_range_collect {A B} (m : MW (gmap string A)) (body : string → A → MW B) :
  itr m → (∀ k v, itr (body k v)) → itr (range_collect m body).
Proof.
  intros Hm Hb. apply itr_bind; [apply itr_choose|]. intros n.
  apply itr_bind; [done|]. intros m0. induction (range_order n _) as [|k ks IH]; simpl; [apply itr_ret|].
  apply itr_bind; [done|]. intros m1. destruct (m1 !! k); [|done].
  apply itr_bind; [apply Hb|]. intros b. apply itr_bind; [done|]. intros l. apply itr_ret.
Qed.

Lemma itr_call_handler b topic msg : b = true → itr (call_handler b topic msg).
Proof. intros ->. apply itr_emit. Qed.

(** Publishing: a send to a broker that is connected finds its producer; the
    one exception tests the wrong flag, and can block when the shared broker
    is not connected. *)
Lemma itr_send (g : rmqstate → bool) (v : rmqstate → option nat) m :
  (∀ q, brokers_ready q → g q = true → center_connected q = true →
     producing (mq_exchanges q) (v q)) →
  itr (r ← gets w_rmq; if negb (g r) then skip else send_msgChan (v r) m).
Proof.
  intros Hp w Hg. apply wp_bind, wp_gets. destruct (g (w_rmq w)) eqn:Eg; simpl; [|by apply wp_ret].
  unfold send_msgChan, get_ex. apply wp_bind, wp_from_some; [|by split]. intros x Hx.
  apply wp_bind, wp_bind, wp_gets, wp_from_some; [|by split]. intros ex Hex.
  destruct (x_msgChan ex && x_producer ex) eqn:Eb; [by apply itr_emit|].
  apply wp_halt. split; [done|]. intros Ha _.
  destruct (center_connected (w_rmq w)) eqn:Ec; [|done].
  destruct (Hp _ (g_ready w Hg Ha) Eg Ec) as (x' & ex' & E1 & E2 & E3 & E4).
  rewrite Hx in E1. injection E1 as <-. rewrite Hex in E2. injection E2 as <-.
  by rewrite E3, E4 in Eb.
Qed.

Lemma itr_PublishMessage2LB msg : itr (PublishMessage2LB msg).
Proof. apply (itr_send connected exc_pub_dr). intros q Hq ? ?. by apply brokers_producing. Qed.
Lemma itr_PublishMessage2Pod key msg : itr (PublishMessage2Pod key msg).
Proof. apply (itr_send connected exc_pub_dr). intros q Hq ? ?. by apply brokers_producing. Qed.
Lemma itr_BroadcastMessage2Proxy msg : itr (BroadcastMessage2Proxy msg).
Proof. apply (itr_send connected exc_proxy_bc). intros q Hq ? ?. by apply brokers_producing. Qed.
Lemma itr_PublishMessage2CrossClusterPod key msg : itr (PublishMessage2CrossClusterPod key msg).
Proof. apply (itr_send connected exc_cross_cluster_dr). intros q Hq ? ?. by apply brokers_producing. Qed.
Lemma itr_BroadcastCrossClusterMessage msg : itr (BroadcastCrossClusterMessage msg).
Proof. apply (itr_send center_connected exc_cross_cluster_bc). intros q Hq ? ?. by apply brokers_producing. Qed.

#[local] Hint Resolve itr_ret itr_skip itr_gets itr_emit itr_choose itr_GetSn itr_set_conf
  itr_Lock itr_Unlock itr_RLock itr_RUnlock itr_call_handler itr_PublishMessage2LB
  itr_PublishMessage2Pod itr_BroadcastMessage2Proxy itr_PublishMessage2CrossClusterPod
  itr_BroadcastCrossClusterMessage : good.

(** One step of a proof that an operation keeps the invariant. *)
Ltac itr_step :=
  match goal with
  | |- itr (get_room _ ≫= _) => apply itr_get_room; intros
  | |- itr (get_sess _ ≫= _) => apply itr_get_sess; intros
  | |- itr (get_peer _ ≫= _) => apply itr_get_peer; intros
  | |- itr (gets w_mgr ≫= _) => apply itr_get_mgr; intros
  | |- itr (_ ≫= _) => apply itr_bind; [|intros]
  | |- itr (range_map _ _) => apply itr_range_map; [|intros]
  | |- itr (range_find _ _) => apply itr_range_find; [|intros]
  | |- itr (range_collect _ _) => apply itr_range_collect; [|intros]
  | |- itr (for_each _ _) => apply itr_for_each; intros
  | |- itr (halt _) => apply itr_halt; by split
  | |- itr (from_some _ _) => apply itr_from_some; by split
  | |- itr (upd_sess _ _) => apply itr_upd_sess; by intros ? []
  | |- itr (upd_peer _ _) => by apply itr_upd_peer
  | |- itr (upd_mgr _) => by apply itr_upd_mgr
  | |- itr (upd_room _ _) => by apply itr_upd_room
  | |- itr (spawn _) => by apply itr_spawn
  | |- itr (match ?x with _ => _ end) => destruct x
  | |- itr _ => solve [eauto with good nocore]
  end.
Ltac itr_auto := cbv zeta; repeat itr_step.

(** ** peer.go *)

Lemma itr_IsReady p : itr (IsReady p).
Proof. unfold IsReady. itr_auto. Qed.
Lemma itr_ShouldNotify p : itr (ShouldNotify p).
Proof. unfold ShouldNotify. itr_auto. Qed.
Lemma itr_isAudioSsrc p s : itr (isAudioSsrc p s).
Proof. unfold isAudioSsrc. itr_auto. Qed.
Lemma itr_isVideoSsrc p s : itr (isVideoSsrc p s).
Proof. unfold isVideoSsrc. itr_auto. Qed.
Lemma itr_sendPli p : itr (sendPli p).
Proof. unfold sendPli, getVideoSsrc. itr_auto. Qed.
#[local] Hint Resolve itr_IsReady itr_ShouldNotify itr_isAudioSsrc itr_isVideoSsrc itr_sendPli : good.

(** The filter: only requestKeyframeNow calls the function Shutdown clears. *)
Definition kf_plain (m : M kfst unit) : Prop := ∀ st r st', m st = Stop r st' → plain_stop r.

Lemma itr_on_filter p m : kf_plain m → itr (on_filter p m).
Proof.
  intros Hm. unfold on_filter. itr_step. itr_step; [itr_step|].
  destruct (m (_, [])) as [u [f' eff]|r [f' eff]] eqn:E.
  - itr_auto. unfold run_kfeff. itr_auto.
  - itr_step; [itr_step|]. by eapply itr_halt, Hm.
Qed.

Lemma kf_plain_Startup t : kf_plain (kf_Startup t).
Proof.
  intros [f e] r st'. unfold kf_Startup, startDelayTimer, kf_upd, mbind, M_bind, gets, modify.
  simpl. by destruct (tick f).
Qed.
Lemma kf_plain_Shutdown : kf_plain kf_Shutdown.
Proof.
  intros [f e] r st'. unfold kf_Shutdown, kf_exit_and_wait, kf_upd, mbind, M_bind, gets, modify.
  simpl. destruct (kf_timer f); simpl; [|done]. destruct (kf_goroutines f) as [|[|n]]; simpl; [done..|].
  intros [= <- _]. by split.
Qed.
Lemma kf_plain_Try t : kf_plain (kf_TryRequestKeyframe t).
Proof.
  intros [f e] r st'. unfold kf_TryRequestKeyframe, refreshMaxIntervalTimer, startDelayTimer, kf_emit,
    kf_upd, mbind, M_bind, gets, modify. simpl. by repeat case_match.
Qed.
Lemma kf_plain_fire i : kf_plain (kf_fire i).
Proof. by intros [f e] r st'. Qed.
Lemma kf_plain_timerExpired i : kf_plain (kf_timerExpired i).
Proof.
  intros [f e] r st'. unfold kf_timerExpired, kf_emit, kf_upd, mbind, M_bind, gets, modify.
  simpl. by repeat case_match.
Qed.
#[local] Hint Resolve itr_on_filter kf_plain_Startup kf_plain_Shutdown kf_plain_Try
  kf_plain_fire kf_plain_timerExpired : good.

Lemma itr_RequestKeyframe p : itr (RequestKeyframe p).
Proof. unfold RequestKeyframe, now_nano. itr_auto. Qed.
Lemma itr_Destroy p : itr (Destroy p).
Proof.
  unfold Destroy. itr_auto. apply itr_upd_peer. intros x (? & ? & _). by split_and!.
Qed.
#[local] Hint Resolve itr_RequestKeyframe itr_Destroy : good.

Lemma itr_slice_to b n : itr (slice_to b n).
Proof. unfold slice_to. itr_auto. Qed.
Lemma itr_track_write p v d : itr (track_write p v d).
Proof. unfold track_write. itr_auto. Qed.
#[local] Hint Resolve itr_slice_to itr_track_write : good.

Lemma itr_deliverAudioData p b n : itr (deliverAudioData p b n).
Proof. unfold deliverAudioData. itr_auto. Qed.
Lemma itr_deliverVideoData p b n : itr (deliverVideoData p b n).
Proof. unfold deliverVideoData. itr_auto. Qed.
Lemma itr_deliverAppData p b n : itr (deliverAppData p b n).
Proof. unfold deliverAppData. itr_auto. Qed.
#[local] Hint Resolve itr_deliverAudioData itr_deliverVideoData itr_deliverAppData : good.

Lemma new_connection_fresh m w : good w →
  wp (new_connection m) (λ o w', good w' ∧ ∀ pc, o = Some pc → pc_state pc = MkState new_signaling (engine_copy (engine_interceptors m).1)) good_exit w.
Proof.
  intros Hg. unfold new_connection. destruct (engine_interceptors m) as [m' []]; [by apply wp_ret|].
  apply wp_bind. eapply wp_mono; [by apply itr_choose | | done].
  intros k w2 Hg2. destruct (wr_new_pc k); simpl; apply wp_ret; [|done]. split; [done|]. by intros pc [= <-].
Qed.

(** A peer that was just made is settled. *)
Lemma peer_good_new x pc : p_onSendMessageHandler x = true → role_data x → p_setedRemoteDesc x = false →
  p_peerConnection x = Some pc → pc_state pc = MkState new_signaling server_engine → peer_good x.
Proof.
  intros Hh Hr Hf Hc Hs. split_and!; [done..|]. intros pc' Hc'. rewrite Hc in Hc'. injection Hc' as <-.
  unfold pc_sig, pc_media. rewrite Hs. split; [|apply engine_good_copy].
  apply settled_new; [|done]. destruct Hr as [[? _]|[? _]]; auto.
Qed.

Lemma CreatePublishPeer_made s sid pid podid b w :
  good w → wp (CreatePublishPeer s sid pid podid b) made good_exit w.
Proof.
  intros Hg. unfold CreatePublishPeer. rewrite init_codecs. cbv iota.
  apply wp_bind. eapply wp_mono; [by apply new_connection_fresh | | done].
  intros [pc|] w2 [Hg2 Hpc]; [|by apply wp_ret]. specialize (Hpc pc eq_refl).
  apply wp_bind. eapply wp_mono; [apply alloc_peer_almost; [|done] | | done].
  - eapply peer_good_new; [done | by left | done..].
  - intros p w3 Hp. by apply wp_ret.
Qed.
Lemma CreateSubscribePeer_made s sid ssid pid podid sdp a v b w :
  good w → wp (CreateSubscribePeer s sid ssid pid podid sdp a v b) made good_exit w.
Proof.
  intros Hg. unfold CreateSubscribePeer.
  apply wp_bind. eapply wp_mono; [by apply new_connection_fresh | | done].
  intros [pc|] w2 [Hg2 Hpc]; [|by apply wp_ret]. specialize (Hpc pc eq_refl).
  apply wp_bind. eapply wp_mono; [apply alloc_peer_almost; [|done] | | done].
  - eapply peer_good_new; [done | by right | done..].
  - intros p w3 Hp. by apply wp_ret.
Qed.

(** *** Calls that keep a connection settled *)

Definition state_good (pr : peer) (st : pcstate) : Prop := settled pr (st_sig st) ∧ engine_good server_engine (st_media st).

Lemma itr_pc_step {A} p op (f : pconn → pcstate * A) :
  (∀ pr pc, state_good pr (pc_state pc) → state_good pr (f pc).1) → itr (pc_step p op f).
Proof.
  intros Hf w Hg. unfold pc_step, get_peer. apply wp_bind, wp_bind, wp_gets, wp_from_some; [|by split].
  intros pr Hpr. apply wp_bind, wp_from_some; [|by split]. intros pc Hpc.
  apply wp_bind. apply wp_modify, wp_ret. destruct Hg as [G1 G2 G3 G4 G5 G6 G7 G8]. split; try done.
  intros q x. simpl. rewrite lookup_alter. case_decide as E; [|by apply G4]. subst q. rewrite Hpr. intros [= <-].
  destruct (G4 _ _ Hpr) as (? & ? & Hs). split_and!; [done..|]. intros pc' [= <-]. by apply (Hf pr pc), Hs.
Qed.
Lemma itr_pc_call {A} p op (f : pconn → A) : itr (pc_call p op f).
Proof. by apply itr_pc_step. Qed.
Lemma itr_pc_read {A} p (f : pconn → A) : itr (pc_read p f).
Proof. unfold pc_read. itr_auto. Qed.
#[local] Hint Resolve itr_pc_call itr_pc_read : good.

Lemma itr_must b : itr (must b).
Proof. unfold must. itr_auto. Qed.
#[local] Hint Resolve itr_must : good.

Lemma itr_desc_Unmarshal sdp : itr (desc_Unmarshal sdp).
Proof. unfold desc_Unmarshal. case_match; [apply itr_ret.. | by apply itr_halt | by apply itr_halt]. Qed.
#[local] Hint Resolve itr_desc_Unmarshal : good.

Lemma itr_AddICECandidate p c : itr (AddICECandidate p c).
Proof. unfold AddICECandidate. itr_auto. Qed.
Lemma itr_CreateOffer p : itr (CreateOffer p).
Proof.
  unfold CreateOffer. apply itr_bind; [|intros; itr_step]. apply itr_pc_step. intros pr pc Hs.
  destruct (offer_refused (pc_sig pc)), (wr_create_offer pc); try done.
  destruct Hs. split; [by apply settled_lastOffer | done].
Qed.
Lemma itr_add_track p m i s : itr (add_track p m i s).
Proof. unfold add_track. itr_auto. Qed.
Lemma itr_ssrc_attr a : itr (ssrc_attr a).
Proof. unfold ssrc_attr. itr_auto. Qed.
#[local] Hint Resolve itr_AddICECandidate itr_CreateOffer itr_add_track itr_ssrc_attr : good.

Lemma itr_HandleRemoteCandidate p j : itr (HandleRemoteCandidate p j).
Proof. unfold HandleRemoteCandidate. itr_auto. Qed.
Lemma itr_peer_roomid p : itr (peer_roomid p).
Proof. unfold peer_roomid. itr_auto. Qed.
#[local] Hint Resolve itr_HandleRemoteCandidate itr_peer_roomid : good.

(** *** Negotiation

    The handler of a peer, from what holds of the peer to what then holds of
    it; the other peers are settled. *)
Definition ptr {A} (p : nat) (Φ : peer → Prop) (m : MW A) (Ψ : A → peer → Prop) : Prop :=
  ∀ w, good_at p Φ w → wp m (λ a, good_at p (Ψ a)) good_exit w.

Lemma good_at_mono p (Φ Ψ : peer → Prop) w : (∀ pr, Φ pr → Ψ pr) → good_at p Φ w → good_at p Ψ w.
Proof.
  intros HΦ [G1 G2 G3 G4 G5 G6 G7 G8]. split; try done. intros q pr Hq. specialize (G4 q pr Hq).
  simpl in *. case_decide; auto.
Qed.
Lemma good_at_good p w : good_at p peer_good w ↔ good w.
Proof.
  split; intros [G1 G2 G3 G4 G5 G6 G7 G8]; (split; try done); intros q pr Hq; specialize (G4 q pr Hq); simpl in *;
    by case_decide.
Qed.

Lemma ptr_mono {A} p (Φ Φ' : peer → Prop) (m : MW A) (Ψ Ψ' : A → peer → Prop) :
  (∀ pr, Φ pr → Φ' pr) → ptr p Φ' m Ψ' → (∀ a pr, Ψ' a pr → Ψ a pr) → ptr p Φ m Ψ.
Proof.
  intros HΦ Hm HΨ w Hg. eapply wp_mono; [apply Hm; by eapply good_at_mono | | done].
  intros a w'. apply good_at_mono, HΨ.
Qed.
Lemma ptr_itr {A} p Φ (m : MW A) : (∀ pr, Φ pr → peer_good pr) → itr m → ptr p Φ m (λ _, peer_good).
Proof.
  intros HΦ Hm w Hg. eapply wp_mono; [apply Hm, (good_at_good p); by eapply good_at_mono | | done].
  intros a w'. by apply good_at_good.
Qed.
Lemma itr_ptr {A} p (m : MW A) Ψ : ptr p peer_good m Ψ → (∀ a pr, Ψ a pr → peer_good pr) → itr m.
Proof.
  intros Hm HΨ w Hg. eapply wp_mono; [by apply Hm, good_at_good | | done].
  intros a w' Hw'. apply (good_at_good p). by eapply good_at_mono, Hw'; intros ?; apply HΨ.
Qed.

Lemma ptr_ret {A} p (a : A) (Φ : peer → Prop) : ptr p Φ (mret a) (λ _, Φ).
Proof. intros w Hg. by apply wp_ret. Qed.
Lemma ptr_bind {A B} p Φ (m : MW A) Ψ (k : A → MW B) Ξ : ptr p Φ m Ψ → (∀ a, ptr p (Ψ a) (k a) Ξ) → ptr p Φ (m ≫= k) Ξ.
Proof.
  intros Hm Hk w Hg. apply wp_bind. eapply wp_mono; [by apply Hm | | done]. intros a w' Hg'. by apply Hk.
Qed.
Lemma ptr_halt {A} p Φ r (Ψ : A → peer → Prop) : plain_stop r → ptr p Φ (halt r) Ψ.
Proof. intros [H1' H2'] w Hg. apply wp_halt. by split. Qed.
Lemma ptr_some {A B} p Φ r (o : option A) (k : A → MW B) Ξ :
  plain_stop r → (∀ a, o = Some a → ptr p Φ (k a) Ξ) → ptr p Φ (from_some r o ≫= k) Ξ.
Proof. intros Hr Hk. destruct o; [by apply Hk|]. intros w Hg. by apply (ptr_halt p Φ r Ξ). Qed.
Lemma ptr_must {B} p Φ b (k : unit → MW B) Ξ : (b = true → ptr p Φ (k tt) Ξ) → ptr p Φ (must b ≫= k) Ξ.
Proof. intros Hk. destruct b; [by apply Hk|]. intros w Hg. by apply (ptr_halt p Φ PExplicit Ξ). Qed.
Lemma ptr_for_each {A} p Φ (l : list A) body :
  (∀ x, ptr p Φ (body x) (λ _, Φ)) → ptr p Φ (for_each l body) (λ _, Φ).
Proof. intros Hb. induction l; simpl; [apply ptr_ret|]. by eapply ptr_bind. Qed.
Lemma ptr_choose p Φ : ptr p Φ choose (λ _, Φ).
Proof. intros w []. by split. Qed.

Lemma ptr_peer {B} p Φ (k : peer → MW B) Ξ : (∀ pr, Φ pr → ptr p (eq pr) (k pr) Ξ) → ptr p Φ (get_peer p ≫= k) Ξ.
Proof.
  intros Hk w Hg. unfold get_peer. apply wp_bind, wp_bind, wp_gets, wp_from_some; [|by split].
  intros pr Hpr. destruct Hg as [G1 G2 G3 G4 G5 G6 G7 G8]. pose proof (G4 _ _ Hpr) as HΦ. rewrite decide_True in HΦ by done.
  apply (Hk pr HΦ). split; try done. intros q x Hq. specialize (G4 q x Hq). simpl in *. case_decide; [congruence | done].
Qed.
Lemma ptr_upd p (Φ Ψ : peer → Prop) g : (∀ pr, Φ pr → Ψ (g pr)) → ptr p Φ (upd_peer p g) (λ _, Ψ).
Proof.
  intros Hg w [G1 G2 G3 G4 G5 G6 G7 G8]. apply wp_modify. split; try done. intros q x. simpl. rewrite lookup_alter.
  case_decide as E; [|rewrite decide_False by done; intros Hx; specialize (G4 _ _ Hx); by rewrite decide_False in G4 by done].
  subst q. rewrite decide_True by done. intros (y & Hy & ->)%fmap_Some. specialize (G4 _ _ Hy). rewrite decide_True in G4 by done.
  by apply Hg.
Qed.
Lemma ptr_step {A} p (Φ : peer → Prop) op (f : pconn → pcstate * A) (Ψ : A → peer → Prop) :
  (∀ pr pc, Φ pr → p_peerConnection pr = Some pc →
     Ψ (f pc).2 (set_p_peerConnection (λ _, Some (MkPc (pc_id pc) (pc_log pc ++ [op]) (f pc).1)) pr)) →
  ptr p Φ (pc_step p op f) Ψ.
Proof.
  intros Hf. unfold pc_step. apply ptr_peer. intros pr HΦ. apply ptr_some; [by split|]. intros pc Hpc.
  eapply ptr_bind; [apply (ptr_upd p _ (Ψ (f pc).2)); intros x <-; by apply Hf|]. intros _ w Hg. by apply wp_ret.
Qed.
Lemma ptr_read {A B} p Φ (f : pconn → A) (k : A → MW B) Ξ :
  (∀ a, ptr p Φ (k a) Ξ) → ptr p Φ (pc_read p f ≫= k) Ξ.
Proof.
  intros Hk. eapply ptr_bind; [|exact Hk]. intros w Hg. unfold pc_read, get_peer.
  apply wp_bind, wp_bind, wp_gets, wp_from_some; [|by split]. intros pr Hpr.
  apply wp_bind, wp_from_some; [|by split]. intros pc Hpc. by apply wp_ret.
Qed.
Lemma ptr_desc_Unmarshal p Φ sdp : ptr p Φ (desc_Unmarshal sdp) (λ _, Φ).
Proof. unfold desc_Unmarshal. case_match; [apply ptr_ret.. | by apply ptr_halt | by apply ptr_halt]. Qed.

(** The codecs of a remote description. *)
Lemma remote_codecs_good pc sdp : engine_good server_engine (pc_media pc) → engine_good server_engine (remote_codecs pc sdp).1.
Proof. intros Hg. unfold remote_codecs. case_match; [|done..]. by apply update_good. Qed.

(** The descriptions the handlers set. *)
Lemma ptr_SetRemoteDescription p (Φ Ψ : peer → Prop) ty sdp :
  (∀ pr pc s' m, Φ pr → p_peerConnection pr = Some pc → (engine_good server_engine (pc_media pc) → engine_good server_engine m) →
     setDescription (pc_sig pc) (MkDesc (NewSDPType ty) sdp) stateChangeOpSetRemote = (s', None) →
     Ψ (set_p_peerConnection (λ _, Some (MkPc (pc_id pc) (pc_log pc ++ [OpSetRemote ty sdp]) (MkState s' m))) pr)) →
  ptr p Φ (SetRemoteDescription p ty sdp) (λ _, Ψ).
Proof.
  intros Hs. unfold SetRemoteDescription. apply ptr_read. intros closed. apply ptr_must. intros _.
  eapply ptr_bind; [apply ptr_desc_Unmarshal|]. intros parsed. apply ptr_some; [by split|]. intros d _.
  eapply ptr_bind; [apply (ptr_step _ _ _ _ (λ ok pr, ok = true → Ψ pr)) | intros ok].
  - intros pr pc HΦ Hpc. unfold describe_remote. destruct (setDescription _ _ _) as [s' [e|]] eqn:E; [done|]. intros _.
    eapply Hs; [done | done | apply remote_codecs_good | done].
  - destruct ok; [|by apply ptr_halt]. apply (ptr_mono p _ Ψ _ _ (λ _, Ψ)); [auto | apply ptr_ret | done].
Qed.

Lemma ptr_SetLocalDescription p (Φ Ψ : peer → Prop) ty sdp :
  (∀ pr pc s' text, Φ pr → p_peerConnection pr = Some pc →
     setDescription (pc_sig pc) (MkDesc (NewSDPType ty) text) stateChangeOpSetLocal = (s', None) →
     Ψ (set_p_peerConnection (λ _, Some (MkPc (pc_id pc) (pc_log pc ++ [OpSetLocal ty text]) (with_sig s' pc))) pr)) →
  ptr p Φ (SetLocalDescription p ty sdp) (λ _, Ψ).
Proof.
  intros Hs. unfold SetLocalDescription. apply ptr_read. intros closed. apply ptr_must. intros _.
  apply ptr_read. intros text. apply ptr_some; [by split|]. intros t _.
  eapply ptr_bind; [apply ptr_desc_Unmarshal|]. intros parsed. apply ptr_some; [by split|]. intros d _.
  eapply ptr_bind; [apply (ptr_step _ _ _ _ (λ ok pr, ok = true → Ψ pr)) | intros ok].
  - intros pr pc HΦ Hpc. unfold describe_local. destruct (setDescription _ _ _) as [s' [e|]] eqn:E; [done|]. intros _. by eapply Hs.
  - destruct ok; [|by apply ptr_halt]. apply (ptr_mono p _ Ψ _ _ (λ _, Ψ)); [auto | apply ptr_ret | done].
Qed.

(** The candidates that came early go to a connection with a remote
    description. *)
Lemma itr_cached p : ptr p described (SetCachedCandidates p) (λ _, peer_good).
Proof.
  unfold SetCachedCandidates. eapply ptr_bind; [apply (ptr_upd _ _ peer_good)|].
  - intros pr ((Hh & Hr & Hs) & Hd). split_and!; [done..|]. intros pc Hpc. destruct (Hs pc Hpc), (Hd pc Hpc). by split; [apply settled_seted|].
  - intros ?. apply ptr_itr; [done|]. itr_auto.
Qed.

(** A peer that has lists of ssrcs is a publisher. *)
Lemma ptr_setSsrcFromSDP p s : ptr p peer_good (setSsrcFromSDP p s) (λ ok pr, ok = true → publisher pr).
Proof.
  assert (∀ push l, (∀ g pr, publisher pr → publisher (push g pr)) →
            ptr p publisher (push_ssrcs p push l) (λ _, publisher)) as Hpush.
  { intros push l Hp. unfold push_ssrcs. apply ptr_for_each. intros a.
    apply (ptr_bind _ _ _ (λ _, publisher)); [|intros [z|]; [by apply ptr_upd, Hp | apply ptr_ret]].
    unfold ssrc_attr. case_decide; [|apply ptr_ret]. apply ptr_some; [by split|]. intros name _.
    case_decide; [|apply ptr_ret]. apply ptr_some; [by split|]. intros num _. apply ptr_some; [by split|]. intros z _. apply ptr_ret. }
  assert (∀ g, (∀ pr, publisher pr → publisher (g pr)) → ptr p publisher (upd_peer p g) (λ _, publisher)) as Hupd
    by (intros; by apply ptr_upd).
  assert (∀ pr x, publisher pr → p_role x = p_role pr → p_onSendMessageHandler x = p_onSendMessageHandler pr →
    p_publishersdp x = p_publishersdp pr → p_peerConnection x = p_peerConnection pr →
    p_setedRemoteDesc x = p_setedRemoteDesc pr → publisher x) as Hsame.
  { intros pr x [(Hh & Hr & Hs) Hrole] E1 E2 E3 E4 E5. split; [|congruence].
    split_and!; [congruence | left; split; [congruence | destruct Hr as [[_ ?]|[? _]]; congruence] |].
    intros pc Hpc. rewrite E4 in Hpc. unfold settled. rewrite E1, E5. by apply Hs. }
  unfold setSsrcFromSDP. eapply ptr_bind; [apply ptr_desc_Unmarshal|]. intros [medias|]; 
    [|intros w Hg; apply wp_ret; by eapply good_at_mono, Hg].
  apply ptr_peer. intros pr Hpr. apply ptr_some; [by split|]. intros l Hl.
  assert (publisher pr) as Hpub by (split; [done|]; destruct Hpr as (_ & [[? _]|[_ ?]] & _); congruence).
  eapply ptr_mono; [by intros x <- | | intros a x Hx _; exact Hx].
  do 3 (eapply ptr_bind; [apply Hupd; intros x Hx; by eapply Hsame | intros ?; try (apply ptr_some; [by split|]; intros ? _)]).
  eapply ptr_bind; [|intros; apply ptr_ret]. apply ptr_for_each. intros m.
  repeat case_decide; try (apply Hpush; intros g x Hx; by eapply Hsame). apply ptr_ret.
Qed.

Lemma itr_accept_offer p s : itr (accept_offer p s).
Proof.
  eapply (itr_ptr p); [|intros a pr Hpr; exact Hpr]. unfold accept_offer.
  eapply ptr_bind; [apply ptr_setSsrcFromSDP|]. intros ok. apply ptr_must. intros ->.
  apply (ptr_mono p _ publisher _ _ (λ _, peer_good)); [intros pr Hpr; by apply Hpr | | done].
  eapply ptr_bind; [apply (ptr_SetRemoteDescription _ _ answering)|].
  { intros pr pc s' m [(Hh & Hr & Hs) Hrole] Hpc Hm E. destruct (Hs pc Hpc) as [Hs1 Hs2]. split_and!; [done..|]. intros pc' [= <-].
    split; [|by apply Hm]. by eapply set_remote_offer. }
  intros ?. eapply ptr_bind; [by apply (ptr_upd _ _ answering)|]. intros ?.
  eapply (ptr_bind _ _ _ (λ _, answering)); [|intros answer; eapply ptr_bind; [apply (ptr_SetLocalDescription _ _ described)|]].
  - unfold CreateAnswer. eapply ptr_bind; [apply (ptr_step _ _ _ _ (λ _, answering)) | intros o; destruct o; [apply ptr_ret | by apply ptr_halt]].
    intros pr pc (Hh & Hr & Hrole & Hs) Hpc. split_and!; [done..|]. intros pc' [= <-]. destruct (Hs pc Hpc) as [([] & ? & ? & ?) ?].
    destruct (answer_refused (pc_sig pc)), (wr_create_answer pc); by split_and!.
  - intros pr pc s' text (Hh & Hr & Hrole & Hs) Hpc E. destruct (Hs pc Hpc) as [(Hok & _ & Hst & _) Hm].
    destruct (set_local_answer pr _ _ _ Hok Hst Hrole E) as [Hs' Hd].
    split; [split_and!; [done..|]|]; intros pc' [= <-]; done.
  - intros ?. eapply ptr_bind; [apply itr_cached | intros; apply ptr_ret].
Qed.

Lemma itr_accept_answer p s : itr (accept_answer p s).
Proof.
  eapply (itr_ptr p); [|intros a pr Hpr; exact Hpr]. unfold accept_answer.
  eapply ptr_bind; [apply (ptr_SetRemoteDescription _ _ described)|].
  { intros pr pc s' m (Hh & Hr & Hs) Hpc Hm E. destruct (Hs pc Hpc) as [Hs1 Hs2]. apply Hm in Hs2. destruct (set_remote_answer _ _ _ _ Hs1 E) as [Hs' Hd].
    split; [split_and!; [done..|]|]; intros pc' [= <-]; done. }
  intros ?. eapply ptr_bind; [by apply (ptr_upd _ _ described)|]. intros ?. apply itr_cached.
Qed.
#[local] Hint Resolve itr_accept_offer itr_accept_answer : good.

(** A peer with a description to offer is a subscriber. *)
Lemma ptr_sub_media p m : ptr p subscriber (sub_media p m) (λ _, subscriber).
Proof.
  assert (∀ A op (f : pconn → A), ptr p subscriber (pc_call p op f) (λ _, subscriber)) as Hcall.
  { intros A op f. apply ptr_step. intros pr pc [(Hh & Hr & Hs) Hrole] Hpc. split; [|done].
    split_and!; [done..|]. intros pc' [= <-]. exact (Hs pc Hpc). }
  assert (∀ mime id st, ptr p subscriber (add_track p mime id st) (λ _, subscriber)) as Htrack.
  { intros. unfold add_track.
    eapply ptr_bind; [apply Hcall|]. intros []; [apply ptr_ret | by apply ptr_halt]. }
  unfold sub_media. repeat case_decide; [..|apply ptr_ret].
  1-2: (eapply ptr_bind; [apply Htrack|]; intros ?; eapply ptr_bind; [by apply (ptr_upd _ _ subscriber)|]; intros ?; by apply ptr_upd).
  eapply ptr_bind; [apply Hcall|]. intros ok. apply ptr_must. intros ?. by apply ptr_upd.
Qed.

(** The common part of HandleSubscribe and HandleFakeSubscribe. *)
Lemma itr_make_offer p (k : string → MW unit) : (∀ offer, itr (k offer)) →
  itr (medias ← publisher_media p; _ ← for_each medias (sub_media p);
       offer ← CreateOffer p; _ ← SetLocalDescription p "offer" offer; k offer).
Proof.
  intros Hk. eapply (itr_ptr p); [|intros a pr Hpr; exact Hpr].
  eapply (ptr_bind _ _ _ (λ _, subscriber)).
  { unfold publisher_media. apply ptr_peer. intros pr Hpr. apply ptr_some; [by split|]. intros sdp Hsdp.
    apply (ptr_mono p _ subscriber _ _ (λ _, subscriber)); [intros x <- | | done].
    - split; [done|]. destruct Hpr as (_ & [[_ ?]|[? _]] & _); congruence.
    - eapply ptr_bind; [apply ptr_desc_Unmarshal|]. intros [d|]; [apply ptr_ret | by apply ptr_halt]. }
  intros medias. eapply ptr_bind; [apply ptr_for_each, ptr_sub_media|]. intros ?.
  eapply (ptr_bind _ _ _ (λ _, subscriber)).
  { unfold CreateOffer. eapply ptr_bind; [apply (ptr_step _ _ _ _ (λ _, subscriber)) | intros o; destruct o; [apply ptr_ret | by apply ptr_halt]].
    intros pr pc [(Hh & Hr & Hs) Hrole] Hpc. split; [|done]. split_and!; [done..|]. intros pc' [= <-]. specialize (Hs pc Hpc).
    destruct (offer_refused (pc_sig pc)), (wr_create_offer pc); try done.
    destruct Hs. split; [by apply settled_lastOffer | done]. }
  intros offer. eapply ptr_bind; [apply (ptr_SetLocalDescription _ _ peer_good) | intros ?; by apply ptr_itr].
  intros pr pc s' text [(Hh & Hr & Hs) Hrole] Hpc E. destruct (Hs pc Hpc) as [Hs1 Hs2]. split_and!; [done..|]. intros pc' [= <-].
  split; [|done]. by eapply set_local_offer.
Qed.

Lemma itr_HandleSubscribe p j : itr (HandleSubscribe p j).
Proof. unfold HandleSubscribe. apply itr_make_offer. intros. itr_auto. Qed.
Lemma itr_HandleRemoteOffer p j : itr (HandleRemoteOffer p j).
Proof. unfold HandleRemoteOffer. itr_auto. Qed.
Lemma itr_HandleRemoteAnswer p j : itr (HandleRemoteAnswer p j).
Proof. unfold HandleRemoteAnswer. itr_auto. Qed.
Lemma itr_HandleFakeSubscribe p j : itr (HandleFakeSubscribe p j).
Proof. unfold HandleFakeSubscribe. apply itr_make_offer. intros. itr_auto. Qed.
Lemma itr_HandleFakeOffer p j : itr (HandleFakeOffer p j).
Proof. unfold HandleFakeOffer. itr_auto. Qed.
Lemma itr_HandleFakeAnswer p j : itr (HandleFakeAnswer p j).
Proof. unfold HandleFakeAnswer. itr_auto. Qed.
#[local] Hint Resolve itr_HandleSubscribe itr_HandleRemoteOffer itr_HandleRemoteAnswer
  itr_HandleFakeSubscribe itr_HandleFakeOffer itr_HandleFakeAnswer : good.

Lemma itr_peer_HandleMessage p j : itr (peer_HandleMessage p j).
Proof. unfold peer_HandleMessage. itr_auto. Qed.
Lemma itr_local_candidate p c : itr (local_candidate p c).
Proof. unfold local_candidate. itr_auto. Qed.
#[local] Hint Resolve itr_peer_HandleMessage itr_local_candidate : good.

Lemma itr_pub_OnICECandidate p c : itr (pub_OnICECandidate p c).
Proof. unfold pub_OnICECandidate. itr_auto. Qed.
Lemma itr_sub_OnICECandidate p c : itr (sub_OnICECandidate p c).
Proof. unfold sub_OnICECandidate. itr_auto. Qed.
Lemma itr_CheckIceInfo p t ip port : itr (CheckIceInfo p t ip port).
Proof. unfold CheckIceInfo. itr_auto. Qed.
#[local] Hint Resolve itr_pub_OnICECandidate itr_sub_OnICECandidate itr_CheckIceInfo : good.

(** ** Notices *)

Lemma itr_room_sessions r : itr (room_sessions r).
Proof. unfold room_sessions. itr_auto. Qed.
Lemma itr_sess_roomid s : itr (sess_roomid s).
Proof. unfold sess_roomid. itr_auto. Qed.
Lemma itr_notifyServiceNotAvailable c s : itr (notifyServiceNotAvailable c s).
Proof. unfold notifyServiceNotAvailable. itr_auto. Qed.
Lemma itr_roommgr_notifyNotLogin c s : itr (roommgr_notifyNotLogin c s).
Proof. unfold roommgr_notifyNotLogin. itr_auto. Qed.
Lemma itr_room_notifyNotLogin r c s : itr (room_notifyNotLogin r c s).
Proof. unfold room_notifyNotLogin. itr_auto. Qed.
Lemma itr_notifyNotFoundPublishSession r c s t : itr (notifyNotFoundPublishSession r c s t).
Proof. unfold notifyNotFoundPublishSession. itr_auto. Qed.
Lemma itr_notifyLeaveRoom r s : itr (notifyLeaveRoom r s).
Proof. unfold notifyLeaveRoom, now_unix. itr_auto. Qed.
Lemma itr_notifyNotFoundPublishPeer s c u p : itr (notifyNotFoundPublishPeer s c u p).
Proof. unfold notifyNotFoundPublishPeer. itr_auto. Qed.
Lemma itr_notifyNotFoundSubscribePeer s c u p : itr (notifyNotFoundSubscribePeer s c u p).
Proof. unfold notifyNotFoundSubscribePeer. itr_auto. Qed.
Lemma itr_notifyCreatePeerFailed s c u p : itr (notifyCreatePeerFailed s c u p).
Proof. unfold notifyCreatePeerFailed. itr_auto. Qed.
#[local] Hint Resolve itr_room_sessions itr_sess_roomid itr_notifyServiceNotAvailable
  itr_roommgr_notifyNotLogin itr_room_notifyNotLogin itr_notifyNotFoundPublishSession
  itr_notifyLeaveRoom itr_notifyNotFoundPublishPeer itr_notifyNotFoundSubscribePeer
  itr_notifyCreatePeerFailed : good.

Lemma itr_notifyReleasePublish s p : itr (notifyReleasePublish s p).
Proof. unfold notifyReleasePublish, now_unix. itr_auto. Qed.
Lemma itr_notifyStopPush r b s p : itr (notifyStopPush r b s p).
Proof. unfold notifyStopPush. itr_auto. Qed.
#[local] Hint Resolve itr_notifyReleasePublish itr_notifyStopPush : good.

(** ** session.go *)

Lemma itr_CreateSession r id name b : b = true → itr (CreateSession r id name b).
Proof. intros ->. unfold CreateSession, now_unix. itr_step; [itr_auto|]. by apply itr_alloc_sess. Qed.
Lemma itr_sess_pubs s : itr (sess_pubs s).
Proof. unfold sess_pubs. itr_auto. Qed.
Lemma itr_sess_subs s : itr (sess_subs s).
Proof. unfold sess_subs. itr_auto. Qed.
Lemma itr_del_pub s k : itr (del_pub s k).
Proof. unfold del_pub. itr_auto. Qed.
Lemma itr_del_sub s k : itr (del_sub s k).
Proof. unfold del_sub. itr_auto. Qed.
Lemma itr_put_pub s k p : itr (put_pub s k p).
Proof. unfold put_pub. itr_auto. Qed.
Lemma itr_put_sub s k p : itr (put_sub s k p).
Proof. unfold put_sub. itr_auto. Qed.
Lemma itr_SetFakeSession s c p : itr (SetFakeSession s c p).
Proof. unfold SetFakeSession. itr_auto. Qed.
Lemma itr_CheckKeepAlive s : itr (CheckKeepAlive s).
Proof. unfold CheckKeepAlive, now_unix. itr_auto. Qed.
#[local] Hint Resolve itr_sess_pubs itr_sess_subs itr_del_pub itr_del_sub itr_put_pub itr_put_sub
  itr_SetFakeSession itr_CheckKeepAlive : good.

(** The watchers: a goroutine of FakeSubscribe starts with the count it is
    given, and counts down. *)
Lemma itr_exit_and_wait s : itr (exit_and_wait s).
Proof.
  unfold exit_and_wait. itr_auto. apply itr_upd_sess. intros ? [? ?]. split; [done|].
  by apply Forall_drop.
Qed.
Lemma itr_FakeSubscribe s sid pid n :
  0 ≤ n ≤ CLUSTER_RECONNECTION_MAXTIMES → itr (FakeSubscribe s sid pid n).
Proof.
  intros Hn. unfold FakeSubscribe, now_nano. itr_auto. apply itr_upd_sess. intros ? [? ?].
  split; [done|]. simpl. apply Forall_app. split; [done|]. by apply Forall_singleton.
Qed.
#[local] Hint Resolve itr_exit_and_wait itr_FakeSubscribe : good.
Lemma itr_FakePublisherReConnect s sid pid n :
  0 ≤ n ≤ CLUSTER_RECONNECTION_MAXTIMES → itr (FakePublisherReConnect s sid pid n).
Proof. intros Hn. unfold FakePublisherReConnect. itr_auto. Qed.

Lemma itr_set_watcher s i x : watcher_bound x → itr (upd_sess s (set_s_watchers <[i := x]>)).
Proof.
  intros Hx. apply itr_upd_sess. intros y [? ?]. split; [done|]. simpl. by apply Forall_insert.
Qed.
Lemma itr_watcher_fire s i : itr (watcher_fire s i).
Proof.
  unfold watcher_fire. itr_step. destruct (s_watchers x !! i) as [wt|] eqn:Ei; [|itr_auto].
  assert (watcher_bound wt) as [B1 B2] by (eapply Forall_lookup_1; eassumption).
  itr_step; [by itr_auto|]. case_match; [by apply itr_set_watcher|].
  destruct (0 <? wt_curtime wt) eqn:E0; [|by apply itr_set_watcher]. apply Z.ltb_lt in E0.
  itr_step; [apply itr_set_watcher; split; simpl; lia | apply itr_spawn; simpl; lia].
Qed.
Lemma itr_watcher_exit s i : itr (watcher_exit s i).
Proof.
  unfold watcher_exit. itr_auto. apply itr_upd_sess. intros ? [? ?]. split; [done|]. simpl.
  by apply Forall_delete.
Qed.

Lemma itr_ReleaseSubscriberPeer s a b c : itr (ReleaseSubscriberPeer s a b c).
Proof. unfold ReleaseSubscriberPeer. itr_auto. Qed.
Lemma itr_RequestPli s p : itr (RequestPli s p).
Proof. unfold RequestPli. itr_auto. Qed.
Lemma itr_notify_if_needed s v p : itr (notify_if_needed s v p).
Proof. unfold notify_if_needed. itr_auto. Qed.
#[local] Hint Resolve itr_ReleaseSubscriberPeer itr_RequestPli itr_notify_if_needed : good.

Lemma itr_DoLeave s : itr (DoLeave s).
Proof. unfold DoLeave. itr_auto. Qed.
Lemma itr_ReleasePublisher s a b : itr (ReleasePublisher s a b).
Proof. unfold ReleasePublisher. itr_auto. Qed.
Lemma itr_HandleSubscriberLeaved s a : itr (HandleSubscriberLeaved s a).
Proof. unfold HandleSubscriberLeaved. itr_auto. Qed.
Lemma itr_first_ready s : itr (first_ready s).
Proof. unfold first_ready. itr_auto. Qed.
Lemma itr_drop_publisher s p : itr (drop_publisher s p).
Proof. unfold drop_publisher. itr_auto. Qed.
Lemma itr_drop_subscriber s k : itr (drop_subscriber s k).
Proof. unfold drop_subscriber. itr_auto. Qed.
Lemma itr_publisher_info s v : itr (publisher_info s v).
Proof. unfold publisher_info, GetAudioCodec, GetVideoCodec. itr_auto. Qed.
#[local] Hint Resolve itr_DoLeave itr_ReleasePublisher itr_HandleSubscriberLeaved itr_first_ready
  itr_drop_publisher itr_drop_subscriber itr_publisher_info : good.

Lemma itr_hasPublisher s : itr (hasPublisher s).
Proof. unfold hasPublisher. itr_auto. Qed.
Lemma itr_HasOriginPublisher s : itr (HasOriginPublisher s).
Proof. unfold HasOriginPublisher. itr_auto. Qed.
#[local] Hint Resolve itr_hasPublisher itr_HasOriginPublisher : good.

Lemma itr_session_push s u p : itr (session_push s u p).
Proof.
  unfold session_push. itr_step; [itr_auto|]. apply itr_made; [|itr_auto | intros; itr_auto].
  intros w Hg. by apply CreatePublishPeer_made.
Qed.
Lemma itr_session_fakeoffer s j u p : itr (session_fakeoffer s j u p).
Proof.
  unfold session_fakeoffer. cbv zeta. itr_step; [itr_auto|]. apply itr_made; [|itr_auto | intros; itr_auto].
  intros w Hg. by apply CreatePublishPeer_made.
Qed.
Lemma itr_session_sub s j c u r p : itr (session_sub s j c u r p).
Proof.
  unfold session_sub. cbv zeta. itr_step; [itr_auto|]. destruct (a !! p) as [v|]; [|itr_auto].
  itr_step; [itr_auto|]. destruct a0 as [[? ?] ?]. itr_step; [itr_auto|].
  apply itr_made; [|itr_auto | intros; itr_auto]. intros w Hg. by apply CreateSubscribePeer_made.
Qed.
Lemma itr_session_fakesubscribe s j r p : itr (session_fakesubscribe s j r p).
Proof.
  unfold session_fakesubscribe. cbv zeta. itr_step; [itr_auto|]. destruct (a !! p) as [v|]; [|itr_auto].
  itr_step; [itr_auto|]. destruct a0 as [[? ?] ?]. itr_step; [itr_auto|].
  apply itr_made; [|itr_auto | intros; itr_auto]. intros w Hg. by apply CreateSubscribePeer_made.
Qed.
#[local] Hint Resolve itr_session_push itr_session_fakeoffer itr_session_sub
  itr_session_fakesubscribe : good.

Lemma itr_session_stoppush s u p : itr (session_stoppush s u p).
Proof. unfold session_stoppush. itr_auto. Qed.
Lemma itr_session_stopsub s u r p : itr (session_stopsub s u r p).
Proof. unfold session_stopsub. itr_auto. Qed.
Lemma itr_session_offer s j c u p : itr (session_offer s j c u p).
Proof. unfold session_offer. itr_auto. Qed.
Lemma itr_session_answer s j c u r p : itr (session_answer s j c u r p).
Proof. unfold session_answer. itr_auto. Qed.
Lemma itr_session_roomcreated s j : itr (session_roomcreated s j).
Proof. unfold session_roomcreated. itr_auto. Qed.
Lemma itr_session_fakeanswer s j r p : itr (session_fakeanswer s j r p).
Proof. unfold session_fakeanswer. itr_auto. Qed.
#[local] Hint Resolve itr_session_stoppush itr_session_stopsub itr_session_offer
  itr_session_answer itr_session_roomcreated itr_session_fakeanswer : good.

Lemma itr_session_fakecandidate s j r p : itr (session_fakecandidate s j r p).
Proof. unfold session_fakecandidate. itr_auto. Qed.
#[local] Hint Resolve itr_session_fakecandidate : good.

Lemma itr_session_HandleMessage s j : itr (session_HandleMessage s j).
Proof. unfold session_HandleMessage, now_unix. itr_auto. by apply itr_FakeSubscribe. Qed.
#[local] Hint Resolve itr_session_HandleMessage : good.

Lemma itr_OnIceReady s r a b c : itr (OnIceReady s r a b c).
Proof. unfold OnIceReady. itr_auto. Qed.
Lemma itr_OnIceDisconnected s r a b c : itr (OnIceDisconnected s r a b c).
Proof. unfold OnIceDisconnected. itr_auto. Qed.
Lemma itr_OnIceClosed s r a b c : itr (OnIceClosed s r a b c).
Proof. unfold OnIceClosed. itr_auto. Qed.
#[local] Hint Resolve itr_OnIceReady itr_OnIceDisconnected itr_OnIceClosed : good.

Lemma itr_OnIceFailed s r a b c : itr (OnIceFailed s r a b c).
Proof. unfold OnIceFailed. itr_auto. by apply itr_FakePublisherReConnect. Qed.
#[local] Hint Resolve itr_OnIceFailed : good.

Lemma itr_UpdateAudioCodec s c : itr (UpdateAudioCodec s c).
Proof. unfold UpdateAudioCodec, SetAudioCodec. itr_auto. Qed.
Lemma itr_UpdateVideoCodec s c : itr (UpdateVideoCodec s c).
Proof. unfold UpdateVideoCodec, SetVideoCodec. itr_auto. Qed.
Lemma itr_OnReceivedAudioData s b n p : itr (OnReceivedAudioData s b n p).
Proof. unfold OnReceivedAudioData. itr_auto. Qed.
Lemma itr_OnReceivedVideoData s b n p : itr (OnReceivedVideoData s b n p).
Proof. unfold OnReceivedVideoData. itr_auto. Qed.
Lemma itr_BroadcastAppData s a b c n : itr (BroadcastAppData s a b c n).
Proof. unfold BroadcastAppData, broadcast_to. itr_auto. Qed.
#[local] Hint Resolve itr_UpdateAudioCodec itr_UpdateVideoCodec itr_OnReceivedAudioData
  itr_OnReceivedVideoData itr_BroadcastAppData : good.

(** ** room.go *)

Lemma itr_del_session r k : itr (del_session r k).
Proof. unfold del_session. itr_auto. Qed.
Lemma itr_put_session r k v : itr (put_session r k v).
Proof. unfold put_session. itr_auto. Qed.
Lemma itr_hasOriginSession r : itr (hasOriginSession r).
Proof. unfold hasOriginSession. itr_auto. Qed.
#[local] Hint Resolve itr_del_session itr_put_session itr_hasOriginSession : good.

Lemma itr_DestroyRoom r : itr (DestroyRoom r).
Proof. unfold DestroyRoom. itr_auto. Qed.
Lemma itr_KickoutFromRoom r u : itr (KickoutFromRoom r u).
Proof. unfold KickoutFromRoom. itr_auto. Qed.
Lemma itr_OnPublisherReady r a b c : itr (OnPublisherReady r a b c).
Proof. unfold OnPublisherReady. itr_auto. Qed.
Lemma itr_OnPublisherPeerFailed r a b : itr (OnPublisherPeerFailed r a b).
Proof. unfold OnPublisherPeerFailed. itr_auto. Qed.
Lemma itr_OnPublisherPeerClosed r a b : itr (OnPublisherPeerClosed r a b).
Proof. unfold OnPublisherPeerClosed. itr_auto. Qed.
Lemma itr_OnSubscriberPeerFailed r a b c : itr (OnSubscriberPeerFailed r a b c).
Proof. unfold OnSubscriberPeerFailed. itr_auto. Qed.
Lemma itr_OnSubscriberPeerClosed r a b c : itr (OnSubscriberPeerClosed r a b c).
Proof. unfold OnSubscriberPeerClosed. itr_auto. Qed.
Lemma itr_OnCheckKeepalive r : itr (OnCheckKeepalive r).
Proof. unfold OnCheckKeepalive. itr_auto. Qed.
Lemma itr_room_OnReceivedAppData r a b c n : itr (room_OnReceivedAppData r a b c n).
Proof. unfold room_OnReceivedAppData. itr_auto. Qed.
Lemma itr_leave_previous r u : itr (leave_previous r u).
Proof. unfold leave_previous. itr_auto. Qed.
#[local] Hint Resolve itr_DestroyRoom itr_KickoutFromRoom itr_OnPublisherReady
  itr_OnPublisherPeerFailed itr_OnPublisherPeerClosed itr_OnSubscriberPeerFailed
  itr_OnSubscriberPeerClosed itr_OnCheckKeepalive itr_room_OnReceivedAppData itr_leave_previous :
  good.

Lemma itr_session_OnReceivedAppData s a b c n : itr (session_OnReceivedAppData s a b c n).
Proof. unfold session_OnReceivedAppData. itr_auto. Qed.
#[local] Hint Resolve itr_session_OnReceivedAppData : good.

#[local] Hint Resolve itr_CreateSession : good.
Lemma itr_room_login r j u : itr (room_login r j u).
Proof. unfold room_login. itr_auto. Qed.
Lemma itr_room_roomcreated r j : itr (room_roomcreated r j).
Proof. unfold room_roomcreated. itr_auto. Qed.
Lemma itr_room_fakepublish r j u : itr (room_fakepublish r j u).
Proof. unfold room_fakepublish. itr_auto. Qed.
Lemma itr_room_fakeunpublish r j u : itr (room_fakeunpublish r j u).
Proof. unfold room_fakeunpublish. itr_auto. Qed.
#[local] Hint Resolve itr_room_login itr_room_roomcreated itr_room_fakepublish
  itr_room_fakeunpublish : good.

Lemma itr_forward_or r u j m : itr m → itr (forward_or r u j m).
Proof. intros Hm. unfold forward_or. itr_auto. Qed.
#[local] Hint Resolve itr_forward_or : good.
Lemma itr_room_HandleMessage r j : itr (room_HandleMessage r j).
Proof. unfold room_HandleMessage. itr_auto. Qed.
#[local] Hint Resolve itr_room_HandleMessage : good.

(** ** roommgr.go *)

Lemma itr_GetIntValue (j : jsonparser) k : itr (GetIntValue j k).
Proof. unfold GetIntValue. itr_auto. Qed.
#[local] Hint Resolve itr_GetIntValue : good.
Lemma itr_mgr_rooms : itr (mgr_rooms).
Proof. unfold mgr_rooms. itr_auto. Qed.
Lemma itr_go_StartRegistToLB : itr (go_StartRegistToLB).
Proof. unfold go_StartRegistToLB. itr_auto. Qed.
Lemma itr_send_stopRegist : itr (send_stopRegist).
Proof. unfold send_stopRegist. itr_auto. Qed.
#[local] Hint Resolve itr_mgr_rooms itr_go_StartRegistToLB itr_send_stopRegist : good.

Lemma itr_StartRegistToLB_tick : itr (StartRegistToLB_tick).
Proof. unfold StartRegistToLB_tick, now_unix. itr_auto. Qed.
Lemma itr_handle_pod_regist j : itr (handle_pod_regist j).
Proof. unfold handle_pod_regist. itr_auto. Qed.
Lemma itr_handle_regist_now : itr (handle_regist_now).
Proof. unfold handle_regist_now. itr_auto. Qed.
Lemma itr_ReleaseRoom i : itr (ReleaseRoom i).
Proof. unfold ReleaseRoom. itr_auto. Qed.
#[local] Hint Resolve itr_StartRegistToLB_tick itr_handle_pod_regist itr_handle_regist_now
  itr_ReleaseRoom : good.

Lemma itr_create_room_for j i : itr (create_room_for j i).
Proof. unfold create_room_for, now_unix. cbv zeta. apply itr_CreateRoom. intros. itr_auto. Qed.
#[local] Hint Resolve itr_create_room_for : good.
Lemma itr_roommgr_login j i : itr (roommgr_login j i).
Proof. unfold roommgr_login. itr_auto. Qed.
#[local] Hint Resolve itr_roommgr_login : good.

Lemma itr_to_room j i m : itr m → itr (to_room j i m).
Proof. intros Hm. unfold to_room. itr_auto. Qed.
#[local] Hint Resolve itr_to_room : good.
Lemma itr_handle_fields j : itr (handle_fields j).
Proof. unfold handle_fields. itr_auto. Qed.
Lemma itr_keepalive_tick : itr (keepalive_tick).
Proof. unfold keepalive_tick. itr_auto. Qed.
Lemma itr_resource_tick : itr (resource_tick).
Proof. unfold resource_tick. itr_auto. Qed.
#[local] Hint Resolve itr_handle_fields itr_keepalive_tick itr_resource_tick : good.

Lemma itr_roommgr_HandleMessage m : itr (roommgr_HandleMessage m).
Proof. unfold roommgr_HandleMessage. itr_auto. Qed.
#[local] Hint Resolve itr_roommgr_HandleMessage : good.

(** ** Callbacks *)

Lemma itr_pub_OnTrack p s c : itr (pub_OnTrack p s c).
Proof. unfold pub_OnTrack. itr_auto. Qed.
Lemma itr_audio_reader p b n e : itr (audio_reader p b n e).
Proof. unfold audio_reader. itr_auto. Qed.
Lemma itr_video_reader p b n e : itr (video_reader p b n e).
Proof. unfold video_reader. itr_auto. Qed.
Lemma itr_pub_OnDataChannel p : itr (pub_OnDataChannel p).
Proof. unfold pub_OnDataChannel. itr_auto. Qed.
Lemma itr_OnDataMessage p d : itr (OnDataMessage p d).
Proof. unfold OnDataMessage. itr_auto. Qed.
Lemma itr_pub_OnICEConnectionStateChange p t : itr (pub_OnICEConnectionStateChange p t).
Proof. unfold pub_OnICEConnectionStateChange, now_nano. itr_auto. Qed.
Lemma itr_sub_OnICEConnectionStateChange p t : itr (sub_OnICEConnectionStateChange p t).
Proof. unfold sub_OnICEConnectionStateChange. itr_auto. Qed.
Lemma itr_rtcp_reader p l : itr (rtcp_reader p l).
Proof. unfold rtcp_reader. itr_auto. Qed.
#[local] Hint Resolve itr_pub_OnTrack itr_audio_reader itr_video_reader itr_pub_OnDataChannel
  itr_OnDataMessage itr_pub_OnICEConnectionStateChange itr_sub_OnICEConnectionStateChange
  itr_rtcp_reader : good.

End ready.
