(* ===== verification/ReadyRmq.v ===== *)
(** * Brokers that are ready, and the theorems of [Ready]

    Connecting, losing and stopping the two RabbitMQ clients keep the
    invariant of Ready: each variable of rmq.go keeps the exchange it was made
    for, the two clients never share one, and a flag is set only while the
    producers are there. *)

From S2P Require Import Prelude GoLib Json Constants KeyframeFilter World Rmq Peer Notify Session.
From S2P Require Import Room RoomMgr Callbacks Server Demo Invariant Safety Leave Ready.

(** ** Updates of the exchanges *)

(** An update of the exchange [x], in the view of one variable. *)
Lemma slot_upd E x g sl :
  slot_ok E sl →
  (sl.1.1 = Some x → (∀ e, ex_tag (g e) = ex_tag e) ∧
     (sl.2 = false ∨ ∀ e, x_msgChan e = true → x_producer e = true →
        x_msgChan (g e) = true ∧ x_producer (g e) = true)) →
  slot_ok (alter g x E) sl.
Proof.
  destruct sl as [[v t] c]. simpl. intros [Ht Hc] Hx. split; simpl.
  - intros y ->. destruct (Ht y eq_refl) as (ex & Hex & Etag). rewrite lookup_alter.
    case_decide as Ey; [subst y|by eauto]. rewrite Hex. exists (g ex). split; [done|].
    destruct (Hx eq_refl) as [Hg _]. by rewrite Hg.
  - intros ->. destruct (Hc eq_refl) as (y & ex & Hv & Hex & E1 & E2). simpl in Hv. subst v.
    exists y. rewrite lookup_alter. case_decide as Ey; [subst y|by eauto].
    destruct (Hx eq_refl) as [_ [?|Hg]]; [done|]. rewrite Hex. exists (g ex).
    destruct (Hg ex E1 E2). by split_and!.
Qed.

(** No variable holds [x], or none that needs its producer. *)
Definition not_var (x : nat) (q : rmqstate) : Prop :=
  Forall (λ sl, sl.1.1 ≠ Some x) (slots (λ _, false) q).
Definition unused (F : nat → bool) (x : nat) (q : rmqstate) : Prop :=
  Forall (λ sl, sl.1.1 = Some x → sl.2 = false) (slots F q).

Definition parent_kept (g : QueueExchange → QueueExchange) : Prop :=
  ∀ e, x_parent e ≠ None → x_parent (g e) ≠ None.

Lemma brokers_exs_upd F q x g :
  parent_kept g → brokers_up F q →
  ∀ i r y, mq_objs q !! i = Some r → y ∈ q_exs r →
    ∃ ex, alter g x (mq_exchanges q) !! y = Some ex ∧ x_parent ex ≠ None.
Proof.
  intros Hp Hq i r y Hi Hy. destruct (br_exs F q Hq i r y Hi Hy) as (ex & Hex & Ep).
  rewrite lookup_alter. case_decide as E; [subst y; rewrite Hex|by eauto].
  exists (g ex). split; [done|]. by apply Hp.
Qed.

Lemma brokers_upd_free F q x g :
  parent_kept g → not_var x q → brokers_up F q → brokers_up F (set_mq_exchanges (alter g x) q).
Proof.
  intros Hp Hx Hq. split; [|exact (brokers_exs_upd F q x g Hp Hq)].
  pose proof (br_slots F q Hq) as Hs. unfold not_var, slots in *. simpl in *.
  rewrite !Forall_cons in *. simpl in *.
  split_and!; try (apply slot_upd; simpl; tauto). done.
Qed.

Lemma brokers_upd_unused F q x g :
  (∀ e, ex_tag (g e) = ex_tag e) → unused F x q → brokers_up F q →
  brokers_up F (set_mq_exchanges (alter g x) q).
Proof.
  intros Hg Hx Hq. split; [|refine (brokers_exs_upd F q x g _ Hq)].
  - apply Forall_forall. intros sl Hsl.
    change (slots F (set_mq_exchanges _ q)) with (slots F q) in Hsl.
    apply slot_upd; [exact (proj1 (Forall_forall _ _) (br_slots F q Hq) sl Hsl)|].
    intros Hv. split; [done|]. left. exact (proj1 (Forall_forall _ _) Hx sl Hsl Hv).
  - intros e. specialize (Hg e). unfold ex_tag in Hg. by injection Hg as _ _ ->.
Qed.

(** A new exchange. *)
Lemma brokers_alloc F q x e :
  mq_exchanges q !! x = None → brokers_up F q → brokers_up F (set_mq_exchanges <[x := e]> q).
Proof.
  intros Hx Hq. split.
  - eapply Forall_impl; [exact (br_slots F q Hq)|]. intros sl [Ht Hc]. split.
    + intros y Hy. destruct (Ht y Hy) as (ex & Hex & ?). exists ex. split; [|done].
      simpl. rewrite lookup_insert_ne; [done | congruence].
    + intros Hb. destruct (Hc Hb) as (y & ex & Hy & Hex & ?). exists y, ex. split; [done|]. split; [|done].
      simpl. rewrite lookup_insert_ne; [done | congruence].
  - intros i r y Hi Hy. destruct (br_exs F q Hq i r y Hi Hy) as (ex & Hex & ?). exists ex.
    split; [|done]. simpl. rewrite lookup_insert_ne; [done | congruence].
Qed.

Lemma alloc_not_var q x : mq_exchanges q !! x = None → brokers_ready q → not_var x q.
Proof.
  intros Hx Hq. eapply Forall_impl; [exact (br_slots _ q Hq)|]. intros sl [Ht _] Hv.
  destruct (Ht x Hv) as (ex & Hex & _). congruence.
Qed.

(** ** Rules *)

Section rmq.
Context `{GoRuntime, WebRTC, Amqp}.

(** [m] leaves the state of rmq.go alone; [P] holds of its result if the
    library works. *)
Definition keep {A} (P : A → Prop) (m : MW A) : Prop := ∀ w, good w →
  wp m (λ a w', good w' ∧ w_rmq w' = w_rmq w ∧ (amqp_works → P a)) good_exit w.

(** [m] goes from states of rmq.go with [R] to states with [R'], if the
    library works. *)
Definition rtr {A} (R : rmqstate → Prop) (m : MW A) (R' : A → rmqstate → Prop) : Prop :=
  ∀ w, good w → (amqp_works → R (w_rmq w)) →
  wp m (λ a w', good w' ∧ (amqp_works → R' a (w_rmq w'))) good_exit w.

Lemma rtr_itr {A} (m : MW A) R' : rtr (λ _, True) m R' → itr m.
Proof.
  intros Hm w Hg. eapply wp_mono; [by apply (Hm w) | | done]. by intros a w' [? _].
Qed.
Lemma rtr_bind {A B} R (m : MW A) R1 (k : A → MW B) R2 :
  rtr R m R1 → (∀ a, rtr (R1 a) (k a) R2) → rtr R (m ≫= k) R2.
Proof.
  intros Hm Hk w Hg HR. apply wp_bind. eapply wp_mono; [by apply (Hm w) | | done].
  intros a w' [Hg' HR']. by apply Hk.
Qed.
Lemma rtr_ret {A} R (a : A) (R' : A → rmqstate → Prop) : (∀ q, R q → R' a q) → rtr R (mret a) R'.
Proof. intros HR w Hg Hw. apply wp_ret. split; auto. Qed.
Lemma rtr_skip R (R' : unit → rmqstate → Prop) : (∀ q, R q → R' tt q) → rtr R skip R'.
Proof. apply rtr_ret. Qed.
Lemma rtr_weaken {A} (R0 R : rmqstate → Prop) (m : MW A) R' :
  (∀ q, R0 q → R q) → rtr R m R' → rtr R0 m R'.
Proof. intros HR Hm w Hg Hw. apply Hm; auto. Qed.
Lemma rtr_keep {A B} R P (m : MW A) (k : A → MW B) R' :
  keep P m → (∀ a, (amqp_works → P a) → rtr R (k a) R') → rtr R (m ≫= k) R'.
Proof.
  intros Hm Hk w Hg HR. apply wp_bind. eapply wp_mono; [by apply (Hm w) | | done].
  intros a w' (Hg' & E & HP). apply Hk; [done..|]. by rewrite E.
Qed.
Lemma rtr_keep_end {A} R P (m : MW A) (R' : A → rmqstate → Prop) :
  keep P m → (∀ a q, R q → R' a q) → rtr R m R'.
Proof.
  intros Hm HR' w Hg HR. eapply wp_mono; [by apply (Hm w) | | done].
  intros a w' (Hg' & E & HP). split; [done|]. rewrite E. auto.
Qed.
(** What an error return leads to does not happen with a library that works. *)
Lemma rtr_error {A} R (m : MW A) (R' : A → rmqstate → Prop) :
  itr m → (amqp_works → False) → rtr R m R'.
Proof. intros Hm Hn w Hg _. eapply wp_mono; [by apply Hm | | done]. intros a w' Hg'. by split. Qed.

(** An update of the state of rmq.go. *)
Lemma rtr_upd_rmq R g (R' : unit → rmqstate → Prop) :
  (∀ q, R q → brokers_ready q → brokers_ready (g q) ∧ R' tt (g q)) →
  (∀ q x, is_Some (mq_exchanges (g q) !! x) → is_Some (mq_exchanges q !! x)) →
  (∀ q, handled q → handled (g q)) →
  rtr R (upd_rmq g) R'.
Proof.
  intros Hg Hd Hh w [G1 G2 G3 G4 G5 G6 G7 G8] HR. apply wp_modify. split.
  - split; try done.
    + intros x ex Hx. destruct (Hd (w_rmq w) x) as [ex' Hx']; [by eexists|]. by eapply G6.
    + by apply Hh.
    + intros Ha. apply Hg; auto.
  - intros Ha. apply Hg; auto.
Qed.
Lemma rtr_upd_ex R x g (R' : unit → rmqstate → Prop) :
  (∀ q, R q → brokers_ready q → brokers_ready (set_mq_exchanges (alter g x) q) ∧
     R' tt (set_mq_exchanges (alter g x) q)) →
  rtr R (upd_ex x g) R'.
Proof.
  intros Hg. apply rtr_upd_rmq; [done | |done]. intros q y. simpl. rewrite lookup_alter.
  case_decide; [|done]. subst. intros [? (e & He & _)%fmap_Some]. by eexists.
Qed.
Lemma rtr_upd_mq R q g (R' : unit → rmqstate → Prop) :
  (∀ s, R s → brokers_ready s → brokers_ready (set_mq_objs (alter g q) s) ∧
     R' tt (set_mq_objs (alter g q) s)) →
  (∀ r, q_onReceivedMessageHandler (g r) = q_onReceivedMessageHandler r) →
  rtr R (upd_mq q g) R'.
Proof.
  intros Hg Hh. apply rtr_upd_rmq; [done..|]. intros s Hs i r (r0 & Hr & ->)%lookup_alter_inv.
  case_decide; rewrite ?Hh; by eapply Hs.
Qed.

(** An update of a client that keeps its receivers. *)
Lemma brokers_upd_mq F s q g :
  (∀ r x, x ∈ q_exs (g r) → x ∈ q_exs r) → brokers_up F s →
  brokers_up F (set_mq_objs (alter g q) s).
Proof.
  intros Hg [Hs Hx]. split; [done|]. intros i r x. simpl. rewrite lookup_alter.
  case_decide; [|by apply Hx]. subst. intros (r0 & Hr & ->)%fmap_Some Hin. eauto.
Qed.
Lemma itr_upd_mq q g :
  (∀ r x, x ∈ q_exs (g r) → x ∈ q_exs r) →
  (∀ r, q_onReceivedMessageHandler (g r) = q_onReceivedMessageHandler r) → itr (upd_mq q g).
Proof.
  intros Hg Hh. eapply (rtr_itr _ (λ _ _, True)). apply rtr_upd_mq; [|done]. intros s _ Hs.
  split; [by apply brokers_upd_mq | done].
Qed.

Lemma keep_bind {A B} P (m : MW A) Q (k : A → MW B) :
  keep P m → (∀ a, (amqp_works → P a) → keep Q (k a)) → keep Q (m ≫= k).
Proof.
  intros Hm Hk w Hg. apply wp_bind. eapply wp_mono; [by apply Hm | | done].
  intros a w' (Hg' & E & HP). eapply wp_mono; [by apply (Hk a HP w') | | done].
  intros b w2 (Hg2 & E2 & HQ). split_and!; [done | congruence | done].
Qed.
Lemma keep_ret {A} (P : A → Prop) a : (amqp_works → P a) → keep P (mret a).
Proof. intros HP w Hg. by apply wp_ret. Qed.
Lemma keep_same {A} (P : A → Prop) (m : MW A) :
  itr m → (∀ w a w', m w = Ret a w' → w_rmq w' = w_rmq w ∧ (amqp_works → P a)) → keep P m.
Proof.
  intros Hi Hm w Hg. specialize (Hi w Hg). unfold wp in *.
  destruct (m w) as [a w'|] eqn:E; [|done]. destruct (Hm _ _ _ E). by split_and!.
Qed.

Ltac keep_run :=
  intros w a w'; unfold Lock, Unlock, choose, emit, get_ex, get_mq, from_some, mbind, M_bind, gets,
    modify, mret, M_ret, halt; repeat case_match; by intros [= <- <-].
Lemma keep_choose : keep (λ _, True) choose.
Proof. apply keep_same; [apply itr_choose | keep_run]. Qed.
Lemma keep_emit e : keep (λ _, True) (emit e).
Proof. apply keep_same; [apply itr_emit | keep_run]. Qed.
Lemma keep_Lock l : keep (λ _, True) (Lock l).
Proof. apply keep_same; [apply itr_Lock | keep_run]. Qed.
Lemma keep_Unlock l : keep (λ _, True) (Unlock l).
Proof. apply keep_same; [apply itr_Unlock | keep_run]. Qed.
Lemma keep_gets {A} (f : world → A) : keep (λ _, True) (gets f).
Proof. intros w Hg. by apply wp_gets. Qed.
Lemma keep_from_some {A} P r (o : option A) :
  plain_stop r → (∀ a, o = Some a → P a) → keep P (from_some r o).
Proof. intros [? ?] HP w Hg. apply wp_from_some; [by eauto|]. by split. Qed.
Lemma keep_get_ex x : keep (λ _, True) (get_ex x).
Proof. eapply keep_bind; [apply keep_gets|]. intros. by apply keep_from_some. Qed.
Lemma keep_get_mq q : keep (λ _, True) (get_mq q).
Proof. eapply keep_bind; [apply keep_gets|]. intros. by apply keep_from_some. Qed.

(** The calls of the library. *)
Lemma keep_amqp_Channel c : keep (λ o, is_Some o) (amqp_Channel c).
Proof.
  eapply keep_bind; [apply keep_choose|]. intros n _. apply keep_ret. intros Ha.
  destruct (Ha n) as [-> _]. by eexists.
Qed.
Ltac keep_call :=
  eapply keep_bind; [apply keep_choose|]; intros n _;
  eapply keep_bind; [apply keep_emit|]; intros _ _; apply keep_ret; intros Ha;
  by destruct (Ha n) as (? & ? & ? & ? & ?).
Lemma keep_ExchangeDeclare a b c d : keep (λ ok, ok = true) (ExchangeDeclare a b c d).
Proof. keep_call. Qed.
Lemma keep_QueueDeclare a : keep (λ ok, ok = true) (QueueDeclare a).
Proof. keep_call. Qed.
Lemma keep_QueueBind a b c : keep (λ ok, ok = true) (QueueBind a b c).
Proof. keep_call. Qed.
Lemma keep_Consume a : keep (λ ok, ok = true) (Consume a).
Proof. keep_call. Qed.

(** ** Connecting *)

(** The producers [F] asks for are there, and the exchange [x], held by no
    variable, is as [f] tells. *)
Definition up_with (F : nat → bool) (x : nat) (f : QueueExchange → Prop) (q : rmqstate) : Prop :=
  brokers_up F q ∧ not_var x q ∧ ∃ ex, mq_exchanges q !! x = Some ex ∧ f ex.

Lemma rtr_alloc_ex F e : rtr (brokers_up F) (alloc_ex e) (λ x, up_with F x (λ ex, ex = e)).
Proof.
  intros w [G1 G2 G3 G4 G5 G6 G7 G8] HF. unfold alloc_ex, upd_rmq.
  assert (mq_exchanges (w_rmq w) !! w_next w = None) as Hn.
  { destruct (mq_exchanges (w_rmq w) !! w_next w) eqn:E; [|done]. apply G6 in E. lia. }
  apply wp_bind, wp_gets, wp_bind, wp_modify, wp_bind, wp_modify, wp_ret. split.
  - split; try done; simpl.
    + intros x ex [[<- _]|[_ Hx]]%lookup_insert_Some; [lia|]. apply G6 in Hx. lia.
    + intros Ha. by apply brokers_alloc, G8.
  - intros Ha. split; [by apply brokers_alloc, HF|].
    split; [by apply (alloc_not_var (w_rmq w)), G8|]. exists e. simpl. by rewrite lookup_insert_eq.
Qed.

Lemma rtr_upd_new F x g (f f' : QueueExchange → Prop) :
  parent_kept g → (∀ e, f e → f' (g e)) → rtr (up_with F x f) (upd_ex x g) (λ _, up_with F x f').
Proof.
  intros Hp Hf. apply rtr_upd_ex. intros q (HF & Hn & ex & Hex & Hfe) Hq.
  split; [by apply brokers_upd_free|]. split; [by apply brokers_upd_free|]. split; [done|].
  exists (g ex). simpl. rewrite lookup_alter_eq, Hex. by split; [|apply Hf].
Qed.

Definition tagged (n k : string) (e : QueueExchange) : Prop := ex_tag e = ((n, k), None).
Definition full (n k : string) (e : QueueExchange) : Prop :=
  tagged n k e ∧ x_msgChan e = true ∧ x_producer e = true.

(** An error return, which a library that works does not cause. *)
Ltac no_error Hok :=
  apply rtr_error; [apply itr_skip | intros Ha; by specialize (Hok Ha)].

Lemma rtr_addProducer F x n k :
  rtr (up_with F x (tagged n k)) (addProducer x) (λ _, up_with F x (full n k)).
Proof.
  unfold addProducer. eapply rtr_keep; [apply keep_get_ex|]. intros ex _.
  eapply (rtr_keep _ (λ _, True)); [by apply keep_from_some|]. intros conn _.
  eapply rtr_keep; [apply keep_amqp_Channel|]. intros ch Hch.
  eapply rtr_bind; [apply (rtr_upd_new F x _ (tagged n k) (tagged n k)); by intros e|]. intros [].
  eapply (rtr_keep _ (λ _, True)); [by apply keep_from_some|]. intros _ _.
  eapply rtr_keep; [apply keep_ExchangeDeclare|]. intros [] Hok; simpl; [|no_error Hok].
  eapply (rtr_keep _ (λ ok, ok = true)).
  { case_match; [by apply keep_ret|]. eapply keep_bind; [apply keep_QueueDeclare|].
    intros [] Hb; simpl; [apply keep_QueueBind|]. by apply keep_ret. }
  intros [] Hok'; simpl; [|no_error Hok'].
  eapply rtr_bind.
  - apply (rtr_upd_new F x _ (tagged n k) (λ e, tagged n k e ∧ x_msgChan e = true)); by intros e.
  - intros []. apply rtr_upd_new; [by intros e|]. intros e [He1 He2]. by split_and!.
Qed.

Lemma rtr_RegisterProducer F q exc ty key feature :
  rtr (brokers_up F) (RegisterProducer q exc ty "" key feature)
    (λ x, up_with F x (full exc key)).
Proof.
  unfold RegisterProducer. eapply rtr_keep; [apply keep_Lock|]. intros _ _.
  eapply rtr_keep; [apply keep_get_mq|]. intros r _.
  eapply rtr_bind; [apply rtr_alloc_ex|]. intros x.
  eapply rtr_bind.
  { eapply rtr_weaken; [|apply (rtr_addProducer F x exc key)].
    intros s (? & ? & ex & ? & ->). do 2 (split; [done|]). eexists. by split. }
  intros []. eapply rtr_keep; [apply keep_Unlock|]. intros _ _. by apply rtr_ret.
Qed.

Lemma rtr_addReceiver F x q :
  rtr (up_with F x (λ _, True)) (addReceiver x q) (λ _, up_with F x (λ e, x_parent e ≠ None)).
Proof.
  unfold addReceiver.
  eapply rtr_bind; [apply (rtr_upd_new F x _ _ (λ e, x_parent e ≠ None)); by intros e|]. intros [].
  eapply rtr_keep; [apply keep_get_ex|]. intros ex _.
  eapply (rtr_keep _ (λ _, True)); [by apply keep_from_some|]. intros conn _.
  eapply rtr_keep; [apply keep_amqp_Channel|]. intros ch Hch.
  eapply rtr_bind; [apply (rtr_upd_new F x _ _ (λ e, x_parent e ≠ None)); by intros e|]. intros [].
  eapply (rtr_keep _ (λ _, True)); [by apply keep_from_some|]. intros _ _.
  eapply rtr_keep; [apply keep_ExchangeDeclare|]. intros [] ?; simpl; [|by apply rtr_skip].
  eapply rtr_keep; [apply keep_QueueDeclare|]. intros [] ?; simpl; [|by apply rtr_skip].
  eapply rtr_keep; [apply keep_QueueBind|]. intros [] ?; simpl; [|by apply rtr_skip].
  eapply rtr_keep; [apply keep_Consume|]. intros [] ?; simpl; [|by apply rtr_skip].
  apply rtr_upd_new; by intros e.
Qed.

Lemma brokers_add_ex F s q x e :
  mq_exchanges s !! x = Some e → x_parent e ≠ None → brokers_up F s →
  brokers_up F (set_mq_objs (alter (set_q_exs (λ l, l ++ [x])) q) s).
Proof.
  intros Hx He [Hs Hr]. split; [done|]. intros i r y. simpl. rewrite lookup_alter.
  case_decide; [|by apply Hr]. subst. intros (r0 & Hr0 & ->)%fmap_Some.
  simpl. rewrite elem_of_app, list_elem_of_singleton. intros [Hin|Hy]; [by eauto|]. subst y. eauto.
Qed.

Lemma rtr_RegisterReceiver F q exc ty queue key feature :
  rtr (brokers_up F) (RegisterReceiver q exc ty queue key feature) (λ _, brokers_up F).
Proof.
  unfold RegisterReceiver. eapply rtr_keep; [apply keep_Lock|]. intros _ _.
  eapply rtr_keep; [apply keep_get_mq|]. intros r _.
  eapply rtr_bind; [apply rtr_alloc_ex|]. intros x.
  eapply rtr_bind.
  { eapply rtr_weaken; [|apply (rtr_addReceiver F x q)].
    intros s (? & ? & ex & ? & ->). do 2 (split; [done|]). eexists. by split. }
  intros []. eapply rtr_bind.
  { apply (rtr_upd_mq _ _ _ (λ _, brokers_up F)); [|done]. intros s (HF & _ & ex & Hex & Hp) Hs.
    split; by eapply brokers_add_ex. }
  intros []. eapply rtr_keep_end; [apply keep_Unlock | done].
Qed.

(** From here on the producer of the variable number [i] is needed. *)
Definition need (i : nat) (F : nat → bool) : nat → bool := λ j, (j =? i)%nat || F j.

Lemma brokers_mono (F G : nat → bool) q :
  (∀ i, F i = true → G i = true) → brokers_up G q → brokers_up F q.
Proof.
  intros HFG [Hs Hx]. split; [|done]. unfold slots in *. rewrite !Forall_cons in *.
  assert (∀ b i v t, slot_ok (mq_exchanges q) (v, t, b || G i) → slot_ok (mq_exchanges q) (v, t, b || F i))
    as Hm.
  { intros b i v t [H1' H2']. split; [done|]. simpl in *. intros Hb. apply H2'.
    apply orb_true_iff in Hb as [->|Hb]; [done|]. rewrite (HFG i Hb). apply orb_true_r. }
  destruct Hs as (? & ? & ? & ? & ? & ?). split_and!; try done; by apply Hm.
Qed.

Lemma slot_full F x n k q c :
  up_with F x (full n k) q → slot_ok (mq_exchanges q) (Some x, (n, k), c).
Proof.
  intros (_ & _ & ex & Hex & Ht & E1 & E2). split; simpl.
  - intros y [= <-]. by eauto.
  - intros _. exists x, ex. by split_and!.
Qed.

Lemma rtr_need F i g n k x :
  (∀ q, up_with F x (full n k) q → brokers_up (need i F) (g q)) →
  (∀ q, mq_exchanges (g q) = mq_exchanges q ∧ mq_objs (g q) = mq_objs q) →
  rtr (up_with F x (full n k)) (upd_rmq g) (λ _, brokers_up (need i F)).
Proof.
  intros Hg He. apply rtr_upd_rmq; [|intros q y; by rewrite (proj1 (He q))|].
  2: { intros q. unfold handled. by rewrite (proj2 (He q)). }
  intros q Hq _. split; [|by apply Hg]. eapply brokers_mono; [|by apply Hg]. done.
Qed.

Ltac slot_set :=
  apply rtr_need; [|done]; intros q Hq; pose proof (slot_full _ _ _ _ _ true Hq);
  destruct Hq as ([Hs Hx] & _); split; [|done]; unfold slots in *; simpl in *;
  rewrite !Forall_cons in *; unfold need; simpl; rewrite ?orb_true_r; tauto.
Lemma rtr_set_pub_dr F x :
  rtr (up_with F x (full "WB_" "111")) (upd_rmq (set_exc_pub_dr (λ _, Some x)))
    (λ _, brokers_up (need 0 F)).
Proof. slot_set. Qed.
Lemma rtr_set_proxy_bc F x :
  rtr (up_with F x (full "udpProxy" "broadcast")) (upd_rmq (set_exc_proxy_bc (λ _, Some x)))
    (λ _, brokers_up (need 1 F)).
Proof. slot_set. Qed.
Lemma rtr_set_cluster_bc F x :
  rtr (up_with F x (full "inter-cluster_broadcast" "inter-cluster"))
    (upd_rmq (set_exc_cluster_bc (λ _, Some x))) (λ _, brokers_up (need 2 F)).
Proof. slot_set. Qed.
Lemma rtr_set_cross_cluster_dr F x :
  rtr (up_with F x (full "WB_" "")) (upd_rmq (set_exc_cross_cluster_dr (λ _, Some x)))
    (λ _, brokers_up (need 3 F)).
Proof. slot_set. Qed.
Lemma rtr_set_cross_cluster_bc F x :
  rtr (up_with F x (full "cross-cluster_broadcast" "cross-cluster"))
    (upd_rmq (set_exc_cross_cluster_bc (λ _, Some x))) (λ _, brokers_up (need 4 F)).
Proof. slot_set. Qed.

(** The flags, once every producer is there. *)
Lemma rtr_set_connected :
  rtr (brokers_up (need 2 (need 1 (need 0 (λ _, false))))) (upd_rmq (set_connected (λ _, true)))
    (λ _ _, True).
Proof.
  apply rtr_upd_rmq; [|done..]. intros q [Hs Hx] _. split; [|done]. split; [|done].
  unfold slots, need in *. simpl in *. rewrite !orb_true_r, !orb_false_r in *. exact Hs.
Qed.
Lemma rtr_set_center_connected :
  rtr (brokers_up (need 4 (need 3 (λ _, false)))) (upd_rmq (set_center_connected (λ _, true)))
    (λ _ _, True).
Proof.
  apply rtr_upd_rmq; [|done..]. intros q [Hs Hx] _. split; [|done]. split; [|done].
  unfold slots, need in *. simpl in *. rewrite !orb_true_r, !orb_false_r in *. exact Hs.
Qed.

(** ** Connecting, as a whole *)

Lemma rtr_start {A B} R (m : MW A) (k : A → MW B) R' :
  itr m → (∀ a, rtr brokers_ready (k a) R') → rtr R (m ≫= k) R'.
Proof.
  intros Hm Hk w Hg _. apply wp_bind. eapply wp_mono; [by apply Hm | | done].
  intros a w' Hg'. apply Hk; [done|]. exact (g_ready w' Hg').
Qed.

Lemma itr_lanuchRetryTimer q n : itr (lanuchRetryTimer q n).
Proof. eapply itr_bind; [apply itr_gets|]. intros t. by apply itr_upd_mq. Qed.
Lemma itr_CenterRMQConnectTimer q n : itr (CenterRMQConnectTimer q n).
Proof. eapply itr_bind; [apply itr_gets|]. intros t. by apply itr_upd_mq. Qed.
Lemma itr_get_mq q : itr (get_mq q).
Proof. eapply itr_bind; [apply itr_gets|]. intros. by apply itr_from_some. Qed.
Lemma itr_get_ex x : itr (get_ex x).
Proof. eapply itr_bind; [apply itr_gets|]. intros. by apply itr_from_some. Qed.
Lemma itr_cancelRetryTimer q : itr (cancelRetryTimer q).
Proof.
  unfold cancelRetryTimer. apply itr_bind; [by apply itr_upd_mq|]. intros _.
  apply itr_bind; [apply itr_get_mq|]. intros r.
  apply itr_bind; [by apply itr_upd_mq|]. intros _.
  apply itr_bind; [by apply itr_upd_mq|]. intros _.
  case_match; [apply itr_skip | by apply itr_halt].
Qed.

Lemma itr_mqConnect q : itr (mqConnect q).
Proof.
  eapply (rtr_itr _ (λ _ _, True)). unfold mqConnect.
  apply rtr_start; [apply itr_choose|]. intros n.
  apply rtr_start; [by apply itr_upd_mq|]. intros _.
  destruct (am_dial n); simpl.
  - apply rtr_start; [apply itr_cancelRetryTimer|]. intros _.
    eapply rtr_keep; [apply keep_gets|]. intros c _.
    eapply rtr_bind; [apply rtr_RegisterProducer|]. intros x.
    eapply rtr_bind; [apply rtr_set_pub_dr|]. intros [].
    eapply rtr_bind; [apply rtr_RegisterReceiver|]. intros [].
    eapply rtr_bind; [apply rtr_RegisterReceiver|]. intros [].
    eapply rtr_bind; [apply rtr_RegisterProducer|]. intros x1.
    eapply rtr_bind; [apply rtr_set_proxy_bc|]. intros [].
    eapply rtr_bind; [apply rtr_RegisterProducer|]. intros x2.
    eapply rtr_bind; [apply rtr_set_cluster_bc|]. intros [].
    eapply rtr_bind; [apply rtr_RegisterReceiver|]. intros [].
    eapply rtr_bind; [apply rtr_set_connected|]. intros []. by apply rtr_ret.
  - apply rtr_start; [apply itr_cancelRetryTimer|]. intros _.
    apply rtr_start; [apply itr_lanuchRetryTimer|]. intros _. by apply rtr_ret.
Qed.

Lemma itr_centerRMQConnect q : itr (centerRMQConnect q).
Proof.
  eapply (rtr_itr _ (λ _ _, True)). unfold centerRMQConnect.
  apply rtr_start; [apply itr_choose|]. intros n.
  apply rtr_start; [by apply itr_upd_mq|]. intros _.
  destruct (am_dial n); simpl.
  - apply rtr_start; [apply itr_cancelRetryTimer|]. intros _.
    eapply rtr_keep; [apply keep_gets|]. intros c _.
    eapply rtr_bind; [apply rtr_RegisterProducer|]. intros x.
    eapply rtr_bind; [apply rtr_set_cross_cluster_dr|]. intros [].
    eapply rtr_bind; [apply rtr_RegisterReceiver|]. intros [].
    eapply rtr_bind; [apply rtr_RegisterProducer|]. intros x1.
    eapply rtr_bind; [apply rtr_set_cross_cluster_bc|]. intros [].
    eapply rtr_bind; [apply rtr_RegisterReceiver|]. intros [].
    eapply rtr_bind; [apply rtr_set_center_connected|]. intros []. by apply rtr_ret.
  - apply rtr_start; [apply itr_cancelRetryTimer|]. intros _.
    apply rtr_start; [apply itr_CenterRMQConnectTimer|]. intros _. by apply rtr_ret.
Qed.

(** ** Stopping *)

(** Facts about the variables and the clients, which no update of an exchange
    changes. *)
Definition about_vars (R : rmqstate → Prop) : Prop := ∀ s g, R s → R (set_mq_exchanges g s).

Lemma rtr_destroyEXC R x :
  about_vars R → (∀ s, R s → brokers_ready s → unused (λ _, false) x s) →
  rtr R (destroyEXC x) (λ _, R).
Proof.
  intros HR Hx.
  assert (∀ g, (∀ e, ex_tag (g e) = ex_tag e) → rtr R (upd_ex x g) (λ _, R)) as Hupd.
  { intros g Hg. apply rtr_upd_ex. intros s Hs Hb. split; [|by apply HR].
    apply brokers_upd_unused; auto. }
  unfold destroyEXC. eapply rtr_bind; [by apply Hupd|]. intros [].
  eapply rtr_keep; [apply keep_get_ex|]. intros ex _.
  case_match; [by apply Hupd|]. case_match; [by apply Hupd|].
  intros w Hg _. apply wp_halt. by split.
Qed.
Lemma rtr_destroy_opt R o :
  about_vars R → (∀ x s, o = Some x → R s → brokers_ready s → unused (λ _, false) x s) →
  rtr R (destroy_opt o) (λ _, R).
Proof.
  intros HR Hx. destruct o as [x|]; simpl; [|by apply rtr_skip]. apply rtr_destroyEXC; eauto.
Qed.
Lemma rtr_for_each {A} R (l : list A) (body : A → MW unit) :
  (∀ x, x ∈ l → rtr R (body x) (λ _, R)) → rtr R (for_each l body) (λ _, R).
Proof.
  induction l as [|x l IH]; intros Hb; simpl; [by apply rtr_skip|].
  eapply rtr_bind; [apply Hb; by left|]. intros []. apply IH. intros y Hy. apply Hb. by right.
Qed.

(** A receiver is held by no variable. *)
Lemma receiver_unused s q r x :
  brokers_ready s → mq_objs s !! q = Some r → x ∈ q_exs r → unused (λ _, false) x s.
Proof.
  intros Hs Hr Hx. destruct (br_exs _ s Hs q r x Hr Hx) as (ex & Hex & Hp).
  eapply Forall_impl; [exact (br_slots _ s Hs)|]. intros sl [Ht _] Hv.
  destruct (Ht x Hv) as (ex' & Hex' & Et). unfold ex_tag in Et.
  assert (ex' = ex) as -> by congruence. by injection Et.
Qed.

Lemma itr_stop_receivers q : itr (stop_receivers q).
Proof.
  unfold stop_receivers. intros w Hg. apply wp_bind. unfold get_mq.
  apply wp_bind, wp_gets, wp_from_some; [|by split]. intros r Hr. revert w Hg Hr.
  assert (rtr (λ s, mq_objs s !! q = Some r)
    (_ ← for_each (q_exs r) destroyEXC; _ ← upd_mq q (set_q_exs (λ _, []));
     _ ← from_some PNilDeref (q_conn r); upd_mq q (set_q_conn (λ _, None))) (λ _ _, True)) as Hm.
  { eapply rtr_bind.
    { apply rtr_for_each. intros x Hx. apply rtr_destroyEXC; [by intros s g|].
      intros s Hs Hb. by eapply receiver_unused. }
    intros []. eapply rtr_bind.
    { apply (rtr_upd_mq _ _ _ (λ _ _, True)); [|done]. intros s _ Hs. split; [|done].
      apply brokers_upd_mq; [|done]. by intros ? ? ?%elem_of_nil. }
    intros []. eapply (rtr_keep _ (λ _, True)); [by apply keep_from_some|]. intros _ _.
    apply rtr_upd_mq; [|done]. intros s _ Hs. split; [|done]. by apply brokers_upd_mq. }
  intros w Hg Hr. eapply wp_mono; [by apply (Hm w) | | done]. by intros a w' [? _].
Qed.

(** The variables of one client, when its flag is not set. *)
Ltac var_unused :=
  intros Hc [Hs _] Hv; unfold unused, slots in *; rewrite !Forall_cons in *; simpl in *;
  rewrite Hc in *; destruct Hs as ([T1 _] & [T2 _] & [T3 _] & [T4 _] & [T5 _] & _); simpl in *;
  split_and!; try done;
  let E := fresh in intros E; exfalso;
  destruct Hv as [Hv|Hv]; try (destruct Hv as [Hv|Hv]);
  repeat match goal with
  | H : ?v = Some ?x, T : ∀ x, ?v = Some x → _ |- _ => destruct (T x H) as (? & ? & ?); clear T
  end; unfold ex_tag in *; congruence.
Lemma cluster_unused s x :
  connected s = false → brokers_ready s →
  (exc_pub_dr s = Some x ∨ exc_proxy_bc s = Some x ∨ exc_cluster_bc s = Some x) →
  unused (λ _, false) x s.
Proof. var_unused. Qed.
Lemma center_unused s x :
  center_connected s = false → brokers_ready s →
  (exc_cross_cluster_dr s = Some x ∨ exc_cross_cluster_bc s = Some x) →
  unused (λ _, false) x s.
Proof. var_unused. Qed.

(** Clearing a flag. *)
Lemma brokers_less (q q' : rmqstate) :
  mq_exchanges q' = mq_exchanges q → mq_objs q' = mq_objs q →
  Forall2 (λ sl sl', sl.1 = sl'.1 ∧ (sl'.2 = true → sl.2 = true))
    (slots (λ _, false) q) (slots (λ _, false) q') →
  brokers_ready q → brokers_ready q'.
Proof.
  intros E1 E2 Hf [Hs Hx]. split; [|by rewrite E1, E2]. rewrite E1.
  revert Hs. induction Hf as [|[v c] [v' c'] l l' [E Hc] Hf IH]; [done|].
  rewrite !Forall_cons. intros [[Ht Hp] Hl]. split; [|by apply IH]. simpl in *. subst v'.
  split; simpl in *; auto.
Qed.

Lemma rtr_clear_connected :
  rtr (λ _, True) (upd_rmq (set_connected (λ _, false))) (λ _ s, connected s = false).
Proof.
  apply rtr_upd_rmq; [|done..]. intros q _ Hq. split; [|done]. apply (brokers_less q); [done..| |done].
  unfold slots. simpl. repeat constructor; simpl; done.
Qed.
Lemma rtr_clear_center_connected :
  rtr (λ _, True) (upd_rmq (set_center_connected (λ _, false))) (λ _ s, center_connected s = false).
Proof.
  apply rtr_upd_rmq; [|done..]. intros q _ Hq. split; [|done]. apply (brokers_less q); [done..| |done].
  unfold slots. simpl. repeat constructor; simpl; done.
Qed.

(** [s] has the variables of [g]. *)
Definition same_vars (g s : rmqstate) : Prop :=
  exc_pub_dr s = exc_pub_dr g ∧ exc_proxy_bc s = exc_proxy_bc g ∧
  exc_cluster_bc s = exc_cluster_bc g ∧ exc_cross_cluster_dr s = exc_cross_cluster_dr g ∧
  exc_cross_cluster_bc s = exc_cross_cluster_bc g.

Lemma rtr_gets_rmq {A} R (k : rmqstate → MW A) R' :
  (∀ g, rtr (λ s, R s ∧ same_vars g s) (k g) R') → rtr R (gets w_rmq ≫= k) R'.
Proof.
  intros Hk w Hg HR. apply wp_bind, wp_gets, Hk; [done|]. intros Ha. split; [auto|by split_and!].
Qed.

Lemma rtr_rmq_Stop q : rtr (λ s, connected s = false) (rmq_Stop q) (λ _ _, True).
Proof.
  apply rtr_gets_rmq. intros g.
  assert (about_vars (λ s, connected s = false ∧ same_vars g s)) as Hv by by intros s f.
  do 3 (eapply rtr_bind;
    [apply rtr_destroy_opt; [exact Hv|];
     intros x s Hx [Hc (V1 & V2 & V3 & _)] Hb; apply cluster_unused; [done..|]; rewrite V1, V2, V3; tauto
    |intros []]).
  intros w Hg _. eapply wp_mono; [by apply itr_stop_receivers | | done]. intros a w' Hg'. by split.
Qed.
Lemma rtr_CenterRMQStop q : rtr (λ s, center_connected s = false) (CenterRMQStop q) (λ _ _, True).
Proof.
  apply rtr_gets_rmq. intros g.
  assert (about_vars (λ s, center_connected s = false ∧ same_vars g s)) as Hv by by intros s f.
  do 2 (eapply rtr_bind;
    [apply rtr_destroy_opt; [exact Hv|];
     intros x s Hx [Hc (_ & _ & _ & V4 & V5)] Hb; apply center_unused; [done..|]; rewrite V4, V5; tauto
    |intros []]).
  intros w Hg _. eapply wp_mono; [by apply itr_stop_receivers | | done]. intros a w' Hg'. by split.
Qed.

Lemma itr_on_conn_close q err : itr (on_conn_close q err).
Proof.
  unfold on_conn_close. destruct err; [|apply itr_skip]. eapply (rtr_itr _ (λ _ _, True)).
  eapply rtr_bind; [apply rtr_clear_connected|]. intros [].
  eapply rtr_bind; [apply rtr_rmq_Stop|]. intros [].
  intros w Hg _. eapply wp_mono; [by apply itr_lanuchRetryTimer | | done]. intros a w' Hg'. by split.
Qed.
Lemma itr_on_center_close q err : itr (on_center_close q err).
Proof.
  unfold on_center_close. destruct err; [|apply itr_skip]. eapply (rtr_itr _ (λ _ _, True)).
  eapply rtr_bind; [apply rtr_clear_center_connected|]. intros [].
  eapply rtr_bind; [apply rtr_CenterRMQStop|]. intros [].
  intros w Hg _. eapply wp_mono; [by apply itr_CenterRMQConnectTimer | | done]. intros a w' Hg'. by split.
Qed.
Lemma itr_retry_timer_fire q i t : retry_bound t → itr (retry_timer_fire q i t).
Proof. intros Ht. apply itr_bind; [by apply itr_upd_mq | intros; by apply itr_spawn]. Qed.
Lemma itr_retry_timer_exit q i : itr (retry_timer_exit q i).
Proof. apply itr_bind; [by apply itr_upd_mq | intros; by apply itr_upd_mq]. Qed.

(** ** The server *)

(** requestKeyframeNow, which may stop at a nil function, keeps the invariant
    when it returns. *)
Definition wtr {A} (m : MW A) : Prop := ∀ w, good w → wp m (λ _, good) (λ _ _, True) w.

Lemma itr_wtr {A} (m : MW A) : itr m → wtr m.
Proof. intros Hm w Hg. by eapply wp_mono; [by apply Hm|..]. Qed.
Lemma wtr_bind {A B} (m : MW A) (k : A → MW B) : wtr m → (∀ a, wtr (k a)) → wtr (m ≫= k).
Proof.
  intros Hm Hk w Hg. apply wp_bind. eapply wp_mono; [by apply Hm | | done].
  intros a w' Hg'. by apply Hk.
Qed.

Lemma wtr_requestKeyframeNow p : wtr (requestKeyframeNow p).
Proof.
  apply wtr_bind; [apply itr_wtr, itr_gets|]. intros t. unfold on_filter.
  apply wtr_bind; [apply itr_wtr, itr_bind; [apply itr_gets | intros; by apply itr_from_some]|]. intros pr.
  apply wtr_bind; [by apply itr_wtr, itr_from_some|]. intros f.
  destruct (kf_requestKeyframeNow _ _) as [u [f' eff]|r [f' eff]].
  - apply itr_wtr, itr_bind; [by apply itr_upd_peer|]. intros _. apply itr_for_each.
    intros []; simpl; [by apply itr_spawn | apply itr_sendPli].
  - apply wtr_bind; [by apply itr_wtr, itr_upd_peer|]. intros _ w Hg. by apply wp_halt.
Qed.

Definition keyframe_task (t : task) : bool :=
  match t with TRequestKeyframeNow _ => true | _ => false end.

Lemma run_task_good t w : good w → retry_bound t →
  wp (run_task t) (λ _, good) (λ r w', keyframe_task t = false → good_exit r w') w.
Proof.
  intros Hg Ht. destruct (keyframe_task t) eqn:Hn.
  { destruct t; try done. eapply wp_mono; [by apply wtr_requestKeyframeNow | done | done]. }
  eapply (wp_mono _ (λ _, good) _ good_exit); [|done | done]. revert w Hg. change (itr (run_task t)).
  destruct t; simpl in *;
    eauto using itr_ReleaseRoom, itr_OnPublisherReady, itr_OnPublisherPeerFailed,
      itr_OnPublisherPeerClosed, itr_skip, itr_OnSubscriberPeerFailed, itr_OnSubscriberPeerClosed,
      itr_ReleaseSubscriberPeer, itr_HandleSubscriberLeaved, itr_CheckKeepAlive,
      itr_KickoutFromRoom, itr_RequestKeyframe, itr_CheckIceInfo.
  - done.
  - apply itr_FakePublisherReConnect. lia.
  - apply itr_bind; [apply itr_mqConnect | intros; apply itr_skip].
  - apply itr_bind; [apply itr_centerRMQConnect | intros; apply itr_skip].
Qed.

(** The handler a receiver calls is there. *)
Lemma itr_receiver_message x body : itr (receiver_message x body).
Proof.
  unfold receiver_message. apply itr_bind; [apply itr_get_ex|]. intros ex.
  destruct (x_parent ex) as [q|]; [|apply itr_skip]. destruct body as [msg|]; [|apply itr_skip].
  intros w Hg. unfold get_mq. apply wp_bind, wp_bind, wp_gets, wp_from_some; [|by split].
  intros r Hr. rewrite (g_handled w Hg q r Hr). by apply itr_roommgr_HandleMessage.
Qed.

Lemma itr_run_event e : itr (run_event e).
Proof.
  destruct e; simpl;
    eauto using itr_roommgr_HandleMessage, itr_receiver_message, itr_pub_OnICEConnectionStateChange,
      itr_sub_OnICEConnectionStateChange, itr_pub_OnICECandidate, itr_sub_OnICECandidate,
      itr_pub_OnTrack, itr_audio_reader, itr_video_reader, itr_pub_OnDataChannel,
      itr_OnDataMessage, itr_rtcp_reader, itr_on_filter, kf_plain_fire, kf_plain_timerExpired, itr_watcher_fire,
      itr_watcher_exit, itr_keepalive_tick, itr_resource_tick, itr_StartRegistToLB_tick,
      itr_retry_timer_exit, itr_on_conn_close, itr_on_center_close.
  - apply itr_modify. intros w []. by split.
  - by apply itr_retry_timer_fire.
  - by apply itr_retry_timer_fire.
Qed.

(** main leaves no exchange behind before the first connection. *)
Lemma startup_good c now w : main_startup (init_world c now) = Ret tt w → good w.
Proof.
  unfold main_startup, main_clients, CreateRabbitMQ, InterClusterStartup, CrossClusterStartup, lanuchRetryTimer,
    CenterRMQConnectTimer, roommgr_SetSendMessageHandler, go_StartRegistToLB, upd_mgr, upd_mq,
    upd_rmq, now_nano, mbind, M_bind, gets, modify, mret, M_ret.
  case_match; intros [= <-]; split; try done; [|intros _ | |intros _].
  1, 3: intros i r; simpl; rewrite !lookup_alter, !lookup_insert, !lookup_alter, !lookup_insert;
    repeat case_decide; simpl; intros [= <-]; by subst.
  all: split; [unfold slots; simpl; rewrite !Forall_cons; split_and!; by try split|].
  all: intros i r x Hr Hx; exfalso; revert Hx;
    enough (q_exs r = []) as -> by apply not_elem_of_nil; revert i r Hr; simpl;
    repeat first [apply (alter_all (λ r, q_exs r = [])); [done|]
                 |apply (insert_all (λ r, q_exs r = [])); [done|]]; done.
Qed.

Lemma reachable_good c now w : reachable c now w → good w.
Proof.
  induction 1 as [w Hrun|w w' Hr IH Hs]; [by eapply startup_good|].
  destruct Hs as [w w' l1 t l2 Ht Hrun|w w' e He Hrun].
  - pose proof (g_task w IH) as Hall. rewrite Ht in Hall.
    apply Forall_app in Hall as [F1 [F2 F3]%Forall_cons].
    assert (good (take_task w l1 l2)) as Hg.
    { destruct IH. split; try done. simpl. by apply Forall_app. }
    exact (wp_run _ _ _ _ _ _ (run_task_good t _ Hg F2) Hrun).
  - exact (wp_run _ _ _ _ _ _ (itr_run_event e w IH) Hrun).
Qed.
End rmq.

(** ** The theorems *)

(** A goroutine of a reachable server starts in a good state. *)
Lemma task_good `{GoRuntime, WebRTC, Amqp} c now w l1 t l2 r w' :
  reachable c now w → w_tasks w = l1 ++ t :: l2 → keyframe_task t = false →
  run_task t (take_task w l1 l2) = Stop r w' → good_exit r w'.
Proof.
  intros Hr Ht Hk Hrun. pose proof (reachable_good _ _ _ Hr) as Hg.
  pose proof (g_task w Hg) as Hall. rewrite Ht in Hall.
  apply Forall_app in Hall as [F1 [F2 F3]%Forall_cons].
  assert (good (take_task w l1 l2)) as Hg'.
  { destruct Hg. split; try done. simpl. by apply Forall_app. }
  exact (wp_run_stop _ _ _ _ _ _ (run_task_good t _ Hg' F2) Hrun Hk).
Qed.

(** C25. Every room, session and peer of a reachable server has its send
    handler, so no event and no goroutine stops by calling a nil handler; the
    one nil function left is the callback of a keyframe filter, which
    requestKeyframeNow calls. *)
Theorem handlers_installed `{GoRuntime, WebRTC, Amqp} c now w :
  reachable c now w →
  (∀ r x, w_rooms w !! r = Some x → r_onSendMessageHandler x = true) ∧
  (∀ s x, w_sess w !! s = Some x → s_onSendMessageHandler x = true) ∧
  (∀ p x, w_peers w !! p = Some x → p_onSendMessageHandler x = true) ∧
  (∀ e r w', run_event e w = Stop r w' → r ≠ PNilFunc) ∧
  (∀ l1 t l2 r w', w_tasks w = l1 ++ t :: l2 → keyframe_task t = false →
     run_task t (take_task w l1 l2) = Stop r w' → r ≠ PNilFunc).
Proof.
  intros Hr. pose proof (reachable_good _ _ _ Hr) as Hg. split_and!.
  - apply Hg.
  - intros s x Hs. by apply (g_sess w Hg s x).
  - apply Hg.
  - intros e r w' Hrun. exact (proj1 (wp_run_stop _ _ _ _ _ _ (itr_run_event e w Hg) Hrun)).
  - intros l1 t l2 r w' Ht Hk Hrun. exact (proj1 (task_good _ _ _ _ _ _ _ _ Hr Ht Hk Hrun)).
Qed.

(** The retries of a cross-cluster subscription are bounded: in every
    reachable state the counter of each watcher goroutine is between 0 and
    CLUSTER_RECONNECTION_MAXTIMES, so the unsigned counter never wraps, and a
    retry that is about to run has a smaller one. *)
Theorem retries_bounded `{GoRuntime, WebRTC, Amqp} c now w :
  reachable c now w →
  (∀ s x wt, w_sess w !! s = Some x → wt ∈ s_watchers x →
     0 ≤ wt_curtime wt ≤ CLUSTER_RECONNECTION_MAXTIMES) ∧
  (∀ s sid pid n, TFakePublisherReConnect s sid pid n ∈ w_tasks w →
     0 ≤ n < CLUSTER_RECONNECTION_MAXTIMES).
Proof.
  intros Hr. pose proof (reachable_good _ _ _ Hr) as Hg. split.
  - intros s x wt Hs Hin. destruct (g_sess w Hg s x Hs) as [_ Hf].
    exact (proj1 (Forall_forall _ _) Hf wt Hin).
  - intros s sid pid n Hin. exact (proj1 (Forall_forall _ _) (g_task w Hg) _ Hin).
Qed.

(** C26. With an amqp library whose calls succeed, a flag tells the truth:
    while connected (center_connected) is set, the exchanges of that broker
    have the goroutines that take messages from their channels.  So while both
    flags are set no event and no goroutine blocks in a publication. *)
Theorem publishing_never_blocks `{GoRuntime, WebRTC, Amqp} c now w :
  reachable c now w → amqp_works →
  brokers_ready (w_rmq w) ∧
  (∀ e r w', run_event e w = Stop r w' → center_connected (w_rmq w') = true →
     r ≠ HChan CMsgChan) ∧
  (∀ l1 t l2 r w', w_tasks w = l1 ++ t :: l2 → keyframe_task t = false →
     run_task t (take_task w l1 l2) = Stop r w' → center_connected (w_rmq w') = true →
     r ≠ HChan CMsgChan).
Proof.
  intros Hr Ha. pose proof (reachable_good _ _ _ Hr) as Hg. split_and!.
  - exact (g_ready w Hg Ha).
  - intros e r w' Hrun Hc Er.
    pose proof (proj2 (wp_run_stop _ _ _ _ _ _ (itr_run_event e w Hg) Hrun) Ha Er). congruence.
  - intros l1 t l2 r w' Ht Hk Hrun Hc Er.
    pose proof (proj2 (task_good _ _ _ _ _ _ _ _ Hr Ht Hk Hrun) Ha Er). congruence.
Qed.

(** A reachable server is calm, but for its filters. *)
Lemma reachable_calm `{GoRuntime, WebRTC, Amqp} c now w :
  reachable c now w → amqp_works → (∀ p pr, w_peers w !! p = Some pr → filter_single pr) → calm w.
Proof.
  intros Hr Ha Hf. pose proof (reachable_good _ _ _ Hr) as Hg.
  pose proof (brokers_producing _ (g_ready w Hg Ha)) as [B1 B2].
  split; [done | apply Hg | |]; intros E; [by apply B2 | by apply B1].
Qed.

(** C2. The clean-up always finishes: with an amqp library whose calls
    succeed, in a reachable state where no keyframe filter was started twice,
    a goroutine that releases a peer, a session or a room, or that tells
    members about it, runs to its end, and leaves a calm, well-formed
    state. *)
Theorem cleanup_completes `{GoRuntime, WebRTC, Amqp} c now w l1 t l2 :
  reachable c now w → amqp_works → (∀ p pr, w_peers w !! p = Some pr → filter_single pr) →
  w_tasks w = l1 ++ t :: l2 → cleanup_task t = true →
  ∃ w', run_task t (take_task w l1 l2) = Ret tt w' ∧ calm w' ∧ heap_ok ∅ w' ∧ w_locks w' = ∅.
Proof.
  intros Hr Ha Hf Ht Hclean. destruct (reachable_ok _ _ _ Hr) as [Hok HL].
  destruct (take_task_ok _ _ _ _ Hok Ht) as [Hok' Ht'].
  assert (calm (take_task w l1 l2)) as Hc' by (by destruct (reachable_calm _ _ _ Hr Ha Hf)).
  destruct (wp_returns _ _ _ _ (run_task_ok _ t Hok' HL Ht')
              (ctr_cleanup_task t Hclean _ Hc')) as ([] & w' & E & (? & ? & ?) & ?).
  eauto.
Qed.

(** ** Witnesses *)

Lemma demo_amqp_works : amqp_works.
Proof. intros n. by split_and!. Qed.

Lemma handlers_installed_witness :
  r_onSendMessageHandler (the_room (demo_world demo_sub) 12) = true.
Proof.
  apply (proj1 (handlers_installed _ _ _ demo_sub_reach) 12%nat). vm_compute. reflexivity.
Defined.

(** A user of another pod publishes in the room: a watcher is waiting. *)
Definition demo_fakepublish : list act := demo_ready ++ [
  AEv (XMessage (json_marshal [
    (LabelCmd, GStr CmdFakePublish); (LabelClusterId, GStr "c2"); (LabelPodId, GStr "pod2");
    (LabelRoomId, GStr "room1"); (LabelSessID, GStr "carol"); (LabelPeerID, GStr "q1");
    (LabelUserName, GStr "Carol")]))].
(** Nothing comes of it, and its timer runs out. *)
Definition demo_retry : list act := demo_fakepublish ++ [AEv (XTime (2000 * second)); AEv (XWatcherTimer 16 0)].

Lemma demo_retry_reach : reachable demo_conf (1000 * second) (demo_world demo_retry).
Proof. apply (demo_run_reachable demo_retry). vm_compute. reflexivity. Qed.

Lemma retries_bounded_witness : 0 ≤ 2 < CLUSTER_RECONNECTION_MAXTIMES.
Proof.
  apply (proj2 (retries_bounded _ _ _ demo_retry_reach) 16%nat "carol" "q1" 2).
  replace (w_tasks (demo_world demo_retry)) with [TFakePublisherReConnect 16 "carol" "q1" 2]
    by (vm_compute; reflexivity). by apply list_elem_of_singleton.
Defined.

Lemma publishing_never_blocks_witness : brokers_ready (w_rmq (demo_world demo_sub)).
Proof. exact (proj1 (publishing_never_blocks _ _ _ demo_sub_reach demo_amqp_works)). Defined.

(** The publisher's connection fails while a subscriber is there. *)
Definition demo_failed : list act := demo_sub ++ [AEv (XPubIce 15 ICEFailed)].

Lemma demo_failed_reachable : reachable demo_conf (1000 * second) (demo_world demo_failed).
Proof. apply (demo_run_reachable demo_failed). vm_compute. reflexivity. Qed.

Lemma cleanup_completes_witness :
  ∃ w', run_task (TOnPublisherPeerFailed 12 "alice" "p1")
          (take_task (demo_world demo_failed) [] []) = Ret tt w' ∧
    calm w' ∧ heap_ok ∅ w' ∧ w_locks w' = ∅.
Proof.
  apply (cleanup_completes _ _ (demo_world demo_failed) [] (TOnPublisherPeerFailed 12 "alice" "p1") []
           demo_failed_reachable demo_amqp_works);
    [apply (calm_filter (demo_world demo_failed)), calmb_calm; vm_compute; reflexivity
    | vm_compute; reflexivity..].
Defined.
