(* ===== verification/PeerProps.v ===== *)
(** * What peers do

    Candidates that come before the session description, and the ssrcs of an
    offer. *)

From S2P Require Import Prelude GoLib Ice Bytes Sdp Signaling Json Constants KeyframeFilter MediaEngine World Rmq Peer Notify Session.
From S2P Require Import Room RoomMgr Callbacks Server Demo Invariant PeerSafe Links SessionSafe.
From S2P Require Import RoomSafe Safety Outputs Dispatch.

(** ** Candidates *)

(** A message with a candidate. *)
Definition candidate_fields (c : string) : jsonparser := {[CmdCandidate := GStr c]}.

Section candidates.
Context `{GoRuntime, WebRTC}.
(** Candidates a connection with a remote description takes. *)
Definition takes (c : string) : Prop :=
  ∀ pc, is_Some (RemoteDescription (pc_sig pc)) → takes_candidate pc c = true.


(** The log of the connection grows by [ops], and its state changes by [g]. *)
Definition logged (ops : list pcop) (g : pcstate → pcstate) (pr : peer) : peer :=
  set_p_peerConnection (fmap (λ pc, MkPc (pc_id pc) (pc_log pc ++ ops) (g (pc_state pc)))) pr.

Lemma logged_nil pr : logged [] id pr = pr.
Proof.
  destruct pr as [? ? ? ? ? pc]. unfold logged, set_p_peerConnection. simpl. f_equal.
  destruct pc as [[i l]|]; simpl; [|done]. by rewrite app_nil_r.
Qed.
Lemma logged_app ops1 ops2 pr : logged ops2 id (logged ops1 id pr) = logged (ops1 ++ ops2) id pr.
Proof.
  destruct pr as [? ? ? ? ? pc]. unfold logged, set_p_peerConnection. simpl. f_equal.
  destruct pc as [[i l]|]; simpl; [|done]. by rewrite app_assoc.
Qed.

(** A call on the connection of a peer that has one. *)
Lemma pc_step_run {A} w p pr pc op (f : pconn → pcstate * A) :
  w_peers w !! p = Some pr → p_peerConnection pr = Some pc →
  pc_step p op f w = Ret (f pc).2 (set_w_peers <[p := logged [op] (λ _, (f pc).1) pr]> w).
Proof.
  intros Hp Hpc. unfold pc_step, get_peer, mbind, M_bind, gets. rewrite Hp. simpl. rewrite Hpc. simpl.
  unfold upd_peer, modify, mret, M_ret. f_equal. unfold set_w_peers. f_equal.
  apply map_eq. intros q. rewrite lookup_alter, lookup_insert.
  destruct (decide (p = q)) as [->|]; [|done]. rewrite Hp. simpl. f_equal.
  unfold logged, set_p_peerConnection. simpl. by rewrite Hpc.
Qed.

Lemma pc_read_run {A} w p pr pc (f : pconn → A) :
  w_peers w !! p = Some pr → p_peerConnection pr = Some pc → pc_read p f w = Ret (f pc) w.
Proof. intros Hp Hpc. unfold pc_read, get_peer, mbind, M_bind, gets. rewrite Hp. simpl. by rewrite Hpc. Qed.

(** A description that is read and that the signalling and the media engine
    accept. *)
Lemma SetRemoteDescription_run w p pr pc ty sdp d sg :
  w_peers w !! p = Some pr → p_peerConnection pr = Some pc → isClosed (pc_sig pc) = false →
  SessionDescription_Unmarshal session_zero sdp = Ok d →
  setDescription (pc_sig pc) (MkDesc (NewSDPType ty) sdp) stateChangeOpSetRemote = (sg, None) →
  (remote_codecs pc sdp).2 = true → wr_set_remote pc ty sdp = true →
  SetRemoteDescription p ty sdp w =
    Ret tt (set_w_peers <[p := logged [OpSetRemote ty sdp] (λ _, MkState sg (remote_codecs pc sdp).1) pr]> w).
Proof.
  intros Hp Hpc Hc Hd Hs Hm Hr. unfold SetRemoteDescription. rewrite (bind_ret _ _ _ _ _ (pc_read_run w p pr pc _ Hp Hpc)).
  rewrite Hc. unfold desc_Unmarshal. rewrite Hd.
  change ((ok ← pc_step p (OpSetRemote ty sdp) (describe_remote ty sdp); must ok) w =
    Ret tt (set_w_peers <[p := logged [OpSetRemote ty sdp] (λ _, MkState sg (remote_codecs pc sdp).1) pr]> w)).
  rewrite (bind_ret _ _ _ _ _ (pc_step_run w p pr pc _ _ Hp Hpc)). unfold describe_remote. by rewrite Hs, Hm, Hr.
Qed.

Lemma AddICECandidate_run w p pr pc c : takes c →
  w_peers w !! p = Some pr → p_peerConnection pr = Some pc → is_Some (RemoteDescription (pc_sig pc)) →
  AddICECandidate p c w = Ret tt (set_w_peers <[p := logged [OpAddICECandidate c] id pr]> w).
Proof.
  intros Hice Hp Hpc Hr. unfold AddICECandidate, pc_call.
  rewrite (bind_ret _ _ _ _ _ (pc_step_run w p pr pc _ _ Hp Hpc)). cbn [snd]. rewrite Hice by done.
  unfold skip, must, mret, M_ret, logged, set_p_peerConnection. cbn. by rewrite Hpc.
Qed.

Lemma add_all_run cs : Forall takes cs → ∀ w p pr pc,
  w_peers w !! p = Some pr → p_peerConnection pr = Some pc → is_Some (RemoteDescription (pc_sig pc)) →
  for_each cs (AddICECandidate p) w =
    Ret tt (set_w_peers <[p := logged (OpAddICECandidate <$> cs) id pr]> w).
Proof.
  induction 1 as [|c cs Hice _ IH]; intros w p pr pc Hp Hpc Hr; simpl.
  - rewrite logged_nil. unfold mret, M_ret. f_equal. destruct w. unfold set_w_peers. simpl in *.
    by rewrite insert_id.
  - rewrite (bind_ret _ _ _ _ _ (AddICECandidate_run w p pr pc c Hice Hp Hpc Hr)).
    rewrite (IH _ p (logged [OpAddICECandidate c] id pr) (MkPc (pc_id pc) (pc_log pc ++ [OpAddICECandidate c]) (pc_state pc)));
      [|simpl; by rewrite lookup_insert_eq | simpl; by rewrite Hpc | done].
    f_equal. destruct w. unfold set_w_peers. simpl. rewrite insert_insert_eq, logged_app. done.
Qed.

(** Candidates that come early are kept, in order. *)
Lemma early_run cs : ∀ w p pr,
  w_peers w !! p = Some pr → p_setedRemoteDesc pr = false →
  for_each cs (λ c, HandleRemoteCandidate p (candidate_fields c)) w =
    Ret tt (set_w_peers <[p := set_p_candidateCaches (λ l, l ++ cs) pr]> w).
Proof.
  induction cs as [|c cs IH]; intros w p pr Hp Hs; simpl.
  - unfold mret, M_ret. f_equal. destruct w, pr. unfold set_w_peers, set_p_candidateCaches. simpl in *.
    rewrite app_nil_r, insert_id; done.
  - assert (HandleRemoteCandidate p (candidate_fields c) w =
      Ret tt (set_w_peers <[p := set_p_candidateCaches (λ l, l ++ [c]) pr]> w)) as E.
    { unfold HandleRemoteCandidate, get_peer, mbind, M_bind, gets. rewrite Hp. simpl. rewrite Hs. simpl.
      unfold upd_peer, modify. f_equal. unfold set_w_peers. f_equal.
      apply map_eq. intros q. rewrite lookup_alter, lookup_insert.
      destruct (decide (p = q)) as [->|]; [|done]. by rewrite Hp. }
    rewrite (bind_ret _ _ _ _ _ E). rewrite (IH _ p (set_p_candidateCaches (λ l, l ++ [c]) pr)).
    + f_equal. destruct w, pr. unfold set_w_peers, set_p_candidateCaches. simpl.
      rewrite insert_insert_eq, <- app_assoc. done.
    + simpl. by rewrite lookup_insert_eq.
    + done.
Qed.
End candidates.

(** Candidates that reach a subscriber before the client's answer are kept
    and, once an answer whose codecs can be read is set, given to the connection, each once and in
    the order they came; none is lost.  The exchange is then complete: the
    connection is stable, with the server's offer and the client's answer. *)
Theorem early_candidates_in_order `{WebRTC} w p pr pc cs sdp d :
  Forall takes cs → (∀ pc ty s, wr_set_remote pc ty s = true) →
  w_peers w !! p = Some pr → p_peerConnection pr = Some pc →
  isClosed (pc_sig pc) = false → sg_state (pc_sig pc) = SignalingStateHaveLocalOffer →
  SessionDescription_Unmarshal session_zero (json_reencode sdp) = Ok d → (remote_codecs pc (json_reencode sdp)).2 = true →
  p_setedRemoteDesc pr = false → p_candidateCaches pr = [] →
  ∃ w' pr' st, (_ ← for_each cs (λ c, HandleRemoteCandidate p (candidate_fields c));
             accept_answer p sdp) w = Ret tt w' ∧
    w_peers w' !! p = Some pr' ∧ p_setedRemoteDesc pr' = true ∧
    p_peerConnection pr' = Some (MkPc (pc_id pc) (pc_log pc ++
      OpSetRemote "answer" (json_reencode sdp) :: (OpAddICECandidate <$> cs)) st) ∧
    sg_state (st_sig st) = SignalingStateStable ∧ currentLocalDescription (st_sig st) = pendingLocalDescription (pc_sig pc) ∧
    currentRemoteDescription (st_sig st) = Some (MkDesc SDPTypeAnswer (json_reencode sdp)).
Proof.
  intros Hice Hrem Hp Hpc Hopen Hst Hd Hm Hset Hcache.
  rewrite (bind_ret _ _ _ _ _ (early_run cs w p pr Hp Hset)). unfold accept_answer.
  set (pr1 := set_p_candidateCaches (λ l, l ++ cs) pr).
  set (w1 := set_w_peers <[p := pr1]> w).
  assert (w_peers w1 !! p = Some pr1) as Hp1 by (subst w1; simpl; by rewrite lookup_insert_eq).
  set (sg := (setDescription (pc_sig pc) (MkDesc SDPTypeAnswer (json_reencode sdp)) stateChangeOpSetRemote).1).
  assert (setDescription (pc_sig pc) (MkDesc SDPTypeAnswer (json_reencode sdp)) stateChangeOpSetRemote = (sg, None)) as Hsg
    by (subst sg; unfold setDescription; rewrite Hopen, Hst; done).
  assert (sg = set_state (set_descs (pc_sig pc) (pendingLocalDescription (pc_sig pc)) None
    (Some (MkDesc SDPTypeAnswer (json_reencode sdp))) None) SignalingStateStable) as Esg
    by (subst sg; unfold setDescription; rewrite Hopen, Hst; done).
  set (st := MkState sg (remote_codecs pc (json_reencode sdp)).1).
  set (pr2 := logged [OpSetRemote "answer" (json_reencode sdp)] (λ _, st) pr1).
  set (w2 := set_w_peers <[p := pr2]> w1).
  pose proof (SetRemoteDescription_run w1 p pr1 pc "answer" (json_reencode sdp) d sg Hp1 Hpc Hopen Hd Hsg Hm (Hrem _ _ _)) as E2.
  rewrite (bind_ret _ _ _ _ _ E2). cbv beta. fold pr2 w2.
  assert (w_peers w2 !! p = Some pr2) as Hp2 by (subst w2; simpl; by rewrite lookup_insert_eq).
  set (pr3 := set_p_setedRemoteDesc (λ _, true) (set_p_remoteSdpReceived S pr2)).
  set (w3 := set_w_peers (alter (set_p_setedRemoteDesc (λ _, true)) p)
               (set_w_peers (alter (set_p_remoteSdpReceived S) p) w2)).
  assert (w_peers w3 !! p = Some pr3) as Hp3.
  { subst w3. simpl. by rewrite !lookup_alter_eq, lookup_insert_eq. }
  assert (p_peerConnection pr3 = Some (MkPc (pc_id pc)
    (pc_log pc ++ [OpSetRemote "answer" (json_reencode sdp)]) st)) as Hpc3.
  { subst pr3 pr2 pr1. simpl. by rewrite Hpc. }
  exists (set_w_peers <[p := logged (OpAddICECandidate <$> cs) id pr3]> w3),
    (logged (OpAddICECandidate <$> cs) id pr3), st. split_and!; [| | | | by unfold st; cbn [st_sig]; rewrite Esg..].
  - unfold SetCachedCandidates, upd_peer.
    assert (∀ g (k : unit → MW unit) w, (modify g ≫= k) w = k tt (g w)) as Hmod by done.
    rewrite !Hmod. fold w3.
    assert (get_peer p w3 = Ret pr3 w3) as E3
      by (unfold get_peer, mbind, M_bind, gets; by rewrite Hp3).
    rewrite (bind_ret _ _ _ _ _ E3).
    assert (p_candidateCaches pr3 = cs) as -> by (subst pr3 pr2 pr1; simpl; by rewrite Hcache).
    apply (add_all_run cs Hice w3 p pr3 _ Hp3 Hpc3). unfold pc_sig, st. cbn [pc_state st_sig]. rewrite Esg. by eexists.
  - simpl. by rewrite lookup_insert_eq.
  - done.
  - unfold logged, set_p_peerConnection. cbn [p_peerConnection]. rewrite Hpc3. simpl.
    by rewrite <- app_assoc.
Qed.

(** A subscriber that waits for its client's answer, with a library that takes
    every candidate. *)
Definition easy_webrtc : WebRTC := {|
  wr_new_pc _ := true;
  wr_create_offer _ := Some demo_sdp;
  wr_create_answer _ := Some demo_sdp;
  wr_set_local _ _ _ := true;
  wr_set_remote _ _ _ := true;
  wr_ext_order _ _ l := l;
  wr_ext_order_perm _ _ _ := reflexivity _;
  wr_populate _ sdp := sdp;
  wr_ice_agent _ := true;
  wr_add_track _ _ := true;
  wr_create_dc _ _ := true;
  wr_track_write _ _ := WOk;
  wr_url := @wr_url demo_webrtc;
|}.

Definition the_peer (w : world) (p : nat) : option peer := w_peers w !! p.
Definition the_pc (w : world) (p : nat) : pconn :=
  default (MkPc 0 [] (MkState new_signaling engine_zero)) (the_peer w p ≫= p_peerConnection).
Definition peer_dummy : peer :=
  MkPeer "" "" "" 0 false None false false false false false None false None 0 false [] false false
    codec_zero codec_zero None None None 0 false 0 "".

Definition demo_desc : @SessionDescription (@wr_url easy_webrtc) :=
  Eval vm_compute in match SessionDescription_Unmarshal session_zero demo_sdp with Ok d => d | _ => session_zero end.

Lemma early_candidates_in_order_witness :
  let pc := the_pc (demo_world demo_sub) 16 in
  ∃ w' pr' st, (_ ← for_each [sample_text; "candidate:"] (λ c, @HandleRemoteCandidate easy_webrtc 16 (candidate_fields c));
             @accept_answer easy_webrtc 16 demo_sdp) (demo_world demo_sub) = Ret tt w' ∧
    w_peers w' !! 16%nat = Some pr' ∧ p_setedRemoteDesc pr' = true ∧
    p_peerConnection pr' = Some (MkPc (pc_id pc) (pc_log pc ++
        OpSetRemote "answer" (json_reencode demo_sdp) :: (OpAddICECandidate <$> [sample_text; "candidate:"])) st) ∧
    sg_state (st_sig st) = SignalingStateStable ∧ currentLocalDescription (st_sig st) = pendingLocalDescription (pc_sig pc) ∧
    currentRemoteDescription (st_sig st) = Some (MkDesc SDPTypeAnswer (json_reencode demo_sdp)).
Proof.
  apply (@early_candidates_in_order easy_webrtc (demo_world demo_sub) 16
           (default peer_dummy (the_peer (demo_world demo_sub) 16))
           (the_pc (demo_world demo_sub) 16) [sample_text; "candidate:"] demo_sdp demo_desc);
    [|vm_compute; reflexivity..].
  repeat constructor; intros pc [d Hd]; unfold takes_candidate; by rewrite Hd.
Defined.

(** ** The ssrcs of an offer *)

(** The ssrc an attribute declares by a cname. *)
Definition attr_ssrc (a : string * string) : option Z :=
  if decide (a.1 = "ssrc") then
    match ssrc_fields a.2 with
    | num :: name :: _ => if decide (name = "cname") then atoi num else None
    | _ => None
    end
  else None.

(** An attribute the loop can read: an ssrc attribute has a number and a name,
    and the number of a cname is one. *)
Definition attr_ok (a : string * string) : Prop :=
  a.1 = "ssrc" → ∃ num name rest, ssrc_fields a.2 = num :: name :: rest ∧
    (name = "cname" → is_Some (atoi num)).

(** What the sections of a kind declare, in order. *)
Definition declared (kind : string) (medias : list media) : list Z :=
  medias ≫= λ m, if decide (m_name m = kind) then omap attr_ssrc (m_attrs m) else [].

Lemma ssrc_attr_run a w : attr_ok a → ssrc_attr a w = Ret (attr_ssrc a) w.
Proof.
  unfold attr_ok, ssrc_attr, attr_ssrc. case_decide as E; [|done]. intros Ha.
  destruct (Ha E) as (num & name & rest & -> & Hn). unfold mbind, M_bind. simpl.
  case_decide as En; [|done]. destruct (Hn En) as [z ->]. done.
Qed.

(** A list field of a peer, and its update. *)
Section list_field.
Context (push : (option (list Z) → option (list Z)) → peer → peer) (field : peer → option (list Z)).
Context (field_push : ∀ f pr, field (push f pr) = f (field pr))
        (push_push : ∀ f g pr, push f (push g pr) = push (λ _, f (g (field pr))) pr)
        (push_id : ∀ pr, push (λ _, field pr) pr = pr).

Lemma push_ssrcs_run attrs : ∀ w p pr l,
  Forall attr_ok attrs → w_peers w !! p = Some pr → field pr = Some l →
  push_ssrcs p push attrs w =
    Ret tt (set_w_peers <[p := push (λ _, Some (l ++ omap attr_ssrc attrs)) pr]> w).
Proof.
  unfold push_ssrcs. induction attrs as [|a attrs IH]; intros w p pr l Hok Hp Hl; simpl.
  - rewrite app_nil_r, <- Hl, push_id. unfold mret, M_ret. f_equal. destruct w. unfold set_w_peers.
    simpl in *. by rewrite insert_id.
  - apply Forall_cons in Hok as [Ha Hok].
    assert (∀ k : unit → MW unit, ((o ← ssrc_attr a;
       match o with Some ssrc => upd_peer p (push (fmap (λ l, l ++ [ssrc]))) | None => skip end) ≫= k) w =
      k tt (match attr_ssrc a with
            | Some z => set_w_peers <[p := push (λ _, Some (l ++ [z])) pr]> w
            | None => w
            end)) as E.
    { intros k. unfold mbind, M_bind. rewrite ssrc_attr_run by done. destruct (attr_ssrc a) as [z|]; [|done].
      unfold upd_peer, modify. f_equal. destruct w. unfold set_w_peers. simpl in *. f_equal.
      apply map_eq. intros q. rewrite lookup_alter, lookup_insert.
      destruct (decide (p = q)) as [->|]; [|done]. rewrite Hp. simpl. f_equal.
      rewrite <- (push_id pr) at 1. rewrite push_push, Hl. done. }
    rewrite E. destruct (attr_ssrc a) as [z|] eqn:Ez; [|by apply IH].
    rewrite (IH _ p (push (λ _, Some (l ++ [z])) pr) (l ++ [z]));
      [|done | simpl; by rewrite lookup_insert_eq | by rewrite field_push].
    f_equal. destruct w. unfold set_w_peers. simpl. rewrite insert_insert_eq, push_push, <- app_assoc. done.
Qed.
End list_field.

(** The three lists of a peer. *)
Definition with_ssrcs (a v c : list Z) (pr : peer) : peer :=
  set_p_appssrc (λ _, Some c) (set_p_videossrc (λ _, Some v) (set_p_audiossrc (λ _, Some a) pr)).

#[local] Arguments declared : simpl never.
Lemma declared_cons kind m medias :
  declared kind (m :: medias) =
    (if decide (m_name m = kind) then omap attr_ssrc (m_attrs m) else []) ++ declared kind medias.
Proof. done. Qed.

Lemma media_loop medias : ∀ w p pr a v c,
  Forall (λ m, Forall attr_ok (m_attrs m)) medias → w_peers w !! p = Some (with_ssrcs a v c pr) →
  for_each medias (λ value,
    if decide (m_name value = "audio") then push_ssrcs p set_p_audiossrc (m_attrs value)
    else if decide (m_name value = "video") then push_ssrcs p set_p_videossrc (m_attrs value)
    else if decide (m_name value = "Application") then push_ssrcs p set_p_appssrc (m_attrs value)
    else skip) w =
  Ret tt (set_w_peers <[p := with_ssrcs (a ++ declared "audio" medias) (v ++ declared "video" medias)
                               (c ++ declared "Application" medias) pr]> w).
Proof.
  induction medias as [|m medias IH]; intros w p pr a v c Hok Hp; simpl.
  - unfold declared. simpl. rewrite !app_nil_r. unfold mret, M_ret. f_equal. destruct w.
    unfold set_w_peers. simpl in *. by rewrite insert_id.
  - apply Forall_cons in Hok as [Hm Hok]. rewrite !declared_cons.
    assert (∀ w1 a1 v1 c1 m1 (k : MW unit),
      m1 w = Ret tt (set_w_peers <[p := with_ssrcs a1 v1 c1 pr]> w) →
      w1 = set_w_peers <[p := with_ssrcs a1 v1 c1 pr]> w →
      ((m1 : MW unit) ≫= λ _, k) w = k w1) as Hstep.
    { intros w1 a1 v1 c1 m1 k Hm1 ->. by rewrite (bind_ret _ _ _ _ _ Hm1). }
    assert (∀ a1 v1 c1, w_peers (set_w_peers <[p := with_ssrcs a1 v1 c1 pr]> w) !! p =
      Some (with_ssrcs a1 v1 c1 pr)) as Hlk by (intros; simpl; by rewrite lookup_insert_eq).
    assert (∀ x y, set_w_peers <[p := y]> (set_w_peers <[p := x]> w) = set_w_peers <[p := y]> w) as Hins.
    { intros x y. destruct w. unfold set_w_peers. simpl. by rewrite insert_insert_eq. }
    repeat case_decide; try congruence.
    + erewrite Hstep; [| |reflexivity].
      * rewrite (IH _ p pr (a ++ omap attr_ssrc (m_attrs m)) v c), Hins, <- !app_assoc; done.
      * by rewrite (push_ssrcs_run set_p_audiossrc p_audiossrc ltac:(done) ltac:(done) ltac:(by intros []) (m_attrs m) w p _ a Hm Hp eq_refl).
    + erewrite Hstep; [| |reflexivity].
      * rewrite (IH _ p pr a (v ++ omap attr_ssrc (m_attrs m)) c), Hins, <- !app_assoc; done.
      * by rewrite (push_ssrcs_run set_p_videossrc p_videossrc ltac:(done) ltac:(done) ltac:(by intros []) (m_attrs m) w p _ v Hm Hp eq_refl).
    + erewrite Hstep; [| |reflexivity].
      * rewrite (IH _ p pr a v (c ++ omap attr_ssrc (m_attrs m))), Hins, <- !app_assoc; done.
      * by rewrite (push_ssrcs_run set_p_appssrc p_appssrc ltac:(done) ltac:(done) ltac:(by intros []) (m_attrs m) w p _ c Hm Hp eq_refl).
    + by apply IH.
Qed.

(** The peer [p] alone changes, to [pr']. *)
Definition peer_becomes (w : world) (p : nat) (pr' : peer) : world := set_w_peers <[p := pr']> w.

Lemma existsb_elem_of (l : list Z) z : existsb (Z.eqb z) l = bool_decide (z ∈ l).
Proof.
  apply Bool.eq_iff_eq_true. rewrite existsb_exists, bool_decide_eq_true. split.
  - intros (y & Hy & ->%Z.eqb_eq). by apply list_elem_of_In.
  - intros Hz. exists z. by rewrite <- list_elem_of_In, Z.eqb_refl.
Qed.

(** setSsrcFromSDP replaces the three lists of a publisher by the ssrcs
    that the sections of the offer declare with a cname, in the order of the
    offer, and changes nothing else; from then on the peer takes an incoming
    track for audio, or for video, exactly when its ssrc is one of them. *)
Lemma ssrcs_recorded `{WebRTC} w p pr sdp d :
  w_peers w !! p = Some pr →
  is_Some (p_audiossrc pr) → is_Some (p_videossrc pr) → is_Some (p_appssrc pr) →
  SessionDescription_Unmarshal session_zero sdp = Ok d →
  let medias := map media_section (MediaDescriptions d) in
  Forall (λ m, Forall attr_ok (m_attrs m)) medias →
  let w' := peer_becomes w p (with_ssrcs (declared "audio" medias) (declared "video" medias)
                                (declared "Application" medias) pr) in
  setSsrcFromSDP p sdp w = Ret true w' ∧
  ∀ ssrc, isAudioSsrc p ssrc w' = Ret (bool_decide (ssrc ∈ declared "audio" medias)) w' ∧
    isVideoSsrc p ssrc w' = Ret (bool_decide (ssrc ∈ declared "video" medias)) w'.
Proof.
  intros Hp [a Ha] [v Hv] [c Hc] Hsdp medias Hok w'. split.
  - unfold setSsrcFromSDP, desc_Unmarshal. rewrite Hsdp. fold medias. unfold get_peer, upd_peer.
    set (w0 := set_w_peers (alter (set_p_appssrc (λ _, Some [])) p)
      (set_w_peers (alter (set_p_videossrc (λ _, Some [])) p)
        (set_w_peers (alter (set_p_audiossrc (λ _, Some [])) p) w))).
    assert (w_peers w0 !! p = Some (with_ssrcs [] [] [] pr)) as H0.
    { subst w0. simpl. by rewrite !lookup_alter_eq, Hp. }
    pose proof (media_loop medias w0 p pr [] [] [] Hok H0) as Hloop. simpl in Hloop.
    unfold mbind, M_bind, gets, from_some, modify, mret, M_ret in *. rewrite Hp, Ha, Hv, Hc.
    fold w0. rewrite Hloop. f_equal. subst w' w0. unfold peer_becomes, set_w_peers. destruct w. simpl.
    f_equal. apply map_eq. intros q. rewrite !lookup_insert, !lookup_alter. by repeat case_decide.
  - intros ssrc. rewrite <- !existsb_elem_of.
    assert (w_peers w' !! p = Some (with_ssrcs (declared "audio" medias) (declared "video" medias)
      (declared "Application" medias) pr)) as Hp' by (subst w'; simpl; by rewrite lookup_insert_eq).
    unfold isAudioSsrc, isVideoSsrc, get_peer, mbind, M_bind, gets. by rewrite Hp'.
Qed.

