(* ===== verification/Faults.v ===== *)
(** * Runs in which the server goes wrong

    Concrete runs of the model, from the start of the process, that show what
    some branches of the code do: a subscription that comes too early, a
    message to another cluster without the shared broker, a subscriber whose
    connection fails. *)

From S2P Require Import Prelude GoLib Json Constants KeyframeFilter World Rmq Peer Notify Session.
From S2P Require Import Room RoomMgr Callbacks Server Demo Invariant Safety Leave Ready ReadyRmq.

(** ** A subscription before the publisher is negotiated *)

Definition demo_early_sub : list act := demo_publish ++ [
  AEv (XMessage (peer_msg CmdSub "room1" "bob" "alice" "p1"))].

(** The reason a run stopped, if it did. *)
Definition stopped (o : outcome world unit) : option stop :=
  match o with Ret _ _ => None | Stop r _ => Some r end.

(** A Sub message that comes after the Push of a publisher and before its
    Offer ends the process: the publisher has no local description yet, the
    subscriber is made with a nil one, and HandleSubscribe dereferences it. *)
Theorem early_sub_panics :
  stopped (demo_run demo_publish) = None ∧ stopped (demo_run demo_early_sub) = Some PNilDeref.
Proof. split; vm_compute; reflexivity. Qed.

(** ** A message to another cluster without the shared broker *)

Definition fakepublish_msg : string := json_marshal [
  (LabelCmd, GStr CmdFakePublish); (LabelClusterId, GStr "c2"); (LabelPodId, GStr "pod2");
  (LabelRoomId, GStr "room1"); (LabelSessID, GStr "carol"); (LabelPeerID, GStr "q1");
  (LabelUserName, GStr "Carol")].

(** Only the cluster's own broker is connected. *)
Definition demo_cluster_only : list act := [
  AEv (XRetryTimer 0 0); ARun 0; AEv (XMessage (login_msg "room1" "alice"))].
(** Both were connected, and the connection to the shared one is lost. *)
Definition demo_center_lost : list act := demo_connect ++ [
  AEv (XMessage (login_msg "room1" "alice")); AEv (XCenterClose 1 true)].

(** PublishMessage2CrossClusterPod tests the flag of the cluster's own
    broker: a FakePublish message makes the process dereference a nil exchange
    when the shared broker was never connected, and blocks its handler for
    good when the connection to it was lost. *)
Theorem cross_cluster_send_stops :
  stopped (demo_run demo_cluster_only) = None ∧
  stopped (demo_run (demo_cluster_only ++ [AEv (XMessage fakepublish_msg)])) = Some PNilDeref ∧
  stopped (demo_run demo_center_lost) = None ∧
  stopped (demo_run (demo_center_lost ++ [AEv (XMessage fakepublish_msg)])) =
    Some (HChan CMsgChan).
Proof. split_and!; vm_compute; reflexivity. Qed.

(** ** A subscriber whose connection fails *)

(** The handlers of a subscriber's failed and closed connection look it up
    under the peer id, while its key is made of three ids: in a run where the
    connection of a subscriber fails and is then closed, nothing is scheduled
    and the session still holds the subscriber, with its connection open. *)
Theorem failed_subscriber_kept :
  let w := demo_world (demo_sub ++ [AEv (XSubIce 16 ICEFailed); AEv (XSubIce 16 ICEClosed)]) in
  stopped (demo_run (demo_sub ++ [AEv (XSubIce 16 ICEFailed); AEv (XSubIce 16 ICEClosed)])) = None ∧
  w_tasks w = [] ∧ s_subscribers (the_sess w 13) !! "bobalicep1" = Some 16%nat ∧
  p_exitCh_closed <$> w_peers w !! 16%nat = Some false.
Proof. split_and!; vm_compute; reflexivity. Qed.
