(* ===== verification/Offer.v ===== *)
(** * Offers, from the message to the connection

    An offer reaches the server as a field of a JSON message: the message is
    read by the decoder, the field goes through an encoding once more, its text
    is read by the parser of session descriptions, and the ssrcs of its sections
    are kept by the peer.  The theorems go through all of it. *)

From S2P Require Import Prelude GoLib Bytes Sdp SdpSafe SdpProps Json Constants KeyframeFilter MediaEngine World Rmq Peer Notify Session.
From S2P Require Import Room RoomMgr Callbacks Server Demo JsonProps PeerProps Faults.

Definition medias_of `{NetUrl} (d : SessionDescription) : list media := map media_section (MediaDescriptions d).

(** The parser knows five kinds of section, none of which has the capital
    letter the server looks for. *)
Lemma no_application `{NetUrl} d : session_ok d → declared "Application" (medias_of d) = [].
Proof.
  intros Hd. unfold medias_of, declared. induction (so_media d Hd) as [|m l Hm _ IH]; [done|].
  cbn [map mbind list_bind]. rewrite IH, app_nil_r. destruct Hm as [[Hm _] _]. cbn [media_section m_name].
  rewrite decide_False; [done|]. intros E. rewrite E in Hm. apply (bool_decide_pack _) in Hm. done.
Qed.

Lemma string_field (l : list (string * string)) k v : NoDup l.*1 → (k, v) ∈ l →
  default EmptyString ((list_to_map l : gmap string string) !! k) = v.
Proof. intros Hd Hin. by rewrite (elem_of_list_to_map_1 l k v). Qed.

(** C29. What an offer declares is what the server records.  A client puts the text
    of a description into a message of strings: the message is read, the
    description is read from its field, and the lists of the publisher are
    replaced by the ssrcs that its audio and video sections declare with a
    cname, in order (the list for application data stays empty, whatever the
    description has); from then on the peer takes an incoming track for audio,
    or for video, exactly when its ssrc is one of them. *)
Theorem offer_recorded `{GoRuntime} `{WebRTC} w p pr d l :
  w_peers w !! p = Some pr →
  is_Some (p_audiossrc pr) → is_Some (p_videossrc pr) → is_Some (p_appssrc pr) →
  session_ok d → Forall (λ m, Forall attr_ok (m_attrs m)) (medias_of d) →
  NoDup l.*1 → Forall (λ kv, ascii_str kv.1 = true ∧ ascii_str kv.2 = true) l →
  (LabelSDP, SessionDescription_Marshal d) ∈ l →
  let audio := declared "audio" (medias_of d) in let video := declared "video" (medias_of d) in
  let w' := peer_becomes w p (with_ssrcs audio video [] pr) in
  ∃ j, CreateJSONParser (json_marshal (strings l)) = Some j ∧
    setSsrcFromSDP p (json_reencode (GetValue j LabelSDP)) w = Ret true w' ∧
    ∀ ssrc, isAudioSsrc p ssrc w' = Ret (bool_decide (ssrc ∈ audio)) w' ∧
      isVideoSsrc p ssrc w' = Ret (bool_decide (ssrc ∈ video)) w'.
Proof.
  intros Hp Ha Hv Hc Hd Hattrs Hnd Hascii Hin audio video w'.
  destruct (parse_marshal l Hnd Hascii) as (j & Hj & Hget). exists j. split; [done|].
  rewrite Hget, (string_field l _ _ Hnd Hin), json_reencode_ascii.
  2: { rewrite Forall_forall in Hascii. by destruct (Hascii _ Hin). }
  destruct (ssrcs_recorded w p pr _ d Hp Ha Hv Hc (unmarshal_marshal d Hd) Hattrs) as [E1 E2].
  fold (medias_of d) in E1, E2. rewrite (no_application d Hd) in E1, E2. done.
Qed.

(** The publisher of the sample run, and an offer with two sections. *)
Definition two_sections : @SessionDescription (@wr_url demo_webrtc) :=
  let media kind attrs := MkMediaDesc (MkMediaName kind (MkPort 9 None) ["UDP"; "TLS"; "RTP"; "SAVPF"] ["96"]) None None [] None
    (map (λ kv, MkAttribute kv.1 kv.2) attrs) in
  Sdp.MkSession 0 (MkOrigin "-" 1 1 "IN" "IP4" "0.0.0.0") "-" None None None None None [] [MkTime (MkTiming 0 0) []] [] None []
    [media "audio" [("rtcp-mux", EmptyString); ("ssrc", "1111 cname:a"); ("ssrc", "1111 msid:s a")];
     media "video" [("ssrc", "2222 cname:a"); ("ssrc", "3333 cname:a")]].

Definition two_sections_message : list (string * string) :=
  [(LabelCmd, CmdOffer); (LabelSessID, "alice"); (LabelPeerID, "p1"); (LabelSDP, SessionDescription_Marshal two_sections)].

Lemma offer_recorded_witness :
  let w := demo_world demo_publish in
  let pr := default peer_dummy (the_peer w 15) in
  let w' := peer_becomes w 15 (with_ssrcs [1111] [2222; 3333] [] pr) in
  ∃ j, CreateJSONParser (json_marshal (strings two_sections_message)) = Some j ∧
    setSsrcFromSDP 15 (json_reencode (GetValue j LabelSDP)) w = Ret true w' ∧
    isVideoSsrc 15 3333 w' = Ret true w' ∧ isAudioSsrc 15 2222 w' = Ret false w'.
Proof.
  intros w pr w'.
  destruct (offer_recorded w 15 pr two_sections two_sections_message) as (j & Hj & E1 & E2);
    [vm_compute; reflexivity | vm_compute; eexists; reflexivity.. | | | | | |].
  - constructor; cbn -[Z.pow]; repeat concrete_field.
  - repeat constructor; intros Hs; try discriminate Hs;
      eexists _, _, _; (split; [vm_compute; reflexivity | intros _; vm_compute; eexists; reflexivity]).
  - apply (bool_decide_unpack (NoDup two_sections_message.*1)). vm_compute. exact I.
  - repeat constructor; vm_compute; reflexivity.
  - do 3 right. left.
  - exists j. split; [exact Hj|]. split; [exact E1|]. split; [exact (proj2 (E2 3333)) | exact (proj1 (E2 2222))].
Defined.

(** ** An offer that stops the server *)

(** Whatever the state of the server: an offer whose description begins with an
    empty r= line, whatever follows it, makes the handler of the offer index an
    empty string, which ends the process. *)
Theorem offer_stops_server `{WebRTC} w p pr j more :
  w_peers w !! p = Some pr → GetValue j LabelSDP = empty_repeat +:+ more → ascii_str more = true →
  HandleRemoteOffer p j w = Stop PIndex w.
Proof.
  intros Hp Hj Hm. unfold HandleRemoteOffer, accept_offer. rewrite Hj, json_reencode_ascii.
  2: { exact Hm. }
  unfold setSsrcFromSDP, desc_Unmarshal, mbind, M_bind. by rewrite sdp_repeat_panics.
Qed.

Definition repeat_message : string := json_marshal [(LabelCmd, GStr CmdOffer); (LabelRoomId, GStr "room1"); (LabelSessID, GStr "alice");
  (LabelPeerID, GStr "p1"); (LabelSDP, GStr empty_repeat)].
Definition repeat_fields : jsonparser := default ∅ (CreateJSONParser repeat_message).

(** The message of a client that has published, sent to the server. *)
Lemma offer_stops_server_witness :
  HandleRemoteOffer 15 repeat_fields (demo_world demo_publish) = Stop PIndex (demo_world demo_publish) ∧
  stopped (demo_run demo_publish) = None ∧
  stopped (demo_run (demo_publish ++ [AEv (XMessage repeat_message)])) = Some PIndex.
Proof.
  split; [|split; vm_compute; reflexivity].
  destruct (w_peers (demo_world demo_publish) !! 15%nat) as [pr|] eqn:Hp; [|vm_compute in Hp; discriminate].
  apply (offer_stops_server _ 15 pr repeat_fields EmptyString Hp); [vm_compute; reflexivity | reflexivity].
Defined.
