(* ===== verification/Negotiate.v ===== *)
(** * Exchanges of offers and answers

    How the handlers of the server take a connection through the states of the
    signalling: a publisher's offer is answered within its handler, and the
    answer to the server's offer completes a subscription; an answer that the
    state of the connection does not allow ends the process. *)

From S2P Require Import Prelude GoLib Bytes Sdp Signaling SignalingProps Json Constants KeyframeFilter MediaEngine MediaEngineProps World Rmq Peer Notify Session.
From S2P Require Import Room RoomMgr Callbacks Server Demo Invariant RoomSafe RoomMgrSafe Safety Leave Settled Ready ReadyRmq PeerProps Faults.

(** ** Steps *)

(** The peer [p] and its connection. *)
Definition conn (w : world) (p : nat) (pr : peer) (pc : pconn) : Prop := w_peers w !! p = Some pr ∧ p_peerConnection pr = Some pc.

Lemma conn_logged w p pr pc ops g : conn w p pr pc →
  conn (set_w_peers <[p := logged ops g pr]> w) p (logged ops g pr) (MkPc (pc_id pc) (pc_log pc ++ ops) (g (pc_state pc))).
Proof.
  intros [Hp Hpc]. split; [simpl; by rewrite lookup_insert_eq|]. unfold logged, set_p_peerConnection. cbn [p_peerConnection]. by rewrite Hpc.
Qed.

Lemma conn_upd w p pr pc g : conn w p pr pc → p_peerConnection (g pr) = p_peerConnection pr →
  conn (set_w_peers (alter g p) w) p (g pr) pc.
Proof. intros [Hp Hpc] Hg. split; [simpl; by rewrite lookup_alter_eq, Hp | congruence]. Qed.

Lemma mret_bind {A B} (a : A) (k : A → MW B) w : ((mret a : MW A) ≫= k) w = k a w.
Proof. done. Qed.
Lemma modify_bind {B} g (k : unit → MW B) w : (modify g ≫= k) w = k tt (g w).
Proof. done. Qed.

Section runs.
Context `{WebRTC}.

Lemma CreateAnswer_run w p pr pc a : conn w p pr pc → answer_refused (pc_sig pc) = None → wr_create_answer pc = Some a →
  CreateAnswer p w = Ret a (set_w_peers <[p := logged [OpCreateAnswer] (λ _, with_sig (set_lastAnswer a (pc_sig pc)) pc) pr]> w).
Proof.
  intros [Hp Hpc] Hr Ha. unfold CreateAnswer. rewrite (bind_ret _ _ _ _ _ (pc_step_run w p pr pc _ _ Hp Hpc)). by rewrite Hr, Ha.
Qed.

Lemma SetLocalDescription_run w p pr pc ty sdp d sg : conn w p pr pc → isClosed (pc_sig pc) = false → sdp ≠ EmptyString →
  SessionDescription_Unmarshal session_zero sdp = Ok d →
  setDescription (pc_sig pc) (MkDesc (NewSDPType ty) sdp) stateChangeOpSetLocal = (sg, None) → wr_set_local pc ty sdp = true →
  SetLocalDescription p ty sdp w = Ret tt (set_w_peers <[p := logged [OpSetLocal ty sdp] (λ _, with_sig sg pc) pr]> w).
Proof.
  intros [Hp Hpc] Hc Hne Hd Hs Hr. unfold SetLocalDescription. rewrite (bind_ret _ _ _ _ _ (pc_read_run w p pr pc _ Hp Hpc)), Hc.
  change (must (negb false)) with (mret tt : MW unit). rewrite mret_bind.
  rewrite (bind_ret _ _ _ _ _ (pc_read_run w p pr pc _ Hp Hpc)). unfold local_text. cbn [d_SDP d_Type].
  rewrite decide_False by done. unfold desc_Unmarshal. cbn [from_some]. rewrite mret_bind, Hd.
  change ((ok ← pc_step p (OpSetLocal ty sdp) (describe_local ty sdp); must ok) w =
    Ret tt (set_w_peers <[p := logged [OpSetLocal ty sdp] (λ _, with_sig sg pc) pr]> w)).
  rewrite (bind_ret _ _ _ _ _ (pc_step_run w p pr pc _ _ Hp Hpc)). unfold describe_local. by rewrite Hs, Hr.
Qed.

Lemma SetCachedCandidates_run w p pr pc : conn w p pr pc → Forall takes (p_candidateCaches pr) →
  is_Some (RemoteDescription (pc_sig pc)) → ∃ w',
  SetCachedCandidates p w = Ret tt w' ∧ w_out w' = w_out w ∧
  conn w' p (logged (OpAddICECandidate <$> p_candidateCaches pr) id (set_p_setedRemoteDesc (λ _, true) pr))
    (MkPc (pc_id pc) (pc_log pc ++ (OpAddICECandidate <$> p_candidateCaches pr)) (pc_state pc)).
Proof.
  intros C Hice Hr. unfold SetCachedCandidates, upd_peer. rewrite modify_bind.
  pose proof (conn_upd w p pr pc (set_p_setedRemoteDesc (λ _, true)) C eq_refl) as [Hp1 Hpc1].
  set (w1 := set_w_peers _ w) in *. set (pr1 := set_p_setedRemoteDesc _ pr) in *.
  assert (get_peer p w1 = Ret pr1 w1) as E by (unfold get_peer, mbind, M_bind, gets; by rewrite Hp1).
  rewrite (bind_ret _ _ _ _ _ E). eexists. split; [exact (add_all_run _ Hice w1 p pr1 pc Hp1 Hpc1 Hr)|]. split; [done|].
  exact (conn_logged w1 p pr1 pc (OpAddICECandidate <$> p_candidateCaches pr) id (conj Hp1 Hpc1)).
Qed.
End runs.

(** ** A publisher's offer *)

Definition exchange_done (pc : pconn) (local remote : sdesc) : Prop :=
  sg_state (pc_sig pc) = SignalingStateStable ∧ isClosed (pc_sig pc) = false ∧
  currentLocalDescription (pc_sig pc) = Some local ∧ currentRemoteDescription (pc_sig pc) = Some remote ∧
  pendingLocalDescription (pc_sig pc) = None ∧ pendingRemoteDescription (pc_sig pc) = None.

(** The connection after the offer was set, and after an answer to it was made. *)
Definition offered `{WebRTC} (pc : pconn) (offer : string) : pconn :=
  MkPc (pc_id pc) (pc_log pc ++ [OpSetRemote "offer" offer])
    (MkState (setDescription (pc_sig pc) (MkDesc SDPTypeOffer offer) stateChangeOpSetRemote).1 (remote_codecs pc offer).1).
Definition answer_made (pc : pconn) (a : string) : pconn :=
  MkPc (pc_id pc) (pc_log pc ++ [OpCreateAnswer]) (with_sig (set_lastAnswer a (pc_sig pc)) pc).

(** The library answers the offer [offer] on the connection [pc] with [a]: what
    comes after the signalling state and the codecs accepts the offer, makes the
    answer, and accepts it as the local description. *)
Definition answers `{WebRTC} (pc : pconn) (offer a : string) : Prop :=
  (remote_codecs pc offer).2 = true ∧ wr_set_remote pc "offer" offer = true ∧
  wr_create_answer (offered pc offer) = Some a ∧ wr_set_local (answer_made (offered pc offer) a) "answer" a = true ∧
  a ≠ EmptyString ∧ ∃ da, SessionDescription_Unmarshal session_zero a = Ok da.

(** The exchange from any stable connection. *)
Lemma offer_exchange `{WebRTC} w p pr pc sdp d a : let offer := json_reencode sdp in
  Forall takes (p_candidateCaches pr) → answers pc offer a →
  w_peers w !! p = Some pr → p_peerConnection pr = Some pc → isClosed (pc_sig pc) = false → sg_state (pc_sig pc) = SignalingStateStable →
  is_Some (p_audiossrc pr) → is_Some (p_videossrc pr) → is_Some (p_appssrc pr) →
  SessionDescription_Unmarshal session_zero offer = Ok d →
  let medias := map media_section (MediaDescriptions d) in Forall (λ m, Forall attr_ok (m_attrs m)) medias →
  ∃ w' pr' pc', accept_offer p sdp w = Ret a w' ∧ w_out w' = w_out w ∧
    w_peers w' !! p = Some pr' ∧ p_peerConnection pr' = Some pc' ∧ p_onSendMessageHandler pr' = p_onSendMessageHandler pr ∧
    exchange_done pc' (MkDesc SDPTypeAnswer a) (MkDesc SDPTypeOffer offer) ∧
    pc_log pc' = pc_log pc ++ OpSetRemote "offer" offer :: OpCreateAnswer :: OpSetLocal "answer" a ::
      (OpAddICECandidate <$> p_candidateCaches pr) ∧
    p_audiossrc pr' = Some (declared "audio" medias) ∧ p_videossrc pr' = Some (declared "video" medias).
Proof.
  intros offer Hice (Hm & Hrem & Hans & Hloc & Hne & da & Hda) Hp Hpc Hopen Hst Ha Hv Hc Hd medias Hok. unfold accept_offer. fold offer.
  destruct (ssrcs_recorded w p pr offer d Hp Ha Hv Hc Hd Hok) as [E0 _]. fold medias in E0. rewrite (bind_ret _ _ _ _ _ E0).
  set (pr0 := with_ssrcs _ _ _ pr). assert (conn (peer_becomes w p pr0) p pr0 pc) as C0 by (split; [simpl; by rewrite lookup_insert_eq | exact Hpc]).
  change (must true) with (mret tt : MW unit). rewrite mret_bind. set (g := pc_sig pc) in *.
  set (sg1 := set_state (set_descs g (currentLocalDescription g) (pendingLocalDescription g) (currentRemoteDescription g)
    (Some (MkDesc SDPTypeOffer offer))) SignalingStateHaveRemoteOffer).
  assert (setDescription g (MkDesc (NewSDPType "offer") offer) stateChangeOpSetRemote = (sg1, None)) as S1
    by (unfold setDescription; rewrite Hopen, Hst; done).
  change (NewSDPType "offer") with SDPTypeOffer in S1.
  unfold offered in Hans, Hloc. fold g in Hans, Hloc. rewrite S1 in Hans, Hloc. cbn [fst] in Hans, Hloc.
  destruct C0 as [Hp0 Hpc0].
  rewrite (bind_ret _ _ _ _ _ (SetRemoteDescription_run _ p pr0 pc "offer" offer d sg1 Hp0 Hpc0 Hopen Hd S1 Hm Hrem)).
  pose proof (conn_logged _ p pr0 pc [OpSetRemote "offer" offer] (λ _, MkState sg1 (remote_codecs pc offer).1) (conj Hp0 Hpc0)) as C1.
  set (pc1 := MkPc (pc_id pc) _ _) in C1.
  unfold upd_peer. rewrite modify_bind. apply (conn_upd _ p _ _ (set_p_remoteSdpReceived S)) in C1 as C2; [|done].
  rewrite (bind_ret _ _ _ _ _ (CreateAnswer_run _ p _ _ a C2 ltac:(unfold answer_refused; cbn; by rewrite Hopen) Hans)).
  apply (conn_logged _ p _ _ [OpCreateAnswer] (λ _, with_sig (set_lastAnswer a sg1) pc1)) in C2 as C3.
  set (pc3 := MkPc (pc_id pc1) _ _) in C3.
  set (sg4 := set_state (set_descs (set_lastAnswer a sg1) (Some (MkDesc SDPTypeAnswer a)) None (Some (MkDesc SDPTypeOffer offer)) None) SignalingStateStable).
  assert (setDescription (set_lastAnswer a sg1) (MkDesc (NewSDPType "answer") a) stateChangeOpSetLocal = (sg4, None)) as S4
    by (change (NewSDPType "answer") with SDPTypeAnswer; unfold setDescription, unmatched; cbn [isClosed set_lastAnswer sg1 set_state set_descs d_SDP d_Type lastAnswer]; rewrite Hopen, decide_False, decide_True by done; done).
  rewrite (bind_ret _ _ _ _ _ (SetLocalDescription_run _ p _ _ "answer" a da sg4 C3 Hopen Hne Hda S4 Hloc)).
  apply (conn_logged _ p _ _ [OpSetLocal "answer" a] (λ _, with_sig sg4 pc3)) in C3 as C4.
  destruct (SetCachedCandidates_run _ p _ _ C4 Hice) as (w5 & E5 & Ho5 & [Hp5 Hpc5]); [by eexists|].
  rewrite (bind_ret _ _ _ _ _ E5). eexists w5, _, _. split; [done|]. split; [exact Ho5|]. split; [exact Hp5|]. split; [exact Hpc5|]. split; [done|].
  split; [by split_and!|]. split; [cbn; by rewrite <- !app_assoc | done].
Qed.

(** Between two messages every connection is settled, and its media engine has what
    the server registered. *)
Lemma reachable_conn `{GoRuntime, WebRTC, Amqp} c now w p pr pc :
  reachable c now w → w_peers w !! p = Some pr → p_peerConnection pr = Some pc →
  settled pr (pc_sig pc) ∧ engine_good server_engine (pc_media pc).
Proof. intros Hr Hp Hpc. destruct (g_peer w (reachable_good _ _ _ Hr) p pr Hp) as (_ & _ & Hs). by apply Hs. Qed.
Lemma reachable_settled `{GoRuntime, WebRTC, Amqp} c now w p pr pc :
  reachable c now w → w_peers w !! p = Some pr → p_peerConnection pr = Some pc → settled pr (pc_sig pc).
Proof. intros Hr Hp Hpc. by destruct (reachable_conn _ _ _ _ _ _ Hr Hp Hpc). Qed.

(** C3. In every state the server can reach, the connection of a peer is open and
    keeps the descriptions that fit its signalling state.  A publisher's is
    stable, with nothing negotiated or the client's offer and the server's
    answer; a subscriber's is stable or waits for the answer to the server's
    offer, and what it has negotiated is the server's offer and the client's
    answer.  A peer that no longer keeps candidates back has a remote
    description. *)
Theorem connections_settled `{GoRuntime, WebRTC, Amqp} c now w p pr pc :
  reachable c now w → w_peers w !! p = Some pr → p_peerConnection pr = Some pc → settled pr (pc_sig pc).
Proof. apply reachable_settled. Qed.

Lemma demo_publish_reach : reachable demo_conf (1000 * second) (demo_world demo_publish).
Proof. apply (demo_run_reachable demo_publish). vm_compute. reflexivity. Qed.

Lemma connections_settled_witness :
  settled (default peer_dummy (the_peer (demo_world demo_sub) 16)) (pc_sig (the_pc (demo_world demo_sub) 16)) ∧
  sg_state (pc_sig (the_pc (demo_world demo_sub) 16)) = SignalingStateHaveLocalOffer ∧
  sg_state (pc_sig (the_pc (demo_world demo_sub) 15)) = SignalingStateStable.
Proof.
  split; [|split; vm_compute; reflexivity].
  apply (connections_settled demo_conf (1000 * second) (demo_world demo_sub) 16 _ _ demo_sub_reach); vm_compute; reflexivity.
Defined.

Definition answer_reply (userID peerid sdp : string) : string := json_marshal [
  (LabelCmd, GStr CmdAnswer); (LabelSessID, GStr userID); (LabelPeerID, GStr peerid); (LabelSDP, GStr sdp); (LabelCode, GInt 0)].

(** C30. In every state the server can reach, the offer of a publisher is answered
    within its handler, whatever was negotiated before: if the offer can be read,
    its ssrc lines have a number and a name, the candidates that came early can
    be read, and the library accepts the offer on this connection, makes an
    answer and accepts that, then the connection is stable with the offer and
    the answer as its descriptions, the ssrcs of the offer are recorded, the
    candidates that came early are given to the connection in order, and the one
    message sent is the answer to the client. *)
Theorem offer_answered `{GoRuntime, WebRTC, Amqp} c now w p pr pc j d a : let offer := json_reencode (GetValue j LabelSDP) in
  reachable c now w → w_peers w !! p = Some pr → p_peerConnection pr = Some pc → p_role pr = 1 →
  Forall takes (p_candidateCaches pr) → answers pc offer a →
  SessionDescription_Unmarshal session_zero offer = Ok d →
  let medias := map media_section (MediaDescriptions d) in Forall (λ m, Forall attr_ok (m_attrs m)) medias →
  ∃ w' pr' pc', HandleRemoteOffer p j w = Ret tt w' ∧
    w_out w' = w_out w ++ [EvMqtt (GetValue j LabelSessID) (answer_reply (GetValue j LabelSessID) (GetValue j LabelPeerID) a)] ∧
    w_peers w' !! p = Some pr' ∧ p_peerConnection pr' = Some pc' ∧
    exchange_done pc' (MkDesc SDPTypeAnswer a) (MkDesc SDPTypeOffer offer) ∧
    pc_log pc' = pc_log pc ++ OpSetRemote "offer" offer :: OpCreateAnswer :: OpSetLocal "answer" a ::
      (OpAddICECandidate <$> p_candidateCaches pr) ∧
    p_audiossrc pr' = Some (declared "audio" medias) ∧ p_videossrc pr' = Some (declared "video" medias).
Proof.
  intros offer Hr Hp Hpc Hrole Hice Hans Hd medias Hok.
  destruct (reachable_settled _ _ _ _ _ _ Hr Hp Hpc) as (_ & Hopen & Hst & _).
  destruct (reachable_ok _ _ _ Hr) as [Hheap _]. destruct (ho_peer _ Hheap _ _ Hp) as (_ & [(_ & _ & Ha & Hv & Hc) | [? _]] & _);
    [|congruence]. destruct Hst as [(_ & Hst & _) | [? _]]; [|congruence].
  destruct (g_peer w (reachable_good _ _ _ Hr) p pr Hp) as (Hsend & _).
  destruct (offer_exchange w p pr pc (GetValue j LabelSDP) d a Hice Hans Hp Hpc Hopen Hst Ha Hv Hc Hd Hok)
    as (w' & pr' & pc' & E & Eo & Hp' & Hpc' & Es & Hdone & Hlog & Haud & Hvid).
  eexists _, pr', pc'. split.
  { unfold HandleRemoteOffer. rewrite (bind_ret _ _ _ _ _ E). unfold get_peer, call_handler, emit, mbind, M_bind, gets, modify.
    rewrite Hp'. cbn. rewrite Es, Hsend. reflexivity. }
  split; [cbn; by rewrite Eo|]. by split_and!.
Qed.

(** The Offer message of the publisher of the sample run. *)
Definition offer_with (sdp : string) : string :=
  json_marshal [(LabelCmd, GStr CmdOffer); (LabelRoomId, GStr "room1"); (LabelSessID, GStr "alice");
    (LabelSrcSessID, GStr ""); (LabelPeerID, GStr "p1"); (LabelSDP, GStr sdp)].

Lemma offer_answered_witness :
  let w := demo_world demo_publish in let j := default ∅ (CreateJSONParser (offer_with demo_sdp)) in
  ∃ w' pr' pc', HandleRemoteOffer 15 j w = Ret tt w' ∧ w_peers w' !! 15%nat = Some pr' ∧
    p_peerConnection pr' = Some pc' ∧
    exchange_done pc' (MkDesc SDPTypeAnswer demo_sdp) (MkDesc SDPTypeOffer (json_reencode (GetValue j LabelSDP))) ∧
    p_audiossrc pr' = Some [1001] ∧ p_videossrc pr' = Some [2002].
Proof.
  intros w j. destruct (@offer_answered demo_go demo_webrtc demo_amqp demo_conf (1000 * second) w 15 (default peer_dummy (the_peer w 15)) (the_pc w 15)
      j demo_desc demo_sdp demo_publish_reach)
    as (w' & pr' & pc' & E1 & _ & E2 & E3 & E4 & _ & E5 & E6);
    [vm_compute; reflexivity | vm_compute; reflexivity | vm_compute; reflexivity
    | replace (p_candidateCaches _) with (@nil string) by (vm_compute; reflexivity); constructor
    | | vm_compute; reflexivity | |].
  - split_and!; [vm_compute; reflexivity.. | discriminate | exists demo_desc; vm_compute; reflexivity].
  - repeat constructor; intros Hs; try discriminate Hs;
      eexists _, _, _; (split; [vm_compute; reflexivity | intros _; vm_compute; eexists; reflexivity]).
  - exists w', pr', pc'. split_and!; [exact E1 | exact E2 | exact E3 | apply E4.. | exact E5 | exact E6].
Defined.

(** ** An answer that was not asked for *)

(** Only a connection that has an offer out takes an answer. *)
Lemma answer_not_taken s sdp : sg_state s ≠ SignalingStateHaveLocalOffer → sg_state s ≠ SignalingStateHaveRemotePranswer →
  (setDescription s (MkDesc SDPTypeAnswer sdp) stateChangeOpSetRemote).2 ≠ None.
Proof.
  intros H1 H2. unfold setDescription. destruct (isClosed s); [done|]. rewrite decide_False by done. cbn.
  by destruct (sg_state s).
Qed.

(** The handler of a peer whose connection has no offer out does not return: the
    error of the library is a panic of the server. *)
Lemma answer_refused_stops `{WebRTC} w p pr pc j :
  w_peers w !! p = Some pr → p_peerConnection pr = Some pc →
  sg_state (pc_sig pc) ≠ SignalingStateHaveLocalOffer → sg_state (pc_sig pc) ≠ SignalingStateHaveRemotePranswer →
  ∃ r w', HandleRemoteAnswer p j w = Stop r w' ∧ (r = PExplicit ∨ r = PIndex).
Proof.
  intros Hp Hpc H1 H2. unfold HandleRemoteAnswer, accept_answer, SetRemoteDescription. set (sdp := json_reencode _).
  unfold mbind at 1, M_bind at 1. rewrite (bind_ret _ _ _ _ _ (pc_read_run w p pr pc _ Hp Hpc)).
  destruct (isClosed (pc_sig pc)); [eexists _, _; split; [reflexivity | by left]|].
  change (must (negb false)) with (mret tt : MW unit). rewrite mret_bind. unfold desc_Unmarshal.
  destruct (SessionDescription_Unmarshal session_zero sdp) as [d|e| |]; [|eexists _, _; split; [reflexivity | by left]
    | eexists _, _; split; [reflexivity | by right] | eexists _, _; split; [reflexivity | by right]].
  rewrite mret_bind. cbn [from_some]. rewrite mret_bind, (bind_ret _ _ _ _ _ (pc_step_run w p pr pc _ _ Hp Hpc)).
  unfold describe_remote. change (NewSDPType "answer") with SDPTypeAnswer.
  pose proof (answer_not_taken (pc_sig pc) sdp H1 H2) as Hn. destruct (setDescription _ _ _) as [s' [e|]]; [|done].
  eexists _, _. split; [reflexivity | by left].
Qed.

(** C39. In every state the server can reach: an Answer message for a subscriber
    whose connection is stable, such as a second answer to the same offer, ends
    the process, for the error of the library is a panic of the server (or, if
    the description has an empty repeat field, the parser panics). *)
Theorem stray_answer_stops `{GoRuntime, WebRTC, Amqp} c now w msg m r rx s x p pr pc :
  reachable c now w → m_regist (w_mgr w) = true →
  CreateJSONParser msg = Some m → GetValue m LabelCmd = CmdAnswer →
  m_rooms (w_mgr w) !! GetValue m LabelRoomId = Some r → w_rooms w !! r = Some rx →
  r_sessions rx !! GetValue m LabelSrcSessID = Some s → w_sess w !! s = Some x →
  s_subscribers x !! (GetValue m LabelSessID +:+ GetValue m LabelSrcSessID +:+ GetValue m LabelPeerID) = Some p →
  w_peers w !! p = Some pr → p_peerConnection pr = Some pc → sg_state (pc_sig pc) = SignalingStateStable →
  ∃ reason w', run_event (XMessage msg) w = Stop reason w' ∧ (reason = PExplicit ∨ reason = PIndex).
Proof.
  intros Hr Hreg Hm Hc Hroom Hrx Hs Hx Hk Hp Hpc Hst. destruct (reachable_ok _ _ _ Hr) as [_ HL].
  set (w1 := set_w_locks <[LSubs s := LRead 0]> w).
  destruct (answer_refused_stops w1 p pr pc m Hp Hpc) as (reason & w' & E & Hre); [by rewrite Hst.. |].
  exists reason, w'. split; [|done]. simpl. unfold roommgr_HandleMessage, handle_fields. rewrite Hm. simpl. rewrite Hc.
  unfold mbind at 1, M_bind at 1, gets at 1. rewrite Hreg. simpl.
  unfold to_room, mgr_rooms. unfold mbind at 1, M_bind at 1, gets at 1. rewrite Hroom.
  unfold room_HandleMessage. rewrite Hc. simpl. unfold forward_or. rewrite (bind_ret _ _ _ _ _ (room_sessions_run _ _ _ Hrx)), Hs.
  unfold session_HandleMessage. rewrite Hc. simpl. unfold session_answer.
  assert (RLock (LSubs s) w = Ret tt w1) as El
    by (unfold RLock, mbind, M_bind, gets; by rewrite HL, lookup_empty).
  rewrite (bind_ret _ _ _ _ _ El).
  assert (sess_subs s w1 = Ret (s_subscribers x) w1) as Es by (unfold sess_subs, get_sess, mbind, M_bind, gets; simpl; by rewrite Hx).
  rewrite (bind_ret _ _ _ _ _ Es), Hk. unfold peer_HandleMessage. rewrite Hc. simpl. unfold mbind, M_bind. by rewrite E.
Qed.

Definition answer_message : string := peer_msg CmdAnswer "room1" "bob" "alice" "p1".

(** The client of a subscriber sends its answer twice. *)
Lemma stray_answer_stops_witness :
  let w := demo_world (demo_sub ++ [AEv (XMessage answer_message)]) in
  stopped (demo_run (demo_sub ++ [AEv (XMessage answer_message)])) = None ∧
  ∃ reason w', run_event (XMessage answer_message) w = Stop reason w' ∧ (reason = PExplicit ∨ reason = PIndex).
Proof.
  intros w. split; [vm_compute; reflexivity|].
  apply (stray_answer_stops demo_conf (1000 * second) w answer_message (default ∅ (CreateJSONParser answer_message))
    12 (the_room w 12) 13 (the_sess w 13) 16 (default peer_dummy (the_peer w 16)) (the_pc w 16));
    [apply (demo_run_reachable (demo_sub ++ [AEv (XMessage answer_message)])); vm_compute; reflexivity | vm_compute; reflexivity..].
Defined.

(** ** Codecs *)

Lemma fits_h264 c : fits (videoCodecs server_engine) c → EqualFold (MimeType c) MimeTypeH264 = true.
Proof. intros (r & Hr & Hf). rewrite server_video in Hr. by apply list_elem_of_singleton in Hr as ->. Qed.
Lemma fits_opus c : fits (audioCodecs server_engine) c → EqualFold (MimeType c) MimeTypeOpus = true.
Proof. intros (r & Hr & Hf). rewrite server_audio in Hr. by apply list_elem_of_singleton in Hr as ->. Qed.

(** C4. In every state the server can reach, whatever descriptions clients and pods
    have sent: the codecs a connection offers and accepts are Opus for audio and
    H264 for video, up to the case of letters, with payload types of 8 bits, no
    two of them with the same name and type; what is registered never
    changes. *)
Theorem codecs_restricted `{GoRuntime, WebRTC, Amqp} c now w p pr pc :
  reachable c now w → w_peers w !! p = Some pr → p_peerConnection pr = Some pc →
  let video := getCodecsByKind (pc_media pc) RTPCodecTypeVideo in let audio := getCodecsByKind (pc_media pc) RTPCodecTypeAudio in
  Forall (λ c, EqualFold (MimeType c) MimeTypeH264 = true ∧ 0 ≤ PayloadType c < 2 ^ 8) video ∧
  Forall (λ c, EqualFold (MimeType c) MimeTypeOpus = true ∧ 0 ≤ PayloadType c < 2 ^ 8) audio ∧
  NoDup (map codec_key video) ∧ NoDup (map codec_key audio) ∧
  videoCodecs (pc_media pc) = videoCodecs server_engine ∧ audioCodecs (pc_media pc) = audioCodecs server_engine.
Proof.
  intros Hr Hp Hpc video audio. destruct (reachable_conn _ _ _ _ _ _ Hr Hp Hpc) as [_ [Ev Ea _ [_ Fv Uv] [_ Fa Ua]]].
  unfold video, audio, getCodecsByKind. split_and!; [| | | | done | done].
  - destruct (negotiatedVideo (pc_media pc)); [|rewrite Ev, server_video; by repeat constructor].
    eapply Forall_impl; [exact Fv|]. intros x [Hf Hx]. split; [by apply fits_h264 | done].
  - destruct (negotiatedAudio (pc_media pc)); [|rewrite Ea, server_audio; by repeat constructor].
    eapply Forall_impl; [exact Fa|]. intros x [Hf Hx]. split; [by apply fits_opus | done].
  - destruct (negotiatedVideo (pc_media pc)); [done | rewrite Ev, server_video; apply NoDup_singleton].
  - destruct (negotiatedAudio (pc_media pc)); [done | rewrite Ea, server_audio; apply NoDup_singleton].
Qed.

(** An offer with five codecs. *)
Definition browser_sdp : string := sdp_lines [
  "v=0"; "o=- 1 1 IN IP4 a"; "s=-"; "t=0 0";
  "m=audio 9 UDP/TLS/RTP/SAVPF 111 0"; "a=rtpmap:111 opus/48000/2"; "a=fmtp:111 minptime=10;useinbandfec=1"; "a=ssrc:1001 cname:x";
  "m=video 9 UDP/TLS/RTP/SAVPF 96 108 127"; "a=rtpmap:96 VP8/90000"; "a=rtpmap:108 h264/90000"; "a=rtcp-fb:108 nack pli";
  "a=fmtp:108 packetization-mode=1;profile-level-id=42001f"; "a=rtpmap:127 H264/90000"; "a=extmap:3 " +:+ TransportCCURI; "a=ssrc:2002 cname:x"].
Definition demo_browser : list act := demo_publish ++ [AEv (XMessage (offer_with browser_sdp))].

Lemma demo_browser_reach : reachable demo_conf (1000 * second) (demo_world demo_browser).
Proof. apply (demo_run_reachable demo_browser). vm_compute. reflexivity. Qed.

Lemma codecs_restricted_witness :
  let m := pc_media (the_pc (demo_world demo_browser) 15) in
  Forall (λ c, EqualFold (MimeType c) MimeTypeH264 = true ∧ 0 ≤ PayloadType c < 2 ^ 8) (getCodecsByKind m RTPCodecTypeVideo) ∧
  map codec_key (getCodecsByKind m RTPCodecTypeVideo) = [("video/h264", 108)] ∧ map codec_key (getCodecsByKind m RTPCodecTypeAudio) = [("audio/opus", 111)].
Proof.
  intros m. split; [|split; vm_compute; reflexivity].
  apply (codecs_restricted demo_conf (1000 * second) (demo_world demo_browser) 15 (default peer_dummy (the_peer (demo_world demo_browser) 15)) _ demo_browser_reach);
    vm_compute; reflexivity.
Defined.

(** An offer that the media engine cannot read. *)
Lemma remote_refused `{WebRTC} w p pr pc sdp d pre media post :
  conn w p pr pc → SessionDescription_Unmarshal session_zero sdp = Ok d → MediaDescriptions d = pre ++ media :: post →
  unmapped media → named "audio" media = true → forallb (λ x, negb (named "audio" x)) pre = true → negotiatedAudio (pc_media pc) = false →
  ∃ w', SetRemoteDescription p "offer" sdp w = Stop PExplicit w'.
Proof.
  intros [Hp Hpc] Hd Hm Hu Hn Hpre Ha. unfold SetRemoteDescription. rewrite (bind_ret _ _ _ _ _ (pc_read_run w p pr pc _ Hp Hpc)).
  destruct (isClosed (pc_sig pc)); [by eexists|]. change (must (negb false)) with (mret tt : MW unit). rewrite mret_bind.
  unfold desc_Unmarshal. rewrite Hd, mret_bind. cbn [from_some]. rewrite mret_bind, (bind_ret _ _ _ _ _ (pc_step_run w p pr pc _ _ Hp Hpc)).
  assert ((remote_codecs pc sdp).2 = false) as Er.
  { unfold remote_codecs. rewrite Hd. cbn [snd]. pose proof (unmapped_audio (wr_ext_order pc) pre (pc_media pc) media post Hu Hn Ha Hpre) as Hx.
    unfold updateFromRemoteDescription. rewrite Hm. by destruct (negotiate_medias _ _ _) as [m' [[]| | |]]. }
  unfold describe_remote. rewrite Er. destruct (setDescription _ _ _) as [s' [e|]]; by eexists.
Qed.

(** C40. In every state the server can reach: the first offer of a publisher ends the
    process if its first audio section lists a payload type without an rtpmap
    line, as is legal for the types RFC 3551 assigns, such as 8 for PCMA; only
    for type 0 the library makes an exception, and its error is a panic of the
    server. *)
Theorem static_payload_stops `{GoRuntime, WebRTC, Amqp} c now w p pr pc sdp d pre media post : let offer := json_reencode sdp in
  reachable c now w → w_peers w !! p = Some pr → p_peerConnection pr = Some pc → p_role pr = 1 →
  SessionDescription_Unmarshal session_zero offer = Ok d → Forall (λ m, Forall attr_ok (m_attrs m)) (map media_section (MediaDescriptions d)) →
  MediaDescriptions d = pre ++ media :: post → unmapped media → named "audio" media = true → forallb (λ x, negb (named "audio" x)) pre = true →
  negotiatedAudio (pc_media pc) = false →
  ∃ w', accept_offer p sdp w = Stop PExplicit w'.
Proof.
  intros offer Hr Hp Hpc Hrole Hd Hok Hm Hu Hn Hpre Ha. destruct (reachable_ok _ _ _ Hr) as [Hheap _].
  destruct (ho_peer _ Hheap _ _ Hp) as (_ & [(_ & _ & A1 & A2 & A3) | [? _]] & _); [|congruence].
  unfold accept_offer. fold offer. destruct (ssrcs_recorded w p pr offer d Hp A1 A2 A3 Hd Hok) as [E0 _].
  rewrite (bind_ret _ _ _ _ _ E0). change (must true) with (mret tt : MW unit). rewrite mret_bind. set (pr0 := with_ssrcs _ _ _ pr).
  assert (conn (peer_becomes w p pr0) p pr0 pc) as C0 by (split; [simpl; by rewrite lookup_insert_eq | exact Hpc]).
  destruct (remote_refused _ p pr0 pc offer d pre media post C0 Hd Hm Hu Hn Hpre Ha) as [w' E].
  exists w'. unfold mbind, M_bind. by rewrite E.
Qed.

(** An offer of PCMA, without rtpmap lines. *)
Definition pcma_sdp : string := sdp_lines [
  "v=0"; "o=- 1 1 IN IP4 a"; "s=-"; "t=0 0"; "m=video 9 RTP/AVP 0"; "m=audio 9 RTP/AVP 0 8"; "a=ssrc:1001 cname:x"].
Definition pcma_desc : SessionDescription :=
  Eval vm_compute in match SessionDescription_Unmarshal session_zero pcma_sdp with Ok d => d | _ => session_zero end.

Lemma static_payload_stops_witness :
  (∃ w', accept_offer 15 pcma_sdp (demo_world demo_publish) = Stop PExplicit w') ∧
  stopped (demo_run (demo_publish ++ [AEv (XMessage (offer_with browser_sdp))])) = None ∧
  stopped (demo_run (demo_publish ++ [AEv (XMessage (offer_with pcma_sdp))])) = Some PExplicit.
Proof.
  split; [|split; vm_compute; reflexivity]. set (w := demo_world demo_publish).
  apply (@static_payload_stops demo_go demo_webrtc demo_amqp demo_conf (1000 * second) w 15 (default peer_dummy (the_peer w 15)) (the_pc w 15)
    pcma_sdp pcma_desc (take 1 (MediaDescriptions pcma_desc)) (nth 1 (MediaDescriptions pcma_desc) (NewJSEPMediaDescription "")) [] demo_publish_reach);
    [vm_compute; reflexivity | vm_compute; reflexivity | vm_compute; reflexivity | vm_compute; reflexivity | | reflexivity | | reflexivity | reflexivity | vm_compute; reflexivity].
  - repeat constructor; intros Hs; try discriminate Hs;
      eexists _, _, _; (split; [vm_compute; reflexivity | intros _; vm_compute; eexists; reflexivity]).
  - exists "8", 8. split_and!; [vm_compute; by right; left | reflexivity | done | vm_compute; reflexivity].
Defined.
