(* ===== verification/Candidates.v ===== *)
(** * Candidates between the server and the library

    What becomes of the candidates that messages bring: a candidate that can be
    read is given to the connection, in every state the server can reach; one
    that cannot be read ends the process; a candidate of another cluster, which
    is sent as an object and read as a string, is understood by chance.  (The
    candidates of clients never come here: the session does not hand them on.) *)

From S2P Require Import Prelude GoLib Text Bytes Sdp Ice IceProps Signaling Json JsonProps Constants KeyframeFilter MediaEngine World Rmq Peer.
From S2P Require Import Notify Session Room RoomMgr Callbacks Server Demo Invariant Safety Leave Settled Ready PeerProps Faults Negotiate.

(** ** Candidates of another cluster *)

(** The members of a candidate, in the order of their keys. *)
Lemma candidate_printed text : fmt_v (decoded (candidate_value (MkCandidateInit text (Some EmptyString) (Some 0) None))) =
  "map[candidate:" +:+ text +:+ " " +:+ str_join " " ["sdpMLineIndex:0"; "sdpMid:"; "usernameFragment:<nil>]"].
Proof.
  change (decoded _) with (GMap [("candidate", GStr text); ("sdpMLineIndex", GFloat (mk_dec false "0" EmptyString 0));
    ("sdpMid", GStr EmptyString); ("usernameFragment", GNil)]).
  cbn [fmt_v map fst snd str_join]. rewrite <- !string_app_assoc. reflexivity.
Qed.

(** The text between the brackets has one more word in front of the foundation
    and three behind the type. *)
Lemma printed_candidate_read c : IceProps.made c →
  remote_candidate (fmt_v (decoded (candidate_value (MkCandidateInit ("candidate:" +:+ Cand_Marshal c) (Some EmptyString) (Some 0) None)))) =
    Ok (GiveAgent (Some (canonical_as ("map[candidate:candidate:" +:+ if decide (Foundation c = " ") then EmptyString else Foundation c) c))).
Proof.
  intros Hc. rewrite candidate_printed. change ("map[candidate:" +:+ ("candidate:" +:+ ?a) +:+ ?b) with ("map[candidate:candidate:" +:+ a +:+ b).
  apply (wrapped_candidate c); [done | done | done | simpl; lia | by repeat constructor | done | done].
Qed.

(** C32. A candidate that this pod found for a connection with another cluster
    arrives there: the message, which holds the candidate as an object, is read,
    its fields are those that were sent, and the printed form of the object is
    taken for a candidate.  It is the candidate that was sent except for its
    foundation, which has the brackets of the printed object in it. *)
Theorem fake_candidate_arrives `{GoRuntime} clusterid podid roomid userid peerid candi c :
  toICE candi = Ok c → IceProps.made c →
  Forall (λ s, ascii_str s = true) [clusterid; podid; roomid; userid; peerid; Cand_Marshal c] →
  ∃ m, CreateJSONParser (json_value (fCandiMsg CmdFakeCandidate clusterid podid roomid userid userid peerid 0 (ToJSON candi))) = Some m ∧
    GetValue m LabelCmd = CmdFakeCandidate ∧ GetValue m LabelPodId = podid ∧ GetValue m LabelRoomId = roomid ∧
    GetValue m LabelSessID = userid ∧ GetValue m LabelPeerID = peerid ∧
    remote_candidate (GetValue m CmdCandidate) =
      Ok (GiveAgent (Some (canonical_as ("map[candidate:candidate:" +:+ if decide (Foundation c = " ") then EmptyString else Foundation c) c))).
Proof.
  intros Hi Hc Ha. rewrite !Forall_cons in Ha. destruct Ha as (A1 & A2 & A3 & A4 & A5 & A6 & _).
  unfold ToJSON. rewrite Hi. unfold fCandiMsg. set (l := _ :: _). destruct (parse_message l) as (m & _ & Hm & Hk).
  - apply (bool_decide_unpack _). vm_compute. exact I.
  - unfold l. repeat constructor; try done. simpl. by rewrite A6.
  - exists m. split; [exact Hm|]. unfold GetValue. rewrite !Hk. unfold l. cbn.
    split_and!; try reflexivity. apply (printed_candidate_read c Hc).
Qed.

(** A host candidate of the second pod of the demonstration. *)
Definition found_candidate : ICECandidate :=
  MkCandidate "1966762134" 2130706431 "10.0.0.1" ICEProtocolUDP 5000 ICECandidateTypeHost 1 EmptyString 0 EmptyString.
Definition sent_candidate : Candidate :=
  MkCand "udp" NetworkTypeUDP4 CandidateTypeHost 1 "10.0.0.1" 5000 None TCPTypeUnspecified
    (Some (UDPAddr (v4InV6Prefix ++ [10; 0; 0; 1]) 5000)) "1966762134" 2130706431.

Lemma fake_candidate_arrives_witness :
  ∃ m, CreateJSONParser (json_value (fCandiMsg CmdFakeCandidate "c2" "pod-2" "room1" "alice" "alice" "p1" 0 (ToJSON found_candidate))) = Some m ∧
    GetValue m LabelPeerID = "p1" ∧
    remote_candidate (GetValue m CmdCandidate) = Ok (GiveAgent (Some (canonical_as "map[candidate:candidate:1966762134" sent_candidate))).
Proof.
  destruct (@fake_candidate_arrives demo_go "c2" "pod-2" "room1" "alice" "p1" found_candidate sent_candidate) as (m & Hm & _ & _ & _ & _ & Hp & Hc).
  - vm_compute. reflexivity.
  - apply (made_host "udp" "10.0.0.1" 5000 1 2130706431 "1966762134" TCPTypeUnspecified); [|vm_compute; reflexivity].
    constructor; [by right; right | done | done | done | done].
  - repeat constructor; vm_compute; reflexivity.
  - exists m. split; [exact Hm|]. split; [exact Hp | exact Hc].
Defined.

(** ** Candidates in the handlers *)

(** The log of the connection with one more call; a candidate that is kept. *)
Definition added (text : string) (p : nat) (pr : peer) (w : world) : world :=
  set_w_peers <[p := logged [OpAddICECandidate text] id pr]> w.
Definition kept (text : string) (p : nat) (pr : peer) (w : world) : world :=
  set_w_peers <[p := set_p_candidateCaches (λ l, l ++ [text]) pr]> w.

Lemma AddICECandidate_exact `{WebRTC} w p pr pc text : conn w p pr pc →
  AddICECandidate p text w = if takes_candidate pc text then Ret tt (added text p pr w) else Stop PExplicit (added text p pr w).
Proof.
  intros [Hp Hpc]. unfold AddICECandidate, pc_call. rewrite (bind_ret _ _ _ _ _ (pc_step_run w p pr pc _ _ Hp Hpc)). cbn [fst snd].
  assert (set_w_peers <[p := logged [OpAddICECandidate text] (λ _, pc_state pc) pr]> w = added text p pr w) as ->.
  { unfold added. do 2 f_equal. unfold logged, set_p_peerConnection. cbn. by rewrite Hpc. }
  by destruct (takes_candidate pc text).
Qed.

(** C31. What HandleRemoteCandidate does, in every state the server can reach:
    while no description of the client is set, the candidate is kept;
    afterwards it is given to the connection when it can be read, and a
    candidate that cannot be read ends the process, unless only its type or its
    network is unknown.  The connection then has a remote description, so the
    library never refuses a candidate for the lack of one. *)
Theorem candidate_handled `{GoRuntime, WebRTC, Amqp} c now w p pr pc j :
  reachable c now w → w_peers w !! p = Some pr → p_peerConnection pr = Some pc →
  let text := GetValue j CmdCandidate in
  HandleRemoteCandidate p j w =
    if p_setedRemoteDesc pr then
      match remote_candidate text with
      | Ok DiscardCandidate => Ret tt (added text p pr w)
      | Ok (GiveAgent _) => if wr_ice_agent pc then Ret tt (added text p pr w) else Stop PExplicit (added text p pr w)
      | _ => Stop PExplicit (added text p pr w)
      end
    else Ret tt (kept text p pr w).
Proof.
  intros Hr Hp Hpc text. destruct (reachable_settled _ _ _ _ _ _ Hr Hp Hpc) as (_ & _ & _ & Hs).
  unfold HandleRemoteCandidate. fold text.
  assert (get_peer p w = Ret pr w) as E by (unfold get_peer, mbind, M_bind, gets; by rewrite Hp).
  rewrite (bind_ret _ _ _ _ _ E). destruct (p_setedRemoteDesc pr) eqn:Ed; cbn [negb].
  - rewrite (AddICECandidate_exact w p pr pc text (conj Hp Hpc)). unfold takes_candidate.
    rewrite bool_decide_eq_true_2 by auto. cbn [andb]. by destruct (remote_candidate text) as [[]| | |].
  - unfold upd_peer, modify, kept. f_equal. unfold set_w_peers. f_equal. apply map_eq. intros q.
    rewrite lookup_alter, lookup_insert. by destruct (decide (p = q)) as [->|]; [rewrite Hp|].
Qed.

(** A pod of another cluster subscribes to the first user, answers the server's
    offer and sends its candidate, as it is published there. *)
Definition pod_msg (cmd : string) (more : list (string * goval)) : string :=
  json_marshal ([(LabelCmd, GStr cmd); (LabelClusterId, GStr "c2"); (LabelPodId, GStr "pod-2"); (LabelRoomId, GStr "room1");
    (LabelSessID, GStr "alice"); (LabelSrcSessID, GStr "alice"); (LabelPeerID, GStr "p1")] ++ more).
Definition demo_cross : list act := demo_ready ++ [
  AEv (XMessage (pod_msg CmdFakeSubscribe [])); AEv (XMessage (pod_msg CmdFakeAnswer [(LabelSDP, GStr demo_sdp)]))].
Definition cross_candidate : string :=
  json_value (fCandiMsg CmdFakeCandidate "c2" "pod-2" "room1" "alice" "alice" "p1" 0 (ToJSON found_candidate)).
Definition bad_candidate : string := pod_msg CmdFakeCandidate [(CmdCandidate, GStr "candidate:1 1 udp")].

Lemma demo_cross_reach : reachable demo_conf (1000 * second) (demo_world demo_cross).
Proof. apply (demo_run_reachable demo_cross). vm_compute. reflexivity. Qed.

(** The candidate of the other pod is taken; a message of it whose candidate is
    cut short ends the process. *)
Lemma candidate_handled_witness :
  let w := demo_world demo_cross in
  HandleRemoteCandidate 16 (candidate_fields sample_text) w =
    Ret tt (added sample_text 16 (default peer_dummy (the_peer w 16)) w) ∧
  HandleRemoteCandidate 16 (candidate_fields "candidate:1 1 udp") w =
    Stop PExplicit (added "candidate:1 1 udp" 16 (default peer_dummy (the_peer w 16)) w) ∧
  stopped (demo_run (demo_cross ++ [AEv (XMessage cross_candidate)])) = None ∧
  stopped (demo_run (demo_cross ++ [AEv (XMessage bad_candidate)])) = Some PExplicit.
Proof.
  intros w. assert (w_peers w !! 16%nat = Some (default peer_dummy (the_peer w 16))) as Hp by (vm_compute; reflexivity).
  assert (p_peerConnection (default peer_dummy (the_peer w 16)) = Some (the_pc w 16)) as Hpc by (vm_compute; reflexivity).
  assert (p_setedRemoteDesc (default peer_dummy (the_peer w 16)) = true) as Hd by (vm_compute; reflexivity).
  pose proof (λ j, candidate_handled demo_conf (1000 * second) w 16 _ _ j demo_cross_reach Hp Hpc) as Ha. cbv zeta in Ha. rewrite Hd in Ha.
  split; [exact (Ha (candidate_fields sample_text))|]. split; [exact (Ha (candidate_fields "candidate:1 1 udp"))|].
  split; vm_compute; reflexivity.
Defined.
