(* ===== verification/Push.v ===== *)
(** * Publishing: what a Push message does

    A Push makes a new publisher for the session of the user; one that was
    there under the same peer id is closed first.  The theorem is about the
    whole handler: it returns, and this is what it leaves. *)

From S2P Require Import Prelude GoLib Json Constants KeyframeFilter MediaEngine World Rmq Peer Notify Session.
From S2P Require Import Room RoomMgr Callbacks Server Demo Invariant PeerSafe Links SessionSafe.
From S2P Require Import RoomSafe RoomMgrSafe Safety Leave Ready ReadyRmq.

Section push.
Context `{GoRuntime, WebRTC, Amqp}.

(** ** The publisher that was there *)

(** The publisher under [k] is taken out of the session [s], whose publishers
    were [m]: the other
    publishers of the session, its subscribers and all other sessions and rooms
    stay as they are, and no other peer is opened or closed. *)
Record taken_out (w : world) (s : nat) (m : gmap string nat) (k : string) (w' : world) : Prop := {
  to_sess : ∀ s' x, w_sess w !! s' = Some x → ∃ x', w_sess w' !! s' = Some x' ∧
    s_userid x' = s_userid x ∧ s_subscribers x' = s_subscribers x ∧
    s_publishers x' = if decide (s' = s) then delete k (s_publishers x) else s_publishers x;
  to_room : ∀ r x, w_rooms w !! r = Some x → ∃ x', w_rooms w' !! r = Some x' ∧ rshape x' = rshape x;
  to_mgr : m_rooms (w_mgr w') = m_rooms (w_mgr w);
  to_peer : ∀ q pr, w_peers w !! q = Some pr → ∃ pr', w_peers w' !! q = Some pr' ∧ pident pr' = pident pr ∧
    (m !! k ≠ Some q → p_exitCh_closed pr' = p_exitCh_closed pr);
}.

Lemma taken_out_step w w' w'' s m k : taken_out w s m k w' → keeps w' w'' → taken_out w s m k w''.
Proof.
  intros [Ts Tr Tm Tp] [Kp Ks Kr Km _]. split.
  - intros s' x Hx. destruct (Ts s' x Hx) as (x' & Hx' & E1 & E2 & E3).
    destruct (Ks _ _ Hx') as (x'' & Hx'' & [= F1 _ F2 F3]). exists x''. split_and!; congruence.
  - intros r x Hx. destruct (Tr r x Hx) as (x' & Hx' & E). destruct (Kr _ _ Hx') as (x'' & Hx'' & F). exists x''. split; congruence.
  - congruence.
  - intros q pr Hq. destruct (Tp q pr Hq) as (pr' & Hq' & E1 & E2). destruct (Kp _ _ Hq') as (pr'' & Hq'' & [= F1 F2 F3 F4 F5 F6]).
    exists pr''. split_and!; [done | unfold pident in *; congruence |]. intros Hn. rewrite F6. by apply E2.
Qed.

Lemma taken_out_after w w' w'' s m k : keeps w w' → taken_out w' s m k w'' → taken_out w s m k w''.
Proof.
  intros [Kp Ks Kr Km _] [Ts Tr Tm Tp]. split.
  - intros s' x Hx. destruct (Ks _ _ Hx) as (x' & Hx' & [= F1 _ F2 F3]).
    destruct (Ts s' x' Hx') as (x'' & Hx'' & E1 & E2 & E3). rewrite F2 in E3. exists x''. split_and!; congruence.
  - intros r x Hx. destruct (Kr _ _ Hx) as (x' & Hx' & F). destruct (Tr r x' Hx') as (x'' & Hx'' & E). exists x''. split; congruence.
  - congruence.
  - intros q pr Hq. destruct (Kp _ _ Hq) as (pr' & Hq' & [= F1 F2 F3 F4 F5 F6]). destruct (Tp q pr' Hq') as (pr'' & Hq'' & E1 & E2).
    exists pr''. split_and!; [done | unfold pident in *; congruence |]. intros Hn. rewrite <- F6. by apply E2.
Qed.

Lemma taken_out_none w s x k : w_sess w !! s = Some x → s_publishers x !! k = None → taken_out w s (s_publishers x) k w.
Proof.
  intros Hx Hk. split; try (by eauto). intros s' y Hy. exists y. split_and!; try done.
  destruct (decide (s' = s)) as [->|]; [|done]. rewrite Hx in Hy. injection Hy as <-. by rewrite delete_id.
Qed.

Lemma close_pub_wp w s x k p :
  heap_ok ∅ w → w_sess w !! s = Some x → s_publishers x !! k = Some p →
  wp (_ ← notify_if_needed s p k; _ ← Destroy p; del_pub s k)
    (λ _ w', heap_ok ∅ w' ∧ grows w w' ∧ w_locks w' = w_locks w ∧ is_closed w' p ∧ taken_out w s (s_publishers x) k w') safe_exit w.
Proof.
  intros Hok Hs Hk. destruct (ho_pub _ Hok _ _ _ _ Hs Hk) as (pr & Hpr & _).
  apply wp_bind. eapply wp_mono; [by eapply (ntr_notify_if_needed ∅ w (w_locks w)) | | done].
  intros _ w0 (Hok0 & K0 & L0). destruct (keeps_sess _ _ _ _ K0 Hs) as (x0 & Hx0 & [= _ _ P0 _]).
  rewrite <- P0 in Hk. destruct (ho_pub _ Hok0 _ _ _ _ Hx0 Hk) as (pr0 & Hpr0 & _ & Hop).
  apply wp_bind. eapply wp_mono; [apply (Destroy_wp ∅ w0 p pr0); auto; set_solver | | done].
  intros _ w1 (Hok1 & K1 & L1 & C1). apply wp_modify.
  destruct (kb_s _ _ _ K1 _ _ Hx0) as (x1 & Hx1 & [= _ _ Epub _]).
  destruct (heap_del_pubs ({[p]} ∪ ∅) ∅ w1 s x1 (delete k)) as [Hok2 G2]; [done..| | |].
  - apply delete_subseteq.
  - intros q Hq. rewrite union_empty_r_L in Hq. apply elem_of_singleton in Hq as ->. right. exists k.
    rewrite Epub. by rewrite lookup_delete_eq.
  - split_and!; [done | | simpl; congruence | by eapply is_closed_grows |].
    { etrans; [by apply keeps_grows|]. etrans; [by eapply keeps_but_grows | done]. }
    split; simpl.
    + intros s' y Hy. destruct (keeps_sess _ _ _ _ K0 Hy) as (y0 & Hy0 & [= U0 _ Q0 R0]).
      destruct (kb_s _ _ _ K1 _ _ Hy0) as (y1 & Hy1 & [= U1 _ Q1 R1]). rewrite lookup_alter.
      destruct (decide (s = s')) as [->|Hne]; [rewrite decide_True by done | rewrite decide_False by done];
        rewrite Hy1; eexists; (split; [reflexivity|]); simpl; split_and!; congruence.
    + intros r y Hy. destruct (ke_r _ _ K0 _ _ Hy) as (y0 & Hy0 & ?). destruct (kb_r _ _ _ K1 _ _ Hy0) as (y1 & Hy1 & ?).
      exists y1. split; congruence.
    + rewrite (kb_m _ _ _ K1). apply K0.
    + intros q prq Hq. destruct (ke_p _ _ K0 _ _ Hq) as (q0 & Hq0 & [= V1 V2 V3 V4 V5 V6]).
      destruct (kb_p _ _ _ K1 _ _ Hq0) as (q1 & Hq1 & V7 & _ & V8). exists q1. split_and!; [done | unfold pident in *; congruence|].
      intros Hn. rewrite V8; [done|]. rewrite <- P0 in Hn. set_solver.
Qed.

Lemma drop_publisher_wp w s x k :
  heap_ok ∅ w → w_sess w !! s = Some x → w_locks w = ∅ →
  wp (drop_publisher s k)
    (λ _ w', heap_ok ∅ w' ∧ grows w w' ∧ w_locks w' = ∅ ∧ taken_out w s (s_publishers x) k w' ∧
       ∀ old, s_publishers x !! k = Some old → is_closed w' old) safe_exit w.
Proof.
  intros Hok Hx HL. unfold drop_publisher. eapply wp_sess_pubs; [done|].
  destruct (s_publishers x !! k) as [p|] eqn:Hk; [|apply wp_ret; split_and!; [done.. | by eapply taken_out_none | done]].
  apply wp_bind. eapply wp_mono; [apply (@ntr_Lock ∅ w ∅ (LPubs s)); [apply lookup_empty | done..] | | done].
  intros _ w1 (Hok1 & K1 & L1). destruct (keeps_sess _ _ _ _ K1 Hx) as (x1 & Hx1 & [= _ _ P1 _]).
  apply wp_assoc3, wp_bind.
  eapply wp_mono; [apply (close_pub_wp w1 s x1 k p); [done | done | by rewrite P1] | | done].
  intros _ w2 (Hok2 & G2 & L2 & C2 & T2). rewrite L1 in L2.
  eapply wp_mono; [by apply (@ntr_Unlock ∅ w2 ∅ (LPubs s)); [apply lookup_empty|..] | | done].
  intros _ w3 (Hok3 & K3 & L3). split_and!; [done | | done | |].
  - etrans; [by apply keeps_grows|]. etrans; [done | by apply keeps_grows].
  - eapply taken_out_step; [|done]. eapply taken_out_after; [done|]. by rewrite <- P1.
  - intros old [= <-]. eapply is_closed_grows; [by apply keeps_grows | done].
Qed.

#[local] Hint Resolve ctr_notify_if_needed : calm.
Lemma ctr_drop_publisher s k : ctr (drop_publisher s k).
Proof. unfold drop_publisher. ctr_auto. Qed.

(** ** The new publisher *)

(** The WebRTC library makes a connection when it is asked for one. *)
Definition connections_work : Prop := ∀ n, wr_new_pc n = true.

Definition push_reply (u pid : string) : string := json_marshal [
  (LabelCmd, GStr CmdPush); (LabelSessID, GStr u); (LabelPeerID, GStr pid); (LabelCode, GInt 0)].

(** A publisher that was just made for the session [s]. *)
Definition new_publisher (s : nat) (u pid : string) (pr : peer) : Prop :=
  p_role pr = 1 ∧ p_parent pr = s ∧ p_userid pr = u ∧ p_peerid pr = pid ∧
  p_isFake pr = false ∧ p_isReady pr = false ∧ p_exitCh_closed pr = false ∧
  (∃ c, p_peerConnection pr = Some (MkPc c [] (MkState Signaling.new_signaling server_engine))) ∧ p_onSendMessageHandler pr = true ∧
  p_filter pr = Some (CreateKeyframeFilter true).

(** After the old publisher is gone: the new one takes its place, everything
    else stays, and the user is told. *)
Definition pushed (w : world) (s : nat) (u pid : string) (w' : world) : Prop :=
  ∃ p pr x x', w_peers w !! p = None ∧
    w_peers w' = <[p := pr]> (w_peers w) ∧ new_publisher s u pid pr ∧
    w_sess w !! s = Some x ∧ w_sess w' !! s = Some x' ∧
    s_publishers x' = <[pid := p]> (s_publishers x) ∧ s_subscribers x' = s_subscribers x ∧
    (∀ s', s' ≠ s → w_sess w' !! s' = w_sess w !! s') ∧ w_rooms w' = w_rooms w ∧ w_mgr w' = w_mgr w ∧
    w_locks w' = w_locks w ∧ w_out w' = w_out w ++ [EvMqtt u (push_reply u pid)].

Lemma create_run s u pid b w :
  connections_work →
  ∃ n c, CreatePublishPeer s u pid EmptyString b w =
    Ret (Some (w_next w)) (set_w_peers <[w_next w := MkPeer u EmptyString pid 1 b (Some (MkPc c [] (MkState Signaling.new_signaling server_engine)))
      false false false false false (Some (CreateKeyframeFilter (negb b))) false None s false [] false
      false codec_zero codec_zero (Some []) (Some []) (Some []) 0 false 0 EmptyString]>
      (set_w_next S (set_w_choice (λ _, n) w))).
Proof.
  intros Hn. unfold CreatePublishPeer. rewrite init_codecs. cbv iota. unfold new_connection. rewrite init_interceptors.
  unfold alloc_peer, choose, mbind, M_bind, gets, modify, mret, M_ret. fold server_engine.
  rewrite Hn. cbn [negb]. destruct w. eauto.
Qed.

Lemma push_rest w w1 s x u pid :
  connections_work → heap_ok ∅ w1 → w_sess w1 !! s = Some x → s_onSendMessageHandler x = true →
  w_locks w1 = ∅ → drop_publisher s pid w = Ret tt w1 →
  ∃ w', session_push s u pid w = Ret tt w' ∧ pushed w1 s u pid w'.
Proof.
  intros Hlib Hok Hx Hh HL Hd. unfold session_push. rewrite (bind_ret _ _ _ _ _ Hd).
  destruct (create_run s u pid false w1 Hlib) as (n & c & Hc).
  rewrite (bind_ret _ _ _ _ _ Hc).
  unfold get_sess, peer_SetSendMessageHandler, upd_peer, put_pub, upd_sess, Lock, Unlock, call_handler,
    emit, mbind, M_bind, gets, modify. simpl. rewrite Hx. simpl. rewrite Hh, HL, lookup_empty. simpl.
  rewrite HL, lookup_insert_eq. simpl. eexists. split; [reflexivity|].
  eexists (w_next w1), _, x, (set_s_publishers <[pid := w_next w1]> x). split_and!; try reflexivity.
  - destruct (w_peers w1 !! w_next w1) as [pr|] eqn:E; [|done].
    assert (is_Some (w_peers w1 !! w_next w1)) as Hn by by eexists.
    apply (ho_next_p w1 Hok) in Hn. lia.
  - simpl. by rewrite alter_insert_eq.
  - by repeat split; eexists.
  - done.
  - simpl. by rewrite lookup_alter_eq, Hx.
  - intros s' Hs'. simpl. by rewrite lookup_alter_ne.
  - simpl. rewrite HL. by apply delete_insert_id.
Qed.
End push.

(** C33. A Push returns, and publishes: with libraries whose calls succeed, in
    a reachable state where no keyframe filter was started twice, the publisher
    that was there under the same peer id is closed and taken out, and a new
    one, open and not ready yet, takes its place; the other publishers of the
    session and its subscribers, the other sessions and the rooms are what they
    were before the message, no other peer is opened or closed, no mutex is left
    held, and after the notices about the old stream the user gets one reply
    with code 0. *)
Theorem push_publishes `{GoRuntime, WebRTC, Amqp} c now w s x u pid :
  reachable c now w → amqp_works → connections_work →
  (∀ p pr, w_peers w !! p = Some pr → filter_single pr) → w_sess w !! s = Some x →
  ∃ w1 w', drop_publisher s pid w = Ret tt w1 ∧ taken_out w s (s_publishers x) pid w1 ∧
    session_push s u pid w = Ret tt w' ∧ pushed w1 s u pid w' ∧
    (∃ p x', w_peers w !! p = None ∧ w_sess w' !! s = Some x' ∧
       s_publishers x' = <[pid := p]> (s_publishers x) ∧ s_subscribers x' = s_subscribers x) ∧
    heap_ok ∅ w' ∧ w_locks w' = ∅ ∧
    ∀ old, s_publishers x !! pid = Some old → is_closed w1 old ∧ is_closed w' old.
Proof.
  intros Hr Ha Hlib Hf Hx. destruct (reachable_ok _ _ _ Hr) as [Hok HL].
  pose proof (reachable_good _ _ _ Hr) as Hg. pose proof (reachable_calm _ _ _ Hr Ha Hf) as Hc.
  destruct (wp_returns _ _ _ _ (drop_publisher_wp w s x pid Hok Hx HL) (ctr_drop_publisher s pid w Hc))
    as ([] & w1 & E1 & (Hok1 & G1 & L1 & T1 & C1) & _).
  pose proof (wp_run _ _ _ _ _ _ (itr_drop_publisher s pid w Hg) E1) as Hg1.
  destruct (gr_s _ _ G1 _ _ Hx) as (x1 & Hx1 & _). destruct (g_sess w1 Hg1 s x1 Hx1) as [Hh _].
  destruct (push_rest w w1 s x1 u pid Hlib Hok1 Hx1 Hh L1 E1) as (w' & E' & Hp).
  assert (gtr w ∅ (session_push s u pid) ∅) as Hgtr by (eapply gtr_session_push; [done | apply sess_free_empty]).
  destruct (wp_run _ _ _ _ _ _ (Hgtr w Hok (reflexivity _) HL) E') as (Hok' & _ & L').
  exists w1, w'. split_and!; [done.. | | done | done |].
  { destruct Hp as (p & _ & y & x' & Hn & _ & _ & Hy & Hx' & Hpub & Hsub & _).
    destruct (to_sess _ _ _ _ _ T1 _ _ Hx) as (y' & Hy' & _ & Es & Ep). rewrite decide_True in Ep by done.
    assert (y' = y) as -> by congruence. exists p, x'. split_and!; [|done | | congruence].
    - destruct (w_peers w !! p) as [q|] eqn:Hq; [|done]. destruct (to_peer _ _ _ _ _ T1 _ _ Hq) as (? & ? & _). congruence.
    - by rewrite Hpub, Ep, insert_delete_eq. }
  intros old Ho. split; [by apply C1|].
  destruct (C1 old Ho) as (pr & Hpr & Hcl). destruct Hp as (p & pn & _ & _ & Hn & Hw & _).
  exists pr. split; [|done]. rewrite Hw, lookup_insert_ne; [done | congruence].
Qed.

(** The publisher of the sample run is replaced. *)
Lemma push_publishes_witness :
  let w := demo_world demo_sub in let pubs := s_publishers (the_sess w 13) in
  ∃ w1 w', drop_publisher 13 "p1" w = Ret tt w1 ∧ taken_out w 13 pubs "p1" w1 ∧
    session_push 13 "alice" "p1" w = Ret tt w' ∧ pushed w1 13 "alice" "p1" w' ∧
    (∃ p x', w_peers w !! p = None ∧ w_sess w' !! 13%nat = Some x' ∧
       s_publishers x' = <["p1" := p]> pubs ∧ s_subscribers x' = s_subscribers (the_sess w 13)) ∧
    heap_ok ∅ w' ∧ w_locks w' = ∅ ∧
    ∀ old, pubs !! "p1" = Some old → is_closed w1 old ∧ is_closed w' old.
Proof.
  apply (push_publishes demo_conf (1000 * second) (demo_world demo_sub) 13
           (the_sess (demo_world demo_sub) 13) "alice" "p1" demo_sub_reach demo_amqp_works).
  - done.
  - apply (calm_filter (demo_world demo_sub)), calmb_calm. vm_compute. reflexivity.
  - vm_compute. reflexivity.
Defined.

(** ** Handlers that overlap

    The theorems about reachable states are about handlers that run one after
    the other.  Two of the places where the source does not keep handlers that
    run at the same time apart, as sequences of their parts. *)

(** What drop_publisher does after it has read the map without the mutex. *)
Definition drop_read `{GoRuntime, WebRTC, Amqp} (s value : nat) (peerid : string) : MW unit :=
  _ ← Lock (LPubs s);
  _ ← notify_if_needed s value peerid;
  _ ← Destroy value;
  _ ← del_pub s peerid;
  Unlock (LPubs s).

Lemma drop_publisher_parts `{GoRuntime, WebRTC, Amqp} s peerid :
  drop_publisher s peerid =
    (pubs ← sess_pubs s; match pubs !! peerid with Some value => drop_read s value peerid | None => skip end).
Proof. reflexivity. Qed.

(** Two messages that replace the same publisher: both have found it in the map
    before one of them takes the mutex; the second closes its channel again. *)
Theorem overlapping_push_stops :
  s_publishers (the_sess (demo_world demo_ready) 13) !! "p1" = Some 15%nat ∧
  match drop_read 13 15 "p1" (demo_world demo_ready) with
  | Ret _ w1 => match drop_read 13 15 "p1" w1 with Stop r _ => r = PCloseClosed | Ret _ _ => False end
  | Stop _ _ => False
  end.
Proof. split; vm_compute; reflexivity. Qed.

(** Two reconnections of a session of another cluster that both wait for its
    watcher before one of them starts the next: the session then has two. *)
Theorem overlapping_reconnect_doubles :
  length (s_watchers (the_sess (demo_world demo_fakepublish) 16)) = 1%nat ∧
  match (_ ← exit_and_wait 16; _ ← exit_and_wait 16; _ ← FakeSubscribe 16 "carol" "q1" 1; FakeSubscribe 16 "carol" "q1" 1)
          (demo_world demo_fakepublish) with
  | Ret _ w => length (s_watchers (the_sess w 16)) = 2%nat
  | Stop _ _ => False
  end.
Proof. split; vm_compute; reflexivity. Qed.
