(* ===== verification/MediaFaults.v ===== *)
(** * A packet that stops the server

    The server panics when a track returns an error other than a closed pipe,
    and a track returns an error for bytes that are not an RTP packet: what the
    forwarding loop of a publisher reads is not checked before. *)

From Stdlib Require Import Ascii String.
From stdpp Require Import strings gmap.
From S2P Require Import Prelude GoLib Json Bytes Rtp MediaEngine World Track Peer Session Server Demo.

Definition string_bytes (s : string) : list Z := map byte (list_ascii_of_string s).

Definition bytes_string (l : list Z) : string := string_of_list_ascii (map chr l).

(** What deliverAudioData and deliverVideoData distinguish in the answer of
    Write. *)
Definition write_outcome (r : res Empty_set (list (nat * Header * list Z) * (nat * option go_err)))
    : write_result :=
  match r with
  | Ok (_, (_, None)) => WOk
  | Ok (_, (_, Some e)) => if is_closed_pipe e then WClosedPipe else WErr
  | _ => WErr
  end.

(** The tracks of the server are those of the library: each answer is the one
    of Write, on some track and some buffer behind the bytes. *)
Definition static_tracks `{WebRTC} : Prop := ∀ n d, ∃ WriteRTP tr slack,
  wr_track_write n d =
  write_outcome (Write WriteRTP tr (Slice (string_bytes d ++ slack) (length (string_bytes d)))).

(** No capacity behind the bytes makes a packet of them. *)
Definition unreadable (d : string) : Prop := ∀ slack, ∃ e,
  Packet_Unmarshal empty_packet (Slice (string_bytes d ++ slack) (length (string_bytes d))) = Err e.

Lemma unreadable_write `{WebRTC} n d : static_tracks → unreadable d → wr_track_write n d = WErr.
Proof.
  intros Ht Hd. destruct (Ht n d) as (W & tr & slack & ->). destruct (Hd slack) as [e He].
  unfold Write. by rewrite He.
Qed.

(** Bytes that are not an RTP packet stop the process when they are
    delivered to a subscriber with a video track: Write refuses them, the error
    is not io.ErrClosedPipe, and deliverVideoData panics with it.  Among such
    bytes are the empty slice, which the forwarding loop delivers when a read
    fails with an error other than io.EOF, and a packet whose padding is longer
    than the packet (bad_padding below), which any publisher can send. *)
Theorem unreadable_packet_stops `{GoRuntime, WebRTC} w p pr buff n :
  static_tracks → unreadable (str_take (Z.to_nat n) buff) → 0 ≤ n ≤ Z.of_nat (string_len buff) →
  w_peers w !! p = Some pr → p_videoTrack pr = true →
  ∃ w', deliverVideoData p buff n w = Stop PExplicit w'.
Proof.
  intros Ht Hd Hn Hp Hv. unfold deliverVideoData, get_peer, from_some, gets, mbind, M_bind, mret, M_ret.
  rewrite Hp, Hv. unfold slice_to. rewrite (proj2 (Z.leb_le _ _)), (proj2 (Z.leb_le _ _)) by lia. cbn [andb].
  unfold track_write, choose, mbind, M_bind, mret, M_ret, gets, modify.
  rewrite (unreadable_write _ _ Ht Hd). by eexists.
Qed.

(** A header and one byte of padding that counts itself as 255. *)
Definition bad_padding : string := bytes_string [0xA0; 96; 0; 7; 0; 0; 0; 1; 0; 0; 0; 2; 0xFF].

Lemma bad_padding_unreadable : unreadable bad_padding.
Proof. intros slack. exists errTooSmall. reflexivity. Qed.

Lemma nothing_unreadable : unreadable EmptyString.
Proof. intros slack. exists errHeaderSizeInsufficient. reflexivity. Qed.

(** The library of the demonstration, with the tracks of the library: one
    binding, whose writer succeeds. *)
Definition media_webrtc : WebRTC :=
  let tr := set_bindings [MkBinding "b" 9 102 0] (NewTrackLocalStaticRTP codec_zero "video" "pion-v") in {|
  wr_new_pc := @wr_new_pc demo_webrtc;
  wr_create_offer := @wr_create_offer demo_webrtc;
  wr_create_answer := @wr_create_answer demo_webrtc;
  wr_set_local := @wr_set_local demo_webrtc;
  wr_set_remote := @wr_set_remote demo_webrtc;
  wr_ext_order := @wr_ext_order demo_webrtc;
  wr_ext_order_perm := @wr_ext_order_perm demo_webrtc;
  wr_populate := @wr_populate demo_webrtc;
  wr_ice_agent := @wr_ice_agent demo_webrtc;
  wr_add_track := @wr_add_track demo_webrtc;
  wr_create_dc := @wr_create_dc demo_webrtc;
  wr_track_write _ d := write_outcome (Write (λ _ _ _, None) tr (Slice (string_bytes d) (length (string_bytes d))));
  wr_url := @wr_url demo_webrtc;
|}.

Lemma media_webrtc_static : static_tracks (H := media_webrtc).
Proof. intros n d. eexists _, _, []. rewrite app_nil_r. reflexivity. Qed.

Lemma unreadable_packet_stops_witness :
  ∃ w', deliverVideoData (H0 := media_webrtc) 16 bad_padding 13 (demo_world demo_sub) = Stop PExplicit w'.
Proof.
  destruct (w_peers (demo_world demo_sub) !! 16%nat) as [pr|] eqn:Hp; [|vm_compute in Hp; discriminate].
  assert (p_videoTrack pr = true) as Hv by (vm_compute in Hp; injection Hp as <-; reflexivity).
  apply (unreadable_packet_stops (H0 := media_webrtc) _ 16 pr bad_padding 13 media_webrtc_static);
    [exact bad_padding_unreadable | vm_compute; split; discriminate | exact Hp | exact Hv].
Defined.
